(* ===== verification/_CoqProject ===== *)
-Q . S2P
Prelude.v
CString.v
Libc.v
Unicode.v
HostMatch.v
JsonEscape.v
Buf.v
Codec.v
SecretInterp.v
ExternalContent.v
SecretScanTables.v
SecretScan.v
AhoCorasick.v
Redact.v
Proxy.v
Cron.v
CronJobs.v
Ingest.v
Store.v
Delivery.v
DeliveryStream.v
Advance.v
SessionTypes.v
StreakGuard.v
TurnBudget.v
Config.v
Json1.v
ToolPolicy.v
Approval.v
Resolve.v
Gate.v
Trust.v
Recovery.v
ApprovalOnce.v
Settle.v
Egress.v
Wire.v
ToolFrame.v
Routing.v
Capture.v
Complete.v
Setup.v
ToolRequest.v
Dispatch.v
DispatchOnce.v
DispatchEgress.v
Supervisor.v
ChannelEvents.v
Outbox.v
ContextPlan.v
History.v
