(* ===== verification/Prelude.v ===== *)
(** * CClaw: a verification library

    CClaw (src/) is an agent runtime in C: one process with a poll loop, worker
    threads for the model's requests, forked children for tools, and one SQLite
    database that holds all state.  This library models the code that decides
    things: which text reaches a model, which host a child may talk to, which job
    fires and where its message lands, and what a session does next.  Definitions
    keep the source's names; where a name is taken in Rocq, the comment says which
    function it is.

    ** How the parts of the program interact

    A session of an agent is driven by [advance_session] (src/advance.c), called
    from the poll loop for each session that may make progress.  It reads the
    session's row, drains the inbox into entries when the session is idle, and
    answers with what the loop must do: send a request, run the tools the model
    asked for, wait, or nothing more.  Each call of a tool passes
    [dispatch_gate] (grant, filter, policy, hook, sensitive hosts, secret bindings,
    approval) and runs under the hosts [call_egress_build] chose; its arguments pass
    through [secret_interpolate]; results pass through
    [tool_result_postprocess] (mask secret values, defuse forged markers, redact
    token-shaped text) and then [truncate_and_spill].  Children reach the network
    only through the egress proxy, whose policy is made of host rules, CIDR grants
    and the set of addresses its own resolver vetted.  Cron jobs insert inbox rows
    or start fresh sessions.  When a turn ends, [advance_deliver_boundary] carries
    the outcome along the session's delivery edges to parents and chats.

    ** Files

    - [Prelude] (this file): bytes, widths, automation, generic lemmas.
    - [CString]: src/util.c (string helpers) and src/validate.h.
    - [Libc]: what the sources take from the C library, as classes with laws and
      one concrete instance each ([InetPton], [Qsort]); [snprintf], [strtol].
    - [Unicode]: src/unicode_normalize.c.  [JsonEscape]: src/json_escape.c.
      [Buf]: src/buf.c (the growable buffer, [template_render]).
      [Codec]: base64 and URL encoders, src/secret.c (class [Aead]).
    - [HostMatch]: src/host_match.c and src/http_policy.c.
    - [SecretInterp], [Redact]: src/secret_interp.c.  [ExternalContent]:
      src/external_content.c.  [SecretScanTables], [SecretScan], [AhoCorasick]:
      src/secret_scan.c and its generated tables.
    - [Proxy]: src/proxy.c.  The handler of one connection is a program of atomic
      steps; [step] interleaves any number of them over the shared context.
    - [Cron], [CronJobs]: src/cron.c and the refusals of src/tool_cron.c.
    - [Ingest]: tool_result_scrub (src/secret_store.c), truncate_and_spill
      (src/context.c).
    - [Store]: the tables of templates/schema.sql that the session machine uses,
      and the operations of src/db.c on them.
    - [Delivery], [DeliveryStream]: the delivery half of src/advance.c.
    - [Advance], [SessionTypes], [StreakGuard], [TurnBudget]: the session machine
      of src/advance.c and four views of it.  [DeliveryStream] also models the launch
      policies and the poll of src/tool_agent.c, which move the same cursors.
    - [Recovery]: the process registry and db_recover_stale_sessions (src/db.c).
    - [Config]: src/config_registry.c.  [Json1]: src/tool_args.c over a class of
      JSON documents (what SQLite's JSON1 answers).  [ToolPolicy]:
      src/tool_policy.c, with SQL's three truth values written out.
    - [Approval]: the rows, transitions, deadlines, receipts and card blocks of
      src/approval.c, and the [World]: the session tables with the tables of the
      trust decisions.  [Resolve]: src/resolve.c, the approval sweeps of
      src/sweep.c, the grants of src/agent_config.c.  [Gate]: dispatch_gate and
      call_egress_build of src/dispatch.c.
    - [Trust], [ApprovalOnce], [Settle], [Egress]: what the gate, the life of an
      approval, a decision and the egress of a call guarantee; [Egress] composes
      the gate's host lists with the proxy's policy.
    - [Wire]: the request of a tool child, src/run_tool.c (writer and reader).
      [ToolFrame]: its answer: the drain of the command, the spill file and the frame
      of src/run_tool.c, the daemon's drain and the table of children of src/child.c.
    - [Routing]: which model answers, src/llm_proc.c and src/llm_transport.c: health,
      candidates, the selection loop, LLM() and media jobs.
    - [Capture]: src/secret_capture.c, secrets_snapshot of src/secret_store.c and the
      secrets table of src/db.c.  [Complete]: how a tool call ends, the sweep and the
      reaping of src/dispatch.c, over the interface [Secure] that [Gate] and
      [SecretScan] implement.
    - [Setup]: the registry of src/tools.c with the extension tools of src/tool_js.c, the
      profiles of src/sandbox.c, the capabilities of src/agent_config.c and the refresh
      of src/agent_setup.c before every batch.  [ToolRequest]: what a call sends its
      child: src/tool_args.c, the secrets of src/tool_shell.c, the directories of
      src/config.c and src/skills.c.  [Dispatch]: dispatch_tool of src/dispatch.c with its
      vehicles (inline over the interface [Handlers], thread, the four sandbox tiers),
      background jobs, the runner of scheduled scripts, and the batch of run_advance in
      src/loop.c.  [DispatchOnce]: what a dispatch leaves of its call and a batch of its
      calls, over the laws [HandlersLaw] of the inline tools.
      [DispatchEgress]: what reaches the child, the gate, the egress, the request on the
      pipe and the proxy's policy composed.
    - [Supervisor]: the processes of the channels, src/channel.c: the process table, the
      launch gate, the tick, the back-off and the operator's verbs.
    - [ChannelEvents]: what comes in on a channel: the events, the gate, the pins of
      src/channel.c and the intents of src/channel_intent.c, over [Resolve] and [Secure].
    - [Outbox]: what goes out on a channel: the rows of channel_outbox, src/channel_api.c,
      and the queue and the request in flight of src/channel_runner.c.
    - [ContextPlan]: the plan of a request, src/context.c: the branch without failed and
      suppressed entries, the cut, the pins, the tail a compaction keeps, and the tests that
      trigger it.  [History]: compaction, src/llm_proc.c, and condensing,
      src/tool_session_condense.c, over the tree of entries of [Store].

    ** Data and effects

    A byte or a [char] is a [Z] in [0, 256), a C string the list of its bytes
    before the NUL, a pointer into a string the suffix it points at.  Integers are
    [Z]; where the width matters the wrap is written out ([wrap32], [Buf.grow],
    the shifts of [HostMatch]).  A buffer the caller supplies is its capacity, and
    the functions say how much they write.  Allocation is a function from the size
    asked for to whether it succeeds; a theorem covers every pattern of failures unless
    it fixes the allocator ([always], [fun _ => true]), and then says so.

    A table is the list of its rows in id order, and an SQL statement is the list
    operation it names; the triggers of the schema are part of the insert they
    follow.  What can fail at run time is an argument: a transaction takes whether
    its BEGIN and its COMMIT succeeded and leaves the store as it was unless both
    did; [Advance.Io] carries these outcomes for one call of [advance_session].

    ** Parameters

    Code that is not in src/ is an argument: [inet_pton] and [inet_ntop], [qsort]
    (some sorting permutation), the entropy of a string (a float computation, of
    which the model keeps the byte counts), [localtime_r] and [mktime], the AEAD
    primitive of vendor/monocypher, the resolver's answers and the sockets of the
    proxy, the clock.  A JSON document
    is what SQLite's JSON1 functions make of a text ([Json1]).  Whether the next request overflows the context
    window is the argument [turn_overflows] of the session machine; the estimate and the trigger
    it stands for are modelled in [ContextPlan].  [Ingest] is a class with the implementation of this library as its
    instance, so the delivery theorems hold of any ingestion.

    ** Fuel and bounds

    Loops over a text run on the suffix still to be read, with its length as fuel:
    every round consumes a byte.  [Cron.next_loop] has the seconds of the 366 days the code
    searches as fuel: each round moves the candidate forward.  [Libc.digits] prints with fuel 20, enough for 64
    bits.  The walk up an answer's entries has the code's own limit,
    [RESPONSE_WALK_MAX] rounds and one more; [EDGE_MAX] and [SWEEP_MAX] are the
    code's fixed arrays.  The SNI parser's rounds are bounded by the size of the
    peek buffer.  [session_branch 51] reads as many entries as the cutoff note
    looks at.

    ** What the theorems show

    - Sessions: [StreakGuard.autonomous_streak_bounded] (the runaway guard, under
      any interleaving of writers), [TurnBudget] (a turn dispatches no more often than its
      budget and its failed counts allow, its opening neither loses nor invents
      messages, its cap ends it with a notice),
      [SessionTypes.advance_session_typed].
    - Delivery: exactly once and in order along an edge that streams, polls counted, at most once per boundary,
      every blocking launch answered, spilled results within their limits and
      inside their directory.
    - Egress: every address dialled is authorised by the policy, in every
      interleaving; slots are counted exactly; host rules, CIDR texts, private
      ranges and URL hosts mean what they are documented to mean.
    - Secrets: the automaton scans like a naive search, redaction stays in its
      buffer and covers its findings, values and their encoded forms do not survive masking as
      far as its buffers and its memory reach, post-processing fails closed, stored secrets round-trip.
    - Cron: the search finds the first matching minute, a tick settles, a fire
      lands in the session its job is meant for or tells its owner, an upsert merges.
    - Texts: UTF-8 repair, JSON, base64 and URL encodings, templates and buffers.
    - Trust: a call the gate lets through had every authority it needs ([Trust]);
      an approval acts at most once and only after a decision for it, in any
      interleaving ([ApprovalOnce]); a decision settles one row and acts by where
      the turn stands, the first one wins, a release is all or nothing
      ([Settle]); a call with secrets reaches bound hosts only ([Egress]);
      policies decide by their first matching rule; a card's fences cannot be
      closed from inside.
    - Recovery: a pass reclaims exactly the dead sessions, answers their open
      calls once and is idempotent.
    - Tool children: a serialised request is read back field by field ([Wire]); the
      answer's verdict, hosts and result reach the daemon however the pipe is read,
      and a command's output is whole in the result or in the file it names
      ([ToolFrame]).
    - Model requests ([Routing]): the selection loop ends and leaves a response or one
      error entry; a key goes to its own provider only; health reorders the candidates
      and never empties the list; a failing model is sidelined and stays so.
    - Results of children ([Complete]): a call that runs in a child is answered once,
      and what the child wrote is what the session records.  Captured secrets
      ([Capture]): a captured value is stored, loaded by every snapshot while its row is
      there, and gone from the text as it stands and in its shorter encoded forms; a
      different JSON spelling stays ([capture_escaped_leaks]).
    - Dispatch ([DispatchOnce]): a call is answered once and closed, or left to exactly one
      child, thread or session that will answer it, or put back; the calls of a batch run
      in their order and the session goes on only when all are answered.  The inline tools
      are under [HandlersLaw]: none touches the turn, the tables of children and threads or the pipes, and
      launch_agent, the one that may leave its call open, then leaves a child session that owes the reply.  Containment
      ([Setup]): a refreshed setup runs under the advancing agent alone, and extension
      tools run sandboxed from the promoted store.  Here strdup of a capability is taken to
      succeed, every entry to be registered with the context of its tier, and the setup
      to be there.  A dispatch sends at
      most one request, and under it the child's proxy reaches only what the call's secrets,
      its manifest or the agent's grants and an approval let it ([DispatchEgress], where
      the tables of the tools are taken not to be session tables).
    - Channels ([Supervisor]): no channel has two processes that were not told to end, over
      every interleaving of ticks, deaths, verbs and table writes; what runs after a tick is
      what the gate admits; two ticks converge, save for a channel that was given up, with neither
      process nor restart planned; a death reverts, breaks or restarts its
      channel alone.  fork is a parameter that answers with a pid no live process has.
      An event ([ChannelEvents]) decides at most one pending request of its own
      channel, and of what such a decision rests on moves the binding of a new session or of
      the one an admin picked, and the pins of its own chat, alone; a stranger only talks; a pass handles each event once, in order.
      The runs of [Outbox] interleave inserts, dispatches, batches of the handler,
      completions, refusals, crashes and pruning: what is delivered was accepted whole, what
      failed is told once, and nothing is put back more than six times.  The handler is taken
      to queue one batch per row, its last request marked final, or to
      ack or fail the row; a request may be refused for any reason at any step, and
      a row whose failed part leaves a later one behind is stranded:
      [failed_row_comes_back] shows how, and the settling is then not claimed.  The
      sessions known to the runner do not change during a run.
    - Context ([ContextPlan], [History]): a request is cut between turns at the newest place
      that fits, and a session the trigger leaves alone has room for one more turn, when the
      compaction limit is within the plan's budget (no cap on the history starves it) and
      estimates are positive; over every
      interleaving of appends and rewrites the branches stay finite and in the order of
      their turns, so the recursive queries end, with the number of entries as fuel.  The
      products of thresholds and windows (floats), the size of the prompt and the model's
      summary are arguments; token counts are taken below 2^31, a condensed branch
      within the 100001 rows its query reads.

    ** Not modelled

    Sockets, processes, files and the schedule of the poll loop (main, wake, llm_worker,
    the polls, connections and scripts of a channel's runner, the shutdown of its supervisor, http, sandbox and the preloads) are effects
    whose decisions are made by the code above; the bindings of the JavaScript engine
    and SQLite itself are other programs.  The parsers over jsmn
    (llm_payload, llm_proc, db_response, extension_manifest) depend on
    the vendored tokeniser.  The pages of the dashboard, the command line and the
    installer format text.  The appliers of configuration documents
    (tool_request_config.c, agent_define.c, extension.c) are the argument [p_apply]
    of [Resolve], which says what tables they leave; the rendering of an approval
    card by SQL is [p_summary]; the verdict of a hook script is a field of
    [CallEnv].  Of db.c the operations that the session machine, the gate and
    recovery call are modelled, and of dispatch.c all but the deferral of model requests and
    the stalled queue's drain.  Statements that fail inside
    SQLite other than BEGIN, COMMIT and the writes of approvals, and floating point,
    are left out as said in each file. *)
From Stdlib Require Export ZArith Lia ZifyBool.
From Stdlib Require Import Strings.Byte.
From stdpp Require Export base tactics list numbers strings option.
Export stdpp.list_basics.list stdpp.list_relations.list stdpp.list_misc.list stdpp.list_tactics.list stdpp.list_monad.list.

#[global] Open Scope Z_scope.

(** ** Characters

    A C [char] is modelled by its unsigned value, a [Z] in [0, 256).  The
    notation ["a"%char] denotes that number directly, so arithmetic tactics see
    a numeral. *)
Definition char_parse (l : list Byte.byte) : option Z :=
  match l with cons b nil => Some (Z.of_N (Byte.to_N b)) | _ => None end.

Definition char_print (z : Z) : option (list Byte.byte) := None.

Declare Scope char_scope.
Delimit Scope char_scope with char.
String Notation Z char_parse char_print : char_scope.

(** A C string is the list of the bytes before its terminating NUL.  [bs]
    reads a literal. *)
Abbreviation cstring := (list Z).

Definition bs (s : string) : cstring :=
  map (fun a => Z.of_N (Ascii.N_of_ascii a)) (String.list_ascii_of_string s).

Definition byte_ok (c : Z) : Prop := 0 <= c < 256.

(** [cstr s]: [s] is a possible C string: bytes, none of them NUL. *)
Definition cstr (s : cstring) : Prop := Forall (fun c => 0 < c < 256) s.

Definition bytes_ok (s : list Z) : Prop := Forall byte_ok s.

(** [in_range lo hi c] is the C idiom [c >= lo && c <= hi]. *)
Definition in_range (lo hi c : Z) : bool := (lo <=? c) && (c <=? hi).

(** ** Widths *)
Definition SIZE_MAX : Z := 2 ^ 64 - 1.
Definition INT_MAX : Z := 2 ^ 31 - 1.
Definition LONG_MAX : Z := 2 ^ 63 - 1.

(** Conversion of an unsigned value to [int]: reduction modulo 2^32 into the
    signed range. *)
Definition wrap32 (z : Z) : Z := z mod 2 ^ 32.
Definition int_of_u32 (z : Z) : Z :=
  let r := z mod 2 ^ 32 in if r <? 2 ^ 31 then r else r - 2 ^ 32.

(** Length and indexing of a byte buffer at [Z]. *)
Definition zlen {A} (l : list A) : Z := Z.of_nat (length l).

(** ** Automation *)
Create HintDb cclaw.
Create Rewrite HintDb cclaw_rw.

(** Turn the boolean tests of the code into propositions and finish with
    linear arithmetic. *)
Ltac bool_lia := unfold in_range, byte_ok in *; lia.

(** Division and modulus by constants are part of the arithmetic. *)
Ltac Zify.zify_post_hook ::= Z.to_euclidean_division_equations.

(** Split every conjunction of the context and of the goal. *)
Ltac split_all :=
  repeat match goal with
  | H : _ /\ _ |- _ => destruct H
  | H : exists _, _ |- _ => destruct H
  | |- _ /\ _ => split
  end.

(** Case on the tests of the goal, closing the impossible branches. *)
Ltac case_tests :=
  repeat (case_match; simplify_eq/=; try bool_lia; try done).

(** Case on one test and keep its equation. *)
Ltac case_if :=
  match goal with
  | |- context [if ?b then _ else _] => destruct b eqn:?
  end.

(** ** Shared lemmas on bytes *)

(** A decidable fact that holds of the 256 bytes holds of every byte. *)
Lemma byte_forall (P : Z -> bool) :
  forallb P (map Z.of_nat (seq 0 256)) = true ->
  forall c, byte_ok c -> P c = true.
Proof.
  intros Hall c [H0 H1].
  rewrite forallb_forall in Hall. apply Hall.
  apply in_map_iff. exists (Z.to_nat c). split; [lia |].
  apply in_seq. lia.
Qed.

Lemma below_forall n (P : Z -> bool) :
  forallb P (map Z.of_nat (seq 0 n)) = true ->
  forall i, 0 <= i < Z.of_nat n -> P i = true.
Proof.
  intros Hall i Hi. rewrite forallb_forall in Hall. apply Hall.
  apply in_map_iff. exists (Z.to_nat i). split; [lia |]. apply in_seq. lia.
Qed.

Lemma cstr_bytes s : cstr s -> bytes_ok s.
Proof. apply List.Forall_impl. intros c Hc. unfold byte_ok. lia. Qed.

Lemma cstr_nil : cstr [].
Proof. constructor. Qed.

Lemma cstr_app s t : cstr (s ++ t) <-> cstr s /\ cstr t.
Proof. apply Forall_app. Qed.

Lemma cstr_cons c s : cstr (c :: s) <-> 0 < c < 256 /\ cstr s.
Proof. apply Forall_cons_iff. Qed.

Lemma bytes_ok_app s t : bytes_ok (s ++ t) <-> bytes_ok s /\ bytes_ok t.
Proof. apply Forall_app. Qed.

Lemma bytes_ok_cons c s : bytes_ok (c :: s) <-> byte_ok c /\ bytes_ok s.
Proof. apply Forall_cons_iff. Qed.

#[export] Hint Resolve cstr_bytes cstr_nil : cclaw.
#[export] Hint Rewrite cstr_app cstr_cons bytes_ok_app bytes_ok_cons : cclaw_rw.

Lemma zlen_nonneg {A} (l : list A) : 0 <= zlen l.
Proof. unfold zlen. lia. Qed.

Lemma zlen_app {A} (l k : list A) : zlen (l ++ k) = zlen l + zlen k.
Proof. unfold zlen. rewrite length_app. lia. Qed.

Lemma zlen_cons {A} (x : A) l : zlen (x :: l) = 1 + zlen l.
Proof. unfold zlen. simpl. lia. Qed.

#[export] Hint Resolve zlen_nonneg : cclaw.
#[export] Hint Rewrite @zlen_app @zlen_cons : cclaw_rw.

(** ** Shared lemmas on row lists *)

Lemma elem_of_filter_bool {A} (p : A -> bool) l x : x ∈ List.filter p l <-> x ∈ l /\ p x = true.
Proof. by rewrite !list_elem_of_In, filter_In. Qed.

Lemma filter_none {A} (f : A -> bool) l : (forall x, x ∈ l -> f x = false) -> List.filter f l = [].
Proof.
  induction l as [|x l IH]; intros H; [done|]. cbn. rewrite H by left. apply IH. intros y Hy. apply H. by right.
Qed.

Lemma filter_all {A} (f : A -> bool) l : (forall x, x ∈ l -> f x = true) -> List.filter f l = l.
Proof.
  induction l as [|x l IH]; intros H; [done|]. cbn. rewrite H by left. f_equal. apply IH. intros y Hy. apply H. by right.
Qed.

Lemma find_app {A} (p : A -> bool) l k :
  List.find p (l ++ k) = match List.find p l with Some x => Some x | None => List.find p k end.
Proof. induction l as [|x l IH]; [done|]. cbn [app List.find]. by destruct (p x). Qed.

(** Removal from an array whose last slot takes the freed place. *)
Definition swap_remove {A} (l : list A) (i : nat) : list A :=
  match last l with Some x => take (length l - 1) (<[i := x]> l) | None => l end.

Lemma swap_remove_perm {A} (l : list A) i c : l !! i = Some c -> l ≡ₚ c :: swap_remove l i.
Proof.
  intros Hi. pose proof (lookup_lt_Some _ _ _ Hi) as Hl. unfold swap_remove.
  destruct (last l) as [x|] eqn:El; [|by apply last_None in El; subst].
  apply last_Some in El as [t ->]. rewrite length_app in *. cbn [length] in *.
  replace (length t + 1 - 1)%nat with (length t) by lia. destruct (decide (i = length t)) as [->|Hne].
  - rewrite list_lookup_middle in Hi by done. injection Hi as ->.
    replace (take (length t) (<[length t:=c]> (t ++ [c]))) with t; [by rewrite Permutation_app_comm|].
    rewrite insert_app_r_alt by lia. by rewrite take_app_length.
  - rewrite lookup_app_l in Hi by lia. rewrite insert_app_l by lia. rewrite take_app_length' by (by rewrite length_insert).
    rewrite (delete_Permutation t i c Hi) at 1. rewrite (delete_Permutation (<[i:=x]> t) i x) by (by apply list_lookup_insert_eq; lia).
    replace (delete i (<[i:=x]> t)) with (delete i t) by (rewrite !delete_take_drop, take_insert_ge by lia; by rewrite drop_insert_lt by lia).
    cbn [app]. by rewrite (Permutation_app_comm (delete i t) [x]).
Qed.

Lemma NoDup_map_filter {A B} (f : A -> B) (p : A -> bool) l :
  NoDup (map f l) -> NoDup (map f (List.filter p l)).
Proof.
  induction l as [|x l IH]; [done|]. cbn [map]. rewrite NoDup_cons. intros [Hx Hl]. simpl.
  destruct (p x); [cbn [map]; apply NoDup_cons; split|]; auto.
  intros Hin. apply Hx. apply list_elem_of_fmap in Hin as (y & -> & Hy). apply list_elem_of_fmap.
  exists y. split; [done|]. apply list_elem_of_In in Hy. apply filter_In in Hy as [Hy _]. by apply list_elem_of_In.
Qed.

Lemma NoDup_map_inj {A B} (f : A -> B) l x y :
  NoDup (map f l) -> x ∈ l -> y ∈ l -> f x = f y -> x = y.
Proof.
  induction l as [|a l IH]; intros Hnd Hx Hy E; [by apply not_elem_of_nil in Hx|].
  apply NoDup_cons in Hnd as [Ha Hnd].
  assert (Hin : forall z, z ∈ l -> f z <> f a).
  { intros z Hz Hf. apply Ha. rewrite <- Hf. apply list_elem_of_fmap. by exists z. }
  apply elem_of_cons in Hx as [->|Hx], Hy as [->|Hy]; [done | | | by apply IH].
  - by destruct (Hin y Hy).
  - by destruct (Hin x Hx).
Qed.

(** ** Shared lemmas on bits *)

Lemma byte_testbit_high x k : byte_ok x -> 8 <= k -> Z.testbit x k = false.
Proof.
  intros [H0 H1] Hk. destruct (decide (x = 0)) as [->|]; [apply Z.testbit_0_l|].
  apply Z.bits_above_log2; [lia|]. apply Z.log2_lt_pow2; [lia|].
  apply Z.lt_le_trans with (2 ^ 8); [done|]. apply Z.pow_le_mono_r; lia.
Qed.

Lemma byte_eq_bits x y :
  byte_ok x -> byte_ok y ->
  (forall k, 0 <= k < 8 -> Z.testbit x k = Z.testbit y k) -> x = y.
Proof.
  intros Hx Hy H. apply Z.bits_inj'. intros k Hk.
  destruct (decide (k < 8)); [apply H; lia|].
  by rewrite !byte_testbit_high by (done || lia).
Qed.

(** Concatenation of bit fields is addition. *)
Lemma lor_shiftl_add n a b :
  0 <= n -> 0 <= a < 2 ^ n -> Z.lor (Z.shiftl b n) a = b * 2 ^ n + a.
Proof.
  intros Hn Ha. rewrite <- Z.shiftl_mul_pow2 by done. symmetry.
  apply Z.add_nocarry_lor, Z.bits_inj'. intros k Hk.
  rewrite Z.land_spec, Z.bits_0. destruct (decide (k < n)).
  - by rewrite Z.shiftl_spec_low by lia.
  - rewrite <- (Z.mod_small a (2 ^ n)) by done.
    by rewrite Z.mod_pow2_bits_high, andb_false_r by lia.
Qed.

Lemma byte_ok_land b m : byte_ok b -> byte_ok (Z.land b m).
Proof.
  intros Hb.
  assert (Z.land b m = Z.land b m mod 2 ^ 8) as ->;
    [|apply Z.mod_pos_bound; lia].
  rewrite <- Z.land_ones by lia.
  rewrite <- Z.land_assoc, (Z.land_comm m), Z.land_assoc, Z.land_ones by lia.
  rewrite (Z.mod_small b) by (unfold byte_ok in *; lia). done.
Qed.

Lemma nth_byte_ok a n : bytes_ok a -> byte_ok (nth n a 0).
Proof.
  intros H. destruct (decide (n < length a)%nat).
  - unfold bytes_ok in H. rewrite List.Forall_forall in H. apply H. by apply nth_In.
  - rewrite nth_overflow by lia. unfold byte_ok. lia.
Qed.
#[export] Hint Resolve nth_byte_ok byte_ok_land : cclaw.
