(* ===== verification/CString.v ===== *)
(** * Byte strings: src/util.c string helpers and src/validate.h

    ASCII case folding and comparison, tokenising, searching ([strstr],
    [strchr], [strncmp] as the code uses them) and the name validators.  A C
    string is the list of its bytes before the NUL; a pointer into a string is
    the suffix it points at, so [*p] at the end of the string is 0. *)
From S2P Require Import Prelude.

(** [*p]: the byte a pointer reads, NUL at the end of the string. *)
Definition deref (p : cstring) : Z := hd 0 p.

(** ** Case folding (src/util.c) *)
Definition ascii_lower (c : Z) : Z :=
  if (("A"%char <=? c) && (c <=? "Z"%char)) then c + 32 else c.

Definition lower (s : cstring) : cstring := map ascii_lower s.

Fixpoint ascii_strcasecmp (a b : cstring) : Z :=
  match a, b with
  | x :: a', y :: b' =>
      if ascii_lower x =? ascii_lower y
      then ascii_strcasecmp a' b'
      else ascii_lower x - ascii_lower y
  | _, _ => ascii_lower (deref a) - ascii_lower (deref b)
  end.

Fixpoint ascii_strncasecmp (a b : cstring) (n : nat) : Z :=
  match n with
  | O => 0
  | S n' =>
      let d := ascii_lower (deref a) - ascii_lower (deref b) in
      if negb (d =? 0) || (deref a =? 0) then d
      else ascii_strncasecmp (tl a) (tl b) n'
  end.

(** ** C library searches used by the sources *)

(** [strncmp(p, s, strlen(s)) == 0]. *)
Fixpoint starts_with (s p : cstring) : bool :=
  match s, p with
  | [], _ => true
  | x :: s', y :: p' => (x =? y) && starts_with s' p'
  | _ :: _, [] => false
  end.

(** [strstr(hay, needle)] as the offset of the first occurrence. *)
Fixpoint strstr (hay needle : cstring) : option nat :=
  if starts_with needle hay then Some 0%nat
  else match hay with
       | [] => None
       | _ :: hay' => option_map S (strstr hay' needle)
       end.

(** [strchr(s, c)] for [c] not NUL, as an offset. *)
Fixpoint strchr (s : cstring) (c : Z) : option nat :=
  match s with
  | [] => None
  | x :: s' => if x =? c then Some 0%nat else option_map S (strchr s' c)
  end.

(** [strcmp(a, b) == 0]. *)
Definition streq (a b : cstring) : bool := bool_decide (a = b).

(** BINARY collation. *)
Fixpoint text_cmp (a b : cstring) : Z :=
  match a, b with
  | [], [] => 0
  | [], _ => -1
  | _, [] => 1
  | x :: a, y :: b => if x =? y then text_cmp a b else x - y
  end.

(** The C string a NUL-terminated buffer holds: its bytes up to the first NUL. *)
Fixpoint c_str (buf : list Z) : cstring :=
  match buf with
  | [] => []
  | x :: buf' => if x =? 0 then [] else x :: c_str buf'
  end.

(** ** Tokenising (src/util.c, split_and_trim) *)
Definition is_sep (c : Z) : bool :=
  (c =? ","%char) || (c =? " "%char) || (c =? 9).

Fixpoint skip_seps (p : cstring) : cstring :=
  match p with
  | c :: p' => if is_sep c then skip_seps p' else p
  | [] => []
  end.

(** The word a pointer stands on, and the suffix at its end. *)
Fixpoint take_word (p : cstring) : cstring * cstring :=
  match p with
  | c :: p' =>
      if is_sep c then ([], p)
      else let (w, r) := take_word p' in (c :: w, r)
  | [] => ([], [])
  end.

Fixpoint split_loop (max : nat) (p : cstring) : list cstring :=
  match max with
  | O => []
  | S max' =>
      match skip_seps p with
      | [] => []
      | q =>
          let (w, r) := take_word q in
          w :: match r with
               | [] => []
               | _ :: r' => split_loop max' r'
               end
      end
  end.

Definition split_and_trim (s : option cstring) (max : nat) : list cstring :=
  match s with
  | None => []
  | Some p => split_loop max p
  end.

(** ** Name validators (src/validate.h) *)
Definition is_upper (c : Z) : bool := in_range "A"%char "Z"%char c.
Definition is_lower (c : Z) : bool := in_range "a"%char "z"%char c.
Definition is_digit (c : Z) : bool := in_range "0"%char "9"%char c.
Definition is_alnum (c : Z) : bool := is_upper c || is_lower c || is_digit c.

Definition is_valid_name (name : option cstring) : bool :=
  match name with
  | None | Some [] => false
  | Some s =>
      if zlen s >? 63 then false
      else forallb (fun c => is_alnum c || (c =? "_"%char) || (c =? "-"%char)) s
  end.

Definition is_valid_agent_name (name : option cstring) : bool :=
  match name with
  | None | Some [] => false
  | Some (c0 :: s) =>
      if negb (is_upper c0) then false
      else if zlen (c0 :: s) >? 63 then false
      else forallb is_alnum s
  end.

Definition is_valid_secret_name (name : option cstring) : bool :=
  match name with
  | None | Some [] => false
  | Some (c0 :: s) =>
      if negb (is_upper c0) then false
      else if zlen (c0 :: s) >? 63 then false
      else forallb (fun c => is_upper c || is_digit c || (c =? "_"%char)) s
  end.

(** ** Lemmas *)

Lemma ascii_lower_nul c : byte_ok c -> ascii_lower c = 0 <-> c = 0.
Proof. unfold ascii_lower. case_if; bool_lia. Qed.

Lemma ascii_lower_idem c : ascii_lower (ascii_lower c) = ascii_lower c.
Proof. unfold ascii_lower. repeat case_if; lia. Qed.

Lemma ascii_lower_byte c : byte_ok c -> byte_ok (ascii_lower c).
Proof. unfold ascii_lower. case_if; bool_lia. Qed.

(** [ascii_strcasecmp] returns 0 exactly on strings equal up to ASCII case. *)
Lemma ascii_strcasecmp_eq0 a b :
  cstr a -> cstr b -> ascii_strcasecmp a b = 0 <-> lower a = lower b.
Proof.
  revert b. induction a as [|x a IH]; intros [|y b] Ha Hb; simpl.
  - unfold deref, ascii_lower; simpl. done.
  - apply cstr_cons in Hb as [Hy _].
    unfold deref; simpl. split; [|done].
    unfold ascii_lower. simpl. case_if; lia.
  - apply cstr_cons in Ha as [Hx _].
    unfold deref; simpl. split; [|done].
    unfold ascii_lower. simpl. case_if; lia.
  - apply cstr_cons in Ha as [Hx Ha]. apply cstr_cons in Hb as [Hy Hb].
    destruct (ascii_lower x =? ascii_lower y) eqn:E.
    + rewrite IH by done. apply Z.eqb_eq in E. rewrite E.
      split; [by intros -> | by intros [= ?]].
    + apply Z.eqb_neq in E. split; [lia | intros [= ? ?]; lia].
Qed.

Lemma lower_app a b : lower (a ++ b) = lower a ++ lower b.
Proof. apply map_app. Qed.

Lemma lower_length a : length (lower a) = length a.
Proof. apply length_map. Qed.

Lemma starts_with_spec s p : starts_with s p = true <-> exists t, p = s ++ t.
Proof.
  revert p. induction s as [|x s IH]; intros p; simpl.
  - split; [by exists p | done].
  - destruct p as [|y p].
    + split; [done | by intros [t ?]].
    + rewrite andb_true_iff, IH, Z.eqb_eq. split.
      * intros [-> [t ->]]. by exists t.
      * intros [t [= -> ->]]. split; [done | by exists t].
Qed.

Lemma starts_with_app s t : starts_with s (s ++ t) = true.
Proof. apply starts_with_spec. by exists t. Qed.

Lemma strstr_Some hay needle n :
  strstr hay needle = Some n ->
  (n <= length hay)%nat /\
  exists t, hay = take n hay ++ needle ++ t.
Proof.
  revert n. induction hay as [|x hay IH]; intros n; simpl.
  - destruct (starts_with needle []) eqn:E; [|done]. intros [= <-].
    apply starts_with_spec in E as [t Ht]. split; [lia|]. by exists t.
  - destruct (starts_with needle (x :: hay)) eqn:E.
    + intros [= <-]. apply starts_with_spec in E as [t Ht].
      split; [lia|]. by exists t.
    + destruct (strstr hay needle) as [m|] eqn:Em; [|done].
      intros [= <-]. destruct (IH m eq_refl) as [Hle [t Ht]].
      split; [lia|]. exists t. simpl. by f_equal.
Qed.

Lemma strstr_None hay needle :
  strstr hay needle = None <-> forall l t, hay <> l ++ needle ++ t.
Proof.
  induction hay as [|x hay IH]; simpl.
  - destruct (starts_with needle []) eqn:E.
    + split; [done|]. intros H. apply starts_with_spec in E as [t Ht].
      exfalso. apply (H [] t). done.
    + split; [|done]. intros _ l t H. symmetry in H.
      apply app_nil in H as [-> H]. apply app_nil in H as [-> ->]. done.
  - destruct (starts_with needle (x :: hay)) eqn:E.
    + split; [done|]. intros H. apply starts_with_spec in E as [t Ht].
      exfalso. by apply (H [] t).
    + destruct (strstr hay needle) as [m|]; simpl.
      * split; [done|]. intros H.
        assert (Some m = None); [|done].
        apply IH. intros l t ->. by apply (H (x :: l) t).
      * split; [|done]. intros _ [|y l] t H.
        -- simpl in H. rewrite H, starts_with_app in E. done.
        -- injection H as -> H. by apply (proj1 IH eq_refl l t).
Qed.

Lemma c_str_cstr buf : bytes_ok buf -> cstr (c_str buf).
Proof.
  induction buf as [|x buf IH]; intros H; simpl; [constructor|].
  apply bytes_ok_cons in H as [Hx H].
  destruct (x =? 0) eqn:E; [constructor|].
  apply cstr_cons. split; [|by apply IH]. bool_lia.
Qed.

Lemma c_str_id s : cstr s -> c_str s = s.
Proof.
  induction s as [|x s IH]; intros H; simpl; [done|].
  apply cstr_cons in H as [Hx H].
  destruct (x =? 0) eqn:E; [lia|]. by rewrite IH.
Qed.

#[export] Hint Resolve c_str_cstr ascii_lower_byte : cclaw.
#[export] Hint Rewrite lower_app lower_length : cclaw_rw.

(** ** Occurrences *)
Definition occurs (w s : list Z) : Prop := exists l r, s = l ++ w ++ r.

Lemma strstr_occurs hay needle : strstr hay needle = None <-> ~ occurs needle hay.
Proof.
  rewrite strstr_None. split.
  - intros H (l & t & E). by apply (H l t).
  - intros H l t E. apply H. by exists l, t.
Qed.

Lemma occurs_l w a b : occurs w a -> occurs w (a ++ b).
Proof. intros (l & r & ->). exists l, (r ++ b). by rewrite <- !app_assoc. Qed.

Lemma occurs_r w a b : occurs w b -> occurs w (a ++ b).
Proof. intros (l & r & ->). exists (a ++ l), r. by rewrite <- app_assoc. Qed.

(** An occurrence does not span a byte it does not contain. *)
Lemma occurs_split w a c b : ~ c ∈ w -> occurs w (a ++ c :: b) -> occurs w a \/ occurs w b.
Proof.
  intros Hc (l & r & E). symmetry in E. apply app_eq_inv in E as [(k & -> & E) | (k & -> & E)].
  - destruct k as [|x k]; simpl in E.
    + destruct w as [|y w]; [left; exists [], a; done|].
      simpl in E. injection E as <- _. exfalso. apply Hc. left.
    + injection E as <- ->. right. by exists k, r.
  - apply app_eq_inv in E as [(k' & E1 & E2) | (k' & -> & _)].
    + destruct k' as [|x k']; simpl in E2.
      * rewrite app_nil_r in E1. subst. left. exists l, []. by rewrite app_nil_r.
      * injection E2 as <- _. exfalso. apply Hc. rewrite E1. apply elem_of_app. right. left.
    + left. by exists l, k'.
Qed.

Lemma strstr_first hay needle n l r :
  strstr hay needle = Some n -> hay = l ++ needle ++ r -> (n <= length l)%nat.
Proof.
  revert n l. induction hay as [|x hay IH]; intros n l; simpl.
  - destruct (starts_with needle []); [|done]. intros [= <-] _. lia.
  - destruct (starts_with needle (x :: hay)) eqn:E; [intros [= <-] _; lia|].
    destruct (strstr hay needle) as [m|] eqn:Em; [|done]. intros [= <-] Hl.
    destruct l as [|y l]; simpl in Hl.
    + rewrite Hl, starts_with_app in E. done.
    + injection Hl as <- Hl. simpl. apply le_n_S. by eapply IH.
Qed.

(** What is before the first occurrence holds none. *)
Lemma strstr_before hay needle n :
  needle <> [] -> strstr hay needle = Some n -> ~ occurs needle (take n hay).
Proof.
  intros Hn Hs (l & r & E). pose proof (strstr_Some _ _ _ Hs) as [Hle _].
  assert (Hh : hay = l ++ needle ++ (r ++ drop n hay))
    by (rewrite <- (take_drop n hay) at 1; rewrite E, <- !app_assoc; done).
  pose proof (strstr_first _ _ _ _ _ Hs Hh) as Hl.
  apply (f_equal length) in E. rewrite length_take, !length_app in E.
  destruct needle; [done|]. simpl in E. lia.
Qed.

Lemma strstr_drop hay needle n :
  strstr hay needle = Some n -> hay = take n hay ++ needle ++ drop (n + length needle) hay.
Proof.
  intros Hs. destruct (strstr_Some _ _ _ Hs) as [Hle [t Ht]].
  assert (E : drop (n + length needle) hay = t).
  { rewrite Ht at 1. rewrite app_assoc. apply drop_app_length'.
    rewrite length_app, length_take. lia. }
  by rewrite E.
Qed.
