(* ===== verification/Libc.v ===== *)
(** * The C library's address conversions

    [inet_pton] and [inet_ntop] are not code of the repository: they are the
    operations of the class [InetPton], and [InetPtonLaws] states what the
    sources rely on.  The file also gives one concrete instance, a dotted-quad
    reader and printer and a small table of IPv6 spellings, with its laws
    proved, so that the witnesses of the theorems can evaluate. *)
From Stdlib Require Export Sorting.Sorted.
From S2P Require Import Prelude CString.

(** The C library's textual address conversions. *)
Class InetPton := {
  inet_pton4 : cstring -> option (list Z);
  inet_pton6 : cstring -> option (list Z);
  inet_ntop4 : list Z -> cstring;
  inet_ntop6 : list Z -> cstring
}.

Class InetPtonLaws `{InetPton} := {
  inet_pton4_bytes s b : inet_pton4 s = Some b -> length b = 4%nat /\ bytes_ok b;
  inet_pton6_bytes s b : inet_pton6 s = Some b -> length b = 16%nat /\ bytes_ok b;
  (* presentation then conversion gives the address back *)
  inet_pton4_ntop b : length b = 4%nat -> bytes_ok b -> inet_pton4 (inet_ntop4 b) = Some b
}.

(** A strict dotted quad: four decimal octets without leading zeros. *)
Fixpoint quad_go (s : cstring) (cur : option Z) (acc : list Z) : option (list Z) :=
  match s with
  | [] =>
      match cur with
      | Some v => if (length acc =? 3)%nat then Some (acc ++ [v]) else None
      | None => None
      end
  | c :: s' =>
      if is_digit c then
        match cur with
        | None => quad_go s' (Some (c - "0"%char)) acc
        | Some v =>
            let v' := v * 10 + (c - "0"%char) in
            if (v =? 0) || (255 <? v') then None else quad_go s' (Some v') acc
        end
      else if c =? "."%char then
        match cur with
        | Some v => if (length acc <? 3)%nat then quad_go s' None (acc ++ [v]) else None
        | None => None
        end
      else None
  end.

Definition dotted_quad (s : cstring) : option (list Z) := quad_go s None [].

Definition octet_text (v : Z) : cstring :=
  if 100 <=? v then ["0"%char + v / 100; "0"%char + (v / 10) mod 10; "0"%char + v mod 10]
  else if 10 <=? v then ["0"%char + v / 10; "0"%char + v mod 10]
  else ["0"%char + v].

Definition quad_text (b : list Z) : cstring :=
  octet_text (nth 0 b 0) ++ "."%char :: octet_text (nth 1 b 0) ++ "."%char ::
  octet_text (nth 2 b 0) ++ "."%char :: octet_text (nth 3 b 0).

Definition v6_table : list (cstring * list Z) :=
  [(bs "::1", replicate 15 0 ++ [1]);
   (bs "fe80::1", [0xfe; 0x80] ++ replicate 13 0 ++ [1]);
   (bs "fd00:ec2::254", [0xfd; 0; 0x0e; 0xc2] ++ replicate 10 0 ++ [2; 0x54]);
   (bs "::ffff:169.254.169.254", [0;0;0;0;0;0;0;0;0;0;0xff;0xff;169;254;169;254])].

Fixpoint assoc_text (s : cstring) (t : list (cstring * list Z)) : option (list Z) :=
  match t with
  | [] => None
  | (k, v) :: t' => if bool_decide (s = k) then Some v else assoc_text s t'
  end.

Definition demo_pton : InetPton := {|
  inet_pton4 := dotted_quad;
  inet_pton6 s := assoc_text s v6_table;
  inet_ntop4 := quad_text;
  inet_ntop6 b := match List.find (fun e => bool_decide (snd e = b)) v6_table with
                  | Some e => fst e | None => bs "::" end
|}.

Lemma quad_go_octet v rest acc :
  byte_ok v -> (forall c r, rest = c :: r -> is_digit c = false) ->
  quad_go (octet_text v ++ rest) None acc = quad_go rest (Some v) acc.
Proof.
  intros Hv Hr. unfold octet_text.
  assert (Hd : forall d, 0 <= d < 10 -> is_digit ("0"%char + d) = true)
    by (intros d Hd; unfold is_digit; bool_lia).
  unfold byte_ok in Hv. case_if; [|case_if]; simpl; rewrite ?Hd by lia.
  - replace ((_ =? 0) || _) with false by lia.
    replace ((_ =? 0) || _) with false by lia.
    do 2 f_equal. lia.
  - replace ((_ =? 0) || _) with false by lia. do 2 f_equal. lia.
  - do 2 f_equal. lia.
Qed.

Lemma quad_go_bytes s cur acc b :
  quad_go s cur acc = Some b -> bytes_ok acc ->
  (forall v, cur = Some v -> byte_ok v) -> length b = 4%nat /\ bytes_ok b.
Proof.
  revert cur acc. induction s as [|c s IH]; intros cur acc; simpl.
  - destruct cur as [v|]; [|done]. destruct (length acc =? 3)%nat eqn:E; [|done].
    intros [= <-] Ha Hv. split; [rewrite length_app; simpl; lia|].
    apply bytes_ok_app. split; [done|]. constructor; [auto | constructor].
  - destruct (is_digit c) eqn:Ed.
    + unfold is_digit in Ed. destruct cur as [v|].
      * destruct ((v =? 0) || _) eqn:E; [done|]. intros H Ha Hv.
        apply (IH _ _ H Ha). intros v' [= <-]. specialize (Hv v eq_refl). bool_lia.
      * intros H Ha _. apply (IH _ _ H Ha). intros v' [= <-]. bool_lia.
    + destruct (c =? "."%char); [|done]. destruct cur as [v|]; [|done].
      destruct (length acc <? 3)%nat; [|done]. intros H Ha Hv.
      apply (IH _ _ H); [|done]. apply bytes_ok_app.
      split; [done|]. constructor; [auto | constructor].
Qed.

Lemma quad_text_parses b :
  length b = 4%nat -> bytes_ok b -> dotted_quad (quad_text b) = Some b.
Proof.
  intros Hl Hb. destruct b as [|b0 [|b1 [|b2 [|b3 [|? ?]]]]]; try done.
  unfold bytes_ok in Hb. rewrite !Forall_cons_iff in Hb.
  destruct Hb as [H0 [H1 [H2 [H3 _]]]].
  unfold dotted_quad, quad_text. cbn [nth].
  rewrite <- (app_nil_r (octet_text b3)).
  assert (Hdot : forall r c r', "."%char :: r = c :: r' -> is_digit c = false)
    by (by intros r c r' [= <- _]).
  rewrite quad_go_octet by eauto. simpl.
  rewrite quad_go_octet by eauto. simpl.
  rewrite quad_go_octet by eauto. simpl.
  by rewrite quad_go_octet by done.
Qed.

Lemma assoc_text_Forall (P : list Z -> Prop) t s b :
  Forall (fun e : cstring * list Z => P e.2) t -> assoc_text s t = Some b -> P b.
Proof.
  intros Ht. induction Ht as [|[k v] t Hv Ht IH]; simpl; [done|].
  case_bool_decide; [by intros [= <-] | done].
Qed.

Lemma demo_pton_laws : @InetPtonLaws demo_pton.
Proof.
  split.
  - intros s b H. apply (quad_go_bytes s None [] b H); [constructor | done].
  - intros s b. apply (assoc_text_Forall (fun v => length v = 16%nat /\ bytes_ok v)).
    repeat constructor; cbn; unfold byte_ok; lia.
  - apply quad_text_parses.
Qed.

(** The C library's sort: some permutation in the order of the comparison
    function, ties in any order. *)
Class Qsort := { qsort {A} : (A -> A -> Z) -> list A -> list A }.

Class QsortLaws `{Qsort} := {
  qsort_perm {A} (cmp : A -> A -> Z) l : Permutation (qsort cmp l) l;
  qsort_sorted {A} (cmp : A -> A -> Z) l :
    (forall x y, cmp x y <= 0 \/ cmp y x <= 0) ->
    (forall x y z, cmp x y <= 0 -> cmp y z <= 0 -> cmp x z <= 0) ->
    Sorted (fun x y => cmp x y <= 0) (qsort cmp l)
}.

(** Insertion sort is one. *)
Fixpoint insert_by {A} (cmp : A -> A -> Z) (x : A) (l : list A) : list A :=
  match l with
  | [] => [x]
  | y :: l' => if cmp x y <=? 0 then x :: l else y :: insert_by cmp x l'
  end.

Definition isort : Qsort :=
  {| qsort A cmp l := fold_right (insert_by cmp) [] l |}.

Lemma insert_by_perm {A} (cmp : A -> A -> Z) x l : Permutation (insert_by cmp x l) (x :: l).
Proof.
  induction l as [|y l IH]; simpl; [done|]. case_if; [done|].
  etrans; [by apply Permutation_skip, IH | by apply Permutation_swap].
Qed.

Lemma insert_by_sorted {A} (cmp : A -> A -> Z) x l :
  (forall x y, cmp x y <= 0 \/ cmp y x <= 0) ->
  Sorted (fun x y => cmp x y <= 0) l -> Sorted (fun x y => cmp x y <= 0) (insert_by cmp x l).
Proof.
  intros Htot Hs. induction Hs as [|y l Hs IH Hh]; simpl; [by repeat constructor|].
  case_if; [constructor; [by constructor | constructor; lia]|].
  constructor; [exact IH|].
  destruct l as [|z l]; simpl; [constructor; destruct (Htot x y); lia|].
  case_if; constructor; [destruct (Htot x y); lia | by inversion Hh].
Qed.

Lemma isort_laws : @QsortLaws isort.
Proof.
  split; simpl.
  - intros A cmp l. induction l as [|x l IH]; simpl; [done|].
    etrans; [apply insert_by_perm | by apply Permutation_skip].
  - intros A cmp l Htot _. induction l as [|x l IH]; simpl; [constructor|].
    by apply insert_by_sorted.
Qed.

(** ** strtol, base 10 *)
Definition isspace (c : Z) : bool := (c =? 32) || in_range 9 13 c.

Fixpoint skip_space (s : cstring) : cstring :=
  match s with
  | c :: s' => if isspace c then skip_space s' else s
  | [] => []
  end.

(** The digits at the head of the text, folded into [acc], and the rest. *)
Fixpoint scan_digits (acc : Z) (s : cstring) : Z * cstring :=
  match s with
  | c :: s' => if is_digit c then scan_digits (acc * 10 + (c - "0"%char)) s' else (acc, s)
  | [] => (acc, [])
  end.

(** The value and [endptr]; without digits the value is 0 and [endptr] is the
    start of the text. *)
Definition strtol (s : cstring) : Z * cstring :=
  let p := skip_space s in
  let '(neg, p) := match p with
                   | c :: p' => if c =? "-"%char then (true, p')
                                else if c =? "+"%char then (false, p') else (false, p)
                   | [] => (false, p)
                   end in
  if is_digit (deref p) then
    let (v, rest) := scan_digits 0 p in
    (if neg then Z.max (- LONG_MAX - 1) (- v) else Z.min LONG_MAX v, rest)
  else (0, s).

Lemma scan_digits_nonneg acc s : 0 <= acc -> 0 <= fst (scan_digits acc s).
Proof.
  revert acc. induction s as [|c s IH]; intros acc Ha; simpl; [done|].
  case_if; [|done]. apply IH. unfold is_digit in *. bool_lia.
Qed.

(** ** printf *)

(** The decimal digits of [n], most significant first; 20 hold any 64-bit value. *)
Fixpoint digits (fuel : nat) (n : Z) : cstring :=
  match fuel with
  | O => []
  | S fuel' => (if n <? 10 then [] else digits fuel' (n / 10)) ++ ["0"%char + n mod 10]
  end.

(** [%d] and [%lld]. *)
Definition print_int (n : Z) : cstring :=
  if n <? 0 then "-"%char :: digits 20 (- n) else digits 20 n.

(** What [snprintf(buf, size, ..)] leaves in the buffer. *)
Definition snprintf (size : nat) (s : cstring) : cstring := take (size - 1) s.

(** The UTF-8 dash of the messages. *)
Definition EM_DASH : list Z := [0xE2; 0x80; 0x94].

Lemma digits_digit fuel n c : 0 <= n -> c ∈ digits fuel n -> is_digit c = true.
Proof.
  revert n. induction fuel as [|fuel IH]; intros n Hn; cbn [digits]; [by rewrite elem_of_nil|].
  rewrite elem_of_app, list_elem_of_singleton. intros [Hc| ->].
  - destruct (n <? 10); [by rewrite elem_of_nil in Hc|]. apply (IH (n / 10)); [lia|done].
  - unfold is_digit. bool_lia.
Qed.
