(* ===== verification/Unicode.v ===== *)
(** * UTF-8: src/unicode_normalize.c

    The strict decoder, the removal of invisible code points and the
    sanitiser, on byte lists.  The loops run on the suffix still to be read;
    the fuel is its length, enough because every step consumes a byte. *)
From S2P Require Import Prelude.

(** [decode_utf8_strict s]: the length of the sequence at the head of [s] and
    its code point; [None] is the C result 0. *)
Definition lead_class (c : Z) : option (nat * Z) :=
  if c <? 0x80 then Some (1%nat, c)
  else if Z.land c 0xE0 =? 0xC0 then Some (2%nat, Z.land c 0x1F)
  else if Z.land c 0xF0 =? 0xE0 then Some (3%nat, Z.land c 0x0F)
  else if Z.land c 0xF8 =? 0xF0 then Some (4%nat, Z.land c 0x07)
  else None.

Fixpoint decode_conts (k : nat) (v : Z) (s : list Z) : option Z :=
  match k with
  | O => Some v
  | S k' =>
      match s with
      | [] => None
      | b :: s' =>
          if negb (Z.land b 0xC0 =? 0x80) then None
          else decode_conts k' (Z.lor (Z.shiftl v 6) (Z.land b 0x3F)) s'
      end
  end.

Definition decode_utf8_strict (s : list Z) : option (nat * Z) :=
  match s with
  | [] => None
  | c :: s' =>
      match lead_class c with
      | None => None
      | Some (n, v) =>
          if (length s <? n)%nat then None
          else match decode_conts (n - 1) v s' with
               | None => None
               | Some cp => Some (n, cp)
               end
      end
  end.

Arguments decode_utf8_strict : simpl never.

Definition is_invisible (cp : Z) : bool :=
  in_range 0x200B 0x200F cp || in_range 0x202A 0x202E cp ||
  (cp =? 0x2060) || in_range 0x2066 0x2069 cp || (cp =? 0xFEFF) ||
  (cp =? 0x00AD) || in_range 0xFE00 0xFE0F cp.

(** The loop of [unicode_strip_invisible] at offset [pos]. *)
Fixpoint strip_loop (fuel : nat) (pos : nat) (s : list Z) : list Z :=
  match fuel, s with
  | S fuel', c :: s' =>
      match decode_utf8_strict s with
      | None => c :: strip_loop fuel' (S pos) s'
      | Some (n, cp) =>
          if is_invisible cp && negb ((cp =? 0xFEFF) && (pos =? 0)%nat)
          then strip_loop fuel' (pos + n) (drop n s)
          else take n s ++ strip_loop fuel' (pos + n) (drop n s)
      end
  | _, _ => []
  end.

Definition unicode_strip_invisible (s : option (list Z)) : option (list Z) :=
  match s with
  | None => None
  | Some s => Some (strip_loop (length s) 0 s)
  end.

Definition REPLACEMENT : list Z := [0xEF; 0xBF; 0xBD].
Arguments REPLACEMENT : simpl never.

Definition is_surrogate (cp : Z) : bool := in_range 0xD800 0xDFFF cp.

Fixpoint sanitize_loop (fuel : nat) (s : list Z) : list Z :=
  match fuel, s with
  | S fuel', c :: s' =>
      match decode_utf8_strict s with
      | None => REPLACEMENT ++ sanitize_loop fuel' s'
      | Some (n, cp) =>
          (if is_surrogate cp then REPLACEMENT else take n s)
            ++ sanitize_loop fuel' (drop n s)
      end
  | _, _ => []
  end.

(** [utf8_sanitize]: [None] on a NULL input or when the worst-case size
    [3 * len + 1] would overflow [size_t]. *)
Definition utf8_sanitize (s : option (list Z)) : option (list Z) :=
  match s with
  | None => None
  | Some s =>
      if zlen s >? (SIZE_MAX - 1) / 3 then None
      else Some (sanitize_loop (length s) s)
  end.

(** ** The decoder *)

Lemma lead_class_bounds c n v :
  byte_ok c -> lead_class c = Some (n, v) ->
  (1 <= n <= 4)%nat /\ 0 <= v < 0x80.
Proof.
  intros Hc H.
  pose (P c := match lead_class c with
               | Some (n, v) => ((1 <=? n) && (n <=? 4))%nat && (0 <=? v) && (v <? 0x80)
               | None => true end).
  assert (HP : P c = true) by (revert c Hc H; intros c Hc _; by apply byte_forall).
  unfold P in HP. rewrite H in HP. lia.
Qed.

Lemma decode_conts_app k v s t :
  (k <= length s)%nat -> decode_conts k v (s ++ t) = decode_conts k v s.
Proof.
  revert v s. induction k as [|k IH]; intros v s Hk; [done|].
  destruct s as [|b s]; simpl in *; [lia|]. case_if; [done|]. apply IH. lia.
Qed.

Lemma decode_strict_length s n cp :
  bytes_ok s -> decode_utf8_strict s = Some (n, cp) -> (1 <= n <= length s)%nat.
Proof.
  destruct s as [|c s]; [done|]. intros Hs. unfold decode_utf8_strict.
  apply bytes_ok_cons in Hs as [Hc _].
  destruct (lead_class c) as [[m v]|] eqn:E; [|done].
  destruct (length (c :: s) <? m)%nat eqn:El; [done|].
  destruct (decode_conts _ _ _); [|done]. intros [= -> ->].
  pose proof (lead_class_bounds _ _ _ Hc E). simpl in *. lia.
Qed.

(** The decoder looks only at the bytes of the sequence it returns. *)
Lemma decode_strict_app s t n cp :
  decode_utf8_strict s = Some (n, cp) -> decode_utf8_strict (s ++ t) = Some (n, cp).
Proof.
  destruct s as [|c s]; [done|]. unfold decode_utf8_strict. simpl.
  destruct (lead_class c) as [[m v]|] eqn:E; [|done].
  destruct (S (length s) <? m)%nat eqn:El; [done|].
  rewrite length_app.
  replace (S (length s + length t) <? m)%nat with false by lia.
  rewrite decode_conts_app by lia. done.
Qed.

Lemma decode_strict_take s n cp :
  bytes_ok s -> decode_utf8_strict s = Some (n, cp) ->
  decode_utf8_strict (take n s) = Some (n, cp).
Proof.
  intros Hs H. pose proof (decode_strict_length _ _ _ Hs H) as Hn.
  destruct s as [|c s]; [done|]. destruct n as [|n]; [lia|].
  unfold decode_utf8_strict in *. simpl in *.
  destruct (lead_class c) as [[m v]|] eqn:E; [|done].
  destruct (S (length s) <? m)%nat eqn:El; [done|].
  destruct (decode_conts (m - 1) v s) as [cp'|] eqn:Ed; [|done].
  injection H as -> ->.
  rewrite length_take. replace (S (n `min` length s) <? S n)%nat with false by lia.
  replace (S n - 1)%nat with n in * by lia.
  rewrite <- (take_drop n s), decode_conts_app in Ed by (rewrite length_take; lia).
  by rewrite Ed.
Qed.

(** ** Well-formed text: a concatenation of sequences the decoder accepts *)
Inductive well_formed (P : Z -> Prop) : list Z -> Prop :=
  | wf_nil : well_formed P []
  | wf_seq s n cp :
      decode_utf8_strict s = Some (n, cp) -> P cp ->
      well_formed P (drop n s) -> well_formed P s.

Lemma wf_block P b n cp t :
  bytes_ok b -> decode_utf8_strict b = Some (n, cp) -> n = length b -> P cp ->
  well_formed P t -> well_formed P (b ++ t).
Proof.
  intros Hb Hd -> HP Ht. apply (wf_seq P (b ++ t) (length b) cp); [|done|].
  - by apply decode_strict_app.
  - by rewrite drop_app_length.
Qed.

Definition scalar (cp : Z) : Prop := is_surrogate cp = false.

Lemma bytes_ok_drop n s : bytes_ok s -> bytes_ok (drop n s).
Proof. apply Forall_drop. Qed.
Lemma bytes_ok_take n s : bytes_ok s -> bytes_ok (take n s).
Proof. apply Forall_take. Qed.
#[export] Hint Resolve bytes_ok_drop bytes_ok_take : cclaw.

Lemma sanitize_loop_wf fuel s :
  bytes_ok s -> well_formed scalar (sanitize_loop fuel s).
Proof.
  revert s. induction fuel as [|fuel IH]; intros s Hs; [constructor|].
  destruct s as [|c s]; [constructor|]. cbn [sanitize_loop].
  pose proof (proj1 (bytes_ok_cons c s) Hs) as [Hc Hs'].
  assert (Hrep : forall t, well_formed scalar t -> well_formed scalar (REPLACEMENT ++ t)).
  { intros t Ht. apply (wf_block scalar REPLACEMENT 3 0xFFFD); try done.
    repeat constructor; unfold byte_ok; lia. }
  destruct (decode_utf8_strict (c :: s)) as [[n cp]|] eqn:E; [|by apply Hrep, IH].
  destruct (is_surrogate cp) eqn:Es; [by apply Hrep, IH; auto with cclaw|].
  apply (wf_block scalar _ n cp); auto with cclaw.
  - by apply decode_strict_take.
  - pose proof (decode_strict_length _ _ _ Hs E). rewrite length_take. lia.
Qed.

Lemma sanitize_loop_id fuel s :
  bytes_ok s -> well_formed scalar s -> (length s <= fuel)%nat ->
  sanitize_loop fuel s = s.
Proof.
  intros Hs Hw. revert fuel Hs. induction Hw as [|s n cp Hd Hsc Hw IH];
    intros fuel Hs Hf; [by destruct fuel|].
  pose proof (decode_strict_length _ _ _ Hs Hd) as Hn.
  destruct s as [|c s]; [done|]. destruct fuel as [|fuel]; [simpl in *; lia|].
  cbn [sanitize_loop]. rewrite Hd, Hsc.
  rewrite IH; [apply take_drop | auto with cclaw |].
  rewrite length_drop. simpl in *. lia.
Qed.

Lemma sanitize_loop_bytes fuel s : bytes_ok s -> bytes_ok (sanitize_loop fuel s).
Proof.
  assert (Hrep : bytes_ok REPLACEMENT)
    by (repeat constructor; unfold byte_ok; lia).
  revert s. induction fuel as [|fuel IH]; intros s Hs; [constructor|].
  destruct s as [|c s]; [constructor|]. cbn [sanitize_loop].
  pose proof (proj1 (bytes_ok_cons c s) Hs) as [_ Hs'].
  destruct (decode_utf8_strict (c :: s)) as [[n cp]|].
  - apply bytes_ok_app. split; [case_if; auto with cclaw | auto with cclaw].
  - apply (proj2 (bytes_ok_app _ _)). auto.
Qed.

Lemma sanitize_loop_length fuel s :
  bytes_ok s -> (length (sanitize_loop fuel s) <= 3 * length s)%nat.
Proof.
  revert s. induction fuel as [|fuel IH]; intros s Hs; [simpl; lia|].
  destruct s as [|c s]; [simpl; lia|]. cbn [sanitize_loop].
  pose proof (proj1 (bytes_ok_cons c s) Hs) as [_ Hs'].
  destruct (decode_utf8_strict (c :: s)) as [[n cp]|] eqn:E.
  - pose proof (decode_strict_length _ _ _ Hs E) as Hn.
    specialize (IH (drop n (c :: s)) ltac:(auto with cclaw)).
    rewrite length_app. rewrite length_drop in IH.
    case_if; [simpl length at 1 | rewrite length_take]; simpl length in *; lia.
  - specialize (IH s Hs'). rewrite length_app. simpl in *. lia.
Qed.

(** [utf8_sanitize] is total up to the size guard, always returns
    well-formed UTF-8 without surrogates, never grows its input more than
    threefold (the size of its buffer), and is the identity on text that is
    already well formed; so it is idempotent. *)
Theorem utf8_sanitize_correct (s : list Z) :
  bytes_ok s -> zlen s <= (SIZE_MAX - 1) / 3 ->
  exists out, utf8_sanitize (Some s) = Some out /\
    well_formed scalar out /\ bytes_ok out /\
    zlen out + 1 <= 3 * zlen s + 1 /\
    (well_formed scalar s -> out = s).
Proof.
  intros Hs Hlen. exists (sanitize_loop (length s) s). unfold utf8_sanitize.
  replace (zlen s >? (SIZE_MAX - 1) / 3) with false by lia.
  split_all; try done.
  - by apply sanitize_loop_wf.
  - by apply sanitize_loop_bytes.
  - pose proof (sanitize_loop_length (length s) s Hs). unfold zlen. lia.
  - intros Hw. by apply sanitize_loop_id.
Qed.

(** ** Removal of invisible code points *)

(** [decodes s cps]: [s] is the concatenation of sequences the decoder accepts
    and [cps] are their code points. *)
Inductive decodes : list Z -> list Z -> Prop :=
  | dec_nil : decodes [] []
  | dec_seq s n cp cps :
      decode_utf8_strict s = Some (n, cp) -> decodes (drop n s) cps ->
      decodes s (cp :: cps).

(** What the code means to keep: every visible code point, and a leading BOM. *)
Definition visible (cps : list Z) : list Z :=
  match cps with
  | [] => []
  | cp :: cps' =>
      (if is_invisible cp && negb (cp =? 0xFEFF) then [] else [cp])
        ++ filter (fun c => is_invisible c = false) cps'
  end.

Lemma decodes_block b n cp t cps :
  decode_utf8_strict b = Some (n, cp) -> n = length b ->
  decodes t cps -> decodes (b ++ t) (cp :: cps).
Proof.
  intros Hd -> Ht. apply (dec_seq _ (length b)).
  - by apply decode_strict_app.
  - by rewrite drop_app_length.
Qed.

Lemma decodes_take s n cp t cps :
  bytes_ok s -> decode_utf8_strict s = Some (n, cp) ->
  decodes t cps -> decodes (take n s ++ t) (cp :: cps).
Proof.
  intros Hs Hd. apply (decodes_block _ n).
  - by apply decode_strict_take.
  - pose proof (decode_strict_length _ _ _ Hs Hd). rewrite length_take. lia.
Qed.

(** After the first sequence the loop is a filter on code points. *)
Lemma strip_loop_rest fuel pos s cps :
  bytes_ok s -> (0 < pos)%nat -> (length s <= fuel)%nat -> decodes s cps ->
  decodes (strip_loop fuel pos s) (filter (fun c => is_invisible c = false) cps).
Proof.
  intros Hs Hpos Hf Hd. revert fuel pos Hs Hpos Hf.
  induction Hd as [|s n cp cps Hd Hr IH]; intros fuel pos Hs Hpos Hf.
  - destruct fuel; constructor.
  - pose proof (decode_strict_length _ _ _ Hs Hd) as Hn.
    destruct s as [|c s]; [done|]. destruct fuel as [|fuel]; [simpl in *; lia|].
    cbn [strip_loop]. rewrite Hd.
    replace (pos =? 0)%nat with false by lia.
    rewrite andb_false_r, andb_true_r, filter_cons.
    assert (IH' : decodes (strip_loop fuel (pos + n) (drop n (c :: s)))
                    (filter (fun c => is_invisible c = false) cps)).
    { apply IH; auto with cclaw; [lia|]. rewrite length_drop. simpl in *. lia. }
    destruct (is_invisible cp) eqn:Ei; simpl; [exact IH' |].
    by apply decodes_take.
Qed.

(** On well-formed text [unicode_strip_invisible] removes exactly the
    invisible code points, except a leading BOM: nothing visible is lost, none
    of the listed code points survives past the first, and applying it twice
    changes nothing. *)
Theorem strip_invisible_correct (s cps : list Z) :
  bytes_ok s -> decodes s cps ->
  exists out, unicode_strip_invisible (Some s) = Some out /\
    decodes out (visible cps) /\ visible (visible cps) = visible cps.
Proof.
  intros Hs Hd. eexists. split; [done|]. split.
  - destruct Hd as [|s n cp cps Hd Hr]; [constructor|].
    pose proof (decode_strict_length _ _ _ Hs Hd) as Hn.
    destruct s as [|c s]; [done|].
    cbn [length strip_loop visible]. rewrite Hd. cbn [Nat.eqb].
    rewrite andb_true_r.
    assert (H' : decodes (strip_loop (length s) (0 + n) (drop n (c :: s)))
                    (filter (fun c => is_invisible c = false) cps)).
    { apply strip_loop_rest; auto with cclaw; [lia|].
      rewrite length_drop. simpl in *. lia. }
    case_if; [done|]. by apply decodes_take.
  - destruct cps as [|cp cps]; [done|]. simpl.
    assert (Hf : forall l : list Z, filter (fun c => is_invisible c = false)
               (filter (fun c => is_invisible c = false) l)
             = filter (fun c => is_invisible c = false) l).
    { intros l. induction l as [|x l IH]; [done|]. rewrite filter_cons.
      case_decide; [|done]. rewrite filter_cons_True by done. by rewrite IH. }
    case_if; simpl; [|by rewrite Heqb, Hf].
    destruct (filter _ cps) as [|x l] eqn:E; [done|]. simpl.
    assert (is_invisible x = false /\ x :: l =
              filter (fun c => is_invisible c = false) (x :: l)) as [Hx Hl].
    { split; [|by rewrite <- E, Hf].
      assert (Hin : x ∈ filter (fun c => is_invisible c = false) cps)
        by (rewrite E; left). apply list_elem_of_filter in Hin. tauto. }
    rewrite Hx. simpl. rewrite filter_cons_True in Hl by done.
    injection Hl as <-. done.
Qed.

(** Outside well-formed text the removal can create an invisible code point:
    dropping the zero-width space between a stray lead byte and a stray
    continuation byte joins them into a soft hyphen, U+00AD. *)
Lemma strip_invisible_can_create :
  unicode_strip_invisible (Some [0xC2; 0xE2; 0x80; 0x8B; 0xAD]) = Some [0xC2; 0xAD] /\
  decode_utf8_strict [0xC2; 0xAD] = Some (2%nat, 0xAD) /\
  is_invisible 0xAD = true.
Proof. done. Qed.

(** The sanitiser keeps an overlong NUL, against its comment. *)
Lemma utf8_sanitize_keeps_overlong_nul :
  utf8_sanitize (Some [0xC0; 0x80]) = Some [0xC0; 0x80].
Proof. done. Qed.

Lemma utf8_sanitize_correct_witness :
  let s := [0x61; 0xFF; 0xED; 0xA0; 0x80; 0xC3; 0xA9] in
  exists out, utf8_sanitize (Some s) = Some out /\
    well_formed scalar out /\ bytes_ok out /\
    zlen out + 1 <= 3 * zlen s + 1 /\ (well_formed scalar s -> out = s).
Proof.
  apply utf8_sanitize_correct; [repeat constructor; unfold byte_ok; lia|].
  vm_compute. discriminate.
Defined.

Lemma strip_invisible_correct_witness :
  let s := [0xEF; 0xBB; 0xBF; 0x61; 0xE2; 0x80; 0x8B; 0x62] in
  let cps := [0xFEFF; 0x61; 0x200B; 0x62] in
  exists out, unicode_strip_invisible (Some s) = Some out /\
    decodes out (visible cps) /\ visible (visible cps) = visible cps.
Proof.
  apply strip_invisible_correct; [repeat constructor; unfold byte_ok; lia|].
  repeat first [apply dec_nil | eapply dec_seq; [vm_compute; reflexivity|]]. 
Defined.
