(* ===== verification/HostMatch.v ===== *)
(** * Host and address matching: src/host_match.c, src/http_policy.c

    Hostname rules (exact, dot-suffix, "*"), the scan of free text for hosts,
    CIDR parsing and containment, and the private-address test.  [inet_pton]
    and [inet_ntop] are the C library's: they are the operations of the class
    [InetPton], whose laws are what the code relies on. *)
From S2P Require Import Prelude CString Unicode Libc.

(** ** Hostname rules *)

(** [host_match]: [rules] is an array of possibly NULL strings. *)
Definition rule_match (r host : cstring) : bool :=
  match r with
  | [42 (* star *)] => true
  | 46 (* dot *) :: base =>
      let hlen := length host in
      let rlen := length r in
      ((hlen =? length base)%nat && (ascii_strcasecmp host base =? 0)) ||
      ((rlen <? hlen)%nat &&
         (ascii_strcasecmp (drop (hlen - rlen) host) r =? 0))
  | _ => ascii_strcasecmp host r =? 0
  end.

Fixpoint match_rules (rules : list (option cstring)) (host : cstring) : bool :=
  match rules with
  | [] => false
  | None :: rules' => match_rules rules' host
  | Some r :: rules' =>
      if rule_match r host then true else match_rules rules' host
  end.

Definition host_match (rules : option (list (option cstring)))
    (host : option cstring) : bool :=
  match rules, host with
  | Some rs, Some h => match_rules rs h
  | _, _ => false
  end.

(** [label_covers]: the suffixed copy is built in a 256-byte buffer, and is
    tried only when it fits. *)
Definition label_covers (label token : cstring) : bool :=
  if host_match (Some [Some label]) (Some token) then true
  else if negb (deref label =? "."%char) then
    let suffixed := "."%char :: label in
    if zlen suffixed <? 256
    then host_match (Some [Some suffixed]) (Some token)
    else false
  else false.

Fixpoint covers_any (labels : list (option cstring)) (host : cstring) : bool :=
  match labels with
  | [] => false
  | None :: ls => covers_any ls host
  | Some l :: ls => if label_covers l host then true else covers_any ls host
  end.

Definition host_covered (labels : option (list (option cstring)))
    (host : option cstring) : bool :=
  match labels, host with
  | Some ls, Some h => covers_any ls h
  | _, _ => false
  end.

(** ** Hosts in free text *)
Definition is_host_char (c : Z) : bool :=
  in_range "a"%char "z"%char c || in_range "A"%char "Z"%char c ||
  in_range "0"%char "9"%char c || (c =? "."%char) || (c =? "-"%char).

Definition is_edge (c : Z) : bool := (c =? "."%char) || (c =? "-"%char).

Fixpoint trim_left (s : cstring) : cstring :=
  match s with
  | c :: s' => if is_edge c then trim_left s' else s
  | [] => []
  end.

Definition trim_edges (s : cstring) : cstring :=
  rev (trim_left (rev (trim_left s))).

(** The maximal run of host characters a pointer stands on, and the rest. *)
Fixpoint take_run (p : cstring) : cstring * cstring :=
  match p with
  | c :: p' =>
      if is_host_char c then let (w, r) := take_run p' in (c :: w, r)
      else ([], p)
  | [] => ([], [])
  end.

Fixpoint scan_text (fuel : nat) (labels : list (option cstring)) (p : cstring)
    : option cstring :=
  match fuel with
  | O => None
  | S fuel' =>
      match p with
      | [] => None
      | c :: p' =>
          if negb (is_host_char c) then scan_text fuel' labels p'
          else
            let (run, rest) := take_run p in
            let token := trim_edges run in
            if (length token =? 0)%nat || (254 <=? length token)%nat
            then scan_text fuel' labels rest
            else if covers_any labels token then Some token
            else scan_text fuel' labels rest
      end
  end.

(** [host_in_text]: the matched token (before truncation to the caller's
    buffer), or [None]. *)
Definition host_in_text (labels : option (list (option cstring)))
    (text : option cstring) : option cstring :=
  match labels, text with
  | Some ((_ :: _) as ls), Some t => scan_text (length t) ls t
  | _, _ => None
  end.

(** The copy into [out_host], of capacity [out_cap]. *)
Definition out_host (token : cstring) (out_cap : nat) : cstring :=
  if (out_cap =? 0)%nat then [] else take (out_cap - 1) token.

(** ** URL host normalisation *)
Definition hexval (c : Z) : Z :=
  if in_range "0"%char "9"%char c then c - "0"%char
  else if in_range "a"%char "f"%char c then c - "a"%char + 10
  else if in_range "A"%char "F"%char c then c - "A"%char + 10
  else -1.

Arguments hexval : simpl never.

(** One percent-decoding pass, before the terminator is written. *)
Fixpoint percent_decode (r : cstring) : list Z :=
  match r with
  | [] => []
  | c :: r1 =>
      let plain := c :: percent_decode r1 in
      if c =? "%"%char then
        match r1 with
        | h :: (l :: r3) =>
            if (0 <=? hexval h) && (0 <=? hexval l)
            then (hexval h * 16 + hexval l) :: percent_decode r3
            else plain
        | _ => plain
        end
      else plain
  end.

Fixpoint decode_passes (n : nat) (host : cstring) : cstring :=
  match n with
  | O => host
  | S n' =>
      match strchr host "%"%char with
      | None => host
      | Some _ => decode_passes n' (c_str (percent_decode host))
      end
  end.

Definition url_host_normalize (host : option cstring) (cap : nat)
    : option cstring :=
  match host with
  | None => None
  | Some h =>
      if (cap =? 0)%nat then Some h
      else
        let d := decode_passes 2 h in
        match unicode_strip_invisible (Some d) with
        | Some stripped => Some (take (cap - 1) (c_str stripped))
        | None => Some d
        end
  end.

(** ** Addresses *)

Inductive family := AF_INET | AF_INET6.
#[export] Instance family_eq_dec : EqDecision family.
Proof. solve_decision. Defined.

Record Cidr := mkCidr {
  cidr_family : family;
  cidr_prefix : list Z;      (* 16 bytes; an IPv4 prefix uses the first 4 *)
  cidr_prefix_len : Z
}.

(** [(unsigned char)(0xFF << (8 - keep))]. *)
Definition prefix_mask (keep : Z) : Z := Z.land (Z.shiftl 0xFF (8 - keep)) 0xFF.

(** The masking loop of [cidr_parse] over the first [max] bytes. *)
Fixpoint mask_host_bits (i : Z) (max : nat) (plen : Z) (p : list Z) : list Z :=
  match max, p with
  | S max', b :: p' =>
      let bit_start := i * 8 in
      (if plen <=? bit_start then 0
       else if plen <? bit_start + 8
            then Z.land b (prefix_mask (plen - bit_start))
            else b) :: mask_host_bits (i + 1) max' plen p'
  | _, _ => p
  end.

(** [strtol] on a string of decimal digits, clamped to [LONG_MAX]. *)
Fixpoint digits_value (acc : Z) (s : cstring) : Z :=
  match s with
  | [] => acc
  | c :: s' => digits_value (acc * 10 + (c - "0"%char)) s'
  end.

Definition strtol_digits (s : cstring) : Z := Z.min LONG_MAX (digits_value 0 s).

Definition INET6_ADDRSTRLEN : Z := 46.

Section Cidr.
Context `{InetPton}.

(** The part of [cidr_parse] after the split: address text and the explicit
    prefix length, -1 when there is none. *)
Definition cidr_build (buf : cstring) (explicit_len : Z) : option Cidr :=
  match inet_pton4 buf with
  | Some a4 =>
      let plen := if 0 <=? explicit_len then explicit_len else 32 in
      if (plen <? 0) || (32 <? plen) then None
      else Some (mkCidr AF_INET (mask_host_bits 0 4 plen (a4 ++ replicate 12 0)) plen)
  | None =>
      match inet_pton6 buf with
      | Some a6 =>
          let plen := if 0 <=? explicit_len then explicit_len else 128 in
          if (plen <? 0) || (128 <? plen) then None
          else Some (mkCidr AF_INET6 (mask_host_bits 0 16 plen a6) plen)
      | None => None
      end
  end.

Definition cidr_parse (s : option cstring) : option Cidr :=
  match s with
  | None => None
  | Some s =>
      match strchr s "/"%char with
      | Some addr_len =>
          if INET6_ADDRSTRLEN + 4 <=? Z.of_nat addr_len then None
          else
            let plen := drop (S addr_len) s in
            match plen with
            | [] => None
            | _ =>
                if negb (forallb is_digit plen) then None
                else
                  let plen_val := strtol_digits plen in
                  if (plen_val <? 0) || (128 <? plen_val) then None
                  else cidr_build (take addr_len s) plen_val
            end
      | None =>
          if INET6_ADDRSTRLEN + 4 <=? zlen s then None
          else cidr_build s (-1)
      end
  end.

End Cidr.

Definition cidr_contains (rule : Cidr) (fam : family) (addr : list Z) : bool :=
  if negb (bool_decide (cidr_family rule = fam)) then false
  else
    let bytes := Z.to_nat (cidr_prefix_len rule / 8) in
    let bits := cidr_prefix_len rule mod 8 in
    if negb (bool_decide (take bytes (cidr_prefix rule) = take bytes addr)) then false
    else if 0 <? bits then
      let mask := prefix_mask bits in
      Z.land (nth bytes (cidr_prefix rule) 0) mask
        =? Z.land (nth bytes addr 0) mask
    else true.

Definition cidr_match (rules : option (list Cidr)) (fam : family)
    (addr : list Z) : bool :=
  match rules with
  | None => false
  | Some rs => existsb (fun r => cidr_contains r fam addr) rs
  end.

Definition granted_exact (rules : option (list Cidr)) (fam : family)
    (addr : list Z) : bool :=
  match rules with
  | None => false
  | Some rs =>
      let max_len := match fam with AF_INET => 32 | AF_INET6 => 128 end in
      let addr_bytes := match fam with AF_INET => 4%nat | AF_INET6 => 16%nat end in
      existsb (fun r =>
        bool_decide (cidr_family r = fam) && (cidr_prefix_len r =? max_len) &&
        bool_decide (take addr_bytes (cidr_prefix r) = take addr_bytes addr)) rs
  end.

(** ** Private addresses (src/http_policy.c) *)

(** [ntohl] of the four network-order bytes. *)
Definition ntohl (b : list Z) : Z :=
  Z.lor (Z.shiftl (nth 0 b 0) 24)
    (Z.lor (Z.shiftl (nth 1 b 0) 16)
      (Z.lor (Z.shiftl (nth 2 b 0) 8) (nth 3 b 0))).

Definition private_v4 (h : Z) : bool :=
  (Z.shiftr h 24 =? 127) || (Z.shiftr h 24 =? 10) || (Z.shiftr h 24 =? 0) ||
  (Z.land h 0xFFF00000 =? 0xAC100000) ||
  (Z.shiftr h 16 =? Z.lor (Z.shiftl 192 8) 168) ||
  (Z.shiftr h 16 =? Z.lor (Z.shiftl 169 8) 254) ||
  (Z.land h 0xFFC00000 =? 0x64400000).

Definition mapped_prefix : list Z := [0;0;0;0;0;0;0;0;0;0;0xff;0xff].

Section Private.
Context `{InetPton}.

Definition private_v6 (a : list Z) : option bool :=
  if bool_decide (a = replicate 15 0 ++ [1]) then Some true
  else if bool_decide (a = replicate 16 0) then Some true
  else if (nth 0 a 0 =? 0xfe) && (Z.land (nth 1 a 0) 0xc0 =? 0x80) then Some true
  else if Z.land (nth 0 a 0) 0xfe =? 0xfc then Some true
  else if bool_decide (take 12 a = mapped_prefix) then None
  else Some false.

(** The recursive call is on the dotted text of an embedded IPv4 address; one
    unit of fuel covers it ([http_is_private_ip_fuel] below). *)
Fixpoint is_private_loop (fuel : nat) (ip : cstring) : bool :=
  match fuel with
  | O => false
  | S fuel' =>
      match inet_pton4 ip with
      | Some b => private_v4 (ntohl b)
      | None =>
          match inet_pton6 ip with
          | Some a =>
              match private_v6 a with
              | Some r => r
              | None => is_private_loop fuel' (inet_ntop4 (drop 12 a))
              end
          | None => false
          end
      end
  end.

Definition http_is_private_ip (ip : cstring) : bool := is_private_loop 2 ip.

End Private.

(** ** What the hostname rules mean *)

(** [rule_covers r h]: the abstract meaning of a rule, up to ASCII case: "*",
    the exact name, and for ".base" the name [base] or a proper subdomain of
    it. *)
Inductive rule_covers : cstring -> cstring -> Prop :=
  | rc_star h : rule_covers ["*"%char] h
  | rc_exact r h : deref r <> "."%char -> lower h = lower r -> rule_covers r h
  | rc_base base h : lower h = lower base -> rule_covers ("."%char :: base) h
  | rc_sub base h sub :
      sub <> [] -> lower h = lower (sub ++ "."%char :: base) ->
      rule_covers ("."%char :: base) h.

Definition some_rule_covers (rules : list (option cstring)) (h : cstring) : Prop :=
  exists r, Some r ∈ rules /\ rule_covers r h.

Definition cstr_rules (rules : list (option cstring)) : Prop :=
  forall r, Some r ∈ rules -> cstr r.

Lemma suffix_match_spec base h :
  cstr base -> cstr h ->
  ((length ("."%char :: base) <? length h)%nat &&
     (ascii_strcasecmp (drop (length h - length ("."%char :: base)) h)
        ("."%char :: base) =? 0)) = true <->
  exists sub, sub <> [] /\ lower h = lower (sub ++ "."%char :: base).
Proof.
  intros Hb Hh. set (r := "."%char :: base).
  assert (Hr : cstr r) by (apply cstr_cons; split; [lia | done]).
  rewrite andb_true_iff, Nat.ltb_lt, Z.eqb_eq.
  rewrite ascii_strcasecmp_eq0 by (try done; by apply Forall_drop).
  split.
  - intros [Hl He]. exists (take (length h - length r) h). split.
    + intros Hn. apply (f_equal length) in Hn. rewrite length_take in Hn.
      subst r; simpl in *; lia.
    + rewrite lower_app, <- He, <- lower_app, take_drop. done.
  - intros [sub [Hne He]].
    assert (Hlen : length h = (length sub + length r)%nat).
    { apply (f_equal length) in He. rewrite !lower_length, length_app in He. done. }
    split; [destruct sub; simpl in *; [done | lia]|].
    replace (length h - length r)%nat with (length sub) by lia.
    unfold lower in *. rewrite <- skipn_map, He, map_app.
    apply drop_app_length'. by rewrite length_map.
Qed.

Lemma rule_match_spec r h :
  cstr r -> cstr h -> rule_match r h = true <-> rule_covers r h.
Proof.
  intros Hr Hh. destruct r as [|c base].
  - simpl. rewrite Z.eqb_eq, ascii_strcasecmp_eq0 by done. split.
    + intros. by constructor.
    + inversion 1; by subst.
  - destruct (decide (c = "."%char)) as [->|Hdot].
    + apply cstr_cons in Hr as [_ Hb].
      change (rule_match ("."%char :: base) h) with
        (((length h =? length base)%nat && (ascii_strcasecmp h base =? 0)) ||
         ((length ("."%char :: base) <? length h)%nat &&
            (ascii_strcasecmp (drop (length h - length ("."%char :: base)) h)
               ("."%char :: base) =? 0))).
      rewrite orb_true_iff, (suffix_match_spec base h Hb Hh).
      rewrite andb_true_iff, Nat.eqb_eq, Z.eqb_eq, ascii_strcasecmp_eq0 by done.
      split.
      * intros [[_ He] | [sub [Hn He]]]; [by apply rc_base | by apply (rc_sub _ _ sub)].
      * inversion 1; subst; [done | left | right; eauto].
        split; [|done]. match goal with He : lower h = _ |- _ =>
          apply (f_equal length) in He; by rewrite !lower_length in He end.
    + assert (Hexact : (ascii_strcasecmp h (c :: base) =? 0) = true <->
                       lower h = lower (c :: base))
        by (rewrite Z.eqb_eq; by apply ascii_strcasecmp_eq0).
      destruct (decide (c = "*"%char /\ base = [])) as [[-> ->]|Hstar].
      * split; [constructor | done].
      * assert (Hm : rule_match (c :: base) h = (ascii_strcasecmp h (c :: base) =? 0)).
        { unfold rule_match. repeat case_match; try done; subst; tauto. }
        rewrite Hm, Hexact. split; [by constructor|].
        inversion 1; subst; tauto.
Qed.

Lemma match_rules_spec rules h :
  cstr_rules rules -> cstr h ->
  match_rules rules h = true <-> some_rule_covers rules h.
Proof.
  intros Hr Hh. unfold some_rule_covers.
  induction rules as [|[r|] rules IH]; simpl.
  - split; [done|]. intros [r [Hin _]]. by apply not_elem_of_nil in Hin.
  - assert (Hr0 : cstr r) by (apply Hr; left).
    assert (IH' := IH ltac:(intros r' H'; apply Hr; by right)).
    destruct (rule_match r h) eqn:E.
    + apply rule_match_spec in E; [|done..]. split; [|done]. intros _.
      exists r. split; [left | done].
    + rewrite IH'. split; intros [r' [Hin Hc]].
      * exists r'. split; [by right | done].
      * apply elem_of_cons in Hin as [[= ->] | Hin]; [|eauto].
        apply rule_match_spec in Hc; [congruence | done..].
  - rewrite IH by (intros r' H'; apply Hr; by right).
    split; intros [r' [Hin Hc]]; exists r'; split; try done.
    + by right.
    + apply elem_of_cons in Hin as [? | ?]; [congruence | done].
Qed.

(** [host_match] decides exactly the documented rule semantics: it answers
    yes iff some rule of the list is "*", equals the host up to case, or is a
    dot rule whose base is the host or a proper dot-boundary suffix of it; NULL
    entries never match, and a NULL list denies. *)
Theorem host_match_correct (rules : list (option cstring)) (h : cstring) :
  cstr_rules rules -> cstr h ->
  (host_match (Some rules) (Some h) = true <-> some_rule_covers rules h) /\
  host_match None (Some h) = false.
Proof. intros. split; [by apply match_rules_spec | done]. Qed.

Lemma host_match_correct_witness :
  (host_match (Some [None; Some (bs ".GitHub.com")]) (Some (bs "api.github.COM")) = true <->
   some_rule_covers [None; Some (bs ".GitHub.com")] (bs "api.github.COM")) /\
  host_match None (Some (bs "api.github.COM")) = false.
Proof.
  apply host_match_correct.
  - intros r Hin. apply elem_of_cons in Hin as [? | Hin]; [congruence|].
    apply list_elem_of_singleton in Hin as [= ->].
    vm_compute. repeat constructor; done.
  - vm_compute. repeat constructor; done.
Defined.

(** The dot boundary: a host that merely ends in the text of a suffix rule's
    base, glued to another character ("evilgithub.com" under ".github.com"), is
    never covered by that rule, whatever the characters are. *)
Theorem host_match_dot_boundary (pre base : cstring) (c : Z) :
  cstr (pre ++ c :: base) -> c <> "."%char ->
  host_match (Some [Some ("."%char :: base)]) (Some (pre ++ c :: base)) = false.
Proof.
  intros Hh Hc. apply not_true_iff_false. intros Hm.
  assert (Hb : cstr base) by (apply cstr_app in Hh as [_ Hh]; by apply cstr_cons in Hh as [_ ?]).
  apply match_rules_spec in Hm; [| |done].
  2:{ intros r Hin. apply list_elem_of_singleton in Hin as [= ->].
      apply cstr_cons. split; [lia | done]. }
  destruct Hm as [r [Hin Hcov]]. apply list_elem_of_singleton in Hin as [= ->].
  inversion Hcov as [|? ? Hd|? ? He|? ? sub _ He]; subst; [done| |].
  - apply (f_equal length) in He.
    rewrite !lower_length, length_app in He. simpl in He. lia.
  - rewrite !lower_app in He.
    apply app_inj_2 in He as [_ He]; [|simpl; by rewrite !lower_length].
    injection He as He. revert He. unfold ascii_lower. repeat case_if; bool_lia.
Qed.

Lemma host_match_dot_boundary_witness :
  host_match (Some [Some ("."%char :: bs "github.com")])
    (Some (bs "evi" ++ "l"%char :: bs "github.com")) = false.
Proof.
  apply host_match_dot_boundary; [vm_compute; repeat constructor; done | done].
Defined.

(** ** Labels and free text *)

(** [label_allows l h]: registered-domain semantics of a label, the name itself
    or, when the label is not already a dot rule and its suffixed copy fits the
    256-byte buffer, one of its subdomains. *)
Definition label_allows (l h : cstring) : Prop :=
  rule_covers l h \/
  (deref l <> "."%char /\ zlen l + 1 < 256 /\ rule_covers ("."%char :: l) h).

Lemma single_rule l h :
  cstr l -> cstr h ->
  host_match (Some [Some l]) (Some h) = true <-> rule_covers l h.
Proof.
  intros Hl Hh. simpl. rewrite <- (rule_match_spec l h) by done.
  by destruct (rule_match l h).
Qed.

Lemma label_covers_spec l h :
  cstr l -> cstr h -> label_covers l h = true <-> label_allows l h.
Proof.
  intros Hl Hh. unfold label_covers, label_allows.
  assert (Hs : cstr ("."%char :: l)) by (apply cstr_cons; split; [lia | done]).
  pose proof (single_rule l h Hl Hh) as H1.
  pose proof (single_rule _ h Hs Hh) as H2.
  destruct (host_match (Some [Some l]) (Some h)).
  - split; [intros _; left; by apply H1 | done].
  - assert (Hn : ~ rule_covers l h) by (intros Hc; apply H1 in Hc; congruence).
    rewrite zlen_cons. case_if; [|split; [done | intros [?|?]; [done | lia]]].
    case_if.
    + rewrite H2. split; [right | intros [?|?]; [done | tauto]].
      split_all; [lia | lia | done].
    + split; [done | intros [?|?]; [done | lia]].
Qed.

Lemma covers_any_spec labels h :
  cstr_rules labels -> cstr h ->
  covers_any labels h = true <-> exists l, Some l ∈ labels /\ label_allows l h.
Proof.
  intros Hr Hh. induction labels as [|[l|] ls IH]; simpl.
  - split; [done|]. intros [r [Hin _]]. by apply not_elem_of_nil in Hin.
  - pose proof (label_covers_spec l h (Hr l ltac:(left)) Hh) as Hl.
    assert (IH' := IH ltac:(intros r' H'; apply Hr; by right)).
    destruct (label_covers l h).
    + split; [|done]. intros _. exists l. split; [left | by apply Hl].
    + rewrite IH'. split; intros [r' [Hin Hc]].
      * exists r'. split; [by right | done].
      * apply elem_of_cons in Hin as [[= ->] | Hin]; [|eauto].
        apply Hl in Hc. congruence.
  - rewrite IH by (intros r' H'; apply Hr; by right).
    split; intros [r' [Hin Hc]]; exists r'; split; try done.
    + by right.
    + apply elem_of_cons in Hin as [? | ?]; [congruence | done].
Qed.

(** [maximal_run text run]: [run] is a maximal run of host characters. *)
Definition ends_run (l : cstring) : Prop :=
  forall l' c, l = l' ++ [c] -> is_host_char c = false.
Definition starts_run (r : cstring) : Prop :=
  forall c r', r = c :: r' -> is_host_char c = false.
Definition host_run (w : cstring) : Prop := Forall (fun c => is_host_char c = true) w.
Definition maximal_run (text run : cstring) : Prop :=
  run <> [] /\ host_run run /\
  exists l r, text = l ++ run ++ r /\ ends_run l /\ starts_run r.

Lemma take_run_spec p w r :
  take_run p = (w, r) -> p = w ++ r /\ host_run w /\ starts_run r.
Proof.
  revert w r. induction p as [|c p IH]; intros w r; simpl.
  - intros [= <- <-]. split_all; [done | constructor | by intros ? ?].
  - destruct (is_host_char c) eqn:E.
    + destruct (take_run p) as [w' r'] eqn:Et. intros [= <- <-].
      destruct (IH w' r' eq_refl) as [-> [Hw Hr]].
      split_all; [done | by constructor | done].
    + intros [= <- <-]. split_all; [done | constructor | by intros ? ? [= <- <-]].
Qed.

Lemma host_run_unique w1 r1 w2 r2 :
  w1 ++ r1 = w2 ++ r2 -> host_run w1 -> host_run w2 ->
  starts_run r1 -> starts_run r2 -> w1 = w2 /\ r1 = r2.
Proof.
  revert w2. induction w1 as [|c w1 IH]; intros [|c2 w2] He H1 H2 S1 S2; simpl in *.
  - done.
  - apply Forall_cons_iff in H2 as [Hc _]. rewrite (S1 _ _ He) in Hc. done.
  - apply Forall_cons_iff in H1 as [Hc _]. symmetry in He.
    rewrite (S2 _ _ He) in Hc. done.
  - injection He as <- He.
    apply Forall_cons_iff in H1 as [_ H1]. apply Forall_cons_iff in H2 as [_ H2].
    destruct (IH w2 He H1 H2 S1 S2) as [-> ->]. done.
Qed.

Lemma ends_run_cons c l : is_host_char c = false -> ends_run l -> ends_run (c :: l).
Proof.
  intros Hc Hl [|x l'] d; simpl.
  - intros [= <- _]. done.
  - intros [= <- He]. by apply (Hl l' d).
Qed.

Lemma maximal_run_skip c p run :
  is_host_char c = false -> maximal_run (c :: p) run <-> maximal_run p run.
Proof.
  intros Hc. unfold maximal_run.
  split; intros [Hne [Hrun [l [r [He [Hl Hr]]]]]]; split_all; try done.
  - destruct l as [|x l].
    + destruct run as [|y run]; [done|]. injection He as <- _.
      apply Forall_cons_iff in Hrun as [? _]. congruence.
    + injection He as <- ->. exists l, r. split_all; try done.
      intros l' d ->. by apply (Hl (c :: l') d).
  - exists (c :: l), r. subst. split_all; try done. by apply ends_run_cons.
Qed.

Lemma maximal_run_split w rest run :
  w <> [] -> host_run w -> starts_run rest ->
  maximal_run (w ++ rest) run <-> run = w \/ maximal_run rest run.
Proof.
  intros Hw Hrw Hs. unfold maximal_run. split.
  - intros [Hne [Hrun [l [r [He [Hl Hr]]]]]].
    destruct (decide (l = [])) as [->|Hln].
    + left. simpl in He. by destruct (host_run_unique _ _ _ _ He Hrw Hrun Hs Hr) as [<- _].
    + right. split_all; try done.
      assert (Hpre : exists l', l = w ++ l' /\ l' <> []).
      { destruct (exists_last Hln) as [l0 [d Hd]].
        pose proof (Hl _ _ Hd) as Hdn.
        apply app_eq_inv in He as [[k [-> He]] | [k [-> He]]].
        - exfalso. apply Forall_app in Hrw as [Hrw _]. rewrite Hd in Hrw.
          apply Forall_app in Hrw as [_ Hrw].
          apply Forall_cons_iff in Hrw as [? _]. congruence.
        - exists k. split; [done|]. intros ->. rewrite app_nil_r in Hd.
          rewrite Hd in Hrw. apply Forall_app in Hrw as [_ Hrw].
          apply Forall_cons_iff in Hrw as [? _]. congruence. }
      destruct Hpre as [l' [-> Hl'n]].
      rewrite <- app_assoc in He. apply app_inv_head in He.
      exists l', r. split_all; try done.
      intros l0 d ->. apply (Hl (w ++ l0) d). by rewrite app_assoc.
  - intros [-> | [Hne [Hrun [l [r [-> [Hl Hr]]]]]]].
    + split_all; try done. exists [], rest. split_all; try done.
      intros l' d H. by apply app_cons_not_nil in H.
    + split_all; try done. exists (w ++ l), r. split_all; try done.
      * by rewrite app_assoc.
      * intros l' d H. destruct (decide (l = [])) as [->|Hln].
        -- destruct run as [|y run]; [done|].
           specialize (Hs y (run ++ r) eq_refl).
           apply Forall_cons_iff in Hrun as [? _]. congruence.
        -- destruct (exists_last Hln) as [l0 [d' Hd]]. rewrite Hd in H.
           rewrite app_assoc in H. apply app_inj_tail in H as [_ <-].
           by apply (Hl l0 d').
Qed.

(** The tokens [host_in_text] judges: trimmed maximal runs of 1 to 253 bytes. *)
Definition candidate (text t : cstring) : Prop :=
  exists run, maximal_run text run /\ t = trim_edges run /\ (0 < length t < 254)%nat.

Lemma candidate_skip c p t :
  is_host_char c = false -> candidate (c :: p) t <-> candidate p t.
Proof.
  intros Hc. split; intros [run [Hm Ht]]; exists run;
    (split; [by apply (maximal_run_skip c) | done]).
Qed.

Lemma candidate_split w rest t :
  w <> [] -> host_run w -> starts_run rest ->
  candidate (w ++ rest) t <->
  (t = trim_edges w /\ (0 < length t < 254)%nat) \/ candidate rest t.
Proof.
  intros Hw Hr Hs. split.
  - intros [run [Hm [-> Hl]]].
    apply maximal_run_split in Hm as [-> | Hm]; [by left | right; by exists run | done..].
  - intros [[-> Hl] | [run [Hm [-> Hl]]]]; [exists w | exists run];
      (split; [apply maximal_run_split; auto | done]).
Qed.

Lemma candidate_nil t : ~ candidate [] t.
Proof.
  intros [run [[Hne [_ [l [r [He _]]]]] _]].
  symmetry in He. apply app_nil in He as [_ He]. by apply app_nil in He as [-> _].
Qed.

Lemma scan_text_spec fuel labels p :
  (length p <= fuel)%nat ->
  match scan_text fuel labels p with
  | Some t => candidate p t /\ covers_any labels t = true
  | None => forall t, candidate p t -> covers_any labels t = false
  end.
Proof.
  revert p. induction fuel as [|fuel IH]; intros p Hf.
  - destruct p; [|simpl in *; lia]. by intros t Ht%candidate_nil.
  - destruct p as [|c p]; cbn [scan_text].
    { by intros t Ht%candidate_nil. }
    destruct (is_host_char c) eqn:E; cbn [negb].
    2:{ specialize (IH p ltac:(simpl in *; lia)).
        destruct (scan_text fuel labels p).
        - rewrite (candidate_skip c) by done. done.
        - intros t Ht. apply IH. by apply (candidate_skip c). }
    destruct (take_run (c :: p)) as [w rest] eqn:Et.
    destruct (take_run_spec _ _ _ Et) as [He [Hw Hs]].
    assert (Hwn : w <> []).
    { simpl in Et. rewrite E in Et. destruct (take_run p). injection Et as <- _. done. }
    assert (Hlen : (length rest <= fuel)%nat).
    { apply (f_equal length) in He. rewrite length_app in He.
      destruct w; [done|]. simpl in *. lia. }
    specialize (IH rest Hlen). rewrite He.
    assert (Hcs : forall t, candidate (w ++ rest) t <-> _)
      by (intros t; exact (candidate_split w rest t Hwn Hw Hs)).
    destruct ((length (trim_edges w) =? 0)%nat || (254 <=? length (trim_edges w))%nat)
      eqn:El; [|destruct (covers_any labels (trim_edges w)) eqn:Ec].
    + destruct (scan_text fuel labels rest).
      * rewrite Hcs. tauto.
      * intros t Ht. apply Hcs in Ht as [[-> ?] | Ht]; [lia | auto].
    + rewrite Hcs. split; [left; split; [done | lia] | done].
    + destruct (scan_text fuel labels rest).
      * rewrite Hcs. tauto.
      * intros t Ht. apply Hcs in Ht as [[-> ?] | Ht]; [done | auto].
Qed.

Lemma host_chars_cstr w : host_run w -> cstr w.
Proof.
  apply List.Forall_impl. intros c. unfold is_host_char, in_range. lia.
Qed.

Lemma trim_left_suffix s : exists a, s = a ++ trim_left s.
Proof.
  induction s as [|c s [a IH]]; simpl; [by exists []|].
  case_if; [exists (c :: a); simpl; by f_equal | by exists []].
Qed.

Lemma trim_edges_infix s : exists a b, s = a ++ trim_edges s ++ b.
Proof.
  unfold trim_edges. destruct (trim_left_suffix s) as [a Ha].
  destruct (trim_left_suffix (rev (trim_left s))) as [b Hb].
  exists a, (rev b). rewrite <- rev_app_distr, <- Hb, rev_involutive. done.
Qed.

Lemma candidate_cstr text t : candidate text t -> cstr t.
Proof.
  intros [run [[_ [Hr _]] [-> _]]]. apply host_chars_cstr in Hr.
  destruct (trim_edges_infix run) as [a [b He]]. rewrite He in Hr.
  apply cstr_app in Hr as [_ Hr]. by apply cstr_app in Hr as [? _].
Qed.

(** [host_in_text] is sound and complete: it answers a token exactly when
    some maximal run of host characters of the text, trimmed of edge dots and
    hyphens and of at most 253 bytes, is a host one of the labels covers under
    registered-domain semantics; and the answer is such a token.  It
    terminates on every text (the fuel is its length). *)
Theorem host_in_text_correct (labels : list (option cstring)) (text : cstring) :
  labels <> [] -> cstr_rules labels ->
  match host_in_text (Some labels) (Some text) with
  | Some t => candidate text t /\ exists l, Some l ∈ labels /\ label_allows l t
  | None => forall t, candidate text t ->
              ~ exists l, Some l ∈ labels /\ label_allows l t
  end.
Proof.
  intros Hn Hr. destruct labels as [|l0 ls]; [done|]. cbn [host_in_text].
  pose proof (scan_text_spec (length text) (l0 :: ls) text ltac:(lia)) as H.
  destruct (scan_text _ _ _) as [t|].
  - destruct H as [Hc Hcov]. split; [done|].
    apply covers_any_spec; [done | by eapply candidate_cstr | done].
  - intros t Hc Hl. apply covers_any_spec in Hl; [|done | by eapply candidate_cstr].
    rewrite (H t Hc) in Hl. done.
Qed.

Lemma host_in_text_correct_witness :
  match host_in_text (Some [Some (bs "chase.com")])
          (Some (bs "curl -s https://api.Chase.com./x mychase.com")) with
  | Some t => candidate (bs "curl -s https://api.Chase.com./x mychase.com") t /\
              exists l, Some l ∈ [Some (bs "chase.com")] /\ label_allows l t
  | None => forall t, candidate (bs "curl -s https://api.Chase.com./x mychase.com") t ->
              ~ exists l, Some l ∈ [Some (bs "chase.com")] /\ label_allows l t
  end.
Proof.
  apply host_in_text_correct; [done|].
  intros r Hin. apply list_elem_of_singleton in Hin as [= ->].
  vm_compute. repeat constructor; done.
Defined.

(** ** Address bits *)

(** Bit [i] of an address in network order, 0 the most significant. *)
Definition addr_bit (a : list Z) (i : Z) : bool :=
  Z.testbit (nth (Z.to_nat (i / 8)) a 0) (7 - i mod 8).

(** The first [n] bits of two addresses agree. *)
Definition same_prefix (n : Z) (a b : list Z) : Prop :=
  forall i, 0 <= i < n -> addr_bit a i = addr_bit b i.

Lemma prefix_mask_testbit keep k :
  0 <= keep <= 8 -> 0 <= k ->
  Z.testbit (prefix_mask keep) k = (8 - keep <=? k) && (k <? 8).
Proof.
  intros Hb Hk. unfold prefix_mask. rewrite Z.land_spec, Z.shiftl_spec by done.
  change 0xFF with (Z.ones 8).
  destruct (k <? 8) eqn:E.
  - rewrite (Z.ones_spec_low 8 k) by lia. rewrite !andb_true_r.
    destruct (8 - keep <=? k) eqn:E2.
    + apply Z.ones_spec_low. lia.
    + apply Z.testbit_neg_r. lia.
  - rewrite (Z.ones_spec_high 8 k) by lia. by rewrite !andb_false_r.
Qed.

(** The masked comparison of the last byte compares its top [keep] bits. *)
Lemma masked_eq_bits x y keep :
  byte_ok x -> byte_ok y -> 0 <= keep <= 8 ->
  Z.land x (prefix_mask keep) = Z.land y (prefix_mask keep) <->
  forall j, 0 <= j < keep -> Z.testbit x (7 - j) = Z.testbit y (7 - j).
Proof.
  intros Hx Hy Hb. split.
  - intros H j Hj. apply (f_equal (fun z => Z.testbit z (7 - j))) in H.
    rewrite !Z.land_spec, prefix_mask_testbit in H by lia.
    replace ((8 - keep <=? 7 - j) && (7 - j <? 8)) with true in H by lia.
    by rewrite !andb_true_r in H.
  - intros H. apply Z.bits_inj'. intros k Hk.
    rewrite !Z.land_spec, prefix_mask_testbit by lia.
    destruct ((8 - keep <=? k) && (k <? 8)) eqn:E; [|by rewrite !andb_false_r].
    rewrite !andb_true_r. replace k with (7 - (7 - k)) by lia. apply H. lia.
Qed.

Lemma take_eq_nth (n : nat) (a b : list Z) :
  (n <= length a)%nat -> (n <= length b)%nat ->
  take n a = take n b <-> forall k, (k < n)%nat -> nth k a 0 = nth k b 0.
Proof.
  revert a b. induction n as [|n IH]; intros a b Ha Hb; [split; [lia | done]|].
  destruct a as [|x a], b as [|y b]; simpl in *; try lia. split.
  - intros [= -> H] [|k] Hk; [done|]. apply IH; [lia..|done|lia].
  - intros H. f_equal; [apply (H 0%nat); lia|].
    apply IH; [lia..|]. intros k Hk. apply (H (S k)). lia.
Qed.

Lemma byte_prefix_bits a b n :
  bytes_ok a -> bytes_ok b -> (n <= length a)%nat -> (n <= length b)%nat ->
  take n a = take n b <-> same_prefix (8 * Z.of_nat n) a b.
Proof.
  intros Ha Hb Hla Hlb. rewrite take_eq_nth by done. unfold same_prefix, addr_bit. split.
  - intros H i Hi. by rewrite (H (Z.to_nat (i / 8))) by lia.
  - intros H k Hk. apply byte_eq_bits; auto with cclaw. intros j Hj.
    specialize (H (8 * Z.of_nat k + (7 - j)) ltac:(lia)).
    replace ((8 * Z.of_nat k + (7 - j)) / 8) with (Z.of_nat k) in H by lia.
    replace (7 - (8 * Z.of_nat k + (7 - j)) mod 8) with j in H by lia.
    by rewrite Nat2Z.id in H.
Qed.

(** [wf_cidr]: what [cidr_parse] establishes and the code assumes of a rule. *)
Definition addr_len (f : family) : nat := match f with AF_INET => 4 | AF_INET6 => 16 end.
Definition wf_cidr (c : Cidr) : Prop :=
  length (cidr_prefix c) = 16%nat /\ bytes_ok (cidr_prefix c) /\
  0 <= cidr_prefix_len c <= 8 * Z.of_nat (addr_len (cidr_family c)).
Definition wf_addr (f : family) (a : list Z) : Prop :=
  length a = addr_len f /\ bytes_ok a.

Lemma same_prefix_split n a b :
  0 <= n ->
  same_prefix n a b <->
  same_prefix (8 * (n / 8)) a b /\
  (forall j, 0 <= j < n mod 8 ->
     Z.testbit (nth (Z.to_nat (n / 8)) a 0) (7 - j) =
     Z.testbit (nth (Z.to_nat (n / 8)) b 0) (7 - j)).
Proof.
  intros Hn. unfold same_prefix, addr_bit. split.
  - intros H. split; [intros i Hi; apply H; lia|].
    intros j Hj. specialize (H (8 * (n / 8) + j) ltac:(lia)).
    replace ((8 * (n / 8) + j) / 8) with (n / 8) in H by lia.
    by replace ((8 * (n / 8) + j) mod 8) with j in H by lia.
  - intros [H1 H2] i Hi. destruct (decide (i < 8 * (n / 8))); [apply H1; lia|].
    replace (i / 8) with (n / 8) by lia. apply H2. lia.
Qed.

(** [cidr_contains] is equality of the family and of the first [prefix_len]
    bits. *)
Lemma cidr_contains_spec c f a :
  wf_cidr c -> wf_addr f a ->
  cidr_contains c f a = true <->
  cidr_family c = f /\ same_prefix (cidr_prefix_len c) (cidr_prefix c) a.
Proof.
  intros [Hl [Hb Hp]] [Hla Hba]. unfold cidr_contains.
  set (n := cidr_prefix_len c) in *. set (p := cidr_prefix c) in *.
  case_bool_decide as Hf; cbn [negb]; [|split; [done | tauto]].
  assert (Hbytes : (Z.to_nat (n / 8) <= length a /\ Z.to_nat (n / 8) <= length p)%nat).
  { rewrite Hl, Hla. rewrite Hf in Hp. destruct f; simpl in *; lia. }
  rewrite (same_prefix_split n) by lia.
  pose proof (byte_prefix_bits p a (Z.to_nat (n / 8)) Hb Hba ltac:(lia) ltac:(lia)) as Ht.
  rewrite Z2Nat.id in Ht by lia.
  case_bool_decide as He; cbn [negb]; [|split; [done | tauto]].
  destruct (0 <? n mod 8) eqn:Em.
  - rewrite Z.eqb_eq, masked_eq_bits by (auto with cclaw || lia). tauto.
  - split; [|done]. intros _. split_all; [done | tauto | intros; lia].
Qed.

(** ** Parsing *)

Lemma mask_host_bits_length i m n p : length (mask_host_bits i m n p) = length p.
Proof.
  revert i p. induction m as [|m IH]; intros i [|b p]; simpl; [done..|]. by rewrite IH.
Qed.

Lemma mask_host_bits_bytes i m n p :
  bytes_ok p -> bytes_ok (mask_host_bits i m n p).
Proof.
  revert i p. induction m as [|m IH]; intros i [|b p] Hp; simpl; try done.
  apply bytes_ok_cons in Hp as [Hb Hp]. apply bytes_ok_cons. split; [|by apply IH].
  repeat case_if; [unfold byte_ok; lia | | done].
  by apply byte_ok_land.
Qed.

Lemma mask_host_bits_nth i m n p k :
  (k < m)%nat -> (k < length p)%nat ->
  nth k (mask_host_bits i m n p) 0 =
    let bit_start := (i + Z.of_nat k) * 8 in
    if n <=? bit_start then 0
    else if n <? bit_start + 8
         then Z.land (nth k p 0) (prefix_mask (n - bit_start))
         else nth k p 0.
Proof.
  revert i p k. induction m as [|m IH]; intros i p k Hk Hp; [lia|].
  destruct p as [|b p]; simpl in Hp; [lia|]. destruct k as [|k]; simpl.
  - by rewrite Z.add_0_r.
  - rewrite IH by lia. by replace (i + 1 + Z.of_nat k) with (i + Z.of_nat (S k)) by lia.
Qed.

(** The masking loop keeps the first [n] bits and clears the others. *)
Lemma mask_host_bits_bit m n p i :
  bytes_ok p -> 0 <= n -> 0 <= i < 8 * Z.of_nat m -> (m <= length p)%nat ->
  addr_bit (mask_host_bits 0 m n p) i = if i <? n then addr_bit p i else false.
Proof.
  intros Hp Hn Hi Hm. unfold addr_bit.
  rewrite mask_host_bits_nth by lia. cbv zeta.
  rewrite Z.add_0_l, Z2Nat.id by lia.
  repeat case_if; try lia; try apply Z.testbit_0_l; try done;
    rewrite Z.land_spec, prefix_mask_testbit by lia.
  - replace ((8 - (n - i / 8 * 8) <=? 7 - i mod 8) && (7 - i mod 8 <? 8))
      with true by lia. by rewrite andb_true_r.
  - replace ((8 - (n - i / 8 * 8) <=? 7 - i mod 8) && (7 - i mod 8 <? 8))
      with false by lia. by rewrite andb_false_r.
Qed.

Lemma masked_same_prefix m n p a :
  bytes_ok p -> 0 <= n <= 8 * Z.of_nat m -> (m <= length p)%nat ->
  same_prefix n (mask_host_bits 0 m n p) a <-> same_prefix n p a.
Proof.
  intros Hp Hn Hm. unfold same_prefix.
  split; intros H i Hi; specialize (H i Hi); revert H;
    rewrite mask_host_bits_bit by (done || lia);
    replace (i <? n) with true by lia; done.
Qed.

Section CidrParse.
Context `{InetPton} {laws : InetPtonLaws}.

(** What [cidr_parse] promises of its result [c] for the text [s]: the text is
    a bare address, or an address, a slash and a non-empty run of digits whose
    value is the prefix length; the rule is well formed, its host bits are
    zero, and it contains exactly the addresses of its family that share the
    first [prefix_len] bits of the address that was written. *)
Definition parsed_as (s : cstring) (c : Cidr) : Prop :=
  exists txt a,
    (if bool_decide (cidr_family c = AF_INET) then inet_pton4 txt = Some a
     else inet_pton4 txt = None /\ inet_pton6 txt = Some a) /\
    (s = txt /\ cidr_prefix_len c = 8 * Z.of_nat (addr_len (cidr_family c)) \/
     exists d, s = txt ++ "/"%char :: d /\ d <> [] /\ forallb is_digit d = true /\
               cidr_prefix_len c = digits_value 0 d) /\
    wf_cidr c /\
    (forall i, cidr_prefix_len c <= i < 8 * Z.of_nat (addr_len (cidr_family c)) ->
               addr_bit (cidr_prefix c) i = false) /\
    (forall f addr, wf_addr f addr ->
       cidr_contains c f addr = true <->
       cidr_family c = f /\ same_prefix (cidr_prefix_len c) a addr).

Lemma cidr_build_spec txt len c :
  cidr_build txt len = Some c ->
  exists a,
    (if bool_decide (cidr_family c = AF_INET) then inet_pton4 txt = Some a
     else inet_pton4 txt = None /\ inet_pton6 txt = Some a) /\
    cidr_prefix_len c =
      (if 0 <=? len then len else 8 * Z.of_nat (addr_len (cidr_family c))) /\
    wf_cidr c /\
    (forall i, cidr_prefix_len c <= i < 8 * Z.of_nat (addr_len (cidr_family c)) ->
               addr_bit (cidr_prefix c) i = false) /\
    (forall f addr, wf_addr f addr ->
       cidr_contains c f addr = true <->
       cidr_family c = f /\ same_prefix (cidr_prefix_len c) a addr).
Proof.
  unfold cidr_build. intros Hc.
  destruct (inet_pton4 txt) as [a4|] eqn:E4; [|destruct (inet_pton6 txt) as [a6|] eqn:E6; [|done]].
  - destruct (inet_pton4_bytes _ _ E4) as [Hl Hb].
    set (n := if 0 <=? len then len else 32) in *.
    destruct ((n <? 0) || (32 <? n)) eqn:En; [done|].
    apply (inj Some) in Hc as <-.
    cbn [cidr_family cidr_prefix cidr_prefix_len addr_len].
    set (p := a4 ++ replicate 12 0).
    assert (Hp : bytes_ok p).
    { apply bytes_ok_app. split; [done|]. repeat constructor; unfold byte_ok; lia. }
    assert (Hpl : length p = 16%nat) by (unfold p; rewrite length_app, length_replicate; lia).
    assert (Hwf : wf_cidr (mkCidr AF_INET (mask_host_bits 0 4 n p) n)).
    { unfold wf_cidr; cbn [cidr_prefix cidr_prefix_len cidr_family addr_len]; split_all; [by rewrite mask_host_bits_length | by apply mask_host_bits_bytes | lia | lia]. }
    exists a4. split; [done|]. split; [done|]. split; [done|]. split.
    + intros i Hi. rewrite mask_host_bits_bit by (done || lia). by replace (i <? n) with false by lia.
    + intros f addr Haddr. rewrite cidr_contains_spec by done.
      cbn [cidr_family cidr_prefix cidr_prefix_len].
      rewrite masked_same_prefix by (done || lia).
      split; intros [Hf Hs]; (split; [done|]); intros i Hi; rewrite <- Hs by done;
        unfold addr_bit, p; by rewrite app_nth1 by lia.
  - destruct (inet_pton6_bytes _ _ E6) as [Hl Hb].
    set (n := if 0 <=? len then len else 128) in *.
    destruct ((n <? 0) || (128 <? n)) eqn:En; [done|].
    apply (inj Some) in Hc as <-.
    cbn [cidr_family cidr_prefix cidr_prefix_len addr_len].
    assert (Hwf : wf_cidr (mkCidr AF_INET6 (mask_host_bits 0 16 n a6) n)).
    { unfold wf_cidr; cbn [cidr_prefix cidr_prefix_len cidr_family addr_len]; split_all; [by rewrite mask_host_bits_length | by apply mask_host_bits_bytes | lia | lia]. }
    exists a6. split; [done|]. split; [done|]. split; [done|]. split.
    + intros i Hi. rewrite mask_host_bits_bit by (done || lia). by replace (i <? n) with false by lia.
    + intros f addr Haddr. rewrite cidr_contains_spec by done.
      cbn [cidr_family cidr_prefix cidr_prefix_len].
      by rewrite masked_same_prefix by (done || lia).
Qed.

Lemma strchr_split s c n :
  strchr s c = Some n -> s = take n s ++ c :: drop (S n) s.
Proof.
  revert n. induction s as [|x s IH]; intros n; simpl; [done|].
  case_if.
  - intros [= <-]. simpl. f_equal. lia.
  - destruct (strchr s c) as [m|]; [|done]. intros [= <-]. simpl.
    f_equal. by apply IH.
Qed.

(** [cidr_parse] accepts only a bare address or an address with a slash and
    a non-empty, in-range decimal prefix length ("10.0.0.0/" and "1.2.3.4/xyz"
    are refused, never widened), clears the host bits, and the rule it returns
    contains exactly the addresses that agree with the written one on the first
    [prefix_len] bits. *)
Theorem cidr_parse_correct (s : cstring) (c : Cidr) :
  cidr_parse (Some s) = Some c -> parsed_as s c.
Proof.
  unfold cidr_parse, parsed_as. destruct (strchr s "/"%char) as [n|] eqn:Es.
  - destruct (_ <=? _) eqn:El; [done|].
    destruct (drop (S n) s) as [|d0 ds] eqn:Ed; [done|].
    destruct (forallb is_digit (d0 :: ds)) eqn:Edig; cbn [negb]; [|done].
    destruct ((strtol_digits _ <? 0) || _) eqn:Er; [done|].
    intros Hc. destruct (cidr_build_spec _ _ _ Hc) as [a [Ha [Hlen Hrest]]].
    exists (take n s), a. split; [done|]. split; [|done]. right.
    exists (d0 :: ds). split_all; try done.
    + rewrite <- Ed. by apply strchr_split.
    + rewrite Hlen. replace (0 <=? strtol_digits (d0 :: ds)) with true by lia.
      unfold strtol_digits, LONG_MAX in *. lia.
  - destruct (_ <=? _) eqn:El; [done|].
    intros Hc. destruct (cidr_build_spec _ _ _ Hc) as [a [Ha [Hlen Hrest]]].
    exists s, a. split; [done|]. split; [|done]. by left.
Qed.

End CidrParse.

Definition cidr_demo : Cidr :=
  mkCidr AF_INET [10; 1; 160; 0; 0; 0; 0; 0; 0; 0; 0; 0; 0; 0; 0; 0] 20.

Lemma cidr_parse_correct_witness :
  @cidr_parse demo_pton (Some (bs "10.1.170.3/20")) = Some cidr_demo /\
  @parsed_as demo_pton (bs "10.1.170.3/20") cidr_demo.
Proof.
  split; [vm_compute; reflexivity|].
  apply (@cidr_parse_correct demo_pton demo_pton_laws). vm_compute. reflexivity.
Defined.

(** ** Private addresses *)

(** The value of the four bytes is below 2^32 and its fields are the bytes. *)
Lemma ntohl_value b :
  length b = 4%nat -> bytes_ok b ->
  ntohl b = nth 0 b 0 * 2 ^ 24 + nth 1 b 0 * 2 ^ 16 + nth 2 b 0 * 2 ^ 8 + nth 3 b 0.
Proof.
  intros Hl Hb.
  pose proof (fun n => nth_byte_ok b n Hb) as H. unfold byte_ok in H.
  pose proof (H 0%nat). pose proof (H 1%nat). pose proof (H 2%nat). pose proof (H 3%nat).
  unfold ntohl.
  rewrite (lor_shiftl_add 8), (lor_shiftl_add 16), (lor_shiftl_add 24) by lia. lia.
Qed.

(** [h & mask == base] for a mask of the top [n] bits is a range test. *)
Lemma land_high_eq n h base :
  0 <= n <= 32 -> 0 <= h < 2 ^ 32 -> base mod 2 ^ n = 0 ->
  (Z.land h (2 ^ 32 - 2 ^ n) =? base) = in_range base (base + 2 ^ n - 1) h.
Proof.
  intros Hn Hh Hbase.
  assert (E : Z.land h (2 ^ 32 - 2 ^ n) = h / 2 ^ n * 2 ^ n).
  { rewrite <- Z.shiftl_mul_pow2, <- Z.shiftr_div_pow2 by lia.
    apply Z.bits_inj'. intros k Hk.
    replace (2 ^ 32 - 2 ^ n) with (Z.shiftl (Z.ones (32 - n)) n).
    2:{ rewrite Z.shiftl_mul_pow2, Z.ones_equiv by lia. unfold Z.pred.
        rewrite Z.mul_add_distr_r, <- Z.pow_add_r by lia.
        replace (32 - n + n) with 32 by lia. lia. }
    rewrite Z.land_spec, !Z.shiftl_spec by done.
    destruct (decide (k < n)).
    - by rewrite !(Z.testbit_neg_r _ (k - n)), andb_false_r by lia.
    - rewrite Z.shiftr_spec by lia. replace (k - n + n) with k by lia.
      destruct (decide (k < 32)).
      + rewrite Z.ones_spec_low by lia. by rewrite andb_true_r.
      + rewrite Z.ones_spec_high, andb_false_r by lia. symmetry.
        rewrite <- (Z.mod_small h (2 ^ 32)) by done. apply Z.mod_pow2_bits_high. lia. }
  rewrite E. clear E. unfold in_range.
  assert (HP : 0 < 2 ^ n) by (apply Z.pow_pos_nonneg; lia).
  set (P := 2 ^ n) in *. clearbody P.
  apply Z.mod_divide in Hbase as [k ->]; [|lia].
  destruct (Z.mod_pos_bound h P HP) as [Hr0 Hr1].
  pose proof (Z.div_mod h P ltac:(lia)) as Hd.
  set (q := h / P) in *. set (r := h mod P) in *. clearbody q r. subst h.
  destruct (Z.lt_trichotomy q k) as [Hq | [-> | Hq]].
  - assert (q * P + P <= k * P) by nia. lia.
  - lia.
  - assert (k * P + P <= q * P) by nia. lia.
Qed.

(** The networks the source calls private, as ranges of the 32-bit value. *)
Definition private_ranges : list (Z * Z) :=
  [(0x7F000000, 0x7FFFFFFF);    (* 127.0.0.0/8 *)
   (0x0A000000, 0x0AFFFFFF);    (* 10.0.0.0/8 *)
   (0x00000000, 0x00FFFFFF);    (* 0.0.0.0/8 *)
   (0xAC100000, 0xAC1FFFFF);    (* 172.16.0.0/12 *)
   (0xC0A80000, 0xC0A8FFFF);    (* 192.168.0.0/16 *)
   (0xA9FE0000, 0xA9FEFFFF);    (* 169.254.0.0/16 *)
   (0x64400000, 0x647FFFFF)].   (* 100.64.0.0/10 *)

Definition in_private_range (h : Z) : bool :=
  existsb (fun r => in_range r.1 r.2 h) private_ranges.

Lemma private_v4_ranges h : 0 <= h < 2 ^ 32 -> private_v4 h = in_private_range h.
Proof.
  intros Hh. unfold private_v4.
  change 0xFFF00000 with (2 ^ 32 - 2 ^ 20). change 0xFFC00000 with (2 ^ 32 - 2 ^ 22).
  rewrite (land_high_eq 20), (land_high_eq 22) by (done || lia).
  rewrite !Z.shiftr_div_pow2 by lia.
  change (Z.lor (Z.shiftl 192 8) 168) with 49320.
  change (Z.lor (Z.shiftl 169 8) 254) with 43518.
  unfold in_private_range, in_range; simpl. lia.
Qed.

(** [http_is_private_ip] on IPv4 text is membership in the seven private
    networks, and an IPv4-mapped IPv6 spelling of an address gets the verdict
    of the embedded IPv4 address, so a private address cannot be disguised as
    mapped. *)
Theorem http_is_private_ip_correct `{InetPtonLaws} (ip : cstring) (b : list Z) :
  (inet_pton4 ip = Some b ->
     http_is_private_ip ip = in_private_range (ntohl b)) /\
  (inet_pton4 ip = None -> inet_pton6 ip = Some (mapped_prefix ++ b) ->
     http_is_private_ip ip = in_private_range (ntohl b)).
Proof.
  assert (Hn : forall b, length b = 4%nat -> bytes_ok b -> 0 <= ntohl b < 2 ^ 32).
  { intros b' Hl Hb. rewrite ntohl_value by done.
    pose proof (fun n => nth_byte_ok b' n Hb) as Hk. unfold byte_ok in Hk.
    pose proof (Hk 0%nat). pose proof (Hk 1%nat). pose proof (Hk 2%nat).
    pose proof (Hk 3%nat). lia. }
  unfold http_is_private_ip. split.
  - intros E. cbn [is_private_loop]. rewrite E.
    destruct (inet_pton4_bytes _ _ E) as [Hl Hb]. by apply private_v4_ranges, Hn.
  - intros E4 E6. cbn [is_private_loop]. rewrite E4, E6.
    destruct (inet_pton6_bytes _ _ E6) as [Hl Hb].
    apply bytes_ok_app in Hb as [_ Hb].
    assert (Hl4 : length b = 4%nat) by (rewrite length_app in Hl; simpl in Hl; lia).
    assert (Hm : private_v6 (mapped_prefix ++ b) = None).
    { unfold private_v6. cbn [mapped_prefix app nth].
      repeat case_bool_decide; try done. }
    rewrite Hm. change (drop 12 (mapped_prefix ++ b)) with b.
    rewrite inet_pton4_ntop by done. by apply private_v4_ranges, Hn.
Qed.

Lemma http_is_private_ip_correct_witness :
  @http_is_private_ip demo_pton (bs "172.31.0.9") = true /\
  @http_is_private_ip demo_pton (bs "::ffff:169.254.169.254") = true.
Proof.
  pose proof (@http_is_private_ip_correct demo_pton demo_pton_laws) as H.
  split.
  - rewrite (proj1 (H _ [172; 31; 0; 9])) by (vm_compute; reflexivity).
    vm_compute. reflexivity.
  - rewrite (proj2 (H _ [169; 254; 169; 254])) by (vm_compute; reflexivity).
    vm_compute. reflexivity.
Defined.

(** ** URL host normalisation undoes percent-encoding *)

(** [encodes s e]: [e] spells [s] with some of its characters percent-encoded,
    in either case of hexadecimal digits. *)
Inductive encodes : cstring -> cstring -> Prop :=
  | enc_nil : encodes [] []
  | enc_plain c s e : c <> "%"%char -> encodes s e -> encodes (c :: s) (c :: e)
  | enc_pct c h l s e :
      0 <= hexval h -> 0 <= hexval l -> c = hexval h * 16 + hexval l ->
      encodes s e -> encodes (c :: s) ("%"%char :: h :: l :: e).

Lemma percent_decode_encodes s e : encodes s e -> percent_decode e = s.
Proof.
  induction 1 as [|c s e Hc _ IH|c h l s e Hh Hl -> _ IH]; cbn [percent_decode]; [done| |].
  - destruct (c =? _) eqn:E; [lia|]. by rewrite IH.
  - rewrite Z.eqb_refl. replace ((0 <=? hexval h) && (0 <=? hexval l)) with true by lia. by rewrite IH.
Qed.

Lemma encodes_no_pct s e : encodes s e -> strchr e "%"%char = None -> e = s.
Proof.
  induction 1 as [|c s e Hc _ IH|]; simpl; [done| |done].
  destruct (c =? _) eqn:E; [lia|].
  destruct (strchr e _); [done|]. intros _. by rewrite IH.
Qed.

Lemma decode_pass_encodes n s e :
  cstr s -> encodes s e -> exists e', (e' = s \/ e' = e /\ e = s) /\
    decode_passes (S n) e = match strchr e "%"%char with
                            | None => s | Some _ => decode_passes n s end.
Proof.
  intros Hs He. exists s. split; [by left|]. cbn [decode_passes].
  destruct (strchr e "%"%char) eqn:E.
  - by rewrite (percent_decode_encodes _ _ He), c_str_id.
  - by apply encodes_no_pct.
Qed.

Lemma strip_loop_ascii fuel pos s :
  (length s <= fuel)%nat -> Forall (fun c => 0 <= c < 128) s -> strip_loop fuel pos s = s.
Proof.
  revert pos s. induction fuel as [|fuel IH]; intros pos [|c s] Hf Hs;
    simpl in Hf; try done; try lia.
  apply Forall_cons_iff in Hs as [Hc Hs]. cbn [strip_loop].
  assert (Hd : decode_utf8_strict (c :: s) = Some (1%nat, c)).
  { unfold decode_utf8_strict, lead_class. by replace (c <? 0x80) with true by lia. }
  assert (Hi : is_invisible c = false) by (unfold is_invisible; bool_lia).
  rewrite Hd, Hi. simpl. rewrite drop_0. by rewrite IH by (done || lia).
Qed.

(** [url_host_normalize] recovers a host name from any percent-encoded
    spelling of it, and from any percent-encoded spelling of such a spelling:
    the two decoding passes undo single and double encoding, and nothing else
    of the name changes. *)
Theorem url_host_normalize_decodes (h e1 e2 : cstring) (cap : nat) :
  host_run h -> cstr e1 -> encodes h e1 -> encodes e1 e2 -> (length h < cap)%nat ->
  url_host_normalize (Some e1) cap = Some h /\
  url_host_normalize (Some e2) cap = Some h.
Proof.
  intros Hh H1 E1 E2 Hcap.
  assert (Hch : cstr h) by by apply host_chars_cstr.
  assert (Hnp : strchr h "%"%char = None).
  { clear -Hh. induction h as [|c h IH]; [done|].
    apply Forall_cons_iff in Hh as [Hc Hh]. simpl.
    destruct (c =? _) eqn:E; [apply Z.eqb_eq in E as ->; done|]. by rewrite IH. }
  assert (Hlast : forall n, decode_passes n h = h) by (intros [|n]; simpl; by rewrite ?Hnp).
  assert (Hp1 : decode_passes 2 e1 = h).
  { destruct (decode_pass_encodes 1 h e1 Hch E1) as [_ [_ ->]].
    destruct (strchr e1 _); [apply Hlast | done]. }
  assert (Hp2 : decode_passes 2 e2 = h).
  { destruct (decode_pass_encodes 1 e1 e2 H1 E2) as [_ [_ ->]].
    destruct (strchr e2 _) eqn:E.
    - destruct (decode_pass_encodes 0 h e1 Hch E1) as [_ [_ ->]].
      by destruct (strchr e1 _).
    - rewrite <- (encodes_no_pct _ _ E2 E) in E1 |- *. by apply encodes_no_pct. }
  assert (Ha : Forall (fun c => 0 <= c < 128) h).
  { revert Hh. apply List.Forall_impl. intros c. unfold is_host_char, in_range. lia. }
  unfold url_host_normalize, unicode_strip_invisible. rewrite Hp1, Hp2.
  replace (cap =? 0)%nat with false by lia.
  rewrite strip_loop_ascii, c_str_id, take_ge by (done || lia). done.
Qed.

(** Spell out a closed [encodes] goal. *)
Ltac solve_encodes :=
  vm_compute;
  repeat first
    [ apply enc_nil
    | apply enc_plain; [discriminate |]
    | apply enc_pct; [vm_compute; discriminate .. | reflexivity |] ].

Lemma url_host_normalize_decodes_witness :
  url_host_normalize (Some (bs "ev%69l.c%6Fm")) 300 = Some (bs "evil.com") /\
  url_host_normalize (Some (bs "ev%2569l.c%256Fm")) 300 = Some (bs "evil.com").
Proof.
  apply (url_host_normalize_decodes (bs "evil.com") (bs "ev%69l.c%6Fm")).
  - vm_compute. repeat constructor.
  - vm_compute. repeat constructor; done.
  - solve_encodes.
  - solve_encodes.
  - vm_compute. lia.
Defined.
