(* ===== verification/JsonEscape.v ===== *)
(** * JSON string escaping: src/json_escape.c

    Both functions fill a caller's buffer of capacity [cap] and return the
    number of bytes written, which is the length of the list returned here. *)
From S2P Require Import Prelude CString Unicode.

Definition parse_hex_digit (c : Z) : Z :=
  if in_range "0"%char "9"%char c then c - "0"%char
  else if in_range "a"%char "f"%char c then c - "a"%char + 10
  else if in_range "A"%char "F"%char c then c - "A"%char + 10
  else -1.
Arguments parse_hex_digit : simpl never.

Abbreviation DQUOTE := 34.
Abbreviation BACKSLASH := 92.

(** ** json_escape *)
Definition hex_digits : list Z := bs "0123456789abcdef".
Definition hex_digit (n : Z) : Z := nth (Z.to_nat n) hex_digits 0.

Definition escape_byte (c : Z) : list Z :=
  if c =? DQUOTE then [BACKSLASH; DQUOTE]
  else if c =? BACKSLASH then [BACKSLASH; BACKSLASH]
  else if c =? 10 then [BACKSLASH; "n"%char]
  else if c =? 13 then [BACKSLASH; "r"%char]
  else if c =? 9 then [BACKSLASH; "t"%char]
  else if c <? 0x20 then
    [BACKSLASH; "u"%char; "0"%char; "0"%char;
     hex_digit (Z.shiftr c 4); hex_digit (Z.land c 0xf)]
  else [c].

Fixpoint escape_loop (src : list Z) (w cap : Z) : list Z :=
  match src with
  | [] => []
  | c :: src' =>
      if w + 6 <? cap
      then escape_byte c ++ escape_loop src' (w + zlen (escape_byte c)) cap
      else []
  end.

(** The bytes before the terminator, which is written at index [zlen]. *)
Definition json_escape (cap : Z) (src : list Z) : list Z := escape_loop src 0 cap.

(** ** json_unescape *)

(** [j] hexadecimal digits at the head of [s], folded into [cp]. *)
Fixpoint parse_hex (j : nat) (cp : Z) (s : list Z) : option Z :=
  match j with
  | O => Some cp
  | S j' =>
      match s with
      | [] => None
      | c :: s' =>
          let v := parse_hex_digit c in
          if v <? 0 then None else parse_hex j' (Z.lor (Z.shiftl cp 4) v) s'
      end
  end.

Arguments parse_hex : simpl never.

(** The code point of a [\u] escape: [cp] is the value of its four digits and
    [s] the text after them; the result also says how much of [s] a low
    surrogate consumed. *)
Definition combine_surrogates (cp : Z) (s : list Z) : Z * nat :=
  if in_range 0xD800 0xDBFF cp then
    match s with
    | 92 :: 117 :: s2 =>
        if (length s2 <? 4)%nat then (0xFFFD, 0%nat)
        else match parse_hex 4 0 s2 with
             | Some lo =>
                 if in_range 0xDC00 0xDFFF lo
                 then (0x10000 + Z.shiftl (cp - 0xD800) 10 + (lo - 0xDC00), 6%nat)
                 else (0xFFFD, 0%nat)
             | None => (0xFFFD, 0%nat)
             end
    | _ => (0xFFFD, 0%nat)
    end
  else if in_range 0xDC00 0xDFFF cp then (0xFFFD, 0%nat)
  else (cp, 0%nat).

(** The UTF-8 bytes of a code point, written only where they fit. *)
Definition put_utf8 (cp w cap : Z) : list Z :=
  if cp <? 0x80 then [cp]
  else if (cp <? 0x800) && (w + 1 <? cap) then
    [Z.lor 0xC0 (Z.shiftr cp 6); Z.lor 0x80 (Z.land cp 0x3F)]
  else if (cp <? 0x10000) && (w + 2 <? cap) then
    [Z.lor 0xE0 (Z.shiftr cp 12);
     Z.lor 0x80 (Z.land (Z.shiftr cp 6) 0x3F);
     Z.lor 0x80 (Z.land cp 0x3F)]
  else if (0x10000 <=? cp) && (w + 3 <? cap) then
    [Z.lor 0xF0 (Z.shiftr cp 18);
     Z.lor 0x80 (Z.land (Z.shiftr cp 12) 0x3F);
     Z.lor 0x80 (Z.land (Z.shiftr cp 6) 0x3F);
     Z.lor 0x80 (Z.land cp 0x3F)]
  else [].
Arguments put_utf8 : simpl never.

(** One escape: [s] is the text after the backslash (not empty).  Returns the
    bytes written and the text that remains. *)
Definition unescape_one (s : list Z) (w cap : Z) : list Z * list Z :=
  match s with
  | [] => ([], [])
  | e :: s1 =>
      if e =? "n"%char then ([10], s1)
      else if e =? "r"%char then ([13], s1)
      else if e =? "t"%char then ([9], s1)
      else if e =? DQUOTE then ([DQUOTE], s1)
      else if e =? BACKSLASH then ([BACKSLASH], s1)
      else if e =? "/"%char then (["/"%char], s1)
      else if e =? "u"%char then
        if (length s1 <? 4)%nat then (["u"%char], s1)
        else match parse_hex 4 0 s1 with
             | None => (["u"%char], s1)
             | Some cp0 =>
                 let s2 := drop 4 s1 in
                 let (cp, used) := combine_surrogates cp0 s2 in
                 (put_utf8 cp w cap, drop used s2)
             end
      else ([e], s1)
  end.

Fixpoint unescape_loop (fuel : nat) (src : list Z) (w cap : Z) : list Z :=
  match fuel with
  | O => []
  | S fuel' =>
      match src with
      | [] => []
      | c :: s =>
          if w <? cap then
            if (c =? BACKSLASH) && (0 <? zlen s) then
              let (out, rest) := unescape_one s w cap in
              out ++ unescape_loop fuel' rest (w + zlen out) cap
            else c :: unescape_loop fuel' s (w + 1) cap
          else []
      end
  end.

Definition json_unescape (cap : Z) (src : list Z) : list Z :=
  unescape_loop (length src) src 0 cap.

(** ** Specifications *)

(** A JSON string body: plain bytes other than the quote, the backslash and the
    controls, and the two-character and [\u] escapes. *)
Inductive json_body : list Z -> Prop :=
  | jb_nil : json_body []
  | jb_plain c s :
      0x20 <= c -> c <> DQUOTE -> c <> BACKSLASH -> json_body s -> json_body (c :: s)
  | jb_short e s :
      e ∈ [DQUOTE; BACKSLASH; "/"%char; "n"%char; "r"%char; "t"%char] ->
      json_body s -> json_body (BACKSLASH :: e :: s)
  | jb_hex h s cp :
      length h = 4%nat -> parse_hex 4 0 h = Some cp -> json_body s ->
      json_body (BACKSLASH :: "u"%char :: h ++ s).

Definition escape_all (s : list Z) : list Z := concat (map escape_byte s).

Definition high_surrogate (cp : Z) : Z := 0xD800 + (cp - 0x10000) / 0x400.
Definition low_surrogate (cp : Z) : Z := 0xDC00 + (cp - 0x10000) mod 0x400.

(** The [\uXXXX] spelling of a 16-bit unit. *)
Definition u_escape (u : Z) : list Z :=
  [BACKSLASH; "u"%char; hex_digit (u / 0x1000); hex_digit (u / 0x100 mod 0x10);
   hex_digit (u / 0x10 mod 0x10); hex_digit (u mod 0x10)].

Definition u_text (cp : Z) : list Z :=
  if cp <? 0x10000 then u_escape cp
  else u_escape (high_surrogate cp) ++ u_escape (low_surrogate cp).

(** ** json_escape *)

Lemma escape_byte_length c : 1 <= zlen (escape_byte c) <= 6.
Proof. unfold escape_byte. repeat case_if; unfold zlen; simpl; lia. Qed.

Lemma escape_loop_prefix src w cap :
  exists k, escape_loop src w cap = escape_all (take k src) /\
    (w + zlen (escape_all (take k src)) < cap \/ k = 0%nat) /\
    (w + 6 * zlen src < cap -> take k src = src).
Proof.
  revert w. induction src as [|c src IH]; intros w; simpl.
  - exists 0%nat. split_all; [done | by right | done].
  - pose proof (escape_byte_length c) as Hl. case_if.
    + destruct (IH (w + zlen (escape_byte c))) as [k [He [Hk Hall]]].
      exists (S k). unfold escape_all in *. simpl. rewrite zlen_app. split_all.
      * by rewrite He.
      * left. destruct Hk as [Hk | ->]; [lia|]. rewrite take_0. simpl.
        unfold zlen at 2; simpl. lia.
      * rewrite zlen_cons. intros Hc. rewrite Hall by lia. done.
    + exists 0%nat. split_all; [done | by right|]. rewrite zlen_cons.
      pose proof (zlen_nonneg src). lia.
Qed.

Lemma hex_digit_parse n : 0 <= n < 16 -> parse_hex_digit (hex_digit n) = n.
Proof.
  intros Hn. assert (H : forall k, (k < 16)%nat ->
    parse_hex_digit (nth k hex_digits 0) = Z.of_nat k).
  { intros k Hk. do 16 (destruct k as [|k]; [done|]). lia. }
  unfold hex_digit. rewrite H by lia. lia.
Qed.

Lemma byte_nibbles c : byte_ok c -> Z.shiftr c 4 = c / 16 /\ Z.land c 0xf = c mod 16.
Proof.
  intros Hc. change 0xf with (Z.ones 4). rewrite Z.shiftr_div_pow2, Z.land_ones by lia. done.
Qed.

Lemma parse_hex_four a b c d rest :
  0 <= a < 16 -> 0 <= b < 16 -> 0 <= c < 16 -> 0 <= d < 16 ->
  parse_hex 4 0 (hex_digit a :: hex_digit b :: hex_digit c :: hex_digit d :: rest) =
  Some (a * 0x1000 + b * 0x100 + c * 0x10 + d).
Proof.
  intros Ha Hb Hc Hd. unfold parse_hex. rewrite !hex_digit_parse by done.
  replace (a <? 0) with false by lia. replace (b <? 0) with false by lia.
  replace (c <? 0) with false by lia. replace (d <? 0) with false by lia.
  rewrite (lor_shiftl_add 4 a), (lor_shiftl_add 4 b), (lor_shiftl_add 4 c),
    (lor_shiftl_add 4 d) by lia.
  f_equal. lia.
Qed.

Lemma escape_all_body s : bytes_ok s -> json_body (escape_all s).
Proof.
  induction s as [|c s IH]; intros Hs; [constructor|].
  apply bytes_ok_cons in Hs as [Hc Hs]. specialize (IH Hs).
  unfold escape_all in *. simpl.
  destruct (byte_nibbles c Hc) as [E1 E2]. unfold byte_ok in Hc.
  unfold escape_byte. rewrite E1, E2.
  repeat case_if; simpl; try (apply jb_short; [by repeat (left || right) | done]).
  - refine (jb_hex [_; _; _; _] _ _ eq_refl _ IH).
    exact (parse_hex_four 0 0 (c / 16) (c mod 16) []
             ltac:(lia) ltac:(lia) ltac:(lia) ltac:(lia)).
  - apply jb_plain; [lia.. | done].
Qed.

(** ** json_unescape *)

Lemma put_utf8_length cp w cap : w < cap -> w + zlen (put_utf8 cp w cap) <= cap.
Proof.
  intros Hw. unfold put_utf8. repeat case_if; unfold zlen; simpl; lia.
Qed.

Lemma unescape_one_length s w cap :
  w < cap -> w + zlen (unescape_one s w cap).1 <= cap.
Proof.
  intros Hw. unfold unescape_one. destruct s as [|e s1]; [unfold zlen; simpl; lia|].
  repeat case_if; simpl; try (unfold zlen; simpl; lia).
  destruct (parse_hex 4 0 s1) as [cp0|]; [|unfold zlen; simpl; lia].
  destruct (combine_surrogates _ _). by apply put_utf8_length.
Qed.

Lemma unescape_loop_bound fuel src w cap :
  w <= cap -> w + zlen (unescape_loop fuel src w cap) <= cap.
Proof.
  revert src w. induction fuel as [|fuel IH]; intros src w Hw; [unfold zlen; simpl; lia|].
  destruct src as [|c s]; [unfold zlen; simpl; lia|]. cbn [unescape_loop].
  case_if; [|unfold zlen; simpl; lia]. case_if.
  - pose proof (unescape_one_length s w cap ltac:(lia)) as H.
    destruct (unescape_one s w cap) as [out rest]. cbn [fst] in H.
    rewrite zlen_app. specialize (IH rest (w + zlen out) ltac:(lia)). lia.
  - rewrite zlen_cons. specialize (IH s (w + 1) ltac:(lia)). lia.
Qed.

(** Reading back one escaped byte. *)
Lemma unescape_loop_escape fuel c rest w cap :
  byte_ok c -> w < cap -> (length (escape_byte c) <= fuel)%nat ->
  exists fuel', (fuel - length (escape_byte c) <= fuel')%nat /\
  unescape_loop fuel (escape_byte c ++ rest) w cap =
  c :: unescape_loop fuel' rest (w + 1) cap.
Proof.
  intros Hc Hw Hf. destruct (byte_nibbles c Hc) as [E1 E2]. unfold byte_ok in Hc.
  destruct fuel as [|fuel]; [pose proof (escape_byte_length c); unfold zlen in *; lia|].
  exists fuel. split; [pose proof (escape_byte_length c); unfold zlen in *; lia|].
  unfold escape_byte. rewrite E1, E2.
  assert (Hwc : (w <? cap) = true) by lia.
  repeat case_if; cbn [app unescape_loop]; rewrite Hwc;
    try (replace (0 <? zlen _) with true
           by (rewrite zlen_cons; pose proof (zlen_nonneg rest); lia);
         simpl; f_equal; lia).
  - replace (0 <? zlen _) with true
      by (rewrite zlen_cons; match goal with |- context [zlen ?l] =>
            pose proof (zlen_nonneg l) end; lia).
    cbn [Z.eqb Pos.eqb andb]. unfold unescape_one.
    cbn [Z.eqb Pos.eqb length Nat.ltb Nat.leb].
    change ("0"%char) with (hex_digit 0).
    rewrite parse_hex_four by lia.
    unfold combine_surrogates.
    replace (in_range 0xD800 0xDBFF _) with false by (unfold in_range; lia).
    replace (in_range 0xDC00 0xDFFF _) with false by (unfold in_range; lia).
    unfold put_utf8. replace (_ <? 0x80) with true by lia.
    simpl. rewrite drop_0. f_equal; lia || done.
  - replace (c =? BACKSLASH) with false by lia. simpl. done.
Qed.

Lemma lead_bytes x :
  byte_ok x ->
  (x < 0x20 -> lead_class (Z.lor 0xC0 x) = Some (2%nat, x)) /\
  (x < 0x10 -> lead_class (Z.lor 0xE0 x) = Some (3%nat, x)) /\
  (x < 0x08 -> lead_class (Z.lor 0xF0 x) = Some (4%nat, x)) /\
  (x < 0x40 -> Z.land (Z.lor 0x80 x) 0xC0 = 0x80 /\ Z.land (Z.lor 0x80 x) 0x3F = x).
Proof.
  intros Hx.
  pose (P x := (if x <? 0x20 then bool_decide (lead_class (Z.lor 0xC0 x) = Some (2%nat, x)) else true)
    && (if x <? 0x10 then bool_decide (lead_class (Z.lor 0xE0 x) = Some (3%nat, x)) else true)
    && (if x <? 0x08 then bool_decide (lead_class (Z.lor 0xF0 x) = Some (4%nat, x)) else true)
    && (if x <? 0x40 then (Z.land (Z.lor 0x80 x) 0xC0 =? 0x80)
                          && (Z.land (Z.lor 0x80 x) 0x3F =? x) else true)).
  assert (HP : P x = true) by (apply byte_forall; [by vm_compute | done]).
  unfold P in HP. rewrite !andb_true_iff in HP. destruct HP as [[[H1 H2] H3] H4].
  split_all; intros Hlt; [rewrite (proj2 (Z.ltb_lt _ _) Hlt) in H1
    | rewrite (proj2 (Z.ltb_lt _ _) Hlt) in H2 | rewrite (proj2 (Z.ltb_lt _ _) Hlt) in H3
    | rewrite (proj2 (Z.ltb_lt _ _) Hlt) in H4]; [by apply bool_decide_eq_true in H1
    | by apply bool_decide_eq_true in H2 | by apply bool_decide_eq_true in H3 | lia].
Qed.

Lemma decode_conts_put k v x s :
  0 <= x < 0x40 ->
  decode_conts (S k) v (Z.lor 0x80 x :: s) = decode_conts k (v * 0x40 + x) s.
Proof.
  intros Hx. destruct (lead_bytes x ltac:(unfold byte_ok; lia)) as (_ & _ & _ & H).
  destruct (H ltac:(lia)) as [E1 E2]. simpl. rewrite E1, E2. simpl.
  by rewrite (lor_shiftl_add 6) by lia.
Qed.

(** What [put_utf8] writes for a Unicode code point decodes to it. *)
Lemma put_utf8_decodes cp w cap :
  0 <= cp < 0x110000 -> w + 3 < cap ->
  decode_utf8_strict (put_utf8 cp w cap) = Some (length (put_utf8 cp w cap), cp).
Proof.
  intros Hcp Hw. unfold put_utf8.
  rewrite !Z.shiftr_div_pow2 by lia. change 0x3F with (Z.ones 6).
  rewrite !Z.land_ones by lia.
  assert (L : forall x, 0 <= x < 0x20 -> byte_ok x) by (unfold byte_ok; lia).
  repeat case_if; try lia; unfold decode_utf8_strict.
  - unfold lead_class. rewrite Heqb. done.
  - rewrite (proj1 (lead_bytes (cp / 2 ^ 6) ltac:(apply L; lia))) by lia.
    cbn [length Nat.ltb Nat.leb Nat.sub].
    rewrite !decode_conts_put by lia. simpl. do 2 f_equal. lia.
  - rewrite (proj1 (proj2 (lead_bytes (cp / 2 ^ 12) ltac:(apply L; lia)))) by lia.
    cbn [length Nat.ltb Nat.leb Nat.sub].
    rewrite !decode_conts_put by lia. simpl. do 2 f_equal. lia.
  - rewrite (proj1 (proj2 (proj2 (lead_bytes (cp / 2 ^ 18) ltac:(apply L; lia))))) by lia.
    cbn [length Nat.ltb Nat.leb Nat.sub].
    rewrite !decode_conts_put by lia. simpl. do 2 f_equal. lia.
Qed.

(** The fuel is not a bound on the result: any more gives the same. *)
Lemma unescape_one_rest s w cap :
  (length (unescape_one s w cap).2 <= length s)%nat.
Proof.
  unfold unescape_one. destruct s as [|e s1]; [done|]. repeat case_if; simpl; try lia.
  destruct (parse_hex 4 0 s1) as [cp0|]; simpl; [|lia].
  destruct (combine_surrogates _ _). simpl. rewrite length_skipn, length_skipn. lia.
Qed.

Lemma unescape_loop_fuel f1 f2 src w cap :
  (length src <= f1)%nat -> (length src <= f2)%nat ->
  unescape_loop f1 src w cap = unescape_loop f2 src w cap.
Proof.
  revert f2 src w. induction f1 as [|f1 IH]; intros f2 src w H1 H2;
    destruct src as [|c s]; simpl in H1; try lia; [by destruct f2..|].
  destruct f2 as [|f2]; simpl in H2; [lia|]. cbn [unescape_loop].
  case_if; [|done]. case_if.
  - pose proof (unescape_one_rest s w cap) as Hr. destruct (unescape_one s w cap) as [o r].
    simpl in Hr. f_equal. apply IH; lia.
  - f_equal. apply IH; lia.
Qed.

Lemma unescape_escape_all s fuel w cap :
  bytes_ok s -> (length (escape_all s) <= fuel)%nat ->
  unescape_loop fuel (escape_all s) w cap = take (Z.to_nat (cap - w)) s.
Proof.
  revert fuel w. induction s as [|c s IH]; intros fuel w Hs Hf.
  - destruct fuel; by rewrite take_nil.
  - apply bytes_ok_cons in Hs as [Hc Hs].
    unfold escape_all in Hf. simpl in Hf. rewrite length_app in Hf. fold (escape_all s) in Hf.
    unfold escape_all. simpl. fold (escape_all s).
    destruct (decide (w < cap)) as [Hw|Hw].
    + destruct (unescape_loop_escape fuel c (escape_all s) w cap Hc Hw ltac:(lia))
        as (f' & Hf' & ->).
      rewrite IH by (done || lia).
      replace (Z.to_nat (cap - w)) with (S (Z.to_nat (cap - (w + 1)))) by lia. done.
    + replace (Z.to_nat (cap - w)) with 0%nat by lia. rewrite take_0.
      destruct fuel; [done|]. destruct (escape_byte c ++ escape_all s); [done|].
      cbn [unescape_loop]. by replace (w <? cap) with false by lia.
Qed.

(** One [\u] spelling of a code point, read back. *)
Lemma u_escape_digits u : 0 <= u < 0x10000 ->
  forall rest, parse_hex 4 0 (drop 2 (u_escape u) ++ rest) = Some u.
Proof.
  intros Hu rest. simpl. rewrite parse_hex_four by lia. f_equal. lia.
Qed.

Lemma unescape_loop_u_text fuel cp rest w cap :
  0 <= cp < 0x110000 -> scalar cp -> w + 3 < cap ->
  (length (u_text cp ++ rest) <= fuel)%nat ->
  unescape_loop fuel (u_text cp ++ rest) w cap =
  put_utf8 cp w cap ++
    unescape_loop (length rest) rest (w + zlen (put_utf8 cp w cap)) cap.
Proof.
  intros Hcp Hs Hw Hf. unfold scalar, is_surrogate in Hs.
  destruct fuel as [|fuel]; [exfalso; revert Hf; unfold u_text; case_if; simpl; lia|].
  unfold u_text in *. case_if.
  - unfold u_escape at 1. cbn [app unescape_loop].
    replace (w <? cap) with true by lia.
    rewrite zlen_cons. replace (0 <? 1 + zlen _) with true
      by (match goal with |- context [zlen ?l] => pose proof (zlen_nonneg l) end; lia).
    cbn [Z.eqb Pos.eqb andb]. unfold unescape_one.
    cbn [Z.eqb Pos.eqb length Nat.ltb Nat.leb].
    pose proof (u_escape_digits cp ltac:(lia) rest) as E. simpl in E. rewrite E.
    unfold combine_surrogates.
    replace (in_range 0xD800 0xDBFF cp) with false by (unfold in_range in *; lia).
    replace (in_range 0xDC00 0xDFFF cp) with false by (unfold in_range in *; lia).
    cbn [drop fst snd]. rewrite ?drop_0. f_equal. cbn in Hf. apply unescape_loop_fuel; lia.
  - unfold u_escape. cbn [app unescape_loop].
    replace (w <? cap) with true by lia.
    rewrite zlen_cons. replace (0 <? 1 + zlen _) with true
      by (match goal with |- context [zlen ?l] => pose proof (zlen_nonneg l) end; lia).
    cbn [Z.eqb Pos.eqb andb]. unfold unescape_one.
    cbn [Z.eqb Pos.eqb length Nat.ltb Nat.leb].
    assert (Hh : 0 <= high_surrogate cp < 0x10000) by (unfold high_surrogate; lia).
    assert (Hl : 0 <= low_surrogate cp < 0x10000) by (unfold low_surrogate; lia).
    pose proof (u_escape_digits _ Hh (u_escape (low_surrogate cp) ++ rest)) as E.
    pose proof (u_escape_digits _ Hl rest) as E2.
    simpl in E, E2. rewrite E. unfold combine_surrogates.
    replace (in_range 0xD800 0xDBFF _) with true by (unfold in_range, high_surrogate; lia).
    unfold u_escape. cbn [app drop length Nat.ltb Nat.leb]. rewrite E2.
    replace (in_range 0xDC00 0xDFFF _) with true by (unfold in_range, low_surrogate; lia).
    replace (65536 + (high_surrogate cp - 55296) ≪ 10 + (low_surrogate cp - 56320)) with cp
      by (rewrite Z.shiftl_mul_pow2 by lia; unfold high_surrogate, low_surrogate; lia).
    cbn [drop fst snd]. rewrite ?drop_0. f_equal. cbn in Hf. apply unescape_loop_fuel; lia.
Qed.

Lemma put_utf8_small cp w cap : zlen (put_utf8 cp w cap) <= 4.
Proof. unfold put_utf8. repeat case_if; unfold zlen; simpl; lia. Qed.

Lemma unescape_u_texts cps fuel w cap :
  Forall (fun cp => 0 <= cp < 0x110000 /\ scalar cp) cps ->
  w + 4 * zlen cps <= cap -> (length (concat (map u_text cps)) <= fuel)%nat ->
  decodes (unescape_loop fuel (concat (map u_text cps)) w cap) cps.
Proof.
  revert fuel w. induction cps as [|cp cps IH]; intros fuel w Hall Hw Hf.
  - destruct fuel; constructor.
  - apply Forall_cons_iff in Hall as [[Hcp Hsc] Hall]. rewrite zlen_cons in Hw.
    pose proof (zlen_nonneg cps). pose proof (put_utf8_small cp w cap). simpl in Hf |- *.
    rewrite unescape_loop_u_text by (done || lia).
    apply (decodes_block _ _ _ _ _ (put_utf8_decodes cp w cap Hcp ltac:(lia)) eq_refl).
    apply IH; [done | lia..].
Qed.

(** ** The contracts *)

(** Whatever the capacity, [json_escape] stays inside its buffer (its
    terminator included), writes a well-formed JSON string body and cuts only
    between source bytes: [json_unescape] gives back a prefix of the source, as
    much of it as its own buffer holds, and all of it when the two buffers have
    room ([6 * len + 6] bytes suffice for the escaped text). *)
Theorem json_escape_roundtrip (s : list Z) (cap1 cap2 : Z) :
  bytes_ok s -> 0 < cap1 ->
  zlen (json_escape cap1 s) < cap1 /\ json_body (json_escape cap1 s) /\
  (exists k, json_unescape cap2 (json_escape cap1 s) =
     take (Z.to_nat cap2) (take k s)) /\
  (6 * zlen s < cap1 -> zlen s <= cap2 ->
     json_unescape cap2 (json_escape cap1 s) = s).
Proof.
  intros Hs Hc. unfold json_escape, json_unescape.
  destruct (escape_loop_prefix s 0 cap1) as (k & E & Hk & Hall). rewrite E.
  assert (Hbk : bytes_ok (take k s)) by auto with cclaw.
  rewrite unescape_escape_all by (done || lia). rewrite Z.sub_0_r. split_all.
  - destruct Hk as [| ->]; [lia|]. by rewrite take_0.
  - by apply escape_all_body.
  - by exists k.
  - intros H1 H2. rewrite Hall by lia. apply take_ge. unfold zlen in H2. lia.
Qed.

(** [json_unescape] never writes past its capacity, whatever the text, and
    it reads the standard spelling of any Unicode text: the [\uXXXX] escapes of
    its code points, a surrogate pair for each one above U+FFFF, become the UTF-8
    encoding that decodes to those code points. *)
Theorem json_unescape_unicode (src : list Z) (cps : list Z) (cap : Z) :
  0 <= cap -> Forall (fun cp => 0 <= cp < 0x110000 /\ scalar cp) cps ->
  zlen (json_unescape cap src) <= cap /\
  (4 * zlen cps <= cap ->
     decodes (json_unescape cap (concat (map u_text cps))) cps).
Proof.
  intros Hc Hall. split.
  - pose proof (unescape_loop_bound (length src) src 0 cap Hc).
    unfold json_unescape. lia.
  - intros Hl. by apply unescape_u_texts.
Qed.

Lemma json_escape_roundtrip_witness :
  json_unescape 64 (json_escape 64 [34; 1; 0; 65; 0xC3; 10]) = [34; 1; 0; 65; 0xC3; 10].
Proof.
  refine (proj2 (proj2 (proj2 (json_escape_roundtrip [34; 1; 0; 65; 0xC3; 10] 64 64 _ _))) _ _);
    [repeat constructor; unfold byte_ok; lia | lia | by vm_compute | by vm_compute].
Defined.

Lemma json_unescape_unicode_witness :
  json_unescape 8 (u_text 0x1F600) = [0xF0; 0x9F; 0x98; 0x80] /\
  decodes (json_unescape 8 (u_text 0x1F600 ++ u_text 0xE9 ++ [])) [0x1F600; 0xE9].
Proof.
  split; [by vm_compute|].
  refine (proj2 (json_unescape_unicode [] [0x1F600; 0xE9] 8 _ _) _);
    [lia | repeat constructor; lia | by vm_compute].
Defined.
