(* ===== verification/Buf.v ===== *)
(** * Growable buffers and templates: src/buf.c

    A [Buf] is its contents (the bytes before the terminator), its capacity
    and the sticky out-of-memory flag.  Within one buffer the sizes asked of
    [realloc] only grow and a refusal is final, so a function from sizes to
    outcomes describes every behaviour of the allocator. *)
From S2P Require Import Prelude CString.

Record Buf := mk_buf { b_data : list Z; b_cap : Z; b_oom : bool }.
Definition buf_zero : Buf := mk_buf [] 0 false.

(** [while (nc < need) nc *= 2] on [size_t]. *)
Fixpoint grow (fuel : nat) (nc need : Z) : option Z :=
  if nc <? need then
    match fuel with
    | O => None
    | S fuel' => grow fuel' (nc * 2 mod 2 ^ 64) need
    end
  else Some nc.

Section Alloc.
Context (alloc : Z -> bool).

(** [None]: the doubling loop does not end. *)
Definition buf_append (b : Buf) (s : list Z) : option Buf :=
  let n := zlen s in
  let len := zlen (b_data b) in
  if b_oom b then Some b
  else if n >? SIZE_MAX - len - 1 then Some (mk_buf (b_data b) (b_cap b) true)
  else if len + n + 1 >? b_cap b then
    match grow 64 (if b_cap b =? 0 then 256 else b_cap b * 2 mod 2 ^ 64) (len + n + 1) with
    | None => None
    | Some nc =>
        if alloc nc then Some (mk_buf (b_data b ++ s) nc false)
        else Some (mk_buf (b_data b) (b_cap b) true)
    end
  else Some (mk_buf (b_data b ++ s) (b_cap b) false).

Definition buf_append_str (b : Buf) (s : cstring) : option Buf := buf_append b s.
Definition buf_append_char (b : Buf) (c : Z) : option Buf := buf_append b [c].

(** [fmt] is what [vsnprintf] would print, [None] its error; the second
    [alloc] is the heap copy of a text longer than the stack buffer. *)
Definition buf_appendf (b : Buf) (fmt : option (list Z)) : option Buf :=
  if b_oom b then Some b
  else match fmt with
       | None => Some (mk_buf (b_data b) (b_cap b) true)
       | Some out =>
           if zlen out <? 256 then buf_append b out
           else if alloc (zlen out + 1) then buf_append b out
           else Some (mk_buf (b_data b) (b_cap b) true)
       end.

Definition buf_take (b : Buf) : option (list Z) * Buf :=
  if b_oom b then (None, buf_zero)
  else if b_cap b =? 0 then ((if alloc 1 then Some [] else None), buf_zero)
  else (Some (b_data b), buf_zero).

Definition buf_free (b : Buf) : Buf := buf_zero.

(** ** template_render *)
Record TemplateVar := mk_var { v_key : cstring; v_val : cstring }.

(** The inner [for]: the first variable whose key starts the text. *)
Definition find_var (vars : list TemplateVar) (p : cstring) : option TemplateVar :=
  List.find (fun v => starts_with (v_key v) p) vars.

Fixpoint render_loop (fuel : nat) (p : cstring) (vars : list TemplateVar) (b : Buf)
    : option Buf :=
  match p with
  | [] => Some b
  | c :: p' =>
      match fuel with
      | O => None
      | S fuel' =>
          match (if c =? "{"%char then find_var vars p else None) with
          | Some v =>
              match buf_append_str b (v_val v) with
              | None => None
              | Some b' => render_loop fuel' (drop (length (v_key v)) p) vars b'
              end
          | None =>
              match buf_append_char b c with
              | None => None
              | Some b' => render_loop fuel' p' vars b'
              end
          end
      end
  end.

(** Outer [None]: the loop does not end; inner [None]: the C result NULL. *)
Definition template_render (tmpl : option cstring) (vars : list TemplateVar)
    : option (option cstring) :=
  match tmpl with
  | None => Some None
  | Some t =>
      match render_loop (length t) t vars buf_zero with
      | None => None
      | Some b => Some (fst (buf_take b))
      end
  end.


End Alloc.

(** ** The buffer invariant *)

(** The terminator fits, and the capacity is one [grow] reaches. *)
Definition buf_ok (b : Buf) : Prop :=
  (b_cap b = 0 /\ b_data b = []) \/
  (zlen (b_data b) < b_cap b /\ exists k, 8 <= k <= 63 /\ b_cap b = 2 ^ k).

Lemma buf_zero_ok : buf_ok buf_zero.
Proof. by left. Qed.

Lemma grow_pow2 fuel k need :
  8 <= k <= 63 -> need <= 2 ^ 63 -> 63 - k <= Z.of_nat fuel ->
  exists k', 8 <= k' <= 63 /\ grow fuel (2 ^ k) need = Some (2 ^ k') /\ need <= 2 ^ k'.
Proof.
  revert k. induction fuel as [|fuel IH]; intros k Hk Hn Hf; simpl; case_if.
  - assert (k = 63) as -> by lia. lia.
  - exists k. split_all; lia || done.
  - assert (k <> 63) by (intros ->; lia).
    replace (2 ^ k * 2 mod 2 ^ 64) with (2 ^ (k + 1)).
    + apply IH; lia.
    + rewrite Z.pow_add_r by lia. rewrite Z.mod_small; [lia|].
      assert (2 ^ k <= 2 ^ 62) by (apply Z.pow_le_mono_r; lia). lia.
  - exists k. split_all; lia || done.
Qed.

(** Above 2^63 bytes the doubling wraps to 0 and never ends. *)
Lemma grow_zero_diverges fuel need : 0 < need -> grow fuel 0 need = None.
Proof.
  intros Hn. induction fuel as [|fuel IH]; simpl; by replace (0 <? need) with true by lia.
Qed.

Section Appends.
Context (alloc : Z -> bool).

(** Appending [s] to [b] came out as [b']: all of it, or nothing and the flag. *)
Definition appended (b : Buf) (s : list Z) (b' : Buf) : Prop :=
  buf_ok b' /\
  (b_oom b' = false -> b_oom b = false /\ b_data b' = b_data b ++ s) /\
  (b_oom b' = true -> b_data b' = b_data b) /\
  ((forall n, alloc n = true) -> b_oom b' = b_oom b).

Lemma buf_append_appended b s :
  buf_ok b -> zlen (b_data b) + zlen s < 2 ^ 63 ->
  exists b', buf_append alloc b s = Some b' /\ appended b s b'.
Proof.
  intros Hb Hn. unfold buf_append. pose proof (zlen_nonneg s). pose proof (zlen_nonneg (b_data b)).
  destruct (b_oom b) eqn:Eo.
  - exists b. unfold appended. rewrite Eo. by split_all.
  - replace (_ >? SIZE_MAX - _ - 1) with false by (unfold SIZE_MAX; lia).
    case_if.
    + assert (exists k, 8 <= k <= 63 /\
        (if b_cap b =? 0 then 256 else b_cap b * 2 mod 2 ^ 64) = 2 ^ k) as (k & Hk & ->).
      { destruct Hb as [[-> _] | (Hl & k & Hk & E)]; [by exists 8|].
        rewrite E. replace (2 ^ k =? 0) with false by lia.
        assert (k <> 63) by (intros ->; lia). exists (k + 1). split; [lia|].
        rewrite Z.pow_add_r by lia. rewrite Z.mod_small; [lia|].
        assert (2 ^ k <= 2 ^ 62) by (apply Z.pow_le_mono_r; lia). lia. }
      destruct (grow_pow2 64 k (zlen (b_data b) + zlen s + 1) Hk ltac:(lia) ltac:(lia))
        as (k' & Hk' & -> & Hneed).
      destruct (alloc (2 ^ k')) eqn:Ea; eexists; (split; [done|]); unfold appended; simpl.
      * split_all; [|done..]. right. simpl. rewrite zlen_app. split; [lia|]. by exists k'.
      * split_all; [|done..|]; [destruct Hb; [by left | by right]|].
        intros Hall. by rewrite Hall in Ea.
    + eexists; split; [done|]. unfold appended; simpl. split_all; [|done..].
      destruct Hb as [[Hc Hd] | (Hl & Hk)]; right; simpl; rewrite zlen_app; [|split; [lia|done]].
      rewrite Hc, Hd in *. unfold zlen in *. simpl in *. lia.
Qed.

Lemma appended_trans b s b1 s' b2 :
  appended b s b1 -> appended b1 s' b2 -> b_oom b2 = false ->
  b_oom b = false /\ b_data b2 = b_data b ++ s ++ s'.
Proof.
  intros (_ & H1 & _ & _) (_ & H2 & _ & _) E. destruct (H2 E) as [E1 ->].
  destruct (H1 E1) as [E0 ->]. by rewrite app_assoc.
Qed.

(** A run of appends, as the callers make them. *)
Fixpoint buf_appends (b : Buf) (ss : list (list Z)) : option Buf :=
  match ss with
  | [] => Some b
  | s :: ss' => match buf_append alloc b s with None => None | Some b' => buf_appends b' ss' end
  end.

Lemma buf_appends_appended b ss :
  buf_ok b -> zlen (b_data b) + zlen (concat ss) < 2 ^ 63 ->
  exists b', buf_appends b ss = Some b' /\ buf_ok b' /\
    (b_oom b' = false -> b_data b' = b_data b ++ concat ss) /\
    (b_oom b = true -> b_oom b' = true) /\
    ((forall n, alloc n = true) -> b_oom b' = b_oom b).
Proof.
  revert b. induction ss as [|s ss IH]; intros b Hb Hn; simpl in *.
  - exists b. rewrite app_nil_r. by split_all.
  - rewrite zlen_app in Hn. pose proof (zlen_nonneg (concat ss)).
    destruct (buf_append_appended b s Hb ltac:(lia)) as (b1 & -> & Hok & H1 & H2 & H3).
    assert (zlen (b_data b1) + zlen (concat ss) < 2 ^ 63).
    { destruct (b_oom b1) eqn:E; [rewrite H2 by done; pose proof (zlen_nonneg s); lia|].
      destruct (H1 eq_refl) as [_ ->]. rewrite zlen_app. lia. }
    destruct (IH b1 Hok H0) as (b' & -> & Hok' & D & O & A). exists b'. split_all; try done.
    + intros E. rewrite (D E). destruct (b_oom b1) eqn:E1; [by rewrite O in E|].
      destruct (H1 eq_refl) as [_ ->]. by rewrite app_assoc.
    + intros E. apply O. destruct (b_oom b1) eqn:E1; [done|].
      destruct (H1 eq_refl) as [E' _]. congruence.
    + intros Hall. by rewrite A, H3.
Qed.
End Appends.

(** What [buf_take] returns at the end of a run of appends. *)
Lemma buf_take_result (alloc : Z -> bool) b out :
  buf_ok b -> (b_oom b = false -> b_data b = out) ->
  (fst (buf_take alloc b) = Some out \/ fst (buf_take alloc b) = None) /\
  ((forall n, alloc n = true) -> b_oom b = false -> fst (buf_take alloc b) = Some out).
Proof.
  intros Hok D. unfold buf_take. pose proof (zlen_nonneg (b_data b)).
  assert (Hcap : b_oom b = false -> b_cap b = 0 -> out = []).
  { intros Eo Ec. destruct Hok as [[_ Hb] | [Hl _]]; [by rewrite <- D | lia]. }
  split.
  - destruct (b_oom b) eqn:Eo; [by right|]. case_if.
    + rewrite Hcap by (done || lia). destruct (alloc 1); [by left | by right].
    + left. simpl. by rewrite D.
  - intros Hall Eo. rewrite Eo. case_if.
    + rewrite Hall. simpl. by rewrite Hcap by (auto || lia).
    + simpl. by rewrite D by auto.
Qed.

(** Appends whose total stays below 2^63 bytes never lose or reorder data:
    the growth loop ends, the terminator always fits in the capacity, and
    [buf_take] gives the concatenation, or NULL only when the allocator refused. *)
Theorem buf_appends_take (alloc : Z -> bool) (ss : list (list Z)) :
  zlen (concat ss) < 2 ^ 63 ->
  exists b, buf_appends alloc buf_zero ss = Some b /\ buf_ok b /\
    (fst (buf_take alloc b) = Some (concat ss) \/ fst (buf_take alloc b) = None) /\
    ((forall n, alloc n = true) -> fst (buf_take alloc b) = Some (concat ss)).
Proof.
  intros Hn. destruct (buf_appends_appended alloc buf_zero ss buf_zero_ok) as (b & E & Hok & D & _ & A);
    [unfold zlen at 1; simpl; lia|].
  simpl in D, A. exists b. destruct (buf_take_result alloc b (concat ss) Hok D) as [R1 R2].
  split_all; [done | done | done |]. intros Hall. apply R2; auto.
Qed.

(** ** Templates *)

(** A template as its author means it: literal text and variables. *)
Inductive seg := Lit (s : cstring) | Var (v : TemplateVar).

Definition seg_text (x : seg) : cstring := match x with Lit s => s | Var v => v_key v end.
Definition seg_out (x : seg) : cstring := match x with Lit s => s | Var v => v_val v end.

(** Keys are [{name}]: an open brace, then neither brace, then a close brace. *)
Definition key_ok (k : cstring) : Prop :=
  exists n, k = "{"%char :: n ++ ["}"%char] /\ ~ "{"%char ∈ n /\ ~ "}"%char ∈ n.

Definition seg_ok (vars : list TemplateVar) (x : seg) : Prop :=
  match x with
  | Lit s => ~ "{"%char ∈ s
  | Var v => v ∈ vars
  end.

Lemma key_prefix n1 n2 s1 s2 :
  ~ "}"%char ∈ n1 -> ~ "}"%char ∈ n2 ->
  n1 ++ "}"%char :: s1 = n2 ++ "}"%char :: s2 -> n1 = n2 /\ s1 = s2.
Proof.
  revert n2. induction n1 as [|x n1 IH]; intros [|y n2] H1 H2 E; simpl in *.
  - by injection E.
  - injection E as <- _. exfalso. apply H2. left.
  - injection E as -> _. exfalso. apply H1. left.
  - injection E as -> E.
    destruct (IH n2) as [-> ->]; [| |done|done]; intros Hin; [apply H1 | apply H2]; by right.
Qed.

Lemma starts_with_key k k' s :
  key_ok k -> key_ok k' -> starts_with k (k' ++ s) = true -> k = k'.
Proof.
  intros (n & -> & _ & Hn) (n' & -> & _ & Hn') E. apply starts_with_spec in E as [t E].
  simpl in E. injection E as E. rewrite <- !app_assoc in E. simpl in E.
  destruct (key_prefix _ _ _ _ Hn' Hn E) as [-> _]. done.
Qed.

Lemma find_var_key vars v s :
  Forall (fun v => key_ok (v_key v)) vars -> NoDup (map v_key vars) -> v ∈ vars ->
  find_var vars (v_key v ++ s) = Some v.
Proof.
  intros Hk Hnd Hin. induction vars as [|w vars IH]; [by apply not_elem_of_nil in Hin|].
  unfold find_var in *. simpl. apply Forall_cons in Hk as [Hw Hk].
  simpl in Hnd. inversion_clear Hnd as [|? ? Hnin Hnd'].
  apply elem_of_cons in Hin as [<- | Hin]; [by rewrite starts_with_app|].
  assert (key_ok (v_key v)) by exact (proj1 (Forall_forall _ _) Hk v Hin).
  destruct (starts_with (v_key w) (v_key v ++ s)) eqn:E; [|by apply IH].
  apply starts_with_key in E; [|done..]. exfalso. apply Hnin. rewrite E.
  apply list_elem_of_fmap. by exists v.
Qed.

Section Render.
Context (alloc : Z -> bool) (vars : list TemplateVar).
Hypothesis keys : Forall (fun v => key_ok (v_key v)) vars.
Hypothesis distinct : NoDup (map v_key vars).

Lemma render_loop_lit fuel s rest b :
  ~ "{"%char ∈ s -> (length s <= fuel)%nat ->
  render_loop alloc fuel (s ++ rest) vars b =
  match buf_appends alloc b (map (fun c => [c]) s) with
  | None => None
  | Some b' => render_loop alloc (fuel - length s) rest vars b'
  end.
Proof.
  revert fuel b. induction s as [|c s IH]; intros fuel b Hs Hf; simpl.
  - by rewrite Nat.sub_0_r.
  - simpl in Hf. destruct fuel as [|fuel]; [lia|].
    cbn [render_loop]. replace (c =? "{"%char) with false
      by (symmetry; apply Z.eqb_neq; intros ->; apply Hs; left).
    unfold buf_append_char. destruct (buf_append alloc b [c]); [|done].
    apply IH; [|lia]. intros Hin. apply Hs. by right.
Qed.

(** The pieces [render_loop] appends for a segment. *)
Definition seg_pieces (x : seg) : list cstring :=
  match x with Lit s => map (fun c => [c]) s | Var v => [v_val v] end.

Lemma seg_pieces_concat x : concat (seg_pieces x) = seg_out x.
Proof.
  destruct x as [s|v]; simpl; [|by rewrite app_nil_r].
  induction s as [|c s IH]; simpl; [done|]. by rewrite IH.
Qed.

Lemma buf_appends_app b ss1 ss2 :
  buf_appends alloc b (ss1 ++ ss2) =
  match buf_appends alloc b ss1 with
  | None => None | Some b' => buf_appends alloc b' ss2 end.
Proof.
  revert b. induction ss1 as [|s ss1 IH]; intros b; simpl; [done|].
  destruct (buf_append alloc b s); [apply IH | done].
Qed.

Lemma render_loop_segs segs fuel b :
  Forall (seg_ok vars) segs -> (length (concat (map seg_text segs)) <= fuel)%nat ->
  render_loop alloc fuel (concat (map seg_text segs)) vars b =
  buf_appends alloc b (concat (map seg_pieces segs)).
Proof.
  revert fuel b. induction segs as [|x segs IH]; intros fuel b Hok Hf; simpl in *.
  - by destruct fuel.
  - apply Forall_cons in Hok as [Hx Hok]. rewrite length_app in Hf.
    rewrite buf_appends_app. destruct x as [s|v]; simpl in *.
    + rewrite render_loop_lit by (done || lia).
      destruct (buf_appends alloc b _); [|done]. apply IH; [done|lia].
    + assert (Hk : key_ok (v_key v)) by exact (proj1 (Forall_forall _ _) keys v Hx).
      pose proof (find_var_key vars v (concat (map seg_text segs)) keys distinct Hx) as E.
      destruct Hk as (n & Ek & _). destruct fuel as [|fuel];
        [rewrite Ek in Hf; simpl in Hf; lia|].
      rewrite Ek in E |- *. cbn [app render_loop]. cbn [app] in E.
      rewrite Z.eqb_refl, E. unfold buf_append_str.
      destruct (buf_append alloc b (v_val v)) as [b'|]; [|done].
      rewrite Ek.
      rewrite (drop_app_length ("{"%char :: n ++ ["}"%char]) (concat (map seg_text segs)) :
        drop _ ("{"%char :: (n ++ ["}"%char]) ++ _) = _).
      apply IH; [done|].
      rewrite Ek in Hf. simpl in Hf. lia.
Qed.
End Render.

(** A template of literal text and distinct [{name}] variables renders to the
    literals with each variable replaced by its value, in order; the values are
    not scanned again, whatever braces they hold.  The loop ends, and NULL is
    returned only when the allocator refused. *)
Theorem template_render_correct (alloc : Z -> bool) (vars : list TemplateVar) (segs : list seg) :
  Forall (fun v => key_ok (v_key v)) vars -> NoDup (map v_key vars) ->
  Forall (seg_ok vars) segs -> zlen (concat (map seg_out segs)) < 2 ^ 63 ->
  exists r, template_render alloc (Some (concat (map seg_text segs))) vars = Some r /\
    (r = Some (concat (map seg_out segs)) \/ r = None) /\
    ((forall n, alloc n = true) -> r = Some (concat (map seg_out segs))).
Proof.
  intros Hk Hd Hs Hn. unfold template_render.
  rewrite render_loop_segs by done.
  assert (E : concat (concat (map seg_pieces segs)) = concat (map seg_out segs)).
  { clear. induction segs as [|x segs IH]; simpl; [done|].
    by rewrite concat_app, seg_pieces_concat, IH. }
  assert (Hn' : zlen (concat (concat (map seg_pieces segs))) < 2 ^ 63) by (by rewrite E).
  destruct (buf_appends_appended alloc buf_zero (concat (map seg_pieces segs)) buf_zero_ok) as (b & -> & Hok & D & _ & A);
    [unfold zlen at 1; simpl; lia|].
  simpl in D, A. rewrite E in D. exists (fst (buf_take alloc b)).
  destruct (buf_take_result alloc b _ Hok D) as [R1 R2].
  split_all; [done | done |]. intros Hall. apply R2; auto.
Qed.

(** An empty key makes the loop stand still. *)
Lemma template_render_empty_key :
  template_render (fun _ => true) (Some [123]) [mk_var [] []] = None.
Proof. done. Qed.

(** A request past 2^63 bytes is let through by the overflow guard and the
    doubling never ends. *)
Lemma buf_append_huge_diverges fuel need : 2 ^ 63 < need -> need < 2 ^ 64 ->
  grow (S fuel) (2 ^ 63) need = None.
Proof.
  intros H1 H2. cbn [grow]. replace (2 ^ 63 <? need) with true by lia.
  apply grow_zero_diverges. lia.
Qed.

(** ** Witnesses *)
Lemma buf_appends_take_witness :
  exists b, buf_appends (fun _ => true) buf_zero [bs "ab"; []; bs "cd"] = Some b /\
    fst (buf_take (fun _ => true) b) = Some (bs "abcd").
Proof.
  destruct (buf_appends_take (fun _ => true) [bs "ab"; []; bs "cd"] ltac:(by vm_compute))
    as (b & E & _ & _ & H).
  exists b. split; [exact E | by apply H].
Defined.

Lemma template_render_correct_witness :
  template_render (fun _ => true) (Some (bs "on {date}, {x}"))
    [mk_var (bs "{date}") (bs "{x}"); mk_var (bs "{x}") (bs "y")] =
  Some (Some (bs "on {x}, y")).
Proof.
  pose (d := mk_var (bs "{date}") (bs "{x}")). pose (x := mk_var (bs "{x}") (bs "y")).
  destruct (template_render_correct (fun _ => true) [d; x]
    [Lit (bs "on "); Var d; Lit (bs ", "); Var x]) as (r & E & _ & H).
  - repeat constructor; [exists (bs "date") | exists (bs "x")];
      by repeat split; apply (bool_decide_unpack _); vm_compute.
  - apply (bool_decide_unpack _). by vm_compute.
  - repeat constructor; try (by left); try (by right; left);
      apply (bool_decide_unpack _); by vm_compute.
  - by vm_compute.
  - etrans; [exact E|]. f_equal. by apply H.
Defined.
