(* ===== verification/Codec.v ===== *)
(** * Text encodings and stored secrets: src/util.c (base64), src/secret_interp.c
    (its own base64 and the URL encoding), src/secret.c

    The AEAD primitive (monocypher) is not code of the repository: it is the
    class [Aead], with the one law the round trip needs. *)
From S2P Require Import Prelude CString HostMatch.

(** ** Base64 *)
Definition b64_tbl : list Z :=
  bs "ABCDEFGHIJKLMNOPQRSTUVWXYZabcdefghijklmnopqrstuvwxyz0123456789+/".
Definition tbl (v : Z) : Z := nth (Z.to_nat v) b64_tbl 0.

(** src/util.c: three bytes at a time through a 24-bit word. *)
Fixpoint b64_words (buf : list Z) : list Z :=
  match buf with
  | x :: y :: z :: rest =>
      let v := Z.lor (Z.lor (Z.shiftl x 16) (Z.shiftl y 8)) z in
      tbl (Z.shiftr v 18) :: tbl (Z.land (Z.shiftr v 12) 63)
        :: tbl (Z.land (Z.shiftr v 6) 63) :: tbl (Z.land v 63) :: b64_words rest
  | [x; y] =>
      let v := Z.lor (Z.shiftl x 16) (Z.shiftl y 8) in
      [tbl (Z.shiftr v 18); tbl (Z.land (Z.shiftr v 12) 63);
       tbl (Z.land (Z.shiftr v 6) 63); "="%char]
  | [x] =>
      let v := Z.shiftl x 16 in
      [tbl (Z.shiftr v 18); tbl (Z.land (Z.shiftr v 12) 63); "="%char; "="%char]
  | [] => []
  end.

(** [alloc n]: whether [malloc(n)] succeeds. *)
Definition base64_encode (alloc : Z -> bool) (buf : list Z) : option (list Z) :=
  if alloc ((zlen buf + 2) / 3 * 4 + 1) then Some (b64_words buf) else None.

(** src/secret_interp.c: byte by byte, the missing bytes read as 0. *)
Fixpoint b64_bytes (src : list Z) : list Z :=
  match src with
  | [] => []
  | a :: s1 =>
      let b := hd 0 s1 in
      let c := hd 0 (tl s1) in
      tbl (Z.shiftr a 2)
        :: tbl (Z.lor (Z.shiftl (Z.land a 3) 4) (Z.shiftr b 4))
        :: (if (0 <? zlen s1) then tbl (Z.lor (Z.shiftl (Z.land b 0xf) 2) (Z.shiftr c 6)) else "="%char)
        :: (if (1 <? zlen s1) then tbl (Z.land c 0x3f) else "="%char)
        :: match s1 with _ :: _ :: rest => b64_bytes rest | _ => [] end
  end.

(** [[]] is the C result 0: too small, or nothing to encode. *)
Definition b64_encode (dst_cap : Z) (src : list Z) : list Z :=
  if (zlen src + 2) / 3 * 4 >? dst_cap then [] else b64_bytes src.

(** The inverse table, src/secret_scan.c. *)
Definition b64val (c : Z) : Z :=
  if in_range "A"%char "Z"%char c then c - "A"%char
  else if in_range "a"%char "z"%char c then c - "a"%char + 26
  else if in_range "0"%char "9"%char c then c - "0"%char + 52
  else if (c =? "+"%char) || (c =? "-"%char) then 62
  else if (c =? "/"%char) || (c =? "_"%char) then 63
  else -1.
Arguments b64val : simpl never.

(** ** URL encoding (src/secret_interp.c) *)
Definition hex_upper : list Z := bs "0123456789ABCDEF".
Definition url_safe (ch : Z) : bool :=
  is_upper ch || is_lower ch || is_digit ch || (ch =? "-"%char) ||
  (ch =? "_"%char) || (ch =? "."%char) || (ch =? "~"%char).

Definition url_byte (ch : Z) : list Z :=
  if url_safe ch then [ch]
  else ["%"%char; nth (Z.to_nat (Z.shiftr ch 4)) hex_upper 0;
        nth (Z.to_nat (Z.land ch 0xf)) hex_upper 0].

(** [None]: the output does not fit. *)
Fixpoint url_loop (o dst_cap : Z) (src : list Z) : option (list Z) :=
  match src with
  | [] => Some []
  | ch :: src' =>
      let out := url_byte ch in
      if o + zlen out >? dst_cap then None
      else option_map (app out) (url_loop (o + zlen out) dst_cap src')
  end.

Definition url_encode (dst_cap : Z) (src : list Z) : list Z :=
  match url_loop 0 dst_cap src with None => [] | Some out => out end.

(** ** Hexadecimal and stored secrets (src/secret.c) *)
Definition hex_lower : list Z := bs "0123456789abcdef".

Fixpoint hex_encode (data : list Z) : list Z :=
  match data with
  | [] => []
  | b :: data' =>
      nth (Z.to_nat (Z.shiftr b 4)) hex_lower 0
        :: nth (Z.to_nat (Z.land b 0x0f)) hex_lower 0 :: hex_encode data'
  end.

Definition hex_nibble (c : Z) : option Z :=
  if in_range "0"%char "9"%char c then Some (c - "0"%char)
  else if in_range "a"%char "f"%char c then Some (c - "a"%char + 10)
  else if in_range "A"%char "F"%char c then Some (c - "A"%char + 10)
  else None.

Fixpoint hex_decode (out_len : nat) (hex_str : cstring) : option (list Z) :=
  match out_len with
  | O => Some []
  | S n =>
      match hex_nibble (deref hex_str), hex_nibble (deref (tl hex_str)) with
      | Some hi, Some lo =>
          option_map (cons (Z.lor (Z.shiftl hi 4) lo)) (hex_decode n (tl (tl hex_str)))
      | _, _ => None
      end
  end.

Definition NONCE_LEN : nat := 24.
Definition TAG_LEN : nat := 16.
Definition ENC_PREFIX : cstring := bs "enc:".

(** crypto_aead_lock and crypto_aead_unlock. *)
Class Aead := {
  aead_lock : list Z -> list Z -> list Z -> list Z * list Z;
  aead_unlock : list Z -> list Z -> list Z -> list Z -> option (list Z)
}.

(** Key, nonce, ciphertext and tag. *)
Class AeadLaws `{Aead} := {
  lock_length key nonce pt : length (aead_lock key nonce pt).1 = length pt;
  lock_tag key nonce pt : length (aead_lock key nonce pt).2 = TAG_LEN;
  lock_bytes key nonce pt : bytes_ok pt ->
    bytes_ok (aead_lock key nonce pt).1 /\ bytes_ok (aead_lock key nonce pt).2;
  unlock_lock key nonce pt :
    aead_unlock key nonce (aead_lock key nonce pt).1 (aead_lock key nonce pt).2 = Some pt
}.

Section Secret.
Context `{Aead} (alloc : Z -> bool).

(** [random]: the bytes [getrandom] gave, [None] when it gave fewer. *)
Definition secret_encrypt (random : option (list Z)) (key plaintext : option (list Z))
    : option cstring :=
  match key, plaintext with
  | Some key, Some plaintext =>
      let blob_len := Z.of_nat NONCE_LEN + zlen plaintext + Z.of_nat TAG_LEN in
      if alloc blob_len then
        match random with
        | None => None
        | Some nonce =>
            let (ct, mac) := aead_lock key nonce plaintext in
            if alloc (4 + blob_len * 2 + 1)
            then Some (ENC_PREFIX ++ hex_encode (nonce ++ ct ++ mac))
            else None
        end
      else None
  | _, _ => None
  end.

Definition secret_decrypt (key : option (list Z)) (enc_str : option cstring)
    : option cstring :=
  match key, enc_str with
  | Some key, Some enc_str =>
      if negb (starts_with ENC_PREFIX enc_str) then None
      else
        let hex_str := drop 4 enc_str in
        let hex_len := length hex_str in
        if negb (Nat.even hex_len) then None
        else
          let blob_len := Nat.div2 hex_len in
          if (blob_len <? NONCE_LEN + TAG_LEN)%nat then None
          else if alloc (Z.of_nat blob_len) then
            match hex_decode blob_len hex_str with
            | None => None
            | Some blob =>
                let pt_len := (blob_len - NONCE_LEN - TAG_LEN)%nat in
                let nonce := take NONCE_LEN blob in
                let ct := take pt_len (drop NONCE_LEN blob) in
                let mac := drop (NONCE_LEN + pt_len) blob in
                if alloc (Z.of_nat pt_len + 1) then
                  match aead_unlock key nonce ct mac with
                  | None => None
                  | Some plaintext => Some (c_str plaintext)
                  end
                else None
            end
          else None
  | _, _ => None
  end.
End Secret.

(** ** Base64 *)

(** The standard decoder, four symbols at a time. *)
Fixpoint b64_decode (s : list Z) : list Z :=
  match s with
  | a :: b :: c :: d :: rest =>
      let hi := b64val a * 64 + b64val b in
      if c =? "="%char then [hi / 16]
      else if d =? "="%char then
        let v := hi * 64 + b64val c in [v / 1024; v / 4 mod 256]
      else
        let v := (hi * 64 + b64val c) * 64 + b64val d in
        v / 65536 :: v / 256 mod 256 :: v mod 256 :: b64_decode rest
  | _ => []
  end.

Lemma tbl_val v : 0 <= v < 64 -> b64val (tbl v) = v /\ (tbl v =? "="%char) = false.
Proof.
  intros Hv.
  pose (P v := if v <? 64 then (b64val (tbl v) =? v) && negb (tbl v =? "="%char) else true).
  assert (HP : P v = true) by (apply byte_forall; [by vm_compute | unfold byte_ok; lia]).
  unfold P in HP. replace (v <? 64) with true in HP by lia. lia.
Qed.

(** The sextets of one to three bytes, arithmetically. *)
Lemma word3 x y z : byte_ok x -> byte_ok y -> byte_ok z ->
  Z.lor (Z.lor (Z.shiftl x 16) (Z.shiftl y 8)) z = (x * 256 + y) * 256 + z.
Proof.
  unfold byte_ok. intros Hx Hy Hz. rewrite (lor_shiftl_add 16) by (rewrite ?Z.shiftl_mul_pow2 by lia; lia).
  rewrite Z.shiftl_mul_pow2 by lia.
  replace (x * 2 ^ 16 + y * 2 ^ 8) with ((x * 256 + y) * 2 ^ 8) by lia.
  rewrite <- Z.shiftl_mul_pow2 by lia. rewrite lor_shiftl_add by lia. done.
Qed.

Lemma land_ones_mod v n m : 0 <= n -> m = 2 ^ n - 1 -> Z.land v m = v mod 2 ^ n.
Proof. intros Hn ->. rewrite <- Z.land_ones by done. by rewrite Z.ones_equiv. Qed.

Ltac sextets :=
  rewrite ?Z.shiftr_div_pow2, ?(land_ones_mod _ 6 63), ?(land_ones_mod _ 2 3),
    ?(land_ones_mod _ 4 15) by lia.

(** Equality of symbol lists, position by position. *)
Ltac congr_lia :=
  repeat match goal with
  | |- _ :: _ = _ :: _ => apply f_equal2
  | |- tbl _ = tbl _ => apply f_equal
  end; try reflexivity; try lia.

Lemma list_ind3 (P : list Z -> Prop) :
  P [] -> (forall x, P [x]) -> (forall x y, P [x; y]) ->
  (forall x y z s, P s -> P (x :: y :: z :: s)) -> forall s, P s.
Proof.
  intros H0 H1 H2 H3. fix IH 1.
  intros [|x [|y [|z s]]]; [done | done | done | apply H3, IH].
Qed.

Lemma b64_bytes_words s : bytes_ok s -> b64_bytes s = b64_words s.
Proof.
  induction s as [|x|x y|x y z s IH] using list_ind3; intros Hs; [done| | |];
    rewrite ?bytes_ok_cons in Hs; split_all.
  - pose proof (word3 x 0 0) as W. unfold byte_ok in *.
    rewrite Z.lor_0_r, Z.lor_0_r in W. simpl. rewrite W by lia. sextets.
    rewrite (lor_shiftl_add 4) by (simpl; lia). by congr_lia.
  - pose proof (word3 x y 0) as W. unfold byte_ok in *. rewrite Z.lor_0_r in W.
    simpl. rewrite W by lia. sextets.
    rewrite (lor_shiftl_add 4), (lor_shiftl_add 2) by (simpl; lia).
    by congr_lia.
  - cbn [b64_bytes b64_words hd tl]. rewrite !zlen_cons. pose proof (zlen_nonneg s).
    replace (0 <? _) with true by lia. replace (1 <? _) with true by lia.
    rewrite word3 by done. rewrite IH by done. unfold byte_ok in *. sextets.
    rewrite (lor_shiftl_add 4), (lor_shiftl_add 2) by lia. by congr_lia.
Qed.

Lemma b64_words_decode s : bytes_ok s -> b64_decode (b64_words s) = s.
Proof.
  induction s as [|x|x y|x y z s IH] using list_ind3; intros Hs; [done| | |];
    rewrite ?bytes_ok_cons in Hs; split_all.
  - pose proof (word3 x 0 0) as W. unfold byte_ok in *. rewrite Z.lor_0_r, Z.lor_0_r in W.
    cbn [b64_words]. rewrite W by lia. sextets. cbn [b64_decode].
    rewrite Z.eqb_refl.
    rewrite !(fun v H => proj1 (tbl_val v H)) by lia. f_equal; lia.
  - pose proof (word3 x y 0) as W. unfold byte_ok in *. rewrite Z.lor_0_r in W.
    cbn [b64_words]. rewrite W by lia. sextets. cbn [b64_decode].
    rewrite (fun v H => proj2 (tbl_val v H)) by lia. rewrite Z.eqb_refl.
    rewrite !(fun v H => proj1 (tbl_val v H)) by lia. congr_lia.
  - cbn [b64_words]. rewrite word3 by done. unfold byte_ok in *. sextets. cbn [b64_decode].
    rewrite !(fun v H => proj2 (tbl_val v H)) by lia.
    rewrite !(fun v H => proj1 (tbl_val v H)) by lia. rewrite IH by done.
    congr_lia.
Qed.

Lemma b64_words_length s : zlen (b64_words s) = (zlen s + 2) / 3 * 4.
Proof.
  induction s as [|x|x y|x y z s IH] using list_ind3; [done..|].
  cbn [b64_words]. rewrite !zlen_cons, IH. lia.
Qed.

(** The two base64 encoders of the code are the same function on bytes, the
    standard one: decoding the symbols with the scanner's own value table gives
    the input back, the length is the one the callers reserve, and the bounded
    variant returns nothing exactly when that length does not fit. *)
Theorem base64_encode_correct (alloc : Z -> bool) (s : list Z) (cap : Z) :
  bytes_ok s ->
  (base64_encode alloc s = None \/
   exists out, base64_encode alloc s = Some out /\
     zlen out = (zlen s + 2) / 3 * 4 /\ b64_decode out = s) /\
  ((zlen s + 2) / 3 * 4 <= cap -> b64_encode cap s = b64_words s) /\
  (cap < (zlen s + 2) / 3 * 4 -> b64_encode cap s = []).
Proof.
  intros Hs. unfold base64_encode, b64_encode. split_all.
  - case_if; [right | by left]. eexists. split; [done|].
    by rewrite b64_words_length, b64_words_decode.
  - intros Hc. replace (_ >? _) with false by lia. by apply b64_bytes_words.
  - intros Hc. by replace (_ >? _) with true by lia.
Qed.

(** ** URL encoding *)

Lemma url_byte_decode c rest :
  byte_ok c -> percent_decode (url_byte c ++ rest) = c :: percent_decode rest.
Proof.
  intros Hc.
  assert (HP : forall r : list Z, percent_decode (url_byte c ++ r) = c :: percent_decode r ).
  { pose (P c := if url_safe c then negb (c =? "%"%char) else
       (hexval (nth (Z.to_nat (Z.shiftr c 4)) hex_upper 0) =? c / 16) &&
       (hexval (nth (Z.to_nat (Z.land c 0xf)) hex_upper 0) =? c mod 16)).
    assert (HP : P c = true) by (apply byte_forall; [by vm_compute | done]).
    unfold P in HP. intros r. unfold url_byte. unfold byte_ok in Hc. case_if; cbn [app percent_decode].
    - by replace (c =? _) with false by lia.
    - rewrite Z.eqb_refl. replace (_ && _) with true by lia. f_equal. lia. }
  apply HP.
Qed.

Lemma url_loop_decode o cap s out :
  bytes_ok s -> url_loop o cap s = Some out -> percent_decode out = s.
Proof.
  revert o out. induction s as [|c s IH]; intros o out Hs; simpl; [by intros [= <-]|].
  apply bytes_ok_cons in Hs as [Hc Hs]. case_if; [done|].
  destruct (url_loop _ _ _) as [r|] eqn:E; [|done]. simpl. intros [= <-].
  rewrite url_byte_decode by done. by rewrite (IH _ _ Hs E).
Qed.

Lemma url_loop_length o cap s out : o <= cap ->
  url_loop o cap s = Some out -> o + zlen out <= cap.
Proof.
  revert o out. induction s as [|c s IH]; intros o out Ho; simpl.
  - intros [= <-]. unfold zlen; simpl; lia.
  - case_if; [done|]. destruct (url_loop _ _ _) as [r|] eqn:E; [|done]. simpl.
    intros [= <-]. rewrite zlen_app. apply IH in E; lia.
Qed.

Lemma url_loop_fits o cap s : o + 3 * zlen s <= cap -> exists out, url_loop o cap s = Some out.
Proof.
  revert o. induction s as [|c s IH]; intros o Ho; simpl; [by eexists|].
  rewrite zlen_cons in Ho. pose proof (zlen_nonneg s).
  assert (zlen (url_byte c) <= 3) by (unfold url_byte; case_if; unfold zlen; simpl; lia).
  replace (_ >? _) with false by lia.
  destruct (IH (o + zlen (url_byte c))) as [r ->]; [lia|]. by eexists.
Qed.

(** [url_encode] stays inside its buffer; what it writes decodes back to the
    source with the repository's own percent decoder, and three bytes of room per
    source byte are always enough for it to write. *)
Theorem url_encode_correct (s : list Z) (cap : Z) :
  bytes_ok s -> 0 <= cap ->
  zlen (url_encode cap s) <= cap /\
  (url_encode cap s = [] \/ percent_decode (url_encode cap s) = s) /\
  (3 * zlen s <= cap -> percent_decode (url_encode cap s) = s).
Proof.
  intros Hs Hc. unfold url_encode. split_all.
  - destruct (url_loop 0 cap s) as [out|] eqn:E; [|unfold zlen; simpl; lia].
    apply url_loop_length in E; lia.
  - destruct (url_loop 0 cap s) as [out|] eqn:E; [right | by left].
    by apply url_loop_decode in E.
  - intros H3. destruct (url_loop_fits 0 cap s) as [out E]; [lia|].
    rewrite E. by apply url_loop_decode in E.
Qed.

(** ** Stored secrets *)

Lemma hex_pair b : byte_ok b ->
  hex_nibble (nth (Z.to_nat (Z.shiftr b 4)) hex_lower 0) = Some (b / 16) /\
  hex_nibble (nth (Z.to_nat (Z.land b 0x0f)) hex_lower 0) = Some (b mod 16).
Proof.
  intros Hb.
  pose (P b := bool_decide (hex_nibble (nth (Z.to_nat (Z.shiftr b 4)) hex_lower 0) = Some (b / 16))
    && bool_decide (hex_nibble (nth (Z.to_nat (Z.land b 0x0f)) hex_lower 0) = Some (b mod 16))).
  assert (HP : P b = true) by (apply byte_forall; [by vm_compute | done]).
  unfold P in HP. apply andb_true_iff in HP as [H1 H2].
  by apply bool_decide_eq_true in H1, H2.
Qed.

Lemma hex_decode_encode data :
  bytes_ok data -> hex_decode (length data) (hex_encode data) = Some data.
Proof.
  induction data as [|b data IH]; intros Hd; [done|].
  apply bytes_ok_cons in Hd as [Hb Hd]. destruct (hex_pair b Hb) as [E1 E2].
  cbn [length hex_decode hex_encode deref hd tl]. unfold deref. simpl hd.
  rewrite E1, E2, IH by done. simpl. f_equal. f_equal. unfold byte_ok in Hb.
  rewrite lor_shiftl_add by lia. lia.
Qed.

Lemma hex_encode_length data : length (hex_encode data) = (2 * length data)%nat.
Proof. induction data as [|b data IH]; simpl; lia. Qed.

Section SecretLaws.
Context `{AeadLaws} (alloc : Z -> bool).

Lemma encrypt_blob key nonce pt :
  bytes_ok nonce -> length nonce = NONCE_LEN -> bytes_ok pt ->
  let '(ct, mac) := aead_lock key nonce pt in
  bytes_ok (nonce ++ ct ++ mac) /\ length ct = length pt /\ length mac = TAG_LEN.
Proof.
  intros Hn Hl Hp. pose proof (lock_length key nonce pt). pose proof (lock_tag key nonce pt).
  pose proof (lock_bytes key nonce pt Hp). destruct (aead_lock key nonce pt) as [ct mac].
  simpl in *. rewrite !bytes_ok_app. tauto.
Qed.
End SecretLaws.

(** A secret that [secret_encrypt] stored is read back unchanged by
    [secret_decrypt] under the same key, for every nonce the system gave; the
    stored text is the prefix and two hexadecimal digits per byte of nonce,
    ciphertext and tag. *)
Theorem secret_decrypt_encrypt `{AeadLaws} (nonce key pt : list Z) :
  bytes_ok nonce -> length nonce = NONCE_LEN -> cstr pt ->
  exists e, secret_encrypt (fun _ => true) (Some nonce) (Some key) (Some pt) = Some e /\
    zlen e = 4 + 2 * (24 + zlen pt + 16) /\
    secret_decrypt (fun _ => true) (Some key) (Some e) = Some pt.
Proof.
  intros Hn Hl Hp. pose proof (encrypt_blob key nonce pt Hn Hl (cstr_bytes _ Hp)) as HB.
  pose proof (unlock_lock key nonce pt) as HU.
  unfold secret_encrypt. destruct (aead_lock key nonce pt) as [ct mac]. simpl in HU.
  destruct HB as (Hb & Hc & Hm). eexists. split; [done|].
  assert (Hlen : length (nonce ++ ct ++ mac) = (NONCE_LEN + length pt + TAG_LEN)%nat)
    by (rewrite !length_app; lia).
  unfold NONCE_LEN, TAG_LEN in *. split.
  - rewrite zlen_app. unfold zlen. rewrite hex_encode_length. simpl. lia.
  - unfold secret_decrypt. rewrite starts_with_app. cbn [negb].
    change 4%nat with (length ENC_PREFIX). rewrite drop_app_length, hex_encode_length.
    rewrite Nat.even_even, Nat.div2_double, Hlen. cbn [negb].
    unfold NONCE_LEN, TAG_LEN.
    replace (_ <? _)%nat with false by (symmetry; apply Nat.ltb_ge; lia).
    rewrite <- Hlen, hex_decode_encode, Hlen by done.
    replace (24 + length pt + 16 - 24 - 16)%nat with (length pt) by lia.
    rewrite take_app_length' by done. rewrite drop_app_length' by done.
    rewrite take_app_length' by done.
    rewrite <- Hc, app_assoc, drop_app_length' by (rewrite length_app; lia).
    rewrite HU. by rewrite c_str_id.
Qed.

(** [secret_decrypt] never returns text the primitive did not authenticate:
    a result means the stored value is the prefix followed by the hexadecimal
    digits of at least forty bytes, and unlocking the bytes between the first
    24 and the last 16 with those as nonce and tag gave that text. *)
Theorem secret_decrypt_authenticated `{Aead} (alloc : Z -> bool) (key : list Z) (e : cstring)
    (p : cstring) :
  secret_decrypt alloc (Some key) (Some e) = Some p ->
  exists blob nonce ct mac pt, e = ENC_PREFIX ++ drop 4 e /\
    hex_decode (length blob) (drop 4 e) = Some blob /\
    length e = (4 + 2 * length blob)%nat /\
    blob = nonce ++ ct ++ mac /\ length nonce = NONCE_LEN /\ length mac = TAG_LEN /\
    aead_unlock key nonce ct mac = Some pt /\ p = c_str pt.
Proof.
  unfold secret_decrypt. destruct (starts_with ENC_PREFIX e) eqn:Ep; [|done]. cbn [negb].
  apply starts_with_spec in Ep as [t ->]. change 4%nat with (length ENC_PREFIX).
  rewrite drop_app_length. destruct (Nat.even (length t)) eqn:Ev; [|done]. cbn [negb].
  destruct (_ <? _)%nat eqn:El; [done|]. apply Nat.ltb_ge in El.
  destruct (alloc _); [|done]. destruct (hex_decode _ t) as [blob|] eqn:Eh; [|done].
  destruct (alloc _); [|done]. destruct (aead_unlock _ _ _ _) as [pt|] eqn:Eu; [|done].
  intros [= <-].
  assert (Hb : length blob = Nat.div2 (length t)).
  { clear - Eh. revert blob Eh. generalize (Nat.div2 (length t)) as n.
    intros n. revert t. induction n as [|n IH]; intros t blob; simpl; [by intros [= <-]|].
    destruct (hex_nibble (deref t)), (hex_nibble (deref (tl t))); [|done..].
    destruct (hex_decode n _) as [r|] eqn:E; [|done]. simpl. intros [= <-].
    simpl. f_equal. by eapply IH. }
  exists blob. do 4 eexists. split; [done|]. split; [by rewrite Hb|].
  split_all; [| | | |exact Eu|done].
  - rewrite length_app, Hb. apply Nat.even_spec in Ev as [k ->]. rewrite Nat.div2_double. simpl. lia.
  - rewrite <- (take_drop NONCE_LEN blob) at 1. f_equal.
    rewrite <- (take_drop (Nat.div2 (length t) - NONCE_LEN - TAG_LEN) (drop NONCE_LEN blob)) at 1.
    by rewrite drop_drop.
  - rewrite length_take. lia.
  - rewrite length_drop. lia.
Qed.

(** ** Witnesses *)

(** A toy primitive that satisfies the law: the tag is a fixed-size digest of
    key, nonce and text. *)
Definition demo_tag (key nonce pt : list Z) : list Z :=
  replicate 15 0 ++ [(fold_right Z.add 0 (key ++ nonce ++ pt)) mod 256].
Definition demo_aead : Aead := {|
  aead_lock key nonce pt := (pt, demo_tag key nonce pt);
  aead_unlock key nonce ct mac :=
    if bool_decide (mac = demo_tag key nonce ct) then Some ct else None |}.

Lemma demo_aead_laws : @AeadLaws demo_aead.
Proof.
  split; simpl; [done | done | |].
  - intros key nonce pt Hp. split; [done|]. apply bytes_ok_app. split.
    + apply Forall_replicate. unfold byte_ok. lia.
    + apply bytes_ok_cons. split; [|constructor]. apply Z.mod_pos_bound. lia.
  - intros key nonce pt. by rewrite bool_decide_true.
Qed.

Lemma base64_encode_correct_witness :
  b64_encode 1023 (bs "user:pw") = bs "dXNlcjpwdw==" /\
  b64_decode (bs "dXNlcjpwdw==") = bs "user:pw".
Proof.
  destruct (base64_encode_correct (fun _ => true) (bs "user:pw") 1023) as ([E | (o & E & _ & D)] & F & _).
  - repeat constructor; unfold byte_ok; lia.
  - done.
  - split; [etrans; [by apply F | by vm_compute]|].
    assert (o = bs "dXNlcjpwdw==") as <- by (vm_compute in E |- *; congruence). exact D.
Defined.

Lemma url_encode_correct_witness :
  url_encode 64 (bs "a b/c") = bs "a%20b%2Fc" /\ percent_decode (bs "a%20b%2Fc") = bs "a b/c".
Proof.
  split; [by vm_compute|].
  refine (proj2 (proj2 (url_encode_correct (bs "a b/c") 64 _ _)) _);
    [repeat constructor; unfold byte_ok; lia | lia | by vm_compute].
Defined.

Lemma secret_decrypt_encrypt_witness :
  exists e, @secret_decrypt demo_aead (fun _ => true) (Some [1]) (Some e) = Some (bs "tok").
Proof.
  destruct (@secret_decrypt_encrypt demo_aead demo_aead_laws (replicate 24 7) [1] (bs "tok"))
    as (e & _ & _ & H).
  - apply Forall_replicate. unfold byte_ok. lia.
  - done.
  - repeat constructor; lia.
  - by exists e.
Defined.

Lemma secret_decrypt_authenticated_witness :
  exists blob, length blob = 40%nat /\
    hex_decode 40 (hex_encode (replicate 24 7 ++ replicate 15 0 ++ [168])) = Some blob.
Proof.
  destruct (@secret_decrypt_authenticated demo_aead (fun _ => true) []
    (ENC_PREFIX ++ hex_encode (replicate 24 7 ++ replicate 15 0 ++ [168])) [])
    as (blob & _ & _ & _ & _ & _ & Hd & Hl & _).
  - by vm_compute.
  - assert (length blob = 40%nat) as E by (change (84%nat = (4 + 2 * length blob)%nat) in Hl; lia).
    exists blob. split; [exact E|]. rewrite E in Hd. exact Hd.
Defined.
