(* ===== verification/SecretInterp.v ===== *)
(** * Secret placeholders: src/secret_interp.c

    Interpolation of [{{SECRET:name}}] into tool arguments and masking of
    secret values in tool results.  [alloc n] says whether [malloc(n)]
    succeeds. *)
From S2P Require Import Prelude CString Libc Buf Codec.

Definition PREFIX : cstring := bs "{{SECRET:".
Definition PREFIX_LEN : nat := 9.
Definition SUFFIX : cstring := bs "}}".
Definition SUFFIX_LEN : nat := 2.

(** src/types.h; a NULL value is [None]. *)
Record ShellSecret := mk_secret { s_name : cstring; s_value : option cstring }.

Definition strdup (alloc : Z -> bool) (s : cstring) : option cstring :=
  if alloc (zlen s + 1) then Some s else None.

Section Interp.
Context (alloc : Z -> bool).

(** [strlen(name) == name_len && strncmp(name, name_start, name_len) == 0]. *)
Definition name_matches (name name_start : cstring) (name_len : nat) : bool :=
  (length name =? name_len)%nat && starts_with name name_start.

(** The lookup loop: the first secret of that name, its value unless NULL. *)
Definition lookup_value (secrets : list ShellSecret) (name_start : cstring)
    (name_len : nat) : option cstring :=
  match List.find (fun s => name_matches (s_name s) name_start name_len) secrets with
  | Some s => s_value s
  | None => None
  end.

(** The placeholder at [p]: its value and the text after it. *)
Definition placeholder_at (secrets : list ShellSecret) (p : cstring)
    : option (cstring * cstring) :=
  if starts_with PREFIX p then
    let name_start := drop PREFIX_LEN p in
    match strstr name_start SUFFIX with
    | None => None
    | Some name_len =>
        match lookup_value secrets name_start name_len with
        | None => None
        | Some value => Some (value, drop (name_len + SUFFIX_LEN) name_start)
        end
    end
  else None.

Fixpoint interp_loop (fuel : nat) (p : cstring) (secrets : list ShellSecret) (b : Buf)
    : option Buf :=
  match p with
  | [] => Some b
  | c :: p' =>
      match fuel with
      | O => None
      | S fuel' =>
          match placeholder_at secrets p with
          | Some (value, rest) =>
              match buf_append_str alloc b value with
              | None => None
              | Some b' => interp_loop fuel' rest secrets b'
              end
          | None =>
              match buf_append_char alloc b c with
              | None => None
              | Some b' => interp_loop fuel' p' secrets b'
              end
          end
      end
  end.

(** Outer [None]: no termination; inner [None]: NULL. *)
Definition secret_interpolate (text : option cstring) (secrets : list ShellSecret)
    : option (option cstring) :=
  match text with
  | None => Some None
  | Some text =>
      match secrets with
      | [] => Some (strdup alloc text)
      | _ =>
          match interp_loop (length text) text secrets buf_zero with
          | None => None
          | Some b =>
              match fst (buf_take alloc b) with
              | None => Some (strdup alloc text)
              | Some result => Some (Some result)
              end
          end
      end
  end.

(** ** Placeholder names *)

(** The loop of [secret_placeholder_names]: [names] are those found so far,
    [cap] the capacity of their array. *)
Fixpoint names_loop (fuel : nat) (p : cstring) (names : list cstring) (cap : Z)
    : option (list cstring) :=
  match fuel with
  | O => Some names
  | S fuel' =>
      match strstr p PREFIX with
      | None => Some names
      | Some off =>
          let name_start := drop (off + PREFIX_LEN) p in
          match strstr name_start SUFFIX with
          | None => Some names
          | Some name_len =>
              let p' := drop (name_len + SUFFIX_LEN) name_start in
              let name := take name_len name_start in
              if (name_len =? 0)%nat || (128 <=? name_len)%nat
              then names_loop fuel' p' names cap
              else if existsb (fun n => name_matches n name_start name_len) names
              then names_loop fuel' p' names cap
              else
                let ncap := if cap =? 0 then 4 else cap * 2 in
                if (zlen names =? cap) && negb (alloc (ncap * 8)) then None
                else if negb (alloc (Z.of_nat name_len + 1)) then None
                else names_loop fuel' p' (names ++ [name])
                       (if zlen names =? cap then ncap else cap)
          end
      end
  end.

(** [None] is the NULL of a failed allocation; no names is the NULL of the
    other returns, with the count 0 in both cases. *)
Definition secret_placeholder_names (text : option cstring) : option (list cstring) :=
  match text with
  | None => Some []
  | Some text => names_loop (S (length text)) text [] 0
  end.

Definition used_secret_names (args : option cstring) (secrets : list ShellSecret)
    : option (list cstring) :=
  match secrets with
  | [] => Some []
  | _ =>
      match secret_placeholder_names args with
      | None => None
      | Some all => Some (filter (fun n => existsb (fun s => streq n (s_name s)) secrets = true) all)
      end
  end.

(** ** Masking *)

(** Descending length of value; the caller's secrets all have one. *)
Definition value_len (s : ShellSecret) : Z :=
  match s_value s with None => 0 | Some v => zlen v end.

Definition cmp_secret_len_desc (secrets : list ShellSecret) (ia ib : nat) : Z :=
  let len i := match secrets !! i with None => 0 | Some s => value_len s end in
  (if len ia <? len ib then 1 else 0) - (if len ia >? len ib then 1 else 0).

Fixpoint replace_loop (fuel : nat) (scan needle ph : cstring) : cstring :=
  match fuel with
  | O => scan
  | S fuel' =>
      match strstr scan needle with
      | None => scan
      | Some chunk =>
          take chunk scan ++ ph ++ replace_loop fuel' (drop (chunk + length needle) scan) needle ph
      end
  end.

(** The size [replace_all] allocates. *)
Definition replace_cap (cur_len nlen ph_len : Z) : Z :=
  cur_len + 1 + (if ph_len >? nlen then (cur_len / nlen + 1) * (ph_len - nlen) else 0).

Definition replace_all (cur needle ph : cstring) : cstring :=
  match needle with
  | [] => cur
  | _ =>
      if alloc (replace_cap (zlen cur) (zlen needle) (zlen ph))
      then replace_loop (length cur) cur needle ph
      else cur
  end.

(** [snprintf(ph, 256, ...)]; [None] when it does not fit. *)
Definition placeholder (name : cstring) : option cstring :=
  let ph := PREFIX ++ name ++ SUFFIX in
  if zlen ph >=? 256 then None else Some ph.

(** The masking of one secret: its raw value and its two encodings. *)
Definition mask_secret (cur : cstring) (s : ShellSecret) : cstring :=
  match s_value s with
  | None | Some [] => cur
  | Some value =>
      match placeholder (s_name s) with
      | None => cur
      | Some ph =>
          let cur := replace_all cur value ph in
          let b64 := b64_encode 1023 value in
          let cur := if negb (length b64 =? 0)%nat && negb (length b64 =? length value)%nat
                     then replace_all cur b64 ph else cur in
          let urlenc := url_encode 2047 value in
          if negb (length urlenc =? 0)%nat && negb (length urlenc =? length value)%nat
          then replace_all cur urlenc ph else cur
      end
  end.

Definition secret_deinterpolate `{Qsort} (text : option cstring) (secrets : list ShellSecret)
    : option cstring :=
  match text with
  | None => None
  | Some text =>
      match secrets with
      | [] => strdup alloc text
      | _ =>
          if negb (alloc (zlen secrets * 8)) then strdup alloc text
          else
            let order := qsort (cmp_secret_len_desc secrets) (seq 0 (length secrets)) in
            if negb (alloc (zlen text + 1)) then None
            else Some (fold_left (fun cur i =>
                   match secrets !! i with None => cur | Some s => mask_secret cur s end)
                   order text)
      end
  end.
End Interp.

(** ** Masking leaves no value *)

(** The text between the outer braces of a placeholder. *)
Definition ph_body (name : cstring) : cstring := bs "SECRET:" ++ name.

(** A needle the replacement text cannot contain or complete: no braces, and
    not part of the text of a placeholder. *)
Definition inert (secrets : list ShellSecret) (w : cstring) : Prop :=
  ~ "{"%char ∈ w /\ ~ "}"%char ∈ w /\ w <> [] /\
  forall s, s ∈ secrets -> ~ occurs w (ph_body (s_name s)).

(** The forms of a value that the masking is meant to catch: the value, its base64 form when
    that fits in 1023 bytes (values up to 765 bytes), and its URL form when that fits in 2047. *)
Definition b64_fits (value : cstring) : bool := (zlen value + 2) / 3 * 4 <=? 1023.
Definition url_form (value : cstring) : cstring := flat_map url_byte value.
Definition forms (value : cstring) : list cstring :=
  value :: (if b64_fits value then [b64_bytes value] else []) ++
  (if zlen (url_form value) <=? 2047 then [url_form value] else []).

(** What the code looks for: an encoder that runs out of room writes nothing. *)
Definition needles (value : cstring) : list cstring :=
  [value; b64_encode 1023 value; url_encode 2047 value].

Lemma occurs_around w a ph_name b :
  ~ "{"%char ∈ w -> ~ "}"%char ∈ w -> w <> [] -> ~ occurs w (ph_body ph_name) ->
  occurs w (a ++ (PREFIX ++ ph_name ++ SUFFIX) ++ b) -> occurs w a \/ occurs w b.
Proof.
  intros Ho Hc Hn Hb H.
  assert (Hnil : ~ occurs w []).
  { intros (l & r & E). symmetry in E. apply app_nil in E as [_ E].
    by apply app_nil in E as [E _]. }
  assert (E : (PREFIX ++ ph_name ++ SUFFIX) ++ b =
    "{"%char :: "{"%char :: ph_body ph_name ++ "}"%char :: "}"%char :: b)
    by (unfold ph_body; rewrite <- !app_assoc; reflexivity).
  rewrite E in H. apply occurs_split in H as [H | H]; [by left | | done].
  apply (occurs_split w []) in H as [H | H]; [done | | done].
  apply occurs_split in H as [H | H]; [done | | done].
  apply (occurs_split w []) in H as [H | H]; [done | by right | done].
Qed.

Lemma replace_loop_keeps fuel scan needle name w :
  ~ "{"%char ∈ w -> ~ "}"%char ∈ w -> w <> [] -> ~ occurs w (ph_body name) ->
  ~ occurs w scan -> ~ occurs w (replace_loop fuel scan needle (PREFIX ++ name ++ SUFFIX)).
Proof.
  intros Ho Hc Hn Hb. revert scan. induction fuel as [|fuel IH]; intros scan Hs; [done|].
  cbn [replace_loop]. destruct (strstr scan needle) as [n|] eqn:E; [|done].
  rewrite (strstr_drop _ _ _ E) in Hs. intros H.
  apply occurs_around in H as [H | H]; [| |done..].
  - apply Hs. by apply occurs_l.
  - revert H. apply IH. intros H. apply Hs. by apply occurs_r, occurs_r.
Qed.

Lemma replace_loop_removes fuel scan needle name :
  ~ "{"%char ∈ needle -> ~ "}"%char ∈ needle -> needle <> [] ->
  ~ occurs needle (ph_body name) -> (length scan <= fuel)%nat ->
  ~ occurs needle (replace_loop fuel scan needle (PREFIX ++ name ++ SUFFIX)).
Proof.
  intros Ho Hc Hn Hb. revert scan. induction fuel as [|fuel IH]; intros scan Hf.
  - destruct scan; simpl in Hf; [|lia]. intros (l & r & E). symmetry in E.
    apply app_nil in E as [_ E]. by apply app_nil in E as [E _].
  - cbn [replace_loop]. destruct (strstr scan needle) as [n|] eqn:E; [|by apply strstr_occurs].
    intros H. apply occurs_around in H as [H | H]; [| |done..].
    + revert H. by apply strstr_before.
    + revert H. apply IH. rewrite length_drop. destruct needle; [done|]. simpl. lia.
Qed.

Definition always (_ : Z) : bool := true.

Lemma replace_all_keeps cur needle name w :
  ~ "{"%char ∈ w -> ~ "}"%char ∈ w -> w <> [] -> ~ occurs w (ph_body name) ->
  ~ occurs w cur -> ~ occurs w (replace_all always cur needle (PREFIX ++ name ++ SUFFIX)).
Proof.
  intros. unfold replace_all. destruct needle; [done|]. simpl. by apply replace_loop_keeps.
Qed.

Lemma replace_all_removes cur needle name :
  ~ "{"%char ∈ needle -> ~ "}"%char ∈ needle -> needle <> [] ->
  ~ occurs needle (ph_body name) ->
  ~ occurs needle (replace_all always cur needle (PREFIX ++ name ++ SUFFIX)).
Proof.
  intros Ho Hc Hn Hb. unfold replace_all. destruct needle as [|c needle]; [done|].
  simpl always. cbn iota. by apply replace_loop_removes.
Qed.

Lemma b64_encode_longer cap v : v <> [] -> b64_encode cap v <> [] -> bytes_ok v ->
  length (b64_encode cap v) <> length v.
Proof.
  intros Hv. unfold b64_encode. case_if; [done|]. intros _ Hb Hl.
  rewrite b64_bytes_words in Hl by done. pose proof (b64_words_length v) as E.
  unfold zlen in E. destruct v; [done|]. simpl in *. lia.
Qed.

Lemma url_loop_same o cap v out : url_loop o cap v = Some out ->
  (length v <= length out)%nat /\ (length out = length v -> out = v).
Proof.
  revert o out. induction v as [|c v IH]; intros o out; simpl; [by intros [= <-]|].
  case_if; [done|]. destruct (url_loop _ _ _) as [r|] eqn:E; [|done]. simpl. intros [= <-].
  apply IH in E as [H1 H2]. unfold url_byte in *. case_if; simpl; split; try lia.
  intros [= Hl]. by rewrite H2.
Qed.

Lemma url_encode_same cap v : url_encode cap v <> [] ->
  length (url_encode cap v) = length v -> url_encode cap v = v.
Proof.
  unfold url_encode. destruct (url_loop 0 cap v) eqn:E; [|done]. intros _.
  by apply url_loop_same in E as [_ H].
Qed.

Lemma url_loop_all cap v : forall o, o + zlen (url_form v) <= cap -> url_loop o cap v = Some (url_form v).
Proof.
  induction v as [|c v IH]; intros o; [done|]. unfold url_form. cbn [flat_map url_loop]. rewrite zlen_app. intros H.
  pose proof (zlen_nonneg (flat_map url_byte v)). replace (_ >? cap) with false by lia.
  unfold url_form in IH. rewrite IH by lia. done.
Qed.

Lemma forms_needles v w : w ∈ forms v -> w ∈ needles v.
Proof.
  unfold forms, needles, b64_fits. intros [-> |H]%elem_of_cons; [by left|]. apply elem_of_app in H as [H|H].
  - destruct ((_ <=? 1023) : bool) eqn:E; [|by apply not_elem_of_nil in H].
    apply list_elem_of_singleton in H as ->.
    assert (b64_encode 1023 v = b64_bytes v) as <- by (unfold b64_encode; by replace (_ >? 1023) with false by lia).
    right. left.
  - destruct ((_ <=? 2047) : bool) eqn:E; [|by apply not_elem_of_nil in H].
    apply list_elem_of_singleton in H as ->.
    assert (url_encode 2047 v = url_form v) as <- by (unfold url_encode; by rewrite url_loop_all by lia).
    right. right. left.
Qed.

Section Mask.
Context (secrets : list ShellSecret).
Hypothesis fits : forall s, s ∈ secrets -> placeholder (s_name s) = Some (PREFIX ++ s_name s ++ SUFFIX).

(** Through the passes: the one that looks for the needle removes it. *)
Ltac mask_passes :=
  repeat first [solve [apply replace_all_removes; auto] | apply replace_all_keeps; auto].

Lemma mask_secret_keeps s w cur :
  s ∈ secrets -> inert secrets w -> ~ occurs w cur -> ~ occurs w (mask_secret always cur s).
Proof.
  intros Hin (Ho & Hc & Hn & Hb) Hw. unfold mask_secret.
  destruct (s_value s) as [[|c v]|]; [done | | done]. rewrite (fits _ Hin).
  repeat case_if; repeat apply replace_all_keeps; auto.
Qed.

Lemma mask_secret_removes s v w cur :
  s ∈ secrets -> s_value s = Some v -> v <> [] -> bytes_ok v ->
  w ∈ needles v -> inert secrets w -> ~ occurs w (mask_secret always cur s).
Proof.
  intros Hin Hv Hne Hbv Hw (Ho & Hc & Hn & Hb). unfold mask_secret.
  rewrite Hv, (fits _ Hin). destruct v as [|c v]; [done|].
  assert (Hlen : forall l : list Z, l <> [] -> (length l =? 0)%nat = false)
    by (intros [|]; done).
  apply elem_of_cons in Hw as [-> | Hw].
  { repeat case_if; mask_passes. }
  apply elem_of_cons in Hw as [-> | Hw].
  { rewrite (Hlen (b64_encode 1023 (c :: v))) by done.
    pose proof (b64_encode_longer 1023 (c :: v) Hne Hn Hbv) as Hl.
    apply Nat.eqb_neq in Hl. rewrite Hl. cbn [negb andb].
    case_if; mask_passes. }
  apply list_elem_of_singleton in Hw as ->.
  rewrite (Hlen (url_encode 2047 (c :: v))) by done. cbn [negb andb].
  destruct (length (url_encode 2047 (c :: v)) =? length (c :: v))%nat eqn:El; cbn [negb].
  - apply Nat.eqb_eq in El. rewrite (url_encode_same _ _ Hn El) in *.
    case_if; mask_passes.
  - mask_passes.
Qed.

Lemma mask_fold_keeps order w cur :
  inert secrets w -> ~ occurs w cur ->
  ~ occurs w (fold_left (fun cur i =>
      match secrets !! i with None => cur | Some s => mask_secret always cur s end) order cur).
Proof.
  intros Hi. revert cur. induction order as [|i order IH]; intros cur Hw; simpl; [done|].
  apply IH. destruct (secrets !! i) as [s|] eqn:E; [|done].
  apply mask_secret_keeps; [by eapply list_elem_of_lookup_2 | done | done].
Qed.

Lemma mask_fold_removes order w cur i s v :
  i ∈ order -> secrets !! i = Some s -> s_value s = Some v -> v <> [] -> bytes_ok v ->
  w ∈ needles v -> inert secrets w ->
  ~ occurs w (fold_left (fun cur i =>
      match secrets !! i with None => cur | Some s => mask_secret always cur s end) order cur).
Proof.
  intros Hi Hs Hv Hne Hb Hw Hin. revert cur.
  induction order as [|j order IH]; intros cur; [by apply not_elem_of_nil in Hi|]. simpl.
  apply elem_of_cons in Hi as [<- | Hi]; [|by apply IH].
  rewrite Hs. apply mask_fold_keeps; [done|].
  eapply mask_secret_removes; eauto using list_elem_of_lookup_2.
Qed.
End Mask.

(** ** Memory that runs out *)
Section Oom.
Context (alloc : Z -> bool).
Abbreviation failed := (exists n, alloc n = false).

Lemma replace_all_oom cur needle ph : replace_all alloc cur needle ph = replace_all always cur needle ph \/ failed.
Proof. unfold replace_all. destruct needle; [by left|]. destruct (alloc _) eqn:E; [by left|right; by eexists]. Qed.

Lemma mask_secret_oom cur s : mask_secret alloc cur s = mask_secret always cur s \/ failed.
Proof.
  unfold mask_secret. destruct (s_value s) as [[|c v]|]; [by left| |by left]. destruct (placeholder _) as [ph|]; [|by left].
  cbv zeta. destruct (replace_all_oom cur (c :: v) ph) as [-> |?]; [|by right].
  assert (forall (b : bool) x n, (if b then replace_all alloc x n ph else x) = (if b then replace_all always x n ph else x) \/ failed) as Hb
    by (intros [] x n; [apply replace_all_oom|by left]).
  match goal with |- context [if ?b then replace_all alloc ?x (b64_encode 1023 ?v) ph else _] =>
    destruct (Hb b x (b64_encode 1023 v)) as [-> |?]; [|by right] end.
  apply Hb.
Qed.

Lemma mask_all_oom (secrets : list ShellSecret) (order : list nat) : forall cur,
  let mask (al : Z -> bool) cur i := match secrets !! i with None => cur | Some s => mask_secret al cur s end in
  fold_left (mask alloc) order cur = fold_left (mask always) order cur \/ failed.
Proof.
  induction order as [|i order IH]; intros cur mask; [by left|]. cbn.
  assert (mask alloc cur i = mask always cur i \/ failed) as [-> |?]; [|apply IH|by right].
  unfold mask. destruct (secrets !! i); [apply mask_secret_oom|by left].
Qed.

Lemma deinterpolate_oom `{Qsort} text secrets :
  secret_deinterpolate alloc (Some text) secrets = secret_deinterpolate always (Some text) secrets \/ failed.
Proof.
  unfold secret_deinterpolate, strdup. cbn [always negb]. destruct secrets as [|s0 ss].
  - destruct (alloc _) eqn:E; [by left|right; by eexists].
  - destruct (alloc (zlen (s0 :: ss) * 8)) eqn:E; [|right; by eexists].
    destruct (alloc (zlen text + 1)) eqn:E1; [|right; by eexists]. cbn [negb].
    destruct (mask_all_oom (s0 :: ss) (qsort (cmp_secret_len_desc (s0 :: ss)) (seq 0 (length (s0 :: ss)))) text) as [Em|?];
      [left; by rewrite Em|by right].
Qed.
End Oom.

(** (C34) Masking removes a secret, as far as the buffers of the encoders reach: whatever
    the text and in whatever order the sort puts values of equal length, the masked result
    holds neither a value, nor its base64 form when that has at most 1023 bytes (a value of
    up to 765), nor its URL form when that has at most 2047, for every such needle
    that contains no brace and is not part of a placeholder's own text; the one other way
    through is an allocation that fails, after which the text keeps what it held.  The encoded forms of longer
    values, a PEM key for one, are not looked for ([long_base64_survives],
    [long_url_survives]). *)
Theorem secret_deinterpolate_masks `{QsortLaws} (alloc : Z -> bool) (secrets : list ShellSecret) (text r : cstring)
    (s : ShellSecret) (v w : cstring) :
  (forall s, s ∈ secrets -> zlen (s_name s) <= 244) ->
  s ∈ secrets -> s_value s = Some v -> cstr v -> v <> [] -> w ∈ forms v ->
  inert secrets w ->
  secret_deinterpolate alloc (Some text) secrets = Some r ->
  strstr r w = None \/ exists n, alloc n = false.
Proof.
  intros Hfit Hs Hv Hc Hne Hw%forms_needles Hi. destruct (deinterpolate_oom alloc text secrets) as [-> |?]; [|by right].
  intros Hr. left. revert Hr. rewrite strstr_occurs. unfold secret_deinterpolate.
  destruct secrets as [|s0 ss] eqn:Ess; [by apply not_elem_of_nil in Hs|].
  rewrite <- Ess in *. cbn [negb always]. intros [= <-].
  apply list_elem_of_lookup in Hs as [i Hs].
  eapply (mask_fold_removes secrets); eauto with cclaw.
  - intros s1 H1. specialize (Hfit s1 H1). unfold placeholder.
    rewrite !zlen_app. change (zlen PREFIX) with 9. change (zlen SUFFIX) with 2.
    by replace (_ >=? 256) with false by lia.
  - eapply elem_of_Permutation_proper; [apply qsort_perm|].
    apply elem_of_seq. apply lookup_lt_Some in Hs. lia.
Qed.

(** ** Interpolation *)

(** A text as its author means it: literal runs and placeholders. *)
Inductive tseg := TLit (s : cstring) | TPh (name : cstring).

Definition tseg_text (x : tseg) : cstring :=
  match x with TLit s => s | TPh n => PREFIX ++ n ++ SUFFIX end.

(** The first secret of exactly that name. *)
Definition secret_value (secrets : list ShellSecret) (n : cstring) : option cstring :=
  match List.find (fun s => streq (s_name s) n) secrets with
  | Some s => s_value s
  | None => None
  end.

Definition tseg_out (secrets : list ShellSecret) (x : tseg) : cstring :=
  match x with
  | TLit s => s
  | TPh n => match secret_value secrets n with Some v => v | None => tseg_text x end
  end.

Definition tseg_ok (x : tseg) : Prop :=
  match x with
  | TLit s => ~ "{"%char ∈ s
  | TPh n => ~ "{"%char ∈ n /\ ~ "}"%char ∈ n
  end.

Lemma name_matches_exact name n r :
  name_matches name (n ++ r) (length n) = streq name n.
Proof.
  unfold name_matches, streq.
  destruct (length name =? length n)%nat eqn:El; cbn [andb].
  - apply Nat.eqb_eq in El. destruct (starts_with name (n ++ r)) eqn:E.
    + apply starts_with_spec in E as [t E]. symmetry. apply bool_decide_eq_true.
      by apply app_inj_1 in E as [-> _].
    + symmetry. apply bool_decide_eq_false. intros ->. by rewrite starts_with_app in E.
  - symmetry. apply bool_decide_eq_false. intros ->. by rewrite Nat.eqb_refl in El.
Qed.

Lemma lookup_value_exact secrets n r :
  lookup_value secrets (n ++ r) (length n) = secret_value secrets n.
Proof.
  unfold lookup_value, secret_value.
  assert (E : forall s, name_matches (s_name s) (n ++ r) (length n) = streq (s_name s) n)
    by (intros s; apply name_matches_exact).
  induction secrets as [|s ss IH]; simpl; [done|]. rewrite E. by destruct (streq _ _).
Qed.

(** Without a close brace in the name the first suffix is the one after it. *)
Lemma strstr_suffix n r : ~ "}"%char ∈ n -> strstr (n ++ SUFFIX ++ r) SUFFIX = Some (length n).
Proof.
  induction n as [|c n IH]; intros Hn; [done|].
  assert (c <> "}"%char) by (intros ->; apply Hn; left).
  cbn [app strstr]. change (starts_with SUFFIX (c :: n ++ SUFFIX ++ r))
    with (("}"%char =? c) && starts_with ["}"%char] (n ++ SUFFIX ++ r)).
  replace ("}"%char =? c) with false by lia. cbn [andb]. rewrite IH; [done|].
  intros H'. apply Hn. by right.
Qed.

Lemma placeholder_at_none secrets c p : c <> "{"%char -> placeholder_at secrets (c :: p) = None.
Proof.
  intros Hc. unfold placeholder_at.
  change (starts_with PREFIX (c :: p)) with (("{"%char =? c) && starts_with (drop 1 PREFIX) p).
  by replace ("{"%char =? c) with false by lia.
Qed.

Lemma placeholder_at_ph secrets n r : ~ "}"%char ∈ n ->
  placeholder_at secrets (tseg_text (TPh n) ++ r) =
  option_map (fun v => (v, r)) (secret_value secrets n).
Proof.
  intros Hn. unfold placeholder_at. change (tseg_text (TPh n)) with (PREFIX ++ n ++ SUFFIX).
  rewrite <- app_assoc, starts_with_app.
  change PREFIX_LEN with (length PREFIX). rewrite drop_app_length, <- app_assoc.
  rewrite strstr_suffix, lookup_value_exact by done.
  destruct (secret_value secrets n) as [v|]; [|done]. cbn [option_map]. do 2 f_equal.
  change SUFFIX_LEN with (length SUFFIX). rewrite app_assoc.
  apply drop_app_length'. by rewrite length_app.
Qed.

Section InterpLoop.
Context (alloc : Z -> bool) (secrets : list ShellSecret).

Lemma interp_loop_lit fuel s rest b :
  ~ "{"%char ∈ s -> (length s <= fuel)%nat ->
  interp_loop alloc fuel (s ++ rest) secrets b =
  match buf_appends alloc b (map (fun c => [c]) s) with
  | None => None
  | Some b' => interp_loop alloc (fuel - length s) rest secrets b'
  end.
Proof.
  revert fuel b. induction s as [|c s IH]; intros fuel b Hs Hf; simpl.
  - by rewrite Nat.sub_0_r.
  - simpl in Hf. destruct fuel as [|fuel]; [lia|]. cbn [interp_loop].
    rewrite placeholder_at_none by (intros ->; apply Hs; left).
    unfold buf_append_char. destruct (buf_append alloc b [c]); [|done].
    apply IH; [|lia]. intros Hin. apply Hs. by right.
Qed.

Definition tseg_pieces (x : tseg) : list cstring :=
  match x with
  | TPh n => match secret_value secrets n with
             | Some v => [v] | None => map (fun c => [c]) (tseg_text x) end
  | TLit s => map (fun c => [c]) s
  end.

Lemma concat_singletons (s : cstring) : concat (map (fun c => [c]) s) = s.
Proof. induction s as [|c s IH]; simpl; [done|]. by rewrite IH. Qed.

Lemma tseg_pieces_concat x : concat (tseg_pieces x) = tseg_out secrets x.
Proof.
  destruct x as [s|n]; unfold tseg_pieces, tseg_out; [apply concat_singletons|].
  destruct (secret_value secrets n); [simpl; by rewrite app_nil_r | apply concat_singletons].
Qed.

(** A placeholder of no secret is copied byte by byte. *)
Lemma interp_loop_miss fuel n rest b :
  ~ "{"%char ∈ n -> ~ "}"%char ∈ n -> secret_value secrets n = None ->
  (length (tseg_text (TPh n)) <= fuel)%nat ->
  interp_loop alloc fuel (tseg_text (TPh n) ++ rest) secrets b =
  match buf_appends alloc b (map (fun c => [c]) (tseg_text (TPh n))) with
  | None => None
  | Some b' => interp_loop alloc (fuel - length (tseg_text (TPh n))) rest secrets b'
  end.
Proof.
  intros Ho Hc Hv Hf.
  assert (exists tail, tseg_text (TPh n) = "{"%char :: "{"%char :: tail /\
    ~ "{"%char ∈ tail /\ forall r, placeholder_at secrets ("{"%char :: tail ++ r) = None)
    as (tail & Et & Htail & Hnone).
  { exists (bs "SECRET:" ++ n ++ SUFFIX). split_all; [done| |done].
    rewrite !elem_of_app. intros [H | [H | H]]; [|done|];
      revert H; apply (bool_decide_unpack _); by vm_compute. }
  pose proof (placeholder_at_ph secrets n rest Hc) as Ep. rewrite Hv, Et in Ep. rewrite Et in Hf |- *.
  simpl in Hf. destruct fuel as [|[|fuel]]; [lia..|].
  cbn [app interp_loop map buf_appends length]. cbn [app] in Ep. rewrite Ep. simpl option_map.
  unfold buf_append_char. destruct (buf_append alloc b _) as [b1|]; [|done].
  rewrite Hnone.
  destruct (buf_append alloc b1 _) as [b2|]; [|done].
  rewrite interp_loop_lit by (done || lia). done.
Qed.

Lemma interp_loop_segs segs fuel b :
  Forall tseg_ok segs -> (length (concat (map tseg_text segs)) <= fuel)%nat ->
  interp_loop alloc fuel (concat (map tseg_text segs)) secrets b =
  buf_appends alloc b (concat (map tseg_pieces segs)).
Proof.
  revert fuel b. induction segs as [|x segs IH]; intros fuel b Hok Hf; [by destruct fuel|].
  cbn [map concat] in *. apply Forall_cons in Hok as [Hx Hok]. rewrite length_app in Hf.
  rewrite buf_appends_app. destruct x as [s|n].
  - rewrite interp_loop_lit by (simpl in *; done || lia). cbn [tseg_pieces].
    destruct (buf_appends alloc b _); [|done]. apply IH; [done|]. simpl in *. lia.
  - destruct Hx as [Ho Hc]. unfold tseg_pieces at 1.
    destruct (secret_value secrets n) as [v|] eqn:Ev.
    + pose proof (placeholder_at_ph secrets n (concat (map tseg_text segs)) Hc) as Ep.
      rewrite Ev in Ep. destruct fuel as [|fuel]; [simpl in Hf; lia|].
      change (tseg_text (TPh n) ++ concat (map tseg_text segs))
        with ("{"%char :: drop 1 (tseg_text (TPh n)) ++ concat (map tseg_text segs)) in Ep |- *.
      cbn [interp_loop]. rewrite Ep. simpl option_map. cbn iota. unfold buf_append_str.
      cbn [buf_appends]. destruct (buf_append alloc b v); [|done]. apply IH; [done|].
      simpl in Hf. lia.
    + rewrite interp_loop_miss by (done || lia).
      destruct (buf_appends alloc b _); [|done]. apply IH; [done | lia].
Qed.
End InterpLoop.

(** Interpolation replaces each placeholder of a known secret by that secret's
    value, exactly once: values are not rescanned, whatever placeholders they
    contain; a placeholder of an unknown name stays as it is; and when memory
    runs out the text comes back uninterpolated, never half done. *)
Theorem secret_interpolate_correct (alloc : Z -> bool) (secrets : list ShellSecret)
    (segs : list tseg) :
  Forall tseg_ok segs -> secrets <> [] ->
  zlen (concat (map (tseg_out secrets) segs)) < 2 ^ 63 ->
  exists r, secret_interpolate alloc (Some (concat (map tseg_text segs))) secrets = Some r /\
    (r = Some (concat (map (tseg_out secrets) segs)) \/
     r = strdup alloc (concat (map tseg_text segs))) /\
    ((forall n, alloc n = true) -> r = Some (concat (map (tseg_out secrets) segs))).
Proof.
  intros Hok Hne Hn. unfold secret_interpolate. destruct secrets as [|s0 ss] eqn:Ess; [done|].
  rewrite <- Ess in *. rewrite interp_loop_segs by done.
  assert (E : concat (concat (map (tseg_pieces secrets) segs)) = concat (map (tseg_out secrets) segs)).
  { clear. induction segs as [|x segs IH]; simpl; [done|].
    by rewrite concat_app, tseg_pieces_concat, IH. }
  destruct (buf_appends_appended alloc buf_zero (concat (map (tseg_pieces secrets) segs)) buf_zero_ok)
    as (b & -> & Hok' & D & _ & A); [rewrite E; unfold zlen at 1; simpl; lia|].
  simpl in D, A. rewrite E in D.
  destruct (buf_take_result alloc b _ Hok' D) as [[R | R] R2]; rewrite R;
    (eexists; split; [done|]); (split; [by auto|]).
  - done.
  - intros Hall. rewrite R2 in R by auto. done.
Qed.

(** ** Placeholder names *)
Definition add_name (names : list cstring) (n : cstring) : list cstring :=
  if (length n =? 0)%nat || (128 <=? length n)%nat then names
  else if existsb (fun m => streq m n) names then names else names ++ [n].

Definition ph_names (segs : list tseg) : list cstring :=
  omap (fun x => match x with TPh n => Some n | TLit _ => None end) segs.

Lemma strstr_prefix_lit s r :
  ~ "{"%char ∈ s -> strstr (s ++ r) PREFIX = option_map (plus (length s)) (strstr r PREFIX).
Proof.
  induction s as [|c s IH]; intros Hs; simpl app; [by destruct (strstr r PREFIX)|].
  assert (c <> "{"%char) by (intros ->; apply Hs; left).
  cbn [strstr]. change (starts_with PREFIX (c :: s ++ r))
    with (("{"%char =? c) && starts_with (drop 1 PREFIX) (s ++ r)).
  replace ("{"%char =? c) with false by lia. cbn [andb].
  rewrite IH by (intros H'; apply Hs; by right). by destruct (strstr r PREFIX).
Qed.

Lemma strstr_prefix_ph n r : strstr (tseg_text (TPh n) ++ r) PREFIX = Some 0%nat.
Proof. done. Qed.

Lemma names_loop_lit alloc fuel s r names cap :
  ~ "{"%char ∈ s ->
  names_loop alloc fuel (s ++ r) names cap = names_loop alloc fuel r names cap.
Proof.
  intros Hs. destruct fuel as [|fuel]; [done|]. cbn [names_loop].
  rewrite strstr_prefix_lit by done. destruct (strstr r PREFIX) as [off|]; [|done].
  cbn [option_map]. rewrite <- Nat.add_assoc, <- drop_drop, drop_app_length. done.
Qed.

Lemma names_loop_segs segs fuel names cap :
  Forall tseg_ok segs -> (length (concat (map tseg_text segs)) < fuel)%nat ->
  names_loop always fuel (concat (map tseg_text segs)) names cap =
  Some (fold_left add_name (ph_names segs) names).
Proof.
  revert fuel names cap. induction segs as [|x segs IH]; intros fuel names cap Hok Hf.
  - by destruct fuel.
  - apply Forall_cons in Hok as [Hx Hok]. cbn [map concat] in *. rewrite length_app in Hf.
    destruct x as [s|n].
    + rewrite names_loop_lit by done. simpl in *. apply IH; [done|lia].
    + destruct Hx as [Ho Hc]. destruct fuel as [|fuel]; [lia|].
      cbn [names_loop]. rewrite strstr_prefix_ph. cbn [plus].
      change (tseg_text (TPh n)) with (PREFIX ++ n ++ SUFFIX) in *.
      rewrite <- app_assoc. change PREFIX_LEN with (length PREFIX).
      rewrite drop_app_length, <- app_assoc, strstr_suffix by done.
      assert (Ed : drop (length n + SUFFIX_LEN) (n ++ SUFFIX ++ concat (map tseg_text segs)) =
        concat (map tseg_text segs)).
      { change SUFFIX_LEN with (length SUFFIX). rewrite app_assoc.
        apply drop_app_length'. by rewrite length_app. }
      rewrite Ed, take_app_length. rewrite !length_app in Hf.
      change (length PREFIX) with 9%nat in Hf.
      assert (Hx : forall l, existsb (fun m => name_matches m (n ++ SUFFIX ++ concat (map tseg_text segs)) (length n)) l
        = existsb (fun m => streq m n) l).
      { intros l. induction l as [|m l IHl]; cbn [existsb]; [done|]. by rewrite name_matches_exact, IHl. }
      rewrite Hx. simpl ph_names. cbn [fold_left]. unfold add_name at 2.
      repeat case_if; try discriminate; try (apply IH; [done|lia]);
        rewrite ?andb_false_r in *; done.
Qed.

Lemma add_name_mem names n m :
  m ∈ add_name names n <-> m ∈ names \/ (m = n /\ (0 < length n < 128)%nat).
Proof.
  unfold add_name. case_if.
  - split; [by left|]. intros [H | [-> H]]; [done|]. exfalso. apply orb_true_iff in Heqb as [E|E];
      [apply Nat.eqb_eq in E | apply Nat.leb_le in E]; lia.
  - apply orb_false_iff in Heqb as [E1 E2]. apply Nat.eqb_neq in E1. apply Nat.leb_gt in E2.
    case_if.
    + split; [by left|]. intros [H | [-> _]]; [done|].
      apply existsb_exists in Heqb as (k & Hk & Ek). unfold streq in Ek.
      apply bool_decide_eq_true in Ek as ->. by apply list_elem_of_In.
    + rewrite elem_of_app, list_elem_of_singleton. intuition lia.
Qed.

Lemma add_name_nodup names n : NoDup names -> NoDup (add_name names n).
Proof.
  intros Hn. unfold add_name. case_if; [done|]. case_if; [done|].
  apply NoDup_app. split_all; [done | | apply NoDup_singleton].
  intros m Hm ->%list_elem_of_singleton.
  assert (existsb (fun m => streq m n) names = true); [|congruence].
  apply existsb_exists. exists n. split; [by apply list_elem_of_In | by apply bool_decide_eq_true].
Qed.

Lemma fold_add_name ns names m :
  m ∈ fold_left add_name ns names <-> m ∈ names \/ (m ∈ ns /\ (0 < length m < 128)%nat).
Proof.
  revert names. induction ns as [|n ns IH]; intros names; simpl.
  - rewrite elem_of_nil. tauto.
  - rewrite IH, add_name_mem, elem_of_cons. split; [|].
    + intros [[H | [-> H]] | H]; [by left | right; split; [by left | done] |].
      right. split; [right; apply H | apply H].
    + intros [H | [[-> | H] H']]; [by left; left | left; by right | right; by split].
Qed.

Lemma fold_add_name_nodup ns names : NoDup names -> NoDup (fold_left add_name ns names).
Proof.
  revert names. induction ns as [|n ns IH]; intros names Hn; simpl; [done|].
  by apply IH, add_name_nodup.
Qed.

(** The names a tool call's arguments use are exactly the names of loaded
    secrets that appear in a placeholder and are shorter than 128 bytes, each
    listed once: these are the secrets the host checks run for. *)
Theorem used_secret_names_correct (secrets : list ShellSecret) (segs : list tseg) (n : cstring) :
  Forall tseg_ok segs ->
  exists ns, used_secret_names (fun _ => true) (Some (concat (map tseg_text segs))) secrets = Some ns /\
    NoDup ns /\
    (n ∈ ns <-> n ∈ ph_names segs /\ n ∈ map s_name secrets /\ (0 < length n < 128)%nat).
Proof.
  intros Hok. unfold used_secret_names.
  assert (Hin : existsb (fun s => streq n (s_name s)) secrets = true <-> n ∈ map s_name secrets).
  { rewrite list_elem_of_fmap, existsb_exists. unfold streq. split.
    - intros (s & Hs & E). apply bool_decide_eq_true in E. exists s. by rewrite list_elem_of_In.
    - intros (s & E & Hs). exists s. rewrite <- list_elem_of_In. split; [done|].
      by apply bool_decide_eq_true. }
  destruct secrets as [|s0 ss] eqn:Es.
  - exists []. split; [done|]. split; [constructor|]. simpl. rewrite elem_of_nil. tauto.
  - rewrite <- Es in *. unfold secret_placeholder_names.
    rewrite names_loop_segs by (done || lia). eexists. split; [done|]. split.
    + apply NoDup_filter, fold_add_name_nodup. constructor.
    + rewrite list_elem_of_filter, fold_add_name, Hin, elem_of_nil. tauto.
Qed.

(** The buffer [replace_all] allocates holds its result and the terminator. *)
Lemma replace_loop_fits fuel scan needle ph :
  needle <> [] ->
  zlen (replace_loop fuel scan needle ph) + 1 <=
    replace_cap (zlen scan) (zlen needle) (zlen ph).
Proof.
  intros Hn. assert (Hnl : 0 < zlen needle) by (destruct needle; [done|]; unfold zlen; simpl; lia).
  assert (Hle : zlen (replace_loop fuel scan needle ph) <=
    zlen scan + zlen scan / zlen needle * Z.max 0 (zlen ph - zlen needle)).
  { revert scan. induction fuel as [|fuel IH]; intros scan; cbn [replace_loop].
    - pose proof (zlen_nonneg scan). assert (0 <= zlen scan / zlen needle) by (apply Z.div_pos; lia). nia.
    - destruct (strstr scan needle) as [n|] eqn:E;
        [|pose proof (zlen_nonneg scan); assert (0 <= zlen scan / zlen needle) by (apply Z.div_pos; lia); nia].
      specialize (IH (drop (n + length needle) scan)).
      pose proof (f_equal zlen (strstr_drop _ _ _ E)) as Hl. rewrite !zlen_app in Hl.
      rewrite !zlen_app. set (d := drop (n + length needle) scan) in *.
      pose proof (zlen_nonneg (take n scan)).
      assert (zlen d / zlen needle + 1 <= zlen scan / zlen needle).
      { replace (zlen d / zlen needle + 1) with ((zlen d + 1 * zlen needle) / zlen needle)
          by (rewrite Z.div_add; lia). apply Z.div_le_mono; lia. }
      assert (zlen d / zlen needle * Z.max 0 (zlen ph - zlen needle) + Z.max 0 (zlen ph - zlen needle)
        <= zlen scan / zlen needle * Z.max 0 (zlen ph - zlen needle)) by nia.
      lia. }
  unfold replace_cap. case_if; nia.
Qed.

(** ** What the code does not promise *)

(** A value whose base64 form is part of the word SECRET is masked inside the
    placeholder an earlier secret just got. *)
Lemma deinterpolate_rehits :
  @secret_deinterpolate always isort (Some (bs "hunter22"))
    [mk_secret (bs "A") (Some (bs "hunter22")); mk_secret (bs "B") (Some [0x48; 0x40; 0x91])] =
  Some (bs "{{{{SECRET:B}}ET:A}}").
Proof. by vm_compute. Qed.

(** A value of 766 bytes has a base64 form of 1024: the encoder writes nothing, and the form
    comes through; so does the URL form of a value of 683 bytes that are all escaped. *)
Example long_base64_survives :
  let v := replicate 766 "a"%char in
  @secret_deinterpolate always isort (Some (b64_bytes v)) [mk_secret (bs "KEY") (Some v)] = Some (b64_bytes v).
Proof. by vm_compute. Qed.

Example long_url_survives :
  let v := replicate 683 "/"%char in
  @secret_deinterpolate always isort (Some (url_form v)) [mk_secret (bs "KEY") (Some v)] = Some (url_form v).
Proof. by vm_compute. Qed.

(** A replacement that finds no memory leaves the secret in the text. *)
Example failed_replacement_leaks :
  @secret_deinterpolate (fun n => n <? 20) isort (Some (bs "x=hunter22")) [mk_secret (bs "PW") (Some (bs "hunter22"))] =
  Some (bs "x=hunter22").
Proof. by vm_compute. Qed.

(** A placeholder of an unknown name stays in the text. *)
Lemma interpolate_unknown_name :
  secret_interpolate always (Some (bs "{{SECRET:NONE}}")) [mk_secret (bs "A") (Some (bs "v"))] =
  Some (Some (bs "{{SECRET:NONE}}")).
Proof. by vm_compute. Qed.

(** ** Witnesses *)
Definition demo_secrets : list ShellSecret :=
  [mk_secret (bs "TOK") (Some (bs "abc123")); mk_secret (bs "PW") (Some (bs "p/w {{SECRET:TOK}}"))].

Lemma not_occurs w s : strstr s w = None -> ~ occurs w s.
Proof. apply strstr_occurs. Qed.

(** Decide [inert] by evaluation. *)
Lemma inert_dec secrets w :
  forallb (fun c => negb (c =? "{"%char) && negb (c =? "}"%char)) w = true ->
  negb (bool_decide (w = [])) = true ->
  forallb (fun s => bool_decide (strstr (ph_body (s_name s)) w = None)) secrets = true ->
  inert secrets w.
Proof.
  intros Hb Hn Hs. rewrite forallb_forall in Hb, Hs. unfold inert. split_all.
  - intros Hin. apply list_elem_of_In, Hb in Hin. lia.
  - intros Hin. apply list_elem_of_In, Hb in Hin. lia.
  - intros ->. done.
  - intros s Hin. apply list_elem_of_In, Hs, bool_decide_eq_true in Hin. by apply not_occurs.
Qed.

Lemma secret_deinterpolate_masks_witness :
  exists r, @secret_deinterpolate (fun _ => true) isort (Some (bs "x=abc123; YWJjMTIz")) demo_secrets = Some r /\
    strstr r (bs "abc123") = None /\ strstr r (bs "YWJjMTIz") = None.
Proof.
  eexists. split; [reflexivity|].
  assert (F : forall s, s ∈ demo_secrets -> zlen (s_name s) <= 244).
  { apply Forall_forall. by repeat constructor. }
  assert (K : forall (P : Prop), P \/ (exists n : Z, true = false) -> P) by (intros P [H|[n H]]; [exact H|discriminate H]).
  split; apply K.
  - eapply (@secret_deinterpolate_masks isort isort_laws (fun _ => true) demo_secrets (bs "x=abc123; YWJjMTIz") _
      (mk_secret (bs "TOK") (Some (bs "abc123"))) (bs "abc123") (bs "abc123"));
      [exact F | left | done | repeat constructor; lia | done | left | by apply inert_dec; vm_compute | reflexivity].
  - eapply (@secret_deinterpolate_masks isort isort_laws (fun _ => true) demo_secrets (bs "x=abc123; YWJjMTIz") _
      (mk_secret (bs "TOK") (Some (bs "abc123"))) (bs "abc123") (bs "YWJjMTIz"));
      [exact F | left | done | repeat constructor; lia | done | right; left
      | by apply inert_dec; vm_compute | reflexivity].
Defined.

Lemma secret_interpolate_correct_witness :
  secret_interpolate (fun _ => true) (Some (bs "u {{SECRET:PW}} {{SECRET:X}}")) demo_secrets =
  Some (Some (bs "u p/w {{SECRET:TOK}} {{SECRET:X}}")).
Proof.
  destruct (secret_interpolate_correct (fun _ => true) demo_secrets
    [TLit (bs "u "); TPh (bs "PW"); TLit (bs " "); TPh (bs "X")]) as (r & E & _ & H).
  - repeat constructor; apply (bool_decide_unpack _); by vm_compute.
  - done.
  - by vm_compute.
  - etrans; [exact E|]. f_equal. by apply H.
Defined.

Lemma used_secret_names_correct_witness :
  exists ns, used_secret_names (fun _ => true)
    (Some (bs "{{SECRET:TOK}}{{SECRET:X}}{{SECRET:TOK}}")) demo_secrets = Some ns /\
    NoDup ns /\ bs "TOK" ∈ ns.
Proof.
  destruct (used_secret_names_correct demo_secrets
    [TPh (bs "TOK"); TPh (bs "X"); TPh (bs "TOK")] (bs "TOK")) as (ns & E & Hn & H).
  - repeat constructor; apply (bool_decide_unpack _); by vm_compute.
  - exists ns. split; [exact E|]. split; [exact Hn|]. apply H.
    split; [left|]. split; [left|]. simpl. lia.
Defined.
