(* ===== verification/ExternalContent.v ===== *)
(** * Untrusted-content markers: src/external_content.c

    The scan that defuses forged fence markers in tool results, with its
    homoglyph folding.  A position in the text is the suffix it starts; the
    fuel of the loops is the length of the text. *)
From S2P Require Import Prelude CString Unicode Buf.

Definition MARKER_NAME : cstring := bs "UNTRUSTED_EXTERNAL_CONTENT".
Definition END_MARKER_NAME : cstring := bs "END_UNTRUSTED_EXTERNAL_CONTENT".
Definition MARKER_SANITIZED : cstring := bs "[[MARKER_SANITIZED]]".
Definition END_MARKER_SANITIZED : cstring := bs "[[END_MARKER_SANITIZED]]".

(** The code point at the head of a non-empty text and how far to advance. *)
Definition decode_utf8 (s : list Z) : Z * nat :=
  let c := deref s in
  if c <? 0x80 then (c, 1%nat)
  else
    let seq cp extra :=
      if (length s <? 1 + extra)%nat then (c, 1%nat)
      else match decode_conts extra cp (tl s) with
           | None => (c, 1%nat)
           | Some cp => (cp, (1 + extra)%nat)
           end in
    if Z.land c 0xE0 =? 0xC0 then seq (Z.land c 0x1F) 1%nat
    else if Z.land c 0xF0 =? 0xE0 then seq (Z.land c 0x0F) 2%nat
    else if Z.land c 0xF8 =? 0xF0 then seq (Z.land c 0x07) 3%nat
    else (c, 1%nat).
Arguments decode_utf8 : simpl never.

Definition fold_homoglyph (cp : Z) : Z :=
  if existsb (Z.eqb cp) [0xFF1C; 0x2329; 0x3008; 0x2039; 0x27E8; 0xFE64; 0x00AB; 0x300A]
  then "<"%char
  else if existsb (Z.eqb cp) [0xFF1E; 0x232A; 0x3009; 0x203A; 0x27E9; 0xFE65; 0x00BB; 0x300B]
  then ">"%char
  else if in_range 0xFF21 0xFF3A cp || in_range 0xFF41 0xFF5A cp then cp - 0xFEE0
  else 0.
Arguments fold_homoglyph : simpl never.

(** The ASCII character a code point stands for, 0 for none. *)
Definition folded_char (cp : Z) : Z :=
  let folded := fold_homoglyph cp in
  if negb (folded =? 0) then folded else if cp <? 128 then cp else 0.

Fixpoint match_normalized (s : list Z) (lit : cstring) : option (list Z) :=
  match lit with
  | [] => Some s
  | l :: lit' =>
      match s with
      | [] => None
      | _ =>
          let (cp, n) := decode_utf8 s in
          let actual := folded_char cp in
          if actual =? 0 then None
          else
            let a := if in_range "A"%char "Z"%char actual then actual + 32 else actual in
            let e := if in_range "A"%char "Z"%char l then l + 32 else l in
            if negb (a =? e) then None else match_normalized (drop n s) lit'
      end
  end.

Definition match_triple_open (s : list Z) : option (list Z) :=
  match_normalized s (bs "<<<").

Fixpoint close_loop (fuel : nat) (scan : list Z) : option (list Z) :=
  match fuel, scan with
  | S fuel', _ :: _ =>
      match match_normalized scan (bs ">>>") with
      | Some e => Some e
      | None => close_loop fuel' (drop (snd (decode_utf8 scan)) scan)
      end
  | _, _ => None
  end.

Definition match_triple_close (s : list Z) : option (list Z) := close_loop (length s) s.

(** The marker at the head of the text: what replaces it and the text after. *)
Definition marker (s : list Z) : option (cstring * list Z) :=
  match match_triple_open s with
  | None => None
  | Some after_open =>
      let try name token :=
        match match_normalized after_open name with
        | None => None
        | Some after_name =>
            option_map (fun e => (token, e)) (match_triple_close after_name)
        end in
      match try END_MARKER_NAME END_MARKER_SANITIZED with
      | Some r => Some r
      | None => try MARKER_NAME MARKER_SANITIZED
      end
  end.

Fixpoint markers_loop (alloc : Z -> bool) (fuel : nat) (s : list Z) (out : Buf) : option Buf :=
  match s with
  | [] => Some out
  | c :: s' =>
      match fuel with
      | O => None
      | S fuel' =>
          match marker s with
          | Some (token, e) =>
              match buf_append alloc out token with
              | None => None
              | Some out => markers_loop alloc fuel' e out
              end
          | None =>
              match buf_append alloc out [c] with
              | None => None
              | Some out => markers_loop alloc fuel' s' out
              end
          end
      end
  end.

(** Outer [None]: no termination; inner [None]: NULL. *)
Definition sanitize_markers (alloc : Z -> bool) (content : list Z) : option (option (list Z)) :=
  match markers_loop alloc (length content) content buf_zero with
  | None => None
  | Some out => Some (fst (buf_take alloc out))
  end.

(** ** Decoding and concatenation *)

Definition noncont (x : Z) : Prop := (Z.land x 0xC0 =? 0x80) = false.

Lemma decode_conts_split k v t x X :
  noncont x ->
  ((k <= length t)%nat -> forall m, decode_conts k v (t ++ m) = decode_conts k v (t ++ x :: X)) /\
  ((length t < k)%nat -> decode_conts k v (t ++ x :: X) = None).
Proof.
  intros Hx. revert v t. induction k as [|k IH]; intros v t; [split; [done | lia]|].
  destruct t as [|b t]; simpl.
  - split; [lia|]. intros _. by rewrite Hx.
  - destruct (IH (Z.lor (Z.shiftl v 6) (Z.land b 0x3F)) t) as [H1 H2].
    split; intros Hk; case_if; try done.
    + intros m. apply H1. lia.
    + apply H2. lia.
Qed.

(** A byte that folds to a character on its own starts no sequence. *)
Lemma folded_raw c : byte_ok c -> (c <? 0x80) = false -> folded_char c <> 0 ->
  (Z.land c 0xE0 =? 0xC0) = false /\ (Z.land c 0xF0 =? 0xE0) = false /\
  (Z.land c 0xF8 =? 0xF0) = false.
Proof.
  intros Hc Hge Hf.
  pose (P c := (c <? 0x80) || (folded_char c =? 0) ||
    (negb (Z.land c 0xE0 =? 0xC0) && negb (Z.land c 0xF0 =? 0xE0) && negb (Z.land c 0xF8 =? 0xF0))).
  assert (HP : P c = true) by (apply byte_forall; [by vm_compute | done]).
  unfold P in HP. rewrite Hge in HP. replace (folded_char c =? 0) with false in HP by lia.
  simpl in HP. rewrite !andb_true_iff, !negb_true_iff in HP. tauto.
Qed.

Lemma decode_prefix c u x X :
  byte_ok c -> noncont x ->
  let '(cp, n) := decode_utf8 (c :: u ++ x :: X) in
  (1 <= n <= S (length u))%nat /\
  (folded_char cp <> 0 -> forall m, decode_utf8 (c :: u ++ m) = (cp, n)).
Proof.
  intros Hc Hx. unfold decode_utf8, deref. cbn [hd tl length].
  destruct (c <? 0x80) eqn:E80; [split; [lia | done]|].
  assert (Hseq : forall v extra,
    (folded_char c <> 0 -> False) ->
    let '(cp, n) := (if (S (length (u ++ x :: X)) <? 1 + extra)%nat then (c, 1%nat)
      else match decode_conts extra v (u ++ x :: X) with
           | None => (c, 1%nat) | Some cp => (cp, (1 + extra)%nat) end) in
    (1 <= n <= S (length u))%nat /\
    (folded_char cp <> 0 -> forall m,
      (if (S (length (u ++ m)) <? 1 + extra)%nat then (c, 1%nat)
       else match decode_conts extra v (u ++ m) with
            | None => (c, 1%nat) | Some cp => (cp, (1 + extra)%nat) end) = (cp, n))).
  { intros v extra Hraw. destruct (decode_conts_split extra v u x X Hx) as [H1 H2].
    destruct (_ <? _)%nat eqn:El; [split; [lia | intros Hf; by apply Hraw in Hf]|].
    destruct (decode_conts extra v (u ++ x :: X)) as [cp|] eqn:Ed;
      [|split; [lia | intros Hf; by apply Hraw in Hf]].
    assert (extra <= length u)%nat.
    { destruct (decide (extra <= length u)%nat); [done|]. specialize (H2 ltac:(lia)). done. }
    split; [lia|]. intros _ m. rewrite length_app, (H1 ltac:(done) m).
    by replace (_ <? _)%nat with false by (symmetry; apply Nat.ltb_ge; lia). }
  assert (Hraw : (Z.land c 0xE0 =? 0xC0) || (Z.land c 0xF0 =? 0xE0) || (Z.land c 0xF8 =? 0xF0) = true ->
    folded_char c <> 0 -> False).
  { intros E Hf. destruct (folded_raw c Hc E80 Hf) as (E1 & E2 & E3). by rewrite E1, E2, E3 in E. }
  destruct (Z.land c 0xE0 =? 0xC0); [by apply Hseq, Hraw|].
  destruct (Z.land c 0xF0 =? 0xE0); [by apply Hseq, Hraw|].
  destruct (Z.land c 0xF8 =? 0xF0); [by apply Hseq, Hraw|].
  split; [lia | done].
Qed.

Lemma decode_length s : s <> [] -> (1 <= snd (decode_utf8 s) <= length s)%nat.
Proof.
  intros Hs. destruct s as [|c s]; [done|]. unfold decode_utf8, deref. cbn [hd tl length].
  assert (forall v extra, (1 <= snd (if (S (length s) <? 1 + extra)%nat then (c, 1%nat)
      else match decode_conts extra v s with
           | None => (c, 1%nat) | Some cp => (cp, (1 + extra)%nat) end) <= S (length s))%nat).
  { intros v extra. destruct (_ <? _)%nat eqn:E; simpl; [lia|]. apply Nat.ltb_ge in E.
    destruct (decode_conts _ _ _); simpl; lia. }
  destruct (c <? 0x80); [simpl; lia|].
  destruct (Z.land c 0xE0 =? 0xC0); [done|]. destruct (Z.land c 0xF0 =? 0xE0); [done|].
  destruct (Z.land c 0xF8 =? 0xF0); [done | simpl; lia].
Qed.

(** ** Matching and concatenation *)

(** A match that ends before a non-continuation byte the literal does not
    contain is a match of the text before it, whatever follows. *)
Lemma match_transfer lit u X r :
  bytes_ok u -> forallb (fun c => negb (c =? "["%char) && negb (c =? "{"%char)) lit = true ->
  match_normalized (u ++ "["%char :: X) lit = Some r ->
  exists r', r = r' ++ "["%char :: X /\ bytes_ok r' /\
    forall m, match_normalized (u ++ m) lit = Some (r' ++ m).
Proof.
  revert u. induction lit as [|l lit IH]; intros u Hu Hl.
  - simpl. intros [= <-]. by exists u.
  - simpl in Hl. apply andb_true_iff in Hl as [Hl1 Hl].
    destruct u as [|c u].
    + cbn [app match_normalized]. change (decode_utf8 ("["%char :: X)) with ("["%char, 1%nat).
      cbv beta iota zeta. change (folded_char "["%char) with "["%char. cbn [Z.eqb Pos.eqb].
      change (in_range "A"%char "Z"%char "["%char) with false. cbn iota.
      match goal with |- (if ?b then _ else _) = _ -> _ => destruct b eqn:E end; [done|].
      exfalso. unfold in_range in E. revert E. case_if; lia.
    + apply bytes_ok_cons in Hu as [Hc Hu]. cbn [app match_normalized].
      pose proof (decode_prefix c u "["%char X Hc eq_refl) as Hd.
      destruct (decode_utf8 (c :: u ++ "["%char :: X)) as [cp n]. destruct Hd as [Hn Hd].
      destruct (folded_char cp =? 0) eqn:Ef; [done|].
      match goal with |- (if ?b then _ else _) = _ -> _ => destruct b eqn:Ea end; [done|].
      replace (drop n (c :: u ++ "["%char :: X)) with (drop n (c :: u) ++ "["%char :: X)
        by (rewrite (app_comm_cons u), (drop_app_le (c :: u)) by (simpl; lia); done).
      intros H. destruct (IH (drop n (c :: u))) as (r' & -> & Hr & Hm); [| done | done |].
      { apply Forall_drop. by apply bytes_ok_cons. }
      exists r'. split; [done|]. split; [done|]. intros m.
      rewrite (Hd ltac:(lia) m), Ef, Ea, app_comm_cons, drop_app_le by (simpl; lia). apply Hm.
Qed.

Lemma match_suffix s lit r :
  match_normalized s lit = Some r -> exists k, r = drop k s /\ (length lit <= k <= length s)%nat.
Proof.
  revert s. induction lit as [|l lit IH]; intros s; cbn [match_normalized length].
  - intros [= <-]. exists 0%nat. rewrite drop_0. split; [done|lia].
  - destruct s as [|c s]; [done|].
    pose proof (decode_length (c :: s) ltac:(done)) as Hn.
    destruct (decode_utf8 (c :: s)) as [cp n]. cbn [snd] in Hn.
    destruct (folded_char cp =? 0); [done|]. destruct (negb _); [done|].
    intros (k & -> & Hk)%IH. rewrite length_drop in Hk.
    exists (n + k)%nat. rewrite drop_drop. split; [done|]. simpl length in *. lia.
Qed.

(** The head of a matched literal that starts with a letter is no continuation. *)
Lemma match_head s l lit r :
  bytes_ok s -> is_upper l = true -> match_normalized s (l :: lit) = Some r ->
  exists x t, s = x :: t /\ noncont x.
Proof.
  intros Hs Hl. destruct s as [|c s]; [done|]. apply bytes_ok_cons in Hs as [Hc _].
  intros H. exists c, s. split; [done|]. unfold noncont.
  destruct (Z.land c 0xC0 =? 0x80) eqn:E; [|done]. exfalso.
  pose (P c := negb (Z.land c 0xC0 =? 0x80) ||
    (negb (c <? 0x80) && negb (Z.land c 0xE0 =? 0xC0) && negb (Z.land c 0xF0 =? 0xE0) &&
     negb (Z.land c 0xF8 =? 0xF0) && negb (is_upper (folded_char c)) && negb (is_lower (folded_char c)))).
  assert (HP : P c = true) by (apply byte_forall; [by vm_compute | done]).
  unfold P in HP. rewrite E in HP. simpl in HP. rewrite !andb_true_iff, !negb_true_iff in HP.
  destruct HP as [[[[[E1 E2] E3] E4] E5] E6].
  cbn [match_normalized] in H. unfold decode_utf8, deref in H. cbn [hd] in H.
  rewrite E1, E2, E3, E4 in H. destruct (folded_char c =? 0); [done|].
  unfold is_upper, is_lower in *. rewrite Hl, E5 in H.
  destruct (negb (folded_char c =? l + 32)) eqn:Ea; [done|]. unfold in_range in *. lia.
Qed.

(** ** The search for a closing fence *)

Lemma close_loop_fuel f1 f2 s :
  (length s <= f1)%nat -> (length s <= f2)%nat -> close_loop f1 s = close_loop f2 s.
Proof.
  revert f2 s. induction f1 as [|f1 IH]; intros f2 s H1 H2;
    (destruct s as [|c s]; [by destruct f2|]); simpl in H1; [lia|].
  destruct f2 as [|f2]; simpl in H2; [lia|]. cbn [close_loop].
  destruct (match_normalized (c :: s) (bs ">>>")); [done|].
  pose proof (decode_length (c :: s) ltac:(done)) as Hn. simpl length in Hn.
  apply IH; rewrite length_drop; simpl length; lia.
Qed.

Lemma close_step s : s <> [] ->
  match_triple_close s =
  match match_normalized s (bs ">>>") with
  | Some e => Some e
  | None => match_triple_close (drop (snd (decode_utf8 s)) s)
  end.
Proof.
  intros Hs. destruct s as [|c s]; [done|]. unfold match_triple_close at 1.
  cbn [length close_loop]. destruct (match_normalized (c :: s) (bs ">>>")); [done|].
  pose proof (decode_length (c :: s) Hs). apply close_loop_fuel; [|done].
  rewrite length_drop. simpl length in *. lia.
Qed.

(** The scan reaches every position that is not inside a sequence. *)
Lemma close_app a x X :
  bytes_ok a -> noncont x -> match_triple_close (x :: X) <> None ->
  match_triple_close (a ++ x :: X) <> None.
Proof.
  intros Ha Hx Hc. remember (length a) as k eqn:Ek.
  revert a Ha Ek. induction k as [k IH] using lt_wf_ind. intros a Ha Ek.
  destruct a as [|c a]; [done|]. rewrite close_step by done.
  destruct (match_normalized _ _); [done|].
  assert (Hb : byte_ok c) by (apply bytes_ok_cons in Ha; tauto).
  pose proof (decode_prefix c a x X Hb Hx) as Hd. simpl app.
  destruct (decode_utf8 (c :: a ++ x :: X)) as [cp n]. destruct Hd as [Hn _]. cbn [snd].
  rewrite (app_comm_cons a), drop_app_le by (simpl; lia).
  apply (IH (length (drop n (c :: a)))); [rewrite length_drop, Ek; simpl; lia | | done].
  by apply Forall_drop.
Qed.

Lemma close_match s lit r :
  match_normalized s lit = Some r -> match_triple_close r <> None -> match_triple_close s <> None.
Proof.
  revert s. induction lit as [|l lit IH]; intros s; simpl; [by intros [= <-]|].
  destruct s as [|c s]; [done|]. intros H Hr. rewrite close_step by done.
  destruct (match_normalized (c :: s) (bs ">>>")); [done|].
  destruct (decode_utf8 (c :: s)) as [cp n]. cbn [snd].
  destruct (folded_char cp =? 0); [done|]. destruct (negb _); [done|]. by eapply IH.
Qed.

(** ** Markers *)
Definition marker_names : list cstring := [END_MARKER_NAME; MARKER_NAME].

Lemma marker_none s :
  marker s = None <->
  forall ao name an, match_triple_open s = Some ao -> name ∈ marker_names ->
    match_normalized ao name = Some an -> match_triple_close an = None.
Proof.
  unfold marker. destruct (match_triple_open s) as [ao|]; [|by split].
  assert (Hx : forall name tok, match match_normalized ao name with
     | None => None | Some an => option_map (fun e => (tok, e)) (match_triple_close an) end
       = (None : option (cstring * list Z)) <->
     forall an, match_normalized ao name = Some an -> match_triple_close an = None).
  { intros name tok. destruct (match_normalized ao name) as [an|].
    - destruct (match_triple_close an) eqn:E; simpl; split; try done.
      + intros H. by rewrite (H an eq_refl) in E.
      + by intros _ an' [= <-].
    - by split. }
  split.
  - intros H ao' name an [= <-] Hn Hm.
    match type of H with match ?m with _ => _ end = None => destruct m eqn:E1 end; [done|].
    apply elem_of_cons in Hn as [-> | Hn]; [exact (proj1 (Hx _ _) E1 an Hm)|].
    apply list_elem_of_singleton in Hn as ->. exact (proj1 (Hx _ _) H an Hm).
  - intros H. rewrite (proj2 (Hx END_MARKER_NAME END_MARKER_SANITIZED)).
    + apply Hx. intros an. apply (H ao MARKER_NAME an eq_refl). right. left.
    + intros an. apply (H ao END_MARKER_NAME an eq_refl). left.
Qed.

Lemma close_suffix s e : match_triple_close s = Some e -> exists k, e = drop k s.
Proof.
  unfold match_triple_close. generalize (length s) as f. intros f.
  revert s. induction f as [|f IH]; intros s; cbn [close_loop]; [done|].
  destruct s as [|c s]; [done|]. destruct (match_normalized _ _) as [e'|] eqn:E.
  - intros [= <-]. apply match_suffix in E as (k & -> & _). by exists k.
  - intros (k & ->)%IH. rewrite drop_drop. by eexists.
Qed.

Lemma marker_some s tok e :
  marker s = Some (tok, e) ->
  tok ∈ [END_MARKER_SANITIZED; MARKER_SANITIZED] /\
  (exists k, e = drop k s /\ (0 < k)%nat) /\
  exists ao name an, match_triple_open s = Some ao /\ name ∈ marker_names /\
    match_normalized ao name = Some an /\ match_triple_close an = Some e.
Proof.
  unfold marker. destruct (match_triple_open s) as [ao|] eqn:Eo; [|done].
  assert (Hs : forall name an, match_normalized ao name = Some an ->
    match_triple_close an = Some e -> exists k, e = drop k s /\ (0 < k)%nat).
  { intros name an Hm Hc. apply match_suffix in Eo as (k1 & -> & H1).
    apply match_suffix in Hm as (k2 & -> & _). apply close_suffix in Hc as (k3 & ->).
    rewrite !drop_drop. eexists. split; [done|]. simpl in H1. lia. }
  assert (Ht : forall name tk, name ∈ marker_names ->
    match match_normalized ao name with
    | None => None | Some an => option_map (fun e => (tk, e)) (match_triple_close an) end
    = Some (tok, e) -> tok = tk /\ (exists k, e = drop k s /\ (0 < k)%nat) /\
    exists ao' name an, Some ao = Some ao' /\ name ∈ marker_names /\
      match_normalized ao' name = Some an /\ match_triple_close an = Some e).
  { intros name tk Hn. destruct (match_normalized ao name) as [an|] eqn:Em; [|done].
    destruct (match_triple_close an) as [e'|] eqn:Ec; [|done]. simpl. intros [= -> ->].
    split; [done|]. split; [by eapply Hs|]. by exists ao, name, an. }
  match goal with |- match ?m with _ => _ end = _ -> _ => destruct m as [r|] eqn:E1 end.
  - intros [= ->]. apply Ht in E1 as (-> & H); [|left]. split; [left | done].
  - intros E2. apply Ht in E2 as (-> & H); [|right; left]. split; [right; left | done].
Qed.

(** ** The pieces the loop appends *)
Fixpoint clean_pieces (fuel : nat) (s : list Z) : list (list Z) :=
  match fuel, s with
  | S fuel', c :: s' =>
      match marker s with
      | Some (token, e) => token :: clean_pieces fuel' e
      | None => [c] :: clean_pieces fuel' s'
      end
  | _, _ => []
  end.
Definition clean (fuel : nat) (s : list Z) : list Z := concat (clean_pieces fuel s).

Lemma clean_step fuel c s :
  clean (S fuel) (c :: s) =
  match marker (c :: s) with
  | Some (token, e) => token ++ clean fuel e
  | None => c :: clean fuel s
  end.
Proof. unfold clean. cbn [clean_pieces]. by destruct (marker (c :: s)) as [[tok e]|]. Qed.

Lemma markers_loop_appends alloc fuel s out :
  (length s <= fuel)%nat ->
  markers_loop alloc fuel s out = buf_appends alloc out (clean_pieces fuel s).
Proof.
  revert s out. induction fuel as [|fuel IH]; intros s out Hf.
  - by destruct s; simpl in *; [|lia].
  - destruct s as [|c s]; [done|]. cbn [markers_loop clean_pieces].
    destruct (marker (c :: s)) as [[tok e]|] eqn:Em; cbn [buf_appends].
    + destruct (buf_append alloc out tok); [|done]. apply IH.
      apply marker_some in Em as (_ & (k & -> & Hk) & _).
      rewrite length_drop. simpl in *. lia.
    + destruct (buf_append alloc out [c]); [|done]. apply IH. simpl in Hf. lia.
Qed.

Lemma token_head tok : tok ∈ [END_MARKER_SANITIZED; MARKER_SANITIZED] ->
  exists t, tok = "["%char :: t.
Proof.
  intros H. apply elem_of_cons in H as [-> | H]; [by eexists|].
  apply list_elem_of_singleton in H as ->. by eexists.
Qed.

(** The output is the text up to the first marker, then what stands for it. *)
Lemma clean_split fuel s :
  clean fuel s = take fuel s \/
  exists u m tok e f, s = u ++ m /\ marker m = Some (tok, e) /\
    clean fuel s = u ++ tok ++ clean f e.
Proof.
  revert s. induction fuel as [|fuel IH]; intros s; [by left|].
  destruct s as [|c s]; [by left|]. rewrite clean_step.
  destruct (marker (c :: s)) as [[tok e]|] eqn:Em.
  - right. by exists [], (c :: s), tok, e, fuel.
  - destruct (IH s) as [-> | (u & m & tok & e & f & -> & Hm & ->)]; [by left|].
    right. by exists (c :: u), m, tok, e, f.
Qed.

(** No token byte opens a fence. *)
Lemma token_no_open c t : byte_ok c -> (c <? 0x80) = true -> c <> "<"%char -> marker (c :: t) = None.
Proof.
  intros Hc Ha Hn. unfold marker, match_triple_open.
  change (bs "<<<") with ["<"%char; "<"%char; "<"%char]. cbn [match_normalized].
  unfold decode_utf8, deref. cbn [hd]. rewrite Ha.
  destruct (folded_char c =? 0); [done|].
  assert (folded_char c = c) as ->.
  { pose (P c := negb (c <? 0x80) || (folded_char c =? c)).
    assert (HP : P c = true) by (apply byte_forall; [by vm_compute | done]).
    unfold P in HP. rewrite Ha in HP. simpl in HP. lia. }
  replace (negb _) with true; [done|]. symmetry. apply negb_true_iff, Z.eqb_neq.
  unfold in_range. repeat case_if; lia.
Qed.

Lemma token_suffix_no_marker tok l k X :
  tok ∈ [END_MARKER_SANITIZED; MARKER_SANITIZED] -> tok = l ++ k -> k <> [] ->
  marker (k ++ X) = None.
Proof.
  intros Ht -> Hk. destruct k as [|c k]; [done|].
  assert (Hc : forallb (fun c => (0 <=? c) && (c <? 0x80) && negb (c =? "<"%char)) (l ++ c :: k) = true).
  { apply elem_of_cons in Ht as [-> | Ht]; [by vm_compute|].
    apply list_elem_of_singleton in Ht as ->. by vm_compute. }
  rewrite forallb_app in Hc. cbn [forallb] in Hc.
  simpl app. apply token_no_open; unfold byte_ok; lia.
Qed.

(** A byte copied because no marker starts there starts none in the output. *)
Lemma copied_no_marker u m tok e X :
  bytes_ok u -> bytes_ok m -> marker m = Some (tok, e) -> marker (u ++ m) = None ->
  marker (u ++ "["%char :: X) = None.
Proof.
  intros Hu Hbm Hm Hn. rewrite marker_none in Hn. apply marker_none.
  intros ao name an Ho Hname Ha.
  unfold match_triple_open in Ho. apply match_transfer in Ho as (r1 & -> & Hr1 & H1); [|done|done].
  apply match_transfer in Ha as (r2 & -> & Hr2 & H2); [|done|];
    [|by (apply elem_of_cons in Hname as [-> | Hname]; [by vm_compute|];
          apply list_elem_of_singleton in Hname as ->; vm_compute)].
  exfalso. pose proof (Hn (r1 ++ m) name (r2 ++ m) (H1 m) Hname (H2 m)) as Hc.
  apply marker_some in Hm as (_ & _ & ao & name' & an & Ho & Hname' & Ha & Hcl).
  assert (Hao : bytes_ok ao).
  { unfold match_triple_open in Ho. apply match_suffix in Ho as (k & -> & _). by apply Forall_drop. }
  assert (Hhead : exists x t, ao = x :: t /\ noncont x).
  { apply elem_of_cons in Hname' as [-> | Hname']; [exact (match_head ao "E"%char (tl END_MARKER_NAME) an Hao eq_refl Ha)|].
    apply list_elem_of_singleton in Hname' as ->.
    exact (match_head ao "U"%char (tl MARKER_NAME) an Hao eq_refl Ha). }
  destruct Hhead as (x & t & -> & Hx).
  assert (Hclose : match_triple_close (x :: t) <> None)
    by (eapply close_match; [exact Ha | by rewrite Hcl]).
  unfold match_triple_open in Ho. pose proof (match_suffix _ _ _ Ho) as (k & Ek & _).
  rewrite <- (take_drop k m), <- Ek, app_assoc in Hc. revert Hc.
  apply close_app; [|done|done]. apply bytes_ok_app. split; [done|]. by apply Forall_take.
Qed.

Lemma clean_no_marker fuel s l q :
  bytes_ok s -> (length s <= fuel)%nat -> clean fuel s = l ++ q -> marker q = None.
Proof.
  revert s l q. induction fuel as [|fuel IH]; intros s l q Hs Hf E.
  - destruct s; simpl in Hf; [|lia]. symmetry in E. by apply app_nil in E as [_ ->].
  - destruct s as [|c s]; [symmetry in E; by apply app_nil in E as [_ ->]|].
    rewrite clean_step in E. simpl in Hf.
    pose proof Hs as Hs'. apply bytes_ok_cons in Hs' as [Hc Hs'].
    destruct (marker (c :: s)) as [[tok e]|] eqn:Em.
    + pose proof (marker_some _ _ _ Em) as (Ht & (k & -> & Hk) & _).
      assert (He : bytes_ok (drop k (c :: s))) by (by apply Forall_drop).
      assert (Hl : (length (drop k (c :: s)) <= fuel)%nat)
        by (rewrite length_drop; simpl length; lia).
      apply app_eq_inv in E as [(k1 & E1 & ->) | (k1 & -> & E2)].
      * destruct k1 as [|x k1]; [by apply (IH _ [] _ He Hl)|].
        by eapply token_suffix_no_marker.
      * by apply (IH _ k1 _ He Hl).
    + destruct l as [|y l]; simpl in E; [|injection E as _ E; by apply (IH s l q Hs' ltac:(lia))].
      subst q. destruct (clean_split fuel s) as [E | (u & m & tok & e & f & -> & Hm & ->)].
      * rewrite E, take_ge by lia. done.
      * pose proof (marker_some _ _ _ Hm) as (Ht & _). apply token_head in Ht as [t ->].
        apply bytes_ok_app in Hs' as [Hu Hbm].
        apply (copied_no_marker (c :: u) m ("["%char :: t) e); auto.
        by apply bytes_ok_cons.
Qed.

Lemma clean_length fuel s : zlen (clean fuel s) <= 24 * zlen s.
Proof.
  revert s. induction fuel as [|fuel IH]; intros s; [unfold zlen; simpl; lia|].
  destruct s as [|c s]; [done|]. rewrite clean_step.
  destruct (marker (c :: s)) as [[tok e]|] eqn:Em.
  - apply marker_some in Em as (Ht & (k & -> & Hk) & _). rewrite zlen_app.
    assert (zlen tok <= 24).
    { apply elem_of_cons in Ht as [-> | Ht]; [done|]. by apply list_elem_of_singleton in Ht as ->. }
    specialize (IH (drop k (c :: s))). unfold zlen in *. rewrite length_drop in IH. simpl length in *. lia.
  - rewrite !zlen_cons. specialize (IH s). lia.
Qed.

(** What the function returns: the clean text, or NULL. *)
Lemma sanitize_markers_result alloc content :
  zlen content < 2 ^ 58 ->
  exists r, sanitize_markers alloc content = Some r /\
    (r = Some (clean (length content) content) \/ r = None) /\
    ((forall n, alloc n = true) -> r = Some (clean (length content) content)).
Proof.
  intros Hn. unfold sanitize_markers. rewrite markers_loop_appends by done.
  pose proof (clean_length (length content) content) as Hlen.
  destruct (buf_appends_appended alloc buf_zero (clean_pieces (length content) content) buf_zero_ok)
    as (b & -> & Hok & D & _ & A); [unfold clean in Hlen; unfold zlen at 1; simpl; lia|].
  simpl in D, A. eexists. split; [done|].
  destruct (buf_take_result alloc b _ Hok D) as [R1 R2]. split; [done|].
  intros Hall. apply R2; auto.
Qed.

(** (C38) Whatever bytes a tool result holds, malformed UTF-8 included, no position
    of the sanitised text starts a complete fence marker, in ASCII or in any of
    the folded spellings: removing one marker never assembles another.  The loop
    ends, and NULL is returned only when the allocator refused. *)
Theorem sanitize_markers_clean (alloc : Z -> bool) (content : list Z) :
  bytes_ok content -> zlen content < 2 ^ 58 ->
  exists r, sanitize_markers alloc content = Some r /\
    ((forall n, alloc n = true) -> r <> None) /\
    (forall out l q, r = Some out -> out = l ++ q -> marker q = None).
Proof.
  intros Hs Hn. destruct (sanitize_markers_result alloc content Hn) as (r & E & R1 & R2).
  exists r. split; [done|]. split.
  - intros Hall Er. by rewrite R2 in Er by done.
  - intros out l q Er El. destruct R1 as [R1 | R1]; rewrite R1 in Er; [|done].
    injection Er as <-. by eapply (clean_no_marker (length content) content).
Qed.

(** Markers spelt with fullwidth letters and angle brackets, and one nested in
    another, are gone. *)
Lemma sanitize_markers_clean_witness :
  exists out, sanitize_markers (fun _ => true)
      (bs "<<<<<<UNTRUSTED_EXTERNAL_CONTENT>>>END_UNTRUSTED_EXTERNAL_CONTENT x>>>") =
    Some (Some out) /\ out = bs "<<<[[MARKER_SANITIZED]]END_UNTRUSTED_EXTERNAL_CONTENT x>>>" /\
    marker out = None.
Proof.
  destruct (sanitize_markers_clean (fun _ => true)
    (bs "<<<<<<UNTRUSTED_EXTERNAL_CONTENT>>>END_UNTRUSTED_EXTERNAL_CONTENT x>>>")) as (r & E & H1 & H2).
  - apply (bool_decide_unpack _). by vm_compute.
  - by vm_compute.
  - destruct r as [out|]; [|by destruct (H1 (fun _ => eq_refl))].
    exists out. split; [exact E|]. split; [vm_compute in E; by injection E as <-|].
    by apply (H2 out [] out).
Defined.
