(* ===== verification/SecretScanTables.v ===== *)
(** * The scanner's data: src/secret_scan_ac.h and src/secret_scan_rules.h

    The automaton tables and the rules, as the headers give them.  A threshold
    [e.f] of the headers is the integer [10 * e.f]. *)
From S2P Require Import Prelude.

(** Validation types. *)
Inductive vtype := SCAN_VTYPE_PREFIX | SCAN_VTYPE_KEYWORD | SCAN_VTYPE_LITERAL
  | SCAN_VTYPE_BASE64 | SCAN_VTYPE_SPAN.

(** Charset classes; the code's [default] is 0. *)
Definition SCAN_CHARSET_UPPER_ALNUM : Z := 1.
Definition SCAN_CHARSET_LOWER_ALNUM : Z := 2.
Definition SCAN_CHARSET_ALNUM : Z := 3.
Definition SCAN_CHARSET_HEX : Z := 4.

Record ScanRule := mk_rule {
  r_id : cstring;
  r_keyword : cstring;
  r_vtype : vtype;
  r_tail_min : Z;
  r_tail_max : Z;
  r_charset : Z;
  r_nocase : bool;
  r_entropy : Z
}.

Definition SCAN_AC_STATES : Z := 335.
Definition SCAN_RULE_COUNT : Z := 73.

Definition scan_rules : list ScanRule := [
  mk_rule (bs "age-secret-key") (bs "age-secret-key-1") SCAN_VTYPE_PREFIX 58 58 3 true 0;
  mk_rule (bs "anthropic-admin-api-key") (bs "sk-ant-admin01") SCAN_VTYPE_PREFIX 93 93 3 true 0;
  mk_rule (bs "anthropic-api-key") (bs "sk-ant-api03") SCAN_VTYPE_PREFIX 93 93 3 true 0;
  mk_rule (bs "aws-access-token") (bs "a3t") SCAN_VTYPE_PREFIX 16 16 1 true 30;
  mk_rule (bs "aws-access-token") (bs "akia") SCAN_VTYPE_PREFIX 16 16 1 true 30;
  mk_rule (bs "aws-access-token") (bs "asia") SCAN_VTYPE_PREFIX 16 16 1 true 30;
  mk_rule (bs "aws-access-token") (bs "abia") SCAN_VTYPE_PREFIX 16 16 1 true 30;
  mk_rule (bs "aws-access-token") (bs "acca") SCAN_VTYPE_PREFIX 16 16 1 true 30;
  mk_rule (bs "databricks-api-token") (bs "dapi") SCAN_VTYPE_PREFIX 32 32 4 true 30;
  mk_rule (bs "digitalocean-access-token") (bs "doo_v1_") SCAN_VTYPE_PREFIX 64 64 4 true 30;
  mk_rule (bs "digitalocean-pat") (bs "dop_v1_") SCAN_VTYPE_PREFIX 64 64 4 true 30;
  mk_rule (bs "doppler-api-token") (bs "dp.pt.") SCAN_VTYPE_PREFIX 43 43 2 true 20;
  mk_rule (bs "flyio-access-token") (bs "fo1_") SCAN_VTYPE_PREFIX 43 43 3 true 40;
  mk_rule (bs "flyio-access-token") (bs "fm1") SCAN_VTYPE_PREFIX 43 43 3 true 40;
  mk_rule (bs "flyio-access-token") (bs "fm2_") SCAN_VTYPE_PREFIX 43 43 3 true 40;
  mk_rule (bs "gcp-api-key") (bs "aiza") SCAN_VTYPE_PREFIX 35 35 3 true 40;
  mk_rule (bs "generic-api-key") (bs "access") SCAN_VTYPE_KEYWORD 10 150 3 true 35;
  mk_rule (bs "generic-api-key") (bs "api") SCAN_VTYPE_KEYWORD 10 150 3 true 35;
  mk_rule (bs "generic-api-key") (bs "auth") SCAN_VTYPE_KEYWORD 10 150 3 true 35;
  mk_rule (bs "generic-api-key") (bs "key") SCAN_VTYPE_KEYWORD 10 150 3 true 35;
  mk_rule (bs "generic-api-key") (bs "credential") SCAN_VTYPE_KEYWORD 10 150 3 true 35;
  mk_rule (bs "generic-api-key") (bs "creds") SCAN_VTYPE_KEYWORD 10 150 3 true 35;
  mk_rule (bs "generic-api-key") (bs "passwd") SCAN_VTYPE_KEYWORD 10 150 3 true 35;
  mk_rule (bs "generic-api-key") (bs "password") SCAN_VTYPE_KEYWORD 10 150 3 true 35;
  mk_rule (bs "generic-api-key") (bs "secret") SCAN_VTYPE_KEYWORD 10 150 3 true 35;
  mk_rule (bs "generic-api-key") (bs "token") SCAN_VTYPE_KEYWORD 10 150 3 true 35;
  mk_rule (bs "github-app-token") (bs "ghu_") SCAN_VTYPE_PREFIX 36 36 3 true 30;
  mk_rule (bs "github-app-token") (bs "ghs_") SCAN_VTYPE_PREFIX 36 36 3 true 30;
  mk_rule (bs "github-fine-grained-pat") (bs "github_pat_") SCAN_VTYPE_PREFIX 82 82 3 true 30;
  mk_rule (bs "github-oauth") (bs "gho_") SCAN_VTYPE_PREFIX 36 36 3 true 30;
  mk_rule (bs "github-pat") (bs "ghp_") SCAN_VTYPE_PREFIX 36 36 3 true 30;
  mk_rule (bs "github-refresh-token") (bs "ghr_") SCAN_VTYPE_PREFIX 36 36 3 true 30;
  mk_rule (bs "gitlab-pat") (bs "glpat-") SCAN_VTYPE_PREFIX 20 20 3 true 30;
  mk_rule (bs "gitlab-ptt") (bs "glptt-") SCAN_VTYPE_PREFIX 40 40 4 true 30;
  mk_rule (bs "gitlab-runner-authentication-token") (bs "glrt-") SCAN_VTYPE_PREFIX 20 20 3 true 30;
  mk_rule (bs "grafana-api-key") (bs "eyjrijoi") SCAN_VTYPE_PREFIX 70 400 3 true 30;
  mk_rule (bs "grafana-cloud-api-token") (bs "glc_") SCAN_VTYPE_PREFIX 32 400 3 true 30;
  mk_rule (bs "heroku-api-key-v2") (bs "hrku-aa") SCAN_VTYPE_PREFIX 58 58 3 true 40;
  mk_rule (bs "huggingface-access-token") (bs "hf_") SCAN_VTYPE_PREFIX 34 34 2 true 20;
  mk_rule (bs "linear-api-key") (bs "lin_api_") SCAN_VTYPE_PREFIX 40 40 2 true 20;
  mk_rule (bs "notion-api-token") (bs "ntn_") SCAN_VTYPE_PREFIX 11 11 3 true 30;
  mk_rule (bs "npm-access-token") (bs "npm_") SCAN_VTYPE_PREFIX 36 36 2 true 20;
  mk_rule (bs "openai-api-key") (bs "t3blbkfj") SCAN_VTYPE_PREFIX 74 74 3 true 30;
  mk_rule (bs "perplexity-api-key") (bs "pplx-") SCAN_VTYPE_PREFIX 48 48 3 true 40;
  mk_rule (bs "private-key") (bs "-----begin") SCAN_VTYPE_SPAN 0 0 0 true 0;
  mk_rule (bs "pypi-upload-token") (bs "pypi-ageichlwas5vcmc") SCAN_VTYPE_PREFIX 50 1000 3 true 30;
  mk_rule (bs "sendgrid-api-token") (bs "sg.") SCAN_VTYPE_PREFIX 66 66 3 true 20;
  mk_rule (bs "shopify-access-token") (bs "shpat_") SCAN_VTYPE_PREFIX 32 32 4 true 20;
  mk_rule (bs "shopify-custom-access-token") (bs "shpca_") SCAN_VTYPE_PREFIX 32 32 4 true 20;
  mk_rule (bs "slack-bot-token") (bs "xoxb") SCAN_VTYPE_PREFIX 10 13 3 true 30;
  mk_rule (bs "slack-user-token") (bs "xoxp-") SCAN_VTYPE_PREFIX 10 13 3 true 20;
  mk_rule (bs "slack-user-token") (bs "xoxe-") SCAN_VTYPE_PREFIX 10 13 3 true 20;
  mk_rule (bs "slack-webhook-url") (bs "hooks.slack.com") SCAN_VTYPE_PREFIX 43 56 3 true 0;
  mk_rule (bs "snyk-api-token") (bs "snyk") SCAN_VTYPE_KEYWORD 10 150 3 true 35;
  mk_rule (bs "sourcegraph-access-token") (bs "sgp_") SCAN_VTYPE_PREFIX 16 16 4 true 30;
  mk_rule (bs "sourcegraph-access-token") (bs "sourcegraph") SCAN_VTYPE_PREFIX 16 16 4 true 30;
  mk_rule (bs "stripe-access-token") (bs "sk_test") SCAN_VTYPE_PREFIX 10 99 3 true 20;
  mk_rule (bs "stripe-access-token") (bs "sk_live") SCAN_VTYPE_PREFIX 10 99 3 true 20;
  mk_rule (bs "stripe-access-token") (bs "sk_prod") SCAN_VTYPE_PREFIX 10 99 3 true 20;
  mk_rule (bs "stripe-access-token") (bs "rk_test") SCAN_VTYPE_PREFIX 10 99 3 true 20;
  mk_rule (bs "stripe-access-token") (bs "rk_live") SCAN_VTYPE_PREFIX 10 99 3 true 20;
  mk_rule (bs "stripe-access-token") (bs "rk_prod") SCAN_VTYPE_PREFIX 10 99 3 true 20;
  mk_rule (bs "telegram-bot-api-token") (bs "telegr") SCAN_VTYPE_KEYWORD 10 150 3 true 35;
  mk_rule (bs "twilio-api-key") (bs "SK") SCAN_VTYPE_PREFIX 32 32 4 false 30;
  mk_rule (bs "vault-batch-token") (bs "hvb.") SCAN_VTYPE_PREFIX 138 300 3 true 40;
  mk_rule (bs "vault-service-token") (bs "hvs.") SCAN_VTYPE_PREFIX 90 120 3 true 35;
  mk_rule (bs "http-authorization-bearer") (bs "bearer ") SCAN_VTYPE_PREFIX 16 2048 3 true 35;
  mk_rule (bs "http-authorization-basic") (bs "basic ") SCAN_VTYPE_BASE64 12 1024 3 true 0;
  mk_rule (bs "jwt-token") (bs "eyj") SCAN_VTYPE_PREFIX 40 4096 3 true 40;
  mk_rule (bs "slack-misc-token") (bs "xoxa-") SCAN_VTYPE_PREFIX 10 1024 3 true 30;
  mk_rule (bs "slack-misc-token") (bs "xoxr-") SCAN_VTYPE_PREFIX 10 1024 3 true 30;
  mk_rule (bs "slack-misc-token") (bs "xoxs-") SCAN_VTYPE_PREFIX 10 1024 3 true 30;
  mk_rule (bs "slack-app-token") (bs "xapp-") SCAN_VTYPE_PREFIX 10 1024 3 true 30].

Definition scan_ac_col : list Z := [
  0;0;0;0;0;0;0;0;0;0;0;0;0;0;0;0;
  0;0;0;0;0;0;0;0;0;0;0;0;0;0;0;0;
  1;0;0;0;0;0;0;0;0;0;0;0;0;2;3;0;
  4;5;6;7;0;8;0;0;0;0;0;0;0;0;0;0;
  0;10;11;12;13;14;15;16;17;18;19;20;21;22;23;24;
  25;0;26;27;28;29;30;31;32;33;34;0;0;0;0;9;
  0;10;11;12;13;14;15;16;17;18;19;20;21;22;23;24;
  25;0;26;27;28;29;30;31;32;33;34;0;0;0;0;0].

Definition scan_ac_goto : list (list Z) := [
  [0;0;199;0;0;0;0;0;0;0;1;313;91;49;154;69;121;164;0;0;88;173;0;181;0;102;288;17;116;0;0;0;238;0;0];
  [0;0;199;0;0;0;0;35;0;0;1;43;46;49;154;69;2;164;77;0;37;173;0;181;0;83;288;40;116;85;0;0;238;0;0];
  [0;0;199;0;0;0;0;0;0;0;1;313;91;49;3;69;121;122;127;0;88;143;0;181;0;102;288;17;116;0;0;0;238;0;0];
  [0;0;4;0;0;0;0;0;0;0;1;313;91;49;154;69;121;164;0;0;88;173;0;181;0;102;288;17;116;0;0;0;238;155;0];
  [0;0;200;0;0;0;0;0;0;0;1;313;91;49;154;69;121;164;0;0;88;173;0;181;0;102;288;5;116;0;0;0;238;0;0];
  [0;0;199;0;0;0;0;0;0;0;1;313;91;49;6;69;228;230;0;0;18;173;0;260;265;102;288;17;116;0;0;0;238;0;0];
  [0;0;199;0;0;0;0;0;0;0;1;313;7;49;154;69;121;164;0;0;88;173;0;181;0;102;288;17;116;0;0;0;238;155;0];
  [0;0;199;0;0;0;0;0;0;0;1;313;91;49;154;69;121;164;0;0;88;173;0;181;0;102;8;17;116;0;0;0;238;0;0];
  [0;0;199;0;0;0;0;0;0;0;1;313;91;49;9;69;121;164;0;0;289;173;0;181;0;102;288;17;116;0;0;0;238;0;0];
  [0;0;199;0;0;0;0;0;0;0;1;313;91;94;154;69;121;164;0;0;88;173;0;181;0;102;288;17;10;0;0;0;238;155;0];
  [0;0;11;0;0;0;0;188;0;0;1;313;91;49;303;69;121;164;0;0;88;173;0;181;117;102;288;17;116;0;0;0;238;0;0];
  [0;0;200;0;0;0;0;0;0;0;1;313;91;49;154;69;121;164;0;0;12;173;0;181;0;102;288;17;116;0;0;0;238;0;0];
  [0;0;199;0;0;0;0;0;0;0;1;313;91;49;13;69;121;164;0;0;88;173;0;181;0;102;288;17;116;0;0;0;238;0;0];
  [0;0;199;0;0;0;0;0;0;0;1;313;91;49;154;69;121;164;0;0;88;173;0;181;0;102;288;17;116;0;0;0;238;14;0];
  [0;0;15;0;0;0;0;0;0;0;1;313;91;49;154;69;121;164;0;156;88;173;0;181;0;102;288;17;116;0;0;0;238;0;0];
  [0;0;200;0;0;16;0;0;0;0;1;313;91;49;154;69;121;164;0;0;88;173;0;181;0;102;288;17;116;0;0;0;238;0;0];
  [0;0;199;0;0;0;0;0;0;0;1;313;91;49;154;69;121;164;0;0;88;173;0;181;0;102;288;17;116;0;0;0;238;0;0];
  [0;0;199;0;0;0;0;0;0;0;1;313;91;49;111;69;228;230;0;0;18;173;0;260;265;102;288;17;116;0;0;0;238;0;0];
  [0;0;19;0;0;0;0;0;0;275;1;313;91;49;89;69;121;164;0;0;88;173;0;181;0;102;288;17;116;0;0;0;238;0;0];
  [0;0;200;0;0;0;0;0;0;0;20;313;91;49;154;69;121;164;0;0;88;173;0;181;0;102;288;17;116;0;0;0;238;0;0];
  [0;0;199;0;0;0;0;35;0;0;1;43;46;49;154;69;2;164;77;0;37;173;0;21;0;83;288;40;116;85;0;0;238;0;0];
  [0;0;199;0;0;0;0;0;0;0;1;313;91;49;154;69;121;164;0;0;88;173;0;181;0;185;288;17;22;0;0;0;238;0;0];
  [0;0;23;0;0;0;0;188;0;0;1;313;91;49;303;69;121;164;0;0;88;173;0;183;117;102;288;17;116;0;0;0;238;0;0];
  [0;0;200;0;0;0;0;0;0;0;24;313;91;49;154;69;121;164;0;0;88;173;0;181;0;102;288;17;116;0;0;0;238;0;0];
  [0;0;199;0;0;0;0;35;0;0;1;43;46;25;154;69;2;164;77;0;37;173;0;181;0;31;288;40;116;85;0;0;238;0;0];
  [0;0;199;0;0;0;0;0;0;0;50;313;91;49;154;69;121;164;0;0;88;173;26;181;53;64;288;17;116;0;0;0;238;0;0];
  [0;0;199;0;0;0;0;0;0;0;1;313;91;49;154;69;121;164;27;0;88;173;0;181;0;102;288;17;116;0;0;0;238;0;0];
  [0;0;199;0;0;0;0;0;0;0;1;313;91;49;154;69;121;164;0;0;88;173;0;28;0;102;288;17;116;0;0;0;238;0;0];
  [0;0;199;0;29;0;0;0;0;0;1;313;91;49;154;69;121;164;0;0;88;173;0;181;0;185;288;17;182;0;0;0;238;0;0];
  [0;0;199;0;0;30;0;0;0;0;1;313;91;49;154;69;121;164;0;0;88;173;0;181;0;102;288;17;116;0;0;0;238;0;0];
  [0;0;199;0;0;0;0;0;0;0;1;313;91;49;154;69;121;164;0;0;88;173;0;181;0;102;288;17;116;0;0;0;238;0;0];
  [0;0;199;0;0;0;0;0;0;0;103;313;91;49;154;69;121;164;32;0;88;173;0;181;0;195;288;17;116;0;0;0;238;209;0];
  [0;0;199;0;33;0;0;0;0;0;1;313;91;49;154;69;121;164;0;0;88;173;0;181;0;102;288;17;116;0;0;0;238;0;0];
  [0;0;199;0;0;0;0;34;0;0;1;313;91;49;154;69;121;164;0;0;88;173;0;181;0;102;288;17;116;0;0;0;238;0;0];
  [0;0;199;0;0;0;0;0;0;0;1;313;91;49;154;69;121;164;0;0;88;173;0;181;0;102;288;17;116;0;0;0;238;0;0];
  [0;0;199;0;0;0;0;0;0;0;1;313;91;49;154;69;121;164;0;0;88;173;0;181;0;102;288;17;36;0;0;0;238;0;0];
  [0;0;199;0;0;0;0;188;0;0;1;313;91;49;303;69;121;164;0;0;88;173;0;181;117;102;288;17;116;0;0;0;238;0;0];
  [0;0;199;0;0;0;0;0;0;0;1;313;91;49;89;69;121;164;38;0;88;173;0;181;0;102;288;17;116;0;0;0;238;0;0];
  [0;0;199;0;0;0;0;0;0;0;39;313;91;49;154;69;121;164;0;0;88;173;0;181;0;102;288;17;116;0;0;0;238;0;0];
  [0;0;199;0;0;0;0;35;0;0;1;43;46;49;154;69;2;164;77;0;37;173;0;181;0;83;288;40;116;85;0;0;238;0;0];
  [0;0;199;0;0;0;0;0;0;0;1;313;91;49;111;69;228;230;41;0;18;173;0;260;265;102;288;17;116;0;0;0;238;0;0];
  [0;0;199;0;0;0;0;0;0;0;42;313;91;49;154;69;121;164;0;0;88;173;0;181;0;102;288;17;116;0;0;0;238;0;0];
  [0;0;199;0;0;0;0;35;0;0;1;43;46;49;154;69;2;164;77;0;37;173;0;181;0;83;288;40;116;85;0;0;238;0;0];
  [0;0;199;0;0;0;0;0;0;0;320;313;91;49;314;69;121;164;44;0;88;173;0;181;0;102;288;17;116;0;0;0;238;0;0];
  [0;0;199;0;0;0;0;0;0;0;45;313;91;49;154;69;121;164;0;0;88;173;0;181;0;102;288;17;116;0;0;0;238;0;0];
  [0;0;199;0;0;0;0;35;0;0;1;43;46;49;154;69;2;164;77;0;37;173;0;181;0;83;288;40;116;85;0;0;238;0;0];
  [0;0;199;0;0;0;0;0;0;0;1;313;47;49;154;69;121;164;0;0;88;173;0;181;0;102;92;17;116;0;0;0;238;0;0];
  [0;0;199;0;0;0;0;0;0;0;48;313;91;49;80;69;121;164;0;0;88;173;0;181;0;102;92;17;116;0;0;0;238;0;0];
  [0;0;199;0;0;0;0;35;0;0;1;43;46;49;154;69;2;164;77;0;37;173;0;181;0;83;288;40;116;85;0;0;238;0;0];
  [0;0;199;0;0;0;0;0;0;0;50;313;91;49;154;69;121;164;0;0;88;173;0;181;53;64;288;17;116;0;0;0;238;0;0];
  [0;0;199;0;0;0;0;35;0;0;1;43;46;49;154;69;2;164;77;0;37;173;0;181;0;51;288;40;116;85;0;0;238;0;0];
  [0;0;199;0;0;0;0;0;0;0;103;313;91;49;154;69;121;164;52;0;88;173;0;181;0;195;288;17;116;0;0;0;238;209;0];
  [0;0;199;0;0;0;0;0;0;0;1;313;91;49;154;69;121;164;0;0;88;173;0;181;0;102;288;17;116;0;0;0;238;0;0];
  [0;0;199;0;0;0;0;0;0;0;1;313;91;49;154;69;121;164;0;0;88;173;0;181;54;59;288;17;116;0;0;0;238;0;0];
  [0;0;199;0;0;0;0;0;0;55;1;313;91;49;154;69;121;164;0;0;88;173;0;181;0;102;288;17;116;0;0;0;238;0;0];
  [0;0;199;0;0;0;0;0;0;0;1;313;91;49;154;69;121;164;0;0;88;173;0;181;0;102;288;17;116;0;56;0;238;0;0];
  [0;0;199;0;0;57;0;0;0;0;1;313;91;49;154;69;121;164;0;0;88;173;0;181;0;102;288;17;116;0;0;0;238;0;0];
  [0;0;199;0;0;0;0;0;0;58;1;313;91;49;154;69;121;164;0;0;88;173;0;181;0;102;288;17;116;0;0;0;238;0;0];
  [0;0;199;0;0;0;0;0;0;0;1;313;91;49;154;69;121;164;0;0;88;173;0;181;0;102;288;17;116;0;0;0;238;0;0];
  [0;0;199;0;0;0;0;0;0;60;103;313;91;49;154;69;121;164;0;0;88;173;0;181;0;195;288;17;116;0;0;0;238;209;0];
  [0;0;199;0;0;0;0;0;0;0;1;313;91;49;154;69;121;164;0;0;88;173;0;181;0;102;288;17;116;0;61;0;238;0;0];
  [0;0;199;0;0;62;0;0;0;0;1;313;91;49;154;69;121;164;0;0;88;173;0;181;0;102;288;17;116;0;0;0;238;0;0];
  [0;0;199;0;0;0;0;0;0;63;1;313;91;49;154;69;121;164;0;0;88;173;0;181;0;102;288;17;116;0;0;0;238;0;0];
  [0;0;199;0;0;0;0;0;0;0;1;313;91;49;154;69;121;164;0;0;88;173;0;181;0;102;288;17;116;0;0;0;238;0;0];
  [0;0;199;65;0;0;0;0;0;0;103;313;91;49;154;69;121;164;0;0;88;173;0;181;0;195;288;17;116;0;0;0;238;209;0];
  [0;0;199;0;0;0;0;0;0;0;1;313;91;49;154;69;121;164;0;0;88;173;0;181;0;66;288;17;116;0;0;0;238;0;0];
  [0;0;199;0;0;0;0;0;0;0;103;313;91;49;154;69;121;164;0;0;88;173;0;181;0;195;288;17;67;0;0;0;238;209;0];
  [0;0;199;68;0;0;0;188;0;0;1;313;91;49;303;69;121;164;0;0;88;173;0;181;117;102;288;17;116;0;0;0;238;0;0];
  [0;0;199;0;0;0;0;0;0;0;1;313;91;49;154;69;121;164;0;0;88;173;0;181;0;102;288;17;116;0;0;0;238;0;0];
  [0;0;199;0;0;0;0;0;0;0;1;313;91;49;154;69;121;164;0;0;88;173;73;181;70;102;288;17;116;0;0;0;238;0;0];
  [0;0;199;0;0;71;0;0;0;0;1;313;91;49;154;69;121;164;0;0;88;173;0;181;0;102;288;17;116;0;0;0;238;0;0];
  [0;0;199;0;0;0;0;0;0;72;1;313;91;49;154;69;121;164;0;0;88;173;0;181;0;102;288;17;116;0;0;0;238;0;0];
  [0;0;199;0;0;0;0;0;0;0;1;313;91;49;154;69;121;164;0;0;88;173;0;181;0;102;288;17;116;0;0;0;238;0;0];
  [0;0;199;0;0;74;75;0;0;0;1;313;91;49;154;69;121;164;0;0;88;173;0;181;0;102;288;17;116;0;0;0;238;0;0];
  [0;0;199;0;0;0;0;0;0;0;1;313;91;49;154;69;121;164;0;0;88;173;0;181;0;102;288;17;116;0;0;0;238;0;0];
  [0;0;199;0;0;0;0;0;0;76;1;313;91;49;154;69;121;164;0;0;88;173;0;181;0;102;288;17;116;0;0;0;238;0;0];
  [0;0;199;0;0;0;0;0;0;0;1;313;91;49;154;69;121;164;0;0;88;173;0;181;0;102;288;17;116;0;0;0;238;0;0];
  [0;0;199;0;0;0;0;0;0;0;1;313;91;49;154;69;121;164;0;0;88;173;0;181;0;102;288;17;116;0;0;0;238;0;78];
  [0;0;199;0;0;0;0;0;0;0;79;313;91;49;154;69;121;164;0;0;88;173;0;181;0;102;288;17;116;0;0;0;238;0;0];
  [0;0;199;0;0;0;0;35;0;0;1;43;46;49;154;69;2;164;77;0;37;173;0;181;0;83;288;40;116;85;0;0;238;0;0];
  [0;0;199;0;0;0;0;0;0;0;1;313;91;49;154;69;121;164;0;0;88;173;0;181;0;102;288;81;116;0;0;0;238;155;0];
  [0;0;199;0;0;0;0;0;0;0;1;313;91;49;111;69;228;230;0;0;18;173;0;260;265;102;288;82;116;0;0;0;238;0;0];
  [0;0;199;0;0;0;0;0;0;0;1;313;91;49;111;69;228;230;0;0;18;173;0;260;265;102;288;17;116;0;0;0;238;0;0];
  [0;0;199;0;0;0;0;0;0;0;103;313;91;49;154;69;121;164;84;0;88;173;0;181;0;195;288;17;116;0;0;0;238;209;0];
  [0;0;199;0;0;0;0;0;0;0;1;313;91;49;154;69;121;164;0;0;88;173;0;181;0;102;288;17;116;0;0;0;238;0;0];
  [0;0;199;0;0;0;0;0;0;0;1;313;91;49;154;69;121;164;0;0;88;173;0;181;0;102;288;17;86;0;0;0;238;0;0];
  [0;0;199;0;0;0;0;188;0;0;1;313;91;49;303;69;121;87;0;0;88;173;0;181;117;102;288;17;116;0;0;0;238;0;0];
  [0;0;199;0;0;0;0;0;0;0;1;313;91;49;154;171;121;164;0;0;88;173;0;181;246;102;165;17;116;0;308;0;238;0;0];
  [0;0;199;0;0;0;0;0;0;0;1;313;91;49;89;69;121;164;0;0;88;173;0;181;0;102;288;17;116;0;0;0;238;0;0];
  [0;0;199;0;0;0;0;0;0;0;1;313;91;49;154;69;121;164;0;0;88;173;0;181;0;102;288;17;116;0;0;0;238;90;0];
  [0;0;199;0;0;0;0;0;0;0;1;313;91;49;154;69;121;164;0;156;88;173;0;181;0;102;288;17;116;0;0;0;238;0;0];
  [0;0;199;0;0;0;0;0;0;0;1;313;91;49;154;69;121;164;0;0;88;173;0;181;0;102;92;17;116;0;0;0;238;0;0];
  [0;0;199;0;0;0;0;0;0;0;1;313;91;49;93;69;121;164;0;0;289;173;0;181;0;102;288;17;116;0;0;0;238;0;0];
  [0;0;199;0;0;0;0;0;0;0;1;313;91;94;154;69;121;164;0;0;88;173;0;181;0;102;288;17;116;0;0;0;238;155;0];
  [0;0;199;0;0;0;0;0;0;0;50;313;91;49;95;69;121;164;0;0;88;173;0;181;53;64;288;101;116;0;0;0;238;0;0];
  [0;0;199;0;0;0;0;0;0;0;1;313;91;49;154;69;121;164;0;0;88;173;0;96;0;102;288;17;116;0;0;0;238;155;0];
  [0;0;199;0;0;0;0;0;0;0;1;313;91;49;154;69;121;164;0;0;88;173;0;181;0;185;288;17;97;0;0;0;238;0;0];
  [0;0;199;0;0;0;0;188;0;0;1;313;91;49;303;69;121;164;98;0;88;173;0;183;117;102;288;17;116;0;0;0;238;0;0];
  [0;0;199;0;0;0;0;0;0;0;99;313;91;49;154;69;121;164;0;0;88;173;0;181;0;102;288;17;116;0;0;0;238;0;0];
  [0;0;199;0;0;0;0;35;0;0;1;43;46;49;154;69;2;164;77;0;37;100;0;181;0;83;288;40;116;85;0;0;238;0;0];
  [0;0;199;0;0;0;0;0;0;0;1;313;91;49;154;69;121;164;174;0;88;173;0;181;0;102;288;17;116;0;0;0;238;0;0];
  [0;0;199;0;0;0;0;0;0;0;1;313;91;49;111;69;228;230;0;0;18;173;0;260;265;102;288;17;116;0;0;0;238;0;0];
  [0;0;199;0;0;0;0;0;0;0;103;313;91;49;154;69;121;164;0;0;88;173;0;181;0;195;288;17;116;0;0;0;238;209;0];
  [0;0;199;0;0;0;0;35;0;0;1;43;46;49;154;69;2;164;77;0;37;173;0;181;0;83;288;104;116;85;0;0;238;0;0];
  [0;0;199;0;0;0;0;0;0;0;1;313;91;49;111;69;228;230;41;0;18;173;0;260;265;102;288;105;116;0;0;0;238;0;0];
  [0;0;199;0;0;0;0;0;0;0;1;313;91;49;111;69;228;230;0;0;18;173;0;260;265;102;288;17;116;0;0;106;238;0;0];
  [0;0;199;0;0;0;0;0;0;0;1;313;91;107;154;69;121;164;0;0;88;173;0;181;108;102;288;17;116;0;0;0;238;0;0];
  [0;0;199;0;0;0;0;0;0;0;50;313;91;49;154;69;121;164;0;0;88;173;0;181;53;64;288;17;116;0;0;0;238;0;0];
  [0;0;199;0;0;0;0;0;0;0;1;313;91;49;154;69;121;164;0;0;88;173;0;181;0;102;109;17;116;0;0;0;238;0;0];
  [0;0;199;0;0;0;0;0;0;0;1;313;91;110;154;69;121;164;0;0;289;173;0;181;0;102;288;17;116;0;0;0;238;0;0];
  [0;0;199;0;0;0;0;0;0;0;50;313;91;49;154;69;121;164;0;0;88;173;0;181;53;64;288;17;116;0;0;0;238;0;0];
  [0;0;199;0;0;0;0;0;0;0;1;313;112;49;154;69;121;164;0;0;88;173;0;181;0;102;288;17;116;0;0;0;238;155;0];
  [0;0;199;0;0;0;0;0;0;0;1;313;91;49;154;69;121;164;0;0;88;173;0;181;0;102;113;17;116;0;0;0;238;0;0];
  [0;0;199;0;0;0;0;0;0;0;1;313;91;49;114;69;121;164;0;0;289;173;0;181;0;102;288;17;116;0;0;0;238;0;0];
  [0;0;199;0;0;0;0;0;0;0;1;313;91;94;154;69;121;164;0;0;88;173;0;181;0;102;288;17;115;0;0;0;238;155;0];
  [0;0;199;0;0;0;0;188;0;0;1;313;91;49;303;69;121;164;0;0;88;173;0;181;117;102;288;17;116;0;0;0;238;0;0];
  [0;0;199;0;0;0;0;188;0;0;1;313;91;49;303;69;121;164;0;0;88;173;0;181;117;102;288;17;116;0;0;0;238;0;0];
  [0;0;199;0;0;0;0;0;0;0;1;313;91;49;154;69;121;164;0;0;118;173;0;181;0;102;288;17;116;0;0;0;238;0;0];
  [0;0;199;0;0;0;0;0;0;0;1;313;91;49;119;69;121;164;0;0;88;173;0;181;0;102;288;17;116;0;0;0;238;0;0];
  [0;0;199;0;0;0;0;0;0;0;1;313;91;49;154;69;121;164;0;0;88;173;0;120;0;102;288;17;116;0;0;0;238;90;0];
  [0;0;199;0;0;0;0;0;0;0;1;313;91;49;154;69;121;164;0;0;88;173;0;181;0;185;288;17;182;0;0;0;238;0;0];
  [0;0;199;0;0;0;0;0;0;0;1;313;91;49;154;69;121;122;127;0;88;143;0;181;0;102;288;17;116;0;0;0;238;0;0];
  [0;0;199;0;0;0;0;0;0;0;1;313;91;49;154;171;121;164;0;0;88;173;0;181;137;139;141;125;116;123;308;0;238;0;0];
  [0;0;199;0;0;0;0;0;0;124;1;313;91;49;154;69;121;164;0;0;88;173;0;181;0;102;288;17;116;0;0;0;238;0;0];
  [0;0;199;0;0;0;0;0;0;0;1;313;91;49;154;69;121;164;0;0;88;173;0;181;0;102;288;17;116;0;0;0;238;0;0];
  [0;0;199;0;0;0;0;0;0;126;1;313;91;49;111;69;228;230;0;0;18;173;0;260;265;102;288;17;116;0;0;0;238;0;0];
  [0;0;199;0;0;0;0;0;0;0;1;313;91;49;154;69;121;164;0;0;88;173;0;181;0;102;288;17;116;0;0;0;238;0;0];
  [0;0;199;0;0;0;0;0;0;0;1;313;91;49;154;69;121;164;0;0;88;173;0;181;0;102;288;17;128;0;0;0;238;0;0];
  [0;0;199;0;0;0;0;188;0;0;1;313;91;49;303;69;121;129;0;0;88;173;0;181;117;102;288;17;116;0;0;0;238;0;0];
  [0;0;199;0;0;0;0;0;0;0;1;313;91;49;154;171;121;164;0;0;88;173;0;181;246;102;165;17;116;130;308;0;238;0;0];
  [0;0;199;0;0;0;0;0;0;0;1;131;91;49;154;69;121;164;0;0;88;173;0;181;0;102;288;17;116;0;0;0;238;0;0];
  [0;0;199;0;0;0;0;0;0;132;320;313;91;49;314;69;121;164;0;0;88;173;0;181;0;102;288;17;116;0;0;0;238;0;0];
  [0;0;199;0;0;0;0;0;0;0;1;313;91;49;154;69;121;164;0;0;88;173;0;181;0;133;288;17;116;0;0;0;238;0;0];
  [0;0;199;0;0;0;0;0;0;0;134;313;91;49;154;69;121;164;0;0;88;173;0;181;0;195;288;17;116;0;0;0;238;209;0];
  [0;0;199;0;0;0;0;35;0;0;1;43;46;49;154;69;2;164;77;0;37;173;0;181;0;83;288;104;135;85;0;0;238;0;0];
  [0;0;199;0;0;0;0;188;0;136;1;313;91;49;303;69;121;164;0;0;88;173;0;181;117;102;288;17;116;0;0;0;238;0;0];
  [0;0;199;0;0;0;0;0;0;0;1;313;91;49;154;69;121;164;0;0;88;173;0;181;0;102;288;17;116;0;0;0;238;0;0];
  [0;0;199;0;0;0;0;0;0;138;1;313;91;49;154;69;121;164;0;0;88;173;0;181;247;102;288;17;116;0;0;0;238;0;0];
  [0;0;199;0;0;0;0;0;0;0;1;313;91;49;154;69;121;164;0;0;88;173;0;181;0;102;288;17;116;0;0;0;238;0;0];
  [0;0;199;0;0;0;0;0;0;140;103;313;91;49;154;69;121;164;0;0;88;173;0;181;0;195;288;17;116;0;0;0;238;209;0];
  [0;0;199;0;0;0;0;0;0;0;1;313;91;49;154;69;121;164;0;0;88;173;0;181;0;102;288;17;116;0;0;0;238;0;0];
  [0;0;199;0;0;0;0;0;0;142;1;313;91;49;154;69;121;164;0;0;166;173;0;181;0;102;288;17;116;0;0;0;238;0;0];
  [0;0;199;0;0;0;0;0;0;0;1;313;91;49;154;69;121;164;0;0;88;173;0;181;0;102;288;17;116;0;0;0;238;0;0];
  [0;0;199;0;0;0;0;0;0;0;1;313;162;49;154;69;121;164;174;0;88;173;0;181;0;144;151;17;116;0;0;0;238;0;0];
  [0;0;199;0;0;0;0;0;0;0;145;313;91;49;154;69;121;164;0;0;88;173;0;181;0;195;288;17;148;0;0;0;238;209;0];
  [0;0;199;0;0;0;0;35;0;0;1;43;46;49;154;69;2;164;77;0;37;173;0;181;0;83;288;104;146;85;0;0;238;0;0];
  [0;0;147;0;0;0;0;188;0;0;1;313;91;49;303;69;121;164;0;0;88;173;0;181;117;102;288;17;116;0;0;0;238;0;0];
  [0;0;200;0;0;0;0;0;0;0;1;313;91;49;154;69;121;164;0;0;88;173;0;181;0;102;288;17;116;0;0;0;238;0;0];
  [0;0;199;0;0;0;0;188;0;0;1;313;91;49;303;69;121;164;0;0;88;173;0;181;117;102;288;17;149;0;0;0;238;0;0];
  [0;0;150;0;0;0;0;188;0;0;1;313;91;49;303;69;121;164;0;0;88;173;0;181;117;102;288;17;116;0;0;0;238;0;0];
  [0;0;200;0;0;0;0;0;0;0;1;313;91;49;154;69;121;164;0;0;88;173;0;181;0;102;288;17;116;0;0;0;238;0;0];
  [0;0;199;0;0;0;0;0;0;0;1;313;91;49;154;69;121;164;0;0;289;173;0;181;0;102;288;17;152;0;0;0;238;0;0];
  [0;0;153;0;0;0;0;188;0;0;1;313;91;49;303;69;121;164;0;0;88;173;0;181;117;102;288;17;116;0;0;0;238;0;0];
  [0;0;200;0;0;0;0;0;0;0;1;313;91;49;154;69;121;164;0;0;88;173;0;181;0;102;288;17;116;0;0;0;238;0;0];
  [0;0;199;0;0;0;0;0;0;0;1;313;91;49;154;69;121;164;0;0;88;173;0;181;0;102;288;17;116;0;0;0;238;155;0];
  [0;0;199;0;0;0;0;0;0;0;1;313;91;49;154;69;121;164;0;156;88;173;0;181;0;102;288;17;116;0;0;0;238;0;0];
  [0;0;199;0;0;0;0;0;0;0;1;313;91;49;154;69;121;164;0;0;88;173;0;181;0;102;157;17;116;0;0;0;238;0;0];
  [0;0;199;0;0;0;0;0;0;0;1;313;91;49;154;69;121;164;158;0;289;173;0;181;0;102;288;17;116;0;0;0;238;0;0];
  [0;0;199;0;0;0;0;0;0;0;1;313;91;49;154;69;121;164;0;159;88;173;0;181;0;102;288;17;116;0;0;0;238;0;0];
  [0;0;199;0;0;0;0;0;0;0;1;313;91;49;154;69;121;164;0;0;88;173;0;181;160;102;288;17;116;0;0;0;238;0;0];
  [0;0;199;0;0;0;0;0;0;0;1;313;91;49;154;69;121;164;161;0;88;173;0;181;0;102;288;17;116;0;0;0;238;0;0];
  [0;0;199;0;0;0;0;0;0;0;1;313;91;49;154;69;121;164;0;0;88;173;0;181;0;102;288;17;116;0;0;0;238;0;0];
  [0;0;199;0;0;0;0;0;0;163;1;313;91;49;154;69;121;164;0;0;88;173;0;181;0;102;92;17;116;0;0;0;238;0;0];
  [0;0;199;0;0;0;0;0;0;0;1;313;91;49;154;69;121;164;0;0;88;173;0;181;0;102;288;17;116;0;0;0;238;0;0];
  [0;0;199;0;0;0;0;0;0;0;1;313;91;49;154;171;121;164;0;0;88;173;0;181;246;102;165;17;116;0;308;0;238;0;0];
  [0;0;199;0;0;0;0;0;0;0;1;313;91;49;154;69;121;164;0;0;166;173;0;181;0;102;288;17;116;0;0;0;238;0;0];
  [0;0;199;0;0;0;0;0;0;290;1;313;91;49;89;69;121;164;0;0;88;173;0;181;0;102;288;17;116;167;0;0;238;0;0];
  [0;0;168;0;0;0;0;0;0;0;1;313;91;49;154;69;121;164;0;0;88;173;0;181;0;102;288;17;116;0;0;0;238;0;0];
  [0;0;200;0;0;0;0;0;0;0;169;313;91;49;154;69;121;164;0;0;88;173;0;181;0;102;288;17;116;0;0;0;238;0;0];
  [0;0;199;0;0;0;0;35;0;0;170;43;46;49;154;69;2;164;77;0;37;173;0;181;0;83;288;40;116;85;0;0;238;0;0];
  [0;0;199;0;0;0;0;35;0;0;1;43;46;49;154;69;2;164;77;0;37;173;0;181;0;83;288;40;116;85;0;0;238;0;0];
  [0;0;199;0;0;0;0;0;0;172;1;313;91;49;154;69;121;164;0;0;88;173;73;181;70;102;288;17;116;0;0;0;238;0;0];
  [0;0;199;0;0;0;0;0;0;0;1;313;91;49;154;69;121;164;0;0;88;173;0;181;0;102;288;17;116;0;0;0;238;0;0];
  [0;0;199;0;0;0;0;0;0;0;1;313;91;49;154;69;121;164;174;0;88;173;0;181;0;102;288;17;116;0;0;0;238;0;0];
  [0;0;199;0;0;0;0;0;0;0;1;313;91;49;154;69;121;164;0;0;88;173;0;175;0;102;288;17;116;0;0;0;238;0;0];
  [0;0;199;0;0;0;0;0;0;176;1;313;91;49;154;69;121;164;0;0;88;173;0;181;0;185;288;17;182;0;0;0;238;0;0];
  [0;0;199;0;0;0;0;0;0;0;177;313;91;49;154;69;121;164;0;0;88;173;0;181;0;102;288;17;116;0;0;0;238;0;0];
  [0;0;199;0;0;0;0;35;0;0;1;43;46;49;154;69;2;164;77;0;37;173;0;181;0;178;288;40;116;85;0;0;238;0;0];
  [0;0;199;0;0;0;0;0;0;0;103;313;91;49;154;69;121;164;179;0;88;173;0;181;0;195;288;17;116;0;0;0;238;209;0];
  [0;0;199;0;0;0;0;0;0;180;1;313;91;49;154;69;121;164;0;0;88;173;0;181;0;102;288;17;116;0;0;0;238;0;0];
  [0;0;199;0;0;0;0;0;0;0;1;313;91;49;154;69;121;164;0;0;88;173;0;181;0;102;288;17;116;0;0;0;238;0;0];
  [0;0;199;0;0;0;0;0;0;0;1;313;91;49;154;69;121;164;0;0;88;173;0;181;0;185;288;17;182;0;0;0;238;0;0];
  [0;0;199;0;0;0;0;188;0;0;1;313;91;49;303;69;121;164;0;0;88;173;0;183;117;102;288;17;116;0;0;0;238;0;0];
  [0;0;199;0;0;0;0;0;0;184;1;313;91;49;154;69;121;164;0;0;88;173;0;181;0;185;288;17;182;0;0;0;238;0;0];
  [0;0;199;0;0;0;0;0;0;0;1;313;91;49;154;69;121;164;0;0;88;173;0;181;0;102;288;17;116;0;0;0;238;0;0];
  [0;0;199;0;0;0;0;0;0;0;103;313;91;49;154;69;121;164;0;0;88;173;186;181;0;195;288;17;116;0;0;0;238;209;0];
  [0;0;199;0;0;0;0;0;0;187;1;313;91;49;154;69;121;164;0;0;88;173;0;181;0;102;288;17;116;0;0;0;238;0;0];
  [0;0;199;0;0;0;0;0;0;0;1;313;91;49;154;69;121;164;0;0;88;173;0;181;0;102;288;17;116;0;0;0;238;0;0];
  [0;0;199;0;0;0;0;0;0;0;1;189;91;49;154;69;121;164;0;0;88;173;0;181;0;102;288;17;116;0;0;0;238;0;0];
  [0;0;199;0;0;0;0;0;0;0;320;313;91;49;314;69;121;164;0;0;88;190;0;181;0;102;288;17;116;0;0;0;238;0;0];
  [0;0;199;0;0;0;0;0;0;0;1;191;91;49;154;69;121;164;174;0;88;173;0;181;0;102;288;17;116;0;0;0;238;0;0];
  [0;0;199;0;0;0;0;0;0;0;320;313;91;49;314;69;121;164;0;0;192;173;0;181;0;102;288;17;116;0;0;0;238;0;0];
  [0;0;199;0;0;0;0;0;0;0;1;313;91;49;89;193;121;164;0;0;88;173;0;181;0;102;288;17;116;0;0;0;238;0;0];
  [0;0;199;0;0;0;0;0;0;0;1;313;91;49;154;69;121;164;0;194;88;173;73;181;70;102;288;17;116;0;0;0;238;0;0];
  [0;0;199;0;0;0;0;0;0;0;1;313;91;49;154;69;121;164;0;0;88;173;0;181;0;102;288;17;116;0;0;0;238;0;0];
  [0;0;199;0;0;0;0;0;0;0;103;313;91;49;154;69;121;164;0;0;88;196;0;181;0;195;288;17;116;0;0;0;238;209;0];
  [0;0;199;0;0;0;0;0;0;0;1;313;91;49;154;69;121;164;174;0;88;173;0;181;0;102;288;17;116;0;0;0;197;0;0];
  [0;0;198;0;0;0;0;0;0;0;331;313;91;49;154;69;121;164;0;0;88;173;0;181;239;102;288;17;116;0;0;0;238;0;0];
  [0;0;200;0;0;0;0;0;0;0;1;313;91;49;154;69;121;164;0;0;88;173;0;181;0;102;288;17;116;0;0;0;238;0;0];
  [0;0;200;0;0;0;0;0;0;0;1;313;91;49;154;69;121;164;0;0;88;173;0;181;0;102;288;17;116;0;0;0;238;0;0];
  [0;0;201;0;0;0;0;0;0;0;1;313;91;49;154;69;121;164;0;0;88;173;0;181;0;102;288;17;116;0;0;0;238;0;0];
  [0;0;202;0;0;0;0;0;0;0;1;313;91;49;154;69;121;164;0;0;88;173;0;181;0;102;288;17;116;0;0;0;238;0;0];
  [0;0;203;0;0;0;0;0;0;0;1;313;91;49;154;69;121;164;0;0;88;173;0;181;0;102;288;17;116;0;0;0;238;0;0];
  [0;0;203;0;0;0;0;0;0;0;1;204;91;49;154;69;121;164;0;0;88;173;0;181;0;102;288;17;116;0;0;0;238;0;0];
  [0;0;199;0;0;0;0;0;0;0;320;313;91;49;205;69;121;164;0;0;88;173;0;181;0;102;288;17;116;0;0;0;238;0;0];
  [0;0;199;0;0;0;0;0;0;0;315;313;91;49;154;69;206;164;0;0;88;173;0;181;0;102;288;17;116;0;0;0;238;155;0];
  [0;0;199;0;0;0;0;0;0;0;1;313;91;49;154;69;121;122;207;0;88;143;0;181;0;102;288;17;116;0;0;0;238;0;0];
  [0;0;199;0;0;0;0;0;0;0;1;313;91;49;154;69;121;164;0;0;88;173;0;208;0;102;288;17;128;0;0;0;238;0;0];
  [0;0;199;0;0;0;0;0;0;0;1;313;91;49;154;69;121;164;0;0;88;173;0;181;0;185;288;17;182;0;0;0;238;0;0];
  [0;0;199;0;0;0;0;0;0;0;1;313;91;49;154;69;121;164;0;0;88;173;0;181;0;210;288;17;116;0;0;0;238;0;0];
  [0;0;199;0;0;0;0;0;0;0;103;313;91;49;154;69;121;164;211;0;88;173;0;181;0;195;288;17;116;0;0;0;238;209;0];
  [0;0;212;0;0;0;0;0;0;0;1;313;91;49;154;69;121;164;0;0;88;173;0;181;0;102;288;17;116;0;0;0;238;0;0];
  [0;0;200;0;0;0;0;0;0;0;213;313;91;49;154;69;121;164;0;0;88;173;0;181;0;102;288;17;116;0;0;0;238;0;0];
  [0;0;199;0;0;0;0;35;0;0;1;43;46;49;154;69;214;164;77;0;37;173;0;181;0;83;288;40;116;85;0;0;238;0;0];
  [0;0;199;0;0;0;0;0;0;0;1;313;91;49;215;69;121;122;127;0;88;143;0;181;0;102;288;17;116;0;0;0;238;0;0];
  [0;0;4;0;0;0;0;0;0;0;1;313;91;49;154;69;121;164;216;0;88;173;0;181;0;102;288;17;116;0;0;0;238;155;0];
  [0;0;199;0;0;0;0;0;0;0;1;313;217;49;154;69;121;164;0;0;88;173;0;181;0;102;288;17;116;0;0;0;238;0;0];
  [0;0;199;0;0;0;0;0;0;0;1;313;91;49;154;69;121;218;0;0;88;173;0;181;0;102;92;17;116;0;0;0;238;0;0];
  [0;0;199;0;0;0;0;0;0;0;1;313;91;49;154;171;121;164;0;0;88;219;0;181;246;102;165;17;116;0;308;0;238;0;0];
  [0;0;199;0;0;0;0;0;0;0;1;313;91;49;154;69;121;164;174;0;88;173;0;181;0;102;288;17;116;0;0;220;238;0;0];
  [0;0;199;0;0;0;0;0;0;0;221;313;91;49;154;69;121;164;0;0;88;173;0;181;0;102;288;17;116;0;0;0;238;0;0];
  [0;0;199;0;0;0;0;35;0;0;1;43;46;49;154;69;2;164;77;0;37;173;0;181;0;83;288;222;116;85;0;0;238;0;0];
  [0;0;199;0;0;0;0;0;223;0;1;313;91;49;111;69;228;230;41;0;18;173;0;260;265;102;288;17;116;0;0;0;238;0;0];
  [0;0;199;0;0;0;0;0;0;0;1;313;91;49;154;69;121;164;0;0;88;173;0;181;0;102;288;17;116;0;224;0;238;0;0];
  [0;0;199;0;0;0;0;0;0;0;1;313;225;49;154;69;121;164;0;0;88;173;0;181;0;102;288;17;116;0;0;0;238;0;0];
  [0;0;199;0;0;0;0;0;0;0;1;313;91;49;154;69;121;164;0;0;88;173;226;181;0;102;92;17;116;0;0;0;238;0;0];
  [0;0;199;0;0;0;0;0;0;0;1;313;227;49;154;69;121;164;0;0;88;173;0;181;0;102;288;17;116;0;0;0;238;0;0];
  [0;0;199;0;0;0;0;0;0;0;1;313;91;49;154;69;121;164;0;0;88;173;0;181;0;102;92;17;116;0;0;0;238;0;0];
  [0;0;199;229;0;0;0;0;0;0;1;313;91;49;154;69;121;122;127;0;88;143;0;181;0;263;288;17;116;0;0;0;238;0;0];
  [0;0;199;0;0;0;0;0;0;0;1;313;91;49;154;69;121;164;0;0;88;173;0;181;0;102;288;17;116;0;0;0;238;0;0];
  [0;0;199;0;0;0;0;0;0;0;1;313;91;49;154;171;121;164;0;0;88;173;0;181;246;231;165;17;116;0;308;0;238;0;0];
  [0;0;199;0;0;0;0;0;0;0;232;313;235;49;154;69;121;164;0;0;88;173;0;181;0;195;288;17;116;0;0;0;238;209;0];
  [0;0;199;0;0;0;0;35;0;0;1;43;46;49;154;69;2;164;77;0;37;173;0;181;0;83;288;104;233;85;0;0;238;0;0];
  [0;0;199;0;0;0;0;188;0;234;1;313;91;49;303;69;121;164;0;0;88;173;0;181;117;102;288;17;116;0;0;0;238;0;0];
  [0;0;199;0;0;0;0;0;0;0;1;313;91;49;154;69;121;164;0;0;88;173;0;181;0;102;288;17;116;0;0;0;238;0;0];
  [0;0;199;0;0;0;0;0;0;0;236;313;91;49;154;69;121;164;0;0;88;173;0;181;0;102;92;17;116;0;0;0;238;0;0];
  [0;0;199;0;0;0;0;35;0;237;1;43;46;49;154;69;2;164;77;0;37;173;0;181;0;83;288;40;116;85;0;0;238;0;0];
  [0;0;199;0;0;0;0;0;0;0;1;313;91;49;154;69;121;164;0;0;88;173;0;181;0;102;288;17;116;0;0;0;238;0;0];
  [0;0;199;0;0;0;0;0;0;0;331;313;91;49;154;69;121;164;0;0;88;173;0;181;239;102;288;17;116;0;0;0;238;0;0];
  [0;0;199;0;0;0;0;0;0;0;1;313;91;49;154;69;121;164;0;0;88;173;0;181;0;102;288;17;116;0;0;0;240;0;0];
  [0;0;199;0;0;0;0;0;0;0;325;241;91;49;244;69;121;164;0;0;88;173;0;181;239;242;327;329;116;0;0;0;238;0;0];
  [0;0;199;0;0;0;0;0;0;0;320;313;91;49;314;69;121;164;0;0;88;173;0;181;0;102;288;17;116;0;0;0;238;0;0];
  [0;0;243;0;0;0;0;0;0;0;103;313;91;49;154;69;121;164;0;0;88;173;0;181;0;195;288;17;116;0;0;0;238;209;0];
  [0;0;200;0;0;0;0;0;0;0;1;313;91;49;154;69;121;164;0;0;88;173;0;181;0;102;288;17;116;0;0;0;238;0;0];
  [0;0;245;0;0;0;0;0;0;0;1;313;91;49;154;69;121;164;0;0;88;173;0;181;0;102;288;17;116;0;0;0;238;155;0];
  [0;0;200;0;0;0;0;0;0;0;1;313;91;49;154;69;121;164;0;0;88;173;0;181;0;102;288;17;116;0;0;0;238;0;0];
  [0;0;199;0;0;0;0;0;0;0;1;313;91;49;154;69;121;164;0;0;88;173;0;181;247;102;288;17;116;0;0;0;238;0;0];
  [0;0;199;0;0;0;0;0;0;0;1;313;91;49;154;69;121;164;0;0;248;173;0;181;0;102;288;17;116;0;0;0;238;0;0];
  [0;0;199;0;0;0;0;0;0;0;1;313;91;49;89;69;121;164;0;0;88;173;0;181;0;102;288;249;116;0;0;0;238;0;0];
  [0;0;199;250;0;0;0;0;0;0;1;313;91;49;111;69;228;230;0;0;18;173;0;260;265;102;288;17;116;0;0;0;238;0;0];
  [0;0;199;0;0;0;0;0;0;0;1;313;91;49;154;69;121;164;0;0;88;173;0;181;0;102;288;251;116;0;0;0;238;0;0];
  [0;0;199;0;0;0;0;0;0;0;1;313;91;49;111;69;228;230;0;0;18;252;0;260;265;102;288;17;116;0;0;0;238;0;0];
  [0;0;199;0;0;0;0;0;0;0;253;313;91;49;154;69;121;164;174;0;88;173;0;181;0;102;288;17;116;0;0;0;238;0;0];
  [0;0;199;0;0;0;0;35;0;0;1;43;254;49;154;69;2;164;77;0;37;173;0;181;0;83;288;40;116;85;0;0;238;0;0];
  [0;0;199;0;0;0;0;0;0;0;1;313;47;49;154;69;121;164;0;0;255;173;0;181;0;102;92;17;116;0;0;0;238;0;0];
  [0;0;199;256;0;0;0;0;0;0;1;313;91;49;89;69;121;164;0;0;88;173;0;181;0;102;288;17;116;0;0;0;238;0;0];
  [0;0;199;0;0;0;0;0;0;0;1;313;257;49;154;69;121;164;0;0;88;173;0;181;0;102;288;17;116;0;0;0;238;0;0];
  [0;0;199;0;0;0;0;0;0;0;1;313;91;49;154;69;121;164;0;0;88;173;0;181;258;102;92;17;116;0;0;0;238;0;0];
  [0;0;199;0;0;0;0;0;0;0;1;313;91;49;154;69;121;164;0;0;88;173;259;181;0;102;288;17;116;0;0;0;238;0;0];
  [0;0;199;0;0;0;0;0;0;0;1;313;91;49;154;69;121;164;0;0;88;173;0;181;0;102;288;17;116;0;0;0;238;0;0];
  [0;0;199;0;0;0;0;0;0;0;1;313;91;49;154;69;121;164;0;0;88;173;0;181;0;185;288;17;182;0;0;0;238;261;0];
  [0;0;199;0;0;0;0;0;0;0;1;313;91;49;154;69;121;164;0;0;262;173;0;181;0;102;288;17;116;0;0;0;238;0;0];
  [0;0;199;0;0;0;0;0;0;0;1;313;91;49;89;69;121;164;0;0;88;173;0;181;0;102;288;17;116;0;0;0;238;0;0];
  [0;0;199;0;0;0;0;0;0;264;103;313;91;49;154;69;121;164;0;0;88;173;0;181;0;195;288;17;116;0;0;0;238;209;0];
  [0;0;199;0;0;0;0;0;0;0;1;313;91;49;154;69;121;164;0;0;88;173;0;181;0;102;288;17;116;0;0;0;238;0;0];
  [0;0;199;0;0;0;0;0;0;0;1;313;91;49;154;69;121;164;0;0;88;173;0;181;0;102;288;17;116;266;0;0;238;0;0];
  [0;0;199;0;0;0;0;0;0;0;1;313;91;49;154;69;121;164;0;0;88;173;0;181;0;102;267;17;116;0;0;0;238;0;0];
  [0;0;199;0;0;0;0;0;0;0;1;313;268;49;154;69;121;164;0;0;289;173;0;181;0;102;288;17;116;0;0;0;238;0;0];
  [0;0;199;0;0;0;0;0;0;0;1;313;91;49;269;69;121;164;0;0;88;173;0;181;0;102;92;17;116;0;0;0;238;0;0];
  [0;0;199;0;0;0;0;0;0;0;1;313;91;49;154;69;270;164;0;0;88;173;0;181;0;102;288;17;116;0;0;0;238;155;0];
  [0;0;199;0;0;0;0;0;0;0;1;313;91;49;154;69;121;122;127;0;88;143;0;181;0;102;271;17;116;0;0;0;238;0;0];
  [0;0;199;0;0;0;0;0;0;0;272;313;91;49;154;69;121;164;0;0;289;173;0;181;0;102;288;17;116;0;0;0;238;0;0];
  [0;0;199;0;0;0;0;35;0;0;1;43;46;49;154;69;2;164;77;0;37;173;0;181;0;273;288;40;116;85;0;0;238;0;0];
  [0;0;199;0;0;0;0;0;0;0;103;313;91;49;154;69;121;274;84;0;88;173;0;181;0;195;288;17;116;0;0;0;238;209;0];
  [0;0;199;0;0;0;0;0;0;0;1;313;91;49;154;171;121;164;0;0;88;173;0;181;246;102;165;17;116;0;308;0;238;0;0];
  [0;0;199;0;0;0;0;0;0;0;1;313;91;49;154;69;121;164;0;0;88;280;0;181;0;284;288;17;276;0;0;0;238;0;0];
  [0;0;199;0;0;0;0;188;0;0;1;313;91;49;277;69;121;164;0;0;88;173;0;181;117;102;288;17;116;0;0;0;238;0;0];
  [0;0;199;0;0;0;0;0;0;0;1;313;91;49;154;69;121;164;0;0;88;304;0;181;0;102;288;278;116;0;0;0;238;155;0];
  [0;0;199;0;0;0;0;0;0;0;1;313;91;49;111;69;228;230;0;0;18;173;0;260;265;102;288;17;279;0;0;0;238;0;0];
  [0;0;199;0;0;0;0;188;0;0;1;313;91;49;303;69;121;164;0;0;88;173;0;181;117;102;288;17;116;0;0;0;238;0;0];
  [0;0;199;0;0;0;0;0;0;0;1;313;91;49;154;69;121;164;281;0;88;173;0;181;0;102;288;17;116;0;0;0;238;0;0];
  [0;0;199;0;0;0;0;0;0;0;1;313;91;49;154;69;121;164;0;0;88;173;0;175;0;102;288;17;116;0;282;0;238;0;0];
  [0;0;199;0;0;0;0;0;0;0;1;313;91;49;283;69;121;164;0;0;88;173;0;181;0;102;288;17;116;0;0;0;238;0;0];
  [0;0;199;0;0;0;0;0;0;0;1;313;91;49;154;69;121;164;0;0;88;173;0;181;0;102;288;17;116;0;0;0;238;155;0];
  [0;0;199;0;0;0;0;0;0;0;103;313;91;49;154;69;121;164;0;0;88;173;0;181;0;195;285;17;116;0;0;0;238;209;0];
  [0;0;199;0;0;0;0;0;0;0;1;313;91;49;154;69;121;164;0;0;289;173;0;181;286;102;288;17;116;0;0;0;238;0;0];
  [0;0;199;0;0;0;0;0;0;0;1;313;91;287;154;69;121;164;0;0;88;173;0;181;0;102;288;17;116;0;0;0;238;0;0];
  [0;0;199;0;0;0;0;0;0;0;50;313;91;49;154;69;121;164;0;0;88;173;0;181;53;64;288;17;116;0;0;0;238;0;0];
  [0;0;199;0;0;0;0;0;0;0;1;313;91;49;154;69;121;164;0;0;289;173;0;181;0;102;288;17;116;0;0;0;238;0;0];
  [0;0;199;0;0;0;0;0;0;290;1;313;91;49;89;69;121;164;0;0;88;173;0;181;0;102;288;17;116;0;0;0;238;0;0];
  [0;0;199;0;0;0;0;0;0;0;1;313;91;49;154;69;121;164;0;0;88;295;0;181;0;299;288;17;291;0;0;0;238;0;0];
  [0;0;199;0;0;0;0;188;0;0;1;313;91;49;292;69;121;164;0;0;88;173;0;181;117;102;288;17;116;0;0;0;238;0;0];
  [0;0;199;0;0;0;0;0;0;0;1;313;91;49;154;69;121;164;0;0;88;304;0;181;0;102;288;293;116;0;0;0;238;155;0];
  [0;0;199;0;0;0;0;0;0;0;1;313;91;49;111;69;228;230;0;0;18;173;0;260;265;102;288;17;294;0;0;0;238;0;0];
  [0;0;199;0;0;0;0;188;0;0;1;313;91;49;303;69;121;164;0;0;88;173;0;181;117;102;288;17;116;0;0;0;238;0;0];
  [0;0;199;0;0;0;0;0;0;0;1;313;91;49;154;69;121;164;296;0;88;173;0;181;0;102;288;17;116;0;0;0;238;0;0];
  [0;0;199;0;0;0;0;0;0;0;1;313;91;49;154;69;121;164;0;0;88;173;0;175;0;102;288;17;116;0;297;0;238;0;0];
  [0;0;199;0;0;0;0;0;0;0;1;313;91;49;298;69;121;164;0;0;88;173;0;181;0;102;288;17;116;0;0;0;238;0;0];
  [0;0;199;0;0;0;0;0;0;0;1;313;91;49;154;69;121;164;0;0;88;173;0;181;0;102;288;17;116;0;0;0;238;155;0];
  [0;0;199;0;0;0;0;0;0;0;103;313;91;49;154;69;121;164;0;0;88;173;0;181;0;195;300;17;116;0;0;0;238;209;0];
  [0;0;199;0;0;0;0;0;0;0;1;313;91;49;154;69;121;164;0;0;289;173;0;181;301;102;288;17;116;0;0;0;238;0;0];
  [0;0;199;0;0;0;0;0;0;0;1;313;91;302;154;69;121;164;0;0;88;173;0;181;0;102;288;17;116;0;0;0;238;0;0];
  [0;0;199;0;0;0;0;0;0;0;50;313;91;49;154;69;121;164;0;0;88;173;0;181;53;64;288;17;116;0;0;0;238;0;0];
  [0;0;199;0;0;0;0;0;0;0;1;313;91;49;154;69;121;164;0;0;88;304;0;181;0;102;288;17;116;0;0;0;238;155;0];
  [0;0;199;0;0;0;0;0;0;0;1;313;91;49;305;69;121;164;174;0;88;173;0;181;0;102;288;17;116;0;0;0;238;0;0];
  [0;0;199;0;0;0;0;0;0;0;1;313;91;49;154;69;306;164;0;0;88;173;0;181;0;102;288;17;116;0;0;0;238;155;0];
  [0;0;199;0;0;0;0;0;0;0;1;313;91;49;154;69;121;122;127;0;88;143;0;181;0;102;307;17;116;0;0;0;238;0;0];
  [0;0;199;0;0;0;0;0;0;0;1;313;91;49;154;69;121;164;0;0;289;173;0;181;0;102;288;17;116;0;0;0;238;0;0];
  [0;0;199;0;0;0;0;0;0;0;1;309;91;49;154;69;121;164;0;0;88;173;0;181;0;102;288;311;116;0;0;0;238;0;0];
  [0;0;199;310;0;0;0;0;0;0;320;313;91;49;314;69;121;164;0;0;88;173;0;181;0;102;288;17;116;0;0;0;238;0;0];
  [0;0;199;0;0;0;0;0;0;0;1;313;91;49;154;69;121;164;0;0;88;173;0;181;0;102;288;17;116;0;0;0;238;0;0];
  [0;0;199;312;0;0;0;0;0;0;1;313;91;49;111;69;228;230;0;0;18;173;0;260;265;102;288;17;116;0;0;0;238;0;0];
  [0;0;199;0;0;0;0;0;0;0;1;313;91;49;154;69;121;164;0;0;88;173;0;181;0;102;288;17;116;0;0;0;238;0;0];
  [0;0;199;0;0;0;0;0;0;0;320;313;91;49;314;69;121;164;0;0;88;173;0;181;0;102;288;17;116;0;0;0;238;0;0];
  [0;0;199;0;0;0;0;0;0;0;315;313;91;49;154;69;121;164;0;0;88;173;0;181;0;102;288;17;116;0;0;0;238;155;0];
  [0;0;199;0;0;0;0;35;0;0;1;43;46;49;154;69;2;164;77;0;37;173;0;181;0;83;316;40;116;85;0;0;238;0;0];
  [0;0;199;0;0;0;0;0;0;0;1;313;91;49;317;69;121;164;0;0;289;173;0;181;0;102;288;17;116;0;0;0;238;0;0];
  [0;0;199;0;0;0;0;0;0;0;1;313;91;49;154;69;121;164;0;0;88;173;0;181;0;102;318;17;116;0;0;0;238;155;0];
  [0;319;199;0;0;0;0;0;0;0;1;313;91;49;154;69;121;164;0;0;289;173;0;181;0;102;288;17;116;0;0;0;238;0;0];
  [0;0;199;0;0;0;0;0;0;0;1;313;91;49;154;69;121;164;0;0;88;173;0;181;0;102;288;17;116;0;0;0;238;0;0];
  [0;0;199;0;0;0;0;35;0;0;1;43;46;49;154;69;2;164;77;0;37;173;0;181;0;83;288;321;116;85;0;0;238;0;0];
  [0;0;199;0;0;0;0;0;0;0;1;313;91;49;111;69;228;230;322;0;18;173;0;260;265;102;288;17;116;0;0;0;238;0;0];
  [0;0;199;0;0;0;0;0;0;0;42;313;323;49;154;69;121;164;0;0;88;173;0;181;0;102;288;17;116;0;0;0;238;0;0];
  [0;324;199;0;0;0;0;0;0;0;1;313;91;49;154;69;121;164;0;0;88;173;0;181;0;102;92;17;116;0;0;0;238;0;0];
  [0;0;199;0;0;0;0;0;0;0;1;313;91;49;154;69;121;164;0;0;88;173;0;181;0;102;288;17;116;0;0;0;238;0;0];
  [0;0;326;0;0;0;0;35;0;0;1;43;46;49;154;69;2;164;77;0;37;173;0;181;0;332;288;40;116;85;0;0;238;0;0];
  [0;0;200;0;0;0;0;0;0;0;1;313;91;49;154;69;121;164;0;0;88;173;0;181;0;102;288;17;116;0;0;0;238;0;0];
  [0;0;328;0;0;0;0;0;0;0;1;313;91;49;154;69;121;164;0;0;289;173;0;181;0;102;288;17;116;0;0;0;238;0;0];
  [0;0;200;0;0;0;0;0;0;0;1;313;91;49;154;69;121;164;0;0;88;173;0;181;0;102;288;17;116;0;0;0;238;0;0];
  [0;0;330;0;0;0;0;0;0;0;1;313;91;49;111;69;228;230;0;0;18;173;0;260;265;102;288;17;116;0;0;0;238;0;0];
  [0;0;200;0;0;0;0;0;0;0;1;313;91;49;154;69;121;164;0;0;88;173;0;181;0;102;288;17;116;0;0;0;238;0;0];
  [0;0;199;0;0;0;0;35;0;0;1;43;46;49;154;69;2;164;77;0;37;173;0;181;0;332;288;40;116;85;0;0;238;0;0];
  [0;0;199;0;0;0;0;0;0;0;103;313;91;49;154;69;121;164;84;0;88;173;0;181;0;333;288;17;116;0;0;0;238;209;0];
  [0;0;334;0;0;0;0;0;0;0;103;313;91;49;154;69;121;164;0;0;88;196;0;181;0;195;288;17;116;0;0;0;238;209;0];
  [0;0;200;0;0;0;0;0;0;0;1;313;91;49;154;69;121;164;0;0;88;173;0;181;0;102;288;17;116;0;0;0;238;0;0]].

(** Each row: how many rules the state accepts, then their indices. *)
Definition scan_ac_accept : list (list Z) := [
  [0;0;0];
  [0;0;0];
  [0;0;0];
  [0;0;0];
  [0;0;0];
  [0;0;0];
  [0;0;0];
  [0;0;0];
  [0;0;0];
  [0;0;0];
  [1;24;0];
  [0;0;0];
  [0;0;0];
  [0;0;0];
  [1;19;0];
  [0;0;0];
  [1;0;0];
  [0;0;0];
  [1;63;0];
  [0;0;0];
  [0;0;0];
  [0;0;0];
  [0;0;0];
  [0;0;0];
  [0;0;0];
  [0;0;0];
  [0;0;0];
  [0;0;0];
  [0;0;0];
  [0;0;0];
  [1;1;0];
  [0;0;0];
  [1;17;0];
  [0;0;0];
  [1;2;0];
  [0;0;0];
  [1;3;0];
  [0;0;0];
  [0;0;0];
  [1;4;0];
  [0;0;0];
  [0;0;0];
  [1;5;0];
  [0;0;0];
  [0;0;0];
  [1;6;0];
  [0;0;0];
  [0;0;0];
  [1;7;0];
  [0;0;0];
  [0;0;0];
  [0;0;0];
  [2;8;17];
  [0;0;0];
  [0;0;0];
  [0;0;0];
  [0;0;0];
  [0;0;0];
  [1;9;0];
  [0;0;0];
  [0;0;0];
  [0;0;0];
  [0;0;0];
  [1;10;0];
  [0;0;0];
  [0;0;0];
  [0;0;0];
  [0;0;0];
  [1;11;0];
  [0;0;0];
  [0;0;0];
  [0;0;0];
  [1;12;0];
  [0;0;0];
  [1;13;0];
  [0;0;0];
  [1;14;0];
  [0;0;0];
  [0;0;0];
  [1;15;0];
  [0;0;0];
  [0;0;0];
  [1;16;0];
  [0;0;0];
  [1;17;0];
  [0;0;0];
  [0;0;0];
  [1;18;0];
  [0;0;0];
  [0;0;0];
  [1;19;0];
  [0;0;0];
  [0;0;0];
  [0;0;0];
  [0;0;0];
  [0;0;0];
  [0;0;0];
  [0;0;0];
  [0;0;0];
  [0;0;0];
  [1;20;0];
  [1;21;0];
  [0;0;0];
  [0;0;0];
  [0;0;0];
  [0;0;0];
  [0;0;0];
  [1;22;0];
  [0;0;0];
  [0;0;0];
  [1;23;0];
  [0;0;0];
  [0;0;0];
  [0;0;0];
  [0;0;0];
  [1;24;0];
  [0;0;0];
  [0;0;0];
  [0;0;0];
  [0;0;0];
  [1;25;0];
  [0;0;0];
  [0;0;0];
  [0;0;0];
  [1;26;0];
  [0;0;0];
  [1;27;0];
  [0;0;0];
  [0;0;0];
  [0;0;0];
  [0;0;0];
  [0;0;0];
  [0;0;0];
  [0;0;0];
  [0;0;0];
  [0;0;0];
  [1;28;0];
  [0;0;0];
  [1;29;0];
  [0;0;0];
  [1;30;0];
  [0;0;0];
  [1;31;0];
  [0;0;0];
  [0;0;0];
  [0;0;0];
  [0;0;0];
  [1;32;0];
  [0;0;0];
  [0;0;0];
  [1;33;0];
  [0;0;0];
  [0;0;0];
  [1;34;0];
  [0;0;0];
  [0;0;0];
  [1;68;0];
  [0;0;0];
  [0;0;0];
  [0;0;0];
  [0;0;0];
  [1;35;0];
  [0;0;0];
  [1;36;0];
  [0;0;0];
  [0;0;0];
  [0;0;0];
  [0;0;0];
  [0;0;0];
  [0;0;0];
  [1;37;0];
  [0;0;0];
  [1;38;0];
  [0;0;0];
  [0;0;0];
  [0;0;0];
  [0;0;0];
  [0;0;0];
  [0;0;0];
  [1;17;0];
  [1;39;0];
  [0;0;0];
  [0;0;0];
  [0;0;0];
  [1;40;0];
  [0;0;0];
  [0;0;0];
  [1;41;0];
  [0;0;0];
  [0;0;0];
  [0;0;0];
  [0;0;0];
  [0;0;0];
  [0;0;0];
  [1;42;0];
  [0;0;0];
  [0;0;0];
  [0;0;0];
  [1;43;0];
  [0;0;0];
  [0;0;0];
  [0;0;0];
  [0;0;0];
  [0;0;0];
  [0;0;0];
  [0;0;0];
  [0;0;0];
  [0;0;0];
  [1;44;0];
  [0;0;0];
  [0;0;0];
  [0;0;0];
  [0;0;0];
  [0;0;0];
  [0;0;0];
  [0;0;0];
  [0;0;0];
  [0;0;0];
  [0;0;0];
  [0;0;0];
  [0;0;0];
  [0;0;0];
  [0;0;0];
  [0;0;0];
  [0;0;0];
  [0;0;0];
  [0;0;0];
  [1;45;0];
  [0;0;0];
  [1;46;0];
  [0;0;0];
  [0;0;0];
  [0;0;0];
  [0;0;0];
  [1;47;0];
  [0;0;0];
  [0;0;0];
  [1;48;0];
  [0;0;0];
  [0;0;0];
  [0;0;0];
  [1;49;0];
  [0;0;0];
  [1;50;0];
  [0;0;0];
  [1;51;0];
  [0;0;0];
  [0;0;0];
  [0;0;0];
  [0;0;0];
  [0;0;0];
  [0;0;0];
  [0;0;0];
  [0;0;0];
  [0;0;0];
  [0;0;0];
  [0;0;0];
  [0;0;0];
  [0;0;0];
  [1;52;0];
  [0;0;0];
  [0;0;0];
  [1;53;0];
  [0;0;0];
  [1;54;0];
  [0;0;0];
  [0;0;0];
  [0;0;0];
  [0;0;0];
  [0;0;0];
  [0;0;0];
  [0;0;0];
  [0;0;0];
  [0;0;0];
  [1;55;0];
  [0;0;0];
  [0;0;0];
  [0;0;0];
  [0;0;0];
  [1;56;0];
  [0;0;0];
  [0;0;0];
  [0;0;0];
  [1;57;0];
  [0;0;0];
  [0;0;0];
  [0;0;0];
  [1;58;0];
  [0;0;0];
  [0;0;0];
  [0;0;0];
  [0;0;0];
  [0;0;0];
  [0;0;0];
  [1;59;0];
  [0;0;0];
  [0;0;0];
  [0;0;0];
  [1;60;0];
  [0;0;0];
  [0;0;0];
  [0;0;0];
  [1;61;0];
  [0;0;0];
  [0;0;0];
  [0;0;0];
  [0;0;0];
  [1;62;0];
  [0;0;0];
  [0;0;0];
  [1;64;0];
  [0;0;0];
  [1;65;0];
  [0;0;0];
  [0;0;0];
  [0;0;0];
  [0;0;0];
  [0;0;0];
  [0;0;0];
  [1;66;0];
  [0;0;0];
  [0;0;0];
  [0;0;0];
  [0;0;0];
  [1;67;0];
  [0;0;0];
  [1;69;0];
  [0;0;0];
  [1;70;0];
  [0;0;0];
  [1;71;0];
  [0;0;0];
  [0;0;0];
  [0;0;0];
  [1;72;0]].
