(* ===== verification/SecretScan.v ===== *)
(** * The secret scanner: src/secret_scan.c

    Keyword search by the generated automaton, validation of each hit, and
    redaction in place.  Offsets are [nat], for texts shorter than [INT_MAX];
    the entropy test of the code is a float computation over the byte counts,
    of which the model keeps the counts: [entropy_below counts len e] stands
    for [ent < e / 10]. *)
From S2P Require Import Prelude CString Libc Codec SecretScanTables.

(** The float arithmetic of [secret_scan_entropy] and the comparison. *)
Class Entropy := { entropy_below : list Z -> Z -> Z -> bool }.

Record ScanFinding := mk_finding { f_rule_id : cstring; f_offset : nat; f_match_len : nat }.
Definition SCAN_MAX_FINDINGS : nat := 32.

Definition byte_counts (s : list Z) : list Z :=
  map (fun i => zlen (filter (fun c => c = Z.of_nat i) s)) (seq 0 256).

Definition charset_ok (c charset : Z) : bool :=
  if charset =? SCAN_CHARSET_UPPER_ALNUM then is_upper c || is_digit c
  else if charset =? SCAN_CHARSET_LOWER_ALNUM then
    is_lower c || is_digit c || (c =? "_"%char) || (c =? "-"%char)
  else if charset =? SCAN_CHARSET_HEX then
    is_digit c || in_range "a"%char "f"%char c || in_range "A"%char "F"%char c
  else if charset =? SCAN_CHARSET_ALNUM then
    is_upper c || is_lower c || is_digit c || (c =? "_"%char) || (c =? "-"%char) ||
    (c =? "+"%char) || (c =? "/"%char) || (c =? "="%char) || (c =? "."%char)
  else (32 <? c) && (c <? 127).

Definition is_word_char (c : Z) : bool :=
  is_upper c || is_lower c || is_digit c || (c =? "_"%char).

(** [text[i]]. *)
Definition byte_at (text : list Z) (i : nat) : Z := nth i text 0.

Definition boundary_ok (text : list Z) (offset : nat) (rule : ScanRule) : bool :=
  if (offset <=? 0)%nat then true
  else if negb (is_word_char (deref (r_keyword rule))) then true
  else negb (is_word_char (byte_at text (offset - 1))).

(** The length of the run of bytes that satisfy [ok], at most [max]. *)
Fixpoint run_len (ok : Z -> bool) (max : nat) (s : list Z) : nat :=
  match max, s with
  | S max', c :: s' => if ok c then S (run_len ok max' s') else 0%nat
  | _, _ => 0%nat
  end.

Definition tail_len (text : list Z) (start : nat) (rule : ScanRule) : nat :=
  run_len (fun c => charset_ok c (r_charset rule)) (Z.to_nat (r_tail_max rule)) (drop start text).

Section Validate.
Context `{Entropy}.

Definition validate_prefix (text : list Z) (offset : nat) (rule : ScanRule) : bool :=
  let start := (offset + length (r_keyword rule))%nat in
  if negb (boundary_ok text offset rule) then false
  else if negb (r_nocase rule) && negb (starts_with (r_keyword rule) (drop offset text)) then false
  else if (length text <=? start)%nat then false
  else
    let tail := tail_len text start rule in
    if Z.of_nat tail <? r_tail_min rule then false
    else if (0 <? r_entropy rule) && (8 <=? tail)%nat &&
            entropy_below (byte_counts (take tail (drop start text))) (Z.of_nat tail) (r_entropy rule)
    then false
    else true.

(** The search for [=] or [:]; [None] at the end of the line or the window. *)
Fixpoint find_assign (window : list Z) (i : nat) : option nat :=
  match window with
  | [] => None
  | c :: w =>
      if (c =? 10) || (c =? 13) then None
      else if (c =? "="%char) || (c =? ":"%char) then Some i
      else find_assign w (S i)
  end.

Definition is_value_lead (c : Z) : bool :=
  (c =? " "%char) || (c =? 9) || (c =? 34) || (c =? "'"%char) || (c =? "`"%char).

Definition isalpha (c : Z) : bool := is_upper c || is_lower c.

Definition validate_keyword (text : list Z) (offset : nat) (rule : ScanRule) : option (nat * nat) :=
  let kw_end := (offset + length (r_keyword rule))%nat in
  if negb (boundary_ok text offset rule) then None
  else
    match find_assign (take 30 (drop kw_end text)) kw_end with
    | None => None
    | Some eq_pos =>
        let val_start :=
          (eq_pos + 1 + run_len is_value_lead (length text) (drop (eq_pos + 1) text))%nat in
        if (length text <=? val_start)%nat then None
        else
          let val_len := tail_len text val_start rule in
          let value := take val_len (drop val_start text) in
          if Z.of_nat val_len <? r_tail_min rule then None
          else if forallb (fun c => isalpha c || (c =? "_"%char) || (c =? "-"%char) || (c =? "."%char)) value
          then None
          else if entropy_below (byte_counts value) (Z.of_nat val_len) (r_entropy rule) then None
          else Some (val_start, val_len)
    end.

(** The bounded decoder: [None] rejects, otherwise the bytes decoded and
    whether one was a colon. *)
Fixpoint decode_basic (run : list Z) (dn : nat) (bits acc : Z) (has_colon : bool)
    : option (nat * bool) :=
  match run with
  | [] => Some (dn, has_colon)
  | c :: run' =>
      if (96 <=? dn)%nat then Some (dn, has_colon)
      else
        let v := b64val c in
        if v <? 0 then Some (dn, has_colon)
        else
          let acc := wrap32 (Z.lor (Z.shiftl acc 6) v) in
          let bits := bits + 6 in
          if 8 <=? bits then
            let bits := bits - 8 in
            let o := Z.land (Z.shiftr acc bits) 0xFF in
            if (o <? 0x20) || (0x7E <? o) then None
            else decode_basic run' (S dn) bits acc (has_colon || (o =? ":"%char))
          else decode_basic run' dn bits acc has_colon
  end.

Definition validate_base64 (text : list Z) (offset : nat) (rule : ScanRule) : option (nat * nat) :=
  let start := (offset + length (r_keyword rule))%nat in
  if negb (boundary_ok text offset rule) then None
  else if (length text <=? start)%nat then None
  else
    let run := run_len (fun c => negb ((b64val c <? 0) && negb (c =? "="%char)))
                 (Z.to_nat (r_tail_max rule)) (drop start text) in
    if Z.of_nat run <? r_tail_min rule then None
    else match decode_basic (take run (drop start text)) 0 0 0 false with
         | None => None
         | Some (dn, has_colon) =>
             if (dn <? 2)%nat || negb has_colon then None else Some (start, run)
         end.

(** [find_nocase(hay, n, needle)] with [hay] cut to [n] bytes. *)
Fixpoint find_from (hay : list Z) (needle : cstring) : option nat :=
  if starts_with needle (map ascii_lower hay) then Some 0%nat
  else match hay with
       | [] => None
       | _ :: hay' => option_map S (find_from hay' needle)
       end.

Definition find_nocase (hay : list Z) (needle : cstring) : option nat :=
  if (length needle =? 0)%nat || (length hay <? length needle)%nat then None
  else find_from hay needle.

Definition SPAN_MAX_BLOCK : nat := Z.to_nat 16384.

Definition validate_span (text : list Z) (offset : nat) (rule : ScanRule) : option nat :=
  let start := (offset + length (r_keyword rule))%nat in
  if (length text <=? start)%nat then None
  else
    let hdr := take 116 (drop start text) in
    match find_nocase hdr (bs "private key") with
    | None => None
    | Some pk =>
        let later_line := match find_nocase hdr [10] with Some nl => (nl <? pk)%nat | None => false end in
        if later_line then None
        else
          let cap := Nat.min (length text - offset) SPAN_MAX_BLOCK in
          let block := take cap (drop offset text) in
          match find_nocase block (bs "-----end") with
          | None => Some cap
          | Some end_m =>
              let rest_off := (end_m + 8)%nat in
              match find_nocase (drop rest_off block) (bs "-----") with
              | Some close => Some (rest_off + close + 5)%nat
              | None => Some cap
              end
          end
    end.
End Validate.

(** ** The scan *)
Definition is_ph_char (c : Z) : bool := is_upper c || is_digit c || (c =? "_"%char).

Fixpoint placeholder_loop (fuel : nat) (text : list Z) (p off mlen : nat) : bool :=
  match fuel with
  | O => false
  | S fuel' =>
      match find_nocase (drop p text) (bs "{{secret:") with
      | None => false
      | Some s =>
          let len := length text in
          let ph_start := (p + s)%nat in
          let i0 := (ph_start + 9)%nat in
          let i := (i0 + run_len is_ph_char (len - 1 - i0) (drop i0 text))%nat in
          if (i + 1 <? len)%nat && (byte_at text i =? "}"%char) && (byte_at text (i + 1) =? "}"%char)
          then
            let ph_end := (i + 2)%nat in
            if (off <? ph_end)%nat && (ph_start <? off + mlen)%nat then true
            else if (ph_end <=? off)%nat then placeholder_loop fuel' text ph_end off mlen
            else false
          else placeholder_loop fuel' text (ph_start + 9) off mlen
      end
  end.

Definition in_placeholder (text : list Z) (off mlen : nat) : bool :=
  placeholder_loop (S (length text)) text 0 off mlen.

(** Case folding at scan time: [b |= 0x20]. *)
Definition scan_fold (b : Z) : Z := if is_upper b then Z.lor b 0x20 else b.

Definition ztab {A} (d : A) (l : list A) (i : Z) : A := nth (Z.to_nat i) l d.

Definition scan_step (state b : Z) : Z :=
  if 128 <=? b then 0
  else ztab 0 (ztab [] scan_ac_goto state) (ztab 0 scan_ac_col (scan_fold b)).

(** The rules a state accepts. *)
Definition state_accepts (state : Z) : list Z :=
  let row := ztab [] scan_ac_accept state in
  take (Z.to_nat (hd 0 row)) (tl row).

Section Scan.
Context `{Entropy}.

(** One accepting rule at [i]: the finding it validates, if any. *)
Definition try_rule (text : list Z) (i : nat) (rule_idx : Z) : option ScanFinding :=
  if (rule_idx <? 0) || (SCAN_RULE_COUNT <=? rule_idx) then None
  else
    match scan_rules !! Z.to_nat rule_idx with
    | None => None
    | Some rule =>
        let kw_len := length (r_keyword rule) in
        if (S i <? kw_len)%nat then None
        else
          let off := (S i - kw_len)%nat in
          match r_vtype rule with
          | SCAN_VTYPE_LITERAL =>
              if boundary_ok text off rule &&
                 (r_nocase rule || starts_with (r_keyword rule) (drop off text))
              then Some (mk_finding (r_id rule) off kw_len) else None
          | SCAN_VTYPE_PREFIX =>
              if validate_prefix text off rule
              then Some (mk_finding (r_id rule) off (kw_len + tail_len text (off + kw_len) rule))
              else None
          | SCAN_VTYPE_SPAN =>
              option_map (fun n => mk_finding (r_id rule) off n) (validate_span text off rule)
          | SCAN_VTYPE_BASE64 =>
              option_map (fun v => mk_finding (r_id rule) (fst v) (snd v)) (validate_base64 text off rule)
          | SCAN_VTYPE_KEYWORD =>
              option_map (fun v => mk_finding (r_id rule) (fst v) (snd v)) (validate_keyword text off rule)
          end
    end.

(** [out] and [saturated] after the accepts of one state. *)
Definition record_accepts (text : list Z) (i : nat) (accepts : list Z) (max : nat)
    (st : list ScanFinding * bool) : list ScanFinding * bool :=
  fold_left (fun (st : list ScanFinding * bool) idx =>
    let (out, saturated) := st in
    if saturated then st
    else match try_rule text i idx with
         | None => st
         | Some f => if (length out <? max)%nat then (out ++ [f], false) else (out, true)
         end) accepts st.

Fixpoint scan_loop (text rest : list Z) (i : nat) (state : Z) (max : nat)
    (st : list ScanFinding * bool) : list ScanFinding * bool :=
  match rest with
  | [] => st
  | b :: rest' =>
      if 128 <=? b then scan_loop text rest' (S i) 0 max st
      else
        let state' := scan_step state b in
        scan_loop text rest' (S i) state' max (record_accepts text i (state_accepts state') max st)
  end.

(** [None] is the result [max_findings + 1]: saturated. *)
Definition secret_scan (text : list Z) (max_findings : nat) : option (list ScanFinding) :=
  let (out, saturated) := scan_loop text text 0 0 max_findings ([], false) in
  if saturated then None
  else Some (filter (fun f => in_placeholder text (f_offset f) (f_match_len f) = false) out).

(** ** Redaction *)

(** Replace [old_len] bytes at [offset] in a buffer of [cap] bytes that holds
    [buf]; [false] when bytes were dropped. *)
Definition scan_replace (buf : list Z) (cap : Z) (offset old_len : nat) (tag : cstring)
    : list Z * bool :=
  let rest := drop (offset + old_len) buf in
  if Z.of_nat offset + zlen tag + zlen rest <? cap
  then (take offset buf ++ tag ++ rest, true)
  else
    let fit := (cap - 1) - Z.of_nat offset in
    if fit <=? 0 then (take offset buf, false)
    else
      let tcopy := Z.min fit (zlen tag) in
      let keep := Z.min (fit - tcopy) (zlen rest) in
      (take offset buf ++ take (Z.to_nat tcopy) tag ++ take (Z.to_nat keep) rest, false).

Definition cmp_findings (a b : ScanFinding) : Z :=
  if negb (f_offset a =? f_offset b)%nat then Z.of_nat (f_offset a) - Z.of_nat (f_offset b)
  else Z.of_nat (f_match_len b) - Z.of_nat (f_match_len a).

(** Keep the findings that start past the ones kept so far. *)
Fixpoint keep_loop (covered_end : Z) (fs : list ScanFinding) : list ScanFinding :=
  match fs with
  | [] => []
  | f :: fs' =>
      if covered_end <=? Z.of_nat (f_offset f)
      then f :: keep_loop (Z.of_nat (f_offset f) + Z.of_nat (f_match_len f)) fs'
      else keep_loop covered_end fs'
  end.

(** [snprintf(tag, 80, "[SECRET_DETECTED:%s]", rule_id)]. *)
Definition redact_tag (f : ScanFinding) : cstring :=
  take 79 (bs "[SECRET_DETECTED:" ++ f_rule_id f ++ bs "]").

(** The replacements, last finding first. *)
Definition apply_redactions (text : list Z) (cap : Z) (kept : list ScanFinding) : list Z * bool :=
  fold_right (fun f (st : list Z * bool) =>
    let (buf, ok) := st in
    let (buf', ok') := scan_replace buf cap (f_offset f) (f_match_len f) (redact_tag f) in
    (buf', ok && ok')) (text, true) kept.

(** The new text and the C result. *)
Definition secret_scan_redact `{Qsort} (text : list Z) (cap : Z) : list Z * Z :=
  match secret_scan text SCAN_MAX_FINDINGS with
  | None =>
      let tag := bs "[SECRET_DETECTED:content_redacted]" in
      (if zlen tag <? cap then tag else [], 1)
  | Some [] => (text, 0)
  | Some findings =>
      let kept := keep_loop (-1) (qsort cmp_findings findings) in
      let (buf, ok) := apply_redactions text cap kept in
      (buf, if ok then zlen kept else -1)
  end.
End Scan.
