(* ===== verification/AhoCorasick.v ===== *)
(** * The automaton of the scanner is Aho-Corasick

    The tables of src/secret_scan_ac.h are checked against a certificate (the
    trie the generator built them from: for each state its parent, the byte
    from the parent and the failure state) by evaluation, and the checks give
    that a state names the longest suffix of the text that is a prefix of a
    keyword, and accepts exactly the rules whose keyword ends there. *)
From S2P Require Import Prelude CString Libc Codec SecretScanTables SecretScan.

(** Parent, byte and failure state of every state. *)
Definition trie : list (Z * Z * Z) := [
  (0,0,0); (0,97,0); (1,103,121); (2,101,154); (3,45,199); (4,115,17);
  (5,101,111); (6,99,112); (7,114,113); (8,101,114); (9,116,115); (10,45,199);
  (11,107,88); (12,101,89); (13,121,90); (14,45,199); (15,49,0); (0,115,0);
  (17,107,88); (18,45,199); (19,97,1); (20,110,181); (21,116,182); (22,45,199);
  (23,97,1); (24,100,49); (25,109,0); (26,105,0); (27,110,181); (28,48,0);
  (29,49,0); (24,112,83); (31,105,84); (32,48,0); (33,51,0); (1,51,0);
  (35,116,116); (1,107,88); (37,105,0); (38,97,1); (1,115,17); (40,105,0);
  (41,97,1); (1,98,313); (43,105,0); (44,97,1); (1,99,91); (46,99,91);
  (47,97,1); (0,100,0); (49,97,1); (50,112,83); (51,105,84); (49,111,0);
  (53,111,0); (54,95,0); (55,118,0); (56,49,0); (57,95,0); (53,112,102);
  (59,95,0); (60,118,0); (61,49,0); (62,95,0); (49,112,102); (64,46,0);
  (65,112,102); (66,116,116); (67,46,0); (0,102,0); (69,111,0); (70,49,0);
  (71,95,0); (69,109,0); (73,49,0); (73,50,0); (75,95,0); (1,105,0);
  (77,122,0); (78,97,1); (47,101,154); (80,115,17); (81,115,17); (1,112,102);
  (83,105,0); (1,117,0); (85,116,116); (86,104,164); (0,107,0); (88,101,154);
  (89,121,155); (0,99,0); (91,114,288); (92,101,154); (93,100,49); (94,101,154);
  (95,110,181); (96,116,182); (97,105,0); (98,97,1); (99,108,173); (94,115,17);
  (0,112,0); (102,97,1); (103,115,40); (104,115,17); (105,119,0); (106,100,49);
  (106,111,0); (108,114,288); (109,100,49); (17,101,154); (111,99,91); (112,114,92);
  (113,101,93); (114,116,116); (0,116,0); (116,111,0); (117,107,88); (118,101,89);
  (119,110,181); (0,103,0); (121,104,164); (122,117,0); (123,95,0); (122,115,17);
  (125,95,0); (121,105,0); (127,116,116); (128,104,164); (129,117,0); (130,98,313);
  (131,95,0); (132,112,102); (133,97,103); (134,116,116); (135,95,0); (122,111,246);
  (137,95,0); (122,112,102); (139,95,0); (122,114,165); (141,95,0); (121,108,173);
  (143,112,102); (144,97,103); (145,116,116); (146,45,199); (144,116,116); (148,116,116);
  (149,45,199); (143,114,288); (151,116,116); (152,45,199); (0,101,0); (154,121,0);
  (155,106,0); (156,114,288); (157,105,0); (158,106,0); (159,111,0); (160,105,0);
  (143,99,91); (162,95,0); (0,104,0); (164,114,288); (165,107,289); (166,117,0);
  (167,45,199); (168,97,1); (169,97,1); (164,102,69); (171,95,0); (0,108,0);
  (173,105,0); (174,110,181); (175,95,0); (176,97,1); (177,112,83); (178,105,84);
  (179,95,0); (0,110,0); (181,116,116); (182,110,181); (183,95,0); (181,112,102);
  (185,109,0); (186,95,0); (116,51,0); (188,98,313); (189,108,173); (190,98,313);
  (191,107,88); (192,102,69); (193,106,0); (102,112,102); (195,108,173); (196,120,238);
  (197,45,199); (0,45,0); (199,45,199); (200,45,200); (201,45,201); (202,45,202);
  (203,98,313); (204,101,314); (205,103,121); (206,105,127); (207,110,181); (102,121,0);
  (209,112,102); (210,105,0); (211,45,199); (212,97,1); (213,103,2); (214,101,3);
  (215,105,0); (216,99,91); (217,104,164); (218,108,173); (219,119,0); (220,97,1);
  (221,115,40); (222,53,0); (223,118,0); (224,99,91); (225,109,0); (226,99,91);
  (17,103,121); (228,46,0); (17,104,164); (230,112,102); (231,97,103); (232,116,116);
  (233,95,0); (231,99,91); (235,97,1); (236,95,0); (0,120,0); (238,111,0);
  (239,120,238); (240,98,313); (240,112,102); (242,45,199); (240,101,154); (244,45,199);
  (164,111,0); (246,111,0); (247,107,88); (248,115,17); (249,46,0); (250,115,17);
  (251,108,173); (252,97,1); (253,99,46); (254,107,88); (255,46,0); (256,99,91);
  (257,111,0); (258,109,0); (17,110,181); (260,121,0); (261,107,88); (228,112,102);
  (263,95,0); (17,111,0); (265,117,0); (266,114,288); (267,99,91); (268,101,154);
  (269,103,121); (270,114,288); (271,97,1); (272,112,83); (273,104,164); (18,95,0);
  (275,116,116); (276,101,303); (277,115,17); (278,116,116); (275,108,173); (280,105,174);
  (281,118,0); (282,101,154); (275,112,102); (284,114,288); (285,111,0); (286,100,49);
  (0,114,0); (288,107,88); (289,95,0); (290,116,116); (291,101,303); (292,115,17);
  (293,116,116); (290,108,173); (295,105,174); (296,118,0); (297,101,154); (290,112,102);
  (299,114,288); (300,111,0); (301,100,49); (116,101,154); (303,108,173); (304,101,154);
  (305,103,121); (306,114,288); (164,118,0); (308,98,313); (309,46,0); (308,115,17);
  (311,46,0); (0,98,0); (313,101,154); (314,97,1); (315,114,288); (316,101,154);
  (317,114,288); (318,32,0); (313,97,1); (320,115,40); (321,105,41); (322,99,91);
  (323,32,0); (240,97,331); (325,45,199); (240,114,288); (327,45,199); (240,115,17);
  (329,45,199); (238,97,1); (331,112,83); (332,112,195); (333,45,199)].

Definition par (s : Z) : Z := (ztab (0, 0, 0) trie s).1.1.
Definition ch (s : Z) : Z := (ztab (0, 0, 0) trie s).1.2.
Definition fail (s : Z) : Z := (ztab (0, 0, 0) trie s).2.
Definition goto (s c : Z) : Z := ztab 0 (ztab [] scan_ac_goto s) c.
Definition col (c : Z) : Z := ztab 0 scan_ac_col c.

(** The string a state stands for; no keyword is longer than 32 bytes. *)
Fixpoint lab_of (fuel : nat) (s : Z) : list Z :=
  match fuel with
  | O => []
  | S fuel' => if s =? 0 then [] else lab_of fuel' (par s) ++ [ch s]
  end.
Definition lab (s : Z) : list Z := lab_of 32 s.

Definition state_ok (s : Z) : Prop := 0 <= s < 335.

(** The lowercase keyword of a rule. *)
Definition kw_of (rule : ScanRule) : list Z := lower (r_keyword rule).

(** ** The checks *)
Definition all_below (n : nat) (P : Z -> bool) : bool := forallb P (map Z.of_nat (seq 0 n)).

Definition list_eqb (a b : list Z) : bool := bool_decide (a = b).
Definition in_states (s : Z) : bool := (0 <=? s) && (s <? 335).

Definition parent_ok (s : Z) : bool :=
  in_states (par s) && in_states (fail s) &&
  ((s =? 0) || (list_eqb (lab s) (lab (par s) ++ [ch s]))).

Fixpoint distinct (l : list (list Z)) : bool :=
  match l with
  | [] => true
  | w :: l' => negb (existsb (list_eqb w) l') && distinct l'
  end.

Definition labels : list (list Z) := map (fun i => lab (Z.of_nat i)) (seq 0 335).

Definition states : list Z := map Z.of_nat (seq 0 335).

Definition children (s : Z) : list Z :=
  List.filter (fun t => negb (t =? 0) && (par t =? s)) states.

Definition child_at (kids : list (Z * Z)) (j : Z) : option Z :=
  option_map snd (List.find (fun kt => kt.1 =? j) kids).

Definition entry_ok (s : Z) (kids : list (Z * Z)) (j : Z) : bool :=
  in_states (goto s j) &&
  match child_at kids j with
  | Some t => goto s j =? t
  | None => goto s j =? (if s =? 0 then 0 else goto (fail s) j)
  end.

Definition kids_of (s : Z) : list (Z * Z) := map (fun t => (col (ch t), t)) (children s).

Definition row_ok (s : Z) : bool := let kids := kids_of s in all_below 35 (entry_ok s kids).

Definition failure_ok (s : Z) : bool :=
  (s =? 0) || (fail s =? (if par s =? 0 then 0 else goto (fail (par s)) (col (ch s)))).

(** Columns are in range and tell the bytes of the trie apart. *)
Definition col_in (c : Z) : bool := (0 <=? col c) && (col c <? 35).
Definition same_col (s c : Z) : bool := is_upper c || negb (col c =? col (ch s)) || (c =? ch s).
Definition byte_col_ok (s : Z) : bool :=
  (s =? 0) || ((0 <=? ch s) && (ch s <? 128) && negb (is_upper (ch s)) && all_below 128 (same_col s)).

Definition accepted_by (kws : list (list Z)) (s : Z) : list Z :=
  let back := rev (lab s) in
  map (fun kr => Z.of_nat kr.1) (List.filter (fun kr => starts_with kr.2 back) (combine (seq 0 73) kws)).

Definition rev_keywords : list (list Z) := map (fun r => rev (kw_of r)) scan_rules.

Definition accepts_ok (kws : list (list Z)) (s : Z) : bool :=
  list_eqb (accepted_by kws s) (state_accepts s).

Definition keyword_ok (labels : list (list Z)) (r : ScanRule) : bool :=
  existsb (list_eqb (kw_of r)) labels && negb (length (r_keyword r) =? 0)%nat.

Lemma c1 : all_below 335 parent_ok = true.
Proof. by vm_compute. Qed.
Lemma c2 : distinct labels = true.
Proof. by vm_compute. Qed.
Lemma c3 : all_below 335 row_ok = true.
Proof. by vm_compute. Qed.
Lemma c4 : all_below 335 failure_ok = true.
Proof. by vm_compute. Qed.
Lemma c5 : all_below 128 col_in = true.
Proof. by vm_compute. Qed.
Lemma c5' : all_below 335 byte_col_ok = true.
Proof. by vm_compute. Qed.
Lemma c6 : (let kws := rev_keywords in all_below 335 (accepts_ok kws)) = true.
Proof. by vm_compute. Qed.
Lemma c7 : (let l := labels in forallb (keyword_ok l) scan_rules) = true.
Proof. by vm_compute. Qed.
#[local] Strategy expand [parent_ok row_ok entry_ok child_at kids_of children failure_ok
  col_in byte_col_ok same_col accepts_ok accepted_by keyword_ok].
#[local] Opaque lab goto col par ch fail labels states state_accepts scan_rules.

(** ** Reading the checks *)

Lemma all_below_spec n P : all_below n P = true -> forall i, 0 <= i < Z.of_nat n -> P i = true.
Proof. apply below_forall. Qed.

Lemma states_forall (P : Z -> bool) :
  all_below 335 P = true -> forall s, state_ok s -> P s = true.
Proof. intros H s Hs. exact (below_forall 335 P H s Hs). Qed.

Lemma in_states_ok s : in_states s = true <-> state_ok s.
Proof. unfold in_states, state_ok. lia. Qed.

Lemma par_fail_ok s : state_ok s -> state_ok (par s) /\ state_ok (fail s).
Proof.
  intros Hs. pose proof (states_forall _ c1 s Hs) as H. unfold parent_ok in H.
  apply andb_true_iff in H as [H _]. apply andb_true_iff in H as [H1 H2].
  by apply in_states_ok in H1, H2.
Qed.

Lemma lab_par s : state_ok s -> s <> 0 -> lab s = lab (par s) ++ [ch s].
Proof.
  intros Hs Hne. pose proof (states_forall _ c1 s Hs) as H. unfold parent_ok in H.
  apply andb_true_iff in H as [_ H]. replace (s =? 0) with false in H by lia.
  by apply bool_decide_eq_true in H.
Qed.

Lemma lab_0 : lab 0 = [].
Proof. Transparent lab. reflexivity. Qed.
#[local] Opaque lab.

Lemma nodup_check (l : list (list Z)) :
  distinct l = true -> NoDup l.
Proof.
  induction l as [|w l IH]; [constructor|]. cbn [distinct]. rewrite andb_true_iff, negb_true_iff.
  intros [Hw Hl]. constructor; [|by apply IH]. intros Hin.
  assert (existsb (list_eqb w) l = true); [|congruence].
  apply existsb_exists. exists w. split; [by apply list_elem_of_In|].
  by apply bool_decide_eq_true.
Qed.

(** States with the same string are the same. *)
Lemma lab_inj s t : state_ok s -> state_ok t -> lab s = lab t -> s = t.
Proof.
  intros Hs Ht E. pose proof (nodup_check _ c2) as Hn.
  assert (Hl : forall s, state_ok s ->
    labels !! Z.to_nat s = Some (lab s)).
  { intros r Hr. unfold state_ok in Hr. Transparent labels. unfold labels. rewrite list_lookup_fmap, lookup_seq_lt by lia. simpl.
    do 2 f_equal. lia. }
  assert (Z.to_nat s = Z.to_nat t).
  { eapply NoDup_lookup; [exact Hn | by apply Hl | rewrite E; by apply Hl]. }
  unfold state_ok in *. lia.
Qed.

Lemma state_ok_0 : state_ok 0.
Proof. unfold state_ok. lia. Qed.

Lemma in_states_iff n t : In t (map Z.of_nat (seq 0 n)) <-> 0 <= t < Z.of_nat n.
Proof.
  rewrite in_map_iff. split.
  - intros (i & <- & Hi). apply in_seq in Hi. lia.
  - intros H. exists (Z.to_nat t). rewrite in_seq. lia.
Qed.

Lemma children_spec s t :
  In t (children s) <-> state_ok t /\ t <> 0 /\ par t = s.
Proof.
  unfold children.
  rewrite filter_In, andb_true_iff, negb_true_iff, Z.eqb_neq, Z.eqb_eq.
  Transparent states. unfold states. rewrite in_states_iff. done.
Qed.

Definition scan_byte (c : Z) : Prop := 0 <= c < 128 /\ is_upper c = false.

Lemma col_ok c : 0 <= c < 128 -> 0 <= col c < 35.
Proof.
  intros Hc. pose proof (all_below_spec 128 _ c5 c Hc) as H. unfold col_in in H. lia.
Qed.

Lemma ch_ok s : state_ok s -> s <> 0 -> scan_byte (ch s) /\
  forall c, scan_byte c -> col c = col (ch s) -> c = ch s.
Proof.
  intros Hs Hne. pose proof (states_forall _ c5' s Hs) as H. unfold byte_col_ok in H.
  replace (s =? 0) with false in H by lia. cbn [orb] in H.
  rewrite !andb_true_iff, negb_true_iff in H. destruct H as [[[H1 H2] H3] H4].
  split; [split; [lia | done]|]. intros c [Hc Hu] E.
  pose proof (all_below_spec 128 _ H4 c Hc) as H5. unfold same_col in H5.
  rewrite Hu, E, Z.eqb_refl in H5. cbn [negb orb] in H5. lia.
Qed.

(** The tables, read through the certificate. *)
Lemma goto_spec s c : state_ok s -> scan_byte c ->
  state_ok (goto s (col c)) /\
  ((exists t, state_ok t /\ t <> 0 /\ par t = s /\ ch t = c /\ goto s (col c) = t) \/
   ((forall t, state_ok t -> t <> 0 -> par t = s -> ch t <> c) /\
    goto s (col c) = if s =? 0 then 0 else goto (fail s) (col c))).
Proof.
  intros Hs Hc. pose proof (states_forall _ c3 s Hs) as H. unfold row_ok in H.
  pose proof (all_below_spec 35 _ H (col c) (col_ok c (proj1 Hc))) as H1. unfold entry_ok in H1.
  apply andb_true_iff in H1 as [H1 H2]. split; [by apply in_states_ok|].
  unfold child_at in H2.
  destruct (List.find _ (kids_of s)) as [[j t]|] eqn:E; cbn [option_map snd] in H2.
  - left. apply find_some in E as [Hin Hj]. cbn [fst] in Hj. unfold kids_of in Hin.
    apply in_map_iff in Hin as (t' & [= <- <-] & Ht).
    apply children_spec in Ht as (Ht & Hne & Hp). exists t'.
    destruct (ch_ok t' Ht Hne) as [_ Hcol]. split_all; try done; [|lia].
    symmetry. apply Hcol; [done|lia].
  - right. split; [|lia]. intros t Ht Hne Hp Ec.
    assert (Hin : In (col (ch t), t) (kids_of s)).
    { unfold kids_of. apply in_map_iff. exists t. split; [done|]. by apply children_spec. }
    pose proof (find_none _ _ E _ Hin) as Hf. cbn [fst] in Hf. rewrite Ec in Hf. lia.
Qed.

Lemma fail_spec s : state_ok s -> s <> 0 ->
  fail s = if par s =? 0 then 0 else goto (fail (par s)) (col (ch s)).
Proof.
  intros Hs Hne. pose proof (states_forall _ c4 s Hs) as H. unfold failure_ok in H. lia.
Qed.

(** ** Longest suffixes *)

(** A prefix of a keyword: the string of a state. *)
Definition is_label (w : list Z) : Prop := exists s, state_ok s /\ lab s = w.

Definition longest (w u : list Z) : Prop :=
  u `suffix_of` w /\ is_label u /\ forall v, v `suffix_of` w -> is_label v -> v `suffix_of` u.

Lemma label_prefix v c : is_label (v ++ [c]) -> is_label v.
Proof.
  intros (s & Hs & E). destruct (decide (s = 0)) as [->|Hne].
  - rewrite lab_0 in E. by destruct v.
  - rewrite lab_par in E by done. apply app_inj_tail in E as [<- _].
    exists (par s). split; [by apply par_fail_ok | done].
Qed.

Lemma label_nil : is_label [].
Proof. exists 0. split; [apply state_ok_0 | apply lab_0]. Qed.

Lemma suffix_snoc_inv (v w : list Z) (c : Z) : v `suffix_of` w ++ [c] -> v = [] \/ exists v', v = v' ++ [c] /\ v' `suffix_of` w.
Proof.
  intros [k E]. destruct v as [|x v] using rev_ind; [by left|]. right.
  rewrite app_assoc in E. apply app_inj_tail in E as [-> ->].
  exists v. split; [done|]. by exists k.
Qed.

Lemma longest_step w u c x : longest w u -> longest (u ++ [c]) x -> longest (w ++ [c]) x.
Proof.
  intros (Hu & Lu & Hmax) (Hx & Lx & Hmax'). unfold longest. split_all; [|done|].
  - etrans; [exact Hx|]. by apply suffix_app.
  - intros v Hv Lv. apply suffix_snoc_inv in Hv as [-> | (v' & -> & Hv')]; [by apply suffix_nil|].
    apply Hmax'; [|done]. apply suffix_app. apply Hmax; [done|]. by eapply label_prefix.
Qed.

Lemma longest_label w : is_label w -> longest w w.
Proof. intros H. unfold longest. by split_all. Qed.

Lemma longest_proper w x : ~ is_label w -> longest (tl w) x -> longest w x.
Proof.
  intros Hw (Hx & Lx & Hmax). unfold longest. split_all; [|done|].
  - destruct w as [|c w]; [done|]. simpl in Hx. by apply suffix_cons_r.
  - intros v Hv Lv. apply Hmax; [|done]. destruct w as [|c w]; [done|].
    destruct v as [|y v]; [by apply suffix_nil|].
    apply suffix_cons_inv in Hv as [E | Hv]; [by rewrite E in Lv | done].
Qed.

Lemma longest_length w u : longest w u -> (length u <= length w)%nat.
Proof. intros ([k ->] & _). rewrite length_app. lia. Qed.

(** A transition leads to the longest suffix; the failure state is the longest
    proper suffix. *)
Lemma automaton_correct n :
  (forall s, state_ok s -> (length (lab s) <= n)%nat ->
     (s <> 0 -> longest (tl (lab s)) (lab (fail s))) /\
     forall c, scan_byte c -> longest (lab s ++ [c]) (lab (goto s (col c)))).
Proof.
  induction n as [n IH] using lt_wf_ind. intros s Hs Hn.
  assert (F : s <> 0 -> longest (tl (lab s)) (lab (fail s))).
  { intros Hne. rewrite (lab_par s Hs Hne), (fail_spec s Hs Hne).
    destruct (par_fail_ok s Hs) as [Hp _].
    assert (Hl : (length (lab (par s)) < length (lab s))%nat)
      by (rewrite (lab_par s Hs Hne), length_app; simpl; lia).
    case_if.
    - replace (par s) with 0 by lia. rewrite lab_0. simpl. apply longest_label, label_nil.
    - assert (Hp0 : par s <> 0) by lia.
      destruct (IH (length (lab (par s))) ltac:(lia) (par s) Hp ltac:(lia)) as [Fp _].
      specialize (Fp Hp0). pose proof (longest_length _ _ Fp) as Hfl.
      assert (Hnp : lab (par s) = lab (par (par s)) ++ [ch (par s)]) by (by apply lab_par).
      assert (Htl : (length (tl (lab (par s))) < length (lab (par s)))%nat).
      { rewrite Hnp. destruct (lab (par (par s))); simpl; rewrite ?length_app; simpl; lia. }
      destruct (par_fail_ok (par s) Hp) as [_ Hf].
      destruct (IH (length (lab (fail (par s)))) ltac:(lia) _ Hf ltac:(lia)) as [_ G].
      replace (tl (lab (par s) ++ [ch s])) with (tl (lab (par s)) ++ [ch s])
        by (rewrite Hnp; by destruct (lab (par (par s)))).
      eapply longest_step; [exact Fp|]. apply G. by apply ch_ok. }
  split; [done|]. intros c Hc.
  destruct (goto_spec s c Hs Hc) as [Hg [(t & Ht & Hne & Hp & Ech & E) | [Hno E]]].
  - rewrite E, (lab_par t Ht Hne), Hp, Ech. apply longest_label.
    exists t. split; [done|]. by rewrite (lab_par t Ht Hne), Hp, Ech.
  - assert (Hnl : ~ is_label (lab s ++ [c])).
    { intros (t & Ht & El). destruct (decide (t = 0)) as [->|Hne].
      - rewrite lab_0 in El. by destruct (lab s).
      - rewrite (lab_par t Ht Hne) in El. apply app_inj_tail in El as [El Ech].
        apply (Hno t Ht Hne); [|done]. destruct (par_fail_ok t Ht) as [Hp _].
        by apply lab_inj. }
    rewrite E. case_if.
    + replace s with 0 in * by lia. rewrite lab_0 in *. apply longest_proper; [done|].
      simpl. apply longest_label, label_nil.
    + assert (Hs0 : s <> 0) by lia. specialize (F Hs0).
      destruct (par_fail_ok s Hs) as [_ Hf].
      pose proof (longest_length _ _ F) as Hfl.
      assert (Htl : (length (tl (lab s)) < length (lab s))%nat).
      { rewrite (lab_par s Hs Hs0). destruct (lab (par s)); simpl; rewrite ?length_app; simpl; lia. }
      destruct (IH (length (lab (fail s))) ltac:(lia) _ Hf ltac:(lia)) as [_ G].
      apply longest_proper; [done|].
      replace (tl (lab s ++ [c])) with (tl (lab s) ++ [c])
        by (rewrite (lab_par s Hs Hs0); by destruct (lab (par s))).
      eapply longest_step; [exact F|]. by apply G.
Qed.

(** ** The scan finds every keyword *)

(** The case-folded ASCII text since the last other byte. *)
Definition run_step (r : list Z) (b : Z) : list Z :=
  if 128 <=? b then [] else r ++ [scan_fold b].

Lemma scan_fold_byte b : byte_ok b -> (128 <=? b) = false -> scan_byte (scan_fold b).
Proof.
  intros Hb H.
  pose (P b := in_range 0 127 (scan_fold b) && negb (is_upper (scan_fold b))).
  assert (HP : P b = true) by (apply (below_forall 128); [by vm_compute | unfold byte_ok in Hb; lia]).
  unfold P, in_range in HP. apply andb_true_iff in HP as [H1 H2]. apply negb_true_iff in H2.
  split; [lia | done].
Qed.

Lemma scan_step_goto s b : (128 <=? b) = false -> scan_step s b = goto s (col (scan_fold b)).
Proof. intros H. unfold scan_step. by rewrite H. Qed.

Lemma scan_step_longest s r b :
  byte_ok b -> state_ok s -> longest r (lab s) ->
  state_ok (scan_step s b) /\ longest (run_step r b) (lab (scan_step s b)).
Proof.
  intros Hb Hs Hl. unfold run_step. destruct (128 <=? b) eqn:E.
  - replace (scan_step s b) with 0 by (unfold scan_step; by rewrite E).
    split; [apply state_ok_0|]. rewrite lab_0. apply longest_label, label_nil.
  - rewrite scan_step_goto by done. pose proof (scan_fold_byte b Hb E) as Hc.
    split; [by apply goto_spec|]. eapply longest_step; [exact Hl|].
    by apply (automaton_correct (length (lab s))).
Qed.

Lemma starts_with_rev w s : starts_with (rev w) (rev s) = true <-> w `suffix_of` s.
Proof.
  rewrite starts_with_spec. split.
  - intros [t E]. exists (rev t). apply (f_equal (@rev Z)) in E.
    by rewrite rev_app_distr, !rev_involutive in E.
  - intros [k ->]. exists (rev k). by rewrite rev_app_distr.
Qed.

Lemma keyword_label r : In r scan_rules -> is_label (kw_of r).
Proof.
  intros Hr. pose proof c7 as H. cbv zeta in H. rewrite forallb_forall in H.
  specialize (H r Hr). unfold keyword_ok in H. apply andb_true_iff in H as [H _].
  apply existsb_exists in H as (w & Hw & E). apply bool_decide_eq_true in E as <-.
  Transparent labels. unfold labels in Hw. apply in_map_iff in Hw as (i & <- & Hi).
  apply in_seq in Hi. exists (Z.of_nat i). split; [unfold state_ok; lia | done].
Qed.

(** The rules whose keyword ends the run, by plain comparison. *)
Definition matching_rules (r : list Z) : list Z :=
  let back := rev r in
  map (fun kr => Z.of_nat kr.1)
    (List.filter (fun kr => starts_with kr.2 back) (combine (seq 0 73) rev_keywords)).

Lemma accepts_matching s r :
  state_ok s -> longest r (lab s) -> state_accepts s = matching_rules r.
Proof.
  intros Hs (Hsuf & _ & Hmax). pose proof c6 as H. cbv zeta in H.
  pose proof (states_forall _ H s Hs) as Ha. unfold accepts_ok in Ha.
  apply bool_decide_eq_true in Ha as <-. unfold accepted_by, matching_rules. f_equal.
  apply filter_ext_in. intros [k w] Hin. apply in_combine_r in Hin. cbn [snd].
  unfold rev_keywords in Hin. apply in_map_iff in Hin as (rule & <- & Hr).
  apply eq_true_iff_eq. rewrite !starts_with_rev. split; [by etrans|].
  intros Hk. apply Hmax; [done|]. by apply keyword_label.
Qed.

(** The reference scan: at every byte, every rule is compared with the text. *)
Section Reference.
Context `{Entropy}.

Fixpoint reference_loop (text rest : list Z) (i : nat) (run : list Z) (max : nat)
    (st : list ScanFinding * bool) : list ScanFinding * bool :=
  match rest with
  | [] => st
  | b :: rest' =>
      let run' := run_step run b in
      reference_loop text rest' (S i) run' max (record_accepts text i (matching_rules run') max st)
  end.

Definition reference_scan (text : list Z) (max_findings : nat) : option (list ScanFinding) :=
  let (out, saturated) := reference_loop text text 0 [] max_findings ([], false) in
  if saturated then None
  else Some (filter (fun f => in_placeholder text (f_offset f) (f_match_len f) = false) out).

Lemma matching_nil : matching_rules [] = [].
Proof.
  rewrite <- (accepts_matching 0 []); [by vm_compute | apply state_ok_0 |].
  rewrite lab_0. apply longest_label, label_nil.
Qed.

Lemma record_nil text i max st : record_accepts text i [] max st = st.
Proof. reflexivity. Qed.

#[local] Opaque scan_step matching_rules record_accepts.
Lemma scan_loop_cons text b rest i s max st :
  scan_loop text (b :: rest) i s max st =
  if 128 <=? b then scan_loop text rest (S i) 0 max st
  else scan_loop text rest (S i) (scan_step s b) max
         (record_accepts text i (state_accepts (scan_step s b)) max st).
Proof. reflexivity. Qed.

Lemma reference_loop_cons text b rest i r max st :
  reference_loop text (b :: rest) i r max st =
  reference_loop text rest (S i) (run_step r b) max
    (record_accepts text i (matching_rules (run_step r b)) max st).
Proof.
  (* the accepted rules are abstracted before the kernel compares the loops *)
  unfold reference_loop. fold reference_loop.
  set (x := matching_rules _). clearbody x. reflexivity.
Qed.

Lemma scan_loop_reference text rest i s r max st :
  bytes_ok rest -> state_ok s -> longest r (lab s) ->
  scan_loop text rest i s max st = reference_loop text rest i r max st.
Proof.
  revert i s r st. induction rest as [|b rest IH]; intros i s r st Hb Hs Hl; [done|].
  apply bytes_ok_cons in Hb as [Hb Hr]. rewrite scan_loop_cons, reference_loop_cons.
  destruct (scan_step_longest s r b Hb Hs Hl) as [Hs' Hl'].
  destruct (128 <=? b) eqn:E.
  - assert (Er : run_step r b = []) by (unfold run_step; by rewrite E).
    rewrite Er, matching_nil, record_nil.
    apply IH; [done | apply state_ok_0 |]. rewrite lab_0. apply longest_label, label_nil.
  - rewrite (accepts_matching _ _ Hs' Hl'). by apply IH.
Qed.
End Reference.

(** (C32) The automaton misses nothing and invents nothing: on every byte string the
    scan through the generated tables gives the findings of the reference scan,
    which compares the lowercase keyword of each of the 73 rules with the
    case-folded text at every byte, in rule order, under the same validation and
    the same limit. *)
Theorem secret_scan_reference `{Entropy} (text : list Z) (max_findings : nat) :
  bytes_ok text -> secret_scan text max_findings = reference_scan text max_findings.
Proof.
  intros Hb. unfold secret_scan, reference_scan.
  rewrite (scan_loop_reference text text 0 0 []); [done | done | apply state_ok_0 |].
  rewrite lab_0. apply longest_label, label_nil.
Qed.

Lemma secret_scan_reference_witness :
  exists fs, @reference_scan {| entropy_below := fun _ _ _ => false |}
    (bs "x GHP_0123456789abcdefghijABCDEFGHIJ012345 y") 32 = Some fs /\
    map (fun f => (f_offset f, f_match_len f)) fs = [(2%nat, 40%nat)].
Proof.
  eexists. split.
  - etrans; [symmetry; apply (@secret_scan_reference {| entropy_below := fun _ _ _ => false |})|].
    + apply (bool_decide_unpack _). by vm_compute.
    + by vm_compute.
  - by vm_compute.
Defined.
