(* ===== verification/Proxy.v ===== *)
(** * The egress proxy: src/proxy.c

    The policy functions, the blessed-address set, the TLS SNI parser and the
    connection handler.  The handler is a program of atomic steps on the shared
    context (each a section under [blessed_mu] in the code), socket writes,
    dials and relays; any number of handlers run interleaved. *)
From S2P Require Import Prelude CString Libc HostMatch JsonEscape.

Definition PROXY_BLESS_MAX : nat := 256.
Definition PROXY_BLESS_TTL_SECS : Z := 60.
Definition PROXY_MAX_RELAYS : Z := 64.
Definition PROXY_MAX_PENDING : Z := 128.
Definition PROXY_CONTACTED_MAX : nat := 64.
Definition PREAMBLE_MAX : nat := 300.

Definition METADATA_RANGES : list Cidr :=
  [mkCidr AF_INET ([169; 254; 0; 0] ++ replicate 12 0) 16;
   mkCidr AF_INET6 ([0xfe; 0x80] ++ replicate 14 0) 10;
   mkCidr AF_INET6 [0xfd; 0x00; 0x0e; 0xc2; 0; 0; 0; 0; 0; 0; 0; 0; 0; 0; 0x02; 0x54] 128].

Definition in_metadata_range (fam : family) (addr : list Z) : bool :=
  cidr_match (Some METADATA_RANGES) fam addr.

Record ProxyBlessedAddr := mk_blessed {
  ba_family : family;
  ba_addr : list Z;          (* 16 bytes *)
  ba_expiry : Z;
  ba_via_hostname : bool
}.

(** The part of [ProxyContext] that [proxy_bind] fixes. *)
Record ProxyPolicy := mk_policy {
  host_rules : option (list (option cstring));
  cidr_rules : option (list Cidr);
  deny_rules : option (list (option cstring));
  sni_strict_port : Z
}.

(** The part the connection threads share; [clock] is what [time] returns. *)
Record ProxyShared := mk_shared {
  blessed : list ProxyBlessedAddr;
  relay_count : Z;
  conn_active : Z;
  contacted : list cstring;
  denied : list cstring;
  clock : Z
}.

Section Policy.
Context `{InetPton} (ctx : ProxyPolicy).

(** [proxy_bind]'s partition of the grants. *)
Fixpoint partition_hosts (hosts : list (option cstring)) : list (option cstring) * list Cidr :=
  match hosts with
  | [] => ([], [])
  | h :: hosts' =>
      let (hs, cs) := partition_hosts hosts' in
      match h with
      | None => (hs, cs)
      | Some _ => match cidr_parse h with
                  | Some c => (hs, c :: cs)
                  | None => (h :: hs, cs)
                  end
      end
  end.

Definition proxy_bind (hosts : list (option cstring)) (deny : option (list (option cstring)))
    : ProxyPolicy :=
  match hosts with
  | [] => mk_policy None None deny 443
  | _ => let (hs, cs) := partition_hosts hosts in mk_policy (Some hs) (Some cs) deny 443
  end.

Definition ip_to_bin (ip : cstring) : option (family * list Z) :=
  match inet_pton4 ip with
  | Some a4 => Some (AF_INET, a4)
  | None =>
      match inet_pton6 ip with
      | Some a6 =>
          if bool_decide (take 12 a6 = mapped_prefix)
          then Some (AF_INET, take 4 (drop 12 a6))
          else Some (AF_INET6, a6)
      | None => None
      end
  end.

Definition numeric_ip_permitted (ip : cstring) (fam : family) (bin : list Z)
    (allow_public : bool) : bool :=
  if in_metadata_range fam bin then granted_exact (cidr_rules ctx) fam bin
  else if allow_public && negb (http_is_private_ip ip) then true
  else cidr_match (cidr_rules ctx) fam bin.

Definition host_decide (host : cstring) : bool :=
  if match deny_rules ctx with
     | Some _ => host_covered (deny_rules ctx) (Some host)
     | None => false
     end
  then false
  else match ip_to_bin host with
       | Some (fam, bin) => numeric_ip_permitted host fam bin false
       | None => host_match (host_rules ctx) (Some host)
       end.

Definition addr_permitted (ip : cstring) : bool :=
  match ip_to_bin ip with
  | None => false
  | Some (fam, bin) => numeric_ip_permitted ip fam bin true
  end.

(** ** The blessed set *)
Definition entry_len (fam : family) : nat := match fam with AF_INET => 4 | AF_INET6 => 16 end.

Definition is_entry (fam : family) (bin : list Z) (b : ProxyBlessedAddr) : bool :=
  bool_decide (ba_family b = fam) && bool_decide (take (entry_len fam) (ba_addr b) = take (entry_len fam) bin).

(** [(found, via_hostname)]. *)
Definition bless_contains (s : ProxyShared) (ip : cstring) : bool * bool :=
  match ip_to_bin ip with
  | None => (false, false)
  | Some (fam, bin) =>
      match List.find (fun b => (clock s <? ba_expiry b) && is_entry fam bin b) (blessed s) with
      | Some b => (true, ba_via_hostname b)
      | None => (false, false)
      end
  end.

(** Refresh the first entry of the address. *)
Fixpoint refresh (fam : family) (bin : list Z) (expiry : Z) (via : bool)
    (bs : list ProxyBlessedAddr) : option (list ProxyBlessedAddr) :=
  match bs with
  | [] => None
  | b :: bs' =>
      if is_entry fam bin b
      then Some (mk_blessed (ba_family b) (ba_addr b) expiry (ba_via_hostname b || via) :: bs')
      else option_map (cons b) (refresh fam bin expiry via bs')
  end.

(** The index of the first entry with the smallest expiry. *)
Fixpoint oldest_from (bs : list ProxyBlessedAddr) (i oldest : nat) (e : Z) : nat :=
  match bs with
  | [] => oldest
  | b :: bs' =>
      if ba_expiry b <? e then oldest_from bs' (S i) i (ba_expiry b)
      else oldest_from bs' (S i) oldest e
  end.

(** [blessed[oldest] = blessed[count - 1]; count--]. *)
Definition evict (bs : list ProxyBlessedAddr) : list ProxyBlessedAddr :=
  match bs with
  | [] => []
  | b0 :: rest =>
      let oldest := oldest_from rest 1 0 (ba_expiry b0) in
      match last bs with
      | Some l => removelast (<[oldest := l]> bs)
      | None => bs
      end
  end.

Definition set_blessed (s : ProxyShared) (bs : list ProxyBlessedAddr) : ProxyShared :=
  mk_shared bs (relay_count s) (conn_active s) (contacted s) (denied s) (clock s).

Definition bless_add (s : ProxyShared) (ip : cstring) (via_hostname : bool) : ProxyShared :=
  match ip_to_bin ip with
  | None => s
  | Some (fam, bin) =>
      let now := clock s in
      let live := filter (fun b => (now <? ba_expiry b) = true) (blessed s) in
      match refresh fam bin (now + PROXY_BLESS_TTL_SECS) via_hostname live with
      | Some bs => set_blessed s bs
      | None =>
          let live := if (PROXY_BLESS_MAX <=? length live)%nat then evict live else live in
          let addr := take (entry_len fam) bin ++ replicate (16 - entry_len fam) 0 in
          set_blessed s (live ++ [mk_blessed fam addr (now + PROXY_BLESS_TTL_SECS) via_hostname])
      end
  end.
End Policy.

(** [record_host] and [record_denied]: [alloc] is the outcome of [strdup]. *)
Definition record_name (alloc : bool) (names : list cstring) (host : cstring) : list cstring :=
  match host with
  | [] => names
  | _ =>
      if existsb (fun n => streq n host) names then names
      else if (length names <? PROXY_CONTACTED_MAX)%nat && alloc then names ++ [host]
      else names
  end.

Definition record_host (alloc : bool) (s : ProxyShared) (host : cstring) : ProxyShared :=
  mk_shared (blessed s) (relay_count s) (conn_active s) (record_name alloc (contacted s) host)
    (denied s) (clock s).

Definition record_denied (alloc : bool) (s : ProxyShared) (host : cstring) : ProxyShared :=
  mk_shared (blessed s) (relay_count s) (conn_active s) (contacted s)
    (record_name alloc (denied s) host) (clock s).

Definition set_relays (s : ProxyShared) (n : Z) : ProxyShared :=
  mk_shared (blessed s) n (conn_active s) (contacted s) (denied s) (clock s).

Definition relay_acquire (s : ProxyShared) : bool * ProxyShared :=
  if relay_count s <? PROXY_MAX_RELAYS then (true, set_relays s (relay_count s + 1)) else (false, s).

Definition relay_release (s : ProxyShared) : ProxyShared :=
  if 0 <? relay_count s then set_relays s (relay_count s - 1) else s.

(** ** The ClientHello walk *)

(** [SniStuck] marks a read outside the peeked bytes (undefined behaviour in C)
    or a walk that does not end. *)
Inductive sni_result :=
  | SniIncomplete | SniFailOpen | SniFound (name : list Z) | SniNoSni | SniStuck.

Definition SNI_CAP : Z := 256.

(** [buf[i]] and the two-byte read. *)
Definition rd8 (buf : list Z) (i : Z) (k : Z -> sni_result) : sni_result :=
  match buf !! Z.to_nat i with Some b => k b | None => SniStuck end.
Definition rd16 (buf : list Z) (i : Z) (k : Z -> sni_result) : sni_result :=
  rd8 buf i (fun hi => rd8 buf (i + 1) (fun lo => k (Z.lor (Z.shiftl hi 8) lo))).

(** [SNI_NEED(n)]. *)
Definition need (buf : list Z) (pos n e : Z) (k : sni_result) : sni_result :=
  if e <? pos + n then SniFailOpen
  else if zlen buf <? pos + n then SniIncomplete
  else k.

(** The server_name extension of length [ext_len] at [pos]. *)
Definition sni_name (buf : list Z) (pos ext_len : Z) : sni_result :=
  let sp_end := pos + ext_len in
  if sp_end <? pos + 2 then SniFailOpen
  else rd16 buf pos (fun list_len =>
    let sp := pos + 2 in
    if sp_end <? sp + list_len then SniFailOpen
    else if sp_end <? sp + 3 then SniFailOpen
    else rd8 buf sp (fun name_type =>
      rd16 buf (sp + 1) (fun name_len =>
        let sp := sp + 3 in
        if sp_end <? sp + name_len then SniFailOpen
        else if negb (name_type =? 0) || (name_len =? 0) || (SNI_CAP <=? name_len) then SniFailOpen
        else SniFound (take (Z.to_nat name_len) (drop (Z.to_nat sp) buf))))).

(** The extension loop; every iteration that goes on has four more bytes. *)
Fixpoint sni_exts (fuel : nat) (buf : list Z) (pos ext_end e : Z) : sni_result :=
  if pos <? ext_end then
    match fuel with
    | O => SniStuck
    | S fuel' =>
        need buf pos 4 e (rd16 buf pos (fun ext_type =>
          rd16 buf (pos + 2) (fun ext_len =>
            let pos := pos + 4 in
            need buf pos ext_len e
              (if ext_type =? 0 then sni_name buf pos ext_len
               else sni_exts fuel' buf (pos + ext_len) ext_end e))))
    end
  else SniNoSni.

Definition parse_client_hello_sni (buf : list Z) : sni_result :=
  let have := zlen buf in
  if have <? 5 then SniIncomplete
  else rd8 buf 0 (fun b0 => if negb (b0 =? 0x16) then SniFailOpen
  else rd8 buf 1 (fun b1 => if negb (b1 =? 0x03) then SniFailOpen
  else if have <? 9 then SniIncomplete
  else rd8 buf 5 (fun b5 => if negb (b5 =? 0x01) then SniFailOpen
  else rd8 buf 6 (fun l2 => rd8 buf 7 (fun l1 => rd8 buf 8 (fun l0 =>
  let e := 9 + Z.lor (Z.lor (Z.shiftl l2 16) (Z.shiftl l1 8)) l0 in
  let pos := 9 in
  need buf pos 2 e (let pos := pos + 2 in
  need buf pos 32 e (let pos := pos + 32 in
  need buf pos 1 e (rd8 buf pos (fun session_id_len => let pos := pos + 1 in
  need buf pos session_id_len e (let pos := pos + session_id_len in
  need buf pos 2 e (rd16 buf pos (fun cipher_len => let pos := pos + 2 in
  need buf pos cipher_len e (let pos := pos + cipher_len in
  need buf pos 1 e (rd8 buf pos (fun comp_len => let pos := pos + 1 in
  need buf pos comp_len e (let pos := pos + comp_len in
  if e <=? pos then SniNoSni
  else need buf pos 2 e (rd16 buf pos (fun ext_total => let pos := pos + 2 in
  let ext_end := pos + ext_total in
  if e <? ext_end then SniFailOpen
  else sni_exts (length buf) buf pos ext_end e))))))))))))))))))).

Definition SNI_PEEK_MAX : Z := 2048.

(** [sni_check]: each round peeks what has arrived ([None] is a failed [recv],
    which keeps the length of the round before) and says whether the budget is
    then spent; running out of rounds is running out of budget.  The result is
    the verdict and, on a denial, its reason. *)
Fixpoint sni_rounds (ctx : ProxyPolicy) (port : Z) (rounds : list (option (list Z) * bool))
    (buf : list Z) : bool * option cstring :=
  match rounds with
  | [] => (true, None)
  | (peek, spent) :: rounds' =>
      let buf := match peek with
                 | Some (_ :: _ as b) => take (Z.to_nat SNI_PEEK_MAX) b
                 | _ => buf
                 end in
      match parse_client_hello_sni buf with
      | SniFound name =>
          if host_match (host_rules ctx) (Some (c_str name)) then (true, None)
          else (false, Some (bs "sni_mismatch"))
      | SniNoSni =>
          if negb (port =? sni_strict_port ctx) then (true, None)
          else (false, Some (bs "sni_absent"))
      | SniFailOpen => (true, None)
      | SniIncomplete | SniStuck =>
          if SNI_PEEK_MAX <=? zlen buf then (true, None)
          else if spent then (true, None)
          else sni_rounds ctx port rounds' buf
      end
  end.

Definition sni_check (ctx : ProxyPolicy) (port : Z) (rounds : list (option (list Z) * bool))
    : bool * option cstring := sni_rounds ctx port rounds [].

(** ** The connection handler as a program *)

(** What is outside the process during one connection: the bytes the client
    sends before it closes, the resolver's answers, [strdup]'s outcome
    and the peeks at the client's first bytes. *)
Record ClientEnv := mk_env {
  e_stream : list Z;
  e_dns : cstring -> option (list (family * list Z));
  e_alloc : bool;
  e_rounds : list (option (list Z) * bool)
}.

(** The atomic steps on the shared context. *)
Inductive op :=
  | OBlessContains (ip : cstring)
  | OBlessAdd (ip : cstring) (via_hostname : bool)
  | ORecordHost (host : cstring)
  | ORecordDenied (host : cstring)
  | ORelayAcquire
  | ORelayRelease.

Inductive resp := RUnit | RFound (found via : bool) | ROk (ok : bool).

Inductive prog :=
  | Done
  | Write (msg : cstring) (k : prog)
  | Shared (o : op) (k : resp -> prog)
  | Dial (ip : cstring) (port : Z) (k : bool -> prog)
  | Relay (ip : cstring) (port : Z) (k : prog).

Section Handler.
Context `{InetPton} (ctx : ProxyPolicy) (env : ClientEnv).

Definition write_done (msg : cstring) : prog := Write msg Done.

Definition deny (host msg : cstring) : prog :=
  Shared (ORecordDenied host) (fun _ => write_done msg).

Definition ntop (a : family * list Z) : cstring :=
  match fst a with AF_INET => inet_ntop4 (snd a) | AF_INET6 => inet_ntop6 (snd a) end.

(** The loop over the resolver's answers; [got] is the first blessed address. *)
Fixpoint bless_answers (addrs : list (family * list Z)) (got : option cstring)
    (k : option cstring -> prog) : prog :=
  match addrs with
  | [] => k got
  | a :: addrs' =>
      let ip := ntop a in
      if negb (addr_permitted ctx ip) then bless_answers addrs' got k
      else Shared (OBlessAdd ip true) (fun _ =>
             bless_answers addrs' (match got with None => Some ip | Some _ => got end) k)
  end.

Definition resolve_and_bless (host : cstring) (k : option cstring -> prog) : prog :=
  match e_dns env host with
  | None => k None
  | Some addrs => bless_answers addrs None k
  end.

(** [strrchr(s, ':')]: the text before and after the last colon. *)
Fixpoint split_last_colon (s : cstring) : option (cstring * cstring) :=
  match s with
  | [] => None
  | c :: s' =>
      match split_last_colon s' with
      | Some (a, b) => Some (c :: a, b)
      | None => if c =? ":"%char then Some ([], s') else None
      end
  end.

(** From the relay slot on: dial, the SNI gate, the relay. *)
Definition relay_to (target dial : cstring) (port : Z) (sni_gate : bool) : prog :=
  Shared ORelayAcquire (fun r =>
    match r with
    | ROk true =>
        Dial dial port (fun connected =>
          if negb connected then
            Write (bs "ERROR connect" ++ [10]) (Shared ORelayRelease (fun _ => Done))
          else
            Write (bs "OK" ++ [10])
              (if sni_gate && negb (fst (sni_check ctx port (e_rounds env)))
               then Shared ORelayRelease (fun _ => Done)
               else Relay dial port (Shared ORelayRelease (fun _ => Done))))
    | _ => write_done (bs "DENIED" ++ [10])
    end).

Definition handle_resolve (host : cstring) : prog :=
  if negb (host_decide ctx host) then deny host (bs "ERROR denied" ++ [10])
  else resolve_and_bless host (fun got =>
    match got with
    | Some ip => Shared (ORecordHost host) (fun _ => write_done (bs "ADDR " ++ ip ++ [10]))
    | None => deny host (bs "ERROR resolve" ++ [10])
    end).

Definition handle_connect (target : cstring) (port : Z) : prog :=
  match ip_to_bin target with
  | Some (fam, bin) =>
      Shared (OBlessContains target) (fun r =>
        match r with
        | RFound true via_host_bless =>
            relay_to target target port
              (via_host_bless && negb (granted_exact (cidr_rules ctx) fam bin))
        | _ =>
            if host_decide ctx target then
              Shared (OBlessAdd target false) (fun _ =>
              Shared (ORecordHost target) (fun _ => relay_to target target port false))
            else deny target (bs "DENIED" ++ [10])
        end)
  | None =>
      if negb (host_decide ctx target) then deny target (bs "DENIED" ++ [10])
      else resolve_and_bless target (fun got =>
        match got with
        | None => deny target (bs "ERROR resolve" ++ [10])
        | Some ip => Shared (ORecordHost target) (fun _ => relay_to target ip port true)
        end)
  end.

(** Up to [max] bytes before a newline; [None] when the stream ends first. *)
Fixpoint proxy_read_line (max : nat) (stream : list Z) : option (list Z) :=
  match max with
  | O => Some []
  | S max' =>
      match stream with
      | [] => None
      | c :: stream' =>
          if c =? 10 then Some [] else option_map (cons c) (proxy_read_line max' stream')
      end
  end.

(** What the handler sees of the line is the C string it starts with. *)
Definition handle_client : prog :=
  match proxy_read_line (PREAMBLE_MAX - 1) (e_stream env) with
  | None | Some [] => Done
  | Some buf =>
      let preamble := c_str buf in
      if starts_with (bs "RESOLVE ") preamble then handle_resolve (drop 8 preamble)
      else match split_last_colon preamble with
           | None => write_done (bs "ERROR bad preamble" ++ [10])
           | Some (target, port_text) =>
               let (pval, pend) := strtol port_text in
               if (length pend =? length port_text)%nat || negb (length pend =? 0)%nat ||
                  (pval <? 1) || (65535 <? pval)
               then write_done (bs "ERROR bad preamble" ++ [10])
               else handle_connect target pval
           end
  end.

(** One atomic step. *)
Definition exec_op (o : op) (s : ProxyShared) : resp * ProxyShared :=
  match o with
  | OBlessContains ip => let (f, v) := bless_contains s ip in (RFound f v, s)
  | OBlessAdd ip via => (RUnit, bless_add s ip via)
  | ORecordHost h => (RUnit, record_host (e_alloc env) s h)
  | ORecordDenied h => (RUnit, record_denied (e_alloc env) s h)
  | ORelayAcquire => let (ok, s') := relay_acquire s in (ROk ok, s')
  | ORelayRelease => (RUnit, relay_release s)
  end.
End Handler.

(** ** The system: handlers interleaved on one context *)
Inductive event := EDial (ip : cstring) (port : Z) | ERelay (ip : cstring) (port : Z).

(** A thread: whether it holds a relay slot, its environment, what is left. *)
Record thread := mk_thread { t_held : bool; t_env : ClientEnv; t_prog : prog }.

Record sys := mk_sys { sh : ProxyShared; threads : list thread; trace : list event }.

Definition set_conn (s : ProxyShared) (n : Z) : ProxyShared :=
  mk_shared (blessed s) (relay_count s) n (contacted s) (denied s) (clock s).
Definition set_clock (s : ProxyShared) (n : Z) : ProxyShared :=
  mk_shared (blessed s) (relay_count s) (conn_active s) (contacted s) (denied s) n.

Definition shared_zero (now : Z) : ProxyShared := mk_shared [] 0 0 [] [] now.

(** Who holds a slot after a step. *)
Definition held_after (h : bool) (o : op) (r : resp) : bool :=
  match o, r with
  | ORelayAcquire, ROk b => b
  | ORelayRelease, _ => false
  | _, _ => h
  end.

Section System.
Context `{InetPton} (ctx : ProxyPolicy) (dns : cstring -> list (family * list Z) -> Prop).

(** [proxy_loop] accepts while fewer than [PROXY_MAX_PENDING] are in flight;
    [conn_thread] runs a handler to its end; the clock moves as it likes. *)
Inductive step : sys -> sys -> Prop :=
  | st_accept s ts tr env :
      conn_active s < PROXY_MAX_PENDING ->
      (forall h as_, e_dns env h = Some as_ -> dns h as_) ->
      step (mk_sys s ts tr)
        (mk_sys (set_conn s (conn_active s + 1)) (ts ++ [mk_thread false env (handle_client ctx env)]) tr)
  | st_write s ts tr i h env m k :
      ts !! i = Some (mk_thread h env (Write m k)) ->
      step (mk_sys s ts tr) (mk_sys s (<[i := mk_thread h env k]> ts) tr)
  | st_shared s ts tr i h env o k r s' :
      ts !! i = Some (mk_thread h env (Shared o k)) -> exec_op env o s = (r, s') ->
      step (mk_sys s ts tr) (mk_sys s' (<[i := mk_thread (held_after h o r) env (k r)]> ts) tr)
  | st_dial s ts tr i h env ip port k b :
      ts !! i = Some (mk_thread h env (Dial ip port k)) ->
      step (mk_sys s ts tr) (mk_sys s (<[i := mk_thread h env (k b)]> ts) (tr ++ [EDial ip port]))
  | st_relay s ts tr i h env ip port k :
      ts !! i = Some (mk_thread h env (Relay ip port k)) ->
      step (mk_sys s ts tr) (mk_sys s (<[i := mk_thread h env k]> ts) (tr ++ [ERelay ip port]))
  | st_exit s ts tr i h env :
      ts !! i = Some (mk_thread h env Done) ->
      step (mk_sys s ts tr) (mk_sys (set_conn s (conn_active s - 1)) (delete i ts) tr)
  | st_tick s ts tr n : step (mk_sys s ts tr) (mk_sys (set_clock s n) ts tr).

Inductive reachable : sys -> Prop :=
  | r_init now : reachable (mk_sys (shared_zero now) [] [])
  | r_step a b : reachable a -> step a b -> reachable b.
End System.

(** One connection alone, run for [fuel] steps with every dial succeeding or
    failing as [b] says: an executable schedule. *)
Section RunOne.
Context `{InetPton} (ctx : ProxyPolicy) (dns : cstring -> list (family * list Z) -> Prop) (b : bool).

Fixpoint run_one (fuel : nat) (x : sys) : sys :=
  match fuel with
  | O => x
  | S fuel' =>
      match x with
      | mk_sys s (mk_thread h env p :: nil) tr =>
          match p with
          | Done => mk_sys (set_conn s (conn_active s - 1)) [] tr
          | Write _ k => run_one fuel' (mk_sys s [mk_thread h env k] tr)
          | Shared o k =>
              let (r, s') := exec_op env o s in
              run_one fuel' (mk_sys s' [mk_thread (held_after h o r) env (k r)] tr)
          | Dial ip port k =>
              run_one fuel' (mk_sys s [mk_thread h env (k b)] (tr ++ [EDial ip port]))
          | Relay ip port k =>
              run_one fuel' (mk_sys s [mk_thread h env k] (tr ++ [ERelay ip port]))
          end
      | _ => x
      end
  end.

Lemma run_one_reachable fuel x :
  reachable ctx dns x -> reachable ctx dns (run_one fuel x).
Proof.
  revert x. induction fuel as [|fuel IH]; intros x Hx; [done|]. cbn [run_one].
  destruct x as [s [|[h env p] [|]] tr]; try done. destruct p as [|m k|o k|ip port k|ip port k].
  - eapply r_step; [done|]. by apply (st_exit _ _ s [_] tr 0 h env).
  - apply IH. eapply r_step; [done|]. by apply (st_write _ _ s [_] tr 0 h env m k).
  - destruct (exec_op env o s) as [r s'] eqn:E. apply IH.
    eapply r_step; [done|]. by apply (st_shared _ _ s [_] tr 0 h env o k r s').
  - apply IH. eapply r_step; [done|]. by apply (st_dial _ _ s [_] tr 0 h env ip port k b).
  - apply IH. eapply r_step; [done|]. by apply (st_relay _ _ s [_] tr 0 h env ip port k).
Qed.

(** The state after one accepted connection. *)
Definition one_conn (now : Z) (env : ClientEnv) : sys :=
  mk_sys (set_conn (shared_zero now) 1) [mk_thread false env (handle_client ctx env)] [].

Lemma one_conn_reachable now env :
  (forall h as_, e_dns env h = Some as_ -> dns h as_) -> reachable ctx dns (one_conn now env).
Proof.
  intros He. eapply r_step; [apply (r_init _ _ now)|].
  by apply (st_accept _ _ (shared_zero now) [] []).
Qed.
End RunOne.

(** ** Who may be dialed *)
Section Authority.
Context `{InetPtonLaws} (ctx : ProxyPolicy) (dns : cstring -> list (family * list Z) -> Prop).

(** [http_is_private_ip] read on the canonical address. *)
Definition private_bin (fam : family) (bin : list Z) : bool :=
  match fam with
  | AF_INET => private_v4 (ntohl bin)
  | AF_INET6 => match private_v6 bin with Some r => r | None => false end
  end.

Lemma ip_to_bin_length ip fam bin : ip_to_bin ip = Some (fam, bin) -> length bin = entry_len fam.
Proof.
  unfold ip_to_bin. destruct (inet_pton4 ip) as [a|] eqn:E4.
  - intros [= <- <-]. by apply inet_pton4_bytes in E4 as [? _].
  - destruct (inet_pton6 ip) as [a|] eqn:E6; [|done].
    apply inet_pton6_bytes in E6 as [Hl _]. case_bool_decide; intros [= <- <-]; simpl entry_len.
    + rewrite length_take, length_drop. lia.
    + done.
Qed.

Lemma private_of_bin ip fam bin :
  ip_to_bin ip = Some (fam, bin) -> http_is_private_ip ip = private_bin fam bin.
Proof.
  unfold ip_to_bin, http_is_private_ip. cbn [is_private_loop].
  destruct (inet_pton4 ip) as [a|] eqn:E4; [by intros [= <- <-]|].
  destruct (inet_pton6 ip) as [a|] eqn:E6; [|done].
  apply inet_pton6_bytes in E6 as [Hl Hb]. case_bool_decide as Hm; intros [= <- <-].
  - assert (Ha : a = mapped_prefix ++ drop 12 a) by (rewrite <- Hm; by rewrite take_drop).
    assert (Hl4 : length (drop 12 a) = 4%nat) by (rewrite length_drop; lia).
    assert (Hv : private_v6 a = None).
    { rewrite Ha. unfold private_v6. cbn [mapped_prefix app nth]. repeat case_bool_decide; done. }
    rewrite Hv, inet_pton4_ntop by (done || by apply Forall_drop).
    simpl. by rewrite (take_ge _ 4) by lia.
  - cbn [private_bin]. destruct (private_v6 a) as [r|] eqn:E; [done|]. exfalso. revert E.
    unfold private_v6. rewrite (bool_decide_false _ Hm). repeat case_if; done.
Qed.

(** An address the policy lets a connection reach: never the metadata ranges
    without a grant of exactly that address, never private space without a
    covering grant, and only as the literal target, or an answer of the resolver
    for the name, that the policy admits. *)
Definition authorised (fam : family) (bin : list Z) : Prop :=
  (in_metadata_range fam bin = true -> granted_exact (cidr_rules ctx) fam bin = true) /\
  (in_metadata_range fam bin = false -> private_bin fam bin = true ->
     cidr_match (cidr_rules ctx) fam bin = true) /\
  exists host, host_decide ctx host = true /\
    (ip_to_bin host = Some (fam, bin) \/
     exists addrs a, dns host addrs /\ a ∈ addrs /\ ip_to_bin (ntop a) = Some (fam, bin)).

Definition auth_ip (ip : cstring) : Prop :=
  exists fam bin, ip_to_bin ip = Some (fam, bin) /\ authorised fam bin.

Lemma numeric_auth ip fam bin pub :
  ip_to_bin ip = Some (fam, bin) -> numeric_ip_permitted ctx ip fam bin pub = true ->
  (in_metadata_range fam bin = true -> granted_exact (cidr_rules ctx) fam bin = true) /\
  (in_metadata_range fam bin = false -> private_bin fam bin = true ->
     cidr_match (cidr_rules ctx) fam bin = true).
Proof.
  intros Hi. unfold numeric_ip_permitted. rewrite (private_of_bin _ _ _ Hi).
  destruct (in_metadata_range fam bin); [by split|].
  destruct (pub && _) eqn:E; intros Hc; split; try done.
  intros _ Hp. rewrite Hp, andb_false_r in E. done.
Qed.

Lemma host_decide_numeric host fam bin :
  ip_to_bin host = Some (fam, bin) -> host_decide ctx host = true -> authorised fam bin.
Proof.
  intros Hi Hd. pose proof Hd as Hd'. unfold host_decide in Hd. rewrite Hi in Hd.
  match type of Hd with (if ?b then _ else _) = _ => destruct b; [done|] end.
  destruct (numeric_auth _ _ _ _ Hi Hd). split; [done|]. split; [done|].
  exists host. split; [done | by left].
Qed.

Lemma addr_permitted_auth host addrs a :
  host_decide ctx host = true -> dns host addrs -> a ∈ addrs ->
  addr_permitted ctx (ntop a) = true -> auth_ip (ntop a).
Proof.
  intros Hd Hn Ha. unfold addr_permitted.
  destruct (ip_to_bin (ntop a)) as [[fam bin]|] eqn:E; [|done]. intros Hp.
  exists fam, bin. split; [done|]. destruct (numeric_auth _ _ _ _ E Hp).
  split; [done|]. split; [done|]. exists host. split; [done|]. right. by exists addrs, a.
Qed.

(** *** Safe programs: every dial, relay and bless is of an authorised address *)
Definition op_ok (o : op) : Prop :=
  match o with OBlessAdd ip _ => auth_ip ip | _ => True end.
Definition resp_ok (o : op) (r : resp) : Prop :=
  match o, r with OBlessContains ip, RFound true _ => auth_ip ip | _, _ => True end.

Fixpoint safe (p : prog) : Prop :=
  match p with
  | Done => True
  | Write _ k => safe k
  | Shared o k => op_ok o /\ forall r, resp_ok o r -> safe (k r)
  | Dial ip _ k => auth_ip ip /\ forall b, safe (k b)
  | Relay ip _ k => auth_ip ip /\ safe k
  end.

Lemma relay_to_safe env target dial port gate :
  auth_ip dial -> safe (relay_to ctx env target dial port gate).
Proof.
  intros Hd. unfold relay_to. split; [done|]. intros r _. destruct r as [| |[]]; try done.
  split; [done|]. intros [|]; cbn [negb safe]; [|by split]. case_if; by repeat split.
Qed.

Lemma deny_safe host msg : safe (deny host msg).
Proof. by split. Qed.

Lemma bless_answers_safe host all addrs got k :
  host_decide ctx host = true -> dns host all -> (forall a, a ∈ addrs -> a ∈ all) ->
  match got with Some ip => auth_ip ip | None => True end ->
  (forall got, match got with Some ip => auth_ip ip | None => True end -> safe (k got)) ->
  safe (bless_answers ctx addrs got k).
Proof.
  intros Hd Hn Hsub Hgot Hk. revert got Hgot.
  induction addrs as [|a addrs IH]; intros got Hgot; [by apply Hk|]. cbn [bless_answers].
  assert (Hsub' : forall b, b ∈ addrs -> b ∈ all) by (intros b Hb; apply Hsub; by right).
  destruct (addr_permitted ctx (ntop a)) eqn:Ep; cbn [negb]; [|by apply IH].
  assert (Ha : auth_ip (ntop a)) by (eapply addr_permitted_auth; eauto; apply Hsub; left).
  split; [done|]. intros _ _. apply IH; [done|]. by destruct got.
Qed.

Lemma resolve_safe env host k :
  host_decide ctx host = true -> (forall h as_, e_dns env h = Some as_ -> dns h as_) ->
  (forall got, match got with Some ip => auth_ip ip | None => True end -> safe (k got)) ->
  safe (resolve_and_bless ctx env host k).
Proof.
  intros Hd He Hk. unfold resolve_and_bless. destruct (e_dns env host) as [addrs|] eqn:E.
  - eapply bless_answers_safe; eauto.
  - by apply Hk.
Qed.

Lemma handle_client_safe env :
  (forall h as_, e_dns env h = Some as_ -> dns h as_) -> safe (handle_client ctx env).
Proof.
  intros He. unfold handle_client. destruct (proxy_read_line _ _) as [[|c buf]|]; [done| |done].
  case_if.
  - unfold handle_resolve. destruct (host_decide ctx _) eqn:Ed; cbn [negb]; [|apply deny_safe].
    apply resolve_safe; [done | done |]. intros [ip|] Hip; [by repeat split | apply deny_safe].
  - destruct (split_last_colon _) as [[target pt]|]; [|done].
    destruct (strtol pt) as [pval pend]. case_if; [done|].
    unfold handle_connect. destruct (ip_to_bin target) as [[fam bin]|] eqn:Ei.
    + split; [done|].
      assert (Hdec : safe (if host_decide ctx target then
          Shared (OBlessAdd target false) (fun _ => Shared (ORecordHost target) (fun _ =>
            relay_to ctx env target target pval false))
          else deny target (bs "DENIED" ++ [10]))).
      { destruct (host_decide ctx target) eqn:Ed; [|apply deny_safe].
        assert (auth_ip target) by (exists fam, bin; split; [done | by eapply host_decide_numeric]).
        split; [done|]. intros _ _. split; [done|]. intros _ _. by apply relay_to_safe. }
      intros [|[|] via|ok] Hr; try exact Hdec. by apply relay_to_safe.
    + destruct (host_decide ctx target) eqn:Ed; cbn [negb]; [|apply deny_safe].
      apply resolve_safe; [done | done |]. intros [ip|] Hip; [|apply deny_safe].
      split; [done|]. intros _ _. by apply relay_to_safe.
Qed.

(** *** The shared context only holds authorised addresses *)
Definition entry_ok (b : ProxyBlessedAddr) : Prop :=
  authorised (ba_family b) (take (entry_len (ba_family b)) (ba_addr b)).

Definition shared_ok (s : ProxyShared) : Prop := Forall entry_ok (blessed s).

Lemma refresh_ok fam bin e via bs bs' :
  refresh fam bin e via bs = Some bs' -> Forall entry_ok bs -> Forall entry_ok bs'.
Proof.
  revert bs'. induction bs as [|b bs IH]; intros bs'; simpl; [done|].
  intros Hr Hb. apply Forall_cons in Hb as [Hb Hbs]. destruct (is_entry fam bin b).
  - injection Hr as <-. by constructor.
  - destruct (refresh _ _ _ _ bs) as [bs1|]; [|done]. injection Hr as <-.
    constructor; [done | by apply IH].
Qed.

Lemma Forall_removelast {A} (P : A -> Prop) l : Forall P l -> Forall P (removelast l).
Proof. induction 1 as [|x l Hx Hl IH]; [done|]. simpl. destruct l; by constructor. Qed.

Lemma evict_ok bs : Forall entry_ok bs -> Forall entry_ok (evict bs).
Proof.
  intros Hb. unfold evict. destruct bs as [|b bs]; [done|].
  destruct (last (b :: bs)) as [l|] eqn:El; [|done].
  apply Forall_removelast, Forall_insert; [done|].
  apply last_Some_elem_of in El. by apply (proj1 (Forall_forall _ _) Hb).
Qed.

Lemma bless_add_ok s ip via : shared_ok s -> auth_ip ip -> shared_ok (bless_add s ip via).
Proof.
  intros Hs (fam & bin & Hi & Ha). unfold bless_add. rewrite Hi.
  assert (Hlive : Forall entry_ok (filter (fun b => (clock s <? ba_expiry b) = true) (blessed s))).
  { apply Forall_forall. intros b Hb. apply list_elem_of_filter in Hb as [_ Hb].
    by apply (proj1 (Forall_forall _ _) Hs). }
  destruct (refresh _ _ _ _ _) as [bs|] eqn:Er; [by eapply refresh_ok|].
  unfold shared_ok, set_blessed. simpl. apply Forall_app. split.
  - case_if; [by apply evict_ok | done].
  - constructor; [|done]. unfold entry_ok. simpl.
    pose proof (ip_to_bin_length _ _ _ Hi) as Hl.
    rewrite take_app_length' by (rewrite length_take; lia). by rewrite take_ge by lia.
Qed.

Lemma exec_op_ok env o s r s' :
  shared_ok s -> op_ok o -> exec_op env o s = (r, s') -> shared_ok s' /\ resp_ok o r.
Proof.
  intros Hs Ho. destruct o; simpl.
  - destruct (bless_contains s ip) as [f v] eqn:E. intros [= <- <-]. split; [done|].
    destruct f; [|done]. unfold bless_contains in E.
    destruct (ip_to_bin ip) as [[fam bin]|] eqn:Ei; [|done].
    destruct (List.find _ _) as [b|] eqn:Ef; [|done]. apply find_some in Ef as [Hin Hb].
    apply andb_true_iff in Hb as [_ Hb]. unfold is_entry in Hb.
    apply andb_true_iff in Hb as [H1 H2]. apply bool_decide_eq_true in H1, H2.
    apply list_elem_of_In in Hin. pose proof (proj1 (Forall_forall _ _) Hs b Hin) as Hok.
    unfold entry_ok in Hok. rewrite H1, H2, (take_ge bin) in Hok
      by (by rewrite (ip_to_bin_length _ _ _ Ei)).
    by exists fam, bin.
  - intros [= <- <-]. split; [by apply bless_add_ok | done].
  - by intros [= <- <-].
  - by intros [= <- <-].
  - unfold relay_acquire. case_if; by intros [= <- <-].
  - intros [= <- <-]. split; [|done]. unfold relay_release. by case_if.
Qed.

Definition event_ok (e : event) : Prop :=
  match e with EDial ip _ | ERelay ip _ => auth_ip ip end.

Definition sys_ok (x : sys) : Prop :=
  shared_ok (sh x) /\ Forall (fun t => safe (t_prog t)) (threads x) /\ Forall event_ok (trace x).

Lemma reachable_ok x : reachable ctx dns x -> sys_ok x.
Proof.
  induction 1 as [now | a b _ (Hs & Ht & He) Hstep];
    [unfold sys_ok; split_all; constructor|].
  assert (Hget : forall ts i h env p, Forall (fun t => safe (t_prog t)) ts ->
    ts !! i = Some (mk_thread h env p) -> safe p).
  { intros ts i h env p Hts Hi. exact (Forall_lookup_1 _ _ _ _ Hts Hi). }
  destruct Hstep; simpl in *; unfold sys_ok; simpl.
  - split_all; [done | | done]. apply Forall_app. split; [done|].
    constructor; [by apply handle_client_safe | done].
  - split_all; [done | | done]. apply Forall_insert; [done|]. by apply (Hget _ _ _ _ _ Ht H1).
  - destruct (Hget _ _ _ _ _ Ht H1) as [Ho Hk].
    destruct (exec_op_ok _ _ _ _ _ Hs Ho H2) as [Hs' Hr].
    split_all; [done | | done]. apply Forall_insert; [done|]. by apply Hk.
  - destruct (Hget _ _ _ _ _ Ht H1) as [Ha Hk].
    split_all; [done | by apply Forall_insert; [|apply Hk] |].
    apply Forall_app. split; [done|]. by constructor.
  - destruct (Hget _ _ _ _ _ Ht H1) as [Ha Hk].
    split_all; [done | by apply Forall_insert |]. apply Forall_app. split; [done|]. by constructor.
  - split_all; [done | by apply Forall_delete | done].
  - by split_all.
Qed.
End Authority.

(** ** Relay slots and threads *)
Section Slots.
Context `{InetPton} (ctx : ProxyPolicy) (dns : cstring -> list (family * list Z) -> Prop).

(** [balanced h p]: from holding ([h]) or not holding a relay slot, [p] acquires
    at most one, dials and relays only while it holds one, and ends without. *)
Fixpoint balanced (h : bool) (p : prog) : Prop :=
  match p with
  | Done => h = false
  | Write _ k => balanced h k
  | Shared ORelayAcquire k => h = false /\ forall b, balanced b (k (ROk b))
  | Shared ORelayRelease k => h = true /\ balanced false (k RUnit)
  | Shared _ k => forall r, balanced h (k r)
  | Dial _ _ k => h = true /\ forall b, balanced h (k b)
  | Relay _ _ k => h = true /\ balanced h k
  end.

Lemma relay_to_balanced env target dial port gate :
  balanced false (relay_to ctx env target dial port gate).
Proof.
  split; [done|]. intros [|]; [|done]. split; [done|].
  intros [|]; cbn [negb balanced]; [|by split_all]. case_if; by split_all.
Qed.

Lemma bless_answers_balanced addrs got k :
  (forall g, balanced false (k g)) -> balanced false (bless_answers ctx addrs got k).
Proof.
  intros Hk. revert got. induction addrs as [|a addrs IH]; intros got; [apply Hk|].
  cbn [bless_answers]. case_if; [apply IH|]. intros _. apply IH.
Qed.

Lemma resolve_balanced env host k :
  (forall g, balanced false (k g)) -> balanced false (resolve_and_bless ctx env host k).
Proof.
  intros Hk. unfold resolve_and_bless. destruct (e_dns env host); [|apply Hk].
  by apply bless_answers_balanced.
Qed.

Lemma handle_client_balanced env : balanced false (handle_client ctx env).
Proof.
  unfold handle_client. destruct (proxy_read_line _ _) as [[|c buf]|]; [done| |done].
  case_if.
  - unfold handle_resolve. case_if; [done|]. apply resolve_balanced. by intros [ip|].
  - destruct (split_last_colon _) as [[target pt]|]; [|done].
    destruct (strtol pt) as [pval pend]. case_if; [done|].
    unfold handle_connect. destruct (ip_to_bin target) as [[fam bin]|].
    + intros r. destruct r as [|[|] via|ok]; [|apply relay_to_balanced|..];
        (case_if; [intros _ _; apply relay_to_balanced | done]).
    + case_if; [done|]. apply resolve_balanced.
      intros [ip|]; [intros _; apply relay_to_balanced | done].
Qed.

(** How many threads hold a slot. *)
Definition held_count (ts : list thread) : Z :=
  Z.of_nat (sum_list_with (fun t => if t_held t then 1%nat else 0%nat) ts).

Lemma held_count_insert ts i t t' :
  ts !! i = Some t ->
  held_count (<[i := t']> ts) =
  held_count ts - (if t_held t then 1 else 0) + (if t_held t' then 1 else 0).
Proof.
  intros Hi. unfold held_count. rewrite <- (take_drop_middle ts i t Hi) at 2.
  rewrite insert_take_drop by (by eapply lookup_lt_Some).
  rewrite !sum_list_with_app. simpl. destruct (t_held t), (t_held t'); lia.
Qed.

Lemma held_count_delete ts i t :
  ts !! i = Some t ->
  held_count (delete i ts) = held_count ts - (if t_held t then 1 else 0).
Proof.
  intros Hi. unfold held_count. rewrite delete_take_drop.
  rewrite <- (take_drop_middle ts i t Hi) at 3.
  rewrite !sum_list_with_app. simpl. destruct (t_held t); lia.
Qed.

Lemma held_count_nonneg ts : 0 <= held_count ts.
Proof. unfold held_count. lia. Qed.

Definition slots_ok (x : sys) : Prop :=
  relay_count (sh x) = held_count (threads x) /\ relay_count (sh x) <= PROXY_MAX_RELAYS /\
  conn_active (sh x) = zlen (threads x) /\ conn_active (sh x) <= PROXY_MAX_PENDING /\
  Forall (fun t => balanced (t_held t) (t_prog t)) (threads x).

(** The steps that leave the counters and the slots of the threads alone. *)
Lemma slots_ok_same s s' ts tr tr' i h env p p' :
  slots_ok (mk_sys s ts tr) -> ts !! i = Some (mk_thread h env p) ->
  relay_count s' = relay_count s -> conn_active s' = conn_active s -> balanced h p' ->
  slots_ok (mk_sys s' (<[i := mk_thread h env p']> ts) tr').
Proof.
  intros (Hr & Hm & Hc & Hp & Hb) Hi Er Ec Hp'. simpl in *. unfold slots_ok; simpl.
  rewrite Er, Ec, (held_count_insert _ _ _ _ Hi). unfold zlen. rewrite length_insert. simpl.
  split_all; [destruct h; lia | done | done | done |]. by apply Forall_insert.
Qed.

Lemma slots_shared env o k h r s s' ts tr i :
  slots_ok (mk_sys s ts tr) -> ts !! i = Some (mk_thread h env (Shared o k)) ->
  exec_op env o s = (r, s') ->
  slots_ok (mk_sys s' (<[i := mk_thread (held_after h o r) env (k r)]> ts) tr).
Proof.
  intros Hok Hi He. pose proof Hok as (Hr & Hm & Hc & Hp & Hb). simpl in *.
  pose proof (Forall_lookup_1 _ _ _ _ Hb Hi) as Hbal. simpl in Hbal.
  destruct o; simpl in He.
  - destruct (bless_contains s ip) as [f v]. injection He as <- <-.
    by eapply slots_ok_same.
  - injection He as <- <-. eapply slots_ok_same; eauto;
      unfold bless_add; repeat case_match; done.
  - injection He as <- <-. by eapply slots_ok_same.
  - injection He as <- <-. by eapply slots_ok_same.
  - unfold relay_acquire in He. destruct Hbal as [-> Hbal].
    destruct (relay_count s <? PROXY_MAX_RELAYS) eqn:El; injection He as <- <-;
      [|by eapply slots_ok_same]. simpl held_after.
    unfold slots_ok; simpl. rewrite (held_count_insert _ _ _ _ Hi). unfold zlen.
    rewrite length_insert. simpl.
    split_all; [lia | unfold PROXY_MAX_RELAYS in *; lia | done | done |]. by apply Forall_insert.
  - destruct Hbal as [-> Hbal]. injection He as <- <-. simpl held_after.
    pose proof (held_count_delete _ _ _ Hi) as Hd. pose proof (held_count_nonneg (delete i ts)).
    simpl in Hd. unfold relay_release. replace (0 <? relay_count s) with true by lia.
    unfold slots_ok; simpl. rewrite (held_count_insert _ _ _ _ Hi). unfold zlen.
    rewrite length_insert. simpl. split_all; [lia | lia | done | done |]. by apply Forall_insert.
Qed.

Lemma reachable_slots x : reachable ctx dns x -> slots_ok x.
Proof.
  induction 1 as [now | a b _ Hok Hstep]; [by unfold slots_ok; split_all; try constructor|].
  pose proof Hok as (Hr & Hm & Hc & Hp & Hb).
  assert (Hget : forall i h env p, threads a !! i = Some (mk_thread h env p) -> balanced h p).
  { intros i h env p Hi. exact (Forall_lookup_1 _ _ _ _ Hb Hi). }
  destruct Hstep as [s ts tr env Hlt _ | s ts tr i h env m k Hi | s ts tr i h env o k r s' Hi He
    | s ts tr i h env ip port k b Hi | s ts tr i h env ip port k Hi | s ts tr i h env Hi | s ts tr n];
    simpl in *.
  - unfold slots_ok, held_count, zlen in *; simpl.
    rewrite sum_list_with_app, length_app. simpl. split_all; try lia.
    apply Forall_app. split; [done|]. constructor; [|done]. apply handle_client_balanced.
  - eapply slots_ok_same; eauto. by apply (Hget _ _ _ _ Hi).
  - by eapply slots_shared.
  - eapply slots_ok_same; eauto. by apply (Hget _ _ _ _ Hi).
  - eapply slots_ok_same; eauto. by apply (Hget _ _ _ _ Hi).
  - pose proof (Hget _ _ _ _ Hi) as ->. unfold slots_ok, zlen in *; simpl.
    rewrite (held_count_delete _ _ _ Hi), length_delete by (by exists (mk_thread false env Done)).
    apply lookup_lt_Some in Hi. simpl. split_all; try lia. by apply Forall_delete.
  - done.
Qed.

(** Whatever the interleaving, at most [PROXY_MAX_RELAYS] relays and
    [PROXY_MAX_PENDING] connections are live; the counters are exactly the
    numbers of threads that hold a slot and that run (no leak, no double
    release, on any path), a thread about to dial or relay holds a slot, and
    when no thread is left every slot is free. *)
Theorem proxy_slots_bounded x :
  reachable ctx dns x ->
  relay_count (sh x) = held_count (threads x) /\ 0 <= relay_count (sh x) <= PROXY_MAX_RELAYS /\
  conn_active (sh x) = zlen (threads x) /\ conn_active (sh x) <= PROXY_MAX_PENDING /\
  (forall i t ip port k, threads x !! i = Some t -> t_prog t = Dial ip port k -> t_held t = true) /\
  (forall i t ip port k, threads x !! i = Some t -> t_prog t = Relay ip port k -> t_held t = true) /\
  (threads x = [] -> relay_count (sh x) = 0 /\ conn_active (sh x) = 0).
Proof.
  intros Hx. destruct (reachable_slots x Hx) as (Hr & Hm & Hc & Hp & Hb).
  pose proof (held_count_nonneg (threads x)). split_all; try lia.
  - intros i t ip port k Hi Hk. pose proof (Forall_lookup_1 _ _ _ _ Hb Hi) as Hbal.
    simpl in Hbal. rewrite Hk in Hbal. apply Hbal.
  - intros i t ip port k Hi Hk. pose proof (Forall_lookup_1 _ _ _ _ Hb Hi) as Hbal.
    simpl in Hbal. rewrite Hk in Hbal. apply Hbal.
  - intros Ht. rewrite Hr, Hc, Ht. done.
Qed.
End Slots.

Section Dialed.
Context `{InetPtonLaws} (ctx : ProxyPolicy) (dns : cstring -> list (family * list Z) -> Prop).

(** (C18) Whatever the interleaving of the connections, the clock and the
    resolver's answers, every address the proxy dials or relays to is a parsed
    address that the policy admits: a metadata address only when a grant names
    exactly it, a private address only inside a granted CIDR, and always either
    the literal target of an admitted CONNECT or an answer of the resolver for
    an admitted hostname. *)
Theorem proxy_dials_authorised x ip port :
  reachable ctx dns x -> EDial ip port ∈ trace x \/ ERelay ip port ∈ trace x ->
  exists fam bin, ip_to_bin ip = Some (fam, bin) /\
    (in_metadata_range fam bin = true -> granted_exact (cidr_rules ctx) fam bin = true) /\
    (in_metadata_range fam bin = false -> private_bin fam bin = true ->
       cidr_match (cidr_rules ctx) fam bin = true) /\
    exists host, host_decide ctx host = true /\
      (ip_to_bin host = Some (fam, bin) \/
       exists addrs a, dns host addrs /\ a ∈ addrs /\ ip_to_bin (ntop a) = Some (fam, bin)).
Proof.
  intros Hx Hin. destruct (reachable_ok ctx dns x Hx) as (_ & _ & He).
  destruct Hin as [Hin|Hin]; exact (proj1 (Forall_forall _ _) He _ Hin).
Qed.
End Dialed.

(** A policy with one CIDR and one hostname grant, and a connection to a
    private address inside the CIDR. *)
Definition demo_policy : ProxyPolicy :=
  @proxy_bind demo_pton [Some (bs "10.0.0.0/8"); Some (bs "api.example.com")] None.
Definition demo_client (stream : cstring) : ClientEnv :=
  mk_env stream (fun _ => Some [(AF_INET, [93; 184; 216; 34]); (AF_INET, [127; 0; 0; 1])]) true [].
Definition demo_dns (h : cstring) (as_ : list (family * list Z)) : Prop :=
  as_ = [(AF_INET, [93; 184; 216; 34]); (AF_INET, [127; 0; 0; 1])].


(** What one connection relays, and that it leaves no slot taken. *)
Definition demo_run (stream : cstring) : sys :=
  @run_one demo_pton true 20 (@one_conn demo_pton demo_policy 1000 (demo_client stream)).

Example demo_runs :
  trace (demo_run (bs "10.0.0.5:443" ++ [10])) = [EDial (bs "10.0.0.5") 443; ERelay (bs "10.0.0.5") 443] /\
  trace (demo_run (bs "api.example.com:80" ++ [10])) =
    [EDial (bs "93.184.216.34") 80; ERelay (bs "93.184.216.34") 80] /\
  trace (demo_run (bs "192.168.0.5:443" ++ [10])) = [] /\
  denied (sh (demo_run (bs "evil.example.com:443" ++ [10]))) = [bs "evil.example.com"] /\
  map ba_addr (blessed (sh (demo_run (bs "RESOLVE api.example.com" ++ [10])))) =
    [[93; 184; 216; 34] ++ replicate 12 0].
Proof. vm_compute. by split_all. Qed.

Lemma proxy_dials_authorised_witness :
  exists fam bin, @ip_to_bin demo_pton (bs "10.0.0.5") = Some (fam, bin) /\
    cidr_match (cidr_rules demo_policy) fam bin = true.
Proof.
  destruct (@proxy_dials_authorised demo_pton demo_pton_laws demo_policy demo_dns
    (demo_run (bs "10.0.0.5:443" ++ [10])) (bs "10.0.0.5") 443)
    as (fam & bin & Hi & _ & Hp & _).
  - apply run_one_reachable, one_conn_reachable. by intros h as_ [= <-].
  - left. vm_compute. left.
  - exists fam, bin. split; [done|]. vm_compute in Hi. injection Hi as <- <-.
    by apply Hp; vm_compute.
Defined.

Lemma proxy_slots_bounded_witness :
  relay_count (sh (demo_run (bs "10.0.0.5:443" ++ [10]))) = 0.
Proof.
  apply (@proxy_slots_bounded demo_pton demo_policy demo_dns).
  - apply run_one_reachable, one_conn_reachable. by intros h as_ [= <-].
  - vm_compute. reflexivity.
Defined.

(** ** The ClientHello walk *)
Section Sni.

(** [settles r r']: the walk ended inside the bytes, and what it decided is what
    it decides with more bytes. *)
Definition settles (r r' : sni_result) : Prop :=
  r <> SniStuck /\ (r <> SniIncomplete -> r' = r).

Lemma settles_refl r : r <> SniStuck -> settles r r.
Proof. by split. Qed.

Context (buf more : list Z).

Lemma rd8_settles i k k' :
  bytes_ok buf -> 0 <= i < zlen buf -> (forall b, byte_ok b -> settles (k b) (k' b)) ->
  settles (rd8 buf i k) (rd8 (buf ++ more) i k').
Proof.
  intros Hb Hi Hk. unfold zlen in Hi. unfold rd8. rewrite lookup_app_l by lia.
  destruct (buf !! Z.to_nat i) as [b|] eqn:E; [|apply lookup_ge_None in E; lia].
  apply Hk. exact (Forall_lookup_1 _ _ _ _ Hb E).
Qed.

Lemma rd16_settles i k k' :
  bytes_ok buf -> 0 <= i -> i + 1 < zlen buf -> (forall v, 0 <= v -> settles (k v) (k' v)) ->
  settles (rd16 buf i k) (rd16 (buf ++ more) i k').
Proof.
  intros Hb H0 Hi Hk. unfold rd16. apply rd8_settles; [done | lia |]. intros hi Hhi.
  apply rd8_settles; [done | lia |]. intros lo Hlo. apply Hk. unfold byte_ok in *.
  apply Z.lor_nonneg. split; [apply Z.shiftl_nonneg|]; lia.
Qed.

Lemma need_settles pos n e k k' :
  (pos + n <= e -> pos + n <= zlen buf -> settles k k') ->
  settles (need buf pos n e k) (need (buf ++ more) pos n e k').
Proof.
  intros Hk. unfold need. destruct (e <? pos + n) eqn:E1; [by apply settles_refl|].
  destruct (zlen buf <? pos + n) eqn:E2; [by split|].
  unfold zlen in *. rewrite length_app. case_if; [lia|]. apply Hk; lia.
Qed.

Lemma if_settles (b : bool) r r' k k' :
  (b = true -> settles r r') -> (b = false -> settles k k') ->
  settles (if b then r else k) (if b then r' else k').
Proof. destruct b; auto. Qed.

Lemma sni_name_settles pos ext_len :
  bytes_ok buf -> 0 <= pos -> pos + ext_len <= zlen buf ->
  settles (sni_name buf pos ext_len) (sni_name (buf ++ more) pos ext_len).
Proof.
  intros Hb H0 He. unfold sni_name. cbv zeta.
  apply if_settles; [by intros _; apply settles_refl|]. intros H1.
  apply rd16_settles; [done | lia | lia |]. intros list_len Hl.
  apply if_settles; [by intros _; apply settles_refl|]. intros H2.
  apply if_settles; [by intros _; apply settles_refl|]. intros H3.
  apply rd8_settles; [done | lia |]. intros ty _.
  apply rd16_settles; [done | lia | lia |]. intros name_len Hn.
  apply if_settles; [by intros _; apply settles_refl|]. intros H4.
  apply if_settles; [by intros _; apply settles_refl|]. intros H5.
  split; [done|]. intros _. f_equal. unfold zlen in He.
  rewrite drop_app_le by lia. rewrite take_app_le; [done|]. rewrite length_drop. lia.
Qed.

Lemma sni_exts_settles f f' pos ext_end e :
  bytes_ok buf -> 0 <= pos <= zlen buf -> (f <= f')%nat -> zlen buf < pos + Z.of_nat f ->
  settles (sni_exts f buf pos ext_end e) (sni_exts f' (buf ++ more) pos ext_end e).
Proof.
  intros Hb. revert f' pos. induction f as [|f IH]; intros f' pos H0 Hf Hm; [lia|].
  destruct f' as [|f']; [lia|]. cbn [sni_exts].
  apply if_settles; [|by intros _; apply settles_refl]. intros _.
  apply need_settles. intros _ H4. apply rd16_settles; [done | lia | lia |]. intros ty _.
  apply rd16_settles; [done | lia | lia |]. intros len Hlen. cbv zeta.
  apply need_settles. intros _ H5.
  apply if_settles; [intros _; apply sni_name_settles; [done | lia | lia]|].
  intros _. apply IH; lia.
Qed.

Lemma parse_settles :
  bytes_ok buf -> settles (parse_client_hello_sni buf) (parse_client_hello_sni (buf ++ more)).
Proof.
  intros Hb. unfold parse_client_hello_sni. cbv zeta.
  destruct (zlen buf <? 5) eqn:H5; [by split|].
  replace (zlen (buf ++ more) <? 5) with false by (unfold zlen in *; rewrite length_app; lia).
  apply rd8_settles; [done | lia |]. intros b0 _.
  apply if_settles; [by intros _; apply settles_refl | intros _].
  apply rd8_settles; [done | lia |]. intros b1 _.
  apply if_settles; [by intros _; apply settles_refl | intros _].
  destruct (zlen buf <? 9) eqn:H9; [by split|].
  replace (zlen (buf ++ more) <? 9) with false by (unfold zlen in *; rewrite length_app; lia).
  apply rd8_settles; [done | lia |]. intros b5 _.
  apply if_settles; [by intros _; apply settles_refl | intros _].
  do 3 (apply rd8_settles; [done | lia |]; intros ? _).
  do 3 (apply need_settles; intros _ ?).
  apply rd8_settles; [done | lia |]. intros sid Hsid. unfold byte_ok in Hsid.
  do 2 (apply need_settles; intros _ ?).
  apply rd16_settles; [done | lia | lia |]. intros ciph Hciph.
  do 2 (apply need_settles; intros _ ?).
  apply rd8_settles; [done | lia |]. intros comp Hcomp. unfold byte_ok in Hcomp.
  apply need_settles. intros _ ?.
  apply if_settles; [by intros _; apply settles_refl | intros _].
  apply need_settles. intros _ ?. apply rd16_settles; [done | lia | lia |]. intros tot Htot.
  apply if_settles; [by intros _; apply settles_refl | intros _].
  unfold zlen in *. apply sni_exts_settles; [done | unfold zlen; lia | | unfold zlen; lia].
  rewrite length_app. lia.
Qed.
End Sni.

(** The ClientHello walk never reads outside the peeked bytes and always
    ends; once it decides (anything but "incomplete"), no byte that arrives later
    changes the decision, so peeking again cannot turn an SNI that was judged
    into another one. *)
Theorem parse_client_hello_sni_stable buf :
  bytes_ok buf ->
  parse_client_hello_sni buf <> SniStuck /\
  (parse_client_hello_sni buf <> SniIncomplete ->
   forall more, parse_client_hello_sni (buf ++ more) = parse_client_hello_sni buf).
Proof.
  intros Hb. split; [apply (parse_settles buf [] Hb)|].
  intros Hd more. by apply (parse_settles buf more Hb).
Qed.

(** *** What a well-formed ClientHello is *)
Definition be16 (n : Z) : list Z := [Z.shiftr n 8; Z.land n 0xFF].
Arguments be16 : simpl never.
Definition extension (e : Z * list Z) : list Z := be16 (fst e) ++ be16 (zlen (snd e)) ++ snd e.
Definition server_name (name : list Z) : Z * list Z :=
  (0, be16 (zlen name + 3) ++ [0] ++ be16 (zlen name) ++ name).

Record hello := mk_hello {
  hl_version : list Z; hl_random : list Z; hl_session : list Z; hl_ciphers : list Z;
  hl_compression : list Z; hl_extensions : list (Z * list Z)
}.

Definition hello_body (h : hello) : list Z :=
  hl_version h ++ hl_random h ++ [zlen (hl_session h)] ++ hl_session h ++
  be16 (zlen (hl_ciphers h)) ++ hl_ciphers h ++ [zlen (hl_compression h)] ++ hl_compression h ++
  be16 (zlen (concat (map extension (hl_extensions h)))) ++ concat (map extension (hl_extensions h)).

(** One handshake record: the five-byte record header, the type and the
    three-byte length. *)
Definition hello_record (minor : Z) (h : hello) : list Z :=
  let n := zlen (hello_body h) in
  [0x16; 0x03; minor] ++ be16 (n + 4) ++
  [0x01; Z.shiftr n 16; Z.land (Z.shiftr n 8) 0xFF; Z.land n 0xFF] ++ hello_body h.

Definition u16 (n : Z) : Prop := 0 <= n < 0x10000.

Definition hello_ok (h : hello) : Prop :=
  zlen (hl_version h) = 2 /\ zlen (hl_random h) = 32 /\ zlen (hl_session h) <= 32 /\
  u16 (zlen (hl_ciphers h)) /\ zlen (hl_compression h) < 256 /\
  u16 (zlen (concat (map extension (hl_extensions h)))) /\
  Forall (fun e => u16 (fst e) /\ u16 (zlen (snd e))) (hl_extensions h).

(** [view buf pos rest]: [rest] is what [buf] holds from [pos] on. *)
Definition view (buf : list Z) (pos : Z) (rest : list Z) : Prop :=
  exists pre, buf = pre ++ rest /\ pos = zlen pre.

Lemma view_skip buf pos xs rest : view buf pos (xs ++ rest) -> view buf (pos + zlen xs) rest.
Proof.
  intros (pre & -> & ->). exists (pre ++ xs). rewrite <- app_assoc. split; [done|].
  unfold zlen. rewrite length_app. lia.
Qed.

Lemma view_skip_n buf pos n xs rest :
  view buf pos (xs ++ rest) -> n = zlen xs -> view buf (pos + n) rest.
Proof. intros Hv ->. by apply view_skip. Qed.

Lemma view_rd8 buf pos b rest k : view buf pos (b :: rest) -> rd8 buf pos k = k b.
Proof.
  intros (pre & -> & ->). unfold rd8, zlen. rewrite Nat2Z.id, lookup_app_r by lia.
  by rewrite Nat.sub_diag.
Qed.

Lemma be16_value n : u16 n -> Z.lor (Z.shiftl (Z.shiftr n 8) 8) (Z.land n 0xFF) = n.
Proof.
  intros Hn. change 0xFF with (Z.ones 8). rewrite Z.land_ones, Z.shiftr_div_pow2 by lia.
  rewrite (lor_shiftl_add 8) by lia. lia.
Qed.

Lemma view_rd16 buf pos n rest k : view buf pos (be16 n ++ rest) -> u16 n -> rd16 buf pos k = k n.
Proof.
  intros Hv Hn. unfold rd16. rewrite (view_rd8 _ _ _ _ _ Hv).
  rewrite (view_rd8 _ _ _ rest _ (view_skip _ _ [Z.shiftr n 8] _ Hv)). by rewrite be16_value.
Qed.

Lemma view_need buf pos n e rest k :
  view buf pos rest -> n <= zlen rest -> pos + n <= e -> need buf pos n e k = k.
Proof.
  intros (pre & -> & ->) Hn He. unfold need, zlen in *. rewrite length_app.
  case_if; [lia|]. case_if; [lia | done].
Qed.

(** The name the walk takes from an extension list, the code's way: the first
    server_name extension decides. *)
Fixpoint first_sni (exts : list (Z * list Z)) : option (list Z) :=
  match exts with
  | [] => None
  | e :: exts' => if fst e =? 0 then Some (snd e) else first_sni exts'
  end.

Lemma sni_name_server_name buf pos name rest :
  view buf pos (snd (server_name name) ++ rest) -> 0 < zlen name < 256 ->
  sni_name buf pos (zlen name + 5) = SniFound name.
Proof.
  intros Hv Hn. unfold sni_name. cbv zeta. cbn [snd server_name] in Hv.
  rewrite <- !app_assoc in Hv.
  replace (_ <? pos + 2) with false by lia.
  rewrite (view_rd16 _ _ _ _ _ Hv) by (unfold u16; lia).
  apply (view_skip_n _ _ 2) in Hv; [|done].
  replace (_ <? pos + 2 + (zlen name + 3)) with false by lia.
  replace (_ <? pos + 2 + 3) with false by lia.
  rewrite (view_rd8 _ _ _ _ _ Hv). apply (view_skip_n _ _ 1) in Hv; [|done].
  rewrite (view_rd16 _ _ _ _ _ Hv) by (unfold u16; lia).
  apply (view_skip_n _ _ 2) in Hv; [|done].
  replace (_ <? pos + 2 + 3 + zlen name) with false by lia.
  replace (negb (0 =? 0) || (zlen name =? 0) || (SNI_CAP <=? zlen name)) with false
    by (unfold SNI_CAP; lia).
  f_equal. destruct Hv as (pre & -> & Hp). replace (pos + 2 + 3) with (zlen pre) by lia.
  unfold zlen. rewrite !Nat2Z.id, drop_app_length. by rewrite take_app_length.
Qed.

Lemma sni_exts_spec exts name : forall f buf pos rest e,
  view buf pos (concat (map extension exts) ++ rest) ->
  Forall (fun e => u16 (fst e) /\ u16 (zlen (snd e))) exts ->
  pos + zlen (concat (map extension exts)) <= e -> (length exts <= f)%nat ->
  match first_sni exts with
  | None => sni_exts f buf pos (pos + zlen (concat (map extension exts))) e = SniNoSni
  | Some d => d = snd (server_name name) -> 0 < zlen name < 256 ->
      sni_exts f buf pos (pos + zlen (concat (map extension exts))) e = SniFound name
  end.
Proof.
  induction exts as [|[ty d] exts IH]; intros f buf pos rest e Hv Hok He Hf.
  - simpl. destruct f; cbn [sni_exts]; by replace (pos <? _) with false by (unfold zlen; simpl; lia).
  - apply Forall_cons in Hok as [[Ht Hd] Hok]. simpl in Ht, Hd.
    destruct f as [|f]; [simpl in Hf; lia|].
    assert (Hlen : zlen (concat (map extension ((ty, d) :: exts))) =
      4 + zlen d + zlen (concat (map extension exts))).
    { unfold zlen. simpl. rewrite !length_app. lia. }
    rewrite Hlen in He |- *. cbn [map concat] in Hv. unfold extension at 1 in Hv.
    cbn [fst snd] in Hv. rewrite <- !app_assoc in Hv.
    assert (Hv4 := view_skip_n _ _ 2 _ _ Hv eq_refl).
    assert (Hstep : sni_exts (S f) buf pos (pos + (4 + zlen d + zlen (concat (map extension exts)))) e =
      if ty =? 0 then sni_name buf (pos + 4) (zlen d)
      else sni_exts f buf (pos + 4 + zlen d) (pos + (4 + zlen d + zlen (concat (map extension exts)))) e).
    { cbn [sni_exts]. pose proof (zlen_nonneg d). pose proof (zlen_nonneg (concat (map extension exts))).
      replace (pos <? _) with true by lia.
      rewrite (view_need _ _ _ _ _ _ Hv) by (unfold zlen in *; rewrite ?length_app; simpl; lia).
      rewrite (view_rd16 _ _ _ _ _ Hv Ht), (view_rd16 _ _ _ _ _ Hv4 Hd).
      assert (Hv6 := view_skip_n _ _ 2 _ _ Hv4 eq_refl). cbv zeta.
      replace (pos + 2 + 2) with (pos + 4) in Hv6 by lia.
      by rewrite (view_need _ _ _ _ _ _ Hv6) by (unfold zlen in *; rewrite ?length_app; lia). }
    assert (Hv6 := view_skip_n _ _ 2 _ _ Hv4 eq_refl).
    replace (pos + 2 + 2) with (pos + 4) in Hv6 by lia.
    rewrite Hstep. cbn [first_sni fst snd]. destruct (ty =? 0).
    + intros -> Hn. replace (zlen (snd (server_name name))) with (zlen name + 5)
        by (unfold zlen; simpl; lia). by eapply sni_name_server_name.
    + apply view_skip in Hv6.
      specialize (IH f buf (pos + 4 + zlen d) rest e Hv6 Hok ltac:(lia) ltac:(simpl in Hf; lia)).
      replace (pos + (4 + zlen d + zlen (concat (map extension exts)))) with
        (pos + 4 + zlen d + zlen (concat (map extension exts))) by lia. exact IH.
Qed.

Lemma rd8_at buf i b k : buf !! Z.to_nat i = Some b -> rd8 buf i k = k b.
Proof. intros H. unfold rd8. by rewrite H. Qed.

Lemma be24_value n :
  0 <= n < 0x1000000 ->
  Z.lor (Z.lor (Z.shiftl (Z.shiftr n 16) 16) (Z.shiftl (Z.land (Z.shiftr n 8) 0xFF) 8))
    (Z.land n 0xFF) = n.
Proof.
  intros Hn. change 0xFF with (Z.ones 8). rewrite !Z.land_ones, !Z.shiftr_div_pow2 by lia.
  rewrite (lor_shiftl_add 16) by (rewrite ?Z.shiftl_mul_pow2 by lia; lia).
  rewrite !Z.shiftl_mul_pow2 by lia.
  replace (n / 2 ^ 16 * 2 ^ 16 + (n / 2 ^ 8) mod 2 ^ 8 * 2 ^ 8) with
    ((n / 2 ^ 16 * 2 ^ 8 + (n / 2 ^ 8) mod 2 ^ 8) * 2 ^ 8) by lia.
  rewrite <- Z.shiftl_mul_pow2, (lor_shiftl_add 8) by lia. lia.
Qed.

Lemma zlen_single {A} (x : A) : zlen [x] = 1.
Proof. done. Qed.

Lemma zlen_be16 n : zlen (be16 n) = 2.
Proof. done. Qed.

Lemma extensions_length exts : (length exts <= length (concat (map extension exts)))%nat.
Proof.
  induction exts as [|e exts IH]; [done|]. cbn [map concat].
  rewrite length_app. unfold extension at 1, be16. cbn [app length]. lia.
Qed.

(** Through the guard of a field the view holds, and past a field. *)
Ltac walk_need Hv :=
  rewrite (view_need _ _ _ _ _ _ Hv) by (rewrite ?zlen_app, ?zlen_be16, ?zlen_single; lia).
Ltac walk_skip Hv n := apply (view_skip_n _ _ n) in Hv; [|done].

(** The walk up to the extension loop. *)
Lemma parse_hello_exts minor h rest :
  hello_ok h ->
  let buf := hello_record minor h ++ rest in
  let x := concat (map extension (hl_extensions h)) in
  let pos := 9 + zlen (hello_body h) - zlen x in
  view buf pos (x ++ rest) /\
  parse_client_hello_sni buf = sni_exts (length buf) buf pos (pos + zlen x) (9 + zlen (hello_body h)).
Proof.
  intros (H1 & H2 & H3 & H4 & H5 & H6 & _) buf x pos. fold x in H6. unfold u16 in *.
  assert (Hn : zlen (hello_body h) = 40 + zlen (hl_session h) + zlen (hl_ciphers h) +
    zlen (hl_compression h) + zlen x).
  { unfold hello_body. rewrite !zlen_app, !zlen_be16, !zlen_single. fold x. lia. }
  pose proof (zlen_nonneg (hl_session h)). pose proof (zlen_nonneg (hl_ciphers h)).
  pose proof (zlen_nonneg (hl_compression h)). pose proof (zlen_nonneg x).
  pose proof (zlen_nonneg rest).
  assert (Hbuf : exists hi lo a b c, buf = [0x16; 3; minor; hi; lo; 1; a; b; c] ++ hello_body h ++ rest /\
    Z.lor (Z.lor (Z.shiftl a 16) (Z.shiftl b 8)) c = zlen (hello_body h)).
  { do 5 eexists. split; [reflexivity|]. apply be24_value. lia. }
  destruct Hbuf as (hi & lo & a & b & c & Hbuf & Hval).
  assert (Hv : view buf 9 (hello_body h ++ rest)) by (eexists; by split).
  assert (Hlen : zlen buf = 9 + zlen (hello_body h) + zlen rest) 
    by (rewrite Hbuf; unfold zlen; rewrite !length_app; cbn [length]; lia).
  set (body := hello_body h) in *. unfold parse_client_hello_sni. cbv zeta.
  replace (zlen buf <? 5) with false by lia. replace (zlen buf <? 9) with false by lia.
  rewrite (rd8_at buf 0 0x16) by (by rewrite Hbuf). cbn [negb Z.eqb Pos.eqb].
  rewrite (rd8_at buf 1 3) by (by rewrite Hbuf). cbn [negb Z.eqb Pos.eqb].
  rewrite (rd8_at buf 5 1) by (by rewrite Hbuf). cbn [negb Z.eqb Pos.eqb].
  rewrite (rd8_at buf 6 a), (rd8_at buf 7 b), (rd8_at buf 8 c) by (by rewrite Hbuf).
  rewrite Hval. clear Hbuf Hval.
  unfold body, hello_body in Hv. fold body in Hv. rewrite <- !app_assoc in Hv. fold x in Hv.
  walk_need Hv. walk_skip Hv 2. walk_need Hv. walk_skip Hv 32. walk_need Hv.
  rewrite (view_rd8 _ _ _ _ _ Hv). walk_skip Hv 1. walk_need Hv.
  walk_skip Hv (zlen (hl_session h)). walk_need Hv.
  rewrite (view_rd16 _ _ _ _ _ Hv) by (unfold u16; lia). walk_skip Hv 2. walk_need Hv.
  walk_skip Hv (zlen (hl_ciphers h)). walk_need Hv.
  rewrite (view_rd8 _ _ _ _ _ Hv). walk_skip Hv 1. walk_need Hv.
  walk_skip Hv (zlen (hl_compression h)).
  match goal with |- context [if ?b then SniNoSni else _] => replace b with false by lia end.
  walk_need Hv. rewrite (view_rd16 _ _ _ _ _ Hv) by (unfold u16; lia). walk_skip Hv 2.
  match goal with |- context [if ?b then SniFailOpen else _] => replace b with false by lia end.
  match type of Hv with view _ ?p _ => replace p with pos in * by lia end. done.
Qed.

(** The walk reads a well-formed ClientHello record the way RFC 8446 and
    RFC 6066 lay it out: whatever its version, session, ciphers, compression and
    other extensions, and whatever follows it, the name found is the host name of
    its first server_name extension, and a hello without that extension is
    recognised as having none. *)
Theorem parse_client_hello_sni_correct minor h rest :
  hello_ok h ->
  (first_sni (hl_extensions h) = None ->
   parse_client_hello_sni (hello_record minor h ++ rest) = SniNoSni) /\
  (forall name, 0 < zlen name < 256 ->
   first_sni (hl_extensions h) = Some (snd (server_name name)) ->
   parse_client_hello_sni (hello_record minor h ++ rest) = SniFound name).
Proof.
  intros Hok. destruct (parse_hello_exts minor h rest Hok) as [Hv ->].
  destruct Hok as (_ & _ & _ & _ & _ & _ & Hes).
  set (f := length (hello_record minor h ++ rest)) in *.
  assert (Hf : (length (hl_extensions h) <= f)%nat).
  { subst f. unfold hello_record, hello_body. rewrite !length_app.
    pose proof (extensions_length (hl_extensions h)). lia. }
  pose proof (fun name => sni_exts_spec _ name f _ _ _ (9 + zlen (hello_body h)) Hv Hes
    ltac:(lia) Hf) as Hspec.
  split.
  - intros Hnone. specialize (Hspec []). by rewrite Hnone in Hspec.
  - intros name Hn Hsome. specialize (Hspec name). rewrite Hsome in Hspec. by apply Hspec.
Qed.

Definition demo_hello : hello :=
  mk_hello [3; 3] (replicate 32 7) [1; 2] [0x13; 0x01] [0]
    [(10, [0; 2; 0; 29]); server_name (bs "api.example.com")].

Lemma demo_hello_ok : hello_ok demo_hello.
Proof. unfold hello_ok, u16. split_all; repeat constructor; by vm_compute. Qed.

Lemma parse_client_hello_sni_correct_witness :
  parse_client_hello_sni (hello_record 1 demo_hello ++ [1; 2; 3]) = SniFound (bs "api.example.com").
Proof.
  apply parse_client_hello_sni_correct; [exact demo_hello_ok | split; reflexivity | reflexivity].
Defined.

Lemma parse_client_hello_sni_stable_witness :
  parse_client_hello_sni (hello_record 1 demo_hello ++ replicate 40 7) = SniFound (bs "api.example.com").
Proof.
  apply parse_client_hello_sni_stable.
  - apply (bool_decide_unpack _). vm_compute. exact I.
  - vm_compute. discriminate.
Defined.

(** ** The result texts *)

(** [proxy_hosts_json]: the bytes written from offset [o] into [cap] bytes. *)
Fixpoint hosts_items (cap : Z) (hosts : list cstring) (first : bool) (o : Z) : list Z :=
  match hosts with
  | [] => []
  | h :: hosts' =>
      let lead := (if first then [] else [","%char]) ++ [DQUOTE] in
      let o := o + zlen lead in
      let esc := json_escape (cap - o) h in
      lead ++ esc ++ [DQUOTE] ++ hosts_items cap hosts' false (o + zlen esc + 1)
  end.

Definition hosts_room (hosts : list cstring) : Z :=
  fold_right (fun h n => zlen h * 6 + 3 + n) 0 hosts.
Definition hosts_cap (hosts : list cstring) : Z :=
  3 + hosts_room hosts.

(** [None] also when [malloc] fails; the terminating NUL is not in the list. *)
Definition proxy_hosts_json (alloc : bool) (s : ProxyShared) : option cstring :=
  match contacted s with
  | [] => None
  | hosts =>
      if alloc then Some (["["%char] ++ hosts_items (hosts_cap hosts) hosts true 1 ++ ["]"%char])
      else None
  end.

(** [snprintf] into what is left: [None] when the text would be cut. *)
Definition snprintf_fits (cap o : Z) (text : cstring) : option Z :=
  if o + zlen text <? cap then Some (o + zlen text) else None.

Definition DENIED_HEAD : cstring := [10] ++ bs "cclaw: proxy blocked host(s) not in allowlist: ".
Definition DEFAULT_ADVICE : cstring :=
  bs "request access via request_config (grants.hosts) if needed".

Fixpoint denied_items (cap : Z) (hosts : list cstring) (first : bool) (o : Z) : option (list Z * Z) :=
  match hosts with
  | [] => Some ([], o)
  | h :: hosts' =>
      let lead := if first then [] else bs ", " in
      match snprintf_fits cap o (lead ++ h) with
      | None => None
      | Some o' => option_map (fun p => (lead ++ h ++ fst p, snd p)) (denied_items cap hosts' false o')
      end
  end.

Definition denied_room (hosts : list cstring) : Z :=
  fold_right (fun h n => zlen h + 4 + n) 0 hosts.
Definition denied_cap (advice : cstring) (hosts : list cstring) : Z :=
  96 + zlen advice + denied_room hosts.

(** The text, or [None] with nothing denied, a failed [malloc] or a [snprintf]
    that would have been cut. *)
Definition proxy_denied_summary (alloc : bool) (s : ProxyShared) (advice : option cstring)
    : option cstring :=
  match denied s with
  | [] => None
  | hosts =>
      let advice := match advice with Some a => a | None => DEFAULT_ADVICE end in
      let cap := denied_cap advice hosts in
      if negb alloc then None
      else match snprintf_fits cap 0 DENIED_HEAD with
           | None => None
           | Some o =>
               match denied_items cap hosts true o with
               | None => None
               | Some (items, o) =>
                   let tail := bs " " ++ EM_DASH ++ bs " " ++ advice ++ [10] in
                   match snprintf_fits cap o tail with
                   | None => None
                   | Some _ => Some (DENIED_HEAD ++ items ++ tail)
                   end
               end
           end
  end.

(** *** Both texts are complete *)
Definition quoted (h : cstring) : list Z := [DQUOTE] ++ escape_all h ++ [DQUOTE].

Fixpoint join_with (sep : list Z) (items : list (list Z)) : list Z :=
  match items with
  | [] => []
  | [x] => x
  | x :: items' => x ++ sep ++ join_with sep items'
  end.

Lemma escape_room h cap : 6 * zlen h < cap -> json_escape cap h = escape_all h /\ zlen (escape_all h) <= 6 * zlen h.
Proof.
  intros Hc. split.
  - unfold json_escape. destruct (escape_loop_prefix h 0 cap) as (k & -> & _ & Hk). by rewrite Hk by lia.
  - clear Hc. induction h as [|c h IH]; [done|]. unfold escape_all in *. cbn [map concat].
    rewrite zlen_app, zlen_cons. pose proof (escape_byte_length c). lia.
Qed.

Lemma hosts_room_nonneg hosts : 0 <= hosts_room hosts.
Proof. induction hosts as [|h hosts IH]; simpl; [lia|]. pose proof (zlen_nonneg h). lia. Qed.

Lemma denied_room_nonneg hosts : 0 <= denied_room hosts.
Proof. induction hosts as [|h hosts IH]; simpl; [lia|]. pose proof (zlen_nonneg h). lia. Qed.

Lemma hosts_items_spec cap hosts first o :
  o + hosts_room hosts < cap ->
  hosts_items cap hosts first o =
    (if first then [] else match hosts with [] => [] | _ => [","%char] end) ++
    join_with [","%char] (map quoted hosts) /\
  zlen (hosts_items cap hosts first o) <= hosts_room hosts.
Proof.
  revert first o. induction hosts as [|h hosts IH]; intros first o Hc.
  - destruct first; split; done || (unfold zlen; simpl in *; lia).
  - change (hosts_room (h :: hosts)) with (zlen h * 6 + 3 + hosts_room hosts) in *.
    cbn [hosts_items]. cbv zeta.
    set (lead := (if first then [] else [","%char]) ++ [DQUOTE]).
    assert (Hl : 1 <= zlen lead <= 2) by (subst lead; destruct first; split; by vm_compute).
    pose proof (hosts_room_nonneg hosts).
    destruct (escape_room h (cap - (o + zlen lead)) ltac:(lia)) as [-> He].
    destruct (IH false (o + zlen lead + zlen (escape_all h) + 1) ltac:(lia)) as [IH1 IH2].
    split; [|rewrite !zlen_app, zlen_single in *; lia].
    rewrite IH1. subst lead. unfold quoted.
    destruct hosts as [|h' hosts]; destruct first; cbn [map join_with app]; by rewrite <- ?app_assoc, ?app_nil_r.
Qed.

Lemma denied_items_spec cap hosts first o :
  o + denied_room hosts < cap ->
  exists items o', denied_items cap hosts first o = Some (items, o') /\
    items = (if first then [] else match hosts with [] => [] | _ => bs ", " end) ++
      join_with (bs ", ") hosts /\
    o' = o + zlen items /\ o' <= o + denied_room hosts.
Proof.
  revert first o. induction hosts as [|h hosts IH]; intros first o Hc.
  - exists [], o. split; [done|]. split; [by destruct first|]. unfold zlen; simpl. lia.
  - change (denied_room (h :: hosts)) with (zlen h + 4 + denied_room hosts) in *.
    cbn [denied_items]. cbv zeta.
    set (lead := if first then [] else bs ", ").
    assert (Hl : 0 <= zlen lead <= 2) by (subst lead; destruct first; split; by vm_compute).
    pose proof (denied_room_nonneg hosts).
    unfold snprintf_fits. rewrite zlen_app. case_if; [|lia].
    destruct (IH false (o + (zlen lead + zlen h)) ltac:(lia)) as (items & o' & -> & Hi & Ho & Hb).
    exists (lead ++ h ++ items), o'. split; [done|]. rewrite !zlen_app. split; [|lia].
    rewrite Hi. subst lead. destruct hosts; destruct first; cbn [join_with app]; by rewrite ?app_nil_r.
Qed.

(** The two texts a call reports about its egress are never cut and never
    overrun the buffer computed for them: the JSON array holds every contacted
    host, each fully escaped (the sandboxed child writes those bytes), and the
    summary every denied one, with the given advice or the default. *)
Theorem proxy_texts_complete s advice :
  contacted s <> [] -> denied s <> [] ->
  (let text := ["["%char] ++ join_with [","%char] (map quoted (contacted s)) ++ ["]"%char] in
   proxy_hosts_json true s = Some text /\ zlen text + 1 <= hosts_cap (contacted s)) /\
  (let adv := match advice with Some a => a | None => DEFAULT_ADVICE end in
   let text := DENIED_HEAD ++ join_with (bs ", ") (denied s) ++ bs " " ++ EM_DASH ++ bs " " ++ adv ++ [10] in
   proxy_denied_summary true s advice = Some text /\ zlen text + 1 <= denied_cap adv (denied s)).
Proof.
  intros Hc Hd. split; cbv zeta.
  - unfold proxy_hosts_json. destruct (contacted s) as [|h hosts] eqn:E; [done|]. rewrite <- E in *.
    destruct (hosts_items_spec (hosts_cap (contacted s)) (contacted s) true 1) as [H1 H2];
      [unfold hosts_cap; lia|].
    rewrite H1 in H2 |- *. split; [done|]. unfold hosts_cap.
    cbn [app] in H2. rewrite !zlen_app, !zlen_single in *. lia.
  - unfold proxy_denied_summary. set (adv := match advice with Some a => a | None => _ end).
    destruct (denied s) as [|h hosts] eqn:E; [done|]. rewrite <- E in *.
    cbn [negb]. assert (Hh : zlen DENIED_HEAD = 48) by done. pose proof (zlen_nonneg adv).
    pose proof (denied_room_nonneg (denied s)).
    destruct (denied_items_spec (denied_cap adv (denied s)) (denied s) true 48)
      as (items & o' & Hd' & Hi & Ho & Hb); [unfold denied_cap; lia|].
    unfold snprintf_fits at 1. rewrite Hh. case_if; [|unfold denied_cap in *; lia].
    change (0 + 48) with 48. rewrite Hd'. unfold snprintf_fits. unfold denied_cap in *.
    assert (Ht : zlen (bs " " ++ EM_DASH ++ bs " " ++ adv ++ [10]) = zlen adv + 6)
      by (rewrite !zlen_app; unfold zlen; simpl; lia).
    rewrite Ht. replace (_ <? _) with true by lia. rewrite Hi. cbn [app]. split; [done|].
    rewrite Hi in Ho. cbn [app] in Ho. rewrite !zlen_app in *. lia.
Qed.

Lemma proxy_texts_complete_witness :
  proxy_hosts_json true (mk_shared [] 0 0 [bs "a.b"; bs "c"] [bs "x"] 0) =
    Some (["["%char; DQUOTE] ++ bs "a.b" ++ [DQUOTE; ","%char; DQUOTE] ++ bs "c" ++ [DQUOTE; "]"%char]).
Proof.
  destruct (proxy_texts_complete (mk_shared [] 0 0 [bs "a.b"; bs "c"] [bs "x"] 0) None) as [[-> _] _];
    [done | done | reflexivity].
Defined.
