(* ===== verification/Cron.v ===== *)
(** * Cron schedules: src/cron.c

    The field parser, the search for the next run through the local calendar
    (class [LocalTime], the C library's [localtime_r] and [mktime]), the schedule
    check.  [CronJobs] builds the upsert and the fire path on it. *)
From S2P Require Import Prelude CString Libc.

(** ** The field parser *)

(** [for (i = start; i <= end; i += step) *out |= 1ULL << i]; [n] bounds the
    iterations ([set_bits_fuel]). *)
Fixpoint set_bits (n : nat) (i end_ step out : Z) : Z :=
  match n with
  | O => out
  | S n' => if i <=? end_ then set_bits n' (i + step) end_ step (Z.lor out (Z.shiftl 1 i)) else out
  end.

(** A number in [min, max]; a clamped [ERANGE] value is out of range as well. *)
Definition field_num (p : cstring) (lo hi : Z) : option (Z * cstring) :=
  let (v, p') := strtol p in
  if (v <? lo) || (hi <? v) then None else Some (v, p').

(** One item: the range and the step. *)
Definition field_item (p : cstring) (min max : Z) : option (Z * Z * Z * cstring) :=
  match
    match p with
    | c :: p' =>
        if c =? "*"%char then Some (min, max, p')
        else
          match field_num p min max with
          | None => None
          | Some (start, p1) =>
              match p1 with
              | d :: p2 =>
                  if d =? "-"%char
                  then option_map (fun e => (start, fst e, snd e)) (field_num p2 min max)
                  else Some (start, start, p1)
              | [] => Some (start, start, p1)
              end
          end
    | [] => None
    end
  with
  | None => None
  | Some (start, end_, q) =>
      match q with
      | c :: q' =>
          if c =? "/"%char
          then option_map (fun s => (start, end_, fst s, snd s)) (field_num q' 1 max)
          else Some (start, end_, 1, q)
      | [] => Some (start, end_, 1, q)
      end
  end.

(** Every iteration that goes on consumes a comma. *)
Fixpoint field_loop (fuel : nat) (p : cstring) (min max out : Z) : option Z :=
  match p with
  | [] => Some out
  | _ :: _ =>
      match fuel with
      | O => None
      | S fuel' =>
          match field_item p min max with
          | None => None
          | Some (start, end_, step, q) =>
              let out := set_bits (S (Z.to_nat (end_ - start))) start end_ step out in
              match q with
              | [] => Some out
              | c :: q' => if c =? ","%char then field_loop fuel' q' min max out else None
              end
          end
      end
  end.

Definition parse_field (field : cstring) (min max : Z) : option Z :=
  field_loop (length field) field min max 0.

(** ** The calendar *)
Record tm := mk_tm {
  tm_year : Z; tm_mon : Z; tm_mday : Z; tm_hour : Z; tm_min : Z; tm_wday : Z
}.

(** [localtime_r] and [mktime] (with [tm_isdst = -1] and [tm_sec = 0]). *)
Class LocalTime := { localtime : Z -> tm; mktime : tm -> Z }.

(** The masks of the five fields. *)
Record sets := mk_sets { minutes : Z; hours : Z; doms : Z; months : Z; dows : Z }.

(** [strtok_r] on blanks and tabs. *)
Definition is_blank (c : Z) : bool := (c =? 32) || (c =? 9).

Fixpoint blank_tokens (s word : cstring) : list cstring :=
  match s with
  | [] => match word with [] => [] | _ => [word] end
  | c :: s' =>
      if is_blank c
      then match word with [] => blank_tokens s' [] | _ => word :: blank_tokens s' [] end
      else blank_tokens s' (word ++ [c])
  end.

Definition parse_expr (cron_expr : cstring) : option sets :=
  match blank_tokens (take 127 cron_expr) [] with
  | f0 :: f1 :: f2 :: f3 :: f4 :: _ =>
      match parse_field f0 0 59, parse_field f1 0 23, parse_field f2 1 31,
            parse_field f3 1 12, parse_field f4 0 6 with
      | Some m, Some h, Some d, Some mo, Some w => Some (mk_sets m h d mo w)
      | _, _, _, _, _ => None
      end
  | _ => None
  end.

Section NextRun.
Context `{LocalTime}.

Definition local_midnight (x : tm) : Z :=
  mktime (mk_tm (tm_year x) (tm_mon x) (tm_mday x) 0 0 (tm_wday x)).

Definition next_month (x : tm) : tm :=
  mk_tm (tm_year x) (tm_mon x + 1) 1 (tm_hour x) (tm_min x) (tm_wday x).
Definition next_day (x : tm) : tm :=
  mk_tm (tm_year x) (tm_mon x) (tm_mday x + 1) (tm_hour x) (tm_min x) (tm_wday x).

(** One turn of the search: the time it moves to, or [None] on a hit. *)
Definition advance (s : sets) (t : Z) : option Z :=
  let x := localtime t in
  if negb (Z.testbit (months s) (tm_mon x + 1)) then Some (local_midnight (next_month x))
  else if negb (Z.testbit (doms s) (tm_mday x)) || negb (Z.testbit (dows s) (tm_wday x))
  then Some (local_midnight (next_day x))
  else if negb (Z.testbit (hours s) (tm_hour x)) then Some (t + (3600 - tm_min x * 60))
  else if negb (Z.testbit (minutes s) (tm_min x)) then Some (t + 60)
  else None.

(** [None] is running out of fuel ([next_loop_fuel]). *)
Fixpoint next_loop (fuel : nat) (s : sets) (t limit : Z) : option Z :=
  if t <? limit then
    match fuel with
    | O => None
    | S fuel' =>
        match advance s t with
        | None => Some t
        | Some t' => if t' <=? t then Some (-1) else next_loop fuel' s t' limit
        end
    end
  else Some (-1).

Definition search_start (after : Z) : Z := let t := after + 60 in t - Z.rem t 60.
Definition SEARCH_SPAN : Z := 366 * 24 * 3600.

Definition cron_next_run (cron_expr : option cstring) (after : Z) : option Z :=
  match cron_expr with
  | None => Some (-1)
  | Some e =>
      match parse_expr e with
      | None => Some (-1)
      | Some s =>
          let t := search_start after in
          next_loop (Z.to_nat SEARCH_SPAN) s t (t + SEARCH_SPAN)
      end
  end.

Inductive CronSchedRc :=
  CRON_SCHED_OK | CRON_SCHED_NONE | CRON_SCHED_BOTH | CRON_SCHED_BAD_EXPR | CRON_SCHED_FLOOR.

(** The verdict with [*next_out] and [*every_out], where they are written;
    [floor_] is the configured minimum interval. *)
Definition cron_schedule_check (floor_ now : Z) (cron_expr : option cstring) (in_seconds : Z)
    : option (CronSchedRc * option Z * option Z) :=
  let has_expr := match cron_expr with Some (_ :: _) => true | _ => false end in
  let has_secs := negb (in_seconds =? 0) in
  if has_expr && has_secs then Some (CRON_SCHED_BOTH, None, None)
  else if negb has_expr && negb has_secs then Some (CRON_SCHED_NONE, None, None)
  else if has_expr then
    match cron_next_run cron_expr now with
    | None => None
    | Some next =>
        if next <? 0 then Some (CRON_SCHED_BAD_EXPR, None, None)
        else match cron_next_run cron_expr next with
             | None => None
             | Some n2 =>
                 if n2 <? 0 then Some (CRON_SCHED_BAD_EXPR, None, None)
                 else if n2 - next <? floor_ then Some (CRON_SCHED_FLOOR, None, Some (n2 - next))
                 else Some (CRON_SCHED_OK, Some next, Some (n2 - next))
             end
    end
  else if in_seconds <? floor_ then Some (CRON_SCHED_FLOOR, None, Some in_seconds)
  else Some (CRON_SCHED_OK, Some (now + in_seconds), Some in_seconds).
End NextRun.

(** ** The field parser: correctness *)

Lemma set_bits_spec n i end_ step out k :
  1 <= step -> 0 <= i -> end_ - i < Z.of_nat n -> 0 <= k ->
  Z.testbit (set_bits n i end_ step out) k =
  Z.testbit out k || ((i <=? k) && (k <=? end_) && ((k - i) mod step =? 0)).
Proof.
  revert i out. induction n as [|n IH]; intros i out Hs Hi Hn Hk; cbn [set_bits].
  - replace ((i <=? k) && (k <=? end_)) with false by lia. by rewrite orb_false_r.
  - destruct (i <=? end_) eqn:E.
    + rewrite IH by lia. rewrite Z.lor_spec, Z.shiftl_spec by lia.
      rewrite <- orb_assoc. f_equal.
      destruct (decide (k = i)) as [->|Hne].
      * replace (i - i) with 0 by lia. rewrite Z.mod_0_l by lia. simpl. by rewrite E, Z.leb_refl.
      * replace (Z.testbit 1 (k - i)) with false.
        2:{ symmetry. destruct (Z.ltb_spec k i); [by apply Z.testbit_neg_r; lia|].
            apply Z.bits_above_log2; simpl; lia. }
        simpl. replace ((k - (i + step)) mod step) with ((k - i) mod step).
        2:{ replace (k - i) with (k - (i + step) + 1 * step) by lia. by rewrite Z.mod_add by lia. }
        destruct ((k - i) mod step =? 0) eqn:Em; [|by rewrite !andb_false_r].
        rewrite !andb_true_r. f_equal. apply Z.eqb_eq in Em.
        destruct (Z.leb_spec i k); [|lia].
        assert (k - i = step * ((k - i) / step)) by (apply Z_div_exact_full_2; lia).
        assert (1 <= (k - i) / step) by (destruct (Z.leb_spec ((k - i) / step) 0); nia).
        nia.
    + replace ((i <=? k) && (k <=? end_)) with false by lia. by rewrite orb_false_r.
Qed.

(** The texts a field is written with. *)
Inductive range := RStar | ROne (n : Z) | RSpan (a b : Z).
Record item := mk_item { it_range : range; it_step : option Z }.

Definition range_text (r : range) : cstring :=
  match r with
  | RStar => ["*"%char]
  | ROne n => octet_text n
  | RSpan a b => octet_text a ++ ["-"%char] ++ octet_text b
  end.
Definition item_text (i : item) : cstring :=
  range_text (it_range i) ++
  match it_step i with None => [] | Some s => ["/"%char] ++ octet_text s end.
Fixpoint field_text (items : list item) : cstring :=
  match items with
  | [] => []
  | [i] => item_text i
  | i :: items' => item_text i ++ [","%char] ++ field_text items'
  end.

(** The range and step an item means between [min] and [max]. *)
Definition bounds (min max : Z) (r : range) : Z * Z :=
  match r with RStar => (min, max) | ROne n => (n, n) | RSpan a b => (a, b) end.
Definition step_of (i : item) : Z := match it_step i with None => 1 | Some s => s end.
Definition covers (min max : Z) (k : Z) (i : item) : bool :=
  let (a, b) := bounds min max (it_range i) in
  (a <=? k) && (k <=? b) && ((k - a) mod step_of i =? 0).
Definition item_ok (min max : Z) (i : item) : Prop :=
  (let (a, b) := bounds min max (it_range i) in min <= a <= max /\ min <= b <= max) /\
  1 <= step_of i <= max.

Lemma octet_text_cons v : 0 <= v < 256 -> exists d ds, octet_text v = d :: ds /\ is_digit d = true.
Proof.
  intros Hv. unfold octet_text, is_digit. repeat case_if; do 2 eexists; split; try reflexivity; bool_lia.
Qed.

Lemma octet_text_digits v : 0 <= v < 256 ->
  Forall (fun c => is_digit c = true) (octet_text v) /\
  fold_left (fun a c => a * 10 + (c - "0"%char)) (octet_text v) 0 = v.
Proof.
  intros Hv. unfold octet_text, is_digit. repeat case_if; split;
    try (repeat constructor; bool_lia); simpl; lia.
Qed.

Lemma scan_digits_app ds rest acc :
  Forall (fun c => is_digit c = true) ds -> is_digit (deref rest) = false ->
  scan_digits acc (ds ++ rest) = (fold_left (fun a c => a * 10 + (c - "0"%char)) ds acc, rest).
Proof.
  intros Hd Hr. revert acc. induction Hd as [|c ds Hc Hd IH]; intros acc; simpl.
  - destruct rest as [|r rest]; [done|]. simpl in Hr |- *. by rewrite Hr.
  - rewrite Hc. apply IH.
Qed.

Lemma strtol_octet v rest :
  0 <= v < 256 -> is_digit (deref rest) = false -> strtol (octet_text v ++ rest) = (v, rest).
Proof.
  intros Hv Hr. destruct (octet_text_cons v Hv) as (d & ds & E & Hd).
  destruct (octet_text_digits v Hv) as [Hds Hval]. rewrite E in Hds, Hval |- *.
  pose proof (scan_digits_app _ rest 0 Hds Hr) as Hscan. rewrite Hval in Hscan.
  unfold is_digit in Hd. unfold strtol. cbn [app skip_space].
  replace (isspace d) with false by (unfold isspace; bool_lia).
  replace (d =? "-"%char) with false by bool_lia.
  replace (d =? "+"%char) with false by bool_lia.
  unfold deref, is_digit at 1. cbn [hd]. rewrite Hd.
  change (d :: ds ++ rest) with ((d :: ds) ++ rest). rewrite Hscan. f_equal. unfold LONG_MAX. lia.
Qed.

(** What may follow an item: the end or a comma. *)
Definition item_end (rest : cstring) : Prop := rest = [] \/ exists r, rest = ","%char :: r.

Lemma field_num_octet v lo hi rest :
  0 <= v < 256 -> lo <= v <= hi -> is_digit (deref rest) = false ->
  field_num (octet_text v ++ rest) lo hi = Some (v, rest).
Proof.
  intros Hv Hb Hr. unfold field_num. rewrite strtol_octet by done. case_if; [lia | done].
Qed.

Lemma field_item_text min max i rest :
  0 <= min -> max <= 63 -> item_ok min max i -> item_end rest ->
  field_item (item_text i ++ rest) min max =
  Some (fst (bounds min max (it_range i)), snd (bounds min max (it_range i)), step_of i, rest).
Proof.
  intros Hmin Hmax [Hr Hs] Hend. destruct i as [r st]. unfold item_text, step_of in *.
  cbn [it_range it_step] in *. rewrite <- app_assoc.
  set (tail := match st with None => [] | Some s => _ end ++ rest).
  assert (Htail : is_digit (deref tail) = false /\ deref tail <> "-"%char).
  { subst tail. destruct st; [done|]. destruct Hend as [->|[r' ->]]; done. }
  assert (Hstep : match tail with
      | c :: q' => if c =? "/"%char
          then option_map (fun s => (fst (bounds min max r), snd (bounds min max r), fst s, snd s)) (field_num q' 1 max)
          else Some (fst (bounds min max r), snd (bounds min max r), 1, tail)
      | [] => Some (fst (bounds min max r), snd (bounds min max r), 1, tail) end =
    Some (fst (bounds min max r), snd (bounds min max r), match st with None => 1 | Some s => s end, rest)).
  { subst tail. destruct st as [s|].
    - cbn [app]. rewrite Z.eqb_refl, field_num_octet; [done | lia | lia |].
      destruct Hend as [->|[r' ->]]; done.
    - cbn [app]. destruct Hend as [->|[r' ->]]; done. }
  unfold field_item. destruct r as [|n|a b]; cbn [range_text bounds fst snd] in *.
  - cbn [app]. rewrite Z.eqb_refl. exact Hstep.
  - destruct (octet_text_cons n ltac:(lia)) as (d & ds & E & Hd).
    pose proof (field_num_octet n min max tail ltac:(lia) ltac:(lia) (proj1 Htail)) as Hn.
    rewrite E in *. cbn [app] in *. replace (d =? "*"%char) with false by (unfold is_digit in Hd; bool_lia).
    rewrite Hn. destruct tail as [|c q]; [exact Hstep|].
    replace (c =? "-"%char) with false by (destruct Htail as [_ Hc]; simpl in Hc; lia). exact Hstep.
  - destruct (octet_text_cons a ltac:(lia)) as (d & ds & E & Hd).
    pose proof (field_num_octet a min max (["-"%char] ++ octet_text b ++ tail) ltac:(lia) ltac:(lia) eq_refl) as Hn.
    rewrite <- !app_assoc. rewrite E in *. cbn [app] in *.
    replace (d =? "*"%char) with false by (unfold is_digit in Hd; bool_lia).
    rewrite Hn, Z.eqb_refl. rewrite field_num_octet; [exact Hstep | lia | lia | apply Htail].
Qed.

Lemma item_text_cons i : exists c w, (0 <= match it_range i with ROne n => n | RSpan a _ => a | RStar => 0 end < 256 ->
  item_text i = c :: w).
Proof.
  destruct (it_range i) as [|n|a b] eqn:E; unfold item_text; rewrite E; cbn [range_text].
  - do 2 eexists. reflexivity.
  - destruct (decide (0 <= n < 256)) as [Hn|]; [|exists 0, []; lia].
    destruct (octet_text_cons n Hn) as (d & ds & -> & _). by do 2 eexists.
  - destruct (decide (0 <= a < 256)) as [Hn|]; [|exists 0, []; lia].
    destruct (octet_text_cons a Hn) as (d & ds & -> & _). by do 2 eexists.
Qed.

Lemma item_text_nonempty min max i : 0 <= min -> max <= 63 -> item_ok min max i -> item_text i <> [].
Proof.
  intros Hmin Hmax [Hr _]. destruct (item_text_cons i) as (c & w & H).
  rewrite H; [done|]. destruct (it_range i); simpl in Hr; lia.
Qed.

Lemma field_loop_step fuel p min max out :
  p <> [] ->
  field_loop (S fuel) p min max out =
  match field_item p min max with
  | None => None
  | Some (start, end_, step, q) =>
      let out := set_bits (S (Z.to_nat (end_ - start))) start end_ step out in
      match q with
      | [] => Some out
      | c :: q' => if c =? ","%char then field_loop fuel q' min max out else None
      end
  end.
Proof. by destruct p. Qed.

Lemma field_loop_text min max items : forall fuel out,
  0 <= min -> max <= 63 -> Forall (item_ok min max) items -> (length items <= fuel)%nat ->
  exists mask, field_loop fuel (field_text items) min max out = Some mask /\
    forall k, 0 <= k -> Z.testbit mask k = Z.testbit out k || existsb (covers min max k) items.
Proof.
  intros fuel out Hmin Hmax Hok. revert fuel out.
  induction Hok as [|i items Hi Hok IH]; intros fuel out Hf.
  - exists out. destruct fuel; (split; [done|]); intros k _; by rewrite orb_false_r.
  - destruct fuel as [|fuel]; [simpl in Hf; lia|].
    assert (Hbit : forall k, 0 <= k ->
      Z.testbit (set_bits (S (Z.to_nat (snd (bounds min max (it_range i)) - fst (bounds min max (it_range i)))))
        (fst (bounds min max (it_range i))) (snd (bounds min max (it_range i))) (step_of i) out) k =
      Z.testbit out k || covers min max k i).
    { intros k Hk. destruct Hi as [Hr Hs]. unfold covers.
      destruct (bounds min max (it_range i)) as [a b]. cbn [fst snd]. by rewrite set_bits_spec by lia. }
    pose proof (item_text_nonempty min max i Hmin Hmax Hi) as Hne.
    destruct items as [|i' items].
    + cbn [field_text]. rewrite field_loop_step by done. rewrite <- (app_nil_r (item_text i)).
      rewrite field_item_text by (done || by left). cbv beta iota zeta.
      eexists. split; [reflexivity|]. intros k Hk. rewrite Hbit by done. simpl. by rewrite orb_false_r.
    + change (field_text (i :: i' :: items)) with (item_text i ++ [","%char] ++ field_text (i' :: items)).
      rewrite field_loop_step by (by destruct (item_text i)).
      rewrite field_item_text by (done || (right; by eexists)). cbv beta iota zeta. cbn [app].
      rewrite Z.eqb_refl. destruct (IH fuel (set_bits (S (Z.to_nat (snd (bounds min max (it_range i)) - fst (bounds min max (it_range i)))))
        (fst (bounds min max (it_range i))) (snd (bounds min max (it_range i))) (step_of i) out)) as (mask & Hm & Hb); [simpl in Hf |- *; lia|].
      exists mask. split; [exact Hm|]. intros k Hk. rewrite Hb, Hbit by done.
      cbn [existsb]. by rewrite !orb_assoc.
Qed.

Lemma field_num_bounds p lo hi v q : field_num p lo hi = Some (v, q) -> lo <= v <= hi.
Proof. unfold field_num. destruct (strtol p) as [w r]. case_if; [done|]. intros [= <- <-]. lia. Qed.

Lemma field_item_bounds p min max a b st q :
  min <= max -> field_item p min max = Some (a, b, st, q) -> min <= a <= max /\ min <= b <= max /\ 1 <= st.
Proof.
  intros Hmm. unfold field_item.
  match goal with |- match ?r with _ => _ end = _ -> _ => destruct r as [[[a' b'] q']|] eqn:E end; [|done].
  assert (Hab : min <= a' <= max /\ min <= b' <= max).
  { destruct p as [|c p']; [done|]. destruct (c =? "*"%char); [injection E as <- <- <-; lia|].
    destruct (field_num (c :: p') min max) as [[s p1]|] eqn:E1; [|done].
    apply field_num_bounds in E1. destruct p1 as [|d p2]; [injection E as <- <- <-; lia|].
    destruct (d =? "-"%char); [|injection E as <- <- <-; lia].
    destruct (field_num p2 min max) as [[e p3]|] eqn:E2; [|done].
    apply field_num_bounds in E2. injection E as <- <- <-. simpl. lia. }
  destruct q' as [|c q'']; [intros [= <- <- <- <-]; lia|].
  destruct (c =? "/"%char); [|intros [= <- <- <- <-]; lia].
  destruct (field_num q'' 1 max) as [[s p3]|] eqn:E3; [|done].
  apply field_num_bounds in E3. intros [= <- <- <- <-]. simpl. lia.
Qed.

Lemma field_loop_bounds fuel p min max out mask :
  0 <= min <= max -> (forall k, 0 <= k -> Z.testbit out k = true -> min <= k <= max) ->
  field_loop fuel p min max out = Some mask ->
  forall k, 0 <= k -> Z.testbit mask k = true -> min <= k <= max.
Proof.
  intros Hmm. revert p out. induction fuel as [|fuel IH]; intros p out Ho.
  - destruct p; simpl; [intros [= <-]; exact Ho | done].
  - destruct p as [|c p]; [simpl; intros [= <-]; exact Ho|].
    rewrite field_loop_step by done.
    destruct (field_item (c :: p) min max) as [[[[a b] st] q]|] eqn:E; [|done].
    apply field_item_bounds in E as (Ha & Hb & Hs); [|lia]. cbv beta iota zeta.
    assert (Ho' : forall k, 0 <= k ->
      Z.testbit (set_bits (S (Z.to_nat (b - a))) a b st out) k = true -> min <= k <= max).
    { intros k Hk. rewrite set_bits_spec by lia. intros [Hk'|Hk']%orb_true_iff; [by apply Ho|].
      destruct (a <=? k) eqn:E1; [|done]. destruct (k <=? b) eqn:E2; [lia | done]. }
    destruct q as [|c' q]; [intros [= <-]; exact Ho'|].
    destruct (c' =? ","%char); [|done]. by apply IH.
Qed.

(** The field parser accepts every comma list of stars, numbers and spans
    with optional steps and returns exactly the set of values it means; and
    whatever text it accepts, it never sets a bit outside the field's range (so
    every shift stays inside the 64-bit mask). *)
Theorem parse_field_correct min max :
  0 <= min <= max -> max <= 63 ->
  (forall items, Forall (item_ok min max) items ->
   exists mask, parse_field (field_text items) min max = Some mask /\
     forall k, 0 <= k -> Z.testbit mask k = existsb (covers min max k) items) /\
  (forall text mask, parse_field text min max = Some mask ->
   forall k, 0 <= k -> Z.testbit mask k = true -> min <= k <= max).
Proof.
  intros Hmm Hmax. split.
  - intros items Hok. unfold parse_field.
    destruct (field_loop_text min max items (length (field_text items)) 0) as (mask & -> & Hb);
      [lia | done | done | |].
    + clear -Hok Hmm Hmax. induction Hok as [|i items Hi Hok IH]; [done|].
      pose proof (item_text_nonempty min max i ltac:(lia) Hmax Hi) as Hne.
      destruct (item_text i) as [|c w] eqn:E; [done|].
      destruct items as [|i' items]; [cbn [field_text]; rewrite E; cbn [length]; lia|].
      change (field_text (i :: i' :: items)) with (item_text i ++ [","%char] ++ field_text (i' :: items)).
      rewrite E, !length_app. cbn [length] in *. lia.
    + exists mask. split; [done|]. intros k Hk. by rewrite Hb, Z.bits_0.
  - intros text mask. unfold parse_field. apply field_loop_bounds; [done|].
    intros k _. by rewrite Z.bits_0.
Qed.

Lemma parse_field_correct_witness :
  exists mask, parse_field (bs "1-9/4,30,*/20") 0 59 = Some mask /\
    Z.testbit mask 5 = true /\ Z.testbit mask 6 = false /\ Z.testbit mask 40 = true.
Proof.
  destruct (proj1 (parse_field_correct 0 59 ltac:(lia) ltac:(lia))
    [mk_item (RSpan 1 9) (Some 4); mk_item (ROne 30) None; mk_item RStar (Some 20)]) as (m & Hm & Hb).
  - repeat (apply List.Forall_cons; [unfold item_ok, step_of; simpl; lia|]). apply List.Forall_nil.
  - exists m. rewrite !Hb by lia. by split_all.
Defined.

(** ** The search: the first matching minute *)

(** A local calendar whose offset is whole minutes, whose days all begin at
    midnight and whose clock changes at full hours; [mktime] normalises an
    out-of-range day or month. *)
Class LocalTimeLaws `{LocalTime} := {
  localtime_min t : 0 <= tm_min (localtime t) < 60;
  localtime_hour t u : t mod 60 = 0 -> t <= u < t + (3600 - tm_min (localtime t) * 60) ->
    tm_hour (localtime u) = tm_hour (localtime t);
  midnight_day t : t mod 60 = 0 -> let n := local_midnight (next_day (localtime t)) in
    t < n /\ n mod 60 = 0 /\ forall u, t <= u < n ->
      tm_mon (localtime u) = tm_mon (localtime t) /\ tm_mday (localtime u) = tm_mday (localtime t) /\
      tm_wday (localtime u) = tm_wday (localtime t);
  midnight_month t : t mod 60 = 0 -> let n := local_midnight (next_month (localtime t)) in
    t < n /\ n mod 60 = 0 /\ forall u, t <= u < n -> tm_mon (localtime u) = tm_mon (localtime t)
}.

(** The local time [t] is one the schedule names. *)
Definition matches `{LocalTime} (s : sets) (t : Z) : bool :=
  let x := localtime t in
  Z.testbit (months s) (tm_mon x + 1) && Z.testbit (doms s) (tm_mday x) &&
  Z.testbit (dows s) (tm_wday x) && Z.testbit (hours s) (tm_hour x) &&
  Z.testbit (minutes s) (tm_min x).

Lemma search_start_bounds after :
  after < search_start after <= after + 119 /\ search_start after mod 60 = 0.
Proof. unfold search_start. pose proof (Z.quot_rem' (after + 60) 60). pose proof (Z.rem_bound_abs (after + 60) 60). lia. Qed.

(** Whatever the calendar, the search ends: with -1 or a later time. *)
Lemma next_loop_cases `{LocalTime} s limit : forall fuel t,
  limit - t <= Z.of_nat fuel ->
  exists r, next_loop fuel s t limit = Some r /\ (r = -1 \/ t <= r < limit).
Proof.
  induction fuel as [|fuel IH]; intros t Hf; cbn [next_loop].
  - replace (t <? limit) with false by lia. exists (-1). auto.
  - destruct (t <? limit) eqn:El; [|exists (-1); auto].
    destruct (advance s t) as [t'|]; [|exists t; split; [done | lia]].
    destruct (t' <=? t) eqn:Et; [exists (-1); auto|].
    destruct (IH t' ltac:(lia)) as (r & Hr & Hb). exists r. split; [done | lia].
Qed.

Lemma cron_next_run_cases `{LocalTime} expr after :
  exists r, cron_next_run expr after = Some r /\ (r = -1 \/ after < r).
Proof.
  unfold cron_next_run. destruct expr as [e|]; [|exists (-1); auto].
  destruct (parse_expr e) as [s|]; [|exists (-1); auto]. cbv zeta.
  destruct (search_start_bounds after) as [Hb _].
  destruct (next_loop_cases s (search_start after + SEARCH_SPAN) (Z.to_nat SEARCH_SPAN) (search_start after))
    as (r & Hr & Hc); [unfold SEARCH_SPAN; lia|].
  exists r. split; [done | lia].
Qed.

Section Search.
Context `{LocalTimeLaws}.

Lemma advance_spec s t :
  t mod 60 = 0 ->
  match advance s t with
  | None => matches s t = true
  | Some t' => t < t' /\ t' mod 60 = 0 /\
      forall u, t <= u < t' -> u mod 60 = 0 -> matches s u = false
  end.
Proof.
  intros Ht. unfold advance, matches. pose proof (localtime_min t) as Hmin.
  destruct (Z.testbit (months s) (tm_mon (localtime t) + 1)) eqn:Em; cbn [negb].
  2:{ destruct (midnight_month t Ht) as (H1 & H2 & H3). split_all; [done | done |].
      intros u Hu _. by rewrite (H3 u Hu), Em. }
  destruct (Z.testbit (doms s) (tm_mday (localtime t)) && Z.testbit (dows s) (tm_wday (localtime t))) eqn:Ed.
  2:{ rewrite <- negb_andb, Ed. cbn [negb]. destruct (midnight_day t Ht) as (H1 & H2 & H3).
      split_all; [done | done |]. intros u Hu _. destruct (H3 u Hu) as (-> & -> & ->).
      by rewrite <- (andb_assoc (Z.testbit (months s) _)), Ed, andb_false_r. }
  rewrite <- negb_andb, Ed. cbn [negb]. apply andb_true_iff in Ed as [Ed Ew].
  destruct (Z.testbit (hours s) (tm_hour (localtime t))) eqn:Eh; cbn [negb].
  2:{ split_all; [lia | lia |]. intros u Hu _.
      by rewrite (localtime_hour t u Ht Hu), Eh, andb_false_r. }
  destruct (Z.testbit (minutes s) (tm_min (localtime t))) eqn:En; cbn [negb].
  - by rewrite Ed, Ew.
  - split_all; [lia | lia |]. intros u Hu Hu60. replace u with t by lia. by rewrite En, andb_false_r.
Qed.

Lemma next_loop_spec s limit : forall fuel t,
  t mod 60 = 0 -> limit - t <= Z.of_nat fuel ->
  (exists r, next_loop fuel s t limit = Some r /\ t <= r < limit /\ r mod 60 = 0 /\
     matches s r = true /\ forall u, t <= u < r -> u mod 60 = 0 -> matches s u = false) \/
  (next_loop fuel s t limit = Some (-1) /\
   forall u, t <= u < limit -> u mod 60 = 0 -> matches s u = false).
Proof.
  induction fuel as [|fuel IH]; intros t Ht Hf; cbn [next_loop].
  - replace (t <? limit) with false by lia. right. split; [done|]. lia.
  - destruct (t <? limit) eqn:El; [|right; split; [done|]; lia].
    pose proof (advance_spec s t Ht) as Ha. destruct (advance s t) as [t'|].
    + destruct Ha as (H1 & H2 & H3). replace (t' <=? t) with false by lia.
      destruct (IH t' H2 ltac:(lia)) as [(r & Hr & Hb & Hm & Hmt & Hfirst)|[Hr Hnone]].
      * left. exists r. split_all; try done; [lia|]. intros u Hu Hu60.
        destruct (Z.ltb_spec u t'); [apply H3; lia | apply Hfirst; lia].
      * right. split; [done|]. intros u Hu Hu60.
        destruct (Z.ltb_spec u t'); [apply H3; lia | apply Hnone; lia].
    + left. exists t. split_all; try done; lia.
Qed.

(** The search always answers: the first whole minute after [after] (within
    366 days) whose local month, day, weekday, hour and minute the expression
    names, although it skips whole months, days and hours across clock changes;
    and -1 exactly when the expression is not one or names no minute of that
    span. *)
Theorem cron_next_run_first expr after :
  match parse_expr expr with
  | None => cron_next_run (Some expr) after = Some (-1)
  | Some s =>
      let start := search_start after in
      after < start /\
      ((exists t, cron_next_run (Some expr) after = Some t /\
          start <= t < start + SEARCH_SPAN /\ t mod 60 = 0 /\ matches s t = true /\
          forall u, start <= u < t -> u mod 60 = 0 -> matches s u = false) \/
       (cron_next_run (Some expr) after = Some (-1) /\
        forall u, start <= u < start + SEARCH_SPAN -> u mod 60 = 0 -> matches s u = false))
  end.
Proof.
  unfold cron_next_run. destruct (parse_expr expr) as [s|]; [|done]. cbv zeta.
  destruct (search_start_bounds after) as [Hb Hm]. split; [lia|].
  apply next_loop_spec; [done|]. unfold SEARCH_SPAN. lia.
Qed.
End Search.

(** ** Coordinated universal time is such a calendar *)
Section Utc.

(** Days from 1 January of year 1 to 1 January of [y], Gregorian. *)
Definition days_before (y : Z) : Z := 365 * (y - 1) + (y - 1) / 4 - (y - 1) / 100 + (y - 1) / 400.
Definition leap (y : Z) : bool := (y mod 4 =? 0) && (negb (y mod 100 =? 0) || (y mod 400 =? 0)).
Definition EPOCH_DAY : Z := 719162.

Definition year_of (z : Z) : Z :=
  let y0 := z * 400 / 146097 + 1 in
  if days_before (y0 + 1) <=? z then y0 + 1 else if z <? days_before y0 then y0 - 1 else y0.

Definition month_lens (y : Z) : list Z :=
  [31; if leap y then 29 else 28; 31; 30; 31; 30; 31; 31; 30; 31; 30; 31].

Definition sum (l : list Z) : Z := fold_right Z.add 0 l.

Fixpoint locate (lens : list Z) (d m : Z) : Z * Z :=
  match lens with
  | [] => (m, d)
  | l :: lens' => if d <? l then (m, d) else locate lens' (d - l) (m + 1)
  end.

Definition month_start (y m : Z) : Z :=
  let y' := y + m / 12 in days_before y' + sum (take (Z.to_nat (m mod 12)) (month_lens y')).

Definition utc_localtime (t : Z) : tm :=
  let z := t / 86400 + EPOCH_DAY in
  let y := year_of z in
  let (m, d) := locate (month_lens y) (z - days_before y) 0 in
  mk_tm y m (d + 1) (t mod 86400 / 3600) (t mod 3600 / 60) ((t / 86400 + 4) mod 7).

Definition utc_mktime (x : tm) : Z :=
  (month_start (tm_year x) (tm_mon x) + (tm_mday x - 1) - EPOCH_DAY) * 86400 +
  tm_hour x * 3600 + tm_min x * 60.

Definition utc : LocalTime := {| localtime := utc_localtime; mktime := utc_mktime |}.

Lemma year_length y : days_before (y + 1) = days_before y + sum (month_lens y).
Proof.
  unfold days_before, month_lens, leap, sum, fold_right.
  destruct (y mod 4 =? 0) eqn:E4, (y mod 100 =? 0) eqn:E100, (y mod 400 =? 0) eqn:E400;
    cbn [andb orb negb]; lia.
Qed.

Lemma year_of_spec z : days_before (year_of z) <= z < days_before (year_of z + 1).
Proof.
  unfold year_of. cbv zeta. set (y := z * 400 / 146097).
  assert (Hy : 146097 * y <= z * 400 < 146097 * (y + 1)) by (subst y; lia). clearbody y.
  destruct (days_before (y + 1 + 1) <=? z) eqn:E1; [|destruct (z <? days_before (y + 1)) eqn:E2].
  - split; [lia|]. unfold days_before. lia.
  - split; [unfold days_before; lia|]. replace (y + 1 - 1 + 1) with (y + 1) by lia. lia.
  - lia.
Qed.

Lemma days_before_mono a b : a <= b -> days_before a <= days_before b.
Proof. unfold days_before. lia. Qed.

Lemma year_of_unique z y : days_before y <= z < days_before (y + 1) -> year_of z = y.
Proof.
  intros Hz. pose proof (year_of_spec z) as Hs.
  destruct (Z.lt_trichotomy (year_of z) y) as [Hl|[He|Hg]]; [|done|].
  - pose proof (days_before_mono (year_of z + 1) y ltac:(lia)). lia.
  - pose proof (days_before_mono (y + 1) (year_of z) ltac:(lia)). lia.
Qed.

Lemma locate_spec lens d m :
  0 <= d < sum lens ->
  exists k, (k < length lens)%nat /\ locate lens d m = (m + Z.of_nat k, d - sum (take k lens)) /\
    sum (take k lens) <= d < sum (take (S k) lens).
Proof.
  revert d m. induction lens as [|l lens IH]; intros d m; simpl; [lia|]. intros Hd.
  destruct (d <? l) eqn:E.
  - exists 0%nat. simpl. split_all; try lia. f_equal; lia.
  - destruct (IH (d - l) (m + 1) ltac:(lia)) as (k & Hk & -> & Hb).
    exists (S k). simpl in Hb |- *. split_all; try lia. f_equal; lia.
Qed.

Lemma sum_take_nonneg k lens : Forall (fun l => 0 <= l) lens -> 0 <= sum (take k lens).
Proof.
  intros H. revert k. induction H as [|l lens Hl H IH]; intros [|k]; simpl; try lia.
  specialize (IH k). lia.
Qed.

Lemma locate_unique lens k d m :
  Forall (fun l => 0 <= l) lens -> (k < length lens)%nat ->
  sum (take k lens) <= d < sum (take (S k) lens) ->
  locate lens d m = (m + Z.of_nat k, d - sum (take k lens)).
Proof.
  intros H. revert k d m. induction H as [|l lens Hl H IH]; intros k d m; simpl; [lia|].
  intros Hk Hd. destruct k as [|k]; simpl in Hd |- *.
  - replace (d <? l) with true by lia. f_equal; lia.
  - pose proof (sum_take_nonneg k lens H). replace (d <? l) with false by lia.
    rewrite (IH k) by (simpl in *; lia). f_equal; lia.
Qed.

Lemma month_lens_nonneg y : Forall (fun l => 0 <= l) (month_lens y).
Proof. unfold month_lens. destruct (leap y); repeat (apply List.Forall_cons; [lia|]); apply List.Forall_nil. Qed.

(** The civil date of a day, and the days of its month. *)
Lemma civil_spec z :
  exists k, (k < 12)%nat /\
    let y := year_of z in
    locate (month_lens y) (z - days_before y) 0 = (Z.of_nat k, z - month_start y (Z.of_nat k)) /\
    month_start y (Z.of_nat k) <= z < month_start y (Z.of_nat k + 1) /\
    forall u, month_start y (Z.of_nat k) <= u < month_start y (Z.of_nat k + 1) ->
      year_of u = y /\ fst (locate (month_lens y) (u - days_before y) 0) = Z.of_nat k.
Proof.
  set (y := year_of z). pose proof (year_of_spec z) as Hy. fold y in Hy.
  rewrite year_length in Hy.
  destruct (locate_spec (month_lens y) (z - days_before y) 0 ltac:(lia)) as (k & Hk & Hloc & Hb).
  change (length (month_lens y)) with 12%nat in Hk.
  assert (Hms : month_start y (Z.of_nat k) = days_before y + sum (take k (month_lens y))).
  { unfold month_start. replace (Z.of_nat k / 12) with 0 by lia.
    replace (Z.of_nat k mod 12) with (Z.of_nat k) by lia. by rewrite Z.add_0_r, Nat2Z.id. }
  assert (Hme : month_start y (Z.of_nat k + 1) = days_before y + sum (take (S k) (month_lens y))).
  { unfold month_start. destruct (decide (k = 11%nat)) as [->|Hne].
    - change (Z.of_nat 11 + 1) with 12. change (12 / 12) with 1. change (Z.to_nat (12 mod 12)) with 0%nat.
      change (take 12 (month_lens y)) with (month_lens y). rewrite year_length.
      change (sum (take 0 (month_lens (y + 1)))) with 0. lia.
    - replace ((Z.of_nat k + 1) / 12) with 0 by lia.
      replace ((Z.of_nat k + 1) mod 12) with (Z.of_nat (S k)) by lia. by rewrite Z.add_0_r, Nat2Z.id. }
  exists k. split; [done|]. cbv zeta. rewrite Hms, Hme. split_all; [| lia | lia |].
  - rewrite Hloc. f_equal. lia.
  - intros u Hu.
    assert (Hyu : year_of u = y).
    { apply year_of_unique. rewrite year_length.
      pose proof (sum_take_nonneg k _ (month_lens_nonneg y)).
      pose proof (sum_take_nonneg 12 _ (Forall_drop _ (S k) _ (month_lens_nonneg y))) as Hrest.
      assert (sum (month_lens y) = sum (take (S k) (month_lens y)) + sum (take 12 (drop (S k) (month_lens y)))).
      { do 12 (destruct k as [|k]; [simpl; lia|]). lia. }
      lia. }
    split; [done|]. rewrite (locate_unique _ k); [simpl; lia | apply month_lens_nonneg | done | lia].
Qed.

Lemma utc_laws : @LocalTimeLaws utc.
Proof.
  split; cbn [utc localtime].
  - intros t. unfold utc_localtime. destruct (locate _ _ _). simpl. lia.
  - intros t u Ht Hu. unfold utc_localtime in *.
    destruct (locate _ _ 0), (locate (month_lens (year_of (u / 86400 + EPOCH_DAY))) _ 0). simpl in *. lia.
  - intros t Ht. set (z := t / 86400 + EPOCH_DAY).
    destruct (civil_spec z) as (k & Hk & Hloc & Hb & _).
    assert (Hn : local_midnight (H := utc) (next_day (utc_localtime t)) = (t / 86400 + 1) * 86400).
    { unfold utc_localtime. fold z. rewrite Hloc. unfold local_midnight, next_day.
      cbn [utc mktime utc_mktime tm_year tm_mon tm_mday tm_hour tm_min]. unfold utc_mktime.
      cbn [tm_year tm_mon tm_mday tm_hour tm_min]. unfold z. lia. }
    cbv zeta. rewrite Hn. split_all; [lia | lia |]. intros u Hu.
    assert (Hd : u / 86400 = t / 86400) by lia. unfold utc_localtime. rewrite Hd.
    destruct (locate _ _ _). done.
  - intros t Ht. set (z := t / 86400 + EPOCH_DAY).
    destruct (civil_spec z) as (k & Hk & Hloc & Hb & Hsame).
    assert (Hn : local_midnight (H := utc) (next_month (utc_localtime t)) =
      (month_start (year_of z) (Z.of_nat k + 1) - EPOCH_DAY) * 86400).
    { unfold utc_localtime. fold z. rewrite Hloc. unfold local_midnight, next_month.
      cbn [utc mktime tm_year tm_mon tm_mday tm_hour tm_min]. unfold utc_mktime.
      cbn [tm_year tm_mon tm_mday tm_hour tm_min]. lia. }
    cbv zeta. rewrite Hn. split_all; [unfold z in *; lia | lia |]. intros u Hu.
    destruct (Hsame (u / 86400 + EPOCH_DAY)) as [Hyu Hmu]; [unfold z in *; lia|].
    unfold utc_localtime. fold z. rewrite Hyu, Hloc. cbn [tm_mon].
    destruct (locate _ (u / 86400 + EPOCH_DAY - _) 0) as [m d] eqn:El. simpl in Hmu |- *. done.
Qed.
End Utc.

(** 18 July 2026 is a Saturday; 2026-07-18 10:00:30 UTC is 1784368830. *)
Example utc_date : utc_localtime 1784368830 = mk_tm 2026 6 18 10 0 6.
Proof. vm_compute. reflexivity. Qed.

Definition demo_now : Z := 1784368830.

(** Monday 20 July 2026, 09:00. *)
Example cron_next_monday : @cron_next_run utc (Some (bs "0 9 * * 1")) demo_now = Some 1784538000.
Proof. lazy. reflexivity. Qed.

Lemma cron_next_run_first_witness :
  exists s, parse_expr (bs "0 9 * * 1") = Some s /\
  forall u, search_start demo_now <= u < 1784538000 -> u mod 60 = 0 -> @matches utc s u = false.
Proof.
  pose proof (@cron_next_run_first utc utc_laws (bs "0 9 * * 1") demo_now) as H.
  rewrite cron_next_monday in H. destruct (parse_expr _) as [s|]; [|discriminate H].
  exists s. split; [reflexivity|]. cbv zeta in H.
  destruct H as [_ [(t & Ht & _ & _ & _ & Hf)|[Ht _]]]; [|discriminate Ht].
  injection Ht as <-. exact Hf.
Defined.
