(* ===== verification/CronJobs.v ===== *)
(** * Cron jobs: the writer and the fire path of src/cron.c

    The tables the statements of cron.c read and write are a record of row lists;
    each SQL statement is the list operation it names.  The upsert merges a
    document into the stored row; a tick collects the due rows, fires each and
    reschedules it. *)
From S2P Require Import Prelude CString Libc Cron.

(** ** Documents and rows *)

(** A parsed document; [cron_doc_parse] reads it with the JSON functions of
    SQLite, so it is an input here. *)
Record CronDoc := mk_doc {
  d_name : option cstring; d_cron_expr : option cstring; d_in_seconds : Z;
  d_prompt : option cstring; d_script : option cstring; d_session_id : Z;
  d_session : option cstring;
  d_agent : option cstring; d_channel_name : option cstring; d_chat_id : option cstring;
  has_expr : bool; has_seconds : bool; has_prompt : bool; has_script : bool;
  has_session : bool; has_session_id : bool; has_agent : bool; has_channel : bool; has_chat : bool
}.

(** A row of [cron_jobs]; [run_at] and [interval_s] are NULL or a number. *)
Record JobRow := mk_job {
  j_id : Z; j_agent : cstring; j_name : cstring; j_expr : cstring;
  j_run_at : option Z; j_interval : option Z; j_session : Z;
  j_task : cstring; j_script : option cstring;
  j_channel : option cstring; j_chat : option cstring;
  j_target : option cstring; j_target_agent : option cstring;
  j_enabled : bool; j_next : Z; j_last : option Z
}.

Record SessionRow := mk_session {
  s_id : Z; s_agent : option cstring; s_name : option cstring; s_parent : Z; s_depth : Z;
  s_idle : bool; s_updated : Z; s_channel : option cstring; s_chat : option cstring
}.

Record RouteRow := mk_route { r_channel : cstring; r_chat : cstring; r_session : Z }.

Record InboxRow := mk_inbox {
  i_session : Z; i_source : cstring; i_ref : option cstring; i_payload : cstring; i_consumed : bool
}.

(** A script handed to the daemon: [CronScriptFire]. *)
Record CronScriptFire := mk_fire {
  f_job : cstring; f_script : cstring; f_agent : cstring; f_session : Z; f_prompt : option cstring
}.

(** The database, the sessions woken, the operator notices and the scripts
    started. *)
Record DB := mk_db {
  jobs : list JobRow; next_job : Z;
  sessions : list SessionRow; next_session : Z;
  routes : list RouteRow; inbox : list InboxRow;
  woken : list Z; notices : list (Z * cstring); spawned : list CronScriptFire
}.

Definition set_jobs (db : DB) (js : list JobRow) : DB :=
  mk_db js (next_job db) (sessions db) (next_session db) (routes db) (inbox db) (woken db) (notices db) (spawned db).

Definition coalesce0 (x : option Z) : Z := match x with Some v => v | None => 0 end.

(** [x && x[0]]. *)
Definition nonempty (x : option cstring) : bool := match x with Some (_ :: _) => true | _ => false end.
Definition text_is (x : option cstring) (s : cstring) : bool :=
  match x with Some t => streq t s | None => false end.

(** [db_scalar_i64] on [sessions WHERE id=?], and the row itself. *)
Definition find_session (db : DB) (sid : Z) : option SessionRow :=
  List.find (fun s => s_id s =? sid) (sessions db).

(** ** The upsert *)

(** The stored job an upsert merges into: [row_load]. *)
Definition row_load (db : DB) (agent name : option cstring) : option JobRow :=
  List.find (fun j => streq (j_agent j) (default [] agent) && streq (j_name j) (default [] name)) (jobs db).

(** The refusals of an upsert, one per message. *)
Inductive CronErr :=
  | ErrNotJson | ErrNoName | ErrFreshNotPin | ErrPinNotFresh | ErrNoSchedule
  | ErrAgentNotFresh | ErrChatNotFresh | ErrBadSchedule.

(** [merged_mode]: the refusal, or the mode ([None] follows the conversation). *)
Definition row_target (row : option JobRow) : option cstring :=
  match row with Some r => j_target r | None => None end.

Definition merged_mode (d : CronDoc) (row : option JobRow) : CronErr + option cstring :=
  let was_pin := text_is (row_target row) (bs "pin") in
  let was_new := text_is (row_target row) (bs "new") in
  let wants_new := has_session d in
  if has_session_id d && was_new then inl ErrFreshNotPin
  else if wants_new && was_pin then inl ErrPinNotFresh
  else if has_session_id d then inr (Some (bs "pin"))
  else if wants_new || was_new then inr (Some (bs "new"))
  else if was_pin then inr (Some (bs "pin"))
  else inr None.

Definition doc_check_merged (d : CronDoc) (row : option JobRow) : option CronErr :=
  match merged_mode d row with
  | inl e => Some e
  | inr mode =>
      let has_schedule := has_expr d || has_seconds d ||
        match row with
        | Some r => negb (streq (j_expr r) []) || (0 <? coalesce0 (j_run_at r)) || (0 <? coalesce0 (j_interval r))
        | None => false
        end in
      if negb has_schedule then Some ErrNoSchedule
      else
        let is_new := text_is mode (bs "new") in
        if has_agent d && negb is_new then Some ErrAgentNotFresh
        else if (has_channel d || has_chat d) && negb is_new then Some ErrChatNotFresh
        else None
  end.

Definition cron_doc_check (db : DB) (agent : option cstring) (doc : option CronDoc) : option CronErr :=
  match doc with
  | None => Some ErrNotJson
  | Some d => if negb (nonempty (d_name d)) then Some ErrNoName
              else doc_check_merged d (row_load db agent (d_name d))
  end.

(** The caller's chat. *)
Definition caller_chat (db : DB) (sid : Z) : option cstring * option cstring :=
  if sid <=? 0 then (None, None)
  else match find_session db sid with
       | Some s => (s_channel s, s_chat s)
       | None => (None, None)
       end.

Record CronMerged := mk_merged {
  m_expr : cstring; m_task : cstring; m_script : option cstring;
  m_target : option cstring; m_target_agent : option cstring;
  m_chan : option cstring; m_chat : option cstring;
  m_run_at : Z; m_interval_s : Z; m_next_run_at : Z; m_session_id : Z
}.

(** What the schedule contributes: expression, [run_at], [interval_s], next. *)
Definition Schedule : Type := cstring * Z * Z * Z.

Section Writer.
Context `{LocalTime} (floor_ now : Z).

(** [None] is the search running out of fuel. *)
Definition merge_schedule (d : CronDoc) (row : option JobRow) : option (CronErr + Schedule) :=
  if negb (has_expr d) && negb (has_seconds d) then
    Some (inr match row with
              | Some r => (j_expr r, coalesce0 (j_run_at r), coalesce0 (j_interval r), j_next r)
              | None => ([], 0, 0, 0)
              end)
  else
    match cron_schedule_check floor_ now (if has_expr d then d_cron_expr d else None)
            (if has_seconds d then d_in_seconds d else 0) with
    | None => None
    | Some (CRON_SCHED_OK, next, _) =>
        let next := default 0 next in
        Some (inr (if has_expr d then default [] (d_cron_expr d) else [],
                   if has_seconds d then next else 0, 0, next))
    | Some _ => Some (inl ErrBadSchedule)
    end.

(** Target, target agent, channel, chat, session. *)
Definition merge_target (d : CronDoc) (row : option JobRow) (mode : option cstring) (anchor : Z)
    (cc ct : option cstring)
    : option cstring * option cstring * option cstring * option cstring * Z :=
  let row_session := match row with Some r => j_session r | None => 0 end in
  let row_chan := match row with Some r => j_channel r | None => None end in
  let row_chat := match row with Some r => j_chat r | None => None end in
  if text_is mode (bs "pin") then
    (mode, None, None, None, if has_session_id d then d_session_id d else row_session)
  else if text_is mode (bs "new") then
    let sid := if text_is (row_target row) (bs "new") then row_session else 0 in
    let ta := if has_agent d then d_agent d
              else match row with Some r => j_target_agent r | None => None end in
    let ta := if nonempty ta then ta else None in
    if has_channel d || has_chat d then (mode, ta, d_channel_name d, d_chat_id d, sid)
    else (mode, ta, row_chan, row_chat, sid)
  else
    match cc, ct with
    | None, None => (mode, None, row_chan, row_chat, anchor)
    | _, _ => (mode, None, cc, ct, anchor)
    end.

Definition positive_or_null (v : Z) : option Z := if 0 <? v then Some v else None.

(** The row an INSERT or the ON CONFLICT UPDATE leaves. *)
Definition merged_row (id : Z) (agent name : cstring) (last : option Z) (m : CronMerged) : JobRow :=
  mk_job id agent name (m_expr m) (positive_or_null (m_run_at m)) (positive_or_null (m_interval_s m))
    (m_session_id m) (m_task m) (m_script m) (m_chan m) (m_chat m) (m_target m) (m_target_agent m)
    true (m_next_run_at m) last.

Fixpoint update_row (agent name : cstring) (m : CronMerged) (js : list JobRow) : option (Z * list JobRow) :=
  match js with
  | [] => None
  | j :: js' =>
      if streq (j_agent j) agent && streq (j_name j) name
      then Some (j_id j, merged_row (j_id j) agent name (j_last j) m :: js')
      else option_map (fun p => (fst p, j :: snd p)) (update_row agent name m js')
  end.

Definition merged_write (db : DB) (agent name : cstring) (m : CronMerged) : Z * DB :=
  match update_row agent name m (jobs db) with
  | Some (id, js) => (id, set_jobs db js)
  | None =>
      let id := next_job db in
      (id, mk_db (jobs db ++ [merged_row id agent name None m]) (id + 1) (sessions db) (next_session db)
             (routes db) (inbox db) (woken db) (notices db) (spawned db))
  end.

(** [cron_upsert]: the refusal, or the id and whether a job was replaced. *)
Definition cron_upsert (db : DB) (agent : option cstring) (caller : Z) (doc : option CronDoc)
    : option ((CronErr + Z * bool) * DB) :=
  match doc with
  | None => Some (inl ErrNotJson, db)
  | Some d =>
      if negb (nonempty (d_name d)) then Some (inl ErrNoName, db)
      else
        let row := row_load db agent (d_name d) in
        match doc_check_merged d row with
        | Some e => Some (inl e, db)
        | None =>
            match merge_schedule d row with
            | None => None
            | Some (inl e) => Some (inl e, db)
            | Some (inr (expr, run_at, interval_s, next)) =>
                let task := if has_prompt d then default [] (d_prompt d)
                            else match row with Some r => j_task r | None => [] end in
                let script := if has_script d then (if nonempty (d_script d) then d_script d else None)
                              else match row with Some r => j_script r | None => None end in
                let (cc, ct) := caller_chat db caller in
                let anchor := if 0 <? caller then caller
                              else match row with Some r => j_session r | None => 0 end in
                let mode := match merged_mode d row with inr m => m | inl _ => None end in
                let '(tgt, ta, ch, chat, sid) := merge_target d row mode anchor cc ct in
                let (id, db') := merged_write db (default [] agent) (default [] (d_name d))
                  (mk_merged expr task script tgt ta ch chat run_at interval_s next sid) in
                Some (inr (id, match row with Some _ => true | None => false end), db')
            end
        end
  end.
End Writer.

(** ** The checks of the cron_set tool (src/tool_cron.c) *)
Inductive CallErr :=
  | ErrBothSchedules | ErrBadDelay | ErrSessionWord | ErrBothSessions | ErrHalfChat | ErrLongName
  | ErrNoSession | ErrAbsScript | ErrDotDot | ErrNotQjs | ErrNoWorkspace | ErrNoScript | ErrNoRoute.

(** Rules that need only the document. *)
Definition check_call (d : CronDoc) : option CallErr :=
  if has_expr d && has_seconds d then Some ErrBothSchedules
  else if has_seconds d && (d_in_seconds d <=? 0) then Some ErrBadDelay
  else if has_session d && negb (text_is (d_session d) (bs "new")) then Some ErrSessionWord
  else if has_session d && has_session_id d then Some ErrBothSessions
  else if negb (Bool.eqb (has_channel d) (has_chat d)) then Some ErrHalfChat
  else if match d_name d with Some n => 64 <? zlen n | None => false end then Some ErrLongName
  else None.

Definition check_session_pin (db : DB) (d : CronDoc) : option CallErr :=
  if negb (has_session_id d) then None
  else match find_session db (d_session_id d) with Some _ => None | None => Some ErrNoSession end.

(** [regular] says which paths are regular files. *)
Definition check_script (regular : cstring -> bool) (workspace : option cstring) (d : CronDoc) : option CallErr :=
  match d_script d with
  | Some (c :: s' as s) =>
      if negb (has_script d) then None
      else if c =? "/"%char then Some ErrAbsScript
      else match strstr s (bs "..") with
           | Some _ => Some ErrDotDot
           | None =>
               if (zlen s <? 5) || negb (streq (drop (length s - 4) s) (bs ".qjs")) then Some ErrNotQjs
               else match workspace with
                    | Some (w :: ws) => if regular ((w :: ws) ++ bs "/" ++ s) then None else Some ErrNoScript
                    | _ => Some ErrNoWorkspace
                    end
           end
  | _ => None
  end.

Definition check_channel (db : DB) (agent : cstring) (d : CronDoc) : option CallErr :=
  match has_channel d, d_channel_name d, d_chat_id d with
  | true, Some chan, Some chat =>
      let target := match d_agent d with
                    | Some (c :: a) => if has_agent d then c :: a else agent
                    | _ => agent
                    end in
      if existsb (fun r => streq (r_channel r) chan && streq (r_chat r) chat &&
                           match find_session db (r_session r) with
                           | Some s => text_is (s_agent s) target
                           | None => false
                           end) (routes db)
      then None else Some ErrNoRoute
  | _, _, _ => None
  end.

(** [cron_seed_heartbeat], [cron_remove], [cron_list]. *)
Definition cron_seed_heartbeat (db : DB) (agent : cstring) : DB :=
  if existsb (fun j => streq (j_agent j) agent && streq (j_name j) (bs "heartbeat")) (jobs db) then db
  else mk_db (jobs db ++ [mk_job (next_job db) agent (bs "heartbeat") (bs "*/30 * * * *") None None 0 []
                            None None None None None false 0 None])
         (next_job db + 1) (sessions db) (next_session db) (routes db) (inbox db) (woken db) (notices db) (spawned db).

Definition cron_remove (db : DB) (job_id : Z) (agent : option cstring) : bool * DB :=
  let hit j := (j_id j =? job_id) && streq (j_agent j) (default [] agent) in
  (existsb hit (jobs db), set_jobs db (List.filter (fun j => negb (hit j)) (jobs db))).

Definition cron_list (db : DB) (agent : option cstring) : list JobRow :=
  List.filter (fun j => streq (j_agent j) (default [] agent)) (jobs db).

(** ** The fire path *)
Inductive CronScriptRc := CRON_SCRIPT_SPAWNED | CRON_SCRIPT_BUSY | CRON_SCRIPT_FAILED.

(** What a tick meets outside cron.c: the clock, the launch cap and the live
    count ([session_count_active_agents]), the last fires of a job since a time
    (the common table expression of [fire_streak_tripped]: failed flag and the
    first 200 characters of the detail, newest first), whether [session_create_filtered] succeeds, the text
    [inbox_insert_scanned] stores, and the daemon's script runner. *)
Record FireEnv := mk_fenv {
  fe_now : Z; session_max_active : Z; active_agents : DB -> Z;
  recent_fires : DB -> JobRow -> Z -> list (bool * option cstring);
  create_ok : DB -> bool; scanned : cstring -> cstring;
  g_script_runner : option (DB -> CronScriptFire -> CronScriptRc * cstring)
}.

Definition CRON_FAIL_STREAK : nat := 3.

Definition insert_inbox (db : DB) (row : InboxRow) : DB :=
  mk_db (jobs db) (next_job db) (sessions db) (next_session db) (routes db) (inbox db ++ [row])
    (woken db) (notices db) (spawned db).
Definition wake_session (db : DB) (sid : Z) : DB :=
  mk_db (jobs db) (next_job db) (sessions db) (next_session db) (routes db) (inbox db)
    (woken db ++ [sid]) (notices db) (spawned db).
Definition notify (db : DB) (sid : Z) (text : cstring) : DB :=
  mk_db (jobs db) (next_job db) (sessions db) (next_session db) (routes db) (inbox db)
    (woken db) (notices db ++ [(sid, text)]) (spawned db).
Definition spawn (db : DB) (f : CronScriptFire) : DB :=
  mk_db (jobs db) (next_job db) (sessions db) (next_session db) (routes db) (inbox db)
    (woken db) (notices db) (spawned db ++ [f]).
Definition set_sessions (db : DB) (ss : list SessionRow) (next : Z) : DB :=
  mk_db (jobs db) (next_job db) ss next (routes db) (inbox db) (woken db) (notices db) (spawned db).

(** [UPDATE cron_jobs SET ... WHERE id=?]. *)
Definition update_job (db : DB) (id : Z) (f : JobRow -> JobRow) : DB :=
  set_jobs db (map (fun j => if j_id j =? id then f j else j) (jobs db)).
Definition with_enabled (e : bool) (j : JobRow) : JobRow :=
  mk_job (j_id j) (j_agent j) (j_name j) (j_expr j) (j_run_at j) (j_interval j) (j_session j) (j_task j)
    (j_script j) (j_channel j) (j_chat j) (j_target j) (j_target_agent j) e (j_next j) (j_last j).
Definition with_session (sid : Z) (j : JobRow) : JobRow :=
  mk_job (j_id j) (j_agent j) (j_name j) (j_expr j) (j_run_at j) (j_interval j) sid (j_task j)
    (j_script j) (j_channel j) (j_chat j) (j_target j) (j_target_agent j) (j_enabled j) (j_next j) (j_last j).
Definition with_times (last next : Z) (j : JobRow) : JobRow :=
  mk_job (j_id j) (j_agent j) (j_name j) (j_expr j) (j_run_at j) (j_interval j) (j_session j) (j_task j)
    (j_script j) (j_channel j) (j_chat j) (j_target j) (j_target_agent j) (j_enabled j) next (Some last).

(** [ORDER BY updated_at DESC LIMIT 1]; of equals the first. *)
Fixpoint most_recent (ss : list SessionRow) : option SessionRow :=
  match ss with
  | [] => None
  | s :: ss' =>
      match most_recent ss' with
      | Some t => if s_updated s <? s_updated t then Some t else Some s
      | None => Some s
      end
  end.

Definition recent_session (db : DB) (agent : cstring) : Z :=
  match most_recent (List.filter (fun s => text_is (s_agent s) agent) (sessions db)) with
  | Some s => s_id s
  | None => 0
  end.

Definition session_exists (db : DB) (sid : Z) : bool :=
  (0 <? sid) && match find_session db sid with Some _ => true | None => false end.
Definition session_is_idle (db : DB) (sid : Z) : bool :=
  match find_session db sid with Some s => s_idle s | None => true end.

(** [routed_session]: not routed, routed elsewhere, or routed here. *)
Inductive Routed := NoRoute | RoutedAway | RoutedHere (sid : Z).

Definition routed_session (db : DB) (chan chat agent : cstring) : Routed :=
  match List.find (fun r => streq (r_channel r) chan && streq (r_chat r) chat &&
                            match find_session db (r_session r) with Some _ => true | None => false end)
          (routes db) with
  | None => NoRoute
  | Some r =>
      match find_session db (r_session r) with
      | Some s => if text_is (s_agent s) agent then RoutedHere (r_session r) else RoutedAway
      | None => NoRoute
      end
  end.

Definition fire_pending (db : DB) (sid : Z) (name : cstring) : bool :=
  existsb (fun i => (i_session i =? sid) && negb (i_consumed i) && streq (i_source i) (bs "cron") &&
                    text_is (i_ref i) name) (inbox db).

(** [snprintf] into [n] bytes. *)
Definition fmt (n : nat) (parts : list cstring) : cstring := take (n - 1) (concat parts).

Definition fire_error (db : DB) (j : JobRow) (why : cstring) : DB :=
  let owner := recent_session db (j_agent j) in
  if owner =? 0 then db
  else
    let text := fmt 640 [bs "cron job '"; j_name j; bs "' did not fire: "; why] in
    wake_session (insert_inbox db (mk_inbox owner (bs "cron_error") (Some (j_name j)) text false)) owner.

Section Fire.
Context `{LocalTime} (env : FireEnv).

(** [None] is the search running out of fuel. *)
Definition fire_spacing (j : JobRow) (now : Z) : option Z :=
  if 0 <? coalesce0 (j_interval j) then Some (coalesce0 (j_interval j))
  else match j_expr j with
       | [] => Some 3600
       | _ =>
           match cron_next_run (Some (j_expr j)) now with
           | None => None
           | Some n1 =>
               if negb (0 <? n1) then Some 3600
               else match cron_next_run (Some (j_expr j)) n1 with
                    | None => None
                    | Some n2 => Some (if n1 <? n2 then n2 - n1 else 3600)
                    end
           end
       end.

(** The detail of the newest fire when the last three all failed. *)
Definition fire_streak_tripped (db : DB) (j : JobRow) (now : Z) : option cstring :=
  let spacing := match fire_spacing j now with Some s => s | None => 3600 end in
  let fires := take CRON_FAIL_STREAK (recent_fires env db j (now - 4 * spacing - 60)) in
  if (length fires =? CRON_FAIL_STREAK)%nat && forallb fst fires
  then Some (take 223 (default [] (match fires with (_, d) :: _ => d | [] => None end)))
  else None.

Definition pause_job (db : DB) (j : JobRow) (detail : cstring) : DB :=
  let db := update_job db (j_id j) (with_enabled false) in
  let owner := recent_session db (j_agent j) in
  if owner =? 0 then db
  else
    let text := fmt 768 [bs "cron job '"; j_name j; bs "' is paused: 3 consecutive fires failed. Last error: ";
                         match detail with [] => bs "(none recorded)" | _ => detail end;
                         bs ". Fix it and set the job again with the same name to re-enable it."] in
    let op := fmt 256 [[0xE2; 0x9A; 0xA0]; bs " cron job '"; j_name j;
                       bs "' auto-paused after 3 consecutive failures "; [0xE2; 0x80; 0x94];
                       bs " 'cclaw --doctor' lists paused jobs."] in
    wake_session (notify (insert_inbox db (mk_inbox owner (bs "system") None text false)) owner op) owner.

Definition chat_bound (j : JobRow) : bool := nonempty (j_channel j) && nonempty (j_chat j).
Definition target_agent (j : JobRow) : cstring :=
  match j_target_agent j with Some (c :: a) => c :: a | _ => j_agent j end.
Definition is_new (j : JobRow) : bool := text_is (j_target j) (bs "new").
Definition is_pin (j : JobRow) : bool := text_is (j_target j) (bs "pin").
Definition has_task (j : JobRow) : bool := match j_task j with [] => false | _ => true end.
Definition has_job_script (j : JobRow) : bool := nonempty (j_script j).

(** [fresh_session]: the new session's id. *)
Definition fresh_session (db : DB) (j : JobRow) (agent : cstring) : option Z * DB :=
  let parent :=
    if chat_bound j then -1
    else match most_recent (List.filter (fun s => text_is (s_agent s) (j_agent j) &&
                                          negb (text_is (s_name s) (bs "cron"))) (sessions db)) with
         | Some s => if 0 <? s_id s then s_id s else -1
         | None => -1
         end in
  let depth := if 0 <? parent
               then match find_session db parent with Some s => s_depth s | None => 0 end + 1 else 0 in
  if negb (create_ok env db) then (None, db)
  else
    let id := next_session db in
    let '(ch, ct) := if chat_bound j then (j_channel j, j_chat j) else (None, None) in
    (Some id, set_sessions db
       (sessions db ++ [mk_session id (Some agent) (Some (bs "cron")) parent depth true (fe_now env) ch ct]) (id + 1)).

(** The payload, once the session is known. *)
Definition dispatch (db : DB) (j : JobRow) (sid : Z) : DB :=
  let remember db := if is_new j || (0 <? j_session j)
                     then update_job db (j_id j) (with_session sid) else db in
  if has_job_script j then
    let f := mk_fire (j_name j) (default [] (j_script j)) (target_agent j) sid
               (if has_task j then Some (j_task j) else None) in
    let (rc, err) := match g_script_runner env with
                     | Some run => run db f
                     | None => (CRON_SCRIPT_FAILED, bs "scheduled scripts run in the daemon only")
                     end in
    match rc with
    | CRON_SCRIPT_BUSY => db
    | CRON_SCRIPT_FAILED => fire_error db j err
    | CRON_SCRIPT_SPAWNED => remember (spawn db f)
    end
  else if has_task j then
    remember (wake_session (insert_inbox db
      (mk_inbox sid (bs "cron") (Some (j_name j)) (scanned env (j_task j)) false)) sid)
  else remember (wake_session db sid).

(** One outstanding fire per job and session. *)
Definition dispatch_unless_pending (db : DB) (j : JobRow) (sid : Z) : DB :=
  if (has_task j || has_job_script j) && fire_pending db sid (j_name j) then db else dispatch db j sid.

Definition fire_due (db : DB) (j : JobRow) : DB :=
  if is_new j && negb (has_task j) && negb (has_job_script j) then db
  else
    match (if coalesce0 (j_run_at j) =? 0 then fire_streak_tripped db j (fe_now env) else None) with
    | Some detail => pause_job db j detail
    | None =>
        let auth := if chat_bound j
                    then routed_session db (default [] (j_channel j)) (default [] (j_chat j))
                           (if is_new j then target_agent j else j_agent j)
                    else NoRoute in
        if chat_bound j &&
           match auth with RoutedAway => true | NoRoute => is_new j | RoutedHere _ => false end
        then fire_error db j (bs "that chat no longer routes to this agent")
        else if is_new j then
          if (0 <? session_max_active env) && (session_max_active env <=? active_agents env db) then db
          else if (coalesce0 (j_run_at j) =? 0) && session_exists db (j_session j) &&
                  negb (session_is_idle db (j_session j)) then db
          else
            match fresh_session db j (target_agent j) with
            | (None, db) => fire_error db j (bs "could not create a session")
            | (Some sid, db) => dispatch db j sid
            end
        else if is_pin j then
          if session_exists db (j_session j) then dispatch_unless_pending db j (j_session j)
          else fire_error db j (bs "the pinned session no longer exists")
        else
          let sid := match auth with RoutedHere s => s | _ => j_session j end in
          if sid =? 0 then
            let sid := recent_session db (j_agent j) in
            if sid =? 0 then db else dispatch_unless_pending db j sid
          else if session_exists db sid then dispatch_unless_pending db j sid
          else fire_error db j (bs "the session it was following no longer exists")
    end.

(** [reschedule_due]; [None] is the search running out of fuel. *)
Definition reschedule_due (db : DB) (j : JobRow) (now : Z) : option DB :=
  if 0 <? coalesce0 (j_run_at j)
  then Some (set_jobs db (List.filter (fun r => negb (j_id r =? j_id j)) (jobs db)))
  else if 0 <? coalesce0 (j_interval j)
  then Some (update_job db (j_id j) (with_times now (now + coalesce0 (j_interval j))))
  else match cron_next_run (Some (j_expr j)) now with
       | None => None
       | Some next =>
           if next <? 0 then Some (update_job db (j_id j) (with_enabled false))
           else Some (update_job db (j_id j) (with_times now next))
       end.

Definition is_due (now : Z) (j : JobRow) : bool := j_enabled j && (j_next j <=? now).

Fixpoint fire_all (db : DB) (due : list JobRow) (now : Z) : option DB :=
  match due with
  | [] => Some db
  | j :: due' =>
      match reschedule_due (fire_due db j) j now with
      | None => None
      | Some db' => fire_all db' due' now
      end
  end.

(** The due rows are collected before any write. *)
Definition run_due_jobs (db : DB) (now : Z) : option DB :=
  fire_all db (List.filter (is_due now) (jobs db)) now.
End Fire.

(** ** A tick leaves nothing due *)

(** What firing job [id] may do to a row: pause it or stamp its session. *)
Definition touched (id : Z) (a b : JobRow) : Prop :=
  b = a \/ (j_id a = id /\ (b = with_enabled false a \/ exists sid, b = with_session sid a)).

Lemma touched_refl id js : Forall2 (touched id) js js.
Proof. induction js; constructor; [by left | done]. Qed.

Lemma update_job_touched db id f :
  (forall j, f j = with_enabled false j \/ exists sid, f j = with_session sid j) ->
  Forall2 (touched id) (jobs db) (jobs (update_job db id f)).
Proof.
  intros Hf. unfold update_job. simpl. induction (jobs db) as [|j js IH]; constructor; [|done].
  unfold touched. destruct (j_id j =? id) eqn:E; [right; split; [lia | apply Hf] | by left].
Qed.

Lemma fire_error_jobs db j why : jobs (fire_error db j why) = jobs db.
Proof. unfold fire_error. case_if; done. Qed.

Lemma pause_job_jobs db j detail :
  jobs (pause_job db j detail) = jobs (update_job db (j_id j) (with_enabled false)).
Proof. unfold pause_job. case_if; done. Qed.

Lemma fresh_session_jobs env db j agent : jobs (snd (fresh_session env db j agent)) = jobs db.
Proof. unfold fresh_session. destruct (create_ok env db); simpl; [destruct (chat_bound j)|]; done. Qed.

Lemma dispatch_touched env db j sid : Forall2 (touched (j_id j)) (jobs db) (jobs (dispatch env db j sid)).
Proof.
  assert (Hr : forall db', jobs db' = jobs db -> Forall2 (touched (j_id j)) (jobs db)
    (jobs (if is_new j || (0 <? j_session j) then update_job db' (j_id j) (with_session sid) else db'))).
  { intros db' E. rewrite <- E. destruct (is_new j || (0 <? j_session j)); [|apply touched_refl].
    apply update_job_touched. intros r. right. by exists sid. }
  unfold dispatch. cbv zeta. destruct (has_job_script j).
  - match goal with |- context [let (_, _) := ?p in _] => destruct p as [[| |] err] end;
      [by apply Hr | apply touched_refl | rewrite fire_error_jobs; apply touched_refl].
  - destruct (has_task j); by apply Hr.
Qed.

Lemma dispatch_unless_pending_touched env db j sid :
  Forall2 (touched (j_id j)) (jobs db) (jobs (dispatch_unless_pending env db j sid)).
Proof. unfold dispatch_unless_pending. case_if; [apply touched_refl | apply dispatch_touched]. Qed.

Lemma fire_due_touched `{LocalTime} env db j :
  Forall2 (touched (j_id j)) (jobs db) (jobs (fire_due env db j)).
Proof.
  unfold fire_due. cbv zeta.
  repeat match goal with
  | |- Forall2 _ _ (jobs (if ?b then _ else _)) => destruct b
  | |- Forall2 _ _ (jobs (match ?x with Some _ => pause_job _ _ _ | None => _ end)) => destruct x
  end; try apply touched_refl; try apply dispatch_unless_pending_touched;
    rewrite ?fire_error_jobs; try apply touched_refl.
  - rewrite pause_job_jobs. apply update_job_touched. intros r. by left.
  - destruct (fresh_session env db j (target_agent j)) as [[sid|] db'] eqn:E;
      pose proof (fresh_session_jobs env db j (target_agent j)) as Hj; rewrite E in Hj; simpl in Hj.
    + rewrite <- Hj. apply dispatch_touched.
    + rewrite fire_error_jobs, Hj. apply touched_refl.
Qed.

(** What a tick never changes of a job. *)
Definition core (j : JobRow) :=
  (j_id j, j_agent j, j_name j, j_expr j, (j_run_at j, j_interval j, j_task j, j_script j),
   (j_channel j, j_chat j, j_target j, j_target_agent j)).

Lemma touched_left id js js' r :
  Forall2 (touched id) js js' -> r ∈ js -> exists r', r' ∈ js' /\ touched id r r'.
Proof.
  intros H. revert r. induction H as [|a b js js' Hab H IH]; intros r Hr.
  - by apply not_elem_of_nil in Hr.
  - apply elem_of_cons in Hr as [->|Hr]; [exists b; split; [left | done]|].
    destruct (IH r Hr) as (r' & Hr' & Ht). exists r'. split; [by right | done].
Qed.

Lemma touched_right id js js' r' :
  Forall2 (touched id) js js' -> r' ∈ js' -> exists r, r ∈ js /\ touched id r r'.
Proof.
  intros H. revert r'. induction H as [|a b js js' Hab H IH]; intros r' Hr.
  - by apply not_elem_of_nil in Hr.
  - apply elem_of_cons in Hr as [->|Hr]; [exists a; split; [left | done]|].
    destruct (IH r' Hr) as (r & Hr' & Ht). exists r. split; [by right | done].
Qed.

Lemma touched_core id a b : touched id a b -> core b = core a /\ j_id b = j_id a.
Proof. intros [->|[_ [->|[sid ->]]]]; done. Qed.

Lemma touched_other id a b : touched id a b -> j_id a <> id -> b = a.
Proof. by intros [->|[? _]]. Qed.

(** The rows after a reschedule. *)
Lemma reschedule_due_rows `{LocalTime} db j now :
  exists db', reschedule_due db j now = Some db' /\
    (forall r', r' ∈ jobs db' -> j_id r' <> j_id j -> r' ∈ jobs db) /\
    (forall r', r' ∈ jobs db' -> j_id r' = j_id j -> is_due now r' = false /\ coalesce0 (j_run_at j) <= 0) /\
    (forall r, r ∈ jobs db -> j_id r <> j_id j -> r ∈ jobs db') /\
    (coalesce0 (j_run_at j) <= 0 -> forall r, r ∈ jobs db -> j_id r = j_id j ->
       exists r', r' ∈ jobs db' /\ core r' = core r).
Proof.
  assert (Hup : forall f, coalesce0 (j_run_at j) <= 0 ->
    (forall r, core (f r) = core r /\ j_id (f r) = j_id r /\ is_due now (f r) = false) ->
    let db' := update_job db (j_id j) f in
    (forall r', r' ∈ jobs db' -> j_id r' <> j_id j -> r' ∈ jobs db) /\
    (forall r', r' ∈ jobs db' -> j_id r' = j_id j -> is_due now r' = false /\ coalesce0 (j_run_at j) <= 0) /\
    (forall r, r ∈ jobs db -> j_id r <> j_id j -> r ∈ jobs db') /\
    (coalesce0 (j_run_at j) <= 0 -> forall r, r ∈ jobs db -> j_id r = j_id j ->
       exists r', r' ∈ jobs db' /\ core r' = core r)).
  { intros f H0 Hf. cbv zeta. unfold update_job. simpl. split_all.
    - intros r' (r & -> & Hr)%list_elem_of_fmap. case_if; [|done]. destruct (Hf r) as (_ & E & _). lia.
    - intros r' (r & -> & Hr)%list_elem_of_fmap. case_if; [|lia]. intros _. split; [apply Hf | done].
    - intros r Hr Hne. apply list_elem_of_fmap. exists r. split; [|done]. case_if; [lia | done].
    - intros _ r Hr He. exists (f r). split; [|apply Hf]. apply list_elem_of_fmap.
      exists r. split; [|done]. case_if; [done | lia]. }
  unfold reschedule_due. destruct (0 <? coalesce0 (j_run_at j)) eqn:E0.
  - eexists. split; [reflexivity|]. simpl. split_all.
    + intros r' Hr _. apply list_elem_of_In in Hr. apply filter_In in Hr as [Hr _]. by apply list_elem_of_In.
    + intros r' Hr He. apply list_elem_of_In in Hr. apply filter_In in Hr as [_ Hr]. lia.
    + intros r Hr Hne. apply list_elem_of_In, filter_In. split; [by apply list_elem_of_In | lia].
    + lia.
  - destruct (0 <? coalesce0 (j_interval j)) eqn:E1; [|destruct (cron_next_run_cases (Some (j_expr j)) now) as (next & -> & Hn)].
    + eexists. split; [reflexivity|]. apply Hup; [lia|]. intros r. split_all; [done | done |].
      unfold is_due. simpl. replace (_ <=? now) with false by lia. apply andb_false_r.
    + destruct (next <? 0) eqn:En; (eexists; split; [reflexivity|]; apply Hup; [lia|]);
        intros r; (split_all; [done | done |]); unfold is_due; simpl; [done|].
      replace (next <=? now) with false by lia. apply andb_false_r.
Qed.

(** Firing and rescheduling one job. *)
Lemma fire_step_rows `{LocalTime} env db j now :
  exists db', reschedule_due (fire_due env db j) j now = Some db' /\
    (forall r', r' ∈ jobs db' -> j_id r' <> j_id j -> r' ∈ jobs db) /\
    (forall r', r' ∈ jobs db' -> j_id r' = j_id j -> is_due now r' = false /\ coalesce0 (j_run_at j) <= 0) /\
    (forall r, r ∈ jobs db -> j_id r <> j_id j -> r ∈ jobs db') /\
    (coalesce0 (j_run_at j) <= 0 -> forall r, r ∈ jobs db -> j_id r = j_id j ->
       exists r', r' ∈ jobs db' /\ core r' = core r).
Proof.
  pose proof (fire_due_touched env db j) as Ht.
  destruct (reschedule_due_rows (fire_due env db j) j now) as (db' & Hdb & Ha & Hb & Hc & Hd).
  exists db'. split_all; [done | | done | |].
  - intros r' Hr Hne. destruct (touched_right _ _ _ _ Ht (Ha r' Hr Hne)) as (r & Hr0 & Htr).
    pose proof (touched_core _ _ _ Htr) as [_ Hid]. by rewrite (touched_other _ _ _ Htr) by congruence.
  - intros r Hr Hne. destruct (touched_left _ _ _ _ Ht Hr) as (r' & Hr' & Htr).
    rewrite (touched_other _ _ _ Htr Hne) in Hr'. by apply Hc.
  - intros H0 r Hr He. destruct (touched_left _ _ _ _ Ht Hr) as (r' & Hr' & Htr).
    destruct (touched_core _ _ _ Htr) as [Hcore Hid].
    destruct (Hd H0 r' Hr' ltac:(congruence)) as (r2 & Hr2 & Hc2). exists r2. split; congruence.
Qed.

Lemma fire_all_rows `{LocalTime} env now due : forall db,
  NoDup (map j_id due) ->
  exists db', fire_all env db due now = Some db' /\
    (forall r', r' ∈ jobs db' -> ~ j_id r' ∈ map j_id due -> r' ∈ jobs db) /\
    (forall r', r' ∈ jobs db' -> j_id r' ∈ map j_id due -> is_due now r' = false) /\
    (forall j r', j ∈ due -> r' ∈ jobs db' -> j_id r' = j_id j -> coalesce0 (j_run_at j) <= 0) /\
    (forall r, r ∈ jobs db -> ~ j_id r ∈ map j_id due -> r ∈ jobs db') /\
    (forall j r, j ∈ due -> coalesce0 (j_run_at j) <= 0 -> r ∈ jobs db -> j_id r = j_id j ->
       exists r', r' ∈ jobs db' /\ core r' = core r).
Proof.
  induction due as [|j due IH]; intros db Hnd; cbn [fire_all map].
  - exists db. split_all; try done; intros; exfalso; by eapply not_elem_of_nil.
  - apply NoDup_cons in Hnd as [Hj Hnd].
    destruct (fire_step_rows env db j now) as (db1 & -> & Ha & Hb & Hc & Hd).
    destruct (IH db1 Hnd) as (db' & -> & Ia & Ib & Ir & Ic & Id). exists db'.
    split_all; [done | | | | |].
    + intros r' Hr [Hne Hnd']%not_elem_of_cons. apply Ha; [by apply Ia | done].
    + intros r' Hr Hin. destruct (decide (j_id r' ∈ map j_id due)) as [Hd'|Hd']; [by apply Ib|].
      apply elem_of_cons in Hin as [He|]; [|done]. by apply (Hb r' (Ia r' Hr Hd')).
    + intros j' r' Hj' Hr He. apply elem_of_cons in Hj' as [->|Hj']; [|by eapply Ir].
      apply (Hb r'); [apply Ia; [done | by rewrite He] | done].
    + intros r Hr [Hne Hnd']%not_elem_of_cons. apply Ic; [by apply Hc | done].
    + intros j' r Hj' H0 Hr He. apply elem_of_cons in Hj' as [->|Hj'].
      * destruct (Hd H0 r Hr He) as (r1 & Hr1 & Hc1). exists r1. split; [|done].
        apply Ic; [done|]. replace (j_id r1) with (j_id j) by (unfold core in Hc1; congruence). done.
      * assert (j_id r <> j_id j).
        { rewrite He. intros E. apply Hj. rewrite <- E. apply list_elem_of_fmap. by exists j'. }
        eapply Id; eauto.
Qed.


(** (C37) A tick always finishes and leaves no job due at its own time, whatever
    fires, fails or is paused (no job can be hot-looped): a job that was not due
    is untouched; a due one-shot is gone, so it is never fired twice; a due
    recurring job is kept with its schedule, payload and target. *)
Theorem run_due_jobs_settles `{LocalTime} env db now :
  NoDup (map j_id (jobs db)) ->
  exists db', run_due_jobs env db now = Some db' /\
    (forall r, r ∈ jobs db' -> is_due now r = false) /\
    (forall r, r ∈ jobs db -> is_due now r = false -> r ∈ jobs db') /\
    (forall j, j ∈ jobs db -> is_due now j = true -> 0 < coalesce0 (j_run_at j) ->
       forall r, r ∈ jobs db' -> j_id r <> j_id j) /\
    (forall j, j ∈ jobs db -> is_due now j = true -> coalesce0 (j_run_at j) <= 0 ->
       exists r, r ∈ jobs db' /\ core r = core j).
Proof.
  intros Hnd. unfold run_due_jobs. set (due := List.filter (is_due now) (jobs db)).
  assert (Hdue : forall j, j ∈ due <-> j ∈ jobs db /\ is_due now j = true).
  { intros j. unfold due. rewrite list_elem_of_In, filter_In, <- list_elem_of_In. done. }
  assert (Hids : forall r, r ∈ jobs db -> j_id r ∈ map j_id due -> is_due now r = true).
  { intros r Hr (j & Hj & Hjd)%list_elem_of_fmap. apply Hdue in Hjd as [Hjd Hd].
    by rewrite (NoDup_map_inj _ _ _ _ Hnd Hr Hjd Hj). }
  destruct (fire_all_rows env now due db) as (db' & -> & Ha & Hb & Hr & Hc & Hd).
  - by apply NoDup_map_filter.
  - exists db'. split_all; [done | | | |].
    + intros r Hin. destruct (decide (j_id r ∈ map j_id due)) as [Hi|Hi]; [by apply Hb|].
      pose proof (Ha r Hin Hi) as H0. destruct (is_due now r) eqn:E; [|done].
      destruct Hi. apply list_elem_of_fmap. exists r. split; [done|]. by apply Hdue.
    + intros r Hin He. apply Hc; [done|]. intros Hi. by rewrite (Hids r Hin Hi) in He.
    + intros j Hj He H0 r Hin Heq. pose proof (Hr j r (proj2 (Hdue j) (conj Hj He)) Hin Heq). lia.
    + intros j Hj He H0. destruct (Hd j j (proj2 (Hdue j) (conj Hj He)) H0 Hj eq_refl) as (r & ? & ?). by exists r.
Qed.

(** ** Where a fire may land *)

Lemma text_is_eq x s : text_is x s = true <-> x = Some s.
Proof.
  unfold text_is, streq. destruct x; [|done]. rewrite bool_decide_eq_true. split; [by intros -> | by intros [= ->]].
Qed.

Lemma most_recent_in ss s : most_recent ss = Some s -> s ∈ ss.
Proof.
  revert s. induction ss as [|a ss IH]; intros s; simpl; [done|].
  destruct (most_recent ss) as [t|]; [|intros [= ->]; left].
  case_if; intros [= ->]; [right; by apply IH | left].
Qed.

Lemma find_session_in db sid s : find_session db sid = Some s -> s ∈ sessions db /\ s_id s = sid.
Proof. intros H. apply find_some in H as [Hin E]. split; [by apply list_elem_of_In | lia]. Qed.

Lemma session_exists_in db sid :
  session_exists db sid = true -> exists s, s ∈ sessions db /\ s_id s = sid.
Proof.
  unfold session_exists. destruct (find_session db sid) as [s|] eqn:E; [|by rewrite andb_false_r].
  intros _. exists s. by apply find_session_in.
Qed.

Lemma routed_here_in db chan chat agent r :
  routed_session db chan chat agent = RoutedHere r -> exists s, s ∈ sessions db /\ s_id s = r.
Proof.
  unfold routed_session. destruct (List.find _ (routes db)) as [rt|]; [|done].
  destruct (find_session db (r_session rt)) as [s|] eqn:E; [|done]. case_if; [|done].
  intros [= <-]. exists s. by apply find_session_in.
Qed.

(** [s] is the session in which agent [agent] was active last. *)
Definition owns (db : DB) (agent : cstring) (s : SessionRow) : Prop :=
  s ∈ sessions db /\ s_agent s = Some agent /\
  forall t, t ∈ sessions db -> s_agent t = Some agent -> s_updated t <= s_updated s.

Lemma most_recent_max ss s : most_recent ss = Some s -> forall t, t ∈ ss -> s_updated t <= s_updated s.
Proof.
  revert s. induction ss as [|a ss IH]; intros s; simpl; [done|].
  destruct (most_recent ss) as [m|] eqn:E.
  - intros H t [-> |Ht]%elem_of_cons; [|specialize (IH m eq_refl t Ht)]; destruct (_ <? _) eqn:El; injection H as <-; lia.
  - intros [= ->] t [-> |Ht]%elem_of_cons; [lia|]. destruct ss as [|c ss]; [by apply not_elem_of_nil in Ht|].
    simpl in E. destruct (most_recent ss) as [m|]; [by destruct (s_updated c <? s_updated m)|done].
Qed.

Lemma recent_session_owns db agent : recent_session db agent <> 0 -> exists s, owns db agent s /\ s_id s = recent_session db agent.
Proof.
  unfold recent_session. destruct (most_recent _) as [s|] eqn:E; [|done]. intros _. exists s. split; [|done].
  pose proof (most_recent_in _ _ E) as Hin. pose proof (most_recent_max _ _ E) as Hmax.
  apply list_elem_of_In, filter_In in Hin as [Hin Ha]. apply text_is_eq in Ha.
  split; [by apply list_elem_of_In|]. split; [done|]. intros t Ht Hta. apply Hmax. apply list_elem_of_In, filter_In.
  split; [by apply list_elem_of_In|by apply text_is_eq].
Qed.

(** Nothing is handed over, said, woken or written to a job. *)
Definition skipped (db db' : DB) : Prop :=
  jobs db' = jobs db /\ inbox db' = inbox db /\ woken db' = woken db /\ notices db' = notices db /\ spawned db' = spawned db.

(** Job [j] did not fire, and its owner is told so in the session it was active in last. *)
Definition told_error (db db' : DB) (j : JobRow) : Prop :=
  exists s text, owns db' (j_agent j) s /\ jobs db' = jobs db /\
    inbox db' = inbox db ++ [mk_inbox (s_id s) (bs "cron_error") (Some (j_name j)) text false] /\
    woken db' = woken db ++ [s_id s] /\ notices db' = notices db /\ spawned db' = spawned db.

(** Job [j], a recurring one, failed three times in a row: it is disabled, and its owner is
    told in that session and the operator through its chat, unless the owner has no session. *)
Definition paused `{LocalTime} (env : FireEnv) (db db' : DB) (j : JobRow) : Prop :=
  coalesce0 (j_run_at j) = 0 /\ fire_streak_tripped env db j (fe_now env) <> None /\
  jobs db' = jobs (update_job db (j_id j) (with_enabled false)) /\ spawned db' = spawned db /\
  (recent_session db (j_agent j) = 0 /\ inbox db' = inbox db /\ woken db' = woken db /\ notices db' = notices db \/
   exists s text op, owns db (j_agent j) s /\
     inbox db' = inbox db ++ [mk_inbox (s_id s) (bs "system") None text false] /\
     woken db' = woken db ++ [s_id s] /\ notices db' = notices db ++ [(s_id s, op)]).

(** The payload of [j] handed to session [sid]: its script to the runner, or its
    task to the inbox; a bare wake hands nothing over. *)
Definition fired (env : FireEnv) (db db' : DB) (j : JobRow) (sid : Z) : Prop :=
  notices db' = notices db /\
  jobs db' = jobs (if is_new j || (0 <? j_session j) then update_job db (j_id j) (with_session sid) else db) /\
  if has_job_script j then
    inbox db' = inbox db /\ woken db' = woken db /\
    spawned db' = spawned db ++
      [mk_fire (j_name j) (default [] (j_script j)) (target_agent j) sid (if has_task j then Some (j_task j) else None)]
  else
    spawned db' = spawned db /\ woken db' = woken db ++ [sid] /\
    inbox db' = inbox db ++
      (if has_task j then [mk_inbox sid (bs "cron") (Some (j_name j)) (scanned env (j_task j)) false] else []).

Lemma fire_error_effect db j why : skipped db (fire_error db j why) \/ told_error db (fire_error db j why) j.
Proof.
  unfold fire_error. destruct (recent_session db (j_agent j) =? 0) eqn:E; [by left|]. right.
  destruct (recent_session_owns db (j_agent j)) as (s & Hs & Hid); [lia|].
  exists s. eexists. simpl. rewrite Hid. split_all; done.
Qed.

Lemma pause_job_effect `{LocalTime} env db j d :
  coalesce0 (j_run_at j) = 0 -> fire_streak_tripped env db j (fe_now env) = Some d -> paused env db (pause_job db j d) j.
Proof.
  intros H0 Ht. unfold paused, pause_job. cbv zeta.
  change (recent_session (update_job db (j_id j) (with_enabled false)) (j_agent j)) with (recent_session db (j_agent j)).
  split; [done|]. split; [congruence|].
  destruct (recent_session db (j_agent j) =? 0) eqn:E; [split_all; try done; left; split_all; lia || done|].
  destruct (recent_session_owns db (j_agent j)) as (s & Hs & Hid); [lia|].
  split_all; try done. right. exists s. do 2 eexists. simpl. rewrite Hid. split_all; done.
Qed.

Lemma dispatch_effect env db j sid :
  let db' := dispatch env db j sid in
  sessions db' = sessions db /\ (skipped db db' \/ told_error db db' j \/ fired env db db' j sid).
Proof.
  cbv zeta. unfold dispatch, fired. cbv zeta.
  destruct (has_job_script j).
  - match goal with |- context [let (_, _) := ?p in _] => destruct p as [[| |] err] end.
    + split; [by case_if | right; right; by case_if].
    + split; [done | by left].
    + split; [unfold fire_error; by case_if|]. destruct (fire_error_effect db j err); auto.
  - destruct (has_task j).
    + split; [by case_if | right; right; by case_if].
    + split; [by case_if | right; right]. rewrite app_nil_r. by case_if.
Qed.

(** The session job [j] is meant for: a new one; its pin; or, when it follows the
    conversation, the session its chat is routed to, else the session the writer
    stamped, and without a stamp the one its owner was active in last. *)
Definition meant (db : DB) (j : JobRow) (sid : Z) : Prop :=
  if is_new j then sid = next_session db
  else if is_pin j then sid = j_session j
  else match if chat_bound j then routed_session db (default [] (j_channel j)) (default [] (j_chat j)) (j_agent j)
             else NoRoute with
       | RoutedAway => False
       | RoutedHere r => sid = r
       | NoRoute => if j_session j =? 0 then exists s, owns db (j_agent j) s /\ s_id s = sid else sid = j_session j
       end.

(** Session [sid] is one job [j] may use now, judged on the state before. *)
Definition target_ok (env : FireEnv) (db db' : DB) (j : JobRow) (sid : Z) : Prop :=
  meant db j sid /\ (exists s, s ∈ sessions db' /\ s_id s = sid) /\
  (chat_bound j = true ->
     match routed_session db (default [] (j_channel j)) (default [] (j_chat j))
             (if is_new j then target_agent j else j_agent j) with
     | RoutedAway => False
     | RoutedHere _ => True
     | NoRoute => is_new j = false
     end) /\
  (is_new j = false -> has_task j || has_job_script j = true -> fire_pending db sid (j_name j) = false) /\
  (is_new j = true -> 0 < session_max_active env -> active_agents env db < session_max_active env).

(** The sessions after a fire: at most one is new, of the target agent of a
    fresh-session job. *)
Definition sessions_ok (db db' : DB) (j : JobRow) : Prop :=
  sessions db' = sessions db \/
  is_new j = true /\ exists s, sessions db' = sessions db ++ [s] /\ s_id s = next_session db /\ s_agent s = Some (target_agent j).

Definition outcome `{LocalTime} (env : FireEnv) (db db' : DB) (j : JobRow) : Prop :=
  sessions_ok db db' j /\
  (skipped db db' \/ told_error db db' j \/ paused env db db' j \/
   exists sid, target_ok env db db' j sid /\ fired env db db' j sid).

Lemma dispatch_unless_pending_effect env db j sid :
  let db' := dispatch_unless_pending env db j sid in
  sessions db' = sessions db /\
  (skipped db db' \/ told_error db db' j \/
   (fired env db db' j sid /\ (has_task j || has_job_script j = true -> fire_pending db sid (j_name j) = false))).
Proof.
  cbv zeta. unfold dispatch_unless_pending.
  destruct ((has_task j || has_job_script j) && fire_pending db sid (j_name j)) eqn:E; [split; [done | by left]|].
  destruct (dispatch_effect env db j sid) as [Hs [H|[H|H]]]; (split; [done|]); auto.
  right. right. split; [done|]. intros Hp. by rewrite Hp in E.
Qed.

(** A resolved session: dispatched there, or the previous fire still waits. *)
Lemma resolved_effect `{LocalTime} env db j sid :
  is_new j = false -> meant db j sid -> (exists s, s ∈ sessions db /\ s_id s = sid) ->
  (chat_bound j = true ->
     routed_session db (default [] (j_channel j)) (default [] (j_chat j)) (j_agent j) <> RoutedAway) ->
  outcome env db (dispatch_unless_pending env db j sid) j.
Proof.
  intros Hn Hm (s & Hs & Hid) Hc.
  destruct (dispatch_unless_pending_effect env db j sid) as [Hss [H1|[H1|[H1 Hpend]]]]; (split; [by left|]); auto.
  right. right. right. exists sid. split; [|done]. unfold target_ok. rewrite Hn.
  split_all; try done.
  - exists s. by rewrite Hss.
  - intros Hb. specialize (Hc Hb). by destruct (routed_session _ _ _ _).
Qed.

Lemma fire_error_outcome `{LocalTime} env db j why : outcome env db (fire_error db j why) j.
Proof.
  split; [left; unfold fire_error; by case_if|]. destruct (fire_error_effect db j why); auto.
Qed.

Lemma fresh_effect `{LocalTime} env db j :
  is_new j = true ->
  (chat_bound j = true -> exists r, routed_session db (default [] (j_channel j)) (default [] (j_chat j)) (target_agent j) = RoutedHere r) ->
  (0 < session_max_active env -> active_agents env db < session_max_active env) ->
  outcome env db (match fresh_session env db j (target_agent j) with
                  | (None, db) => fire_error db j (bs "could not create a session")
                  | (Some sid, db) => dispatch env db j sid
                  end) j.
Proof.
  intros Hn Hc Hcap. unfold fresh_session. destruct (create_ok env db); cbn [negb]; [|apply fire_error_outcome].
  destruct (if chat_bound j then (j_channel j, j_chat j) else (None, None)) as [ch ct].
  match goal with |- context [dispatch env ?d j _] => set (db1 := d) end.
  destruct (dispatch_effect env db1 j (next_session db)) as [Hss Ho]. split.
  - right. split; [done|]. eexists. rewrite Hss. by split_all.
  - destruct Ho as [Ho|[Ho|Ho]]; [by left|right; left|right; right; right].
    + destruct Ho as (s & text & Ho). by exists s, text.
    + exists (next_session db). split.
      * unfold target_ok, meant. rewrite Hn. split_all; try done.
        -- eexists. rewrite Hss. unfold db1. simpl. split; [apply elem_of_app; right; left | done].
        -- intros Hb. destruct (Hc Hb) as (r & ->). done.
      * revert Ho. unfold fired. rewrite Hn. cbn [orb]. exact (fun H => H).
Qed.

(** (C36) Every fire lands where it is allowed to, judged at fire time, and has no other
    effect.  A payload is handed over at most once, to the session the job is meant for: a
    fresh-session job only to a new session of its target agent, below the launch cap; a
    pinned job only to its pin; a job that follows the conversation to the session its chat is routed
    to for its owner, else to the one the writer stamped on it, and without a stamp to
    the one its owner was active in last.  A job bound to a chat
    fires only while that chat is not routed to another agent, and an existing session never
    gets a second fire of the job while one waits there.  Otherwise nothing is handed
    over: the fire is passed over without a trace; or one row tells the owner, in the
    session it was active in last, that the job did not fire; or, for a recurring job whose last three
    fires failed, the job is disabled, one row tells the owner and one notice the operator.
    (The agent of a stamped or pinned session is not asked for again.) *)
Theorem fire_due_authorised `{LocalTime} env db j :
  (forall s, s ∈ sessions db -> 0 < s_id s) ->
  let db' := fire_due env db j in
  sessions_ok db db' j /\
  (skipped db db' \/ told_error db db' j \/ paused env db db' j \/
   exists sid, target_ok env db db' j sid /\ fired env db db' j sid).
Proof.
  intros Hpos. cbv zeta. change (outcome env db (fire_due env db j) j).
  assert (Hskip : outcome env db db j) by (split; by left).
  unfold fire_due. cbv zeta.
  destruct (is_new j && negb (has_task j) && negb (has_job_script j)); [done|].
  destruct (if coalesce0 (j_run_at j) =? 0 then _ else None) as [d|] eqn:Et.
  { split; [left; unfold pause_job; cbv zeta; by case_if|]. right. right. left.
    destruct (coalesce0 (j_run_at j) =? 0) eqn:E0; [|done]. apply pause_job_effect; [lia|done]. }
  clear Et. set (auth := if chat_bound j then _ else NoRoute).
  destruct (chat_bound j && match auth with RoutedAway => true | NoRoute => is_new j | RoutedHere _ => false end)
    eqn:Ha; [apply fire_error_outcome|].
  destruct (is_new j) eqn:Hn.
  - destruct ((0 <? session_max_active env) && (session_max_active env <=? active_agents env db)) eqn:Hcap; [done|].
    match goal with |- context [if ?b then db else _] => destruct b; [done|] end.
    apply fresh_effect; [done | | lia]. intros Hb. subst auth. rewrite Hb in Ha. simpl in Ha.
    destruct (routed_session _ _ _ _) as [| |r]; try done. by exists r.
  - assert (Haway : auth <> RoutedAway).
    { intros E. rewrite E, andb_true_r in Ha. subst auth. by rewrite Ha in E. }
    assert (Hroute : chat_bound j = true ->
      routed_session db (default [] (j_channel j)) (default [] (j_chat j)) (j_agent j) <> RoutedAway)
      by (intros Hb; subst auth; by rewrite Hb in Haway).
    destruct (is_pin j) eqn:Hp.
    + destruct (session_exists db (j_session j)) eqn:Es; [|apply fire_error_outcome].
      apply resolved_effect; [done | unfold meant; by rewrite Hn, Hp | by apply session_exists_in | done].
    + assert (Hm : forall sid, (match auth with RoutedAway => False | RoutedHere r => sid = r
          | NoRoute => if j_session j =? 0 then exists s, owns db (j_agent j) s /\ s_id s = sid else sid = j_session j end) ->
        meant db j sid) by (intros sid H0; unfold meant; by rewrite Hn, Hp).
      assert (Hr0 : forall r, auth = RoutedHere r -> r <> 0).
      { intros r E ->. subst auth. destruct (chat_bound j); [|done].
        apply routed_here_in in E as (s & Hs & Hid). specialize (Hpos s Hs). lia. }
      destruct auth as [| |r] eqn:Eauth; [|done|].
      * destruct (j_session j =? 0) eqn:E0; [destruct (recent_session db (j_agent j) =? 0) eqn:Er; [done|] |
          destruct (session_exists db (j_session j)) eqn:Es; [|apply fire_error_outcome]].
        -- destruct (recent_session_owns db (j_agent j)) as (s & Hs & Hid); [lia|].
           apply resolved_effect; [done | apply Hm; by exists s | exists s; by destruct Hs | done].
        -- apply resolved_effect; [done | by apply Hm | by apply session_exists_in | done].
      * specialize (Hr0 r eq_refl). replace (r =? 0) with false by lia.
        destruct (session_exists db r) eqn:Es; [|apply fire_error_outcome].
        apply resolved_effect; [done | by apply Hm | by apply session_exists_in | done].
Qed.

(** ** The upsert merges *)

Definition key_is (agent name : cstring) (j : JobRow) : bool := streq (j_agent j) agent && streq (j_name j) name.

Lemma key_is_spec agent name j : key_is agent name j = true <-> j_agent j = agent /\ j_name j = name.
Proof. unfold key_is, streq. by rewrite andb_true_iff, !bool_decide_eq_true. Qed.

Lemma update_row_find agent name m js :
  match update_row agent name m js with
  | Some (id, js') => exists r, List.find (key_is agent name) js = Some r /\ id = j_id r /\
      List.find (key_is agent name) js' = Some (merged_row id agent name (j_last r) m) /\
      (forall a n, (a, n) <> (agent, name) -> List.find (key_is a n) js' = List.find (key_is a n) js) /\
      map (fun j => (j_agent j, j_name j)) js' = map (fun j => (j_agent j, j_name j)) js
  | None => List.find (key_is agent name) js = None
  end.
Proof.
  induction js as [|j js IH]; [done|]. cbn [update_row List.find map].
  change (streq (j_agent j) agent && streq (j_name j) name) with (key_is agent name j).
  destruct (key_is agent name j) eqn:E.
  - exists j. split_all; [done | done | | |].
    + cbn [List.find]. unfold key_is at 1. simpl. unfold streq. by rewrite !bool_decide_true.
    + intros a n Hne. cbn [List.find].
      assert (H1 : key_is a n (merged_row (j_id j) agent name (j_last j) m) = false).
      { apply not_true_iff_false. rewrite key_is_spec. simpl. intros [-> ->]. done. }
      assert (H2 : key_is a n j = false).
      { apply not_true_iff_false. apply key_is_spec in E. rewrite key_is_spec. intros [Ea En]. destruct E. congruence. }
      by rewrite H1, H2.
    + apply key_is_spec in E as [Ea En]. simpl. by rewrite Ea, En.
  - destruct (update_row agent name m js) as [[id js']|]; simpl.
    + destruct IH as (r & Hr & -> & Hf & Ho & Hk). exists r. rewrite ?E. split_all; try done.
      * intros a n Hne. by rewrite (Ho a n Hne).
      * by rewrite Hk.
    + by rewrite ?E.
Qed.

(** What a write does to the table, by key. *)
Lemma merged_write_spec db agent name m :
  let (id, db') := merged_write db agent name m in
  let old := List.find (key_is agent name) (jobs db) in
  List.find (key_is agent name) (jobs db') =
    Some (merged_row id agent name (match old with Some r => j_last r | None => None end) m) /\
  (forall r, old = Some r -> id = j_id r) /\ (old = None -> id = next_job db) /\
  (forall a n, (a, n) <> (agent, name) -> List.find (key_is a n) (jobs db') = List.find (key_is a n) (jobs db)) /\
  (NoDup (map (fun j => (j_agent j, j_name j)) (jobs db)) ->
   NoDup (map (fun j => (j_agent j, j_name j)) (jobs db'))).
Proof.
  unfold merged_write. pose proof (update_row_find agent name m (jobs db)) as H.
  destruct (update_row agent name m (jobs db)) as [[id js]|]; cbv zeta.
  - destruct H as (r & -> & -> & Hf & Ho & Hk). simpl. split_all; [done | congruence | done | done | by rewrite Hk].
  - rewrite H. simpl. split_all; [ | done | done | |].
    + rewrite find_app, H. simpl. unfold key_is. simpl. unfold streq. by rewrite !bool_decide_true.
    + intros a n Hne. rewrite find_app. destruct (List.find (key_is a n) (jobs db)); [done|]. simpl.
      replace (key_is a n _) with false; [done|]. symmetry. apply not_true_iff_false.
      rewrite key_is_spec. simpl. intros [-> ->]. done.
    + intros Hnd. rewrite map_app. apply NoDup_app. split_all; [done | | apply NoDup_singleton].
      intros k (j & -> & Hj)%list_elem_of_fmap Hk. apply list_elem_of_singleton in Hk.
      simpl in Hk. apply list_elem_of_In in Hj. pose proof (find_none _ _ H j Hj) as Hj'.
      apply not_true_iff_false in Hj'. apply Hj', key_is_spec. by injection Hk.
Qed.

Lemma row_load_key db agent name :
  row_load db (Some agent) (Some name) = List.find (key_is agent name) (jobs db).
Proof. done. Qed.

(** The schedule of the merged job. *)
Definition schedule_ok (floor_ now : Z) (d : CronDoc) (old : option JobRow) (r : JobRow) : Prop :=
  if has_expr d then
    j_expr r = default [] (d_cron_expr d) /\ j_run_at r = None /\ j_interval r = None /\ now < j_next r
  else if has_seconds d then
    j_expr r = [] /\ j_interval r = None /\ j_next r = now + d_in_seconds d /\
    floor_ <= d_in_seconds d /\ (0 < now -> j_run_at r = Some (j_next r))
  else exists o, old = Some o /\ j_expr r = j_expr o /\ j_next r = j_next o /\
    coalesce0 (j_run_at r) = Z.max 0 (coalesce0 (j_run_at o)) /\
    coalesce0 (j_interval r) = Z.max 0 (coalesce0 (j_interval o)).

(** The target mode of the merged job, and the fields the mode allows. *)
Definition target_merged (d : CronDoc) (old : option JobRow) (r : JobRow) : Prop :=
  (if has_session_id d then j_target r = Some (bs "pin") /\ j_session r = d_session_id d
   else if has_session d then j_target r = Some (bs "new")
   else match row_target old with
        | Some t => j_target r = (if streq t (bs "pin") || streq t (bs "new") then Some t else None)
        | None => j_target r = None
        end) /\
  (row_target old = Some (bs "pin") -> j_target r = Some (bs "pin")) /\
  (row_target old = Some (bs "new") -> j_target r = Some (bs "new")) /\
  (j_target r <> Some (bs "new") -> j_target_agent r = None) /\
  (j_target r = Some (bs "pin") -> j_channel r = None /\ j_chat r = None).

Lemma positive_or_null_max v : coalesce0 (positive_or_null v) = Z.max 0 v.
Proof. unfold positive_or_null. case_if; simpl; lia. Qed.

Lemma merge_schedule_spec `{LocalTime} floor_ now d row e ra iv nx :
  check_call d = None ->
  doc_check_merged d row = None ->
  merge_schedule floor_ now d row = Some (inr (e, ra, iv, nx)) ->
  forall r, j_expr r = e -> j_run_at r = positive_or_null ra -> j_interval r = positive_or_null iv ->
    j_next r = nx -> schedule_ok floor_ now d row r.
Proof.
  intros Hcall Hchk Hm r <- Hra Hiv <-. unfold schedule_ok, merge_schedule in *.
  assert (Hboth : has_expr d && has_seconds d = false /\ (has_seconds d = true -> 0 < d_in_seconds d)).
  { unfold check_call in Hcall. destruct (has_expr d && has_seconds d); [done|]. split; [done|].
    intros Hs. rewrite Hs in Hcall. simpl in Hcall. destruct (d_in_seconds d <=? 0) eqn:E; [done | lia]. }
  destruct Hboth as [Hboth Hpos].
  destruct (has_expr d) eqn:He; [|destruct (has_seconds d) eqn:Hs]; simpl in Hboth, Hm.
  - rewrite Hboth in Hm. unfold cron_schedule_check in Hm. cbn [Z.eqb negb andb] in Hm.
    rewrite andb_false_r in Hm. cbn [andb] in Hm.
    destruct (match d_cron_expr d with Some (_ :: _) => true | _ => false end); [|done]. cbn [negb andb] in Hm.
    destruct (cron_next_run_cases (d_cron_expr d) now) as (n & Hn & Hc). rewrite Hn in Hm.
    destruct (n <? 0) eqn:E0; [done|].
    destruct (cron_next_run_cases (d_cron_expr d) n) as (n2 & Hn2 & Hc2). rewrite Hn2 in Hm.
    destruct (n2 <? 0); [done|]. destruct (n2 - n <? floor_); [done|].
    injection Hm as He' <- <- Hnx. rewrite Hra, Hiv. simpl in Hnx. split_all; [done | done | done | lia].
  - specialize (Hpos eq_refl). unfold cron_schedule_check in Hm.
    replace (d_in_seconds d =? 0) with false in Hm by lia. cbn [negb andb] in Hm.
    destruct (d_in_seconds d <? floor_) eqn:Ef; [done|]. simpl in Hm.
    injection Hm as He' <- <- Hnx. rewrite Hra, Hiv, <- Hnx. split_all; [done | done | done | lia |].
    intros Hnow. unfold positive_or_null. case_if; [done | lia].
  - unfold doc_check_merged in Hchk. destruct (merged_mode d row); [done|]. rewrite He, Hs in Hchk.
    destruct row as [old|]; [|done]. exists old. injection Hm as <- <- <- <-.
    rewrite Hra, Hiv, !positive_or_null_max. split_all; try done.
Qed.

Lemma merge_target_spec d row mode anchor cc ct tgt ta ch chat sid :
  merged_mode d row = inr mode -> check_call d = None ->
  merge_target d row mode anchor cc ct = (tgt, ta, ch, chat, sid) ->
  forall r, j_target r = tgt -> j_target_agent r = ta -> j_channel r = ch -> j_chat r = chat ->
    j_session r = sid -> target_merged d row r.
Proof.
  intros Hmode Hcall Hm r <- <- <- <- <-. unfold target_merged.
  assert (Hone : has_session d && has_session_id d = false).
  { unfold check_call in Hcall. repeat (match type of Hcall with (if ?b then _ else _) = _ => destruct b eqn:?; try done end). }
  assert (Hres : j_target r = mode /\ (mode <> Some (bs "new") -> j_target_agent r = None) /\
    (mode = Some (bs "pin") -> j_channel r = None /\ j_chat r = None /\
       (has_session_id d = true -> j_session r = d_session_id d))).
  { unfold merge_target in Hm. destruct (text_is mode (bs "pin")) eqn:Ep.
    - injection Hm as Ht Hta Hch Hct Hs. apply text_is_eq in Ep. subst mode.
      split_all; try done. intros _. split_all; try done. intros E. by rewrite <- Hs, E.
    - assert (mode <> Some (bs "pin")) by (intros E; apply text_is_eq in E; congruence).
      destruct (text_is mode (bs "new")) eqn:En.
      + apply text_is_eq in En. destruct (has_channel d || has_chat d);
          injection Hm as Ht Hta Hch Hct Hs; by split_all.
      + destruct cc, ct; injection Hm as Ht Hta Hch Hct Hs; by split_all. }
  destruct Hres as (-> & Hta & Hpin). clear Hm. unfold merged_mode in Hmode.
  destruct (text_is (row_target row) (bs "pin")) eqn:Ewp; destruct (text_is (row_target row) (bs "new")) eqn:Ewn;
    destruct (has_session_id d), (has_session d); try done; cbn [andb orb] in Hmode; try discriminate Hmode;
    injection Hmode as <-;
    try (apply text_is_eq in Ewp; rewrite Ewp in * ); try (apply text_is_eq in Ewn; rewrite Ewn in * );
    try discriminate Ewn; try discriminate Ewp.
  all: split_all; try done; try (by apply Hta); try (by apply Hpin); try (by destruct Hpin as (? & ? & ?); auto).
  all: try (intros E; rewrite E in *; discriminate).
  destruct (row_target row) as [t|]; [|done]. unfold text_is in Ewp, Ewn. by rewrite Ewp, Ewn.
Qed.

(** An upsert merges and never half-applies: a refusal leaves the database
    as it was; otherwise the job of that agent and name is enabled, has a
    schedule that starts after now (or the stored one when the document gives
    none), the payload fields the document names and the stored ones for the
    rest, and one unambiguous target mode that a stored pin or fresh-session job
    never loses; the rows of other keys stay as they were, and names stay
    unique per agent. *)
Theorem cron_upsert_merges `{LocalTime} floor_ now db agent caller d name :
  d_name d = Some name -> name <> [] -> check_call d = None ->
  let old := row_load db (Some agent) (Some name) in
  exists res db', cron_upsert floor_ now db (Some agent) caller (Some d) = Some (res, db') /\
    match res with
    | inl _ => db' = db
    | inr (id, replaced) =>
        exists r, row_load db' (Some agent) (Some name) = Some r /\ j_id r = id /\ j_enabled r = true /\
          (forall o, old = Some o -> replaced = true /\ j_id r = j_id o) /\
          (old = None -> replaced = false /\ j_id r = next_job db) /\
          schedule_ok floor_ now d old r /\ target_merged d old r /\
          j_task r = (if has_prompt d then default [] (d_prompt d) else match old with Some o => j_task o | None => [] end) /\
          j_script r = (if has_script d then (if nonempty (d_script d) then d_script d else None)
                        else match old with Some o => j_script o | None => None end) /\
          (forall a n, (a, n) <> (agent, name) -> row_load db' (Some a) (Some n) = row_load db (Some a) (Some n)) /\
          (NoDup (map (fun j => (j_agent j, j_name j)) (jobs db)) ->
           NoDup (map (fun j => (j_agent j, j_name j)) (jobs db')))
    end.
Proof.
  intros Hname Hne Hcall old. unfold cron_upsert. rewrite Hname.
  replace (nonempty (Some name)) with true by (by destruct name). cbn [negb]. cbv zeta. fold old.
  destruct (doc_check_merged d old) as [e|] eqn:Hchk; [by exists (inl e), db|].
  destruct (merge_schedule floor_ now d old) as [[e|[[[e ra] iv] nx]]|] eqn:Hm; [by exists (inl e), db | |].
  2:{ exfalso. revert Hm. unfold merge_schedule, cron_schedule_check.
      repeat match goal with
      | |- context [cron_next_run ?x ?t] => destruct (cron_next_run_cases x t) as (? & -> & _)
      | |- context [if ?b then _ else _] => destruct b
      end; done. }
  destruct (merged_mode d old) as [err|mode] eqn:Hmode; [unfold doc_check_merged in Hchk; by rewrite Hmode in Hchk|].
  destruct (caller_chat db caller) as [cc ct].
  destruct (merge_target d old mode _ cc ct) as [[[[tgt ta] ch] chat] sid] eqn:Ht.
  change (default [] (Some agent)) with agent. change (default [] (Some name)) with name.
  match goal with |- context [merged_write db agent name ?m] => set (mm := m) end.
  pose proof (merged_write_spec db agent name mm) as Hw.
  destruct (merged_write db agent name mm) as [id db']. cbv zeta in Hw.
  change (List.find (key_is agent name) (jobs db)) with old in Hw.
  destruct Hw as (Hf & Hold & Hnew & Hother & Hnd).
  eexists _, db'. split; [reflexivity|]. eexists. split; [exact Hf|].
  split_all; try done.
  - intros o Ho. split; [by rewrite Ho | by apply Hold].
  - intros Ho. split; [by rewrite Ho | by apply Hnew].
  - eapply merge_schedule_spec; eauto.
  - eapply merge_target_spec; eauto.
Qed.

(** ** A small database *)
Definition demo_session : SessionRow := mk_session 7 (Some (bs "ada")) None (-1) 0 true 100 None None.
Definition demo_job : JobRow :=
  mk_job 1 (bs "ada") (bs "digest") [] None (Some 60) 7 (bs "summarise") None None None None None true 900 None.
Definition demo_one_shot : JobRow :=
  mk_job 2 (bs "ada") (bs "once") [] (Some 950) None 7 [] (Some (bs "run.qjs")) None None None None true 950 None.
Definition demo_fresh : JobRow :=
  mk_job 3 (bs "ada") (bs "night") [] None (Some 60) 0 [] (Some (bs "run.qjs")) None None (Some (bs "new")) None true 900 None.
Definition demo_db (js : list JobRow) : DB := mk_db js 4 [demo_session] 8 [] [] [] [] [].
Definition demo_env (rc : CronScriptRc) : FireEnv :=
  mk_fenv 1000 0 (fun _ => 0) (fun _ _ _ => []) (fun _ => true) (fun t => t)
    (Some (fun _ _ => (rc, bs "no such file"))).

Lemma run_due_jobs_settles_witness :
  exists db', @run_due_jobs utc (demo_env CRON_SCRIPT_SPAWNED) (demo_db [demo_job; demo_one_shot]) 1000 = Some db' /\
    forall r, r ∈ jobs db' -> is_due 1000 r = false.
Proof.
  destruct (@run_due_jobs_settles utc (demo_env CRON_SCRIPT_SPAWNED) (demo_db [demo_job; demo_one_shot]) 1000)
    as (db' & Hdb & Hdue & _).
  - apply (bool_decide_unpack _). vm_compute. exact I.
  - by exists db'.
Defined.

Lemma fire_due_authorised_witness :
  let db := demo_db [demo_job] in
  let db' := @fire_due utc (demo_env CRON_SCRIPT_SPAWNED) db demo_job in
  inbox db' = [mk_inbox 7 (bs "cron") (Some (bs "digest")) (bs "summarise") false] /\ sessions_ok db db' demo_job /\
  (skipped db db' \/ told_error db db' demo_job \/ @paused utc (demo_env CRON_SCRIPT_SPAWNED) db db' demo_job \/
   exists sid, target_ok (demo_env CRON_SCRIPT_SPAWNED) db db' demo_job sid /\
     fired (demo_env CRON_SCRIPT_SPAWNED) db db' demo_job sid).
Proof.
  split; [vm_compute; reflexivity|].
  apply (@fire_due_authorised utc). intros s Hs. apply list_elem_of_singleton in Hs as ->. reflexivity.
Defined.

Definition demo_doc : CronDoc :=
  mk_doc (Some (bs "digest")) None 120 None None 0 None None None None
    false true false false false false false false false.

Lemma cron_upsert_merges_witness :
  exists res db', @cron_upsert utc 30 1000 (demo_db [demo_job]) (Some (bs "ada")) 7 (Some demo_doc) = Some (res, db') /\
    match res with inl _ => db' = demo_db [demo_job] | inr (id, replaced) => True end.
Proof.
  destruct (@cron_upsert_merges utc 30 1000 (demo_db [demo_job]) (bs "ada") 7 demo_doc (bs "digest"))
    as (res & db' & H & Hr); [reflexivity | discriminate | reflexivity |].
  exists res, db'. split; [exact H|]. destruct res as [e|[id rep]]; [exact Hr | exact I].
Defined.

Example cron_upsert_demo :
  option_map (fun p => (fst p, map (fun j => (j_id j, j_task j, j_next j, j_run_at j, j_interval j)) (jobs (snd p))))
    (@cron_upsert utc 30 1000 (demo_db [demo_job]) (Some (bs "ada")) 7 (Some demo_doc)) =
  Some (inr (1, true), [(1, bs "summarise", 1120, Some 1120, None)]).
Proof. vm_compute. reflexivity. Qed.

Example run_due_demo :
  option_map (fun db => (map j_next (jobs db), inbox db, map f_job (spawned db)))
    (@run_due_jobs utc (demo_env CRON_SCRIPT_SPAWNED) (demo_db [demo_job; demo_one_shot]) 1000) =
  Some ([1060], [mk_inbox 7 (bs "cron") (Some (bs "digest")) (bs "summarise") false], [bs "once"]).
Proof. vm_compute. reflexivity. Qed.

(** A one-shot whose script meets no free child slot is deleted unfired: "the
    next schedule retries" holds for recurring jobs only. *)
Example one_shot_lost_when_busy :
  @run_due_jobs utc (demo_env CRON_SCRIPT_BUSY) (demo_db [demo_one_shot]) 1000 = Some (demo_db []).
Proof. vm_compute. reflexivity. Qed.

(** The notice of a fresh-session job whose script cannot run goes to the session
    the fire has just created, not to the owner's own conversation. *)
Example fresh_failure_notice :
  let db' := @fire_due utc (demo_env CRON_SCRIPT_FAILED) (demo_db [demo_fresh]) demo_fresh in
  map i_session (inbox db') = [8] /\ map s_name (sessions db') = [None; Some (bs "cron")].
Proof. vm_compute. by split. Qed.
