(* ===== verification/Ingest.v ===== *)
(** * Results entering a session: scrub (src/secret_store.c) and spill (src/context.c)

    What a result of another session or of a tool goes through before it becomes
    an entry: the scan and UTF-8 repair of [tool_result_scrub], then
    [truncate_and_spill], which keeps the head of a long text and names the file
    the whole of it is written to.  [Ingest] is the interface [Delivery] uses. *)
From S2P Require Import Prelude CString Libc Unicode SecretInterp SecretScan Redact.

(** What a client of this file relies on: the text that enters, and what is stored
    of it for session [sid] and call [call]. *)
Class Ingest := {
  scrub : cstring -> cstring;
  spill : Z -> cstring -> cstring -> cstring
}.

(** ** tool_result_scrub *)
Section Scrub.
Context `{Qsort} `{Entropy} (alloc : Z -> bool).

(** Outer [None]: no termination; inner [None]: NULL. *)
Definition tool_result_scrub (snap : list ShellSecret) (text : option cstring) : option (option cstring) :=
  match text with
  | None => Some None
  | Some text =>
      match tool_result_postprocess alloc (Some text) snap with
      | None => None
      | Some pp =>
          let base := match pp with Some p => p | None => text end in
          match utf8_sanitize (Some base) with
          | Some clean => Some (Some clean)
          | None => Some (match pp with Some p => Some p | None => strdup alloc text end)
          end
      end
  end.

End Scrub.

(** ** The spill path *)
Definition PATH_MAX : nat := 4096.

Definition safe_char (c : Z) : bool := is_alnum c || (c =? "_"%char) || (c =? "-"%char).

(** [ws] is the environment's CCLAW_WORKSPACE, [agents_dir] the resolved agents
    directory, [agent] the agent name of the session's row. *)
Definition session_tmp_dir (ws : option cstring) (agents_dir : cstring) (agent : option cstring)
    (sid : Z) (size : nat) : cstring :=
  let fallback := snprintf size (bs "/tmp/cclaw-" ++ print_int sid) in
  match ws with
  | Some ((_ :: _) as ws) => snprintf size (ws ++ bs "/.tool_results/" ++ print_int sid)
  | _ =>
      let agent := snprintf 128 (default [] agent) in
      if negb (bool_decide (agent = [])) &&
         negb (match strchr agent "/"%char with Some _ => true | None => false end) &&
         negb (streq agent (bs "..")) then
        let path := agents_dir ++ bs "/" ++ agent ++ bs "/workspace/.tool_results/" ++ print_int sid in
        if (length path <? size)%nat then path else fallback
      else fallback
  end.

Definition safe_id (call : option cstring) : option cstring :=
  match call with
  | None => None
  | Some id =>
      if match strstr id (bs "..") with Some _ => true | None => false end || bool_decide (id = [])
      then None
      else if forallb safe_char id then Some id else None
  end.

(** [dir] is [session_tmp_dir]'s answer; [None] is the -1 of a path that does not
    fit. *)
Definition spill_path_build (dir : cstring) (call : option cstring) (size : nat) : option cstring :=
  let path := dir ++ bs "/" ++ default (bs "unknown") (safe_id call) ++ bs ".out" in
  if (length path <? size)%nat then Some path else None.

Definition job_log_path_build (dir : cstring) (call : option cstring) (size : nat) : option cstring :=
  match spill_path_build dir call size with
  | None => None
  | Some p =>
      let l := length p in
      if (l <? 4)%nat || (size <=? l + 1)%nat then None else Some (take (l - 4) p ++ bs ".log")
  end.

(** ** truncate_and_spill *)
Definition TRUNCATE_MAX_BYTES : Z := 64 * 1024.
Definition TRUNCATE_MAX_LINES : Z := 2000.

(** The cut and the lines before it; [len] when no limit is reached. *)
Fixpoint cut_loop (len i lines : Z) (src : cstring) : Z * Z :=
  match src with
  | [] => (len, lines)
  | c :: src' =>
      let lines := if c =? 10 then lines + 1 else lines in
      if (c =? 10) && (lines >=? TRUNCATE_MAX_LINES) then (i + 1, lines)
      else if i + 1 >=? TRUNCATE_MAX_BYTES then (TRUNCATE_MAX_BYTES, lines)
      else cut_loop len (i + 1) lines src'
  end.

Definition newlines (s : cstring) : Z := zlen (List.filter (fun c => c =? 10) s).

Definition spill_suffix (lines total : Z) (path : cstring) : cstring :=
  snprintf (PATH_MAX + 256)
    ([10] ++ bs "[truncated " ++ EM_DASH ++ bs " showing first " ++
     print_int (if lines <? TRUNCATE_MAX_LINES then lines else TRUNCATE_MAX_LINES) ++ bs " lines of " ++
     print_int (if total >? 0 then total else 1) ++ bs ". Full output: " ++ path ++ bs "]").

(** The stored text, and the file the whole text is to be written to. *)
Definition truncate_and_spill (alloc : Z -> bool) (dir : cstring) (call src : cstring)
    : cstring * option (cstring * cstring) :=
  let len := zlen src in
  let (cut, lines) := cut_loop len 0 0 src in
  if cut >=? len then (src, None)
  else match spill_path_build dir (Some call) (PATH_MAX + 64) with
       | None => (src, None)
       | Some path =>
           let suffix := spill_suffix lines (newlines src) path in
           (if alloc (cut + zlen suffix + 1) then take (Z.to_nat cut) src ++ suffix else src,
            Some (path, src))
       end.

(** The chain as the code composes it; [dirs] is [session_tmp_dir] of a session. *)
Definition ingest_impl `{Qsort} `{Entropy} (alloc : Z -> bool) (snap : list ShellSecret)
    (dirs : Z -> cstring) : Ingest := {|
  scrub := fun text =>
    match tool_result_scrub alloc snap (Some text) with Some (Some t) => t | _ => text end;
  spill := fun sid call text => fst (truncate_and_spill alloc (dirs sid) call text)
|}.

(** ** Lemmas *)

Lemma newlines_cons c s : newlines (c :: s) = (if c =? 10 then 1 else 0) + newlines s.
Proof. unfold newlines. simpl. destruct (c =? 10); autorewrite with cclaw_rw; lia. Qed.

Lemma newlines_nonneg s : 0 <= newlines s.
Proof. apply zlen_nonneg. Qed.

(** Where the text is cut: [k] more bytes, up to the end, the byte limit or the newline
    that reaches the line limit, whichever comes first. *)
Lemma cut_loop_spec len src : forall i lines,
  len = i + zlen src -> 0 <= i <= TRUNCATE_MAX_BYTES - 1 -> 0 <= lines < TRUNCATE_MAX_LINES ->
  exists k, (k <= length src)%nat /\
    cut_loop len i lines src = (i + Z.of_nat k, lines + newlines (take k src)) /\
    i + Z.of_nat k <= TRUNCATE_MAX_BYTES /\
    (forall j, (j < k)%nat -> lines + newlines (take j src) < TRUNCATE_MAX_LINES) /\
    (k = length src \/ i + Z.of_nat k = TRUNCATE_MAX_BYTES \/
     lines + newlines (take k src) = TRUNCATE_MAX_LINES).
Proof.
  induction src as [|c src IH]; intros i lines Hl Hi Hn; cbn [cut_loop].
  { exists O. change (newlines (take 0 [])) with 0. rewrite Hl. unfold zlen. cbn [length].
    split_all; try lia. f_equal; lia. }
  assert (Hz : forall j, (j < 1)%nat -> lines + newlines (take j (c :: src)) < TRUNCATE_MAX_LINES)
    by (intros [|j] Hj; [change (newlines (take 0 _)) with 0; lia|lia]).
  autorewrite with cclaw_rw in Hl.
  set (lines' := if c =? 10 then lines + 1 else lines).
  assert (Hl1 : lines' = lines + (if c =? 10 then 1 else 0)) by (unfold lines'; destruct (c =? 10); lia).
  clearbody lines'.
  assert (Hlines : lines' = lines + newlines (take 1 (c :: src))).
  { change (take 1 (c :: src)) with [c]. rewrite newlines_cons. change (newlines []) with 0. lia. }
  destruct ((c =? 10) && (lines' >=? TRUNCATE_MAX_LINES)) eqn:E1; [|destruct (i + 1 >=? TRUNCATE_MAX_BYTES) eqn:E2].
  - exists 1%nat. rewrite <- Hlines. cbn [length].
    destruct (c =? 10); (split_all; [lia|f_equal; lia|lia|exact Hz|lia]).
  - exists 1%nat. rewrite <- Hlines. cbn [length].
    destruct (c =? 10); (split_all; [lia|f_equal; lia|lia|exact Hz|lia]).
  - destruct (IH (i + 1) lines') as (k & Hk & E & Hb & Hln & Hmax);
      [lia|lia|destruct (c =? 10); lia|].
    assert (forall j, (j < S k)%nat -> lines + newlines (take j (c :: src)) < TRUNCATE_MAX_LINES) as Hj.
    { intros [|j] Hj; [change (newlines (take 0 _)) with 0; lia|]. cbn [take]. rewrite newlines_cons.
      specialize (Hln j ltac:(lia)). lia. }
    exists (S k). rewrite E. cbn [take length]. rewrite newlines_cons.
    split_all; [lia|f_equal; lia|lia|exact Hj|lia].
Qed.

(** The lines of a text, an unfinished last one included. *)
Definition line_count (s : cstring) : Z :=
  newlines s + match last s with None => 0 | Some c => if c =? 10 then 0 else 1 end.

Lemma newlines_app s t : newlines (s ++ t) = newlines s + newlines t.
Proof. unfold newlines. rewrite List.filter_app. by autorewrite with cclaw_rw. Qed.

Lemma newlines_take_mono j k s : (j <= k)%nat -> newlines (take j s) <= newlines (take k s).
Proof.
  intros H. replace k with (j + (k - j))%nat by lia. rewrite <- take_take_drop, newlines_app.
  pose proof (newlines_nonneg (take (k - j) (drop j s))). lia.
Qed.

Lemma line_count_bounds s : newlines s <= line_count s <= newlines s + 1.
Proof. unfold line_count. destruct (last s); [destruct (_ =? _)|]; lia. Qed.

(** A head one byte longer. *)
Lemma newlines_take_S k s c : s !! k = Some c ->
  newlines (take (S k) s) = newlines (take k s) + (if c =? 10 then 1 else 0) /\
  line_count (take (S k) s) = newlines (take k s) + 1.
Proof.
  intros H. unfold line_count. rewrite (take_S_r _ _ _ H), newlines_app, last_snoc, newlines_cons.
  change (newlines []) with 0. destruct (c =? 10); lia.
Qed.

(** The cut is the longest head within both limits. *)
Lemma cut_longest src k :
  (k <= length src)%nat -> Z.of_nat k <= TRUNCATE_MAX_BYTES ->
  (forall j, (j < k)%nat -> newlines (take j src) < TRUNCATE_MAX_LINES) ->
  (k = length src \/ Z.of_nat k = TRUNCATE_MAX_BYTES \/ newlines (take k src) = TRUNCATE_MAX_LINES) ->
  line_count (take k src) <= TRUNCATE_MAX_LINES /\
  forall j, (j <= length src)%nat -> Z.of_nat j <= TRUNCATE_MAX_BYTES ->
    line_count (take j src) <= TRUNCATE_MAX_LINES -> (j <= k)%nat.
Proof.
  intros Hk Hb Hln Hmax. split.
  - destruct k as [|k]; [by vm_compute|]. destruct (lookup_lt_is_Some_2 src k) as [c Hc]; [lia|].
    destruct (newlines_take_S _ _ _ Hc) as [_ ->]. specialize (Hln k ltac:(lia)). lia.
  - intros j Hj Hjb Hjl. destruct Hmax as [->|[Hmax|Hmax]]; [done|lia|].
    destruct (decide (j <= k)%nat) as [|Hn]; [done|]. exfalso. destruct j as [|j]; [lia|].
    destruct (lookup_lt_is_Some_2 src j) as [c Hc]; [lia|]. destruct (newlines_take_S _ _ _ Hc) as [_ E].
    pose proof (newlines_take_mono k j src ltac:(lia)). lia.
Qed.

Lemma safe_id_safe call id : safe_id call = Some id -> id <> [] /\ forallb safe_char id = true /\ call = Some id.
Proof.
  unfold safe_id. destruct call as [c|]; [|done].
  destruct (_ || _) eqn:E; [done|]. apply orb_false_iff in E as [_ E].
  apply bool_decide_eq_false in E. destruct (forallb safe_char c) eqn:Ef; [|done].
  intros [= <-]. done.
Qed.

(** (C39) A result is cut to the longest head within both limits, 64 KiB and 2000 lines, an
    unfinished last line counted.  When that head is the whole text, it is stored as it
    is and nothing is written.  Otherwise what is stored is the head, followed by the
    notice with the line counts and the file, and the write asked for is the whole
    text to that file; when the memory for the shortened text is missing the text
    is stored whole, and so it is, with nothing written, when no spill path
    fits its buffer, whatever its size. *)
Theorem truncate_and_spill_correct (alloc : Z -> bool) (dir call src : cstring) :
  exists k, (k <= length src)%nat /\
    Z.of_nat k <= TRUNCATE_MAX_BYTES /\ line_count (take k src) <= TRUNCATE_MAX_LINES /\
    (forall j, (j <= length src)%nat -> Z.of_nat j <= TRUNCATE_MAX_BYTES ->
       line_count (take j src) <= TRUNCATE_MAX_LINES -> (j <= k)%nat) /\
    truncate_and_spill alloc dir call src =
      if bool_decide (k = length src) then (src, None)
      else match spill_path_build dir (Some call) (PATH_MAX + 64) with
           | Some path =>
               let suffix := spill_suffix (newlines (take k src)) (newlines src) path in
               (if alloc (Z.of_nat k + zlen suffix + 1) then take k src ++ suffix else src, Some (path, src))
           | None => (src, None)
           end.
Proof.
  destruct (cut_loop_spec (zlen src) src 0 0) as (k & Hk & E & Hb & Hln & Hmax);
    [lia|unfold TRUNCATE_MAX_BYTES; lia|unfold TRUNCATE_MAX_LINES; lia|].
  exists k. rewrite !Z.add_0_l in *. destruct (cut_longest src k) as [Hl Hmost]; [done..|]. split_all; try done.
  unfold truncate_and_spill. rewrite E. unfold zlen at 1.
  case_bool_decide as Ek.
  - by replace (_ >=? _) with true by lia.
  - replace (_ >=? _) with false by lia. destruct (spill_path_build _ _ _); [|done].
    by rewrite Nat2Z.id.
Qed.

(** A spill file lies in the directory of its session: its name is the call id
    only when that is letters, digits, underscore and dash, so that no call id, which
    a model chooses, can name a path outside, and otherwise the fixed name. *)
Theorem spill_path_confined (dir call path : cstring) (size : nat) :
  spill_path_build dir (Some call) size = Some path ->
  exists name, path = dir ++ bs "/" ++ name ++ bs ".out" /\ name <> [] /\
    Forall (fun c => c <> "/"%char /\ c <> "."%char /\ c <> 0) name /\ (length path < size)%nat /\
    (name = call \/ name = bs "unknown").
Proof.
  unfold spill_path_build.
  assert (Hid : exists name, default (bs "unknown") (safe_id (Some call)) = name /\ name <> [] /\
    Forall (fun c => c <> "/"%char /\ c <> "."%char /\ c <> 0) name /\ (name = call \/ name = bs "unknown")).
  { destruct (safe_id (Some call)) as [id|] eqn:Es.
    - apply safe_id_safe in Es as (Hne & Hf & [= ->]). exists id. split_all; [done|done| |by left].
      apply Forall_forall. intros c Hc. rewrite forallb_forall in Hf.
      specialize (Hf c (proj1 (list_elem_of_In _ _) Hc)).
      unfold safe_char, is_alnum, is_upper, is_lower, is_digit in Hf. bool_lia.
    - exists (bs "unknown"). split_all; [done|done| |by right].
      apply (bool_decide_unpack _). vm_compute. exact I. }
  destruct Hid as (name & -> & Hne & Hf & Hn).
  destruct (_ <? _)%nat eqn:E; [|done]. apply Nat.ltb_lt in E. intros Hp.
  exists name. split_all; try done; congruence.
Qed.

Lemma spill_path_confined_witness :
  exists path,
    spill_path_build (bs "/tmp/cclaw-3") (Some (bs "../../etc/passwd")) 4160 = Some path /\
    exists name, path = bs "/tmp/cclaw-3" ++ bs "/" ++ name ++ bs ".out" /\ name <> [] /\
      Forall (fun c => c <> "/"%char /\ c <> "."%char /\ c <> 0) name /\ (length path < 4160)%nat /\
      (name = bs "../../etc/passwd" \/ name = bs "unknown").
Proof.
  exists (bs "/tmp/cclaw-3/unknown.out").
  assert (E : spill_path_build (bs "/tmp/cclaw-3") (Some (bs "../../etc/passwd")) 4160 =
              Some (bs "/tmp/cclaw-3/unknown.out")) by (vm_compute; reflexivity).
  split; [exact E|]. apply (spill_path_confined _ _ _ _ E).
Defined.
