(* ===== verification/Store.v ===== *)
(** * The session tables: src/db.c and templates/schema.sql

    The rows the session machine of advance.c reads and writes, as a record of
    row lists in id order, and the operations of db.c on them.  A statement is the
    list operation it names; a trigger of the schema is part of the insert it
    follows.  A statement that fails in SQLite itself is an outcome of the
    callers' transactions ([Delivery], [Advance]), not of these operations. *)
From S2P Require Import Prelude CString Libc.

(** ** Rows *)

Inductive SState :=
  | Idle | LlmRunning | ToolRunning | Compacting | RateLimited | AwaitingApproval | UnknownState.
#[export] Instance SState_eq_dec : EqDecision SState.
Proof. solve_decision. Defined.

Definition ROLE_SYSTEM : Z := 0.
Definition ROLE_USER : Z := 1.
Definition ROLE_ASSISTANT : Z := 2.
Definition ROLE_TOOL : Z := 3.
Definition ROLE_COMPACTION : Z := 4.

Definition STOP_REASON_LENGTH : Z := 2.
Definition STOP_REASON_TOOL_USE : Z := 3.
Definition STOP_REASON_ERROR : Z := 4.

(** A session; [x_hold] is the quiesce lease of its agent. *)
Record XSession := mk_xsession {
  x_id : Z; x_agent : option cstring; x_state : SState; x_iter : Z; x_leaf : Z; x_parent : Z;
  x_channel : option cstring; x_chat : option cstring; x_owner : option cstring; x_hold : Z
}.

Inductive EType :=
  | TUser | TAssistant | TToolCall | TToolResult | TReasoning | TSystem | TCompaction | TOther.
#[export] Instance EType_eq_dec : EqDecision EType.
Proof. solve_decision. Defined.

(** An entry; [e_source] and [e_note] are the keys of its [data] object. *)
Record Entry := mk_entry {
  e_id : Z; e_session : Z; e_parent : Z; e_turn : Z; e_iter : option Z; e_type : EType; e_role : Z;
  e_content : option cstring; e_call : option cstring; e_tool : option cstring; e_is_error : bool;
  e_stop : Z; e_source : option cstring; e_note : option cstring
}.

Record Inbox := mk_in {
  q_id : Z; q_session : Z; q_source : cstring; q_ref : option cstring; q_payload : cstring;
  q_consumed : bool; q_created : Z
}.

Inductive CallStatus := CallPending | CallRunning | CallBackground | CallDone.
#[export] Instance CallStatus_eq_dec : EqDecision CallStatus.
Proof. solve_decision. Defined.

Record ToolCallRow := mk_call {
  c_id : Z; c_session : Z; c_entry : Z; c_call : cstring; c_name : cstring; c_status : CallStatus;
  c_result : option Z; c_resolved_by : option cstring
}.

Inductive EdgeKind := KParent | KChannel | KSession | KToolCall.
Inductive Policy := PIteration | PDigest | PTurn | PQuiescent | PExplicit.
#[export] Instance EdgeKind_eq_dec : EqDecision EdgeKind.
Proof. solve_decision. Defined.
#[export] Instance Policy_eq_dec : EqDecision Policy.
Proof. solve_decision. Defined.

Record DeliveryEdge := mk_edge {
  d_id : Z; d_session : Z; d_kind : EdgeKind; d_ref : cstring; d_policy : Policy; d_cursor : Z;
  d_one_shot : bool
}.

Record OutboxRow := mk_out { o_channel : cstring; o_session : Z; o_chat : cstring; o_text : cstring; o_created : Z }.

(** A registered instance. *)
Record ProcessRow := mk_process { pr_id : cstring; pr_pid : Z; pr_heartbeat : Z }.

(** A parked request; [a_resolve] says how a decision acts on it ('rerun' the frozen
    call, or 'apply' its document). *)
Inductive ApprovalState := ApPending | ApApproved | ApDenied | ApConsumed.
#[export] Instance ApprovalState_eq_dec : EqDecision ApprovalState.
Proof. solve_decision. Defined.

Record ApprovalRow := mk_approval {
  a_id : Z; a_session : Z; a_call : option cstring; a_tool : option cstring; a_reason : option cstring;
  a_args : option cstring; a_resolve : cstring; a_state : ApprovalState; a_via : option cstring;
  a_requested : Z; a_expires : option Z
}.

(** [t_woken] is what [wake_session] was told; it is not a table. *)
Record Store := mk_store {
  t_now : Z;
  t_sessions : list XSession; t_entries : list Entry; t_next_entry : Z;
  t_inbox : list Inbox; t_next_inbox : Z;
  t_calls : list ToolCallRow; t_edges : list DeliveryEdge; t_next_edge : Z;
  t_outbox : list OutboxRow; t_llm_jobs : list (Z * Z);   (* session, job_type *)
  t_routes : list (cstring * cstring * cstring);          (* channel, chat, delivery_mode *)
  t_ingest_only : list cstring;                           (* channels without an outbox handler *)
  t_woken : list Z; t_processes : list ProcessRow; t_approvals : list ApprovalRow
}.

Definition with_sessions (ss : list XSession) (t : Store) : Store :=
  mk_store (t_now t) ss (t_entries t) (t_next_entry t) (t_inbox t) (t_next_inbox t) (t_calls t) (t_edges t)
    (t_next_edge t) (t_outbox t) (t_llm_jobs t) (t_routes t) (t_ingest_only t) (t_woken t)
    (t_processes t) (t_approvals t).
Definition with_entries (es : list Entry) (next : Z) (t : Store) : Store :=
  mk_store (t_now t) (t_sessions t) es next (t_inbox t) (t_next_inbox t) (t_calls t) (t_edges t)
    (t_next_edge t) (t_outbox t) (t_llm_jobs t) (t_routes t) (t_ingest_only t) (t_woken t)
    (t_processes t) (t_approvals t).
Definition with_inbox (q : list Inbox) (next : Z) (t : Store) : Store :=
  mk_store (t_now t) (t_sessions t) (t_entries t) (t_next_entry t) q next (t_calls t) (t_edges t)
    (t_next_edge t) (t_outbox t) (t_llm_jobs t) (t_routes t) (t_ingest_only t) (t_woken t)
    (t_processes t) (t_approvals t).
Definition with_calls (cs : list ToolCallRow) (t : Store) : Store :=
  mk_store (t_now t) (t_sessions t) (t_entries t) (t_next_entry t) (t_inbox t) (t_next_inbox t) cs (t_edges t)
    (t_next_edge t) (t_outbox t) (t_llm_jobs t) (t_routes t) (t_ingest_only t) (t_woken t)
    (t_processes t) (t_approvals t).
Definition with_edges (es : list DeliveryEdge) (next : Z) (t : Store) : Store :=
  mk_store (t_now t) (t_sessions t) (t_entries t) (t_next_entry t) (t_inbox t) (t_next_inbox t) (t_calls t) es
    next (t_outbox t) (t_llm_jobs t) (t_routes t) (t_ingest_only t) (t_woken t)
    (t_processes t) (t_approvals t).
Definition with_outbox (os : list OutboxRow) (t : Store) : Store :=
  mk_store (t_now t) (t_sessions t) (t_entries t) (t_next_entry t) (t_inbox t) (t_next_inbox t) (t_calls t)
    (t_edges t) (t_next_edge t) os (t_llm_jobs t) (t_routes t) (t_ingest_only t) (t_woken t)
    (t_processes t) (t_approvals t).
Definition with_jobs (js : list (Z * Z)) (t : Store) : Store :=
  mk_store (t_now t) (t_sessions t) (t_entries t) (t_next_entry t) (t_inbox t) (t_next_inbox t) (t_calls t)
    (t_edges t) (t_next_edge t) (t_outbox t) js (t_routes t) (t_ingest_only t) (t_woken t)
    (t_processes t) (t_approvals t).
Definition with_woken (w : list Z) (t : Store) : Store :=
  mk_store (t_now t) (t_sessions t) (t_entries t) (t_next_entry t) (t_inbox t) (t_next_inbox t) (t_calls t)
    (t_edges t) (t_next_edge t) (t_outbox t) (t_llm_jobs t) (t_routes t) (t_ingest_only t) w
    (t_processes t) (t_approvals t).

Definition with_processes (ps : list ProcessRow) (t : Store) : Store :=
  mk_store (t_now t) (t_sessions t) (t_entries t) (t_next_entry t) (t_inbox t) (t_next_inbox t) (t_calls t)
    (t_edges t) (t_next_edge t) (t_outbox t) (t_llm_jobs t) (t_routes t) (t_ingest_only t) (t_woken t)
    ps (t_approvals t).
Definition with_approvals (a : list ApprovalRow) (t : Store) : Store :=
  mk_store (t_now t) (t_sessions t) (t_entries t) (t_next_entry t) (t_inbox t) (t_next_inbox t) (t_calls t)
    (t_edges t) (t_next_edge t) (t_outbox t) (t_llm_jobs t) (t_routes t) (t_ingest_only t) (t_woken t)
    (t_processes t) a.

Definition wake (sid : Z) (t : Store) : Store := with_woken (t_woken t ++ [sid]) t.

(** ** Sessions *)
Definition get_session (t : Store) (sid : Z) : option XSession :=
  List.find (fun s => x_id s =? sid) (t_sessions t).

Definition update_session (sid : Z) (f : XSession -> XSession) (t : Store) : Store :=
  with_sessions (map (fun s => if x_id s =? sid then f s else s) (t_sessions t)) t.

Definition busy_state (s : SState) : bool :=
  match s with LlmRunning | ToolRunning | Compacting | RateLimited => true | _ => false end.

(** The guard of the state update: which states [new] may be entered from. *)
Definition may_enter (old new : SState) : bool :=
  match new with
  | LlmRunning | ToolRunning | Compacting | RateLimited =>
      match old with UnknownState => false | _ => true end
  | AwaitingApproval => match old with LlmRunning | ToolRunning => true | _ => false end
  | Idle => match old with
            | LlmRunning | ToolRunning | Compacting | RateLimited | AwaitingApproval => true
            | _ => false
            end
  | UnknownState => false
  end.

(** [g_owner_instance], bound as NULL when empty. *)
Definition owner_of (instance : cstring) : option cstring :=
  match instance with [] => None | _ => Some instance end.

Definition entered (instance : cstring) (new : SState) (s : XSession) : XSession :=
  mk_xsession (x_id s) (x_agent s) new (if decide (new = Idle) then 0 else x_iter s) (x_leaf s) (x_parent s)
    (x_channel s) (x_chat s) (if decide (new = Idle) then None else owner_of instance) (x_hold s).

(** Whether the row changed, and the store. *)
Definition session_set_state (instance : cstring) (t : Store) (sid : Z) (new : SState) : bool * Store :=
  match get_session t sid with
  | Some s =>
      if may_enter (x_state s) new then (true, update_session sid (entered instance new) t) else (false, t)
  | None => (false, t)
  end.

Definition with_iter (i : Z) (s : XSession) : XSession :=
  mk_xsession (x_id s) (x_agent s) (x_state s) i (x_leaf s) (x_parent s) (x_channel s) (x_chat s) (x_owner s) (x_hold s).
Definition with_leaf (l : Z) (s : XSession) : XSession :=
  mk_xsession (x_id s) (x_agent s) (x_state s) (x_iter s) l (x_parent s) (x_channel s) (x_chat s) (x_owner s) (x_hold s).

Definition session_set_iteration (t : Store) (sid i : Z) : Store := update_session sid (with_iter i) t.

Definition session_bump_iteration (t : Store) (sid : Z) : Z * Store :=
  match get_session t sid with
  | Some s => (x_iter s + 1, update_session sid (fun s => with_iter (x_iter s + 1) s) t)
  | None => (-1, t)
  end.

(** ** Entries *)
Definition get_entry (t : Store) (id : Z) : option Entry := List.find (fun e => e_id e =? id) (t_entries t).

Definition session_entries (t : Store) (sid : Z) : list Entry :=
  List.filter (fun e => e_session e =? sid) (t_entries t).

Definition max_of (l : list Z) : Z := fold_right Z.max 0 l.

(** The trigger [entries_turn_ai]: inherit the parent's turn unless a user entry
    follows a non-user one; otherwise mint the next turn of the session. *)
Definition turn_for (t : Store) (sid parent role : Z) : Z :=
  match get_entry t parent with
  | Some p =>
      if (role =? ROLE_USER) && negb (e_role p =? ROLE_USER)
      then max_of (map e_turn (session_entries t sid)) + 1 else e_turn p
  | None => max_of (map e_turn (session_entries t sid)) + 1
  end.

(** The insert with both triggers: the turn, and the leaf of the session unless
    the entry is a compaction. *)
Definition insert_entry (t : Store) (sid parent : Z) (iter : option Z) (ty : EType) (role : Z)
    (content call tool : option cstring) (is_error : bool) (stop : Z) (source note : option cstring)
    : Z * Store :=
  let id := t_next_entry t in
  let e := mk_entry id sid parent (turn_for t sid parent role) iter ty role content call tool is_error stop source note in
  let t := with_entries (t_entries t ++ [e]) (id + 1) t in
  (id, if decide (ty = TCompaction) then t else update_session sid (with_leaf id) t).

Definition leaf_of (t : Store) (sid : Z) : Z := match get_session t sid with Some s => x_leaf s | None => -1 end.

Definition next_iteration (t : Store) (sid : Z) : Z :=
  max_of (map (fun e => match e_iter e with Some i => i | None => 0 end) (session_entries t sid)) + 1.

(** [entry_append_with_iteration] of a tool result and of an assistant message;
    iteration 0 mints the next one. *)
Definition pick_iter (t : Store) (sid iteration : Z) : option Z :=
  Some (if 0 <? iteration then iteration else next_iteration t sid).

Definition append_tool_result (t : Store) (sid : Z) (call content tool : cstring) (is_error : bool)
    (iteration : Z) : Z * Store :=
  insert_entry t sid (leaf_of t sid) (pick_iter t sid iteration) TToolResult ROLE_TOOL (Some content)
    (Some call) (Some tool) is_error 0 None None.

Definition append_assistant (t : Store) (sid : Z) (content : option cstring) (stop iteration : Z) : Z * Store :=
  insert_entry t sid (leaf_of t sid) (pick_iter t sid iteration) TAssistant ROLE_ASSISTANT content
    None None false stop None None.

(** The result of a script fire: an assistant entry of no iteration. *)
Definition entry_append_cron_result (t : Store) (sid : Z) (content : option cstring) (is_error : bool) : Z * Store :=
  insert_entry t sid (leaf_of t sid) (Some 0) TOther ROLE_ASSISTANT content None None is_error 0
    (Some (bs "cron")) None.

(** A compaction: the summary hangs under the last kept entry and the first entry
    after it is re-parented to the summary; the leaf stays. *)
Definition with_parent (p : Z) (e : Entry) : Entry :=
  mk_entry (e_id e) (e_session e) p (e_turn e) (e_iter e) (e_type e) (e_role e) (e_content e) (e_call e)
    (e_tool e) (e_is_error e) (e_stop e) (e_source e) (e_note e).

Definition entry_compact (t : Store) (sid last_kept first_after : Z) (summary : cstring) : Z * Store :=
  let (id, t) := insert_entry t sid last_kept None TCompaction ROLE_COMPACTION (Some summary) None None false 0 None None in
  (id, with_entries (map (fun e => if (e_id e =? first_after) && (e_session e =? sid) then with_parent id e else e)
                       (t_entries t)) (t_next_entry t) t).

(** The newest assistant entry of the session, whose stop reason is the turn's. *)
Definition last_assistant (t : Store) (sid : Z) : option Entry :=
  last (List.filter (fun e => e_role e =? ROLE_ASSISTANT) (session_entries t sid)).

Definition session_stopped_with_error (t : Store) (sid : Z) : bool :=
  match last_assistant t sid with Some e => e_stop e =? STOP_REASON_ERROR | None => false end.

Definition session_final_truncated (t : Store) (sid : Z) : bool :=
  match last_assistant t sid with Some e => e_stop e =? STOP_REASON_LENGTH | None => false end.

(** Assistant prose that may be shown. *)
Definition shown (e : Entry) : bool :=
  (e_role e =? ROLE_ASSISTANT) &&
  match e_content e with Some (_ :: _) => true | _ => false end &&
  match e_type e with TToolCall | TReasoning => false | _ => true end.

Definition RESPONSE_TRUNCATED_NOTICE : cstring :=
  [10; 10] ++ bs "[truncated: response hit the model's max output length]".

(** The recursive walk of [get_response_text], from the leaf to the root, at most
    10001 entries: the first shown answer before a user entry. *)
Fixpoint response_walk (fuel : nat) (t : Store) (id : Z) : option cstring :=
  match fuel with
  | O => None
  | S fuel' =>
      match get_entry t id with
      | None => None
      | Some e =>
          if shown e then
            option_map (fun c => if e_stop e =? STOP_REASON_LENGTH then c ++ RESPONSE_TRUNCATED_NOTICE else c)
              (e_content e)
          else if e_role e =? ROLE_USER then None
          else response_walk fuel' t (e_parent e)
      end
  end.

Definition RESPONSE_WALK_MAX : Z := 10001.

Definition get_response_text (t : Store) (sid : Z) : option cstring :=
  match get_session t sid with
  | None => None
  | Some s =>
      if x_leaf s <? 0 then None
      else match get_entry t (x_leaf s) with
           | Some e => if e_session e =? sid then response_walk (Z.to_nat RESPONSE_WALK_MAX) t (x_leaf s) else None
           | None => None
           end
  end.

(** ** The inbox *)
Definition pending (t : Store) (sid : Z) : list Inbox :=
  List.filter (fun q => (q_session q =? sid) && negb (q_consumed q)) (t_inbox t).

Definition inbox_count (t : Store) (sid : Z) : Z := zlen (pending t sid).

Definition inbox_insert (t : Store) (sid : Z) (source : cstring) (ref : option cstring) (payload : cstring) : Store :=
  with_inbox (t_inbox t ++ [mk_in (t_next_inbox t) sid source ref payload false (t_now t)]) (t_next_inbox t + 1) t.

(** The provenance tag a drained row carries. *)
Definition tagged (q : Inbox) : cstring :=
  match q_ref q with
  | None => q_payload q
  | Some r =>
      if streq (q_source q) (bs "cron") then bs "[cron: " ++ r ++ bs "] " ++ q_payload q
      else if streq (q_source q) (bs "agent_result") then bs "[sub-agent session " ++ r ++ bs "] " ++ q_payload q
      else bs "[" ++ q_source q ++ bs " " ++ r ++ bs "] " ++ q_payload q
  end.

Definition mark_consumed (id : Z) (q : Inbox) : Inbox :=
  if q_id q =? id
  then mk_in (q_id q) (q_session q) (q_source q) (q_ref q) (q_payload q) true (q_created q) else q.

(** The drain: each row becomes a user entry under the one before. *)
Fixpoint drain_rows (t : Store) (sid parent : Z) (rows : list Inbox) : Z * Store :=
  match rows with
  | [] => (parent, t)
  | q :: rows' =>
      let (id, t) := insert_entry t sid parent None TUser ROLE_USER (Some (tagged q)) None None false 0
                       (Some (q_source q)) None in
      drain_rows (with_inbox (map (mark_consumed (q_id q)) (t_inbox t)) (t_next_inbox t) t) sid id rows'
  end.

(** The number consumed; -1 when the session is missing. *)
Definition inbox_consume_into_entries_locked (t : Store) (sid : Z) (limit : nat) : Z * Store :=
  match get_session t sid with
  | None => (-1, t)
  | Some s =>
      let rows := take limit (pending t sid) in
      let (leaf, t) := drain_rows t sid (x_leaf s) rows in
      (zlen rows, match rows with [] => t | _ => update_session sid (with_leaf leaf) t end)
  end.

(** ** Tool calls *)
Definition open_status (s : CallStatus) : bool := match s with CallPending | CallRunning => true | _ => false end.

Definition is_call (sid : Z) (call : cstring) (c : ToolCallRow) : bool :=
  (c_session c =? sid) && streq (c_call c) call.

Definition update_calls (sid : Z) (call : cstring) (f : ToolCallRow -> ToolCallRow) (t : Store) : Store :=
  with_calls (map (fun c => if is_call sid call c then f c else c) (t_calls t)) t.

Definition set_status (st : CallStatus) (by_ : option cstring) (c : ToolCallRow) : ToolCallRow :=
  mk_call (c_id c) (c_session c) (c_entry c) (c_call c) (c_name c) st (c_result c)
    (match by_ with Some _ => by_ | None => c_resolved_by c end).

Definition db_tool_call_set_status (t : Store) (sid : Z) (call : cstring) (st : CallStatus)
    (by_ : option cstring) : bool * Store :=
  (existsb (is_call sid call) (t_calls t), update_calls sid call (set_status st by_) t).

(** The compare-and-swap of a dispatch, and its undo. *)
Definition db_tool_call_claim (t : Store) (sid : Z) (call : cstring) : bool * Store :=
  (existsb (fun c => is_call sid call c && bool_decide (c_status c = CallPending)) (t_calls t),
   update_calls sid call (fun c => if decide (c_status c = CallPending) then set_status CallRunning None c else c) t).

Definition db_tool_call_unclaim (t : Store) (sid : Z) (call : cstring) : Store :=
  update_calls sid call (fun c => if decide (c_status c = CallRunning) then set_status CallPending None c else c) t.

Definition complete_call (result : Z) (c : ToolCallRow) : ToolCallRow :=
  mk_call (c_id c) (c_session c) (c_entry c) (c_call c) (c_name c) CallDone (Some result) (c_resolved_by c).

Definition db_tool_call_complete_by_call (t : Store) (sid : Z) (call : cstring) (result : Z) : bool * Store :=
  (existsb (is_call sid call) (t_calls t), update_calls sid call (complete_call result) t).

Definition db_tool_call_any_running (t : Store) (sid : Z) : bool :=
  existsb (fun c => (c_session c =? sid) && bool_decide (c_status c = CallRunning)) (t_calls t).

Definition db_tool_call_get_pending (t : Store) (sid : Z) : list ToolCallRow :=
  List.filter (fun c => (c_session c =? sid) && bool_decide (c_status c = CallPending) &&
                        match get_entry t (c_entry c) with Some _ => true | None => false end) (t_calls t).

Definition child_of (t : Store) (parent child : Z) : bool :=
  existsb (fun s => (x_id s =? child) && (x_parent s =? parent)) (t_sessions t).

Definition drop_oneshot_edges_for_call (t : Store) (caller : Z) (call : cstring) : Store :=
  with_edges (List.filter (fun d => negb (d_one_shot d && bool_decide (d_kind d = KToolCall) &&
                                           streq (d_ref d) call && child_of t caller (d_session d)))
                (t_edges t)) (t_next_edge t) t.

(** [db_reconcile_stale_calls]: close every open call of an idle session, unless
    its leaf is a user entry. *)
Definition SUPERSEDED : cstring :=
  bs "error: superseded " ++ EM_DASH ++ bs " this call was never answered before its turn ended; a new turn has started".

Definition stale_calls (t : Store) (sid : Z) : list (cstring * cstring * Z) :=
  map (fun c => (c_call c, c_name c,
                 match get_entry t (c_entry c) with
                 | Some e => match e_iter e with Some i => i | None => 0 end
                 | None => 0
                 end))
    (List.filter (fun c => (c_session c =? sid) && open_status (c_status c)) (t_calls t)).

Fixpoint close_calls (t : Store) (sid : Z) (rows : list (cstring * cstring * Z)) : Store :=
  match rows with
  | [] => t
  | (call, name, it) :: rows' =>
      let (_, t) := append_tool_result t sid call SUPERSEDED name true it in
      let (_, t) := db_tool_call_set_status t sid call CallDone (Some (bs "stale:turn-start")) in
      close_calls (drop_oneshot_edges_for_call t sid call) sid rows'
  end.

Definition leaf_role (t : Store) (sid : Z) (dflt : Z) : Z :=
  match get_entry t (leaf_of t sid) with
  | Some e => if e_session e =? sid then e_role e else dflt
  | None => dflt
  end.

Definition db_reconcile_stale_calls (t : Store) (sid : Z) : Z * Store :=
  if leaf_role t sid (-1) =? ROLE_USER then (0, t)
  else let rows := stale_calls t sid in (zlen rows, close_calls t sid rows).

(** ** Jobs, quiescence *)
Definition job_in_flight (t : Store) (sid ty : Z) : bool :=
  existsb (fun j => (fst j =? sid) && (snd j =? ty)) (t_llm_jobs t).

(** Sessions other than [sid] with a worker or a running tool child. *)
Definition session_count_resource_holders (t : Store) (sid : Z) : Z :=
  zlen (remove_dups
    (List.filter (fun s => negb (s =? sid)) (map fst t.(t_llm_jobs)) ++
     map c_session (List.filter (fun c => bool_decide (c_status c = CallRunning) &&
                                          negb (streq (c_name c) (bs "launch_agent")) &&
                                          negb (c_session c =? sid)) (t_calls t)))).

(** The sessions under [sid]: [n] rounds of children not yet in. *)
Fixpoint subtree (n : nat) (t : Store) (ids : list Z) : list Z :=
  match n with
  | O => ids
  | S n' =>
      subtree n' t (ids ++ map x_id (List.filter (fun s => bool_decide (x_parent s ∈ ids) &&
                                                           negb (bool_decide (x_id s ∈ ids))) (t_sessions t)))
  end.

Definition session_subtree_quiescent (t : Store) (sid : Z) : bool :=
  let sub := subtree (length (t_sessions t)) t [sid] in
  negb (existsb (fun s => bool_decide (x_id s ∈ sub) && negb (bool_decide (x_state s = Idle))) (t_sessions t)) &&
  negb (existsb (fun q => bool_decide (q_session q ∈ sub) && negb (q_consumed q)) (t_inbox t)) &&
  negb (existsb (fun j => bool_decide (fst j ∈ sub)) (t_llm_jobs t)) &&
  negb (existsb (fun c => bool_decide (c_session c ∈ sub) && open_status (c_status c)) (t_calls t)).

(** ** Delivery edges *)
Definition parse_policy (p : cstring) : option Policy :=
  if streq p (bs "iteration") then Some PIteration
  else if streq p (bs "digest") then Some PDigest
  else if streq p (bs "turn") then Some PTurn
  else if streq p (bs "quiescent") then Some PQuiescent
  else if streq p (bs "explicit") then Some PExplicit
  else None.

Definition delivery_policy_valid (p : option cstring) : bool :=
  match p with Some s => match parse_policy s with Some _ => true | None => false end | None => false end.

(** [INSERT OR IGNORE] under the unique key (session, kind, reference). *)
Definition delivery_edge_create (t : Store) (sid : Z) (kind : EdgeKind) (ref : cstring) (policy : Policy)
    (one_shot : bool) : Store :=
  if existsb (fun d => (d_session d =? sid) && bool_decide (d_kind d = kind) && streq (d_ref d) ref) (t_edges t)
  then t
  else with_edges (t_edges t ++ [mk_edge (t_next_edge t) sid kind ref policy 0 one_shot]) (t_next_edge t + 1) t.

(** The policy a child inherits: its launcher's parent edge, else its channel
    edge, else the configured default, else 'quiescent'. *)
Definition delivery_policy_resolve (t : Store) (agent_delivery_default : option cstring) (sid : Z) : Policy :=
  let standing k := List.find (fun d => (d_session d =? sid) && negb (d_one_shot d) && bool_decide (d_kind d = k) &&
                                        negb (bool_decide (d_policy d = PExplicit))) (t_edges t) in
  match standing KParent with
  | Some d => d_policy d
  | None =>
      match standing KChannel with
      | Some d => d_policy d
      | None => match agent_delivery_default with
                | Some p => default PQuiescent (parse_policy p)
                | None => PQuiescent
                end
      end
  end.

(** * Lemmas *)

(** ** Sessions *)

Lemma get_session_id t sid s : get_session t sid = Some s -> x_id s = sid.
Proof. intros [_ E]%List.find_some. lia. Qed.

Lemma find_map_same {A} (p : A -> bool) (f : A -> A) l :
  (forall x, p (f x) = p x) -> List.find p (map f l) = option_map f (List.find p l).
Proof. intros Hp. induction l as [|x l IH]; [done|]. simpl. rewrite Hp. by destruct (p x). Qed.

Lemma find_ext {A} (p q : A -> bool) l : (forall x, p x = q x) -> List.find p l = List.find q l.
Proof. intros H. induction l as [|x l IH]; [done|]. simpl. by rewrite H, IH. Qed.

(** A row update that keeps the id acts on that session and on no other. *)
Lemma get_session_update t sid f i :
  (forall s, x_id (f s) = x_id s) ->
  get_session (update_session sid f t) i = if i =? sid then option_map f (get_session t i) else get_session t i.
Proof.
  intros Hf. unfold get_session, update_session. cbn [t_sessions with_sessions].
  rewrite find_map_same by (intros s; destruct (x_id s =? sid); [by rewrite Hf|done]).
  destruct (List.find _ _) as [s|] eqn:E; [|by case_if].
  apply List.find_some in E as [_ E]. cbn [option_map].
  destruct (i =? sid) eqn:Ei, (x_id s =? sid) eqn:Es; try lia; done.
Qed.

Lemma set_state_get t inst sid new i :
  get_session (snd (session_set_state inst t sid new)) i =
  match get_session t i with
  | Some s => Some (if (i =? sid) && may_enter (x_state s) new then entered inst new s else s)
  | None => None
  end.
Proof.
  unfold session_set_state. destruct (get_session t sid) as [s|] eqn:E.
  - destruct (may_enter (x_state s) new) eqn:Em; cbn [snd].
    + rewrite get_session_update by done. destruct (i =? sid) eqn:Ei.
      * assert (i = sid) as -> by lia. rewrite E. cbn. by rewrite Em.
      * by destruct (get_session t i).
    + destruct (i =? sid) eqn:Ei; [|by destruct (get_session t i)].
      assert (i = sid) as -> by lia. rewrite E. by rewrite Em.
  - cbn [snd]. destruct (i =? sid) eqn:Ei; [|by destruct (get_session t i)].
    assert (i = sid) as -> by lia. by rewrite E.
Qed.

(** The fields an operation on sessions keeps. *)
Definition same_but_sessions (t t' : Store) : Prop := t' = with_sessions (t_sessions t') t.

Lemma same_but_sessions_refl t : same_but_sessions t t.
Proof. by destruct t. Qed.

Lemma same_but_sessions_trans t1 t2 t3 :
  same_but_sessions t1 t2 -> same_but_sessions t2 t3 -> same_but_sessions t1 t3.
Proof. unfold same_but_sessions. intros -> ->. done. Qed.

Lemma update_session_same sid f t : same_but_sessions t (update_session sid f t).
Proof. done. Qed.

Lemma set_state_same inst t sid new : same_but_sessions t (snd (session_set_state inst t sid new)).
Proof.
  unfold session_set_state. destruct (get_session t sid); [destruct (may_enter _ _)|];
    done || apply same_but_sessions_refl.
Qed.

#[export] Hint Resolve same_but_sessions_refl update_session_same set_state_same : cclaw.

(** ** Entries *)

Lemma max_of_ge l x : x ∈ l -> x <= max_of l.
Proof.
  unfold max_of. induction l as [|y l IH]; [by intros ?%elem_of_nil|].
  intros [->|Hx]%elem_of_cons; simpl; [lia|]. specialize (IH Hx). lia.
Qed.

Lemma get_entry_in t i e : get_entry t i = Some e -> e ∈ t_entries t /\ e_id e = i.
Proof. intros [H E]%List.find_some. split; [by apply list_elem_of_In|lia]. Qed.

Lemma insert_entry_entries t sid parent it ty role c call tool err stop src note :
  t_entries (snd (insert_entry t sid parent it ty role c call tool err stop src note)) =
  t_entries t ++ [mk_entry (t_next_entry t) sid parent (turn_for t sid parent role) it ty role c call tool err stop src note].
Proof. unfold insert_entry. by case_decide. Qed.

Lemma insert_entry_get t sid parent it ty role c call tool err stop src note i :
  get_session (snd (insert_entry t sid parent it ty role c call tool err stop src note)) i =
  match get_session t i with
  | Some s => Some (if (i =? sid) && negb (bool_decide (ty = TCompaction)) then with_leaf (t_next_entry t) s else s)
  | None => None
  end.
Proof.
  unfold insert_entry. case_decide as Ht; cbn [snd].
  - rewrite bool_decide_true by done. cbn [negb]. rewrite andb_false_r.
    unfold get_session. cbn [t_sessions with_entries]. by destruct (List.find _ _).
  - rewrite get_session_update by done. rewrite bool_decide_false by done. cbn [negb]. rewrite andb_true_r.
    change (get_session (with_entries _ _ t) i) with (get_session t i).
    by destruct (i =? sid), (get_session t i).
Qed.

(** An append keeps everything but entries and sessions. *)
Lemma insert_entry_rest t sid parent it ty role c call tool err stop src note :
  let t' := snd (insert_entry t sid parent it ty role c call tool err stop src note) in
  t_edges t' = t_edges t /\ t_next_edge t' = t_next_edge t /\ t_inbox t' = t_inbox t /\ t_calls t' = t_calls t /\
  t_outbox t' = t_outbox t /\ t_llm_jobs t' = t_llm_jobs t /\ t_next_entry t' = t_next_entry t + 1 /\
  t_routes t' = t_routes t /\ t_ingest_only t' = t_ingest_only t /\ t_next_inbox t' = t_next_inbox t /\
  t_now t' = t_now t /\ t_woken t' = t_woken t.
Proof. unfold insert_entry. by case_decide. Qed.

(** ** Quiescence *)

Lemma subtree_sessions t t' : t_sessions t' = t_sessions t -> forall n ids, subtree n t' ids = subtree n t ids.
Proof. intros E. induction n as [|n IH]; intros ids; cbn [subtree]; [done|]. by rewrite IH, E. Qed.

Lemma quiescent_edges t es n sid : session_subtree_quiescent (with_edges es n t) sid = session_subtree_quiescent t sid.
Proof. unfold session_subtree_quiescent. by rewrite (subtree_sessions t) by done. Qed.
