(* ===== verification/Delivery.v ===== *)
(** * Edge delivery: src/advance.c, lines 97 to 737

    A session's outbound edges are evaluated at its turn boundaries, inside one
    transaction: the blocking reply edge first, then the standing edges to the
    parent and to the chat.  The cursor of an edge, stamped in that transaction, is
    the only delivery state.  A transaction takes two outcomes of SQLite, whether
    BEGIN and whether COMMIT succeeded; a failed COMMIT is rolled back. *)
From S2P Require Import Prelude CString Libc Ingest Store.

Definition EDGE_MAX : nat := 8.
Definition SWEEP_MAX : nat := 64.

(** ** Loading and stamping edges *)

Definition load_ref (d : DeliveryEdge) : DeliveryEdge :=
  mk_edge (d_id d) (d_session d) (d_kind d) (snprintf 192 (d_ref d)) (d_policy d) (d_cursor d) (d_one_shot d).

Definition edges_load (t : Store) (sid : Z) : list DeliveryEdge :=
  let mine := List.filter (fun d => d_session d =? sid) (t_edges t) in
  map load_ref (take EDGE_MAX (List.filter d_one_shot mine ++ List.filter (fun d => negb (d_one_shot d)) mine)).

Definition with_cursor (c : Z) (d : DeliveryEdge) : DeliveryEdge :=
  mk_edge (d_id d) (d_session d) (d_kind d) (d_ref d) (d_policy d) c (d_one_shot d).

Definition edge_cursor_set (t : Store) (id c : Z) : Store :=
  with_edges (map (fun d => if d_id d =? id then with_cursor c d else d) (t_edges t)) (t_next_edge t) t.

(** ** What a session has said *)

Definition SEP : cstring := [10; 10] ++ bs "---" ++ [10; 10].

(** The assistant prose after [cursor], oldest first. *)
Definition prose_since (t : Store) (sid cursor : Z) : list Entry :=
  List.filter (fun e => (cursor <? e_id e) && shown e) (session_entries t sid).

Definition text_of (e : Entry) : cstring := default [] (e_content e).

Fixpoint join (l : list cstring) : cstring :=
  match l with
  | [] => []
  | [x] => x
  | x :: l' => x ++ SEP ++ join l'
  end.

Definition digest_since (t : Store) (sid cursor : Z) : option cstring :=
  match prose_since t sid cursor with
  | [] => None
  | l => Some (join (map text_of l))
  end.

Definition no_response_text (t : Store) (sid : Z) (is_error : bool) : cstring :=
  if is_error then bs "error: sub-agent terminated abnormally"
  else if session_final_truncated t sid then
    bs "(no response: the model hit its output cap before emitting any visible text " ++ EM_DASH ++
    bs " the tokens went to reasoning. Retrying the same way will likely repeat this; simplify the task or raise max_tokens.)"
  else bs "(no response)".

(** The per-session row an evaluation starts from. *)
Record EdgeSessionRow := mk_esr { r_leaf : Z; r_parent : Z; r_channel : cstring; r_chat : cstring }.

Definition edge_session_row (t : Store) (sid : Z) : option EdgeSessionRow :=
  option_map (fun s => mk_esr (x_leaf s) (x_parent s) (snprintf 64 (default [] (x_channel s)))
                              (snprintf 64 (default [] (x_chat s)))) (get_session t sid).

Definition chat_or_0 (chat : cstring) : cstring := match chat with [] => bs "0" | _ => chat end.

(** The chat's edge, made at the first boundary under the policy of its route. *)
Definition channel_edge_ensure (t : Store) (sid : Z) (sr : EdgeSessionRow) : Store :=
  match r_channel sr with
  | [] => t
  | ch =>
      let tmpl := List.find (fun '(c, chat, _) => streq c ch && streq chat (chat_or_0 (r_chat sr))) (t_routes t) in
      let policy := match tmpl with
                    | Some (_, _, m) => default PQuiescent (parse_policy m)
                    | None => PQuiescent
                    end in
      delivery_edge_create t sid KChannel ch policy false
  end.

(** ** The pushes *)
Section Deliver.
Context `{Ingest} (instance : cstring).

Definition parent_push (t : Store) (parent child : Z) (label text : cstring) : Store :=
  inbox_insert t parent (bs "agent_result") (Some (print_int child))
    (bs "Sub-agent " ++ label ++ bs ": " ++ scrub text).

Definition machine_source (s : cstring) : bool :=
  existsb (streq s) [bs "cron"; bs "cron_error"; bs "system"; bs "approval"; bs "agent_result"].

(** An error identical to the newest row to this chat, with no human message
    since. *)
Definition duplicate_error (t : Store) (channel : cstring) (sid : Z) (text : cstring) : bool :=
  starts_with (bs "error: ") text &&
  match last (List.filter (fun o => streq (o_channel o) channel && (o_session o =? sid)) (t_outbox t)) with
  | Some o =>
      streq (o_text o) text &&
      negb (existsb (fun q => (q_session q =? sid) && (o_created o <=? q_created q) &&
                              negb (machine_source (q_source q))) (t_inbox t))
  | None => false
  end.

Definition channel_push (t : Store) (channel : cstring) (sid : Z) (chat text : cstring) : Store :=
  if duplicate_error t channel sid text then t
  else with_outbox (t_outbox t ++ [mk_out channel sid (chat_or_0 chat) text (t_now t)]) t.

(** The blocking reply: answer the parent's open call, unpark the parent unless it
    awaits an approval or compacts, and drop the edge.  Returns the parent to wake,
    or 0. *)
Definition call_open (t : Store) (sid : Z) (call : cstring) : bool :=
  match List.find (is_call sid call) (t_calls t) with
  | Some c => open_status (c_status c)
  | None => false
  end.

Definition unpark (t : Store) (parent : Z) : Store :=
  match get_session t parent with
  | Some s => match x_state s with
              | AwaitingApproval | Compacting => t
              | _ => snd (session_set_state instance t parent ToolRunning)
              end
  | None => t
  end.

Definition oneshot_resolve (t : Store) (child parent : Z) (call text : cstring) (is_error : bool) : Z * Store :=
  let (woken, t) :=
    if call_open t parent call && (0 <? parent) then
      let stored := spill parent call (scrub text) in
      let (rid, t) := append_tool_result t parent call stored (bs "launch_agent") is_error 0 in
      let (_, t) := db_tool_call_complete_by_call t parent call rid in
      (parent, unpark t parent)
    else (0, t) in
  (woken, with_edges (List.filter (fun d => negb ((d_session d =? child) && bool_decide (d_kind d = KToolCall) &&
                                                  streq (d_ref d) call)) (t_edges t)) (t_next_edge t) t).

(** One push of an edge, toward the parent or the chat. *)
Definition push (t : Store) (sid : Z) (e : DeliveryEdge) (sr : EdgeSessionRow) (label text : cstring) : Store :=
  match d_kind e with
  | KParent => parent_push t (r_parent sr) sid label text
  | KChannel => channel_push t (d_ref e) sid (r_chat sr) text
  | _ => t
  end.

(** Push the rows one by one; the last under the final label, if there is one. *)
Fixpoint push_rows (t : Store) (sid : Z) (e : DeliveryEdge) (sr : EdgeSessionRow)
    (final_label : option cstring) (rows : list Entry) : Store :=
  match rows with
  | [] => t
  | r :: rows' =>
      let label := match rows', final_label with [], Some l => l | _, _ => bs "update" end in
      push_rows (push t sid e sr label (text_of r)) sid e sr final_label rows'
  end.

(** The count, the newest pushed entry if any, and the store. *)
Definition iteration_push_since (t : Store) (sid : Z) (e : DeliveryEdge) (sr : EdgeSessionRow)
    (final_label : option cstring) : Z * option Z * Store :=
  let rows := prose_since t sid (d_cursor e) in
  (zlen rows, option_map e_id (last rows), push_rows t sid e sr final_label rows).

(** ** One edge at a boundary *)

(** The store, the payloads shipped and the parent to wake, so far. *)
Record Progress := mk_prog { p_store : Store; p_shipped : Z; p_wake : Z }.

Definition put (p : Progress) (t : Store) : Progress := mk_prog t (p_shipped p) (p_wake p).

(** What the boundary evaluates against. *)
Record Boundary := mk_bnd {
  b_sid : Z; b_row : EdgeSessionRow; b_error : bool; b_channel : bool; b_quiet : bool; b_label : cstring
}.

Definition held (b : Boundary) (e : DeliveryEdge) : bool :=
  negb (b_error b) && bool_decide (d_policy e = PQuiescent) && negb (b_quiet b).

Definition is_parent (e : DeliveryEdge) : bool := bool_decide (d_kind e = KParent).
Definition is_channel (e : DeliveryEdge) : bool := bool_decide (d_kind e = KChannel).

(** The standing parent edges a fired one-shot settles. *)
Definition settled_by_one_shot (leaf : Z) (e : DeliveryEdge) : bool :=
  negb (d_one_shot e) && is_parent e && (d_cursor e <? leaf).

Definition one_shot_text (t : Store) (b : Boundary) (e : DeliveryEdge) : cstring :=
  match (if decide (d_policy e = PDigest) then digest_since t (b_sid b) (d_cursor e)
         else get_response_text t (b_sid b)) with
  | Some text => text
  | None => no_response_text t (b_sid b) (b_error b)
  end.

(** The edges after [e] in the loaded array, whose cursors a fired one-shot
    advances; the one-shots come first in it. *)
Definition deliver_one_shot (b : Boundary) (e : DeliveryEdge) (rest : list DeliveryEdge) (p : Progress)
    : list DeliveryEdge * Progress :=
  let leaf := r_leaf (b_row b) in
  let (w, t) := oneshot_resolve (p_store p) (b_sid b) (r_parent (b_row b)) (d_ref e)
                  (one_shot_text (p_store p) b e) (b_error b) in
  if 0 <? w then
    (map (fun d => if settled_by_one_shot leaf d then with_cursor leaf d else d) rest,
     mk_prog (fold_left (fun t d => if settled_by_one_shot leaf d then edge_cursor_set t (d_id d) leaf else t) rest t)
       (p_shipped p + 1) w)
  else (rest, put p t).

Definition ingest_only (t : Store) (channel : cstring) : bool := existsb (streq channel) (t_ingest_only t).

(** The payload of a digest, turn or quiescent edge. *)
Definition standing_text (t : Store) (b : Boundary) (e : DeliveryEdge) : option cstring :=
  match d_policy e with
  | PDigest => digest_since t (b_sid b) (d_cursor e)
  | _ => match get_response_text t (b_sid b) with
         | Some text => Some text
         | None => if is_parent e then Some (no_response_text t (b_sid b) (b_error b)) else None
         end
  end.

Definition push_standing (t : Store) (b : Boundary) (e : DeliveryEdge) : Z * Store :=
  match d_policy e with
  | PIteration =>
      let '(n, _, t) := iteration_push_since t (b_sid b) e (b_row b)
                          (if is_parent e then Some (b_label b) else None) in (n, t)
  | _ => match standing_text t b e with
         | Some text => (1, push t (b_sid b) e (b_row b) (b_label b) text)
         | None => (0, t)
         end
  end.

Definition deliver_standing (b : Boundary) (e : DeliveryEdge) (p : Progress) : Progress :=
  let t := p_store p in
  let leaf := r_leaf (b_row b) in
  let stamp t := edge_cursor_set t (d_id e) leaf in
  if leaf <=? d_cursor e then p
  else if negb (is_parent e) && negb (is_channel e) then p
  else if is_parent e && (r_parent (b_row b) <=? 0) then p
  else if is_channel e && negb (b_channel b) then put p (stamp t)
  else if is_channel e && ingest_only t (d_ref e) then put p (stamp t)
  else if held b e then p
  else
    let (pushed, t) := push_standing t b e in
    mk_prog (stamp t) (p_shipped p + pushed)
      (if (0 <? pushed) && is_parent e then r_parent (b_row b) else p_wake p).

Definition deliver_edge (b : Boundary) (e : DeliveryEdge) (rest : list DeliveryEdge) (p : Progress)
    : list DeliveryEdge * Progress :=
  if decide (d_policy e = PExplicit) then (rest, p)
  else if d_one_shot e && bool_decide (d_kind e = KToolCall) then
    if held b e then (rest, p) else deliver_one_shot b e rest p
  else if d_one_shot e then (rest, p)
  else (rest, deliver_standing b e p).

Fixpoint deliver_edges (n : nat) (b : Boundary) (edges : list DeliveryEdge) (p : Progress) : Progress :=
  match n, edges with
  | S n', e :: rest => let (rest, p) := deliver_edge b e rest p in deliver_edges n' b rest p
  | _, _ => p
  end.

(** The label of every push, from the state of the session. *)
Definition outcome_label (t : Store) (sid : Z) (is_error quiet : bool) : cstring :=
  if negb is_error && session_final_truncated t sid then bs "truncated"
  else if is_error then bs "failed"
  else if quiet then bs "completed" else bs "update".

Definition has_outbound (t : Store) (sid : Z) : bool :=
  existsb (fun d => d_session d =? sid) (t_edges t) ||
  existsb (fun s => (x_id s =? sid) && match x_channel s with Some _ => true | None => false end) (t_sessions t).

Definition boundary_of (t : Store) (sid : Z) (sr : EdgeSessionRow) (is_error include_channel : bool) : Boundary :=
  let q := session_subtree_quiescent t sid in
  mk_bnd sid sr is_error include_channel q (outcome_label t sid is_error q).

(** The payloads shipped, or -1 when the transaction failed. *)
Definition advance_deliver_boundary (begin_ok commit_ok : bool) (t : Store) (sid : Z)
    (is_error include_channel : bool) : Z * Store :=
  if negb (has_outbound t sid) then (0, t)
  else if negb begin_ok then (-1, t)
  else match edge_session_row t sid with
       | None => (0, t)
       | Some sr =>
           if r_leaf sr <=? 0 then (0, t)
           else
             let t1 := channel_edge_ensure t sid sr in
             match edges_load t1 sid with
             | [] => (0, if commit_ok then t1 else t)
             | edges =>
                 let p := deliver_edges (length edges) (boundary_of t1 sid sr is_error include_channel) edges
                            (mk_prog t1 0 0) in
                 if commit_ok
                 then (p_shipped p, if 0 <? p_wake p then wake (p_wake p) (p_store p) else p_store p)
                 else (-1, t)
             end
       end.

(** ** Mid-turn: the iteration edges *)

Fixpoint iterate_edges (sid : Z) (sr : EdgeSessionRow) (edges : list DeliveryEdge) (t : Store) (wake_parent : Z)
    : Store * Z :=
  match edges with
  | [] => (t, wake_parent)
  | e :: rest =>
      if d_one_shot e || negb (bool_decide (d_policy e = PIteration)) then iterate_edges sid sr rest t wake_parent
      else if is_parent e && (r_parent sr <=? 0) then iterate_edges sid sr rest t wake_parent
      else if negb (is_parent e) && negb (is_channel e) then iterate_edges sid sr rest t wake_parent
      else
        let '(n, last, t) := iteration_push_since t sid e sr None in
        if 0 <? n then
          iterate_edges sid sr rest (edge_cursor_set t (d_id e) (default (d_cursor e) last))
            (if is_parent e then r_parent sr else wake_parent)
        else iterate_edges sid sr rest t wake_parent
  end.

Definition advance_deliver_iteration (begin_ok commit_ok : bool) (t : Store) (sid : Z) : Store :=
  if negb (existsb (fun d => (d_session d =? sid) && bool_decide (d_policy d = PIteration) && negb (d_one_shot d))
             (t_edges t)) then t
  else match edge_session_row t sid with
       | None => t
       | Some sr =>
           if negb begin_ok then t
           else
             let (t', w) := iterate_edges sid sr (edges_load t sid) t 0 in
             if negb commit_ok then t else if 0 <? w then wake w t' else t'
       end.

(** ** The sweep *)

(** An idle session with an assistant leaf that some edge is behind. *)
Definition owed (t : Store) (s : XSession) : bool :=
  bool_decide (x_state s = Idle) &&
  existsb (fun d => (d_session d =? x_id s) && negb (bool_decide (d_policy d = PExplicit)) &&
                    (d_cursor d <? x_leaf s)) (t_edges t) &&
  match get_entry t (x_leaf s) with
  | Some e => (e_session e =? x_id s) && (e_role e =? ROLE_ASSISTANT)
  | None => false
  end.

(** [order] is the order the statement, which names none, returns its rows in; [io]
    the outcomes of each session's transaction. *)
Definition sweep_ids (order : list Z -> list Z) (t : Store) : list Z :=
  take SWEEP_MAX (order (map x_id (List.filter (owed t) (t_sessions t)))).

Fixpoint sweep_loop (io : Z -> bool * bool) (ids : list Z) (t : Store) (delivered : Z) : Z * Store :=
  match ids with
  | [] => (delivered, t)
  | sid :: ids' =>
      let is_err := session_stopped_with_error t sid in
      let (rc, t) := advance_deliver_boundary (fst (io sid)) (snd (io sid)) t sid is_err (negb is_err) in
      sweep_loop io ids' t (if 0 <? rc then delivered + rc else delivered)
  end.

Definition advance_sweep_undelivered (order : list Z -> list Z) (io : Z -> bool * bool) (t : Store) : Z * Store :=
  sweep_loop io (sweep_ids order t) t 0.

End Deliver.

(** * Lemmas *)

Lemma snprintf_short n s : (length s < n)%nat -> snprintf n s = s.
Proof. intros H. apply take_ge. lia. Qed.

Lemma load_ref_short d : (length (d_ref d) < 192)%nat -> load_ref d = d.
Proof. intros H. unfold load_ref. rewrite snprintf_short by done. by destruct d. Qed.

Lemma with_cursor_twice c d : with_cursor c (with_cursor c d) = with_cursor c d.
Proof. done. Qed.

(** Rows of distinct ids. *)
Lemma NoDup_id_eq (l : list DeliveryEdge) d e :
  NoDup (map d_id l) -> d ∈ l -> e ∈ l -> d_id d = d_id e -> d = e.
Proof.
  induction l as [|x l IH]; [intros _ Hd; by apply elem_of_nil in Hd|]. cbn [map].
  rewrite NoDup_cons, !elem_of_cons. intros [Hx Hl] [-> |Hd] [-> |He] E; auto; exfalso; apply Hx;
    [rewrite E|rewrite <- E]; apply list_elem_of_fmap; eauto.
Qed.


(** Cursor stamps: the rows whose id is listed. *)
Definition stamp_ids (c : Z) (ids : list Z) (d : DeliveryEdge) : DeliveryEdge :=
  if bool_decide (d_id d ∈ ids) then with_cursor c d else d.

Lemma stamp_ids_id c ids l : map d_id (map (stamp_ids c ids) l) = map d_id l.
Proof. rewrite map_map. apply map_ext. intros d. unfold stamp_ids. by case_bool_decide. Qed.

Lemma edge_cursor_set_stamp t id c :
  edge_cursor_set t id c = with_edges (map (stamp_ids c [id]) (t_edges t)) (t_next_edge t) t.
Proof.
  unfold edge_cursor_set. f_equal. apply map_ext. intros d. unfold stamp_ids.
  case_bool_decide as E; rewrite list_elem_of_singleton in E; [by replace (_ =? _) with true by lia|].
  by replace (_ =? _) with false by lia.
Qed.

Lemma with_edges_id t : with_edges (t_edges t) (t_next_edge t) t = t.
Proof. by destruct t. Qed.

Lemma stamp_fold c (p : DeliveryEdge -> bool) l : forall t,
  fold_left (fun t d => if p d then edge_cursor_set t (d_id d) c else t) l t =
  with_edges (map (stamp_ids c (map d_id (List.filter p l))) (t_edges t)) (t_next_edge t) t.
Proof.
  induction l as [|e l IH]; intros t; cbn [fold_left List.filter].
  - replace (map _ _) with (t_edges t); [by rewrite with_edges_id|].
    symmetry. etransitivity; [|apply map_id]. apply map_ext. intros d. unfold stamp_ids.
    by rewrite bool_decide_false by (cbn; apply not_elem_of_nil).
  - rewrite IH. destruct (p e); [|done].
    rewrite edge_cursor_set_stamp. cbn [t_edges t_next_edge with_edges]. unfold with_edges at 1 3. cbn. f_equal.
    rewrite map_map. apply map_ext. intros d. unfold stamp_ids.
    destruct (decide (d_id d = d_id e)) as [E|E].
    + rewrite (bool_decide_true (d_id d ∈ [d_id e])) by (by apply list_elem_of_singleton).
      rewrite (bool_decide_true (d_id d ∈ d_id e :: _)) by (apply elem_of_cons; by left).
      by case_bool_decide.
    + rewrite (bool_decide_false (d_id d ∈ [d_id e])) by (by rewrite list_elem_of_singleton).
      rewrite (bool_decide_ext (d_id d ∈ d_id e :: _) (d_id d ∈ map d_id (List.filter p l)))
        by (rewrite elem_of_cons; tauto). done.
Qed.

(** A push adds to the inbox or the outbox and changes nothing else. *)
Definition only_pushes (t t' : Store) : Prop :=
  t' = with_outbox (t_outbox t') (with_inbox (t_inbox t') (t_next_inbox t') t).

Lemma only_pushes_refl t : only_pushes t t.
Proof. by destruct t. Qed.

Lemma only_pushes_trans t1 t2 t3 : only_pushes t1 t2 -> only_pushes t2 t3 -> only_pushes t1 t3.
Proof. unfold only_pushes. intros -> ->. done. Qed.

#[export] Hint Resolve only_pushes_refl : cclaw.

Section Pushes.
Context `{Ingest} (instance : cstring).

Lemma push_only t sid e sr label text : only_pushes t (push t sid e sr label text).
Proof.
  unfold push. destruct (d_kind e); auto with cclaw; [done|].
  unfold channel_push. destruct (duplicate_error _ _ _ _); auto with cclaw. done.
Qed.

Lemma push_rows_only sid e sr fl rows : forall t, only_pushes t (push_rows t sid e sr fl rows).
Proof.
  induction rows as [|r rows IH]; intros t; cbn [push_rows]; [auto with cclaw|].
  eapply only_pushes_trans; [apply push_only|apply IH].
Qed.

Lemma push_standing_only t b e : only_pushes t (snd (push_standing t b e)).
Proof.
  unfold push_standing.
  destruct (d_policy e); cbn [snd]; try (destruct (standing_text _ _ _); cbn [snd]; auto using push_only with cclaw).
  apply push_rows_only.
Qed.

Lemma only_pushes_edges t t' : only_pushes t t' -> t_edges t' = t_edges t /\ t_next_edge t' = t_next_edge t.
Proof. unfold only_pushes. by intros ->. Qed.

Lemma only_pushes_session t t' i : only_pushes t t' -> get_session t' i = get_session t i.
Proof. unfold only_pushes. by intros ->. Qed.

(** ** The blocking reply *)

Lemma oneshot_edges t child parent call text err :
  t_edges (snd (oneshot_resolve instance t child parent call text err)) =
  List.filter (fun d => negb ((d_session d =? child) && bool_decide (d_kind d = KToolCall) && streq (d_ref d) call))
    (t_edges t) /\
  t_next_edge (snd (oneshot_resolve instance t child parent call text err)) = t_next_edge t.
Proof.
  unfold oneshot_resolve. destruct (call_open t parent call && (0 <? parent)); [|done].
  unfold append_tool_result.
  destruct (insert_entry _ _ _ _ _ _ _ _ _ _ _ _ _) as [rid t1] eqn:E.
  pose proof (insert_entry_rest t parent (leaf_of t parent) (pick_iter t parent 0) TToolResult ROLE_TOOL
    (Some (spill parent call (scrub text))) (Some call) (Some (bs "launch_agent")) err 0 None None) as R.
  rewrite E in R. cbn [snd] in R. destruct R as (Re & Rn & _).
  cbn [snd t_edges t_next_edge with_edges].
  assert (Hu : forall t, t_edges (unpark instance t parent) = t_edges t /\ t_next_edge (unpark instance t parent) = t_next_edge t).
  { intros u. unfold unpark. destruct (get_session u parent) as [s|]; [|done].
    destruct (x_state s); try done; rewrite (set_state_same instance u parent ToolRunning); done. }
  destruct (Hu (snd (db_tool_call_complete_by_call t1 parent call rid))) as [H1 H2].
  unfold db_tool_call_complete_by_call in *. cbn [snd] in *. rewrite H1, H2.
  cbn [t_edges t_next_edge with_calls update_calls]. by rewrite Re, Rn.
Qed.

Lemma oneshot_session t child parent call text err i :
  i <> parent ->
  get_session (snd (oneshot_resolve instance t child parent call text err)) i = get_session t i.
Proof.
  intros Hi. unfold oneshot_resolve. destruct (call_open t parent call && (0 <? parent)); [|done].
  unfold append_tool_result.
  destruct (insert_entry _ _ _ _ _ _ _ _ _ _ _ _ _) as [rid t1] eqn:E.
  pose proof (insert_entry_get t parent (leaf_of t parent) (pick_iter t parent 0) TToolResult ROLE_TOOL
    (Some (spill parent call (scrub text))) (Some call) (Some (bs "launch_agent")) err 0 None None i) as R.
  rewrite E in R. cbn [snd] in R. unfold db_tool_call_complete_by_call. cbn [snd].
  set (t2 := update_calls _ _ _ _). change (get_session t1 i) with (get_session t2 i) in R.
  match goal with |- get_session ?x i = _ => change (get_session x i) with (get_session (unpark instance t2 parent) i) end.
  replace (get_session (unpark instance t2 parent) i) with (get_session t2 i).
  { rewrite R. replace (i =? parent) with false by lia. by destruct (get_session t i). }
  unfold unpark. destruct (get_session t2 parent) as [s|] eqn:Es; [|done].
  destruct (x_state s); try done; rewrite set_state_get; replace (i =? parent) with false by lia;
    by destruct (get_session t2 i).
Qed.

Lemma oneshot_woken t child parent call text err :
  fst (oneshot_resolve instance t child parent call text err) =
  if call_open t parent call && (0 <? parent) then parent else 0.
Proof.
  unfold oneshot_resolve. destruct (call_open t parent call && (0 <? parent)); [|done].
  by destruct (append_tool_result _ _ _ _ _ _ _).
Qed.

End Pushes.

(** ** What a boundary leaves owed *)
Section Settle.
Context `{Ingest} (instance : cstring) (b : Boundary).
Let leaf := r_leaf (b_row b).

(** Nothing will ship on such an edge at this leaf. *)
Definition settled (d : DeliveryEdge) : Prop :=
  d_policy d = PExplicit \/
  (d_one_shot d = true /\ d_kind d <> KToolCall) \/
  (d_one_shot d = false /\
   (r_leaf (b_row b) <= d_cursor d \/ (d_kind d <> KParent /\ d_kind d <> KChannel) \/
    (d_kind d = KParent /\ r_parent (b_row b) <= 0))).

Lemma settled_with_cursor d : settled d -> settled (with_cursor leaf d).
Proof. unfold settled, leaf. simpl. intros [?|[?|[? ?]]]; [by left|right; by left|right; right]. split; [done|]. left. lia. Qed.

Lemma settled_stamp ids d : settled d -> settled (stamp_ids leaf ids d).
Proof. unfold stamp_ids. case_bool_decide; auto using settled_with_cursor. Qed.

Lemma standing_settled d : d_one_shot d = false -> settled (with_cursor leaf d).
Proof. intros E. right; right. split; [done|]. left. simpl. unfold leaf. lia. Qed.

(** A settled edge is passed over. *)
Lemma deliver_settled e rest p : settled e -> deliver_edge instance b e rest p = (rest, p).
Proof.
  unfold settled, deliver_edge. intros Hs. destruct (decide (d_policy e = PExplicit)) as [|Hp]; [done|].
  destruct Hs as [?|[[Ho Hk]|[Ho Hc]]]; [done| |].
  - rewrite Ho. by rewrite bool_decide_false.
  - rewrite Ho. cbn [andb]. f_equal. unfold deliver_standing, is_parent, is_channel.
    destruct Hc as [Hc|[[H1 H2]|[H1 H2]]].
    + by replace (_ <=? _) with true by lia.
    + rewrite !bool_decide_false by done. by destruct (_ <=? _).
    + rewrite bool_decide_true by done. replace (r_parent _ <=? 0) with true by lia. by destruct (_ <=? _).
Qed.

(** The rows of the session are settled or still ahead. *)
Record Ahead (rest : list DeliveryEdge) (t : Store) : Prop := {
  a_ids : NoDup (map d_id (t_edges t));
  a_rest_ids : NoDup (map d_id rest);
  a_rest : forall r, r ∈ rest -> d_one_shot r = false -> d_kind r = KParent \/ d_kind r = KChannel -> r ∈ t_edges t;
  a_mine : forall r, r ∈ rest -> d_session r = b_sid b;
  a_rows : forall d, d ∈ t_edges t -> d_session d = b_sid b -> settled d \/ d ∈ rest
}.

Lemma ahead_drop e rest t : settled e -> Ahead (e :: rest) t -> Ahead rest t.
Proof.
  intros Hs [H1 H2 H3 H4 H5]. cbn [map] in H2. apply NoDup_cons in H2 as [_ H2].
  split; [done|done| | |]; intros d Hd.
  - intros. apply H3; [by right|done..].
  - apply H4. by right.
  - intros Hm. destruct (H5 d Hd Hm) as [?|[->|?]%elem_of_cons]; auto.
Qed.

Lemma ahead_pushes rest t t' : only_pushes t t' -> Ahead rest t -> Ahead rest t'.
Proof. intros Ho [H1 H2 H3 H4 H5]. apply only_pushes_edges in Ho as [E _]. split; by rewrite ?E. Qed.

(** Stamping the standing edge at hand settles it. *)
Lemma ahead_stamp e rest t :
  d_one_shot e = false -> d_kind e = KParent \/ d_kind e = KChannel ->
  Ahead (e :: rest) t -> Ahead rest (edge_cursor_set t (d_id e) leaf).
Proof.
  intros Ho Hk [H1 H2 H3 H4 H5].
  assert (He : e ∈ t_edges t) by (apply H3; [by left|done..]).
  cbn [map] in H2. apply NoDup_cons in H2 as [Hn H2].
  rewrite edge_cursor_set_stamp. split; cbn [t_edges with_edges]; [by rewrite stamp_ids_id|done| | |].
  - intros r Hr Hor Hkr. apply list_elem_of_fmap. exists r. split; [|apply H3; [by right|done..]].
    unfold stamp_ids. rewrite bool_decide_false; [done|]. rewrite list_elem_of_singleton. intros E.
    apply Hn. rewrite <- E. apply list_elem_of_fmap. eauto.
  - intros r Hr. apply H4. by right.
  - intros d' (d & -> & Hd)%list_elem_of_fmap Hm.
    destruct (decide (d_id d = d_id e)) as [E|E].
    + apply (NoDup_id_eq _ _ _ H1 Hd He) in E as ->. left.
      unfold stamp_ids. rewrite bool_decide_true by (by apply list_elem_of_singleton). by apply standing_settled.
    + unfold stamp_ids in *. rewrite bool_decide_false in * by (by rewrite list_elem_of_singleton).
      destruct (H5 d Hd Hm) as [?|[->|?]%elem_of_cons]; auto; done.
Qed.

(** A fired one-shot drops its row and settles the parent's standing edges. *)
Lemma ahead_fire e rest t t1 :
  d_kind e = KToolCall ->
  t_edges t1 = List.filter (fun d => negb ((d_session d =? b_sid b) && bool_decide (d_kind d = KToolCall) &&
                                           streq (d_ref d) (d_ref e))) (t_edges t) ->
  Ahead (e :: rest) t -> Ahead rest t1.
Proof.
  intros Hk E [H1 H2 H3 H4 H5]. cbn [map] in H2. apply NoDup_cons in H2 as [Hn H2].
  split; rewrite ?E; [by apply NoDup_map_filter|done| | |].
  - intros r Hr Ho Hkr. apply elem_of_filter_bool. split; [apply H3; [by right|done..]|].
    rewrite (bool_decide_false (d_kind r = KToolCall)) by (intros E'; destruct Hkr; congruence).
    by rewrite andb_false_r.
  - intros r Hr. apply H4. by right.
  - intros d [Hd Hf]%elem_of_filter_bool Hm.
    destruct (H5 d Hd Hm) as [?|[->|?]%elem_of_cons]; auto. exfalso.
    rewrite Hm, Hk, Z.eqb_refl, bool_decide_true in Hf by done. unfold streq in Hf.
    by rewrite bool_decide_true in Hf by done.
Qed.

Lemma ahead_settle_parent rest t :
  Ahead rest t ->
  Ahead (map (fun d => if settled_by_one_shot leaf d then with_cursor leaf d else d) rest)
    (fold_left (fun t d => if settled_by_one_shot leaf d then edge_cursor_set t (d_id d) leaf else t) rest t).
Proof.
  intros [H1 H2 H3 H4 H5]. rewrite stamp_fold.
  assert (Hids : forall d, d ∈ rest -> d_id d ∈ map d_id (List.filter (settled_by_one_shot leaf) rest) ->
                           settled_by_one_shot leaf d = true).
  { intros d Hd (r & Er & [Hr Hs]%elem_of_filter_bool)%list_elem_of_fmap.
    by rewrite (NoDup_id_eq _ _ _ H2 Hd Hr Er). }
  assert (Hset : forall r, settled_by_one_shot leaf r = true -> d_one_shot r = false /\ d_kind r = KParent).
  { intros r Hr. unfold settled_by_one_shot, is_parent in Hr. destruct (d_one_shot r); [done|].
    by destruct (decide (d_kind r = KParent)); [|rewrite bool_decide_false in Hr]. }
  split; cbn [t_edges with_edges].
  - by rewrite stamp_ids_id.
  - rewrite map_map. rewrite (map_ext _ d_id); [done|]. intros d. by destruct (settled_by_one_shot leaf d).
  - intros r' (r & -> & Hr)%list_elem_of_fmap Ho Hk. apply list_elem_of_fmap. exists r.
    assert (Hrow : r ∈ t_edges t) by (apply H3; [done|by destruct (settled_by_one_shot leaf r)..]).
    split; [|done]. unfold stamp_ids. destruct (settled_by_one_shot leaf r) eqn:Es.
    + rewrite bool_decide_true; [done|]. apply list_elem_of_fmap. exists r. split; [done|].
      by apply elem_of_filter_bool.
    + rewrite bool_decide_false; [done|]. intros Hin. apply Hids in Hin; [congruence|done].
  - intros r' (r & -> & Hr)%list_elem_of_fmap. specialize (H4 r Hr). by destruct (settled_by_one_shot leaf r).
  - intros d' (d & -> & Hd)%list_elem_of_fmap Hm. unfold stamp_ids in *.
    case_bool_decide as Hin.
    + left. apply list_elem_of_fmap in Hin as (r & Er & [Hr Hs]%elem_of_filter_bool).
      destruct (Hset r Hs) as [Ho Hk].
      rewrite (NoDup_id_eq _ _ _ H1 Hd (H3 r Hr Ho (or_introl Hk)) Er). by apply standing_settled.
    + destruct (H5 d Hd Hm) as [?|Hr]; [by left|]. right. apply list_elem_of_fmap. exists d. split; [|done].
      destruct (settled_by_one_shot leaf d) eqn:Es; [|done]. exfalso. apply Hin.
      apply list_elem_of_fmap. exists d. split; [done|]. by apply elem_of_filter_bool.
Qed.

Lemma deliver_edge_length e rest p : length (fst (deliver_edge instance b e rest p)) = length rest.
Proof.
  unfold deliver_edge. destruct (decide _); [done|]. destruct (_ && _).
  - destruct (held b e); [done|]. unfold deliver_one_shot. destruct (oneshot_resolve _ _ _ _ _ _ _) as [w t].
    destruct (0 <? w); [|done]. cbn [fst]. apply length_map.
  - by destruct (d_one_shot e).
Qed.

Lemma deliver_edge_ahead e rest p :
  held b e = false -> Ahead (e :: rest) (p_store p) ->
  Ahead (fst (deliver_edge instance b e rest p)) (p_store (snd (deliver_edge instance b e rest p))).
Proof.
  intros Hh Ha. unfold deliver_edge.
  destruct (decide (d_policy e = PExplicit)) as [Hp|Hp]; [apply (ahead_drop e); [by left|done]|].
  destruct (d_one_shot e) eqn:Ho; cbn [andb].
  - destruct (decide (d_kind e = KToolCall)) as [Hk|Hk].
    + rewrite bool_decide_true, Hh by done. unfold deliver_one_shot. fold leaf.
      destruct (oneshot_edges instance (p_store p) (b_sid b) (r_parent (b_row b)) (d_ref e)
                  (one_shot_text (p_store p) b e) (b_error b)) as [E _].
      destruct (oneshot_resolve _ _ _ _ _ _ _) as [w t1]. cbn [snd] in E.
      pose proof (ahead_fire e rest _ t1 Hk E Ha) as Hf.
      destruct (0 <? w); [|done]. by apply ahead_settle_parent.
    + rewrite bool_decide_false by done. apply (ahead_drop e); [|done]. right; by left.
  - cbn [fst snd]. unfold deliver_standing. fold leaf.
    destruct (leaf <=? d_cursor e) eqn:E1; [apply (ahead_drop e); [|done]; right; right; split; [done|left; fold leaf; lia]|].
    destruct (negb (is_parent e) && negb (is_channel e)) eqn:E2.
    { apply (ahead_drop e); [|done]. right; right. split; [done|]. right; left.
      unfold is_parent, is_channel in E2. apply andb_true_iff in E2 as [Ha1 Ha2].
      rewrite negb_true_iff, bool_decide_eq_false in Ha1, Ha2. done. }
    assert (Hk : d_kind e = KParent \/ d_kind e = KChannel).
    { unfold is_parent, is_channel in E2. destruct (decide (d_kind e = KParent)); [by left|].
      destruct (decide (d_kind e = KChannel)); [by right|]. by rewrite !bool_decide_false in E2. }
    destruct (is_parent e && (r_parent (b_row b) <=? 0)) eqn:E3.
    { apply (ahead_drop e); [|done]. right; right. split; [done|]. right; right.
      apply andb_true_iff in E3 as [Hx Hy]. unfold is_parent in Hx. apply bool_decide_eq_true in Hx. split; [done|lia]. }
    destruct (is_channel e && negb (b_channel b)); [by apply ahead_stamp|].
    destruct (is_channel e && ingest_only (p_store p) (d_ref e)); [by apply ahead_stamp|]. rewrite Hh.
    pose proof (push_standing_only (p_store p) b e) as Hpush.
    destruct (push_standing (p_store p) b e) as [n t1]. cbn [snd] in Hpush. cbn [p_store].
    apply ahead_stamp; [done..|]. by apply (ahead_pushes _ _ _ Hpush).
Qed.

Lemma deliver_edge_session e rest p i :
  i <> r_parent (b_row b) ->
  get_session (p_store (snd (deliver_edge instance b e rest p))) i = get_session (p_store p) i.
Proof.
  intros Hi. unfold deliver_edge. destruct (decide _); [done|]. destruct (_ && _).
  - destruct (held b e); [done|]. unfold deliver_one_shot.
    pose proof (oneshot_session instance (p_store p) (b_sid b) (r_parent (b_row b)) (d_ref e)
                  (one_shot_text (p_store p) b e) (b_error b) i Hi) as E.
    destruct (oneshot_resolve _ _ _ _ _ _ _) as [w t1]. cbn [snd] in E. rewrite <- E.
    destruct (0 <? w); [|done]. cbn [snd p_store]. by rewrite stamp_fold.
  - destruct (d_one_shot e); [done|]. cbn [snd]. unfold deliver_standing.
    repeat (case_if; [done|]).
    pose proof (push_standing_only (p_store p) b e) as Hpush.
    destruct (push_standing (p_store p) b e) as [k t1]. cbn [snd] in Hpush. cbn [p_store].
    rewrite edge_cursor_set_stamp. by apply (only_pushes_session _ _ i Hpush).
Qed.

Lemma deliver_edges_session n : forall edges p i,
  i <> r_parent (b_row b) -> get_session (p_store (deliver_edges instance n b edges p)) i = get_session (p_store p) i.
Proof.
  induction n as [|n IH]; intros edges p i Hi; [done|]. destruct edges as [|e rest]; [done|].
  cbn [deliver_edges]. pose proof (deliver_edge_session e rest p i Hi) as E.
  destruct (deliver_edge _ _ _ _ _) as [r p1]. cbn [snd] in E. by rewrite IH.
Qed.

Lemma deliver_edges_ahead : (b_error b || b_quiet b = true) -> forall n edges p,
  n = length edges -> Ahead edges (p_store p) -> Ahead [] (p_store (deliver_edges instance n b edges p)).
Proof.
  intros Hq. assert (Hh : forall e, held b e = false).
  { intros e. unfold held. destruct (b_error b), (b_quiet b); try done; by rewrite ?andb_false_r. }
  induction n as [|n IH]; intros edges p Hn Ha; destruct edges as [|e rest]; try done.
  cbn [deliver_edges]. pose proof (deliver_edge_ahead e rest p (Hh e) Ha) as E.
  pose proof (deliver_edge_length e rest p) as El.
  destruct (deliver_edge _ _ _ _ _) as [r p1]. cbn [fst snd] in E, El. apply IH; [|done]. simpl in Hn. lia.
Qed.

(** Settled edges ship nothing. *)
Lemma deliver_edges_settled n : forall edges p,
  (forall e, e ∈ edges -> settled e) -> deliver_edges instance n b edges p = p.
Proof.
  induction n as [|n IH]; intros edges p Hs; [done|]. destruct edges as [|e rest]; [done|].
  cbn [deliver_edges]. rewrite deliver_settled by (apply Hs; by left). apply IH. intros x Hx. apply Hs. by right.
Qed.

End Settle.

(** ** The boundary as a whole *)

Definition edges_of (t : Store) (sid : Z) : list DeliveryEdge :=
  List.filter (fun d => d_session d =? sid) (t_edges t).

(** The table's primary key and the sizes the loader allows for. *)
Record edges_ok (t : Store) (sid : Z) : Prop := {
  k_ids : NoDup (map d_id (t_edges t));
  k_next : forall d, d ∈ t_edges t -> d_id d < t_next_edge t;
  k_few : (length (edges_of t sid) < EDGE_MAX)%nat;
  k_refs : forall d, d ∈ edges_of t sid -> (length (d_ref d) < 192)%nat
}.

Definition has_edge (t : Store) (sid : Z) (k : EdgeKind) (ref : cstring) : bool :=
  existsb (fun d => (d_session d =? sid) && bool_decide (d_kind d = k) && streq (d_ref d) ref) (t_edges t).

Lemma filter_partition {A} (p : A -> bool) l : List.filter p l ++ List.filter (fun x => negb (p x)) l ≡ₚ l.
Proof.
  induction l as [|x l IH]; [done|]. simpl. destruct (p x); cbn [negb].
  - cbn [app]. by rewrite IH.
  - rewrite <- Permutation_middle. by rewrite IH.
Qed.

Lemma edges_load_small t sid :
  (length (edges_of t sid) <= EDGE_MAX)%nat -> (forall d, d ∈ edges_of t sid -> (length (d_ref d) < 192)%nat) ->
  edges_load t sid ≡ₚ edges_of t sid.
Proof.
  intros Hn Hr. unfold edges_load. fold (edges_of t sid).
  pose proof (filter_partition d_one_shot (edges_of t sid)) as Hp.
  rewrite take_ge by (by rewrite Hp). rewrite Hp.
  replace (map load_ref (edges_of t sid)) with (edges_of t sid); [done|].
  symmetry. rewrite <- (map_id (edges_of t sid)) at 2. apply map_ext_in. intros d Hd.
  apply load_ref_short, Hr. by apply list_elem_of_In.
Qed.

Section Boundary.
Context `{Ingest} (instance : cstring).

Lemma ensure_edges t sid sr :
  channel_edge_ensure t sid sr = t \/
  exists d, channel_edge_ensure t sid sr = with_edges (t_edges t ++ [d]) (t_next_edge t + 1) t /\
    d_id d = t_next_edge t /\ d_session d = sid /\ d_ref d = r_channel sr /\ d_kind d = KChannel /\
    d_one_shot d = false /\ d_cursor d = 0.
Proof.
  unfold channel_edge_ensure. destruct (r_channel sr) as [|c ch] eqn:Ec; [by left|].
  unfold delivery_edge_create. destruct (existsb _ _); [by left|]. right. eexists. split; [done|]. done.
Qed.

Lemma ensure_session t sid sr i : get_session (channel_edge_ensure t sid sr) i = get_session t i.
Proof. destruct (ensure_edges t sid sr) as [->|(d & -> & _)]; done. Qed.

(** The chat's edge is there after the first boundary, and [ensure] is then the
    identity. *)
Lemma ensure_has t sid sr : r_channel sr <> [] -> has_edge (channel_edge_ensure t sid sr) sid KChannel (r_channel sr) = true.
Proof.
  intros Hc. unfold channel_edge_ensure. destruct (r_channel sr) as [|c ch] eqn:Ec; [done|].
  unfold delivery_edge_create. fold (has_edge t sid KChannel (c :: ch)).
  destruct (has_edge t sid KChannel (c :: ch)) eqn:Eh; [done|].
  unfold has_edge. cbn [t_edges with_edges]. rewrite existsb_app. cbn.
  rewrite Z.eqb_refl. unfold streq. rewrite !bool_decide_true by done. apply orb_true_r.
Qed.

Lemma ensure_id t sid sr :
  (r_channel sr <> [] -> has_edge t sid KChannel (r_channel sr) = true) -> channel_edge_ensure t sid sr = t.
Proof.
  intros Hh. unfold channel_edge_ensure. destruct (r_channel sr) as [|c ch] eqn:Ec; [done|].
  unfold delivery_edge_create. fold (has_edge t sid KChannel (c :: ch)). by rewrite Hh.
Qed.

Lemma has_edge_stamp t sid k ref c ids :
  has_edge (with_edges (map (stamp_ids c ids) (t_edges t)) (t_next_edge t) t) sid k ref = has_edge t sid k ref.
Proof.
  unfold has_edge. cbn [t_edges with_edges]. induction (t_edges t) as [|d l IH]; [done|]. cbn [map existsb].
  rewrite IH. f_equal. unfold stamp_ids. by case_bool_decide.
Qed.

Lemma deliver_edge_has b e rest p k ref :
  k <> KToolCall -> has_edge (p_store p) (b_sid b) k ref = true ->
  has_edge (p_store (snd (deliver_edge instance b e rest p))) (b_sid b) k ref = true.
Proof.
  intros Hk Hh. unfold deliver_edge. destruct (decide _); [done|]. destruct (_ && _).
  - destruct (held b e); [done|]. unfold deliver_one_shot.
    destruct (oneshot_edges instance (p_store p) (b_sid b) (r_parent (b_row b)) (d_ref e)
                (one_shot_text (p_store p) b e) (b_error b)) as [E _].
    destruct (oneshot_resolve _ _ _ _ _ _ _) as [w t1]. cbn [snd] in E.
    assert (Ht1 : has_edge t1 (b_sid b) k ref = true).
    { unfold has_edge in *. rewrite E. apply existsb_exists in Hh as (d & Hd & Hf). apply existsb_exists.
      exists d. split; [|done]. apply filter_In. split; [done|].
      apply andb_true_iff in Hf as [[_ Hf]%andb_true_iff _]. apply bool_decide_eq_true in Hf.
      rewrite (bool_decide_false (d_kind d = KToolCall)) by congruence. by rewrite andb_false_r. }
    destruct (0 <? w); [|done]. cbn [snd p_store]. by rewrite stamp_fold, has_edge_stamp.
  - destruct (d_one_shot e); [done|]. cbn [snd]. unfold deliver_standing.
    case_if; [done|]. case_if; [done|]. case_if; [done|].
    case_if; [cbn [put p_store]; by rewrite edge_cursor_set_stamp, has_edge_stamp|].
    case_if; [cbn [put p_store]; by rewrite edge_cursor_set_stamp, has_edge_stamp|]. case_if; [done|].
    pose proof (push_standing_only (p_store p) b e) as Hpush.
    destruct (push_standing (p_store p) b e) as [m t1]. cbn [snd] in Hpush. cbn [p_store].
    rewrite edge_cursor_set_stamp, has_edge_stamp. unfold has_edge in *.
    by rewrite (proj1 (only_pushes_edges _ _ Hpush)).
Qed.

Lemma deliver_edges_has b k ref n : forall edges p,
  k <> KToolCall -> has_edge (p_store p) (b_sid b) k ref = true ->
  has_edge (p_store (deliver_edges instance n b edges p)) (b_sid b) k ref = true.
Proof.
  induction n as [|n IH]; intros edges p Hk Hh; [done|]. destruct edges as [|e rest]; [done|].
  cbn [deliver_edges]. pose proof (deliver_edge_has b e rest p k ref Hk Hh) as E.
  destruct (deliver_edge _ _ _ _ _) as [r p1]. by apply IH.
Qed.

(** The rows of a session are all ahead when a boundary starts. *)
Lemma ahead_start t sid sr b :
  edges_ok t sid -> (length (r_channel sr) < 192)%nat -> b_sid b = sid ->
  Ahead b (edges_load (channel_edge_ensure t sid sr) sid) (channel_edge_ensure t sid sr).
Proof.
  intros [K1 K2 K3 K4] Hc Hb. set (t1 := channel_edge_ensure t sid sr).
  assert (Hids : NoDup (map d_id (t_edges t1))).
  { unfold t1. destruct (ensure_edges t sid sr) as [->|(d & -> & Hd & _)]; [done|].
    cbn [t_edges with_edges]. rewrite map_app. apply NoDup_app. split; [done|]. split; [|apply NoDup_singleton].
    intros i (x & -> & Hx)%list_elem_of_fmap. cbn [map]. rewrite list_elem_of_singleton.
    specialize (K2 x Hx). lia. }
  assert (Hload : edges_load t1 sid ≡ₚ edges_of t1 sid).
  { unfold t1. destruct (ensure_edges t sid sr) as [->|(d & -> & _ & Hs & Hr & _)]; [apply edges_load_small; [lia|done]|].
    assert (E : edges_of (with_edges (t_edges t ++ [d]) (t_next_edge t + 1) t) sid = edges_of t sid ++ [d]).
    { unfold edges_of. cbn [t_edges with_edges]. rewrite List.filter_app. cbn [List.filter].
      by replace (_ =? _) with true by lia. }
    apply edges_load_small; rewrite E; [rewrite length_app; cbn [length]; lia|].
    intros x [Hx| ->%list_elem_of_singleton]%elem_of_app; [by apply K4|]. by rewrite Hr. }
  split.
  - done.
  - rewrite Hload. by apply NoDup_map_filter.
  - intros r Hr _ _. rewrite Hload in Hr. by apply elem_of_filter_bool in Hr as [Hr _].
  - intros r Hr. rewrite Hload in Hr. apply elem_of_filter_bool in Hr as [_ Hr]. rewrite Hb. lia.
  - intros d Hd Hm. right. rewrite Hload. apply elem_of_filter_bool. split; [done|]. rewrite Hm, Hb. lia.
Qed.

(** The run of a boundary whose row was read, before its COMMIT. *)
Definition boundary_run (t : Store) (sid : Z) (sr : EdgeSessionRow) (is_error include_channel : bool) : Progress :=
  let t1 := channel_edge_ensure t sid sr in
  deliver_edges instance (length (edges_load t1 sid)) (boundary_of t1 sid sr is_error include_channel)
    (edges_load t1 sid) (mk_prog t1 0 0).

Definition committed (p : Progress) : Z * Store :=
  (p_shipped p, if 0 <? p_wake p then wake (p_wake p) (p_store p) else p_store p).

Lemma boundary_cases t sid sr err inc :
  edge_session_row t sid = Some sr -> 0 < r_leaf sr -> has_outbound t sid = true ->
  advance_deliver_boundary instance true true t sid err inc = committed (boundary_run t sid sr err inc).
Proof.
  intros Es Hl Ho. unfold advance_deliver_boundary, boundary_run. rewrite Ho, Es.
  replace (r_leaf sr <=? 0) with false by lia. cbn [negb].
  by destruct (edges_load _ sid).
Qed.

Lemma row_channel_short t sid sr : edge_session_row t sid = Some sr -> (length (r_channel sr) < 192)%nat.
Proof.
  unfold edge_session_row. destruct (get_session t sid); [|done]. intros [= <-]. cbn.
  unfold snprintf. rewrite length_take. lia.
Qed.

(** A boundary that does not commit, or has nothing to evaluate, leaves the store as
    it was and ships nothing. *)
Lemma boundary_noop begin_ok commit_ok t sid err inc :
  begin_ok && commit_ok = false \/ has_outbound t sid = false \/
  match edge_session_row t sid with Some sr => r_leaf sr <= 0 | None => True end ->
  fst (advance_deliver_boundary instance begin_ok commit_ok t sid err inc) <= 0 /\
  snd (advance_deliver_boundary instance begin_ok commit_ok t sid err inc) = t.
Proof.
  intros Hc. unfold advance_deliver_boundary.
  destruct (has_outbound t sid); [cbn [negb]|done]. destruct begin_ok; [cbn [negb]|done].
  destruct (edge_session_row t sid) as [sr|] eqn:Er; [|done].
  destruct (r_leaf sr <=? 0) eqn:El; [done|]. destruct Hc as [Hc|[Hc|Hc]]; [|done|lia]. cbn in Hc. subst.
  by destruct (edges_load _ _).
Qed.

(** All is settled: another evaluation, of either kind, finds nothing to do. *)
Lemma boundary_settled begin_ok commit_ok t sid sr b err inc :
  edge_session_row t sid = Some sr -> b_sid b = sid -> b_row b = sr ->
  Ahead b [] t -> (r_channel sr <> [] -> has_edge t sid KChannel (r_channel sr) = true) ->
  let r := advance_deliver_boundary instance begin_ok commit_ok t sid err inc in snd r = t /\ fst r <= 0.
Proof.
  intros Er Hs Hr Ha Hc. cbn zeta. unfold advance_deliver_boundary.
  destruct (has_outbound t sid); [cbn [negb]|done]. destruct begin_ok; [cbn [negb]|done].
  rewrite Er. destruct (r_leaf sr <=? 0); [done|]. rewrite (ensure_id t sid sr Hc).
  assert (Hload : forall e, e ∈ edges_load t sid -> settled (boundary_of t sid sr err inc) e).
  { intros e He. unfold edges_load in He. apply list_elem_of_fmap in He as (d & -> & Hd).
    assert (Hd' : d ∈ edges_of t sid).
    { fold (edges_of t sid) in Hd. rewrite <- (filter_partition d_one_shot). apply elem_of_take in Hd as (i & Hi & _).
      by apply list_elem_of_lookup_2 in Hi. }
    apply elem_of_filter_bool in Hd' as [Hd1 Hd2].
    destruct (a_rows _ _ _ Ha d Hd1) as [Hset|Hn]; [lia| |by apply elem_of_nil in Hn].
    unfold settled in *. rewrite Hr in Hset. cbn [boundary_of b_row]. done. }
  destruct (edges_load t sid) as [|e edges] eqn:El; [by destruct commit_ok|].
  rewrite deliver_edges_settled by done. by destruct commit_ok.
Qed.

Lemma woken_session w t i : get_session (wake w t) i = get_session t i.
Proof. done. Qed.

Lemma row_of_session t t' sid : get_session t' sid = get_session t sid -> edge_session_row t' sid = edge_session_row t sid.
Proof. intros E. unfold edge_session_row. by rewrite E. Qed.

Lemma committed_store p :
  t_edges (snd (committed p)) = t_edges (p_store p) /\
  forall i, get_session (snd (committed p)) i = get_session (p_store p) i.
Proof. unfold committed. by destruct (0 <? p_wake p). Qed.

(** What a committed boundary without a hold leaves: the row, no owed edge, and the
    chat's edge. *)
Lemma boundary_run_settles t sid sr err inc :
  edges_ok t sid -> edge_session_row t sid = Some sr -> r_parent sr <> sid ->
  err || session_subtree_quiescent t sid = true ->
  let t' := snd (committed (boundary_run t sid sr err inc)) in
  edge_session_row t' sid = Some sr /\ Ahead (boundary_of (channel_edge_ensure t sid sr) sid sr err inc) [] t' /\
  (r_channel sr <> [] -> has_edge t' sid KChannel (r_channel sr) = true).
Proof.
  intros Hok Er Hp Hq. cbn zeta. set (t1 := channel_edge_ensure t sid sr).
  set (b := boundary_of t1 sid sr err inc). set (p := boundary_run t sid sr err inc).
  destruct (committed_store p) as [Ee Es].
  assert (Hrun : p = deliver_edges instance (length (edges_load t1 sid)) b (edges_load t1 sid) (mk_prog t1 0 0)) by done.
  assert (Hsid : sid <> r_parent (b_row b)) by (cbn; congruence).
  split_all.
  - rewrite <- Er. apply row_of_session. rewrite Es, Hrun, deliver_edges_session by exact Hsid. apply ensure_session.
  - assert (Ha : Ahead b [] (p_store p)).
    { rewrite Hrun. apply deliver_edges_ahead; [|done|].
      - cbn. destruct (ensure_edges t sid sr) as [E|(d & E & _)]; unfold t1; rewrite E, ?quiescent_edges; exact Hq.
      - apply ahead_start; [done|by apply (row_channel_short t sid)|done]. }
    destruct Ha as [H1 H2 H3 H4 H5]. split; by rewrite ?Ee.
  - intros Hc. unfold has_edge. rewrite Ee. fold (has_edge (p_store p) sid KChannel (r_channel sr)).
    rewrite Hrun. apply (deliver_edges_has b KChannel (r_channel sr)); [done|]. by apply ensure_has.
Qed.

End Boundary.

(** ** What every delivery preserves

    A property of the store that the pushes, a change of the edges, the blocking reply
    and the wake preserve holds through every boundary and mid-turn delivery. *)
Section Preserve.
Context `{Ingest} (instance : cstring) (P : Store -> Prop).
Hypothesis P_push : forall t sid e sr label text, P t -> P (push t sid e sr label text).
Hypothesis P_edges : forall t es next, P t -> P (with_edges es next t).
Hypothesis P_oneshot : forall t child parent call text err,
  P t -> P (snd (oneshot_resolve instance t child parent call text err)).
Hypothesis P_wake : forall t w, P t -> P (wake w t).

Lemma push_rows_preserves sid e sr fl rows : forall t, P t -> P (push_rows t sid e sr fl rows).
Proof. induction rows as [|r rows IH]; intros t Hp; cbn [push_rows]; auto. Qed.

Lemma push_standing_preserves t b e : P t -> P (snd (push_standing t b e)).
Proof.
  intros Hp. unfold push_standing.
  destruct (d_policy e); cbn [snd]; try (destruct (standing_text _ _ _); cbn [snd]; auto).
  by apply push_rows_preserves.
Qed.

Lemma deliver_edge_preserves b e rest p : P (p_store p) -> P (p_store (snd (deliver_edge instance b e rest p))).
Proof.
  intros Hp. unfold deliver_edge. destruct (decide _); [done|]. destruct (_ && _).
  - destruct (held b e); [done|]. unfold deliver_one_shot.
    pose proof (P_oneshot (p_store p) (b_sid b) (r_parent (b_row b)) (d_ref e) (one_shot_text (p_store p) b e) (b_error b) Hp) as H1.
    destruct (oneshot_resolve _ _ _ _ _ _ _) as [w t1]. cbn [snd] in H1.
    destruct (0 <? w); [|done]. cbn [snd p_store]. rewrite stamp_fold. by apply P_edges.
  - destruct (d_one_shot e); [done|]. cbn [snd]. unfold deliver_standing.
    case_if; [done|]. case_if; [done|]. case_if; [done|].
    case_if; [by apply P_edges|]. case_if; [by apply P_edges|]. case_if; [done|].
    pose proof (push_standing_preserves (p_store p) b e Hp) as H1.
    destruct (push_standing (p_store p) b e) as [k t1]. by apply P_edges.
Qed.

Lemma deliver_edges_preserves b n : forall edges p,
  P (p_store p) -> P (p_store (deliver_edges instance n b edges p)).
Proof.
  induction n as [|n IH]; intros edges p Hp; [done|]. destruct edges as [|e rest]; [done|].
  cbn [deliver_edges]. pose proof (deliver_edge_preserves b e rest p Hp) as H1.
  destruct (deliver_edge instance b e rest p) as [r p1]. by apply IH.
Qed.

Lemma boundary_preserves b c t sid err inc : P t -> P (snd (advance_deliver_boundary instance b c t sid err inc)).
Proof.
  intros Hp. unfold advance_deliver_boundary. destruct (negb _); [done|]. destruct (negb b); [done|].
  destruct (edge_session_row t sid) as [sr|]; [|done]. destruct (r_leaf sr <=? 0); [done|].
  set (t1 := channel_edge_ensure t sid sr).
  assert (H1 : P t1) by (unfold t1; destruct (ensure_edges t sid sr) as [->|(d & -> & _)]; auto).
  destruct (edges_load t1 sid) as [|e es] eqn:E; [by destruct c|]. rewrite <- E. destruct c; [|done]. cbn [snd].
  pose proof (deliver_edges_preserves (boundary_of t1 sid sr err inc) (length (edges_load t1 sid)) (edges_load t1 sid)
    (mk_prog t1 0 0) H1) as H2.
  destruct (0 <? p_wake _); auto.
Qed.

Lemma iterate_preserves sid sr edges : forall t w, P t -> P (fst (iterate_edges sid sr edges t w)).
Proof.
  induction edges as [|e rest IH]; intros t w Hp; cbn [iterate_edges]; [done|].
  case_if; [by apply IH|]. case_if; [by apply IH|]. case_if; [by apply IH|].
  unfold iteration_push_since. pose proof (push_rows_preserves sid e sr None (prose_since t sid (d_cursor e)) t Hp) as H1.
  case_if; apply IH; [by apply P_edges|done].
Qed.

Lemma iteration_preserves b c t sid : P t -> P (advance_deliver_iteration b c t sid).
Proof.
  intros Hp. unfold advance_deliver_iteration. case_if; [done|].
  destruct (edge_session_row t sid) as [sr|]; [|done]. destruct (negb b); [done|].
  pose proof (iterate_preserves sid sr (edges_load t sid) t 0 Hp) as H1.
  destruct (iterate_edges _ _ _ _ _) as [t1 w]. cbn [fst] in H1.
  destruct (negb c); [done|]. destruct (0 <? w); auto.
Qed.

End Preserve.

(** (C10) Delivery is at most once.  A boundary evaluation that fails to begin or to
    commit ships nothing and leaves the store as it was; and after one that commits
    with no hold (an error boundary, or a settled subtree), whatever evaluates the
    same leaf again, the sweep, a retry or another boundary, ships nothing and changes
    nothing. *)
Theorem delivery_at_most_once `{Ingest} (instance : cstring) (t : Store) (sid : Z) (err inc : bool) :
  (forall s, get_session t sid = Some s -> x_parent s <> sid) -> edges_ok t sid ->
  (forall begin_ok commit_ok, begin_ok && commit_ok = false ->
     let r := advance_deliver_boundary instance begin_ok commit_ok t sid err inc in snd r = t /\ fst r <= 0) /\
  (err || session_subtree_quiescent t sid = true ->
   let t' := snd (advance_deliver_boundary instance true true t sid err inc) in
   forall begin_ok commit_ok err' inc',
     let r := advance_deliver_boundary instance begin_ok commit_ok t' sid err' inc' in snd r = t' /\ fst r <= 0).
Proof.
  intros Hpar Hok. split.
  - intros b c Hbc. apply and_comm, boundary_noop. by left.
  - intros Hq. cbn zeta.
    assert (Hnoop : has_outbound t sid = false \/
      match edge_session_row t sid with Some sr => r_leaf sr <= 0 | None => True end ->
      forall b c e i, let r := advance_deliver_boundary instance b c
        (snd (advance_deliver_boundary instance true true t sid err inc)) sid e i in
        snd r = snd (advance_deliver_boundary instance true true t sid err inc) /\ fst r <= 0).
    { intros Hn b c e i. destruct (boundary_noop instance true true t sid err inc (or_intror Hn)) as [_ ->].
      apply and_comm, boundary_noop. by right. }
    destruct (edge_session_row t sid) as [sr|] eqn:Er; [|apply Hnoop; by right].
    destruct (decide (0 < r_leaf sr)); [|apply Hnoop; right; lia].
    destruct (has_outbound t sid) eqn:Eo; [|apply Hnoop; by left].
    assert (Hp : r_parent sr <> sid).
    { unfold edge_session_row in Er. destruct (get_session t sid) as [s|] eqn:Eg; [|done]. injection Er as <-.
      by apply Hpar. }
    rewrite (boundary_cases instance t sid sr) by done.
    destruct (boundary_run_settles instance t sid sr err inc) as (R & A & C); try done.
    intros b c e i. by apply (boundary_settled instance b c _ sid sr
      (boundary_of (channel_edge_ensure t sid sr) sid sr err inc) e i R eq_refl eq_refl A C).
Qed.

(** ** A concrete store *)

Definition demo_ingest : Ingest := {| scrub := fun s => s; spill := fun _ _ s => s |}.

Definition demo_entry (id sid parent turn : Z) (iter : option Z) (ty : EType) (role : Z) (text : cstring) (stop : Z) : Entry :=
  mk_entry id sid parent turn iter ty role (Some text) None None false stop None None.

(** Session 1 launched session 2, which has answered; session 2 is bound to a chat. *)
Definition demo_store : Store := mk_store 1000
  [mk_xsession 1 (Some (bs "main")) ToolRunning 1 2 (-1) None None (Some (bs "i1")) 0;
   mk_xsession 2 (Some (bs "helper")) Idle 0 4 1 (Some (bs "discord")) (Some (bs "77")) None 0]
  [demo_entry 1 1 (-1) 1 None TUser ROLE_USER (bs "go") 0;
   demo_entry 2 1 1 1 (Some 1) TToolCall ROLE_ASSISTANT (bs "launching") STOP_REASON_TOOL_USE;
   demo_entry 3 2 (-1) 1 None TUser ROLE_USER (bs "look it up") 0;
   demo_entry 4 2 3 1 (Some 1) TAssistant ROLE_ASSISTANT (bs "the answer") 1]
  5 [] 1
  [mk_call 1 1 2 (bs "call_1") (bs "launch_agent") CallRunning None None]
  [mk_edge 1 2 KParent (bs "1") PTurn 0 false; mk_edge 2 2 KToolCall (bs "call_1") PTurn 0 true] 3
  [] [] [] [] [] [] [].

Lemma delivery_at_most_once_witness :
  let t' := snd (@advance_deliver_boundary demo_ingest (bs "i1") true true demo_store 2 false true) in
  t' <> demo_store /\ (let r := @advance_deliver_boundary demo_ingest (bs "i1") true true t' 2 true false in
                       snd r = t' /\ fst r <= 0).
Proof.
  split; [vm_compute; discriminate|].
  apply (@delivery_at_most_once demo_ingest (bs "i1") demo_store 2 false true).
  - intros s E. vm_compute in E. injection E as <-. vm_compute. lia.
  - split; [apply (bool_decide_unpack _); vm_compute; exact I| |vm_compute; lia|].
    + intros d Hd. repeat (apply elem_of_cons in Hd as [->|Hd]; [vm_compute; reflexivity|]). by apply elem_of_nil in Hd.
    + intros d Hd. vm_compute in Hd. repeat (apply elem_of_cons in Hd as [->|Hd]; [vm_compute; lia|]).
      by apply elem_of_nil in Hd.
  - vm_compute. reflexivity.
Defined.

(** ** The blocking reply is given *)
Section Reply.
Context `{Ingest} (instance : cstring).

(** Entries stay and closed calls stay closed. *)
Definition grows (t t' : Store) : Prop :=
  (forall r, r ∈ t_entries t -> r ∈ t_entries t') /\
  (forall s c, call_open t s c = false -> call_open t' s c = false).

Lemma grows_refl t : grows t t.
Proof. done. Qed.

Lemma grows_trans t1 t2 t3 : grows t1 t2 -> grows t2 t3 -> grows t1 t3.
Proof. intros [A B] [C D]. split; auto. Qed.

Lemma grows_same t t' : t_entries t' = t_entries t -> t_calls t' = t_calls t -> grows t t'.
Proof. intros E F. split; [by rewrite E|]. unfold call_open. by rewrite F. Qed.

Lemma grows_pushes t t' : only_pushes t t' -> grows t t'.
Proof. unfold only_pushes. intros E. rewrite E. by apply grows_same. Qed.

Lemma call_open_complete t s c rid s' c' :
  call_open (snd (db_tool_call_complete_by_call t s c rid)) s' c' =
  call_open t s' c' && negb ((s' =? s) && streq c' c).
Proof.
  unfold call_open, db_tool_call_complete_by_call, update_calls. cbn [snd t_calls with_calls].
  rewrite find_map_same by (intros x; by destruct (is_call s c x)).
  destruct (List.find _ _) as [x|] eqn:E; [|done]. apply List.find_some in E as [_ E]. cbn [option_map].
  destruct (is_call s c x) eqn:Ex; cbn.
  - unfold is_call, streq in *. apply andb_true_iff in E as [E1 E2], Ex as [Ex1 Ex2].
    apply bool_decide_eq_true in E2, Ex2. replace (s' =? s) with true by lia.
    rewrite bool_decide_true by congruence. by rewrite andb_false_r.
  - replace ((s' =? s) && streq c' c) with false; [by rewrite andb_true_r|]. symmetry.
    destruct (s' =? s) eqn:Es; [|done]. cbn [andb]. apply bool_decide_eq_false. intros ->.
    unfold is_call in *. assert (s' = s) as -> by lia. congruence.
Qed.

Lemma unpark_same t parent : same_but_sessions t (unpark instance t parent).
Proof. unfold unpark. destruct (get_session t parent) as [s|]; [destruct (x_state s)|]; auto with cclaw. Qed.

(** The state the reply leaves, for an open call. *)
Lemma oneshot_fires t child parent call text err :
  call_open t parent call = true -> 0 < parent ->
  let t' := snd (oneshot_resolve instance t child parent call text err) in
  let r := mk_entry (t_next_entry t) parent (leaf_of t parent) (turn_for t parent (leaf_of t parent) ROLE_TOOL)
             (pick_iter t parent 0) TToolResult ROLE_TOOL (Some (spill parent call (scrub text))) (Some call)
             (Some (bs "launch_agent")) err 0 None None in
  t_entries t' = t_entries t ++ [r] /\
  (forall s c, call_open t' s c = call_open t s c && negb ((s =? parent) && streq c call)) /\
  get_session t' parent = option_map (fun s => match x_state s with
    | AwaitingApproval | Compacting | UnknownState => with_leaf (t_next_entry t) s
    | _ => entered instance ToolRunning (with_leaf (t_next_entry t) s) end) (get_session t parent).
Proof.
  intros Ho Hp. cbn zeta. unfold oneshot_resolve. rewrite Ho. replace (0 <? parent) with true by lia. cbn [andb].
  unfold append_tool_result.
  destruct (insert_entry _ _ _ _ _ _ _ _ _ _ _ _ _) as [rid t1] eqn:E.
  pose proof (insert_entry_entries t parent (leaf_of t parent) (pick_iter t parent 0) TToolResult ROLE_TOOL
    (Some (spill parent call (scrub text))) (Some call) (Some (bs "launch_agent")) err 0 None None) as R.
  pose proof (insert_entry_rest t parent (leaf_of t parent) (pick_iter t parent 0) TToolResult ROLE_TOOL
    (Some (spill parent call (scrub text))) (Some call) (Some (bs "launch_agent")) err 0 None None) as S.
  pose proof (insert_entry_get t parent (leaf_of t parent) (pick_iter t parent 0) TToolResult ROLE_TOOL
    (Some (spill parent call (scrub text))) (Some call) (Some (bs "launch_agent")) err 0 None None parent) as G.
  rewrite E in R, S, G. cbn [snd] in R, S, G. destruct S as (_ & _ & _ & Sc & _).
  destruct (db_tool_call_complete_by_call t1 parent call rid) as [o t2] eqn:E2.
  assert (H2 : t2 = snd (db_tool_call_complete_by_call t1 parent call rid)) by by rewrite E2.
  cbn [snd]. pose proof (unpark_same t2 parent) as U.
  split_all.
  - cbn [t_entries with_edges]. rewrite U. cbn [t_entries with_sessions]. rewrite H2. exact R.
  - intros s c. transitivity (call_open t2 s c).
    + unfold call_open. cbn [t_calls with_edges]. by rewrite U.
    + rewrite H2, call_open_complete. unfold call_open. by rewrite Sc.
  - match goal with |- get_session ?x parent = _ => change (get_session x parent) with (get_session (unpark instance t2 parent) parent) end.
    assert (G2 : get_session t2 parent = option_map (with_leaf (t_next_entry t)) (get_session t parent)).
    { rewrite H2. unfold db_tool_call_complete_by_call. cbn [snd].
      match goal with |- get_session ?x parent = _ => change (get_session x parent) with (get_session t1 parent) end.
      rewrite G, Z.eqb_refl. by destruct (get_session t parent). }
    unfold unpark. rewrite G2. destruct (get_session t parent) as [s|] eqn:Es; cbn [option_map]; [|by rewrite G2].
    cbn [x_state with_leaf]. destruct (x_state s) eqn:Ex; rewrite ?set_state_get, G2; cbn [option_map]; try done;
      rewrite Z.eqb_refl; cbn [x_state with_leaf]; by rewrite Ex.
Qed.

Lemma oneshot_grows t child parent call text err :
  grows t (snd (oneshot_resolve instance t child parent call text err)).
Proof.
  destruct (call_open t parent call) eqn:Ho; [destruct (decide (0 < parent))|].
  - destruct (oneshot_fires t child parent call text err Ho) as (E & C & _); [done|].
    split; [intros r Hr; rewrite E; apply elem_of_app; by left|]. intros s c Hc. by rewrite C, Hc.
  - unfold oneshot_resolve. rewrite Ho. replace (0 <? parent) with false by lia. by apply grows_same.
  - unfold oneshot_resolve. rewrite Ho. by apply grows_same.
Qed.

Lemma deliver_edge_grows b e rest p :
  let p' := snd (deliver_edge instance b e rest p) in
  grows (p_store p) (p_store p') /\ p_shipped p <= p_shipped p' /\
  (p_wake p = r_parent (b_row b) -> p_wake p' = r_parent (b_row b)).
Proof.
  cbn zeta. unfold deliver_edge. destruct (decide _); [done|]. destruct (_ && _).
  - destruct (held b e); [done|]. unfold deliver_one_shot.
    pose proof (oneshot_grows (p_store p) (b_sid b) (r_parent (b_row b)) (d_ref e)
                  (one_shot_text (p_store p) b e) (b_error b)) as G.
    pose proof (oneshot_woken instance (p_store p) (b_sid b) (r_parent (b_row b)) (d_ref e)
                  (one_shot_text (p_store p) b e) (b_error b)) as W.
    destruct (oneshot_resolve _ _ _ _ _ _ _) as [w t1]. cbn [fst snd] in G, W.
    destruct (0 <? w) eqn:Ew; cbn [snd p_store p_shipped p_wake put]; [|done]. rewrite stamp_fold.
    split_all; [|lia|].
    + eapply grows_trans; [exact G|by apply grows_same].
    + intros _. rewrite W. destruct (_ && _) eqn:Ea; [done|]. lia.
  - destruct (d_one_shot e); [done|]. cbn [snd]. unfold deliver_standing.
    case_if; [done|]. case_if; [done|]. case_if; [done|].
    case_if; [cbn [put p_store p_shipped p_wake]; split; [by apply grows_same|split; [lia|done]]|].
    case_if; [cbn [put p_store p_shipped p_wake]; split; [by apply grows_same|split; [lia|done]]|]. case_if; [done|].
    pose proof (push_standing_only (p_store p) b e) as Hpush.
    assert (Hn : 0 <= fst (push_standing (p_store p) b e)).
    { unfold push_standing. destruct (d_policy e); try (destruct (standing_text _ _ _); cbn; lia).
      cbn. apply zlen_nonneg. }
    destruct (push_standing (p_store p) b e) as [m t1]. cbn [fst snd] in Hpush, Hn. cbn [p_store p_shipped p_wake].
    split; [|split; [lia|intros Hw; by destruct ((0 <? m) && is_parent e)]].
    eapply grows_trans; [apply (grows_pushes _ _ Hpush)|by apply grows_same].
Qed.

Lemma deliver_edges_grows b n : forall edges p,
  let p' := deliver_edges instance n b edges p in
  grows (p_store p) (p_store p') /\ p_shipped p <= p_shipped p' /\
  (p_wake p = r_parent (b_row b) -> p_wake p' = r_parent (b_row b)).
Proof.
  induction n as [|n IH]; intros edges p; cbn zeta; [done|]. destruct edges as [|e rest]; [done|].
  cbn [deliver_edges]. destruct (deliver_edge_grows b e rest p) as (G & S & W).
  destruct (deliver_edge instance b e rest p) as [r p1]. cbn [snd] in G, S, W.
  destruct (IH r p1) as (G1 & S1 & W1). split_all; [by eapply grows_trans|lia|auto].
Qed.

End Reply.

(** A session with a loaded edge passes the first test of a boundary. *)
Lemma loaded_outbound t sid sr :
  edge_session_row t sid = Some sr -> edges_load (channel_edge_ensure t sid sr) sid <> [] -> has_outbound t sid = true.
Proof.
  intros Er El. unfold has_outbound. apply orb_true_iff.
  destruct (ensure_edges t sid sr) as [E|(d0 & E & _ & _ & Hc & _)].
  - left. rewrite E in El. unfold edges_load in El. fold (edges_of t sid) in El.
    destruct (edges_of t sid) as [|d l] eqn:Ed; [done|]. apply existsb_exists. exists d.
    apply (filter_In (fun d => d_session d =? sid)). fold (edges_of t sid). rewrite Ed. by left.
  - right. unfold edge_session_row, get_session in Er.
    destruct (List.find _ _) as [s|] eqn:Ef; [|done]. apply List.find_some in Ef as [Hin Hid].
    apply existsb_exists. exists s. split; [done|]. rewrite Hid. injection Er as <-.
    destruct (x_channel s); [done|]. exfalso. unfold channel_edge_ensure in E. cbn in E.
    apply (f_equal (fun x => length (t_edges x))) in E. cbn in E. rewrite length_app in E. cbn in E. lia.
Qed.

(** (C11) A blocking launch is answered.  When the child reaches a boundary with its
    reply edge first in line and the parent's call still open, then, unless a
    quiescent edge waits for the child's subtree, which an error never does, the
    committed boundary closes that call with one tool result carrying the child's
    answer (or the reason there is none), scrubbed and spilled, flagged as the
    boundary is, and wakes the parent. *)
Theorem blocking_launch_answered `{Ingest} (instance : cstring) (t : Store) (sid : Z) (sr : EdgeSessionRow)
    (e : DeliveryEdge) (rest : list DeliveryEdge) (err inc : bool) :
  edge_session_row t sid = Some sr -> 0 < r_leaf sr ->
  edges_load (channel_edge_ensure t sid sr) sid = e :: rest ->
  d_one_shot e = true -> d_kind e = KToolCall -> d_policy e <> PExplicit ->
  0 < r_parent sr -> call_open t (r_parent sr) (d_ref e) = true ->
  err = true \/ d_policy e <> PQuiescent \/ session_subtree_quiescent t sid = true ->
  let t1 := channel_edge_ensure t sid sr in
  let r := advance_deliver_boundary instance true true t sid err inc in
  1 <= fst r /\ r_parent sr ∈ t_woken (snd r) /\ call_open (snd r) (r_parent sr) (d_ref e) = false /\
  exists a, a ∈ t_entries (snd r) /\ e_session a = r_parent sr /\ e_role a = ROLE_TOOL /\
    e_call a = Some (d_ref e) /\ e_is_error a = err /\
    e_content a = Some (spill (r_parent sr) (d_ref e)
                         (scrub (one_shot_text t1 (boundary_of t1 sid sr err inc) e))).
Proof.
  intros Er Hl El Ho Hk Hp Hpar Hopen Hq. cbn zeta.
  set (t1 := channel_edge_ensure t sid sr) in *. set (b := boundary_of t1 sid sr err inc).
  assert (Hob : has_outbound t sid = true) by (apply (loaded_outbound t sid sr Er); unfold t1 in El; by rewrite El).
  rewrite (boundary_cases instance t sid sr err inc Er Hl Hob). unfold boundary_run. fold t1 b.
  rewrite El. cbn [length deliver_edges].
  assert (Hopen1 : call_open t1 (r_parent sr) (d_ref e) = true).
  { unfold t1. by destruct (ensure_edges t sid sr) as [->|(d & -> & _)]. }
  destruct (oneshot_fires instance t1 sid (r_parent sr) (d_ref e) (one_shot_text t1 b e) err Hopen1 Hpar) as (Ee & Ec & _).
  pose proof (oneshot_woken instance t1 sid (r_parent sr) (d_ref e) (one_shot_text t1 b e) err) as Ew.
  assert (Hq1 : held b e = false).
  { unfold held. cbn [b b_error b_quiet boundary_of].
    replace (session_subtree_quiescent t1 sid) with (session_subtree_quiescent t sid)
      by (unfold t1; destruct (ensure_edges t sid sr) as [->|(d & -> & _)]; [done|by rewrite quiescent_edges]).
    destruct Hq as [->|[Hq| ->]]; [done| |by rewrite andb_false_r].
    by rewrite bool_decide_false, andb_false_r. }
  unfold deliver_edge. destruct (decide _); [done|]. rewrite Ho, bool_decide_true, Hq1 by done. cbn [andb].
  unfold deliver_one_shot. cbn [p_store]. cbn [b b_sid b_row b_error boundary_of]. fold b.
  destruct (oneshot_resolve instance t1 sid (r_parent sr) (d_ref e) (one_shot_text t1 b e) err) as [w t2].
  cbn [fst snd] in Ee, Ec, Ew. rewrite Hopen1 in Ew. replace (0 <? r_parent sr) with true in Ew by lia. cbn in Ew.
  subst w. replace (0 <? r_parent sr) with true by lia. cbn [p_shipped].
  rewrite stamp_fold. set (t3 := with_edges _ _ t2). set (es := map _ rest).
  destruct (deliver_edges_grows instance b (length rest) es (mk_prog t3 (0 + 1) (r_parent sr))) as ([G1 G2] & S & W).
  cbn [p_store p_shipped p_wake] in G1, G2, S, W. specialize (W eq_refl).
  set (p := deliver_edges _ _ _ _ _) in *. unfold committed. rewrite W. cbn [b b_row boundary_of].
  replace (0 <? r_parent sr) with true by lia. cbn [fst snd].
  split_all.
  - lia.
  - cbn. apply elem_of_app. right. by apply list_elem_of_singleton.
  - apply (G2 (r_parent sr) (d_ref e)). change (call_open t2 (r_parent sr) (d_ref e) = false).
    rewrite Ec, Z.eqb_refl. unfold streq. rewrite bool_decide_true by done. apply andb_false_r.
  - eexists. split; [apply G1; change (t_entries t3) with (t_entries t2); rewrite Ee; apply elem_of_app; right;
      by apply list_elem_of_singleton|]. done.
Qed.

Lemma blocking_launch_answered_witness :
  let sr := mk_esr 4 1 (bs "discord") (bs "77") in
  let e := mk_edge 2 2 KToolCall (bs "call_1") PTurn 0 true in
  let t1 := channel_edge_ensure demo_store 2 sr in
  let r := @advance_deliver_boundary demo_ingest (bs "i1") true true demo_store 2 true false in
  1 <= fst r /\ r_parent sr ∈ t_woken (snd r) /\ call_open (snd r) (r_parent sr) (d_ref e) = false /\
  exists a, a ∈ t_entries (snd r) /\ e_session a = r_parent sr /\ e_role a = ROLE_TOOL /\
    e_call a = Some (d_ref e) /\ e_is_error a = true /\
    e_content a = Some (@spill demo_ingest (r_parent sr) (d_ref e)
                         (@scrub demo_ingest (one_shot_text t1 (boundary_of t1 2 sr true false) e))).
Proof.
  eapply (@blocking_launch_answered demo_ingest (bs "i1") demo_store 2 (mk_esr 4 1 (bs "discord") (bs "77"))
           (mk_edge 2 2 KToolCall (bs "call_1") PTurn 0 true)); try (vm_compute; reflexivity); try discriminate.
  by left.
Defined.
