(* ===== verification/DeliveryStream.v ===== *)
(** * The stream of an iteration edge

    A child with an 'iteration' edge reports every message to its parent as it
    lands.  Over any sequence of appends, mid-turn deliveries, boundaries and polls of
    the parent (check_session of src/tool_agent.c, which moves the cursor without a
    push), with any of the transactions failing, the parent has received each message
    up to the edge's cursor exactly once and in order, but those a poll passed over.
    The policies launch_agent gives a child's edges say why a session with a reply
    edge has no stream. *)
From stdpp Require Import relations.
From S2P Require Import Prelude CString Libc Ingest Store Delivery.

(** ** What tool_agent.c does to the edges of a child *)

(** The standing parent edges, which a poll of the idle child moves to its leaf. *)
Definition polled_edge (child : Z) (d : DeliveryEdge) : bool :=
  (d_session d =? child) && is_parent d && negb (d_one_shot d).

Definition poll_leaf (t : Store) (child : Z) : Z :=
  match get_session t child with Some s => Z.max (x_leaf s) 0 | None => 0 end.

Definition consumed_by_poll (t : Store) (child : Z) : Store :=
  with_edges (map (fun d => if polled_edge child d then with_cursor (poll_leaf t child) d else d) (t_edges t))
    (t_next_edge t) t.

(** What check_session reports of a session: the text of an idle child's answer; the
    transcript tail of a busy one is not modelled. *)
Inductive Check := NotAChild | CheckIdle (result : option cstring) | CheckBusy (state : SState).

Definition tool_check_session_handler (t : Store) (caller child : Z) : Check * Store :=
  match get_session t child with
  | None => (NotAChild, t)
  | Some s =>
      if negb (x_parent s =? caller) then (NotAChild, t)
      else match x_state s with
           | Idle => (CheckIdle (get_response_text t child), consumed_by_poll t child)
           | st => (CheckBusy st, t)
           end
  end.

(** The delivery argument of launch_agent: the policy asked for, unless it is refused. *)
Definition single_report (p : Policy) : bool := match p with PIteration | PExplicit => false | _ => true end.

Definition launch_delivery (delivery : option cstring) (background : bool) : option (option Policy) :=
  match delivery with
  | None | Some [] => Some None
  | Some s => match parse_policy s with
              | None => None
              | Some p => if negb background && negb (single_report p) then None else Some (Some p)
              end
  end.

Definition with_policy (p : Policy) (d : DeliveryEdge) : DeliveryEdge :=
  mk_edge (d_id d) (d_session d) (d_kind d) (d_ref d) p (d_cursor d) (d_one_shot d).

Definition delivery_edge_set_policy (t : Store) (sid : Z) (kind : EdgeKind) (p : Policy) : Store :=
  with_edges (map (fun d => if (d_session d =? sid) && bool_decide (d_kind d = kind) && negb (d_one_shot d)
                            then with_policy p d else d) (t_edges t)) (t_next_edge t) t.

(** The edges of a launched child: the policy asked for on its standing edge, and for a
    blocking launch the reply edge, both on a policy of a single report. *)
Definition launch_edges (agent_delivery_default : option cstring) (t : Store) (child : Z)
    (delivery : option Policy) (background : bool) (call : option cstring) : Store :=
  let t := match delivery with Some p => delivery_edge_set_policy t child KParent p | None => t end in
  match call with
  | None => t
  | Some c =>
      if background then t
      else
        let pol := match delivery with
                   | Some p => Some p
                   | None => option_map d_policy (List.find (polled_edge child) (t_edges t))
                   end in
        match pol with
        | Some PDigest | Some PTurn | Some PQuiescent =>
            delivery_edge_create t child KToolCall c (default PQuiescent pol) true
        | _ =>
            let p := match agent_delivery_default with
                     | Some s => match parse_policy s with
                                 | Some p => if single_report p then p else PQuiescent
                                 | None => PQuiescent end
                     | None => PQuiescent end in
            delivery_edge_create (delivery_edge_set_policy t child KParent p) child KToolCall c p true
        end
  end.

Section Stream.
Context `{Ingest} (instance : cstring) (sid parent eid : Z) (ch : cstring).

(** What has arrived in the parent's inbox from the child. *)
Definition from_child (q : Inbox) : bool :=
  (q_session q =? parent) && streq (q_source q) (bs "agent_result") &&
  bool_decide (q_ref q = Some (print_int sid)).

Definition received (t : Store) : list cstring := map q_payload (List.filter from_child (t_inbox t)).

(** A message the parent's polls have passed over: [sk] lists, for each poll that
    found the child idle, the cursor before it and the leaf it was moved to. *)
Definition polled (sk : list (Z * Z)) (e : Entry) : bool :=
  existsb (fun r => (r.1 <? e_id e) && (e_id e <=? r.2)) sk.

(** The messages up to the cursor that the edge owed. *)
Definition told (sk : list (Z * Z)) (t : Store) (c : Z) : list Entry :=
  List.filter (fun e => shown e && (e_id e <=? c) && negb (polled sk e)) (session_entries t sid).

(** A payload that carries the message, under some label. *)
Definition sent (payload : cstring) (e : Entry) : Prop :=
  exists label, payload = bs "Sub-agent " ++ label ++ bs ": " ++ scrub (text_of e).

Definition by_id (a b : Entry) : Prop := e_id a < e_id b.

Definition the_edge (d : DeliveryEdge) : Prop :=
  d_id d = eid /\ d_session d = sid /\ d_kind d = KParent /\ d_policy d = PIteration /\ d_one_shot d = false.

Definition others (d : DeliveryEdge) : Prop :=
  d_id d <> eid /\ d_kind d = KChannel /\ d_one_shot d = false.

(** What the parent received is what the edge owed, and nothing past the cursor has
    been passed over. *)
Definition exact (sk : list (Z * Z)) (t : Store) (c : Z) : Prop :=
  Forall2 sent (received t) (told sk t c) /\
  forall e, e ∈ session_entries t sid -> shown e = true -> c < e_id e -> polled sk e = false.

Record Stream (sk : list (Z * Z)) (t : Store) : Prop := {
  m_row : exists sr, edge_session_row t sid = Some sr /\ r_parent sr = parent /\ r_channel sr = ch /\
                     r_leaf sr < t_next_entry t /\
                     forall e, e ∈ session_entries t sid -> shown e = true -> e_id e <= r_leaf sr;
  m_sorted : StronglySorted by_id (session_entries t sid);
  m_next : forall e, e ∈ t_entries t -> e_id e < t_next_entry t;
  m_ids : NoDup (map d_id (t_edges t));
  m_fresh : forall d, d ∈ t_edges t -> d_id d < t_next_edge t;
  m_few : (length (edges_of t sid) + (if has_edge t sid KChannel ch then 0 else 1) <= EDGE_MAX)%nat;
  m_short : forall d, d ∈ edges_of t sid -> (length (d_ref d) < 192)%nat;
  m_kinds : forall d, d ∈ edges_of t sid -> the_edge d \/ others d;
  m_polls : 0 < t_next_entry t /\ Forall (fun r => r.2 < t_next_entry t) sk;
  m_sent : exists d, d ∈ t_edges t /\ the_edge d /\ d_cursor d < t_next_entry t /\ exact sk t (d_cursor d)
}.

(** ** The pushes of the edge *)
Section Fixed.
Context (sk : list (Z * Z)).

Lemma received_push t label text :
  received (parent_push t parent sid label text) =
  received t ++ [bs "Sub-agent " ++ label ++ bs ": " ++ scrub text].
Proof.
  unfold received, parent_push, inbox_insert. cbn [t_inbox with_inbox].
  rewrite List.filter_app, map_app. f_equal. cbn [List.filter].
  unfold from_child. cbn [q_session q_source q_ref]. rewrite Z.eqb_refl. unfold streq.
  by rewrite !bool_decide_true by done.
Qed.

Lemma received_rows e sr fl rows : forall t,
  d_kind e = KParent -> r_parent sr = parent ->
  exists ps, received (push_rows t sid e sr fl rows) = received t ++ ps /\ Forall2 sent ps rows.
Proof.
  induction rows as [|r rows IH]; intros t Hk Hp; cbn [push_rows].
  - exists []. by rewrite app_nil_r.
  - set (label := match rows, fl with [], Some l => l | _, _ => bs "update" end).
    destruct (IH (push t sid e sr label (text_of r)) Hk Hp) as (ps & E & F). rewrite E.
    assert (Hpush : push t sid e sr label (text_of r) = parent_push t parent sid label (text_of r)).
    { unfold push. by rewrite Hk, Hp. }
    rewrite Hpush, received_push, <- app_assoc. eexists. split; [done|].
    constructor; [|done]. by exists label.
Qed.

(** A push of another edge is not from the child to its parent. *)
Lemma received_other e sr label text t : d_kind e = KChannel -> received (push t sid e sr label text) = received t.
Proof. intros Hk. unfold push. rewrite Hk. unfold channel_push. by destruct (duplicate_error _ _ _ _). Qed.

Lemma received_other_rows e sr fl rows : forall t,
  d_kind e = KChannel -> received (push_rows t sid e sr fl rows) = received t.
Proof.
  induction rows as [|r rows IH]; intros t Hk; cbn [push_rows]; [done|].
  rewrite IH by done. by apply received_other.
Qed.

(** ** Prose *)

Lemma told_since t c c' :
  StronglySorted by_id (session_entries t sid) -> c <= c' ->
  (forall e, e ∈ session_entries t sid -> shown e = true -> e_id e <= c') ->
  (forall e, e ∈ session_entries t sid -> shown e = true -> c < e_id e -> polled sk e = false) ->
  told sk t c' = told sk t c ++ prose_since t sid c.
Proof.
  unfold told, prose_since. intros Hs Hc. induction Hs as [|x l Hs IH Hx]; [done|]. intros Hall Hfr.
  assert (IH' := IH (fun e He => Hall e (list_elem_of_further e x l He)) (fun e He => Hfr e (list_elem_of_further e x l He))).
  clear IH. cbn [List.filter]. destruct (shown x) eqn:Ex; cbn [andb]; [|by rewrite andb_false_r].
  rewrite (proj2 (Z.leb_le (e_id x) c')) by (apply Hall; [by left|done]). cbn [andb].
  destruct (decide (e_id x <= c)) as [Hle|Hgt].
  - replace (e_id x <=? c) with true by lia. replace (c <? e_id x) with false by lia. cbn [andb].
    destruct (negb (polled sk x)); cbn [app]; by rewrite IH'.
  - replace (e_id x <=? c) with false by lia. replace (c <? e_id x) with true by lia. cbn [andb].
    rewrite (Hfr x) by (by left || done || lia). cbn [negb]. rewrite IH'.
    assert (E : List.filter (fun e => shown e && (e_id e <=? c) && negb (polled sk e)) l = []).
    { apply filter_none. intros y Hy%list_elem_of_In. rewrite Forall_forall in Hx. specialize (Hx y (proj2 (list_elem_of_In _ _) Hy)). unfold by_id in Hx.
      replace (e_id y <=? c) with false by lia. by rewrite andb_false_r. }
    by rewrite E.
Qed.

(** ** One step of the table *)

Lemma edges_of_stamp t c ids :
  edges_of (with_edges (map (stamp_ids c ids) (t_edges t)) (t_next_edge t) t) sid =
  map (stamp_ids c ids) (edges_of t sid).
Proof.
  unfold edges_of. cbn [t_edges with_edges]. induction (t_edges t) as [|d l IH]; [done|]. cbn [map List.filter].
  rewrite IH. replace (d_session (stamp_ids c ids d)) with (d_session d) by (unfold stamp_ids; by case_bool_decide).
  by destruct (d_session d =? sid).
Qed.

Lemma stamp_the_edge c ids d : the_edge (stamp_ids c ids d) <-> the_edge d.
Proof. unfold stamp_ids. by case_bool_decide. Qed.

Lemma stamp_others c ids d : others (stamp_ids c ids d) <-> others d.
Proof. unfold stamp_ids. by case_bool_decide. Qed.

(** Cursors are stamped, and what the parent received grows with the cursor of its
    edge. *)
Lemma stream_change t t' c ids :
  Stream sk t -> t_entries t' = t_entries t -> t_next_entry t' = t_next_entry t -> t_next_edge t' = t_next_edge t ->
  edge_session_row t' sid = edge_session_row t sid -> t_edges t' = map (stamp_ids c ids) (t_edges t) ->
  (~ eid ∈ ids) /\ received t' = received t \/
  (eid ∈ ids) /\ c < t_next_entry t /\
   (forall d, d ∈ t_edges t -> the_edge d -> exact sk t (d_cursor d) ->
              Forall2 sent (received t') (told sk t c)) /\
   (forall e, e ∈ session_entries t sid -> shown e = true -> e_id e <= c) ->
  Stream sk t'.
Proof.
  intros [R S N I F W Sh K Pl (d & Hd & Hthe & Hc & Hsent)] E1 E2 E3 E4 E5 Hch.
  assert (Eo : edges_of t' sid = map (stamp_ids c ids) (edges_of t sid)).
  { rewrite <- edges_of_stamp. unfold edges_of. by rewrite E5. }
  assert (Es : session_entries t' sid = session_entries t sid) by (unfold session_entries; by rewrite E1).
  assert (Ep : forall k, told sk t' k = told sk t k) by (intros k; unfold told; by rewrite Es).
  split.
  - by rewrite E4, Es, E2.
  - by rewrite Es.
  - by rewrite E1, E2.
  - by rewrite E5, stamp_ids_id.
  - rewrite E5, E3. intros x (y & -> & Hy)%list_elem_of_fmap. specialize (F y Hy).
    unfold stamp_ids. by case_bool_decide.
  - rewrite Eo, length_map. replace (has_edge t' sid KChannel ch) with (has_edge t sid KChannel ch); [done|].
    rewrite <- (has_edge_stamp t sid KChannel ch c ids). unfold has_edge. by rewrite E5.
  - rewrite Eo. intros x (y & -> & Hy)%list_elem_of_fmap. specialize (Sh y Hy).
    unfold stamp_ids. by case_bool_decide.
  - rewrite Eo. intros x (y & -> & Hy)%list_elem_of_fmap. rewrite stamp_the_edge, stamp_others. by apply K.
  - by rewrite E2.
  - rewrite E5. exists (stamp_ids c ids d). split; [apply list_elem_of_fmap; eauto|].
    split; [by apply stamp_the_edge|]. unfold exact. rewrite E2, Ep, Es. destruct Hthe as [Hid Hthe].
    destruct Hch as [[Hn Hr]|(Hin & Hlt & Hgrow & Hall)]; unfold stamp_ids.
    + rewrite bool_decide_false by congruence. by rewrite Hr.
    + rewrite bool_decide_true by congruence. cbn [d_cursor with_cursor]. split; [done|].
      split; [by apply (Hgrow d)|]. intros e He Hsh Hlt'. specialize (Hall e He Hsh). lia.
Qed.

Lemma stream_unstamped t t' :
  Stream sk t -> t_entries t' = t_entries t -> t_next_entry t' = t_next_entry t -> t_next_edge t' = t_next_edge t ->
  edge_session_row t' sid = edge_session_row t sid -> t_edges t' = t_edges t -> received t' = received t -> Stream sk t'.
Proof.
  intros Hs E1 E2 E3 E4 E5 E6. apply (stream_change t t' 0 []); try done.
  - rewrite E5. symmetry. etransitivity; [|apply map_id]. apply map_ext. intros d. unfold stamp_ids.
    by rewrite bool_decide_false by apply not_elem_of_nil.
  - left. split; [apply not_elem_of_nil|done].
Qed.

(** The pushes of the edge, up to a cursor [c] no message is past. *)
Lemma stream_push t e sr fl c :
  Stream sk t -> e ∈ t_edges t -> the_edge e -> r_parent sr = parent -> d_cursor e <= c < t_next_entry t ->
  (forall x, x ∈ session_entries t sid -> shown x = true -> e_id x <= c) ->
  Stream sk (edge_cursor_set (push_rows t sid e sr fl (prose_since t sid (d_cursor e))) (d_id e) c).
Proof.
  intros Hs He Hthe Hp Hc Hall.
  destruct (received_rows e sr fl (prose_since t sid (d_cursor e)) t) as (ps & Hps & Fps); [by apply Hthe|done|].
  pose proof (push_rows_only sid e sr fl (prose_since t sid (d_cursor e)) t) as Ho.
  set (t1 := push_rows _ _ _ _ _ _) in *. rewrite edge_cursor_set_stamp.
  assert (Hrow : edge_session_row t1 sid = edge_session_row t sid).
  { unfold edge_session_row. by rewrite (only_pushes_session _ _ sid Ho). }
  apply (stream_change t _ c [d_id e]); try (rewrite Ho; done); [done|].
  right. destruct Hthe as [Hid Hthe]. rewrite Hid.
  split; [by apply list_elem_of_singleton|]. split; [lia|]. split; [|done].
  intros d Hd [Hid' _] [Hsent Hfr]. change (received (with_edges _ _ t1)) with (received t1). rewrite Hps.
  rewrite (NoDup_id_eq _ d e (m_ids _ t Hs) Hd He) in Hsent, Hfr by congruence.
  rewrite (told_since t (d_cursor e) c) by (done || lia || apply Hs). by apply Forall2_app.
Qed.

(** ** A boundary *)

Lemma row_session t t' : t_sessions t' = t_sessions t -> edge_session_row t' sid = edge_session_row t sid.
Proof. intros E. unfold edge_session_row, get_session. by rewrite E. Qed.

Section Loop.
Context (sr : EdgeSessionRow) (Q : Z -> Prop).

(** The loops keep the stream, and the cursor of its edge is as [Q] says or the edge
    is still ahead. *)
Record Loop (rest : list DeliveryEdge) (t : Store) : Prop := {
  l_stream : Stream sk t;
  l_row : edge_session_row t sid = Some sr;
  l_ids : NoDup (map d_id rest);
  l_rest : forall r, r ∈ rest -> (the_edge r /\ r ∈ t_edges t) \/ others r;
  l_edge : forall d, d ∈ t_edges t -> the_edge d -> Q (d_cursor d) \/ d ∈ rest
}.

(** Past an edge whose row, if it is the stream's, is now at the leaf. *)
Lemma loop_next e rest t t' c :
  Loop (e :: rest) t -> Stream sk t' -> edge_session_row t' sid = edge_session_row t sid ->
  t_edges t' = map (stamp_ids c [d_id e]) (t_edges t) -> (the_edge e -> Q c) ->
  Loop rest t'.
Proof.
  intros [S R N L E] Hs Hr He Hc. cbn [map] in N. apply NoDup_cons in N as [Nn N].
  split; [done|by rewrite Hr|done| |].
  - intros r Hin. destruct (L r) as [[Ht Hrow]|]; [by right| |by right]. left. split; [done|].
    rewrite He. apply list_elem_of_fmap. exists r. split; [|done]. unfold stamp_ids.
    rewrite bool_decide_false; [done|]. rewrite list_elem_of_singleton. intros Ei. apply Nn. rewrite <- Ei.
    apply list_elem_of_fmap. eauto.
  - rewrite He. intros d' (d & -> & Hd)%list_elem_of_fmap Ht. apply stamp_the_edge in Ht.
    destruct (decide (d_id d = d_id e)) as [Ei|Ei].
    + left. unfold stamp_ids. rewrite bool_decide_true by (by apply list_elem_of_singleton). cbn. apply Hc.
      destruct (L e) as [[? _]|[Hne _]]; [by left|done|]. exfalso. apply Hne. rewrite <- Ei. apply Ht.
    + unfold stamp_ids. rewrite bool_decide_false by (by rewrite list_elem_of_singleton).
      destruct (E d Hd Ht) as [?|[->|?]%elem_of_cons]; auto. done.
Qed.

Lemma loop_skip e rest t :
  Loop (e :: rest) t -> (the_edge e -> Q (d_cursor e)) -> Loop rest t.
Proof.
  intros [S R N L E] Hc. cbn [map] in N. apply NoDup_cons in N as [Nn N]. split; [done..| |].
  - intros r Hr. apply L. by right.
  - intros d Hd Ht. destruct (E d Hd Ht) as [?|[->|?]%elem_of_cons]; auto.
Qed.

(** Stamping another edge. *)
Lemma loop_other e rest t t1 c :
  Loop (e :: rest) t -> others e -> only_pushes t t1 -> received t1 = received t ->
  Loop rest (edge_cursor_set t1 (d_id e) c).
Proof.
  intros Hl [Hi _] Hon Hrec. rewrite edge_cursor_set_stamp. pose proof (only_pushes_edges _ _ Hon) as [He1 He2].
  assert (Hrow : edge_session_row (with_edges (map (stamp_ids c [d_id e]) (t_edges t1)) (t_next_edge t1) t1) sid
    = edge_session_row t sid) by (apply row_session; by rewrite Hon).
  apply (loop_next e rest t _ c Hl); [|done|by cbn; rewrite He1|intros Ht; exfalso; by apply Hi, Ht].
  apply (stream_change t _ c [d_id e]); try done; try (rewrite Hon; done); [apply Hl|].
  left. split; [by rewrite list_elem_of_singleton|done].
Qed.

(** Pushing the stream's edge. *)
Lemma loop_push e rest t fl c :
  Loop (e :: rest) t -> the_edge e -> e ∈ t_edges t -> r_parent sr = parent -> d_cursor e <= c < t_next_entry t ->
  (forall x, x ∈ session_entries t sid -> shown x = true -> e_id x <= c) -> Q c ->
  Loop rest (edge_cursor_set (push_rows t sid e sr fl (prose_since t sid (d_cursor e))) (d_id e) c).
Proof.
  intros Hl Ht He Hp Hc Hall HQ.
  pose proof (push_rows_only sid e sr fl (prose_since t sid (d_cursor e)) t) as Hon.
  apply (loop_next e rest t _ c Hl).
  - apply stream_push; try done. apply Hl.
  - rewrite edge_cursor_set_stamp. apply row_session. cbn [t_sessions with_edges]. by rewrite Hon.
  - rewrite edge_cursor_set_stamp. cbn [t_edges with_edges]. by rewrite (proj1 (only_pushes_edges _ _ Hon)).
  - done.
Qed.

Lemma loop_start t t1 :
  Stream sk t1 -> edge_session_row t1 sid = Some sr -> edges_load t1 sid = t -> Loop t t1.
Proof.
  intros Hs Hr <-.
  assert (Hp : edges_load t1 sid ≡ₚ edges_of t1 sid).
  { apply edges_load_small; [|apply Hs]. pose proof (m_few _ _ Hs). destruct (has_edge _ _ _ _); lia. }
  split; [done|done| | |].
  - rewrite Hp. by apply NoDup_map_filter, Hs.
  - intros r. rewrite Hp. intros Hr'. destruct (m_kinds _ _ Hs r Hr') as [?|?]; [left|by right]. split; [done|].
    by apply elem_of_filter_bool in Hr' as [? _].
  - intros d Hd Ht. right. rewrite Hp. apply elem_of_filter_bool. split; [done|]. destruct Ht as (_ & -> & _). lia.
Qed.

End Loop.

Section Boundary.
Context (b : Boundary).
Hypothesis Hsid : b_sid b = sid.
Hypothesis Hpos : 0 < parent.
Let at_leaf : Z -> Prop := fun c => r_leaf (b_row b) <= c.

Lemma loop_step e rest p :
  Loop (b_row b) at_leaf (e :: rest) (p_store p) ->
  exists p', deliver_edge instance b e rest p = (rest, p') /\ Loop (b_row b) at_leaf rest (p_store p').
Proof.
  intros Hl. pose proof Hl as [S R N L E]. destruct (m_row _ _ S) as (sr & Er & Hrp & Hrc & Hrl & Hall).
  rewrite R in Er. injection Er as <-.
  assert (Ho : d_one_shot e = false) by (destruct (L e) as [[Ht _]|Ht]; [by left|apply Ht|apply Ht]).
  unfold deliver_edge. destruct (decide (d_policy e = PExplicit)) as [Hpe|_].
  { exists p. split; [done|]. apply (loop_skip _ _ e); [done|]. intros (_ & _ & _ & Ht & _). congruence. }
  rewrite Ho. cbn [andb]. eexists. split; [done|]. unfold deliver_standing.
  destruct (r_leaf (b_row b) <=? d_cursor e) eqn:El; [apply (loop_skip _ _ e); [done|unfold at_leaf; lia]|].
  destruct (L e) as [[Ht He]|Ht]; [by left| |].
  - pose proof Ht as (Hi & Hse & Hk & Hpo & _). unfold is_parent, is_channel.
    rewrite Hk, (bool_decide_true (KParent = KParent)), (bool_decide_false (KParent = KChannel)) by done. cbn [negb andb].
    replace (r_parent (b_row b) <=? 0) with false by lia.
    unfold held. rewrite (bool_decide_false (d_policy e = PQuiescent)) by congruence.
    rewrite andb_false_r. cbn [andb]. unfold push_standing. rewrite Hpo. unfold iteration_push_since. cbn [p_store].
    rewrite Hsid. apply loop_push; try done; unfold at_leaf; lia.
  - pose proof Ht as (Hi & Hk & _). unfold is_parent, is_channel.
    rewrite Hk, (bool_decide_false (KChannel = KParent)), (bool_decide_true (KChannel = KChannel)) by done. cbn [negb andb].
    destruct (negb (b_channel b)); [by apply (loop_other _ _ e _ _ _ _ Hl); auto with cclaw|].
    destruct (ingest_only _ _); [by apply (loop_other _ _ e _ _ _ _ Hl); auto with cclaw|].
    destruct (held b e); [apply (loop_skip _ _ e); [done|]; intros Ht'; exfalso; by apply Hi, Ht'|].
    pose proof (push_standing_only (p_store p) b e) as Hon.
    assert (Hrec : received (snd (push_standing (p_store p) b e)) = received (p_store p)).
    { unfold push_standing. destruct (d_policy e); cbn [snd];
        try (destruct (standing_text _ _ _); cbn [snd]; [rewrite Hsid; by apply received_other|done]).
      unfold iteration_push_since. cbn [snd]. rewrite Hsid. by apply received_other_rows. }
    destruct (push_standing (p_store p) b e) as [k t1]. cbn [snd p_store] in *. by apply (loop_other _ _ e _ _ _ _ Hl).
Qed.

Lemma loop_run n : forall edges p,
  n = length edges -> Loop (b_row b) at_leaf edges (p_store p) ->
  Loop (b_row b) at_leaf [] (p_store (deliver_edges instance n b edges p)).
Proof.
  induction n as [|n IH]; intros edges p Hn Hl; destruct edges as [|e rest]; try done.
  cbn [deliver_edges]. destruct (loop_step e rest p Hl) as (p' & -> & Hl'). apply IH; [simpl in Hn; lia|done].
Qed.

End Boundary.

(** The chat's edge joins the others. *)
Lemma stream_ensure t sr :
  Stream sk t -> edge_session_row t sid = Some sr -> Stream sk (channel_edge_ensure t sid sr).
Proof.
  intros Hs Hr. pose proof Hs as [(sr' & Er & Hrp & Hrc & Hrl) S N I F W Sh K Pl (d & Hd & Ht & Hc & Hsent)].
  rewrite Hr in Er. injection Er as <-.
  destruct (has_edge t sid KChannel ch) eqn:Hh; [rewrite ensure_id; [done|by rewrite Hrc]|].
  destruct (ensure_edges t sid sr) as [->|(x & E & Hx & Hxs & Hxr & Hxk & Hxo & Hxc)]; [done|].
  assert (Hne : x.(d_id) <> eid).
  { rewrite Hx. specialize (F d Hd). destruct Ht as [<- _]. lia. }
  rewrite E. set (t1 := with_edges _ _ t).
  assert (Eo : edges_of t1 sid = edges_of t sid ++ [x]).
  { unfold edges_of, t1. cbn [t_edges with_edges]. rewrite List.filter_app. cbn [List.filter].
    by replace (_ =? _) with true by lia. }
  split.
  - exists sr. split; [|done]. rewrite <- Hr. by apply row_session.
  - done.
  - done.
  - unfold t1. cbn [t_edges with_edges]. rewrite map_app. apply NoDup_app. split; [done|]. split; [|apply NoDup_singleton].
    intros i (y & -> & Hy)%list_elem_of_fmap. cbn [map]. rewrite list_elem_of_singleton. specialize (F y Hy). lia.
  - unfold t1. cbn [t_edges t_next_edge with_edges]. intros y [Hy| ->%list_elem_of_singleton]%elem_of_app; [|lia].
    specialize (F y Hy). lia.
  - rewrite Eo, length_app. cbn [length].
    replace (has_edge t1 sid KChannel ch) with true; [lia|]. symmetry. unfold has_edge, t1. cbn [t_edges with_edges].
    rewrite existsb_app. cbn. rewrite Hxs, Hxk, Hxr, Hrc, Z.eqb_refl. unfold streq.
    rewrite !bool_decide_true by done. apply orb_true_r.
  - rewrite Eo. intros y [Hy| ->%list_elem_of_singleton]%elem_of_app; [by apply Sh|]. rewrite Hxr.
    by apply (row_channel_short t sid).
  - rewrite Eo. intros y [Hy| ->%list_elem_of_singleton]%elem_of_app; [by apply K|]. by right.
  - done.
  - exists d. split; [unfold t1; cbn; apply elem_of_app; by left|done].
Qed.

Lemma stream_committed p : Stream sk (p_store p) -> Stream sk (snd (committed p)).
Proof.
  intros Hs. unfold committed. cbn [snd]. destruct (0 <? p_wake p); [|done].
  by apply (stream_unstamped (p_store p)).
Qed.

(** The run of a boundary brings the edge to the leaf. *)
Lemma stream_run t sr err inc :
  0 < parent -> Stream sk t -> edge_session_row t sid = Some sr ->
  Loop sr (fun c => r_leaf sr <= c) [] (p_store (boundary_run instance t sid sr err inc)).
Proof.
  intros Hp Hs Hr. set (t1 := channel_edge_ensure t sid sr).
  assert (Hr1 : edge_session_row t1 sid = Some sr).
  { rewrite <- Hr. apply row_of_session, ensure_session. }
  apply (loop_run (boundary_of t1 sid sr err inc)); [done|done|done|].
  apply loop_start; [by apply stream_ensure|done|done].
Qed.

Lemma stream_boundary t begin_ok commit_ok err inc :
  0 < parent -> Stream sk t -> Stream sk (snd (advance_deliver_boundary instance begin_ok commit_ok t sid err inc)).
Proof.
  intros Hp Hs. destruct (begin_ok && commit_ok) eqn:Eb;
    [|destruct (boundary_noop instance begin_ok commit_ok t sid err inc) as [_ ->]; [by left|done]].
  apply andb_true_iff in Eb as [-> ->].
  destruct (m_row _ _ Hs) as (sr & Er & _).
  destruct (decide (0 < r_leaf sr)).
  2: { destruct (boundary_noop instance true true t sid err inc) as [_ ->]; [|done]. right; right. rewrite Er. lia. }
  destruct (has_outbound t sid) eqn:Eo.
  2: { destruct (boundary_noop instance true true t sid err inc) as [_ ->]; [|done]. by right; left. }
  rewrite (boundary_cases instance t sid sr) by done. apply stream_committed. by apply (stream_run t sr err inc Hp Hs Er).
Qed.

(** ** Mid-turn *)

Lemma last_prose c l e :
  StronglySorted by_id l -> last (List.filter (fun e => (c <? e_id e) && shown e) l) = Some e ->
  e ∈ l /\ c < e_id e /\ forall x, x ∈ l -> shown x = true -> c < e_id x -> e_id x <= e_id e.
Proof.
  intros Hs. revert e. induction Hs as [|y l Hs IH Hy]; intros e; [done|]. cbn [List.filter].
  destruct ((c <? e_id y) && shown y) eqn:Ey.
  - destruct (List.filter (fun e => (c <? e_id e) && shown e) l) as [|z zs] eqn:Ez.
    + intros [= <-]. split; [by left|]. split; [lia|]. intros x [->|Hx]%elem_of_cons Hsh Hc; [lia|].
      assert (Hin : x ∈ List.filter (fun e => (c <? e_id e) && shown e) l).
      { apply elem_of_filter_bool. split; [done|]. rewrite Hsh. lia. }
      rewrite Ez in Hin. by apply elem_of_nil in Hin.
    + intros Hl. assert (Hl' : last (z :: zs) = Some e) by done. destruct (IH e Hl') as (Hin & Hce & Hmax).
      split; [by right|]. split; [done|]. intros x [->|Hx]%elem_of_cons Hsh Hc; [|by apply Hmax].
      rewrite Forall_forall in Hy. specialize (Hy e Hin). unfold by_id in Hy. lia.
  - intros Hl. destruct (IH e Hl) as (Hin & Hce & Hmax). split; [by right|]. split; [done|].
    intros x [->|Hx]%elem_of_cons Hsh Hc; [|by apply Hmax]. rewrite Hsh, andb_true_r in Ey. lia.
Qed.

Lemma last_map_filter_none {A} (p : A -> bool) l : zlen (List.filter p l) > 0 -> exists e, last (List.filter p l) = Some e.
Proof. 
  destruct (List.filter p l) as [|x k]; [done|]. intros _. destruct (last (x :: k)) eqn:E; [eauto|].
  by apply last_None in E.
Qed.

Lemma stream_iterate sr edges : forall t w,
  0 < parent -> r_parent sr = parent -> Loop sr (fun _ => True) edges t ->
  Stream sk (fst (iterate_edges sid sr edges t w)).
Proof.
  induction edges as [|e rest IH]; intros t w Hp Hrp Hl; cbn [iterate_edges]; [apply Hl|].
  assert (Hskip : Loop sr (fun _ => True) rest t) by (by apply (loop_skip _ _ e)).
  destruct (d_one_shot e || negb (bool_decide (d_policy e = PIteration))); [by apply IH|].
  destruct (is_parent e && (r_parent sr <=? 0)) eqn:E1; [by apply IH|].
  destruct (negb (is_parent e) && negb (is_channel e)); [by apply IH|].
  unfold iteration_push_since. destruct (0 <? zlen (prose_since t sid (d_cursor e))) eqn:En.
  2: { assert (E0 : prose_since t sid (d_cursor e) = []).
       { destruct (prose_since t sid (d_cursor e)) as [|x l]; [done|]. autorewrite with cclaw_rw in En.
         pose proof (zlen_nonneg l). lia. }
       rewrite E0. by apply IH. }
  apply IH; [done..|].
  destruct (last_map_filter_none (fun x => (d_cursor e <? e_id x) && shown x) (session_entries t sid)) as (x & Ex);
    [change (zlen (prose_since t sid (d_cursor e)) > 0); lia|].
  unfold prose_since at 2. rewrite Ex.
  change (default (d_cursor e) (option_map e_id (Some x))) with (e_id x).
  pose proof Hl as [S R N L E].
  destruct (last_prose _ _ x (m_sorted _ _ S) Ex) as (Hin & Hc & Hmax).
  destruct (L e) as [[Ht He]|Ht]; [by left| |].
  - apply loop_push; try done.
    + split; [lia|]. apply (m_next _ _ S). unfold session_entries in Hin. by apply elem_of_filter_bool in Hin as [? _].
    + intros y Hy Hsh. destruct (decide (d_cursor e < e_id y)); [by apply Hmax|lia].
  - apply (loop_other _ _ e _ t); try done; [apply push_rows_only|]. apply received_other_rows. apply Ht.
Qed.

Lemma stream_iteration t begin_ok commit_ok :
  0 < parent -> Stream sk t -> Stream sk (advance_deliver_iteration begin_ok commit_ok t sid).
Proof.
  intros Hp Hs. unfold advance_deliver_iteration. case_if; [done|].
  destruct (m_row _ _ Hs) as (sr & Er & Hrp & _). rewrite Er. destruct begin_ok; [cbn [negb]|done].
  pose proof (stream_iterate sr (edges_load t sid) t 0 Hp Hrp) as Hi.
  destruct (iterate_edges sid sr (edges_load t sid) t 0) as [t' w]. cbn [fst] in Hi.
  destruct commit_ok; [cbn [negb]|done].
  assert (Hs' : Stream sk t') by (apply Hi, loop_start; done).
  destruct (0 <? w); [|done]. by apply (stream_unstamped t').
Qed.

(** ** Appends *)

Lemma stream_append t s par it ty role c call tool err stop src note :
  role <> ROLE_ASSISTANT \/ ty <> TCompaction ->
  Stream sk t -> Stream sk (snd (insert_entry t s par it ty role c call tool err stop src note)).
Proof.
  intros Hty Hs. pose proof Hs as [(sr & Er & Hrp & Hrc & Hrl & Hall) S N I F W Sh K Pl (d & Hd & Ht & Hc & Hsent)].
  pose proof (insert_entry_entries t s par it ty role c call tool err stop src note) as Ee.
  pose proof (insert_entry_get t s par it ty role c call tool err stop src note sid) as Eg.
  pose proof (insert_entry_rest t s par it ty role c call tool err stop src note) as (R1 & R2 & R3 & _ & _ & _ & R7 & _).
  set (t' := snd (insert_entry _ _ _ _ _ _ _ _ _ _ _ _ _)) in *. set (x := mk_entry _ _ _ _ _ _ _ _ _ _ _ _ _ _) in Ee.
  clearbody t'.
  assert (Eo : edges_of t' sid = edges_of t sid) by (unfold edges_of; by rewrite R1).
  assert (Es : session_entries t' sid = session_entries t sid ++ (if s =? sid then [x] else [])).
  { unfold session_entries. rewrite Ee, List.filter_app. f_equal. }
  split; rewrite ?Eo, ?R1, ?R2; try done.
  - unfold edge_session_row in Er. destruct (get_session t sid) as [ss|] eqn:Egs; [|done]. cbn in Er.
    unfold edge_session_row. rewrite Eg, R7. cbn [option_map]. eexists. split; [done|].
    injection Er as <-. cbn [r_parent r_channel r_leaf] in *.
    destruct (s =? sid) eqn:Esid.
    + replace (sid =? s) with true in * by lia. cbn [andb] in *.
      destruct (decide (ty = TCompaction)) as [Et|Et].
      * rewrite (bool_decide_true (ty = TCompaction)) by done. cbn [negb]. split_all; try done; [lia|].
        rewrite Es. intros e [He| ->%list_elem_of_singleton]%elem_of_app Hsh; [by apply Hall|]. exfalso.
        unfold shown, x in Hsh. cbn [e_role] in Hsh. destruct Hty as [Hty|Hty]; [|done].
        replace (role =? ROLE_ASSISTANT) with false in Hsh by lia. done.
      * rewrite (bool_decide_false (ty = TCompaction)) by done. cbn. split_all; try done; [lia|].
        rewrite Es. intros e [He| ->%list_elem_of_singleton]%elem_of_app Hsh; [|done].
        specialize (Hall e He Hsh). lia.
    + replace (sid =? s) with false in * by lia. cbn [andb]. rewrite Es, app_nil_r. split_all; try done. lia.
  - rewrite Es. destruct (s =? sid); [|by rewrite app_nil_r].
    assert (Hlt : forall e, e ∈ session_entries t sid -> by_id e x).
    { intros e He. apply N. unfold session_entries in He. by apply elem_of_filter_bool in He as [? _]. }
    clear - S Hlt. induction S as [|y l S IH Hy]; cbn [app]; [repeat constructor|]. constructor.
    + apply IH. intros e He. apply Hlt. by right.
    + apply Forall_app. split; [done|]. constructor; [apply Hlt; by left|constructor].
  - rewrite Ee, R7. intros e [He| ->%list_elem_of_singleton]%elem_of_app; [|cbn; lia]. specialize (N e He). lia.
  - unfold has_edge. by rewrite R1.
  - rewrite R7. destruct Pl as [P1 P2]. split; [lia|]. eapply Forall_impl; [exact P2|]. intros r Hr. cbn in Hr. lia.
  - exists d. split; [done|]. split; [done|]. rewrite R7. split; [lia|]. destruct Hsent as [Hsent Hfr]. split.
    + replace (received t') with (received t) by (unfold received; by rewrite R3).
      replace (told sk t' (d_cursor d)) with (told sk t (d_cursor d)); [done|].
      unfold told. rewrite Es, List.filter_app. destruct (s =? sid); cbn [List.filter]; [|by rewrite app_nil_r].
      cbn [e_id x]. replace (t_next_entry t <=? d_cursor d) with false by lia. rewrite andb_false_r. by rewrite app_nil_r.
    + rewrite Es. intros e [He|He]%elem_of_app Hsh Hlt; [by apply Hfr|].
      destruct (s =? sid); [|by apply elem_of_nil in He]. apply list_elem_of_singleton in He as ->.
      apply not_true_iff_false. intros (r & Hr & Hb)%existsb_exists. destruct Pl as [_ P2].
      rewrite Forall_forall in P2. specialize (P2 r (proj2 (list_elem_of_In _ _) Hr)). cbn [e_id x] in Hb. lia.
Qed.

End Fixed.

(** ** A poll of the parent *)

Lemma stamp_where (P : DeliveryEdge -> bool) c l :
  NoDup (map d_id l) ->
  map (fun d => if P d then with_cursor c d else d) l = map (stamp_ids c (map d_id (List.filter P l))) l.
Proof.
  intros Hn. apply map_ext_in. intros d Hd%list_elem_of_In. unfold stamp_ids.
  destruct (P d) eqn:E; [rewrite bool_decide_true|rewrite bool_decide_false]; try done.
  - apply list_elem_of_fmap. exists d. split; [done|]. by apply elem_of_filter_bool.
  - intros (e & Ei & (He & Hp)%elem_of_filter_bool)%list_elem_of_fmap.
    rewrite (NoDup_id_eq _ d e Hn Hd He Ei) in E. congruence.
Qed.

Lemma told_polled sk t c L :
  (forall e, e ∈ session_entries t sid -> shown e = true -> e_id e <= L) ->
  told (sk ++ [(c, L)]) t L = told sk t c.
Proof.
  intros Hall. apply filter_ext_in. intros e He%list_elem_of_In. destruct (shown e) eqn:Ex; [|done]. cbn [andb].
  specialize (Hall e He Ex). unfold polled. rewrite existsb_app. cbn [existsb fst snd]. rewrite orb_false_r.
  replace (e_id e <=? L) with true by lia. rewrite andb_true_r. cbn [andb].
  destruct (existsb _ sk); cbn [orb negb]; [by rewrite andb_false_r|].
  destruct (c <? e_id e) eqn:E1; cbn [negb]; lia.
Qed.

Lemma stream_poll sk t d :
  Stream sk t -> d ∈ t_edges t -> the_edge d ->
  Stream (sk ++ [(d_cursor d, poll_leaf t sid)]) (consumed_by_poll t sid).
Proof.
  intros Hs Hd Ht. pose proof Hs as [(sr & Er & Hrp & Hrc & Hrl & Hall) S N I F W Sh K [P1 P2] (d' & Hd' & Ht' & Hc & Hsent & Hfr)].
  assert (d' = d) as -> by (apply (NoDup_id_eq _ _ _ I Hd' Hd); transitivity eid; [apply Ht'|symmetry; apply Ht]).
  set (L := poll_leaf t sid).
  assert (EL : L = Z.max (r_leaf sr) 0).
  { unfold L, poll_leaf. unfold edge_session_row in Er. destruct (get_session t sid); [|done]. by injection Er as <-. }
  assert (HallL : forall e, e ∈ session_entries t sid -> shown e = true -> e_id e <= L).
  { intros e He Hsh. specialize (Hall e He Hsh). lia. }
  assert (E5 : t_edges (consumed_by_poll t sid) =
    map (stamp_ids L (map d_id (List.filter (polled_edge sid) (t_edges t)))) (t_edges t)) by (by apply stamp_where).
  set (ids := map d_id _) in E5.
  assert (Hin : eid ∈ ids).
  { apply list_elem_of_fmap. exists d. split; [symmetry; apply Ht|]. apply elem_of_filter_bool. split; [done|].
    destruct Ht as (_ & H1 & H2 & _ & H3). unfold polled_edge, is_parent. rewrite H1, H2, H3, Z.eqb_refl. by rewrite bool_decide_true. }
  assert (Et : told (sk ++ [(d_cursor d, L)]) t L = told sk t (d_cursor d)) by (by apply told_polled).
  assert (Eo : edges_of (consumed_by_poll t sid) sid = map (stamp_ids L ids) (edges_of t sid)).
  { rewrite <- edges_of_stamp. unfold edges_of. by rewrite E5. }
  split; try done.
  - by exists sr.
  - rewrite E5. by rewrite stamp_ids_id.
  - rewrite E5. intros x (y & -> & Hy)%list_elem_of_fmap. specialize (F y Hy). unfold stamp_ids. by case_bool_decide.
  - rewrite Eo, length_map. replace (has_edge (consumed_by_poll t sid) sid KChannel ch) with (has_edge t sid KChannel ch); [done|].
    rewrite <- (has_edge_stamp t sid KChannel ch L ids). unfold has_edge. by rewrite E5.
  - rewrite Eo. intros x (y & -> & Hy)%list_elem_of_fmap. specialize (Sh y Hy). unfold stamp_ids. by case_bool_decide.
  - rewrite Eo. intros x (y & -> & Hy)%list_elem_of_fmap. rewrite stamp_the_edge, stamp_others. by apply K.
  - split; [done|]. apply Forall_app. split; [done|]. constructor; [cbn|constructor]. change (t_next_entry (consumed_by_poll t sid)) with (t_next_entry t). lia.
  - rewrite E5. exists (stamp_ids L ids d). split; [apply list_elem_of_fmap; eauto|]. split; [by apply stamp_the_edge|].
    unfold stamp_ids. rewrite bool_decide_true by (destruct Ht as [-> _]; done). cbn [d_cursor with_cursor].
    split; [change (t_next_entry (consumed_by_poll t sid)) with (t_next_entry t); lia|].
    split; [change (Forall2 sent (received t) (told (sk ++ [(d_cursor d, L)]) t L)); by rewrite Et|].
    intros e He Hsh Hlt. specialize (HallL e He Hsh). lia.
Qed.

(** ** Histories *)

(** A step of the system, with the polls it makes: an append to any session, a
    mid-turn delivery or a boundary of the child with any outcome of its transaction, a
    check_session by any session, or anything that leaves the child's row, the entries,
    the edges and what the parent received alone (a state change, a message of somebody
    else, a drained inbox). *)
Inductive dstep : list (Z * Z) -> Store -> Store -> Prop :=
  | Dappend t s par it ty role c call tool err stop src note :
      role <> ROLE_ASSISTANT \/ ty <> TCompaction ->
      dstep [] t (snd (insert_entry t s par it ty role c call tool err stop src note))
  | Diteration t begin_ok commit_ok : dstep [] t (advance_deliver_iteration begin_ok commit_ok t sid)
  | Dboundary t begin_ok commit_ok err inc :
      dstep [] t (snd (advance_deliver_boundary instance begin_ok commit_ok t sid err inc))
  | Dcheck t caller d :
      d ∈ t_edges t -> the_edge d ->
      dstep (match fst (tool_check_session_handler t caller sid) with
             | CheckIdle _ => [(d_cursor d, poll_leaf t sid)]
             | _ => [] end)
        t (snd (tool_check_session_handler t caller sid))
  | Dother t t' :
      t_entries t' = t_entries t -> t_next_entry t' = t_next_entry t -> t_edges t' = t_edges t ->
      t_next_edge t' = t_next_edge t -> edge_session_row t' sid = edge_session_row t sid ->
      received t' = received t -> dstep [] t t'.

(** A run, with its polls in order. *)
Inductive dsteps : Store -> list (Z * Z) -> Store -> Prop :=
  | dsteps_nil t : dsteps t [] t
  | dsteps_cons t p t1 ps t2 : dstep p t t1 -> dsteps t1 ps t2 -> dsteps t (p ++ ps) t2.

Lemma dstep_stream sk p t t' : 0 < parent -> dstep p t t' -> Stream sk t -> Stream (sk ++ p) t'.
Proof.
  intros Hp Hd Hs. destruct Hd; rewrite ?app_nil_r.
  - by apply stream_append.
  - by apply stream_iteration.
  - by apply stream_boundary.
  - unfold tool_check_session_handler. destruct (get_session t sid) as [s|]; [|by rewrite app_nil_r].
    destruct (negb _); [by rewrite app_nil_r|]. destruct (x_state s); cbn [fst snd]; rewrite ?app_nil_r; try done.
    by apply stream_poll.
  - by apply (stream_unstamped sk t).
Qed.

Lemma dsteps_stream sk ps t t' : 0 < parent -> dsteps t ps t' -> Stream sk t -> Stream (sk ++ ps) t'.
Proof.
  intros Hp Hr. revert sk. induction Hr as [t|t p t1 ps t2 Hxy Hyz IH]; intros sk Hs; [by rewrite app_nil_r|].
  rewrite app_assoc. by apply IH, (dstep_stream sk p t).
Qed.

(** At a committed boundary nothing is missing but what the polls passed over. *)
Lemma stream_complete sk t sr err inc :
  0 < parent -> Stream sk t -> edge_session_row t sid = Some sr -> 0 < r_leaf sr ->
  let t' := snd (advance_deliver_boundary instance true true t sid err inc) in
  Forall2 sent (received t') (List.filter (fun e => shown e && negb (polled sk e)) (session_entries t' sid)).
Proof.
  intros Hp Hs Er Hl. cbn zeta. 
  assert (Ho : has_outbound t sid = true).
  { destruct (m_sent _ _ Hs) as (d & Hd & (_ & Hsid & _) & _). unfold has_outbound. apply orb_true_iff. left.
    apply existsb_exists. exists d. split; [by apply list_elem_of_In|lia]. }
  rewrite (boundary_cases instance t sid sr) by done.
  pose proof (stream_run sk t sr err inc Hp Hs Er) as Hloop.
  assert (Hc : Stream sk (snd (committed (boundary_run instance t sid sr err inc)))) by apply stream_committed, Hloop.
  destruct (committed_store (boundary_run instance t sid sr err inc)) as [He Hsess].
  set (t' := snd (committed _)) in *. destruct (m_sent _ _ Hc) as (d & Hd & Ht & _ & Hf & _).
  assert (Hcur : r_leaf sr <= d_cursor d).
  { rewrite He in Hd. destruct (l_edge _ _ _ _ _ Hloop d Hd Ht) as [?|Hn]; [done|by apply elem_of_nil in Hn]. }
  destruct (m_row _ _ Hc) as (sr' & Er' & _ & _ & _ & Hall).
  rewrite (row_of_session _ t' sid (Hsess sid)), (l_row _ _ _ _ _ Hloop) in Er'. injection Er' as <-.
  match goal with |- Forall2 _ _ ?l => replace l with (told sk t' (d_cursor d)) end; [done|].
  unfold told. apply filter_ext_in. intros e Hin. destruct (shown e) eqn:Esh; [|done]. cbn [andb].
  rewrite (proj2 (Z.leb_le (e_id e) (d_cursor d))); [done|]. transitivity (r_leaf sr); [|done].
  apply Hall; [by apply list_elem_of_In|done].
Qed.

End Stream.

(** A blocking launch has no stream: when it leaves the child a reply edge, the standing
    edge to the parent has a policy of a single report.  (So the sessions of [Stream],
    whose other edges are the chat's, are all those with an iteration edge to the
    parent, unless an update of the policy failed at the launch.) *)
Lemma blocking_launch_single_report agent_default t child delivery pol call d :
  launch_delivery delivery false = Some pol ->
  (forall x y, x ∈ t_edges t -> y ∈ t_edges t -> polled_edge child x = true -> polled_edge child y = true -> x = y) ->
  d ∈ t_edges (launch_edges agent_default t child pol false (Some call)) ->
  polled_edge child d = true -> single_report (d_policy d) = true.
Proof.
  intros Hpol Hone.
  assert (Hc : forall u p x, x ∈ t_edges (delivery_edge_create u child KToolCall call p true) ->
                 polled_edge child x = true -> x ∈ t_edges u).
  { intros u p x. unfold delivery_edge_create. destruct (existsb _ _); [done|].
    intros [?| ->%list_elem_of_singleton]%elem_of_app Hx; [done|]. unfold polled_edge, is_parent in Hx. cbn in Hx.
    by rewrite andb_false_r in Hx. }
  assert (Hset : forall u p x, x ∈ t_edges (delivery_edge_set_policy u child KParent p) ->
                   polled_edge child x = true -> d_policy x = p).
  { intros u p x (y & -> & Hy)%list_elem_of_fmap. 
    change ((d_session y =? child) && bool_decide (d_kind y = KParent) && negb (d_one_shot y)) with (polled_edge child y).
    destruct (polled_edge child y) eqn:E; [done|congruence]. }
  assert (Hdef : forall o : option cstring, single_report (match o with
             | Some s => match parse_policy s with Some p => if single_report p then p else PQuiescent | None => PQuiescent end
             | None => PQuiescent end) = true).
  { intros [o|]; [|done]. destruct (parse_policy o) as [p|]; [|done]. by destruct (single_report p) eqn:E. }
  unfold launch_edges. destruct pol as [p|].
  - assert (Hp : single_report p = true).
    { unfold launch_delivery in Hpol. destruct delivery as [[|c s]|]; try done. destruct (parse_policy _) as [p'|]; [|done].
      cbn [negb andb] in Hpol. destruct (single_report p') eqn:E; cbn [negb] in Hpol; [|done]. by injection Hpol as <-. }
    destruct p; try done; cbn [default]; intros Hin Hd; apply Hc in Hin; try done; by rewrite (Hset _ _ _ Hin Hd).
  - destruct (List.find (polled_edge child) (t_edges t)) as [e|] eqn:Ef; cbn [option_map].
    + apply List.find_some in Ef as [He Hpe]. rewrite <- list_elem_of_In in He.
      destruct (d_policy e) eqn:Ep; intros Hin Hd; apply Hc in Hin; try done;
        try (rewrite (Hset _ _ _ Hin Hd); apply Hdef); by rewrite (Hone d e Hin He Hd Hpe), Ep.
    + intros Hin Hd. apply Hc in Hin; [|done]. rewrite (Hset _ _ _ Hin Hd). apply Hdef.
Qed.

(** (C9) The stream of an iteration edge is exact.  Take a child whose standing edge to
    its parent streams, and whose other edges are its chat's (a blocking launch never
    leaves an iteration edge, [blocking_launch_single_report]).  However its appends,
    mid-turn deliveries and boundaries and the check_session calls of its parent
    interleave, whichever transaction fails, the parent's inbox holds every message of
    the child up to the edge's cursor exactly once and in order, but those in the
    ranges [ps] its polls of the idle child passed over: a poll answers with the
    child's last message and moves the cursor to the child's leaf.  Right after a
    committed boundary the inbox holds every message of the child outside [ps]. *)
Theorem iteration_stream_exact `{Ingest} (instance : cstring) (sid parent eid : Z) (ch : cstring)
    (t0 t : Store) (ps : list (Z * Z)) :
  0 < parent -> Stream sid parent eid ch [] t0 -> dsteps instance sid parent eid t0 ps t ->
  (exists d, d ∈ t_edges t /\ the_edge sid eid d /\
     Forall2 sent (received sid parent t) (told sid ps t (d_cursor d))) /\
  (forall sr err inc, edge_session_row t sid = Some sr -> 0 < r_leaf sr ->
     let t' := snd (advance_deliver_boundary instance true true t sid err inc) in
     Forall2 sent (received sid parent t')
       (List.filter (fun e => shown e && negb (polled ps e)) (session_entries t' sid))).
Proof.
  intros Hp Hs Hr. pose proof (dsteps_stream _ _ _ _ _ _ _ _ _ Hp Hr Hs) as Hst. split.
  - destruct (m_sent _ _ _ _ _ _ Hst) as (d & Hd & Ht & _ & Hf & _). by exists d.
  - intros sr err inc Er Hl. by apply (stream_complete instance sid parent eid ch ps t sr err inc).
Qed.

(** A child of session 1 with an iteration edge, at its first message. *)
Definition stream_store : Store := mk_store 1000
  [mk_xsession 1 (Some (bs "main")) ToolRunning 1 1 (-1) None None (Some (bs "i1")) 0;
   mk_xsession 2 (Some (bs "helper")) LlmRunning 0 2 1 None None (Some (bs "i1")) 0]
  [demo_entry 1 1 (-1) 1 None TUser ROLE_USER (bs "go") 0;
   demo_entry 2 2 (-1) 1 None TUser ROLE_USER (bs "look it up") 0]
  3 [] 1 [] [mk_edge 1 2 KParent (bs "1") PIteration 0 false] 2
  [] [] [] [] [] [] [].

Definition stream_says (t : Store) (text : cstring) : Store := snd (append_assistant t 2 (Some text) 1 0).

(** The same child once idle, two messages later, polled by its parent. *)
Definition stream_idle (t : Store) : Store :=
  snd (session_set_state (bs "i1") t 2 Idle).

Definition stream_unpolled : Store :=
  stream_idle (stream_says (stream_says (@advance_deliver_iteration demo_ingest true true
    (stream_says stream_store (bs "working")) 2) (bs "found it")) (bs "done")).

(** A poll reads the last message and passes over the ones before it that no
    delivery has pushed: no later boundary sends them. *)
Example poll_skips_updates :
  let r := tool_check_session_handler stream_unpolled 1 2 in
  fst r = CheckIdle (Some (bs "done")) /\
  let t := snd (@advance_deliver_boundary demo_ingest (bs "i1") true true (snd r) 2 false true) in
  map q_payload (t_inbox t) = [bs "Sub-agent update: working"] /\
  prose_since t 2 3 = List.filter (fun e => 3 <? e_id e) (session_entries t 2) /\ length (prose_since t 2 3) = 2%nat.
Proof. vm_compute. done. Qed.

Lemma iteration_stream_exact_witness :
  let t := snd (tool_check_session_handler stream_unpolled 1 2) in
  polled ([] ++ [] ++ [] ++ [] ++ [] ++ [(3, 5)] ++ []) (demo_entry 4 2 3 1 None TAssistant ROLE_ASSISTANT (bs "found it") 1) = true /\
  (exists d, d ∈ t_edges t /\ the_edge 2 1 d /\
     Forall2 (@sent demo_ingest) (received 2 1 t) (told 2 ([] ++ [] ++ [] ++ [] ++ [] ++ [(3, 5)] ++ []) t (d_cursor d))) /\
  (forall sr err inc, edge_session_row t 2 = Some sr -> 0 < r_leaf sr ->
     let t' := snd (@advance_deliver_boundary demo_ingest (bs "i1") true true t 2 err inc) in
     Forall2 (@sent demo_ingest) (received 2 1 t')
       (List.filter (fun e => shown e && negb (polled ([] ++ [] ++ [] ++ [] ++ [] ++ [(3, 5)] ++ []) e)) (session_entries t' 2))).
Proof.
  split; [reflexivity|].
  apply (@iteration_stream_exact demo_ingest (bs "i1") 2 1 1 [] stream_store); [lia| |].
  - split.
    + exists (mk_esr 2 1 [] []). split; [reflexivity|]. split; [reflexivity|]. split; [reflexivity|].
      split; [vm_compute; reflexivity|]. intros e He Hs. vm_compute in He. apply elem_of_cons in He as [->|He]; [|by apply elem_of_nil in He].
      vm_compute in Hs. discriminate.
    + vm_compute. repeat constructor.
    + intros e He. repeat (apply elem_of_cons in He as [->|He]; [vm_compute; reflexivity|]). by apply elem_of_nil in He.
    + vm_compute. repeat constructor. by intros ?%elem_of_nil.
    + intros d Hd. repeat (apply elem_of_cons in Hd as [->|Hd]; [vm_compute; reflexivity|]). by apply elem_of_nil in Hd.
    + vm_compute. lia.
    + intros d Hd. vm_compute in Hd. apply elem_of_cons in Hd as [->|Hd]; [vm_compute; lia|by apply elem_of_nil in Hd].
    + intros d Hd. vm_compute in Hd. apply elem_of_cons in Hd as [->|Hd]; [|by apply elem_of_nil in Hd].
      left. repeat split; reflexivity.
    + split; [reflexivity|constructor].
    + eexists. split; [by left|]. split; [repeat split; reflexivity|]. split; [vm_compute; reflexivity|]. split.
      * vm_compute. constructor.
      * intros e He Hs. reflexivity.
  - assert (Hsay : forall t x, @dstep demo_ingest (bs "i1") 2 1 1 [] t (stream_says t x))
      by (intros t x; unfold stream_says, append_assistant; apply Dappend; right; discriminate).
    eapply dsteps_cons; [apply (Hsay stream_store (bs "working"))|].
    eapply dsteps_cons; [apply (@Diteration demo_ingest (bs "i1") 2 1 1 _ true true)|].
    eapply dsteps_cons; [apply (Hsay _ (bs "found it"))|].
    eapply dsteps_cons; [apply (Hsay _ (bs "done"))|].
    eapply dsteps_cons; [apply (@Dother demo_ingest (bs "i1") 2 1 1 _ stream_unpolled); reflexivity|].
    eapply dsteps_cons; [|apply dsteps_nil].
    apply (@Dcheck demo_ingest (bs "i1") 2 1 1 stream_unpolled 1 (mk_edge 1 2 KParent (bs "1") PIteration 3 false)).
    + left.
    + repeat split; reflexivity.
Defined.
