(* ===== verification/Advance.v ===== *)
(** * The session machine: src/advance.c and the classification of src/advance.h

    [advance_session] reads a session's state and takes the one next step of its
    turn: open a turn off the inbox, wait, dispatch tools, dispatch the next request,
    or end the turn and deliver.  Each SQLite transaction or write outside one has an
    outcome in [Io]. *)
From stdpp Require Import relations.
From S2P Require Import Prelude CString Libc Ingest Store Delivery.

(** ** The classification of advance.h *)

Definition AUTONOMOUS_SOURCES : list cstring := [bs "cron"; bs "cron_error"; bs "agent_result"; bs "spawn"; bs "system"].

Definition autonomous (source : cstring) : bool := existsb (streq source) AUTONOMOUS_SOURCES.

(** A user entry somebody typed; one with no stamp is human too. *)
Definition human_entry (e : Entry) : bool := (e_role e =? ROLE_USER) && negb (autonomous (default [] (e_source e))).

Definition last_human_turn (t : Store) (sid : Z) : Z :=
  max_of (map e_turn (List.filter human_entry (session_entries t sid))).

Definition autonomous_streak (t : Store) (sid : Z) : Z :=
  zlen (remove_dups (map e_turn (List.filter (fun e => last_human_turn t sid <? e_turn e) (session_entries t sid)))).

Definition inbox_all_autonomous (t : Store) (sid : Z) : bool :=
  match pending t sid with [] => false | q => forallb (fun r => autonomous (q_source r)) q end.

(** ** Messages *)

Definition CUTOFF_TAIL : cstring :=
  bs " " ++ EM_DASH ++ bs " work was cut mid-flight, not finished. Continuing where you left off next turn is legal and expected.".

Definition max_iter_notice (max : Z) : cstring :=
  snprintf 256 (bs "error: iteration limit reached (" ++ print_int max ++ bs " per turn)" ++ CUTOFF_TAIL).

Definition context_notice (turn_tokens window : Z) : cstring :=
  snprintf 256 (bs "error: context budget reached (this turn's own tool results ~" ++ print_int turn_tokens ++
                bs " tokens against a " ++ print_int window ++ bs "-token window)" ++ CUTOFF_TAIL).

(** The branch from the leaf to the root, at most [n] entries. *)
Fixpoint branch (n : nat) (t : Store) (id : Z) : list Entry :=
  match n with
  | O => []
  | S n' => match get_entry t id with Some e => e :: branch n' t (e_parent e) | None => [] end
  end.

Definition session_branch (n : nat) (t : Store) (sid : Z) : list Entry :=
  match get_entry t (leaf_of t sid) with
  | Some e => if e_session e =? sid then branch n t (leaf_of t sid) else []
  | None => []
  end.

Definition commentary (e : Entry) : bool :=
  (e_role e =? ROLE_ASSISTANT) && (e_stop e =? STOP_REASON_TOOL_USE) &&
  match e_content e with Some (_ :: _) => true | _ => false end.

(** The last three pieces of commentary, oldest first, before the notice. *)
Definition rich_cutoff_message (t : Store) (sid : Z) (notice : cstring) : cstring :=
  match take 3 (List.filter commentary (session_branch 51 t sid)) with
  | [] => notice
  | chunks => join (map text_of (rev chunks)) ++ snprintf 512 (SEP ++ notice)
  end.

(** Distinct requests inside the leaf's turn. *)
Definition turn_iterations_spent (t : Store) (sid : Z) : Z :=
  match get_entry t (leaf_of t sid) with
  | None => 0
  | Some leaf =>
      zlen (remove_dups (omap (fun e => match e_iter e with
                                        | Some i => if (0 <? i) && (e_turn e =? e_turn leaf) then Some i else None
                                        | None => None
                                        end) (session_entries t sid)))
  end.

(** ** The runaway guard *)

Record StreakGate := mk_streak { g_cap : Z; g_streak : Z; g_refuse : bool; g_warn : bool }.

Definition streak_gate_check (cap : Z) (t : Store) (sid : Z) : StreakGate :=
  if cap <=? 0 then mk_streak cap 0 false false
  else if negb (inbox_all_autonomous t sid) then mk_streak cap 0 false false
  else let streak := autonomous_streak t sid in
       mk_streak cap streak (cap <=? streak) (negb (cap <=? streak) && (cap * 4 <=? (streak + 1) * 5)).

Definition streak_note (t : Store) (sid : Z) (note text : cstring) : Store :=
  snd (insert_entry t sid (leaf_of t sid) (Some 0) TSystem ROLE_SYSTEM (Some text) None None false 0
         (Some (bs "streak_guard")) (Some note)).

(** A trip since the last human turn has announced itself. *)
Definition tripped (t : Store) (sid : Z) : bool :=
  existsb (fun e => (e_role e =? ROLE_SYSTEM) && bool_decide (e_source e = Some (bs "streak_guard")) &&
                    bool_decide (e_note e = Some (bs "tripped")) && (last_human_turn t sid <? e_turn e))
    (session_entries t sid).

Definition trip_text (streak : Z) : cstring :=
  snprintf 256 (bs "This agent has hit its autonomous-turn limit (" ++ print_int streak ++
                bs " consecutive turns with no human input) and is paused until someone replies.").

Definition PAUSED_TEXT : cstring :=
  bs "error: sub-agent paused by autonomy guard (autonomous-turn limit reached); it stays paused until a human replies to it".

Section Advance.
Context `{Ingest} (instance : cstring).

(** The trip: its marker, a notice to the chat, and an error for a parent blocked on
    this session.  Returns the parent to wake, or 0. *)
Definition streak_refuse (t : Store) (sid : Z) (g : StreakGate) : Z * Store :=
  if tripped t sid then (0, t)
  else
    let text := trip_text (g_streak g) in
    let t := streak_note t sid (bs "tripped") text in
    let t := match get_session t sid with
             | Some s => match x_channel s with
                         | Some ch => with_outbox (t_outbox t ++ [mk_out ch sid (default (bs "0") (x_chat s)) text (t_now t)]) t
                         | None => t
                         end
             | None => t
             end in
    match List.find (fun d => (d_session d =? sid) && d_one_shot d && bool_decide (d_kind d = KToolCall)) (t_edges t) with
    | Some d =>
        match snprintf 192 (d_ref d) with
        | [] => (0, t)
        | oref =>
            let parent := match get_session t sid with Some s => x_parent s | None => -1 end in
            oneshot_resolve instance t sid parent oref PAUSED_TEXT true
        end
    | None => (0, t)
    end.

Definition streak_warn (t : Store) (sid : Z) (g : StreakGate) : Store :=
  streak_note t sid (bs "warn")
    (snprintf 256 (bs "This is autonomous turn " ++ print_int (g_streak g + 1) ++ bs " in a row (limit " ++
                   print_int (g_cap g) ++ bs "). No human has been in the loop " ++ EM_DASH ++
                   bs " wind down, checkpoint your state, or send your operator a summary.")).

(** ** The concurrency gate *)

Definition gated (t : Store) (sid : Z) : bool :=
  match pending t sid with
  | _ :: _ => inbox_all_autonomous t sid
  | [] => match get_entry t (leaf_of t sid) with
          | Some e => (e_session e =? sid) && (e_role e =? ROLE_USER) && autonomous (default [] (e_source e))
          | None => false
          end
  end.

(** Whether the turn must not open now. *)
Definition conc_gate_check (cap : Z) (t : Store) (sid : Z) : bool :=
  (0 <? cap) && gated t sid && (cap <=? session_count_resource_holders t sid).

(** ** The step *)

Inductive AdvanceResult := NOOP | DISPATCH_LLM | DISPATCH_TOOLS | DONE | WAITING | ERROR.

Record AdvanceOutput := mk_output {
  out_action : AdvanceResult; out_session : Z; out_agent : cstring; out_iteration : Z;
  out_calls : list ToolCallRow; out_deferred : bool
}.

Definition make_output (action : AdvanceResult) (sid : Z) (agent : option cstring) (iter : Z) : AdvanceOutput :=
  mk_output action sid (snprintf 64 (default [] agent)) iter [] false.

Definition with_out_calls (cs : list ToolCallRow) (o : AdvanceOutput) : AdvanceOutput :=
  mk_output (out_action o) (out_session o) (out_agent o) (out_iteration o) cs (out_deferred o).
Definition deferred (o : AdvanceOutput) : AdvanceOutput :=
  mk_output (out_action o) (out_session o) (out_agent o) (out_iteration o) (out_calls o) true.

(** Which of the step's writes succeed: its own transaction, a state change or a bump
    outside one, the delivery transactions. *)
Record Io := mk_io {
  io_begin : bool; io_commit : bool; io_set : bool; io_bump : bool;
  io_boundary : bool * bool; io_iteration : bool * bool
}.

(** The configuration, and the answer of the context estimate: what this turn's
    content takes and the window, when it no longer fits. *)
Record AdvanceConfig := mk_config {
  max_autonomous_turn_streak : Z; session_max_concurrent : Z;
  turn_overflows : Store -> Z -> option (Z * Z)
}.

Context (cfg : AdvanceConfig) (io : Io).

(** A state change outside a transaction. *)
Definition set_state (t : Store) (sid : Z) (st : SState) : bool * Store :=
  if io_set io then session_set_state instance t sid st else (false, t).

Definition boundary (t : Store) (sid : Z) (is_error include_channel : bool) : Store :=
  snd (advance_deliver_boundary instance (fst (io_boundary io)) (snd (io_boundary io)) t sid is_error include_channel).

(** The end of the transaction of a refused turn. *)
Definition commit_refusal (t t' : Store) (woken : Z) : Store :=
  if io_commit io then if 0 <? woken then wake woken t' else t' else t.

Definition open_turn (t : Store) (sid iter : Z) : Store :=
  snd (session_set_state instance (session_set_iteration t sid iter) sid LlmRunning).

Definition unanswered_role (t : Store) (sid : Z) : Z :=
  let r := leaf_role t sid 0 in if (r =? ROLE_USER) || (r =? ROLE_TOOL) then r else 0.

(** The drain of the idle branch: whether a turn opens, at which iteration. *)
Definition idle_drain (t : Store) (sid : Z) (g : StreakGate) : Z * Z * Store :=
  let (consumed, t) := inbox_consume_into_entries_locked t sid 100 in
  if consumed =? 0 then
    let r := unanswered_role t sid in
    (if r =? 0 then 0 else 1, if r =? ROLE_TOOL then turn_iterations_spent t sid else 0, t)
  else (consumed, 0, if (0 <? consumed) && g_warn g then streak_warn t sid g else t).

Definition advance_idle (t : Store) (sid : Z) (agent : option cstring) (s : XSession) : AdvanceOutput * Store :=
  let iter := x_iter s in
  if x_hold s >? t_now t then (deferred (make_output NOOP sid agent iter), t)
  else if negb (io_begin io) then (make_output ERROR sid None 0, t)
  else
    let (_, t1) := db_reconcile_stale_calls t sid in
    let g := streak_gate_check (max_autonomous_turn_streak cfg) t1 sid in
    if g_refuse g then
      let (woken, t2) := streak_refuse t1 sid g in
      (make_output NOOP sid agent iter, commit_refusal t t2 woken)
    else if conc_gate_check (session_max_concurrent cfg) t1 sid then
      (deferred (make_output NOOP sid agent iter), if io_commit io then t1 else t)
    else
      let '(consumed, resume_iter, t2) := idle_drain t1 sid g in
      if (consumed <? 0) || negb (io_commit io) then (make_output ERROR sid None 0, t)
      else if 0 <? consumed then (make_output DISPATCH_LLM sid agent resume_iter, open_turn t2 sid resume_iter)
      else (make_output NOOP sid agent iter, t2).

Definition advance_llm_running (t : Store) (sid : Z) (agent : option cstring) (s : XSession) : AdvanceOutput * Store :=
  let iter := x_iter s in
  if job_in_flight t sid 0 then (make_output WAITING sid agent iter, t)
  else
    let role := match get_entry t (leaf_of t sid) with Some e => e_role e | None => 2 end in
    if (role =? ROLE_USER) || (role =? ROLE_TOOL) then
      (make_output NOOP sid agent iter, snd (set_state t sid Idle))
    else
      match db_tool_call_get_pending t sid with
      | (_ :: _) as calls =>
          let t1 := advance_deliver_iteration (fst (io_iteration io)) (snd (io_iteration io)) t sid in
          let (ok, t2) := set_state t1 sid ToolRunning in
          if ok then (with_out_calls calls (make_output DISPATCH_TOOLS sid agent iter), t2)
          else (make_output ERROR sid None 0, t2)
      | [] =>
          let is_error := session_stopped_with_error t sid in
          let (ok, t1) := set_state t sid Idle in
          if negb ok then (make_output ERROR sid None 0, t1)
          else if is_error then (make_output ERROR sid agent iter, boundary t1 sid true false)
          else (make_output DONE sid agent iter, boundary t1 sid false true)
      end.

(** The notice of the cap that fired, if one did. *)
Definition cutoff_notice (t : Store) (sid new_iter max_iterations : Z) : option cstring :=
  if max_iterations <=? new_iter then Some (max_iter_notice max_iterations)
  else match turn_overflows cfg t sid with
       | Some (turn_tokens, window) => Some (context_notice turn_tokens window)
       | None => None
       end.

Definition cut_off (t : Store) (sid : Z) (notice : cstring) : Store :=
  let t1 := snd (append_assistant t sid (Some (rich_cutoff_message t sid notice)) STOP_REASON_ERROR 0) in
  boundary (snd (set_state t1 sid Idle)) sid true true.

Definition advance_tool_running (t : Store) (sid : Z) (agent : option cstring) (s : XSession) (max_iterations : Z)
    : AdvanceOutput * Store :=
  let iter := x_iter s in
  match db_tool_call_get_pending t sid with
  | (_ :: _) as calls => (with_out_calls calls (make_output DISPATCH_TOOLS sid agent iter), t)
  | [] =>
      if db_tool_call_any_running t sid then (make_output WAITING sid agent iter, t)
      else
        let (new_iter, t1) := if io_bump io then session_bump_iteration t sid else (-1, t) in
        match cutoff_notice t1 sid new_iter max_iterations with
        | Some notice => (make_output DONE sid agent new_iter, cut_off t1 sid notice)
        | None => (make_output DISPATCH_LLM sid agent new_iter, snd (set_state t1 sid LlmRunning))
        end
  end.

Definition advance_compacting (t : Store) (sid : Z) (agent : option cstring) (s : XSession) : AdvanceOutput * Store :=
  if job_in_flight t sid 1 then (make_output WAITING sid agent (x_iter s), t)
  else if negb (io_begin io) then (make_output ERROR sid None 0, t)
  else
    let t1 := snd (session_set_state instance t sid Idle) in
    let g := streak_gate_check (max_autonomous_turn_streak cfg) t1 sid in
    if g_refuse g then
      let (woken, t2) := streak_refuse t1 sid g in
      (make_output NOOP sid agent 0, commit_refusal t t2 woken)
    else if conc_gate_check (session_max_concurrent cfg) t1 sid then
      (deferred (make_output NOOP sid agent 0), if io_commit io then t1 else t)
    else
      let (consumed, t2) := inbox_consume_into_entries_locked t1 sid 100 in
      if (consumed <? 0) || negb (io_commit io) then (make_output ERROR sid None 0, t)
      else if 0 <? consumed then
        (make_output DISPATCH_LLM sid agent 0, open_turn (if g_warn g then streak_warn t2 sid g else t2) sid 0)
      else (make_output NOOP sid agent 0, t2).

Definition MAX_ITERATIONS_DEFAULT : Z := 25.

Definition advance_session (t : Store) (sid max_iterations : Z) : AdvanceOutput * Store :=
  let max_iterations := if max_iterations <=? 0 then MAX_ITERATIONS_DEFAULT else max_iterations in
  match get_session t sid with
  | None => (make_output ERROR sid None 0, t)
  | Some s =>
      match x_agent s with
      | None => (make_output ERROR sid None 0, t)
      | Some _ =>
          let agent := x_agent s in
          match x_state s with
          | AwaitingApproval => (make_output WAITING sid agent (x_iter s), t)
          | Idle => advance_idle t sid agent s
          | LlmRunning => advance_llm_running t sid agent s
          | ToolRunning => advance_tool_running t sid agent s max_iterations
          | Compacting => advance_compacting t sid agent s
          | RateLimited => (make_output NOOP sid agent (x_iter s), snd (set_state t sid Idle))
          | UnknownState => (make_output ERROR sid None (x_iter s), t)
          end
      end
  end.

End Advance.
