(* ===== verification/SessionTypes.v ===== *)
(** * The type of a session row

    A session is idle exactly when no process owns it, and an idle session has spent
    no iteration: every step of the machine, every delivery and every reconciliation
    keeps each row of the table so. *)
From S2P Require Import Prelude CString Libc Ingest Store Delivery Advance.

Definition typed (s : XSession) : Prop :=
  (x_state s = Idle <-> x_owner s = None) /\ (x_state s = Idle -> x_iter s = 0).

Record sessions_ok (t : Store) : Prop := {
  so_ids : NoDup (map x_id (t_sessions t));
  so_typed : forall s, s ∈ t_sessions t -> typed s
}.

Lemma ok_same t t' : t_sessions t' = t_sessions t -> sessions_ok t -> sessions_ok t'.
Proof. intros E [H1 H2]. split; by rewrite E. Qed.

Lemma get_session_in t sid s : get_session t sid = Some s -> s ∈ t_sessions t.
Proof. intros [H _]%List.find_some. by apply list_elem_of_In. Qed.

Lemma get_session_unique t s : sessions_ok t -> s ∈ t_sessions t -> get_session t (x_id s) = Some s.
Proof.
  intros [Hn _] Hs. unfold get_session. induction (t_sessions t) as [|x l IH]; [by apply elem_of_nil in Hs|].
  cbn [map List.find] in *. apply NoDup_cons in Hn as [Hx Hn]. apply elem_of_cons in Hs as [->|Hs].
  - by rewrite Z.eqb_refl.
  - destruct (x_id x =? x_id s) eqn:E; [|by apply IH]. exfalso. apply Hx. apply list_elem_of_fmap.
    exists s. split; [lia|done].
Qed.

(** An update of the row of [sid] that leaves it typed. *)
Lemma ok_update sid f t :
  (forall s, x_id (f s) = x_id s) ->
  (forall s, get_session t sid = Some s -> typed s -> typed (f s)) ->
  sessions_ok t -> sessions_ok (update_session sid f t).
Proof.
  intros Hid Hf Hok. split; cbn [t_sessions with_sessions update_session].
  - rewrite map_map. rewrite (map_ext _ x_id); [apply Hok|]. intros s. by destruct (x_id s =? sid).
  - intros s' (s & -> & Hs)%list_elem_of_fmap. destruct (x_id s =? sid) eqn:E; [|by apply Hok].
    apply Hf; [|by apply Hok]. replace sid with (x_id s) by lia. by apply get_session_unique.
Qed.

Lemma typed_with_leaf l s : typed s -> typed (with_leaf l s).
Proof. done. Qed.

Lemma typed_entered inst new s : inst <> [] -> typed (entered inst new s).
Proof.
  intros Hi. unfold typed, entered. cbn. destruct (decide (new = Idle)) as [->|Hn]; [done|].
  destruct inst; [done|]. split; [|done]. by split.
Qed.

Lemma ok_insert t sid par it ty role c call tool err stop src note :
  sessions_ok t -> sessions_ok (snd (insert_entry t sid par it ty role c call tool err stop src note)).
Proof.
  intros Hok. unfold insert_entry. case_decide; cbn [snd]; [by apply (ok_same t)|].
  apply ok_update; [done|done|by apply (ok_same t)].
Qed.

Lemma ok_set_state inst t sid new : inst <> [] -> sessions_ok t -> sessions_ok (snd (session_set_state inst t sid new)).
Proof.
  intros Hi Hok. unfold session_set_state. destruct (get_session t sid) as [s|]; [|done].
  destruct (may_enter _ _); [|done]. apply ok_update; [done| |done]. intros. by apply typed_entered.
Qed.

Lemma ok_close_calls rows : forall t sid, sessions_ok t -> sessions_ok (close_calls t sid rows).
Proof.
  induction rows as [|[[call name] it] rows IH]; intros t sid Hok; cbn [close_calls]; [done|].
  unfold append_tool_result.
  pose proof (ok_insert t sid (leaf_of t sid) (pick_iter t sid it) TToolResult ROLE_TOOL (Some SUPERSEDED)
    (Some call) (Some name) true 0 None None Hok) as H1.
  destruct (insert_entry _ _ _ _ _ _ _ _ _ _ _ _ _) as [id t1]. unfold db_tool_call_set_status.
  apply IH. by apply (ok_same t1).
Qed.

Lemma ok_drain_rows rows : forall t sid parent, sessions_ok t -> sessions_ok (snd (drain_rows t sid parent rows)).
Proof.
  induction rows as [|q rows IH]; intros t sid parent Hok; cbn [drain_rows]; [done|].
  pose proof (ok_insert t sid parent None TUser ROLE_USER (Some (tagged q)) None None false 0 (Some (q_source q)) None Hok) as H1.
  destruct (insert_entry _ _ _ _ _ _ _ _ _ _ _ _ _) as [id t1]. apply IH. by apply (ok_same t1).
Qed.

Lemma ok_consume t sid n : sessions_ok t -> sessions_ok (snd (inbox_consume_into_entries_locked t sid n)).
Proof.
  intros Hok. unfold inbox_consume_into_entries_locked. destruct (get_session t sid) as [s|]; [|done].
  pose proof (ok_drain_rows (take n (pending t sid)) t sid (x_leaf s) Hok) as H1.
  destruct (drain_rows _ _ _ _) as [leaf t1]. cbn [snd] in *.
  destruct (take n (pending t sid)); [done|]. by apply ok_update.
Qed.

Section Steps.
Context `{Ingest} (instance : cstring).
Hypothesis Hinst : instance <> [].

Lemma ok_unpark t parent : sessions_ok t -> sessions_ok (unpark instance t parent).
Proof.
  intros Hok. unfold unpark. destruct (get_session t parent) as [s|]; [|done].
  destruct (x_state s); try done; by apply ok_set_state.
Qed.

Lemma ok_oneshot t child parent call text err :
  sessions_ok t -> sessions_ok (snd (oneshot_resolve instance t child parent call text err)).
Proof.
  intros Hok. unfold oneshot_resolve. destruct (_ && _); cbn [snd]; [|by apply (ok_same t)].
  unfold append_tool_result.
  pose proof (ok_insert t parent (leaf_of t parent) (pick_iter t parent 0) TToolResult ROLE_TOOL
    (Some (spill parent call (scrub text))) (Some call) (Some (bs "launch_agent")) err 0 None None Hok) as H1.
  destruct (insert_entry _ _ _ _ _ _ _ _ _ _ _ _ _) as [id t1]. unfold db_tool_call_complete_by_call. cbn [snd].
  eapply ok_same; [|apply (ok_unpark (update_calls parent call (complete_call id) t1) parent)]; [done|].
  by apply (ok_same t1).
Qed.

Lemma ok_push t k e sr label text : sessions_ok t -> sessions_ok (push t k e sr label text).
Proof. apply ok_same. by rewrite (push_only t k e sr label text). Qed.

Lemma ok_boundary b c t sid err inc :
  sessions_ok t -> sessions_ok (snd (advance_deliver_boundary instance b c t sid err inc)).
Proof.
  apply boundary_preserves; intros; [by apply ok_push|by eapply ok_same; [|eassumption]|by apply ok_oneshot|
    by eapply ok_same; [|eassumption]].
Qed.

Lemma ok_iteration b c t sid : sessions_ok t -> sessions_ok (advance_deliver_iteration b c t sid).
Proof.
  apply iteration_preserves; intros; [by apply ok_push|by eapply ok_same; [|eassumption]|
    by eapply ok_same; [|eassumption]].
Qed.

Lemma ok_streak_note t sid note text : sessions_ok t -> sessions_ok (streak_note t sid note text).
Proof. apply ok_insert. Qed.

Lemma ok_streak_refuse t sid g : sessions_ok t -> sessions_ok (snd (streak_refuse instance t sid g)).
Proof.
  intros Hok. unfold streak_refuse. destruct (tripped t sid); [done|]. cbn zeta.
  pose proof (ok_streak_note t sid (bs "tripped") (trip_text (g_streak g)) Hok) as H1.
  set (t1 := streak_note _ _ _ _) in *.
  set (t2 := match get_session t1 sid with Some _ => _ | None => _ end).
  assert (H2 : sessions_ok t2).
  { unfold t2. destruct (get_session t1 sid) as [s|]; [|done]. destruct (x_channel s); [|done]. by apply (ok_same t1). }
  clearbody t2. destruct (List.find _ (t_edges t2)) as [d|]; [|done].
  destruct (snprintf 192 (d_ref d)); [done|]. by apply ok_oneshot.
Qed.

(** ** The state of a session through the writes of a turn open *)

Definition state_of (t : Store) (sid : Z) : option SState := option_map x_state (get_session t sid).

Lemma state_insert t sid par it ty role c call tool err stop src note i :
  state_of (snd (insert_entry t sid par it ty role c call tool err stop src note)) i = state_of t i.
Proof. unfold state_of. rewrite insert_entry_get. destruct (get_session t i); [|done]. by destruct (_ && _). Qed.

Lemma state_close_calls rows i : forall t sid, state_of (close_calls t sid rows) i = state_of t i.
Proof.
  induction rows as [|[[call name] it] rows IH]; intros t sid; cbn [close_calls]; [done|].
  unfold append_tool_result.
  pose proof (state_insert t sid (leaf_of t sid) (pick_iter t sid it) TToolResult ROLE_TOOL (Some SUPERSEDED)
    (Some call) (Some name) true 0 None None i) as H1.
  destruct (insert_entry _ _ _ _ _ _ _ _ _ _ _ _ _) as [id t1]. unfold db_tool_call_set_status. by rewrite IH.
Qed.

Lemma state_reconcile t sid i : state_of (snd (db_reconcile_stale_calls t sid)) i = state_of t i.
Proof. unfold db_reconcile_stale_calls. destruct (_ =? _); [done|]. cbn [snd]. apply state_close_calls. Qed.

Lemma state_drain_rows rows i : forall t sid parent, state_of (snd (drain_rows t sid parent rows)) i = state_of t i.
Proof.
  induction rows as [|q rows IH]; intros t sid parent; cbn [drain_rows]; [done|].
  pose proof (state_insert t sid parent None TUser ROLE_USER (Some (tagged q)) None None false 0 (Some (q_source q)) None i) as H1.
  destruct (insert_entry _ _ _ _ _ _ _ _ _ _ _ _ _) as [id t1]. by rewrite IH.
Qed.

Lemma state_consume t sid n i : state_of (snd (inbox_consume_into_entries_locked t sid n)) i = state_of t i.
Proof.
  unfold inbox_consume_into_entries_locked. destruct (get_session t sid) as [s|]; [|done].
  pose proof (state_drain_rows (take n (pending t sid)) i t sid (x_leaf s)) as H1.
  destruct (drain_rows _ _ _ _) as [leaf t1]. cbn [snd] in *. destruct (take n (pending t sid)); [done|].
  rewrite <- H1. unfold state_of. rewrite get_session_update by done.
  destruct (i =? sid); [|done]. by destruct (get_session t1 i).
Qed.

Lemma state_streak_note t sid note text i : state_of (streak_note t sid note text) i = state_of t i.
Proof. apply state_insert. Qed.

(** A turn opens on an idle session. *)
Lemma ok_open_turn t sid iter : sessions_ok t -> state_of t sid = Some Idle -> sessions_ok (open_turn instance t sid iter).
Proof.
  intros Hok Hs. unfold open_turn, session_set_state, session_set_iteration.
  unfold state_of in Hs. destruct (get_session t sid) as [s|] eqn:Es; [|done]. injection Hs as Hs.
  rewrite get_session_update, Z.eqb_refl, Es by done. cbn [option_map x_state with_iter]. rewrite Hs. cbn [may_enter snd].
  split; cbn [t_sessions with_sessions update_session].
  - rewrite !map_map. rewrite (map_ext _ x_id); [apply Hok|]. intros x. destruct (x_id x =? sid) eqn:E; cbn; by rewrite E.
  - rewrite map_map. intros x' (x & -> & Hx)%list_elem_of_fmap. destruct (x_id x =? sid) eqn:E; cbn.
    + rewrite E. by apply typed_entered.
    + rewrite E. by apply Hok.
Qed.

Lemma idle_drain_ok t sid g :
  sessions_ok t -> sessions_ok (snd (idle_drain t sid g)) /\ state_of (snd (idle_drain t sid g)) sid = state_of t sid.
Proof.
  intros Hok. unfold idle_drain. pose proof (ok_consume t sid 100 Hok) as H1. pose proof (state_consume t sid 100 sid) as H2.
  destruct (inbox_consume_into_entries_locked t sid 100) as [k t1]. cbn [snd] in *.
  destruct (k =? 0); cbn [snd]; [done|]. destruct (_ && _); [|done].
  split; [by apply ok_streak_note|]. unfold streak_warn. by rewrite state_streak_note.
Qed.

Lemma ok_try_set io t sid st : sessions_ok t -> sessions_ok (snd (set_state instance io t sid st)).
Proof. intros Hok. unfold set_state. destruct (io_set io); [by apply ok_set_state|done]. Qed.

Lemma ok_commit_refusal io t t' w : sessions_ok t -> sessions_ok t' -> sessions_ok (commit_refusal io t t' w).
Proof. intros H1 H2. unfold commit_refusal. destruct (io_commit io); [|done]. destruct (0 <? w); [by apply (ok_same t')|done]. Qed.

Lemma ok_reconcile t sid : sessions_ok t -> sessions_ok (snd (db_reconcile_stale_calls t sid)).
Proof. intros Hok. unfold db_reconcile_stale_calls. destruct (_ =? _); [done|]. by apply ok_close_calls. Qed.

(** ** The branches *)
Context (cfg : AdvanceConfig) (io : Io).

Lemma ok_advance_idle t sid agent s :
  sessions_ok t -> get_session t sid = Some s -> x_state s = Idle ->
  sessions_ok (snd (advance_idle instance cfg io t sid agent s)).
Proof.
  intros Hok Hg Hs. unfold advance_idle. case_if; [done|]. case_if; [done|].
  pose proof (ok_reconcile t sid Hok) as H1. pose proof (state_reconcile t sid sid) as S1.
  destruct (db_reconcile_stale_calls t sid) as [k t1]. cbn [snd] in H1, S1.
  set (g := streak_gate_check _ _ _). case_if.
  { pose proof (ok_streak_refuse t1 sid g H1) as H2.
    destruct (streak_refuse instance t1 sid g) as [w t2]. by apply ok_commit_refusal. }
  case_if; [by destruct (io_commit io)|].
  destruct (idle_drain_ok t1 sid g H1) as [H2 S2].
  destruct (idle_drain t1 sid g) as [[consumed r] t2]. cbn [snd] in H2, S2.
  case_if; [done|]. case_if; [|done]. apply ok_open_turn; [done|].
  rewrite S2, S1. unfold state_of. rewrite Hg. cbn. by rewrite Hs.
Qed.

Lemma ok_advance_llm t sid agent s :
  sessions_ok t -> sessions_ok (snd (advance_llm_running instance io t sid agent s)).
Proof.
  intros Hok. unfold advance_llm_running. case_if; [done|]. case_if; [by apply ok_try_set|].
  destruct (db_tool_call_get_pending t sid) as [|c cs].
  - pose proof (ok_try_set io t sid Idle Hok) as H1. destruct (set_state _ _ _ _ _) as [ok t1]. cbn [snd] in H1.
    destruct ok; [cbn [negb]|done]. destruct (session_stopped_with_error t sid); by apply ok_boundary.
  - pose proof (ok_try_set io _ sid ToolRunning (ok_iteration (fst (io_iteration io)) (snd (io_iteration io)) t sid Hok)) as H1.
    destruct (set_state _ _ _ _ _) as [ok t1]. by destruct ok.
Qed.

Lemma ok_bump t sid s :
  sessions_ok t -> get_session t sid = Some s -> x_state s = ToolRunning ->
  sessions_ok (snd (session_bump_iteration t sid)).
Proof.
  intros Hok Hg Hs. unfold session_bump_iteration. rewrite Hg. cbn [snd]. apply ok_update; [done| |done].
  intros x Hx [Hx1 Hx2]. rewrite Hg in Hx. injection Hx as <-. split; cbn; [done|]. by rewrite Hs.
Qed.

Lemma ok_advance_tool t sid agent s max :
  sessions_ok t -> get_session t sid = Some s -> x_state s = ToolRunning ->
  sessions_ok (snd (advance_tool_running instance cfg io t sid agent s max)).
Proof.
  intros Hok Hg Hs. unfold advance_tool_running. destruct (db_tool_call_get_pending t sid); [|done].
  case_if; [done|].
  assert (H1 : sessions_ok (snd (if io_bump io then session_bump_iteration t sid else (-1, t)))).
  { destruct (io_bump io); [by apply (ok_bump t sid s)|done]. }
  destruct (if io_bump io then _ else _) as [n t1]. cbn [snd] in H1.
  destruct (cutoff_notice cfg t1 sid n max); cbn [snd]; [|by apply ok_try_set].
  unfold cut_off. apply ok_boundary, ok_try_set. by apply ok_insert.
Qed.

Lemma ok_advance_compacting t sid agent s :
  sessions_ok t -> get_session t sid = Some s -> x_state s = Compacting ->
  sessions_ok (snd (advance_compacting instance cfg io t sid agent s)).
Proof.
  intros Hok Hg Hs. unfold advance_compacting. case_if; [done|]. case_if; [done|].
  pose proof (ok_set_state instance t sid Idle Hinst Hok) as H1.
  assert (S1 : state_of (snd (session_set_state instance t sid Idle)) sid = Some Idle).
  { unfold state_of. rewrite set_state_get, Hg, Z.eqb_refl, Hs. done. }
  set (t1 := snd (session_set_state instance t sid Idle)) in *. set (g := streak_gate_check _ _ _). case_if.
  { pose proof (ok_streak_refuse t1 sid g H1) as H2.
    destruct (streak_refuse instance t1 sid g) as [w t2]. by apply ok_commit_refusal. }
  case_if; [by destruct (io_commit io)|].
  pose proof (ok_consume t1 sid 100 H1) as H2. pose proof (state_consume t1 sid 100 sid) as S2.
  destruct (inbox_consume_into_entries_locked t1 sid 100) as [k t2]. cbn [snd] in H2, S2.
  case_if; [done|]. case_if; [|done]. cbn [snd]. rewrite S1 in S2.
  destruct (g_warn g); apply ok_open_turn; try done; [by apply ok_streak_note|].
  unfold streak_warn. by rewrite state_streak_note.
Qed.

End Steps.

(** (C12) The step keeps the table typed.  Whatever the state of the session, the
    outcome of each write and the configuration, a step run by a named process leaves
    session ids unique, and every session idle exactly when it has no owner and, when
    idle, with no iteration spent; this holds of the sessions a delivery reaches too. *)
Theorem advance_session_typed `{Ingest} (instance : cstring) (cfg : AdvanceConfig) (io : Io) (t : Store)
    (sid max_iterations : Z) :
  instance <> [] -> sessions_ok t -> sessions_ok (snd (advance_session instance cfg io t sid max_iterations)).
Proof.
  intros Hi Hok. unfold advance_session. destruct (get_session t sid) as [s|] eqn:Eg; [|done].
  destruct (x_agent s); [|done]. destruct (x_state s) eqn:Es; try done.
  - by apply ok_advance_idle.
  - by apply ok_advance_llm.
  - by apply ok_advance_tool.
  - by apply ok_advance_compacting.
  - by apply ok_try_set.
Qed.

Definition demo_io : Io := mk_io true true true true (true, true) (true, true).
Definition demo_cfg : AdvanceConfig := mk_config 50 10 (fun _ _ => None).

(** The blocked parent and its child, which has answered. *)
Lemma advance_session_typed_witness :
  let t := with_sessions (map (fun s => if x_id s =? 2
             then mk_xsession 2 (x_agent s) LlmRunning 0 4 1 (x_channel s) (x_chat s) (Some (bs "i1")) 0 else s)
             (t_sessions demo_store)) demo_store in
  let r := @advance_session demo_ingest (bs "i1") demo_cfg demo_io t 2 25 in
  out_action (fst r) = DONE /\ sessions_ok (snd r).
Proof.
  split; [vm_compute; reflexivity|].
  apply (@advance_session_typed demo_ingest (bs "i1") demo_cfg demo_io); [discriminate|].
  split; [apply (bool_decide_unpack _); vm_compute; exact I|].
  intros s Hs. vm_compute in Hs.
  repeat (apply elem_of_cons in Hs as [->|Hs]; [split; [split; discriminate|discriminate]|]). by apply elem_of_nil in Hs.
Defined.
