(* ===== verification/StreakGuard.v ===== *)
(** * The runaway guard holds

    Turns that open turns with no human in the chain are counted off the entries; the
    guard at the turn open keeps that count at the cap, whatever else writes to the
    database, for as long as no human message waits in the queue. *)
From stdpp Require Import relations.
From S2P Require Import Prelude CString Libc Ingest Store Delivery Advance.

(** ** Counting distinct values *)

Lemma zlen_distinct_ext (l k : list Z) : (forall x, x ∈ l <-> x ∈ k) -> zlen (remove_dups l) = zlen (remove_dups k).
Proof.
  intros H. unfold zlen. f_equal. apply Permutation_length, NoDup_Permutation; [apply NoDup_remove_dups..|].
  intros x. by rewrite !elem_of_remove_dups.
Qed.

Lemma zlen_distinct_snoc (l : list Z) x : zlen (remove_dups (l ++ [x])) <= zlen (remove_dups l) + 1.
Proof.
  rewrite (zlen_distinct_ext (l ++ [x]) (x :: l)) by (intros y; rewrite elem_of_app, !elem_of_cons, elem_of_nil; tauto).
  cbn [remove_dups]. case_decide; autorewrite with cclaw_rw; lia.
Qed.

Lemma max_of_app l x : 0 <= x -> max_of (l ++ [x]) = Z.max (max_of l) x.
Proof. intros Hx. unfold max_of. induction l as [|y l IH]; simpl; [lia|]. rewrite IH. lia. Qed.

Lemma max_of_nonneg l : 0 <= max_of l.
Proof. unfold max_of. induction l; simpl; lia. Qed.

(** ** The journal of a session: turn and human, entry by entry *)

Definition mark (e : Entry) : Z * bool := (e_turn e, human_entry e).
Definition journal (t : Store) (sid : Z) : list (Z * bool) := map mark (session_entries t sid).

Definition jhuman (l : list (Z * bool)) : Z := max_of (map fst (List.filter snd l)).
Definition jmax (l : list (Z * bool)) : Z := max_of (map fst l).
Definition jstreak (l : list (Z * bool)) : Z :=
  zlen (remove_dups (map fst (List.filter (fun x => jhuman l <? fst x) l))).

Lemma map_filter_mark (p : Z * bool -> bool) l :
  map fst (List.filter p (map mark l)) = map e_turn (List.filter (fun e => p (mark e)) l).
Proof. induction l as [|e l IH]; [done|]. cbn [map List.filter]. destruct (p (mark e)); cbn [map]; by rewrite IH. Qed.

Lemma streak_journal t sid : autonomous_streak t sid = jstreak (journal t sid).
Proof.
  unfold autonomous_streak, jstreak, journal. rewrite map_filter_mark.
  replace (jhuman (map mark (session_entries t sid))) with (last_human_turn t sid); [done|].
  unfold jhuman, last_human_turn. by rewrite map_filter_mark.
Qed.

(** Another entry of a turn that is on record. *)
Lemma jstreak_same l x : 0 <= x -> x ∈ map fst l -> jstreak (l ++ [(x, false)]) = jstreak l.
Proof.
  intros Hx Hin. unfold jstreak, jhuman. rewrite !List.filter_app. cbn [List.filter snd]. rewrite app_nil_r.
  set (h := max_of _). apply zlen_distinct_ext. intros y. rewrite map_app, elem_of_app. cbn [fst].
  split; [|by left]. intros [|Hy]; [done|]. destruct (h <? x) eqn:E; [|by apply elem_of_nil in Hy].
  apply list_elem_of_singleton in Hy as ->. cbn [fst]. apply list_elem_of_fmap in Hin as ([z b] & -> & Hz). cbn [fst] in *.
  apply list_elem_of_fmap. exists (z, b). split; [done|]. by apply elem_of_filter_bool.
Qed.

(** A new autonomous turn. *)
Lemma jstreak_new l x : jstreak (l ++ [(x, false)]) <= jstreak l + 1.
Proof.
  unfold jstreak, jhuman. rewrite !List.filter_app. cbn [List.filter snd]. rewrite app_nil_r.
  set (h := max_of _). cbn [fst]. destruct (h <? x); rewrite map_app; cbn [map]; [apply zlen_distinct_snoc|].
  rewrite app_nil_r. lia.
Qed.

(** A human in the newest turn. *)
Lemma jstreak_human l x : jmax l <= x -> jstreak (l ++ [(x, true)]) = 0.
Proof.
  intros Hx. unfold jstreak. pose proof (max_of_nonneg (map fst l)) as H0. unfold jmax in Hx.
  assert (Hh : jhuman (l ++ [(x, true)]) = Z.max (jhuman l) x).
  { unfold jhuman. rewrite List.filter_app, map_app. cbn [List.filter snd map fst]. apply max_of_app. lia. }
  replace (List.filter _ _) with (@nil (Z * bool)); [done|]. symmetry.
  destruct (List.filter _ _) as [|y ys] eqn:E; [done|]. exfalso.
  assert (Hy : y ∈ List.filter (fun z => jhuman (l ++ [(x, true)]) <? fst z) (l ++ [(x, true)])) by (rewrite E; by left).
  apply elem_of_filter_bool in Hy as [Hy Hlt]. rewrite Hh in Hlt.
  apply elem_of_app in Hy as [Hy|Hy].
  - assert (fst y <= max_of (map fst l)) by (apply max_of_ge, list_elem_of_fmap; eauto). lia.
  - apply list_elem_of_singleton in Hy as ->. cbn in Hlt. lia.
Qed.

(** ** The guarded session *)
Section Guard.
Context (sid cap : Z) (Hcap : 0 < cap).

Definition human_row (q : Inbox) : bool := negb (autonomous (q_source q)).
Definition human_pending (t : Store) : bool := existsb human_row (pending t sid).

(** What the tables keep of every session, and of this one: its leaf is in its newest
    turn. *)
Record Journal (t : Store) : Prop := {
  u_ids : NoDup (map e_id (t_entries t));
  u_next : forall e, e ∈ t_entries t -> e_id e < t_next_entry t;
  u_turn : forall e, e ∈ t_entries t -> 1 <= e_turn e;
  u_here : exists s, get_session t sid = Some s;
  u_leaf : match get_entry t (leaf_of t sid) with
           | Some e => e_session e = sid /\ e_turn e = jmax (journal t sid)
           | None => session_entries t sid = []
           end;
  u_bound : leaf_of t sid < t_next_entry t;
  u_rows : NoDup (map q_id (t_inbox t));
  u_fresh : forall q, q ∈ t_inbox t -> q_id q < t_next_inbox t
}.

(** The guard's promise. *)
Definition guarded (t : Store) : Prop := autonomous_streak t sid <= cap \/ human_pending t = true.

Definition holds (t : Store) : Prop := Journal t /\ guarded t.

Definition leaf_row (t : Store) : option Z := option_map x_leaf (get_session t sid).

Lemma leaf_row_of t t' : leaf_row t' = leaf_row t -> leaf_of t' sid = leaf_of t sid.
Proof.
  unfold leaf_row, leaf_of. destruct (get_session t' sid), (get_session t sid); try done. by intros [= ->].
Qed.

(** Nothing the guard reads has changed. *)
Lemma journal_frame t t' :
  t_entries t' = t_entries t -> t_next_entry t' = t_next_entry t -> leaf_row t' = leaf_row t ->
  NoDup (map q_id (t_inbox t')) -> (forall q, q ∈ t_inbox t' -> q_id q < t_next_inbox t') ->
  Journal t -> Journal t'.
Proof.
  intros E1 E2 E3 H1 H2 [A B C (s & D) F L _ _]. pose proof (leaf_row_of _ _ E3) as El.
  assert (Ej : session_entries t' sid = session_entries t sid) by (unfold session_entries; by rewrite E1).
  assert (Eg : forall i, get_entry t' i = get_entry t i) by (intros i; unfold get_entry; by rewrite E1).
  split; rewrite ?E1, ?E2; try done.
  - unfold leaf_row in E3. rewrite D in E3. destruct (get_session t' sid) as [s'|]; [by exists s'|done].
  - rewrite El, Eg. unfold journal. by rewrite Ej.
  - by rewrite El.
Qed.

Lemma holds_frame t t' :
  t_entries t' = t_entries t -> t_next_entry t' = t_next_entry t -> leaf_row t' = leaf_row t ->
  t_inbox t' = t_inbox t -> t_next_inbox t' = t_next_inbox t -> holds t -> holds t'.
Proof.
  intros E1 E2 E3 E4 E5 [J G]. split.
  - apply (journal_frame t); try done; rewrite E4; [apply J|]. rewrite E5. apply J.
  - unfold guarded, human_pending, pending in *. rewrite E4, streak_journal in *.
    unfold journal, session_entries in *. by rewrite E1.
Qed.

(** ** Appends *)

Lemma find_snoc t e i :
  (forall x, x ∈ t_entries t -> e_id x < e_id e) ->
  List.find (fun x => e_id x =? i) (t_entries t ++ [e]) = if i =? e_id e then Some e else get_entry t i.
Proof.
  intros Hlt. rewrite find_app. fold (get_entry t i). destruct (get_entry t i) as [x|] eqn:E.
  - apply get_entry_in in E as [Hx <-]. specialize (Hlt x Hx). by replace (e_id x =? e_id e) with false by lia.
  - cbn. destruct (e_id e =? i) eqn:E1, (i =? e_id e) eqn:E2; try lia; done.
Qed.

Section Insert.
Context (t : Store) (k par : Z) (it : option Z) (ty : EType) (role : Z) (c call tool : option cstring)
  (err : bool) (stop : Z) (src note : option cstring).
Let t' := snd (insert_entry t k par it ty role c call tool err stop src note).
Let x := turn_for t k par role.
Let h := (role =? ROLE_USER) && negb (autonomous (default [] src)).

Lemma turn_for_pos : Journal t -> 1 <= x.
Proof.
  intros J. unfold x, turn_for. pose proof (max_of_nonneg (map e_turn (session_entries t k))).
  destruct (get_entry t par) as [p|] eqn:E; [|lia]. apply get_entry_in in E as [Hp _].
  pose proof (u_turn _ J p Hp). case_if; lia.
Qed.

Lemma session_entries_insert i :
  exists e, session_entries t' i = session_entries t i ++ (if k =? i then [e] else []) /\
            e_turn e = x /\ e_role e = role /\ e_source e = src /\ e_id e = t_next_entry t /\ e_session e = k /\
            t_entries t' = t_entries t ++ [e].
Proof.
  unfold t', session_entries. rewrite insert_entry_entries. eexists. rewrite List.filter_app. cbn [List.filter e_session].
  split; [done|]. done.
Qed.

Lemma insert_pending i : pending t' i = pending t i.
Proof.
  unfold pending, t'. destruct (insert_entry_rest t k par it ty role c call tool err stop src note) as (_ & _ & -> & _).
  done.
Qed.

(** An append to another session. *)
Lemma insert_other_journal : k <> sid -> Journal t -> Journal t' /\ journal t' sid = journal t sid /\ leaf_row t' = leaf_row t.
Proof.
  intros Hk J. destruct (session_entries_insert sid) as (e & Es & Ex & _ & _ & Ei & Ek & Ee).
  replace (k =? sid) with false in Es by lia. rewrite app_nil_r in Es.
  pose proof (turn_for_pos J) as Hpos. pose proof J as [A B C (s & D) F L R1 R2].
  pose proof (insert_entry_rest t k par it ty role c call tool err stop src note) as (_ & _ & Q1 & _ & _ & _ & Q2 & _ & _ & Q3 & _).
  pose proof (insert_entry_get t k par it ty role c call tool err stop src note sid) as Eg.
  rewrite D in Eg. replace (sid =? k) with false in Eg by lia. cbn [andb] in Eg.
  fold t' in Q1, Q2, Q3, Eg. clearbody t'.
  split; [|split; [unfold journal; by rewrite Es|unfold leaf_row; by rewrite Eg, D]].
  - assert (El : leaf_of t' sid = leaf_of t sid) by (unfold leaf_of; by rewrite Eg, D). split.
    + rewrite Ee, map_app. apply NoDup_app. split; [done|]. split; [|apply NoDup_singleton].
      intros i (y & -> & Hy)%list_elem_of_fmap. cbn [map]. rewrite list_elem_of_singleton. specialize (B y Hy). lia.
    + rewrite Ee, Q2. intros y [Hy| ->%list_elem_of_singleton]%elem_of_app; [specialize (B y Hy); lia|lia].
    + rewrite Ee. intros y [Hy| ->%list_elem_of_singleton]%elem_of_app; [by apply C|lia].
    + by exists s.
    + unfold journal. rewrite El, Es. unfold get_entry. rewrite Ee, find_snoc by (intros y Hy; rewrite Ei; by apply B).
      by replace (leaf_of t sid =? e_id e) with false by lia.
    + rewrite El. lia.
    + by rewrite Q1.
    + rewrite Q1, Q3. done.
Qed.

Lemma insert_other : k <> sid -> holds t -> holds t'.
Proof.
  intros Hk [J G]. destruct (insert_other_journal Hk J) as (J' & Ej & _). split; [done|].
  unfold guarded, human_pending in *. rewrite insert_pending, streak_journal, Ej, <- streak_journal. done.
Qed.

(** An append at the leaf: of the newest turn, or of the next one. *)
Hypothesis Hk : k = sid.
Hypothesis Hpar : par = leaf_of t sid.

Definition leaf_is_user (t : Store) : bool :=
  match get_entry t (leaf_of t sid) with Some p => e_role p =? ROLE_USER | None => false end.

Lemma own_turn :
  Journal t ->
  (x = jmax (journal t sid) /\ x ∈ map fst (journal t sid)) \/
  (x = jmax (journal t sid) + 1 /\ leaf_is_user t = false /\ (role = ROLE_USER \/ session_entries t sid = [])).
Proof.
  intros J. pose proof (u_leaf _ J) as F. unfold x, turn_for, leaf_is_user. rewrite Hpar, Hk.
  assert (Ej : map fst (journal t sid) = map e_turn (session_entries t sid)) by (unfold journal; by rewrite map_map).
  destruct (get_entry t (leaf_of t sid)) as [p|] eqn:Eg.
  - destruct F as [Fs Ft]. destruct (role =? ROLE_USER) eqn:E1, (e_role p =? ROLE_USER) eqn:E2; cbn [andb negb].
    2: { right. split; [|split; [done|left; lia]]. unfold jmax. by rewrite Ej. }
    all: left; split; [done|]; rewrite Ej; apply list_elem_of_fmap; exists p; split; [done|];
      unfold session_entries; apply elem_of_filter_bool; split; [by apply get_entry_in in Eg as [? _]|lia].
  - right. split; [unfold jmax; by rewrite Ej|]. split; [done|by right].
Qed.

Hypothesis Hty : ty <> TCompaction.

Lemma insert_own :
  Journal t ->
  Journal t' /\ journal t' sid = journal t sid ++ [(x, h)] /\ leaf_of t' sid = t_next_entry t /\
  leaf_is_user t' = (role =? ROLE_USER).
Proof.
  intros J. destruct (session_entries_insert sid) as (e & Es & Ex & Er & Esrc & Ei & Ek & Ee).
  rewrite Hk, Z.eqb_refl in Es.
  pose proof (turn_for_pos J) as Hpos. pose proof (own_turn J) as Hturn. pose proof J as [A B C (s & D) F L R1 R2].
  pose proof (insert_entry_rest t k par it ty role c call tool err stop src note) as (_ & _ & Q1 & _ & _ & _ & Q2 & _ & _ & Q3 & _).
  pose proof (insert_entry_get t k par it ty role c call tool err stop src note sid) as Eg.
  replace (sid =? k) with true in Eg by lia. rewrite D, bool_decide_false in Eg by done. cbn [andb negb] in Eg.
  fold t' in Q1, Q2, Q3, Eg. clearbody t' x.
  assert (Ej : journal t' sid = journal t sid ++ [(x, h)]).
  { unfold journal. rewrite Es, map_app. cbn [map]. unfold mark, human_entry, h. by rewrite Ex, Er, Esrc. }
  assert (El : leaf_of t' sid = t_next_entry t) by (unfold leaf_of; by rewrite Eg).
  assert (Ege : get_entry t' (leaf_of t' sid) = Some e).
  { rewrite El. unfold get_entry. rewrite Ee, find_snoc by (intros y Hy; rewrite Ei; by apply B).
    by replace (t_next_entry t =? e_id e) with true by lia. }
  split; [|split; [done|split; [done|]]].
  - split.
    + rewrite Ee, map_app. apply NoDup_app. split; [done|]. split; [|apply NoDup_singleton].
      intros i (y & -> & Hy)%list_elem_of_fmap. cbn [map]. rewrite list_elem_of_singleton. specialize (B y Hy). lia.
    + rewrite Ee, Q2. intros y [Hy| ->%list_elem_of_singleton]%elem_of_app; [specialize (B y Hy); lia|lia].
    + rewrite Ee. intros y [Hy| ->%list_elem_of_singleton]%elem_of_app; [by apply C|lia].
    + by eexists.
    + rewrite Ege. split; [congruence|]. rewrite Ex, Ej. unfold jmax in *. rewrite map_app. cbn [map fst].
      rewrite max_of_app by lia. destruct Hturn as [[-> _]|[-> _]]; lia.
    + rewrite El. lia.
    + by rewrite Q1.
    + rewrite Q1, Q3. done.
  - unfold leaf_is_user. by rewrite Ege, Er.
Qed.

(** What an append does to the streak. *)
Lemma insert_streak :
  Journal t ->
  autonomous_streak t' sid <= (if h then 0 else autonomous_streak t sid +
     (if leaf_is_user t || negb (role =? ROLE_USER) && negb (bool_decide (session_entries t sid = [])) then 0 else 1)).
Proof.
  intros J. destruct (insert_own J) as (_ & Ej & _). pose proof (own_turn J) as Hturn. pose proof (turn_for_pos J) as Hpos.
  rewrite !streak_journal, Ej. destruct h.
  - rewrite jstreak_human; [lia|]. destruct Hturn as [[-> _]|[-> _]]; lia.
  - destruct Hturn as [[_ Hin]|(-> & Hl & Hr)].
    + rewrite jstreak_same by (done || lia). case_if; lia.
    + pose proof (jstreak_new (journal t sid) (jmax (journal t sid) + 1)). rewrite Hl. cbn [orb].
      destruct Hr as [-> | ->]; [cbn|rewrite bool_decide_true, andb_false_r by done]; lia.
Qed.

(** Entries of the machinery and of humans. *)
Lemma insert_holds : role <> ROLE_USER \/ h = true -> holds t -> holds t'.
Proof.
  intros Hr [J G]. destruct (insert_own J) as (J' & _). split; [done|].
  pose proof (insert_streak J) as Hs. unfold guarded in *.
  assert (Hp : human_pending t' = human_pending t) by (unfold human_pending; by rewrite insert_pending).
  rewrite Hp. destruct G as [G|G]; [left|by right].
  destruct h eqn:Eh; [lia|]. destruct Hr as [Hr|]; [|done].
  replace (role =? ROLE_USER) with false in Hs by lia. cbn [negb andb] in Hs. case_bool_decide as Ee; cbn [negb] in Hs.
  - assert (E0 : autonomous_streak t sid = 0) by (rewrite streak_journal; unfold journal; by rewrite Ee).
    rewrite E0 in Hs. match type of Hs with context [if ?b then _ else _] => destruct b end; lia.
  - rewrite orb_true_r in Hs. lia.
Qed.

End Insert.

(** Any append at a session's leaf that is not an autonomous message. *)
Lemma append_holds t k it ty role c call tool err stop src note :
  ty <> TCompaction -> role <> ROLE_USER \/ autonomous (default [] src) = false -> holds t ->
  holds (snd (insert_entry t k (leaf_of t k) it ty role c call tool err stop src note)).
Proof.
  intros Hty Hr Hh. destruct (decide (k = sid)) as [->|Hk]; [|by apply insert_other].
  apply insert_holds; try done. destruct Hr as [Hr|Hr]; [by left|]. rewrite Hr.
  destruct (role =? ROLE_USER) eqn:E; [by right|left; lia].
Qed.

(** ** The inbox *)

Lemma pending_snoc t q rows next i :
  pending (with_inbox (rows ++ [q]) next t) i =
  pending (with_inbox rows next t) i ++ (if (q_session q =? i) && negb (q_consumed q) then [q] else []).
Proof. unfold pending. cbn [t_inbox with_inbox]. by rewrite List.filter_app. Qed.

Lemma pending_same t t' i : t_inbox t' = t_inbox t -> pending t' i = pending t i.
Proof. unfold pending. by intros ->. Qed.

Lemma inbox_holds t k source ref payload : holds t -> holds (inbox_insert t k source ref payload).
Proof.
  intros [J G]. split.
  - apply (journal_frame t); try done; cbn [t_inbox t_next_inbox inbox_insert with_inbox].
    + rewrite map_app. apply NoDup_app. split; [apply J|]. split; [|apply NoDup_singleton].
      intros i (q & -> & Hq)%list_elem_of_fmap. cbn. rewrite list_elem_of_singleton. pose proof (u_fresh _ J q Hq). lia.
    + intros q [Hq| ->%list_elem_of_singleton]%elem_of_app; [pose proof (u_fresh _ J q Hq); lia|cbn; lia].
  - unfold guarded, human_pending in *. destruct G as [G|G]; [by left|right].
    unfold inbox_insert. rewrite pending_snoc, existsb_app. apply orb_true_iff. left. exact G.
Qed.

(** What a drain leaves in the queue: everything but the rows it took. *)
Definition taken (ids : list Z) (q : Inbox) : Inbox :=
  if bool_decide (q_id q ∈ ids)
  then mk_in (q_id q) (q_session q) (q_source q) (q_ref q) (q_payload q) true (q_created q) else q.

Lemma drain_inbox rows : forall t k par,
  t_inbox (snd (drain_rows t k par rows)) = map (taken (map q_id rows)) (t_inbox t) /\
  t_next_inbox (snd (drain_rows t k par rows)) = t_next_inbox t.
Proof.
  induction rows as [|q rows IH]; intros t k par; cbn [drain_rows map].
  - split; [|done]. cbn [snd]. etransitivity; [symmetry; apply map_id|]. apply map_ext. intros r. unfold taken.
    by rewrite bool_decide_false by apply not_elem_of_nil.
  - pose proof (insert_entry_rest t k par None TUser ROLE_USER (Some (tagged q)) None None false 0 (Some (q_source q)) None)
      as (_ & _ & Q1 & _ & _ & _ & _ & _ & _ & Q3 & _).
    destruct (insert_entry _ _ _ _ _ _ _ _ _ _ _ _ _) as [id t1]. cbn [snd] in Q1, Q3.
    destruct (IH (with_inbox (map (mark_consumed (q_id q)) (t_inbox t1)) (t_next_inbox t1) t1) k id) as [E1 E2].
    rewrite E1, E2. cbn [t_inbox t_next_inbox with_inbox]. split; [|done]. rewrite map_map, Q1. apply map_ext.
    intros r. unfold taken, mark_consumed.
    destruct (q_id r =? q_id q) eqn:E; cbn [q_id q_session q_source q_ref q_payload q_created].
    + rewrite (bool_decide_true (q_id r ∈ q_id q :: _)) by (apply elem_of_cons; left; lia). by case_bool_decide.
    + rewrite (bool_decide_ext (q_id r ∈ q_id q :: map q_id rows) (q_id r ∈ map q_id rows)); [done|].
      rewrite elem_of_cons. split; [intros [?|?]; [lia|done]|by right].
Qed.

Lemma filter_filter {A} (p q : A -> bool) l : List.filter p (List.filter q l) = List.filter (fun x => q x && p x) l.
Proof.
  induction l as [|x l IH]; [done|]. cbn [List.filter]. destruct (q x); cbn [List.filter andb]; by rewrite IH.
Qed.

Lemma pending_taken rows ids next t i :
  pending (with_inbox (map (taken ids) rows) next t) i =
  List.filter (fun q => negb (bool_decide (q_id q ∈ ids))) (pending (with_inbox rows next t) i).
Proof.
  unfold pending. cbn [t_inbox with_inbox]. rewrite filter_filter. induction rows as [|q rows IH]; [done|].
  cbn [map List.filter]. destruct (decide (q_id q ∈ ids)) as [Hin|Hin].
  - assert (Ht : taken ids q = mk_in (q_id q) (q_session q) (q_source q) (q_ref q) (q_payload q) true (q_created q))
      by (unfold taken; by rewrite bool_decide_true).
    rewrite Ht, bool_decide_true by done. cbn [q_session q_consumed negb]. by rewrite !andb_false_r.
  - assert (Ht : taken ids q = q) by (unfold taken; by rewrite bool_decide_false).
    rewrite Ht, bool_decide_false by done. cbn [negb]. rewrite andb_true_r. by case_if; rewrite IH.
Qed.

(** Distinct ids: dropping the ids of a prefix is dropping the prefix. *)
Lemma filter_drop_prefix n (l : list Inbox) :
  NoDup (map q_id l) ->
  List.filter (fun q => negb (bool_decide (q_id q ∈ map q_id (take n l)))) l = drop n l.
Proof.
  revert n. induction l as [|q l IH]; intros n Hn; [by destruct n|]. cbn [map] in Hn. apply NoDup_cons in Hn as [Hq Hn].
  destruct n as [|n]; cbn [take drop].
  - replace (List.filter _ _) with (q :: l); [done|]. symmetry. apply forallb_filter_id.
    apply forallb_forall. intros r _. by rewrite bool_decide_false by apply not_elem_of_nil.
  - cbn [List.filter map]. rewrite (bool_decide_true (q_id q ∈ _)) by (apply elem_of_cons; by left). cbn [negb].
    rewrite <- (IH n Hn). apply filter_ext_in. intros r Hr. f_equal. apply bool_decide_ext.
    rewrite elem_of_cons. split; [|by right]. intros [E|]; [|done]. exfalso. apply Hq. rewrite <- E.
    apply list_elem_of_fmap. exists r. split; [done|by apply list_elem_of_In].
Qed.

(** The rows of another session are not the ones taken. *)
Lemma filter_other (rows l : list Inbox) :
  (forall r q, r ∈ rows -> q ∈ l -> q_id q <> q_id r) ->
  List.filter (fun q => negb (bool_decide (q_id q ∈ map q_id rows))) l = l.
Proof.
  intros H. apply forallb_filter_id, forallb_forall. intros q Hq. apply negb_true_iff, bool_decide_eq_false.
  intros (r & E & Hr)%list_elem_of_fmap. apply (H r q Hr); [by apply list_elem_of_In|done].
Qed.

Lemma NoDup_pending t i : NoDup (map q_id (t_inbox t)) -> NoDup (map q_id (pending t i)).
Proof. apply NoDup_map_filter. Qed.

Lemma drain_pending t k par n i :
  NoDup (map q_id (t_inbox t)) ->
  pending (snd (drain_rows t k par (take n (pending t k)))) i = if i =? k then drop n (pending t k) else pending t i.
Proof.
  intros Hn. destruct (drain_inbox (take n (pending t k)) t k par) as [E _].
  set (t' := snd _) in *. transitivity (pending (with_inbox (map (taken (map q_id (take n (pending t k)))) (t_inbox t)) 0 t) i).
  { unfold pending. by rewrite E. }
  rewrite pending_taken. change (pending (with_inbox (t_inbox t) 0 t) i) with (pending t i).
  destruct (i =? k) eqn:Ei; [replace i with k by lia; by apply filter_drop_prefix, NoDup_pending|].
  apply filter_other. intros r q Hr Hq E1.
  assert (Hr' : r ∈ pending t k) by (apply elem_of_take in Hr as (j & Hj & _); by apply list_elem_of_lookup_2 in Hj).
  unfold pending in Hr', Hq. apply elem_of_filter_bool in Hr' as [Hr1 Hr2], Hq as [Hq1 Hq2].
  assert (r = q); [|subst; lia]. clear -Hn Hr1 Hq1 E1.
  induction (t_inbox t) as [|y l IH]; [by apply elem_of_nil in Hr1|]. cbn [map] in Hn. apply NoDup_cons in Hn as [Hy Hn].
  apply elem_of_cons in Hr1 as [->|Hr1], Hq1 as [->|Hq1]; auto; exfalso; apply Hy;
    [rewrite <- E1|rewrite E1]; apply list_elem_of_fmap; eauto.
Qed.

Lemma mark_ids id l : map q_id (map (mark_consumed id) l) = map q_id l.
Proof. rewrite map_map. apply map_ext. intros q. unfold mark_consumed. by destruct (q_id q =? id). Qed.

Lemma mark_fresh id l next :
  (forall q, q ∈ l -> q_id q < next) -> forall q, q ∈ map (mark_consumed id) l -> q_id q < next.
Proof. intros H q (r & -> & Hr)%list_elem_of_fmap. specialize (H r Hr). unfold mark_consumed. by destruct (q_id r =? id). Qed.

(** A drained batch is one turn: it opens at most one, and a human in it makes it a
    human turn. *)
Lemma drain_own rows : forall t,
  Journal t ->
  let r := drain_rows t sid (leaf_of t sid) rows in
  Journal (snd r) /\ fst r = leaf_of (snd r) sid /\
  autonomous_streak (snd r) sid <=
    (if existsb human_row rows then 0 else autonomous_streak t sid +
       (if leaf_is_user t || bool_decide (rows = []) then 0 else 1)).
Proof.
  induction rows as [|q rows IH]; intros t J; cbn [drain_rows]; cbn zeta.
  { cbn [snd fst existsb]. split; [done|]. split; [done|]. rewrite orb_true_r. lia. }
  pose proof (insert_own t sid (leaf_of t sid) None TUser ROLE_USER (Some (tagged q)) None None false 0
    (Some (q_source q)) None eq_refl eq_refl ltac:(done) J) as (J1 & _ & El & Eu).
  pose proof (insert_streak t sid (leaf_of t sid) None TUser ROLE_USER (Some (tagged q)) None None false 0
    (Some (q_source q)) None eq_refl eq_refl ltac:(done) J) as Hs.
  assert (Eid : fst (insert_entry t sid (leaf_of t sid) None TUser ROLE_USER (Some (tagged q)) None None false 0
    (Some (q_source q)) None) = t_next_entry t) by (unfold insert_entry; done).
  destruct (insert_entry _ _ _ _ _ _ _ _ _ _ _ _ _) as [id t1]. cbn [snd fst] in *. subst id.
  set (t2 := with_inbox (map (mark_consumed (q_id q)) (t_inbox t1)) (t_next_inbox t1) t1).
  assert (J2 : Journal t2).
  { apply (journal_frame t1); try done; cbn [t_inbox t_next_inbox t2 with_inbox]; [rewrite mark_ids; apply J1|].
    apply mark_fresh. apply J1. }
  assert (Eu2 : leaf_is_user t2 = true) by (exact Eu).
  change (autonomous_streak t1 sid) with (autonomous_streak t2 sid) in Hs.
  rewrite <- El. change (leaf_of t1 sid) with (leaf_of t2 sid).
  destruct (IH t2 J2) as (J3 & E3 & H3). split; [done|]. split; [done|].
  rewrite Eu2 in H3. cbn [orb existsb] in *. rewrite bool_decide_false, orb_false_r by done.
  set (a2 := autonomous_streak t2 sid) in *. set (a0 := autonomous_streak t sid) in *. clearbody a2 a0.
  change ((ROLE_USER =? ROLE_USER) && negb (autonomous (default [] (Some (q_source q))))) with (human_row q) in Hs.
  change (negb (ROLE_USER =? ROLE_USER) && negb (bool_decide (session_entries t sid = []))) with false in Hs.
  rewrite orb_false_r in Hs. destruct (existsb human_row rows); [by rewrite orb_true_r|].
  rewrite orb_false_r. destruct (human_row q); lia.
Qed.

(** ** The turn open *)

(** What the gate lets through. *)
Definition let_through (t : Store) : Prop :=
  inbox_all_autonomous t sid = false \/ autonomous_streak t sid < cap.

Lemma not_refused c k t :
  0 < c -> g_refuse (streak_gate_check c t k) = false ->
  inbox_all_autonomous t k = false \/ autonomous_streak t k < c.
Proof.
  intros Hc. unfold streak_gate_check. replace (c <=? 0) with false by lia.
  destruct (inbox_all_autonomous t k) eqn:E; cbn [negb]; [|by left].
  cbn [g_refuse]. intros H. right. lia.
Qed.

Lemma consume_own t :
  holds t -> let_through t ->
  holds (snd (inbox_consume_into_entries_locked t sid 100)).
Proof.
  intros [J G] Hl. unfold inbox_consume_into_entries_locked. destruct (u_here _ J) as (s & Es). rewrite Es.
  assert (El : x_leaf s = leaf_of t sid) by (unfold leaf_of; by rewrite Es).
  set (rows := take 100 (pending t sid)). rewrite El.
  destruct (drain_own rows t J) as (J1 & E1 & H1).
  pose proof (drain_pending t sid (leaf_of t sid) 100 sid (u_rows _ J)) as Hp. rewrite Z.eqb_refl in Hp. fold rows in Hp.
  destruct (drain_rows t sid (leaf_of t sid) rows) as [leaf t1]. cbn [fst snd] in *.
  assert (Hrest : pending t sid = rows ++ pending t1 sid) by (rewrite Hp; symmetry; apply take_drop).
  assert (Hh : holds t1).
  { split; [done|]. unfold guarded, human_pending in *. rewrite Hrest, existsb_app in G.
    destruct (existsb human_row rows) eqn:Eh; [left; lia|]. cbn [orb] in G.
    destruct G as [G|G]; [|by right]. destruct Hl as [Hl|Hl].
    - unfold inbox_all_autonomous in Hl. rewrite Hrest in Hl. destruct (rows ++ pending t1 sid) as [|q l] eqn:Ea.
      + apply app_eq_nil in Ea as [-> _]. rewrite bool_decide_true, orb_true_r in H1 by done. left. lia.
      + right. rewrite <- Ea, forallb_app in Hl.
        assert (Hr : forallb (fun r => autonomous (q_source r)) rows = true).
        { apply forallb_forall. intros r Hr. destruct (autonomous (q_source r)) eqn:Er; [done|]. exfalso.
          assert (Hx : existsb human_row rows = true) by (apply existsb_exists; exists r; unfold human_row; by rewrite Er).
          congruence. }
        rewrite Hr in Hl. cbn [andb] in Hl. clear -Hl. induction (pending t1 sid) as [|r k IH]; [done|].
        cbn [forallb existsb] in *. unfold human_row at 1. destruct (autonomous (q_source r)); [by apply IH|done].
    - left. destruct (_ || _) in H1; lia. }
  cbn [snd]. destruct rows as [|q rs] eqn:Er; [done|]. rewrite <- Er in *.
  apply (holds_frame t1); try done. unfold leaf_row. rewrite get_session_update, Z.eqb_refl by done.
  destruct (u_here _ J1) as (s1 & Es1). rewrite Es1. cbn. unfold leaf_of in E1. rewrite Es1 in E1. by rewrite E1.
Qed.

(** ** The other writes *)

Lemma drain_other k rows : forall t par,
  k <> sid -> Journal t ->
  let t' := snd (drain_rows t k par rows) in
  Journal t' /\ journal t' sid = journal t sid /\ leaf_row t' = leaf_row t.
Proof.
  induction rows as [|q rows IH]; intros t par Hk J; cbn [drain_rows]; cbn zeta; [done|].
  destruct (insert_other_journal t k par None TUser ROLE_USER (Some (tagged q)) None None false 0 (Some (q_source q)) None Hk J)
    as (J1 & E1 & L1).
  destruct (insert_entry _ _ _ _ _ _ _ _ _ _ _ _ _) as [id t1]. cbn [snd] in *.
  set (t2 := with_inbox _ _ t1).
  assert (J2 : Journal t2).
  { apply (journal_frame t1); try done; cbn [t_inbox t_next_inbox t2 with_inbox]; [rewrite mark_ids; apply J1|].
    apply mark_fresh. apply J1. }
  destruct (IH t2 id Hk J2) as (J3 & E3 & L3). split; [done|]. rewrite E3, L3. done.
Qed.

Lemma consume_other k t : k <> sid -> holds t -> holds (snd (inbox_consume_into_entries_locked t k 100)).
Proof.
  intros Hk [J G]. unfold inbox_consume_into_entries_locked. destruct (get_session t k) as [s|]; [|done].
  destruct (drain_other k (take 100 (pending t k)) t (x_leaf s) Hk J) as (J1 & E1 & _).
  pose proof (drain_pending t k (x_leaf s) 100 sid (u_rows _ J)) as Hp.
  replace (sid =? k) with false in Hp by lia.
  destruct (drain_rows _ _ _ _) as [leaf t1]. cbn [snd] in *.
  assert (Hh : holds t1).
  { split; [done|]. unfold guarded, human_pending in *. by rewrite Hp, streak_journal, E1, <- streak_journal. }
  destruct (take 100 (pending t k)); [done|]. apply (holds_frame t1); try done.
  unfold leaf_row. rewrite get_session_update by done. by replace (sid =? k) with false by lia.
Qed.

Lemma leaf_row_update t k f :
  (forall s, x_id (f s) = x_id s) -> (forall s, x_leaf (f s) = x_leaf s) -> leaf_row (update_session k f t) = leaf_row t.
Proof.
  intros H1 H2. unfold leaf_row. rewrite get_session_update by done. destruct (sid =? k); [|done].
  destruct (get_session t sid); [|done]. cbn. by rewrite H2.
Qed.

Lemma update_holds t k f :
  (forall s, x_id (f s) = x_id s) -> (forall s, x_leaf (f s) = x_leaf s) -> holds t -> holds (update_session k f t).
Proof. intros H1 H2. apply holds_frame; try done. by apply leaf_row_update. Qed.

Lemma set_state_holds inst t k st : holds t -> holds (snd (session_set_state inst t k st)).
Proof.
  intros Hh. unfold session_set_state. destruct (get_session t k) as [s|]; [|done].
  destruct (may_enter _ _); [by apply update_holds|done].
Qed.

Lemma close_calls_holds rows : forall t k, holds t -> holds (close_calls t k rows).
Proof.
  induction rows as [|[[call name] it] rows IH]; intros t k Hh; cbn [close_calls]; [done|].
  unfold append_tool_result.
  pose proof (append_holds t k (pick_iter t k it) TToolResult ROLE_TOOL (Some SUPERSEDED) (Some call) (Some name)
    true 0 None None ltac:(done) ltac:(by left) Hh) as H1.
  destruct (insert_entry _ _ _ _ _ _ _ _ _ _ _ _ _) as [id t1]. unfold db_tool_call_set_status.
  apply IH. by apply (holds_frame t1).
Qed.

Lemma reconcile_holds t k : holds t -> holds (snd (db_reconcile_stale_calls t k)).
Proof. intros Hh. unfold db_reconcile_stale_calls. destruct (_ =? _); [done|]. by apply close_calls_holds. Qed.

Lemma note_holds t k note text : holds t -> holds (streak_note t k note text).
Proof. intros Hh. unfold streak_note. apply append_holds; [done|by left|done]. Qed.

Section Writes.
Context `{Ingest} (instance : cstring).

Lemma oneshot_holds t child parent call text err :
  holds t -> holds (snd (oneshot_resolve instance t child parent call text err)).
Proof.
  intros Hh. unfold oneshot_resolve. destruct (_ && _); cbn [snd]; [|by apply (holds_frame t)].
  unfold append_tool_result.
  pose proof (append_holds t parent (pick_iter t parent 0) TToolResult ROLE_TOOL (Some (spill parent call (scrub text)))
    (Some call) (Some (bs "launch_agent")) err 0 None None ltac:(done) ltac:(by left) Hh) as H1.
  destruct (insert_entry _ _ _ _ _ _ _ _ _ _ _ _ _) as [id t1]. unfold db_tool_call_complete_by_call. cbn [snd].
  set (t2 := update_calls _ _ _ _).
  assert (H2 : holds t2) by (by apply (holds_frame t1)).
  assert (H3 : holds (unpark instance t2 parent)).
  { unfold unpark. destruct (get_session t2 parent) as [s|]; [|done]. destruct (x_state s); try done; by apply set_state_holds. }
  by apply (holds_frame (unpark instance t2 parent)).
Qed.

Lemma push_holds t k e sr label text : holds t -> holds (push t k e sr label text).
Proof.
  intros Hh. unfold push. destruct (d_kind e); try done; [by apply inbox_holds|].
  unfold channel_push. destruct (duplicate_error _ _ _ _); [done|]. by apply (holds_frame t).
Qed.

Lemma boundary_holds b c t k err inc : holds t -> holds (snd (advance_deliver_boundary instance b c t k err inc)).
Proof.
  apply boundary_preserves; intros; [by apply push_holds|by eapply holds_frame; [..|eassumption]|by apply oneshot_holds|
    by eapply holds_frame; [..|eassumption]].
Qed.

Lemma iteration_holds b c t k : holds t -> holds (advance_deliver_iteration b c t k).
Proof.
  apply iteration_preserves; intros; [by apply push_holds|by eapply holds_frame; [..|eassumption]|
    by eapply holds_frame; [..|eassumption]].
Qed.

Lemma refuse_holds t k g : holds t -> holds (snd (streak_refuse instance t k g)).
Proof.
  intros Hh. unfold streak_refuse. destruct (tripped t k); [done|]. cbn zeta.
  pose proof (note_holds t k (bs "tripped") (trip_text (g_streak g)) Hh) as H1.
  set (t1 := streak_note _ _ _ _) in *.
  set (t2 := match get_session t1 k with Some _ => _ | None => _ end).
  assert (H2 : holds t2).
  { unfold t2. destruct (get_session t1 k) as [s|]; [|done]. destruct (x_channel s); [by apply (holds_frame t1)|done]. }
  clearbody t2. destruct (List.find _ (t_edges t2)) as [d|]; [|done].
  destruct (snprintf 192 (d_ref d)); [done|]. by apply oneshot_holds.
Qed.

End Writes.

(** ** Compaction *)

Lemma reparent_holds t f :
  (forall e, e_id (f e) = e_id e /\ e_session (f e) = e_session e /\ mark (f e) = mark e) ->
  holds t -> holds (with_entries (map f (t_entries t)) (t_next_entry t) t).
Proof.
  intros Hf [[A B C D F L R1 R2] G]. set (t' := with_entries _ _ t).
  assert (Hturn : forall e, e_turn (f e) = e_turn e) by (intros e; destruct (Hf e) as (_ & _ & [= ? _]); done).
  assert (Es : forall i, session_entries t' i = map f (session_entries t i)).
  { intros i. unfold session_entries, t'. cbn [t_entries with_entries]. clear -Hf.
    induction (t_entries t) as [|e l IH]; [done|].
    cbn [map List.filter]. destruct (Hf e) as (_ & -> & _). rewrite IH. by destruct (e_session e =? i). }
  assert (Ej : journal t' sid = journal t sid).
  { unfold journal. rewrite Es, map_map. apply map_ext. intros e. apply Hf. }
  assert (Eg : forall i, get_entry t' i = option_map f (get_entry t i)).
  { intros i. unfold get_entry, t'. cbn [t_entries with_entries]. apply find_map_same. intros e.
    by destruct (Hf e) as (-> & _ & _). }
  split.
  - split; cbn [t_entries t_next_entry t_inbox t_next_inbox t' with_entries]; try done.
    + rewrite map_map. rewrite (map_ext _ e_id); [done|]. intros e. apply Hf.
    + intros e' (e & -> & He)%list_elem_of_fmap. destruct (Hf e) as (-> & _ & _). by apply B.
    + intros e' (e & -> & He)%list_elem_of_fmap. rewrite Hturn. by apply C.
    + change (leaf_of t' sid) with (leaf_of t sid). rewrite Eg, Ej.
      destruct (get_entry t (leaf_of t sid)) as [e|]; cbn [option_map].
      * rewrite Hturn. by destruct (Hf e) as (_ & -> & _).
      * rewrite Es. by rewrite F.
  - unfold guarded, human_pending in *. rewrite streak_journal, Ej, <- streak_journal. exact G.
Qed.

Lemma compact_insert_holds t p kept summary :
  get_entry t kept = Some p -> e_session p = sid -> holds t ->
  holds (snd (insert_entry t sid kept None TCompaction ROLE_COMPACTION (Some summary) None None false 0 None None)).
Proof.
  intros Hp Hs [J G].
  destruct (session_entries_insert t sid kept None TCompaction ROLE_COMPACTION (Some summary) None None false 0 None None sid)
    as (e & Es & Ex & Er & _ & Ei & Ek & Ee).
  pose proof (turn_for_pos t sid kept ROLE_COMPACTION None J) as Hpos.
  rewrite Z.eqb_refl in Es. pose proof J as [A B C (s & D) F L R1 R2].
  pose proof (insert_entry_rest t sid kept None TCompaction ROLE_COMPACTION (Some summary) None None false 0 None None)
    as (_ & _ & Q1 & _ & _ & _ & Q2 & _ & _ & Q3 & _).
  pose proof (insert_entry_get t sid kept None TCompaction ROLE_COMPACTION (Some summary) None None false 0 None None sid) as Eg.
  rewrite D, Z.eqb_refl, bool_decide_true in Eg by done. cbn [andb negb] in Eg.
  assert (Hturn : turn_for t sid kept ROLE_COMPACTION = e_turn p) by (unfold turn_for; by rewrite Hp).
  rewrite Hturn in Ex, Hpos.
  assert (Hin : e_turn p ∈ map fst (journal t sid)).
  { unfold journal. rewrite map_map. apply list_elem_of_fmap. exists p. split; [done|].
    apply elem_of_filter_bool. split; [by apply get_entry_in in Hp as [? _]|lia]. }
  set (t' := snd (insert_entry _ _ _ _ _ _ _ _ _ _ _ _ _)) in *. clearbody t'.
  assert (Ej : journal t' sid = journal t sid ++ [(e_turn p, false)]).
  { unfold journal. rewrite Es, map_app. cbn [map]. unfold mark at 2, human_entry. by rewrite Ex, Er. }
  assert (El : leaf_of t' sid = leaf_of t sid) by (unfold leaf_of; by rewrite Eg, D).
  split.
  - split.
    + rewrite Ee, map_app. apply NoDup_app. split; [done|]. split; [|apply NoDup_singleton].
      intros i (y & -> & Hy)%list_elem_of_fmap. cbn [map]. rewrite list_elem_of_singleton. specialize (B y Hy). lia.
    + rewrite Ee, Q2. intros y [Hy| ->%list_elem_of_singleton]%elem_of_app; [specialize (B y Hy); lia|lia].
    + rewrite Ee. intros y [Hy| ->%list_elem_of_singleton]%elem_of_app; [by apply C|lia].
    + by exists s.
    + rewrite El. unfold get_entry. rewrite Ee, find_snoc by (intros y Hy; rewrite Ei; by apply B).
      replace (leaf_of t sid =? e_id e) with false by lia.
      destruct (get_entry t (leaf_of t sid)) as [y|].
      * destruct F as [F1 F2]. split; [done|]. rewrite Ej. unfold jmax in *. rewrite map_app. cbn [map fst].
        rewrite max_of_app by lia. pose proof (max_of_ge _ _ Hin). lia.
      * exfalso. unfold journal in Hin. rewrite F in Hin. by apply elem_of_nil in Hin.
    + rewrite El. lia.
    + by rewrite Q1.
    + rewrite Q1, Q3. done.
  - unfold guarded, human_pending in *. rewrite (pending_same t) by done.
    rewrite streak_journal, Ej, jstreak_same by (done || lia). by rewrite <- streak_journal.
Qed.

Lemma compact_holds t k kept first summary :
  (exists p, get_entry t kept = Some p /\ e_session p = k) -> holds t ->
  holds (snd (entry_compact t k kept first summary)).
Proof.
  intros (p & Hp & Hs) Hh. unfold entry_compact.
  assert (H1 : holds (snd (insert_entry t k kept None TCompaction ROLE_COMPACTION (Some summary) None None false 0 None None))).
  { destruct (decide (k = sid)) as [->|Hk]; [by apply (compact_insert_holds t p)|by apply insert_other]. }
  destruct (insert_entry _ _ _ _ _ _ _ _ _ _ _ _ _) as [id t1]. cbn [snd] in *.
  apply reparent_holds; [|done]. intros e. by destruct (_ && _).
Qed.

(** ** The steps of the machine *)
Section Machine.
Context `{Ingest} (instance : cstring) (cfg : AdvanceConfig) (io : Io).
Hypothesis Hcfg : max_autonomous_turn_streak cfg = cap.

Lemma try_set_holds t k st : holds t -> holds (snd (set_state instance io t k st)).
Proof. intros Hh. unfold set_state. destruct (io_set io); [by apply set_state_holds|done]. Qed.

Lemma commit_refusal_holds t t' w : holds t -> holds t' -> holds (commit_refusal io t t' w).
Proof.
  intros H1 H2. unfold commit_refusal. destruct (io_commit io); [|done].
  destruct (0 <? w); [by apply (holds_frame t')|done].
Qed.

Lemma open_turn_holds t k iter : holds t -> holds (open_turn instance t k iter).
Proof. intros Hh. unfold open_turn. apply set_state_holds. by apply update_holds. Qed.

Lemma consume_holds t k :
  holds t -> g_refuse (streak_gate_check cap t k) = false ->
  holds (snd (inbox_consume_into_entries_locked t k 100)).
Proof.
  intros Hh Hg. destruct (decide (k = sid)) as [->|Hk]; [|by apply consume_other].
  apply consume_own; [done|]. by apply not_refused.
Qed.

Lemma idle_holds t k agent s : holds t -> holds (snd (advance_idle instance cfg io t k agent s)).
Proof.
  intros Hh. unfold advance_idle. case_if; [done|]. case_if; [done|].
  pose proof (reconcile_holds t k Hh) as H1. destruct (db_reconcile_stale_calls t k) as [n t1]. cbn [snd] in H1.
  rewrite Hcfg. set (g := streak_gate_check cap t1 k). case_if.
  { pose proof (refuse_holds instance t1 k g H1) as H2. destruct (streak_refuse instance t1 k g) as [w t2].
    by apply commit_refusal_holds. }
  case_if; [by destruct (io_commit io)|]. unfold idle_drain.
  pose proof (consume_holds t1 k H1 Heqb1) as H2.
  destruct (inbox_consume_into_entries_locked t1 k 100) as [c t2]. cbn [snd] in H2.
  assert (H3 : holds (if (0 <? c) && g_warn g then streak_warn t2 k g else t2)) by (case_if; [by apply note_holds|done]).
  destruct (c =? 0); cbn iota beta.
  - case_if; [done|]. case_if; [by apply open_turn_holds|done].
  - case_if; [done|]. case_if; [by apply open_turn_holds|done].
Qed.

Lemma llm_holds t k agent s : holds t -> holds (snd (advance_llm_running instance io t k agent s)).
Proof.
  intros Hh. unfold advance_llm_running. case_if; [done|]. case_if; [by apply try_set_holds|].
  destruct (db_tool_call_get_pending t k) as [|c cs].
  - pose proof (try_set_holds t k Idle Hh) as H1. destruct (set_state _ _ _ _ _) as [ok t1]. cbn [snd] in H1.
    destruct ok; [cbn [negb]|done]. destruct (session_stopped_with_error t k); by apply boundary_holds.
  - pose proof (try_set_holds _ k ToolRunning (iteration_holds (fst (io_iteration io)) (snd (io_iteration io)) t k Hh)) as H1.
    destruct (set_state _ _ _ _ _) as [ok t1]. by destruct ok.
Qed.

Lemma bump_holds t k : holds t -> holds (snd (session_bump_iteration t k)).
Proof. intros Hh. unfold session_bump_iteration. destruct (get_session t k); [by apply update_holds|done]. Qed.

Lemma tool_holds t k agent s max : holds t -> holds (snd (advance_tool_running instance cfg io t k agent s max)).
Proof.
  intros Hh. unfold advance_tool_running. destruct (db_tool_call_get_pending t k); [|done]. case_if; [done|].
  assert (H1 : holds (snd (if io_bump io then session_bump_iteration t k else (-1, t)))) by (destruct (io_bump io); [by apply bump_holds|done]).
  destruct (if io_bump io then _ else _) as [n t1]. cbn [snd] in H1.
  destruct (cutoff_notice cfg t1 k n max) as [notice|]; cbn [snd]; [|by apply try_set_holds].
  unfold cut_off. apply boundary_holds, try_set_holds. unfold append_assistant. apply append_holds; [done|by left|done].
Qed.

Lemma compacting_holds t k agent s : holds t -> holds (snd (advance_compacting instance cfg io t k agent s)).
Proof.
  intros Hh. unfold advance_compacting. case_if; [done|]. case_if; [done|].
  pose proof (set_state_holds instance t k Idle Hh) as H1. set (t1 := snd (session_set_state instance t k Idle)) in *.
  rewrite Hcfg. set (g := streak_gate_check cap t1 k). case_if.
  { pose proof (refuse_holds instance t1 k g H1) as H2. destruct (streak_refuse instance t1 k g) as [w t2].
    by apply commit_refusal_holds. }
  case_if; [by destruct (io_commit io)|].
  pose proof (consume_holds t1 k H1 Heqb1) as H2.
  destruct (inbox_consume_into_entries_locked t1 k 100) as [c t2]. cbn [snd] in H2.
  case_if; [done|]. case_if; [|done]. apply open_turn_holds. destruct (g_warn g); [by apply note_holds|done].
Qed.

Lemma advance_holds t k max : holds t -> holds (snd (advance_session instance cfg io t k max)).
Proof.
  intros Hh. unfold advance_session. destruct (get_session t k) as [s|]; [|done]. destruct (x_agent s); [|done].
  destruct (x_state s); try done.
  - by apply idle_holds.
  - by apply llm_holds.
  - by apply tool_holds.
  - by apply compacting_holds.
  - by apply try_set_holds.
Qed.

End Machine.

(** Whatever else writes: a step of any session under the same cap, a delivery, an
    entry of the machinery or of a human appended at a leaf, a compaction, a message
    queued by anyone, and changes to the rest of the database. *)
Inductive world : Store -> Store -> Prop :=
  | Wadvance `{Ingest} instance cfg io t k max :
      max_autonomous_turn_streak cfg = cap -> world t (snd (advance_session instance cfg io t k max))
  | Wboundary `{Ingest} instance b c t k err inc : world t (snd (advance_deliver_boundary instance b c t k err inc))
  | Witeration `{Ingest} b c t k : world t (advance_deliver_iteration b c t k)
  | Wappend t k it ty role c call tool err stop src note :
      ty <> TCompaction -> role <> ROLE_USER \/ autonomous (default [] src) = false ->
      world t (snd (insert_entry t k (leaf_of t k) it ty role c call tool err stop src note))
  | Wcompact t k kept first summary :
      (exists p, get_entry t kept = Some p /\ e_session p = k) -> world t (snd (entry_compact t k kept first summary))
  | Winbox t k source ref payload : world t (inbox_insert t k source ref payload)
  | Wother t t' :
      t_entries t' = t_entries t -> t_next_entry t' = t_next_entry t -> leaf_row t' = leaf_row t ->
      t_inbox t' = t_inbox t -> t_next_inbox t' = t_next_inbox t -> world t t'.

Lemma world_holds t t' : world t t' -> holds t -> holds t'.
Proof.
  intros Hw Hh. destruct Hw.
  - by apply advance_holds.
  - by apply boundary_holds.
  - by apply iteration_holds.
  - by apply append_holds.
  - by apply compact_holds.
  - by apply inbox_holds.
  - by apply (holds_frame t).
Qed.

Lemma worlds_hold t t' : rtc world t t' -> holds t -> holds t'.
Proof. intros Hr. induction Hr; [done|]. intros Hh. by apply IHHr, (world_holds x). Qed.

End Guard.

(** (C6) The runaway guard holds.  From a session whose count of consecutive autonomous
    turns is within the cap, however steps, deliveries, appends, compactions and
    messages of any session interleave and fail, the count stays within the cap as long
    as no human message waits in the session's queue. *)
Theorem autonomous_streak_bounded (sid cap : Z) (t t' : Store) :
  0 < cap -> Journal sid t -> autonomous_streak t sid <= cap -> rtc (world sid cap) t t' ->
  autonomous_streak t' sid <= cap \/ human_pending sid t' = true.
Proof.
  intros Hcap J G Hr. apply (worlds_hold sid cap Hcap t t' Hr). split; [done|]. by left.
Qed.

(** A session with one cron turn on record and another queued, under a cap of one. *)
Definition guard_store : Store := mk_store 1000
  [mk_xsession 1 (Some (bs "main")) Idle 0 2 (-1) None None None 0]
  [mk_entry 1 1 (-1) 1 None TUser ROLE_USER (Some (bs "tick")) None None false 0 (Some (bs "cron")) None;
   demo_entry 2 1 1 1 (Some 1) TAssistant ROLE_ASSISTANT (bs "ok") 1]
  3 [] 1 [] [] 1 [] [] [] [] [] [] [].

Lemma autonomous_streak_bounded_witness :
  let cfg := mk_config 1 10 (fun _ _ => None) in
  let io := mk_io true true true true (true, true) (true, true) in
  let t := inbox_insert guard_store 1 (bs "cron") None (bs "tick") in
  let t' := snd (@advance_session demo_ingest (bs "i1") cfg io t 1 25) in
  zlen (pending t' 1) = 1 /\ (autonomous_streak t' 1 <= 1 \/ human_pending 1 t' = true).
Proof.
  split; [vm_compute; reflexivity|].
  apply (autonomous_streak_bounded 1 1 guard_store); [lia| |vm_compute; discriminate|].
  - split.
    + apply (bool_decide_unpack _). vm_compute. exact I.
    + intros e He. repeat (apply elem_of_cons in He as [->|He]; [vm_compute; reflexivity|]). by apply elem_of_nil in He.
    + intros e He. repeat (apply elem_of_cons in He as [->|He]; [vm_compute; discriminate|]). by apply elem_of_nil in He.
    + eexists. reflexivity.
    + vm_compute. split; reflexivity.
    + vm_compute. reflexivity.
    + constructor.
    + intros q Hq. by apply elem_of_nil in Hq.
  - eapply rtc_l; [apply Winbox|]. eapply rtc_l; [|apply rtc_refl]. by apply Wadvance.
Defined.
