(* ===== verification/TurnBudget.v ===== *)
(** * The budget of a turn, and what a turn open does with the inbox

    Between its opening and its end a turn dispatches fewer requests than
    max_iterations, plus one for each dispatch whose counter write failed; at the cap
    it ends with what the model had said.  Opening a turn moves a prefix of the queue
    into the session, or leaves the queue as it was. *)
From S2P Require Import Prelude CString Libc Ingest Store Delivery Advance StreakGuard.

Definition effective_max (max_iterations : Z) : Z :=
  if max_iterations <=? 0 then MAX_ITERATIONS_DEFAULT else max_iterations.

(** The row of a session whose turn is in flight. *)
Definition in_turn (t : Store) (sid : Z) (i : Z) : Prop :=
  exists s, get_session t sid = Some s /\ x_iter s = i /\ x_parent s <> sid /\
            (x_state s = LlmRunning \/ x_state s = ToolRunning \/ x_state s = AwaitingApproval).

Definition is_dispatch (o : AdvanceOutput) : bool := match out_action o with DISPATCH_LLM => true | _ => false end.

(** A dispatch whose update of the counter failed: [session_bump_iteration] returns -1,
    below every cap, and the request goes out uncounted. *)
Definition uncounted (io : Io) (o : AdvanceOutput) : bool := is_dispatch o && negb (io_bump io).

Lemma entered_iter inst new s : new <> Idle -> x_iter (entered inst new s) = x_iter s.
Proof. intros Hn. unfold entered. cbn [x_iter]. by case_decide. Qed.

Section Budget.
Context `{Ingest} (instance : cstring) (cfg : AdvanceConfig) (sid max_iterations : Z).

(** A turn as it runs: steps of the machine under any outcome of its writes,
    interleaved with other writers (the worker's entries, tool results, approvals, a
    steering message) that leave the turn in flight and its count no lower; the numbers
    count the requests dispatched and, of them, the uncounted ones.  The counter is only
    lowered where a session enters idle, which ends the turn ([entered], and the
    recovery of a dead instance), and set where a turn opens. *)
Inductive turn_run : Store -> Z -> Z -> Store -> Prop :=
  | run_here t : turn_run t 0 0 t
  | run_advance t i io n f t' :
      in_turn t sid i ->
      turn_run (snd (advance_session instance cfg io t sid max_iterations)) n f t' ->
      turn_run t
        (n + (if is_dispatch (fst (advance_session instance cfg io t sid max_iterations)) then 1 else 0))
        (f + (if uncounted io (fst (advance_session instance cfg io t sid max_iterations)) then 1 else 0)) t'
  | run_other t i t1 j n f t' :
      in_turn t sid i -> in_turn t1 sid j -> i <= j -> turn_run t1 n f t' -> turn_run t n f t'.

Lemma boundary_row b c t err inc s :
  get_session t sid = Some s -> x_parent s <> sid ->
  get_session (snd (advance_deliver_boundary instance b c t sid err inc)) sid = get_session t sid.
Proof.
  intros Hs Hp. unfold advance_deliver_boundary. destruct (negb _); [done|]. destruct (negb b); [done|].
  destruct (edge_session_row t sid) as [sr|] eqn:Er; [|done]. destruct (r_leaf sr <=? 0); [done|].
  set (t1 := channel_edge_ensure t sid sr).
  assert (E1 : get_session t1 sid = get_session t sid) by apply ensure_session.
  destruct (edges_load t1 sid) as [|e es] eqn:E; [by destruct c|]. rewrite <- E. destruct c; [|done]. cbn [snd].
  assert (Hne : sid <> r_parent (b_row (boundary_of t1 sid sr err inc))).
  { cbn. unfold edge_session_row in Er. rewrite Hs in Er. injection Er as <-. cbn. congruence. }
  pose proof (deliver_edges_session instance (boundary_of t1 sid sr err inc) (length (edges_load t1 sid))
    (edges_load t1 sid) (mk_prog t1 0 0) sid Hne) as E2. cbn [p_store] in E2.
  destruct (0 <? p_wake _); rewrite ?woken_session, E2; done.
Qed.

Lemma iteration_row b c t i : get_session (advance_deliver_iteration b c t sid) i = get_session t i.
Proof.
  apply (iteration_preserves (fun u => get_session u i = get_session t i)); try done; intros; try done.
  etransitivity; [apply only_pushes_session, push_only|done].
Qed.

Lemma try_set_row io t st :
  get_session (snd (set_state instance io t sid st)) sid =
  match get_session t sid with
  | Some s => Some (if io_set io && may_enter (x_state s) st then entered instance st s else s)
  | None => None
  end.
Proof.
  unfold set_state. destruct (io_set io); [|cbn [snd andb]; by destruct (get_session t sid)].
  rewrite set_state_get. destruct (get_session t sid); [|done]. by rewrite Z.eqb_refl.
Qed.

Lemma try_set_ok io t st :
  fst (set_state instance io t sid st) = true ->
  exists s, get_session t sid = Some s /\ io_set io && may_enter (x_state s) st = true.
Proof.
  unfold set_state. destruct (io_set io); [|done]. unfold session_set_state.
  destruct (get_session t sid) as [s|]; [|done]. destruct (may_enter (x_state s) st) eqn:E; [|done]. by exists s.
Qed.

Lemma bump_row t s :
  get_session t sid = Some s ->
  session_bump_iteration t sid = (x_iter s + 1, update_session sid (fun s => with_iter (x_iter s + 1) s) t) /\
  get_session (snd (session_bump_iteration t sid)) sid = Some (with_iter (x_iter s + 1) s).
Proof.
  intros Hs. unfold session_bump_iteration. rewrite Hs. split; [done|]. cbn [snd].
  by rewrite get_session_update, Z.eqb_refl, Hs by done.
Qed.

Lemma cut_off_row io t notice s :
  get_session t sid = Some s -> x_parent s <> sid ->
  exists l, get_session (cut_off instance io t sid notice) sid =
    Some (let s' := with_leaf l s in if io_set io && may_enter (x_state s) Idle then entered instance Idle s' else s').
Proof.
  intros Hs Hp. unfold cut_off, boundary, append_assistant.
  pose proof (insert_entry_get t sid (leaf_of t sid) (pick_iter t sid 0) TAssistant ROLE_ASSISTANT
    (Some (rich_cutoff_message t sid notice)) None None false STOP_REASON_ERROR None None sid) as Eg.
  rewrite Hs, Z.eqb_refl, bool_decide_false in Eg by done. cbn [andb negb] in Eg.
  set (t1 := snd (insert_entry _ _ _ _ _ _ _ _ _ _ _ _ _)) in *.
  pose proof (try_set_row io t1 Idle) as E2. rewrite Eg in E2.
  exists (t_next_entry t). cbn zeta. rewrite (boundary_row _ _ _ _ _ _ E2); [exact E2|].
  by destruct (_ && _).
Qed.

Lemma effective_max_pos : 0 < effective_max max_iterations.
Proof. unfold effective_max, MAX_ITERATIONS_DEFAULT. case_if; lia. Qed.

(** One step inside a turn: a counted dispatch spends one iteration and stays under the
    cap, and no step gives one back while the turn lasts. *)
Lemma advance_in_turn io t i :
  in_turn t sid i -> 0 <= i ->
  let r := advance_session instance cfg io t sid max_iterations in
  (is_dispatch (fst r) = true -> io_bump io = true -> i + 1 < effective_max max_iterations /\
     forall j, in_turn (snd r) sid j -> j = i + 1) /\
  (forall j, in_turn (snd r) sid j -> i <= j).
Proof.
  intros (s & Hs & Hi & Hp & Hst) Hpos. unfold advance_session. rewrite Hs. cbn zeta.
  assert (Hsame : forall j, in_turn t sid j -> i <= j).
  { intros j (s' & Hs' & <- & _). rewrite Hs in Hs'. injection Hs' as <-. lia. }
  assert (Hidle : forall t' s', get_session t' sid = Some s' -> x_state s' = Idle -> forall j, ~ in_turn t' sid j).
  { intros t' s' E Ei j (s2 & E2 & _ & _ & Hs2). rewrite E in E2. injection E2 as <-. rewrite Ei in Hs2.
    by destruct Hs2 as [?|[?|?]]. }
  destruct (x_agent s); [|cbn; split; [done|exact Hsame]].
  destruct Hst as [Hst|[Hst|Hst]]; rewrite Hst; [| |cbn; split; [done|exact Hsame]].
  - unfold advance_llm_running. case_if; [cbn; split; [done|exact Hsame]|]. case_if.
    { cbn [fst snd]. split; [done|]. intros j (s' & E & <- & _ & Hs'). rewrite try_set_row, Hs in E. injection E as <-.
      rewrite Hst in *. cbn [may_enter] in *. destruct (io_set io); cbn in *; [by destruct Hs' as [?|[?|?]]|lia]. }
    destruct (db_tool_call_get_pending t sid) as [|c cs].
    + pose proof (try_set_row io t Idle) as E1. pose proof (try_set_ok io t Idle) as Ok1.
      destruct (set_state _ _ _ _ _) as [ok t1]. cbn [fst snd] in E1, Ok1. rewrite Hs in E1.
      destruct ok; cbn [negb].
      2: { split; [done|]. cbn [snd]. intros j (s' & E & <- & _ & Hs'). rewrite E1 in E. injection E as <-.
           destruct (_ && _); cbn in *; [by destruct Hs' as [?|[?|?]]|lia]. }
      destruct (Ok1 eq_refl) as (s0 & E0 & Hok). rewrite Hs in E0. injection E0 as <-. rewrite Hok in E1.
      assert (Hb1 : forall err inc, get_session (boundary instance io t1 sid err inc) sid = Some (entered instance Idle s)).
      { intros err inc. unfold boundary. rewrite (boundary_row _ _ _ _ _ _ E1); done. }
      destruct (session_stopped_with_error t sid); cbn [fst snd]; (split; [done|]); intros j Hj; exfalso;
        by eapply Hidle; [apply Hb1|done|exact Hj].
    + pose proof (try_set_row io (advance_deliver_iteration (fst (io_iteration io)) (snd (io_iteration io)) t sid) ToolRunning) as E1.
      rewrite iteration_row, Hs in E1. destruct (set_state _ _ _ _ _) as [ok t1]. cbn [snd] in E1.
      assert (Ht1 : forall j, in_turn t1 sid j -> i <= j).
      { intros j (s' & E & <- & _). rewrite E1 in E. injection E as <-. destruct (_ && _); rewrite ?entered_iter by done; lia. }
      by destruct ok.
  - unfold advance_tool_running. destruct (db_tool_call_get_pending t sid); [|cbn; split; [done|exact Hsame]].
    case_if; [cbn; split; [done|exact Hsame]|]. fold (effective_max max_iterations).
    assert (Hcut : forall t1 s1 notice, get_session t1 sid = Some s1 -> x_parent s1 <> sid -> i <= x_iter s1 ->
              forall j, in_turn (cut_off instance io t1 sid notice) sid j -> i <= j).
    { intros t1 s1 notice E1 P1 I1 j (s' & E & <- & _ & Hs').
      destruct (cut_off_row io t1 notice _ E1 P1) as (lf & El). rewrite El in E. injection E as <-.
      destruct (_ && _); cbn in *; [by destruct Hs' as [?|[?|?]]|lia]. }
    assert (Hrun : forall t1 s1, get_session t1 sid = Some s1 ->
              forall j, in_turn (snd (set_state instance io t1 sid LlmRunning)) sid j -> j = x_iter s1).
    { intros t1 s1 E1 j (s' & E & <- & _). rewrite try_set_row, E1 in E. injection E as <-.
      destruct (_ && _); rewrite ?entered_iter by done; done. }
    destruct (io_bump io) eqn:Hb.
    + destruct (bump_row t s Hs) as [Eb Er]. rewrite Eb in *. cbn [snd] in Er. set (t1 := update_session _ _ _) in *.
      destruct (cutoff_notice cfg t1 sid (x_iter s + 1) (effective_max max_iterations)) as [notice|] eqn:En; cbn [fst snd].
      * split; [done|]. eapply Hcut; [exact Er|exact Hp|cbn; lia].
      * assert (Hlt : x_iter s + 1 < effective_max max_iterations).
        { unfold cutoff_notice in En. destruct (_ <=? _) eqn:E; [done|]. lia. }
        pose proof (Hrun _ _ Er) as Hj. cbn [x_iter with_iter] in Hj.
        split; [intros _ _; split; [lia|intros j Hin; rewrite (Hj j Hin); lia]|].
        intros j Hin. rewrite (Hj j Hin). lia.
    + destruct (cutoff_notice cfg t sid (-1) (effective_max max_iterations)) as [notice|]; cbn [fst snd].
      * split; [done|]. eapply Hcut; [exact Hs|exact Hp|lia].
      * split; [done|]. intros j Hin. rewrite (Hrun _ _ Hs j Hin). lia.
Qed.

Lemma in_turn_fun t i j : in_turn t sid i -> in_turn t sid j -> i = j.
Proof. intros (s & Hs & <- & _) (s' & Hs' & <- & _). rewrite Hs in Hs'. by injection Hs' as <-. Qed.

Lemma turn_run_nonneg t n f t' : turn_run t n f t' -> 0 <= f <= n.
Proof. induction 1; [lia| |done]. unfold uncounted. destruct (is_dispatch _), (io_bump _); cbn; lia. Qed.

Lemma turn_run_bound t n f t' : turn_run t n f t' -> forall i, in_turn t sid i -> 0 <= i ->
  n <= Z.max 0 (effective_max max_iterations - 1 - i) + f.
Proof.
  induction 1 as [t|t i0 io n f t' H0 Hr IH|t i0 t1 j0 n f t' H0 H1 Hle Hr IH]; intros i Hi Hpos; [lia| |].
  - destruct (advance_in_turn io t i Hi Hpos) as [Hd Hm].
    set (r := advance_session instance cfg io t sid max_iterations) in *.
    assert (Hcase : (exists j, in_turn (snd r) sid j) \/ n = 0 /\ f = 0).
    { inversion Hr; subst; [by right|left; eauto..]. }
    unfold uncounted. destruct (is_dispatch (fst r)); cbn [andb negb].
    2: { destruct Hcase as [[j Hj]|[-> ->]]; [|lia]. specialize (IH j Hj). pose proof (Hm j Hj). lia. }
    destruct (io_bump io); cbn [negb].
    + destruct (Hd eq_refl eq_refl) as [Hlt Hj1]. destruct Hcase as [[j Hj]|[-> ->]]; [|lia].
      specialize (IH j Hj). specialize (Hj1 j Hj). lia.
    + destruct Hcase as [[j Hj]|[-> ->]]; [|lia]. specialize (IH j Hj). pose proof (Hm j Hj). lia.
  - rewrite (in_turn_fun _ _ _ H0 Hi) in Hle. pose proof (IH j0 H1). lia.
Qed.

End Budget.

(** (C7) A turn is finite.  Once open at iteration [i], a turn dispatches at most
    max_iterations - 1 - [i] further requests (with the opening one, max_iterations in
    all), plus the [f] of them whose update of the counter failed: those go out
    uncounted, since the -1 a failed [session_bump_iteration] returns is below every
    cap.  The bound holds however long the turn runs, whichever other write fails and
    whatever the worker, the tools and the approvals write in between, as long as they
    leave the turn open and its count no lower, under one configuration; the session is
    not its own parent. *)
Theorem turn_terminates `{Ingest} (instance : cstring) (cfg : AdvanceConfig) (sid max_iterations : Z)
    (t t' : Store) (i n f : Z) :
  in_turn t sid i -> 0 <= i -> turn_run instance cfg sid max_iterations t n f t' ->
  0 <= f <= n /\ n <= Z.max 0 (effective_max max_iterations - 1 - i) + f.
Proof.
  intros Hi Hpos Hr. split; [by apply (turn_run_nonneg _ _ _ _ _ _ _ _ Hr)|].
  by apply (turn_run_bound instance cfg sid max_iterations t n f t' Hr).
Qed.

(** A session between two requests. *)
Definition budget_store : Store := mk_store 1000
  [mk_xsession 1 (Some (bs "main")) ToolRunning 0 2 (-1) None None (Some (bs "i1")) 0]
  [demo_entry 1 1 (-1) 1 None TUser ROLE_USER (bs "go") 0;
   demo_entry 2 1 1 1 (Some 1) TAssistant ROLE_ASSISTANT (bs "let me look") STOP_REASON_TOOL_USE]
  3 [] 1 [] [] 1 [] [] [] [] [] [] [].

Definition budget_io : Io := mk_io true true true true (true, true) (true, true).
Definition budget_cfg : AdvanceConfig := mk_config 50 10 (fun _ _ => None).

Lemma turn_terminates_witness :
  let r := @advance_session demo_ingest (bs "i1") budget_cfg budget_io budget_store 1 2 in
  out_action (fst r) = DISPATCH_LLM /\ 0 <= 0 + 0 <= 0 + 1 /\ 0 + 1 <= Z.max 0 (effective_max 2 - 1 - 0) + (0 + 0).
Proof.
  split; [vm_compute; reflexivity|].
  assert (Hin : in_turn budget_store 1 0).
  { eexists. split; [reflexivity|]. split; [reflexivity|]. split; [discriminate|]. right. by left. }
  apply (@turn_terminates demo_ingest (bs "i1") budget_cfg 1 2 budget_store
           (snd (@advance_session demo_ingest (bs "i1") budget_cfg budget_io budget_store 1 2)) 0 (0 + 1) (0 + 0));
    [exact Hin|lia|].
  apply (run_advance (bs "i1") budget_cfg 1 2 budget_store 0 budget_io 0 0); [exact Hin|apply run_here].
Defined.

(** The counter's failed write, at the cap itself: the last iteration is dispatched
    again and the count stays where it was. *)
Example failed_bump_dispatches :
  let io := mk_io true true true false (true, true) (true, true) in
  let r := @advance_session demo_ingest (bs "i1") budget_cfg io budget_store 1 1 in
  out_action (fst r) = DISPATCH_LLM /\ out_iteration (fst r) = -1 /\
  option_map x_iter (get_session (snd r) 1) = Some 0.
Proof. vm_compute. done. Qed.

(** ** What a turn open does with the queue *)

(** Entries of the machinery are appended and the inbox is left alone. *)
Definition machine_only (t t' : Store) : Prop :=
  t_inbox t' = t_inbox t /\ exists l, t_entries t' = t_entries t ++ l /\ Forall (fun e => e_role e <> ROLE_USER) l.

Lemma machine_same t t' : t_inbox t' = t_inbox t -> t_entries t' = t_entries t -> machine_only t t'.
Proof. intros E1 E2. split; [done|]. exists []. by rewrite app_nil_r. Qed.

Lemma machine_trans t1 t2 t3 : machine_only t1 t2 -> machine_only t2 t3 -> machine_only t1 t3.
Proof.
  intros [E1 (l1 & F1 & G1)] [E2 (l2 & F2 & G2)]. split; [congruence|]. exists (l1 ++ l2).
  rewrite F2, F1, app_assoc. split; [done|]. by apply Forall_app.
Qed.

Lemma machine_insert t sid par it ty role c call tool err stop src note :
  role <> ROLE_USER -> machine_only t (snd (insert_entry t sid par it ty role c call tool err stop src note)).
Proof.
  intros Hr. split.
  - by destruct (insert_entry_rest t sid par it ty role c call tool err stop src note) as (_ & _ & -> & _).
  - eexists. split; [apply insert_entry_entries|]. by repeat constructor.
Qed.

Lemma machine_close rows : forall t sid, machine_only t (close_calls t sid rows).
Proof.
  induction rows as [|[[call name] it] rows IH]; intros t sid; cbn [close_calls]; [by apply machine_same|].
  unfold append_tool_result.
  pose proof (machine_insert t sid (leaf_of t sid) (pick_iter t sid it) TToolResult ROLE_TOOL (Some SUPERSEDED)
    (Some call) (Some name) true 0 None None ltac:(done)) as H1.
  destruct (insert_entry _ _ _ _ _ _ _ _ _ _ _ _ _) as [id t1]. unfold db_tool_call_set_status.
  eapply machine_trans; [exact H1|]. eapply machine_trans; [|apply IH]. by apply machine_same.
Qed.

Lemma machine_reconcile t sid : machine_only t (snd (db_reconcile_stale_calls t sid)).
Proof. unfold db_reconcile_stale_calls. destruct (_ =? _); [by apply machine_same|apply machine_close]. Qed.

Lemma machine_oneshot `{Ingest} instance t child parent call text err :
  machine_only t (snd (oneshot_resolve instance t child parent call text err)).
Proof.
  unfold oneshot_resolve. destruct (_ && _); cbn [snd]; [|by apply machine_same].
  unfold append_tool_result.
  pose proof (machine_insert t parent (leaf_of t parent) (pick_iter t parent 0) TToolResult ROLE_TOOL
    (Some (spill parent call (scrub text))) (Some call) (Some (bs "launch_agent")) err 0 None None ltac:(done)) as H1.
  destruct (insert_entry _ _ _ _ _ _ _ _ _ _ _ _ _) as [id t1]. unfold db_tool_call_complete_by_call. cbn [snd].
  eapply machine_trans; [exact H1|]. set (t2 := update_calls _ _ _ _).
  pose proof (unpark_same instance t2 parent) as U. apply machine_same; by rewrite U.
Qed.

Lemma machine_refuse `{Ingest} instance t sid g : machine_only t (snd (streak_refuse instance t sid g)).
Proof.
  unfold streak_refuse. destruct (tripped t sid); [by apply machine_same|]. cbn zeta.
  pose proof (machine_insert t sid (leaf_of t sid) (Some 0) TSystem ROLE_SYSTEM (Some (trip_text (g_streak g)))
    None None false 0 (Some (bs "streak_guard")) (Some (bs "tripped")) ltac:(done)) as H1.
  fold (streak_note t sid (bs "tripped") (trip_text (g_streak g))) in H1. set (t1 := streak_note _ _ _ _) in *.
  set (t2 := match get_session t1 sid with Some _ => _ | None => _ end).
  assert (H2 : machine_only t t2).
  { eapply machine_trans; [exact H1|]. unfold t2. destruct (get_session t1 sid) as [s|]; [|by apply machine_same].
    destruct (x_channel s); by apply machine_same. }
  clearbody t2. destruct (List.find _ (t_edges t2)) as [d|]; [|done].
  destruct (snprintf 192 (d_ref d)); [done|]. eapply machine_trans; [exact H2|apply machine_oneshot].
Qed.

(** A drained row as the entry it became. *)
Definition drained_as (sid : Z) (q : Inbox) (e : Entry) : Prop :=
  e_session e = sid /\ e_role e = ROLE_USER /\ e_content e = Some (tagged q) /\ e_source e = Some (q_source q).

Lemma drain_entries sid rows : forall t par,
  exists ds, t_entries (snd (drain_rows t sid par rows)) = t_entries t ++ ds /\ Forall2 (drained_as sid) rows ds.
Proof.
  induction rows as [|q rows IH]; intros t par; cbn [drain_rows]; [exists []; by rewrite app_nil_r|].
  pose proof (insert_entry_entries t sid par None TUser ROLE_USER (Some (tagged q)) None None false 0 (Some (q_source q)) None) as Ee.
  destruct (insert_entry _ _ _ _ _ _ _ _ _ _ _ _ _) as [id t1]. cbn [snd] in Ee.
  destruct (IH (with_inbox (map (mark_consumed (q_id q)) (t_inbox t1)) (t_next_inbox t1) t1) id) as (ds & E & F).
  rewrite E. cbn [t_entries with_inbox]. rewrite Ee, <- app_assoc. eexists. split; [reflexivity|]. by constructor.
Qed.

(** The queue of a session and what the entries gained: the first [n] rows, in order,
    between entries of the machinery. *)
Definition moved (t t' : Store) (sid : Z) (n : nat) : Prop :=
  pending t' sid = drop n (pending t sid) /\
  exists pre ds post, t_entries t' = t_entries t ++ pre ++ ds ++ post /\
    Forall2 (drained_as sid) (take n (pending t sid)) ds /\
    Forall (fun e => e_role e <> ROLE_USER) pre /\ Forall (fun e => e_role e <> ROLE_USER) post.

Lemma moved_none t t' sid : machine_only t t' -> moved t t' sid 0.
Proof.
  intros [E (l & F & G)]. split; [by apply pending_same|]. exists l, [], []. rewrite !app_nil_r.
  rewrite take_0. split_all; auto.
Qed.

Lemma moved_consume t t1 sid n :
  NoDup (map q_id (t_inbox t)) -> machine_only t t1 ->
  moved t (snd (inbox_consume_into_entries_locked t1 sid n)) sid
    (match get_session t1 sid with Some _ => n | None => 0 end).
Proof.
  intros Hn [E (l & F & G)]. unfold inbox_consume_into_entries_locked.
  destruct (get_session t1 sid) as [s|]; [|by apply moved_none; split; [done|eauto]].
  assert (Ep : pending t1 sid = pending t sid) by (by apply pending_same).
  destruct (drain_entries sid (take n (pending t1 sid)) t1 (x_leaf s)) as (ds & Ed & Fd).
  pose proof (drain_pending t1 sid (x_leaf s) n sid) as Hp. rewrite E, Z.eqb_refl in Hp. specialize (Hp Hn).
  destruct (drain_rows _ _ _ _) as [leaf t2]. cbn [snd] in *. rewrite Ep in *.
  assert (Hm : moved t t2 sid n).
  { split; [done|]. exists l, ds, []. rewrite Ed, F, app_nil_r, <- app_assoc. split_all; auto. }
  by destruct (take n (pending t sid)).
Qed.

Lemma moved_after t t1 t2 sid n : moved t t1 sid n -> machine_only t1 t2 -> moved t t2 sid n.
Proof.
  intros [P (pre & ds & post & E & F & G1 & G2)] [Ei (l & El & Gl)]. split; [rewrite <- P; by apply pending_same|].
  exists pre, ds, (post ++ l). rewrite El, E, <- !app_assoc. split_all; try done. by apply Forall_app.
Qed.

Section Open.
Context `{Ingest} (instance : cstring) (cfg : AdvanceConfig) (io : Io).

Lemma machine_set_state t sid st : machine_only t (snd (session_set_state instance t sid st)).
Proof. pose proof (set_state_same instance t sid st) as E. apply machine_same; by rewrite E. Qed.

Lemma machine_open_turn t sid iter : machine_only t (open_turn instance t sid iter).
Proof.
  unfold open_turn. eapply machine_trans; [|apply machine_set_state]. by apply machine_same.
Qed.

Lemma machine_warn t sid g (b : bool) : machine_only t (if b then streak_warn t sid g else t).
Proof. destruct b; [|by apply machine_same]. by apply machine_insert. Qed.

Lemma moved_empty t t' sid n m : pending t sid = [] -> moved t t' sid n -> moved t t' sid m.
Proof. unfold moved. intros ->. by rewrite !drop_nil, !take_nil. Qed.

Lemma consume_count t sid n :
  (0 < n)%nat ->
  match fst (inbox_consume_into_entries_locked t sid n), get_session t sid with
  | c, Some _ => 0 <= c /\ (c = 0 -> pending t sid = [])
  | c, None => c = -1
  end.
Proof.
  intros Hn. unfold inbox_consume_into_entries_locked. destruct (get_session t sid) as [s|]; [|done].
  destruct (drain_rows _ _ _ _) as [leaf t2]. cbn [fst]. split; [apply zlen_nonneg|]. intros Hz.
  destruct (pending t sid) as [|q l]; [done|]. destruct n as [|n]; [lia|]. cbn [take] in Hz.
  autorewrite with cclaw_rw in Hz. pose proof (zlen_nonneg (take n l)). lia.
Qed.

Lemma idle_moves t sid agent s :
  NoDup (map q_id (t_inbox t)) ->
  let r := advance_idle instance cfg io t sid agent s in
  moved t (snd r) sid (if is_dispatch (fst r) then 100 else 0).
Proof.
  intros Hn. unfold advance_idle. cbn zeta.
  assert (Hsame : machine_only t t) by (by apply machine_same).
  case_if; [by apply moved_none|]. case_if; [by apply moved_none|].
  pose proof (machine_reconcile t sid) as M1. destruct (db_reconcile_stale_calls t sid) as [k t1]. cbn [snd] in M1.
  set (g := streak_gate_check _ _ _). case_if.
  { pose proof (machine_refuse instance t1 sid g) as M2. destruct (streak_refuse instance t1 sid g) as [w t2]. cbn [snd] in M2.
    apply moved_none. cbn [snd]. unfold commit_refusal. destruct (io_commit io); [|done].
    pose proof (machine_trans _ _ _ M1 M2) as M3. by destruct (0 <? w). }
  case_if; [apply moved_none; by destruct (io_commit io)|].
  unfold idle_drain. pose proof (moved_consume t t1 sid 100 Hn M1) as M2. pose proof (consume_count t1 sid 100 ltac:(lia)) as Hc.
  rewrite (pending_same t t1 sid) in Hc by apply M1.
  destruct (inbox_consume_into_entries_locked t1 sid 100) as [c t2]. cbn [fst snd] in M2, Hc.
  destruct (get_session t1 sid) as [s1|].
  2: { subst c. cbn. by apply moved_none. }
  destruct Hc as [Hc0 Hc]. destruct (c =? 0) eqn:Ec; cbn iota beta.
  - assert (M3 : forall n, moved t t2 sid n) by (intros n; eapply moved_empty; [apply Hc; lia|exact M2]).
    case_if; [by apply moved_none|]. case_if; [|apply M3].
    eapply moved_after; [apply M3|apply machine_open_turn].
  - case_if; [by apply moved_none|]. replace (0 <? c) with true by lia. cbn [fst snd is_dispatch make_output out_action andb].
    eapply moved_after; [eapply moved_after; [exact M2|apply machine_warn]|apply machine_open_turn].
Qed.

End Open.

(** (C8) No message is lost at a turn open.  A step of an idle session, whatever the
    guard and the gate decide and whichever write fails, either opens a turn and takes
    the first 100 rows of its queue, each becoming one user entry of the session, in
    order, tagged with its origin and stamped with its source, or leaves the queue as
    it was; everything else it appends is the machinery's. *)
Theorem turn_open_conserves `{Ingest} (instance : cstring) (cfg : AdvanceConfig) (io : Io) (t : Store)
    (sid max_iterations : Z) (s : XSession) :
  NoDup (map q_id (t_inbox t)) -> get_session t sid = Some s -> x_state s = Idle ->
  let r := advance_session instance cfg io t sid max_iterations in
  moved t (snd r) sid (if is_dispatch (fst r) then 100 else 0).
Proof.
  intros Hn Hs Hi. unfold advance_session. rewrite Hs, Hi. cbn zeta.
  destruct (x_agent s); [by apply idle_moves|]. by apply moved_none, machine_same.
Qed.

Definition queue_store : Store :=
  inbox_insert (inbox_insert guard_store 1 (bs "cron") (Some (bs "daily")) (bs "tick")) 1 (bs "cli") None (bs "stop").

Lemma turn_open_conserves_witness :
  let r := @advance_session demo_ingest (bs "i1") budget_cfg budget_io queue_store 1 25 in
  is_dispatch (fst r) = true /\ moved queue_store (snd r) 1 (if is_dispatch (fst r) then 100 else 0).
Proof.
  split; [vm_compute; reflexivity|].
  eapply (@turn_open_conserves demo_ingest (bs "i1") budget_cfg budget_io queue_store 1 25);
    [apply (bool_decide_unpack _); vm_compute; exact I|reflexivity|reflexivity].
Defined.

(** ** The cutoff *)

Lemma cutoff_ends t sid notice :
  (length notice < 256)%nat -> exists pre, rich_cutoff_message t sid notice = pre ++ notice.
Proof.
  intros Hn. unfold rich_cutoff_message. destruct (take 3 _) as [|e l]; [by exists []|].
  unfold snprintf. rewrite take_ge by (rewrite length_app; change (length SEP) with 7%nat; lia).
  eexists. by rewrite app_assoc.
Qed.

Lemma notice_short cfg t sid new_iter max notice :
  cutoff_notice cfg t sid new_iter max = Some notice -> (length notice < 256)%nat.
Proof.
  unfold cutoff_notice. destruct (_ <=? _); [|destruct (turn_overflows cfg t sid) as [[a b]|]; [|done]];
    intros [= <-]; unfold max_iter_notice, context_notice, snprintf; rewrite length_take; lia.
Qed.

Lemma boundary_keeps_entry `{Ingest} instance b c t sid err inc e :
  e ∈ t_entries t -> e ∈ t_entries (snd (advance_deliver_boundary instance b c t sid err inc)).
Proof.
  apply (boundary_preserves instance (fun u => e ∈ t_entries u)); try done.
  - intros u k ed sr label text Hu. by rewrite (push_only u k ed sr label text).
  - intros u child parent call text er Hu. by apply (proj1 (oneshot_grows instance u child parent call text er)).
Qed.

(** A cap ends the turn cleanly.  When every tool call has its result and one of
    the two caps fires, the step records an assistant entry that stopped with an error
    and ends with the notice of the cap, after whatever the model had said, leaves the
    session idle and unowned, and reports the turn done at the iteration it was cut. *)
Theorem cap_ends_turn `{Ingest} (instance : cstring) (cfg : AdvanceConfig) (io : Io) (t : Store)
    (sid max_iterations : Z) (s : XSession) (notice : cstring) :
  get_session t sid = Some s -> x_agent s <> None -> x_state s = ToolRunning -> x_parent s <> sid ->
  db_tool_call_get_pending t sid = [] -> db_tool_call_any_running t sid = false ->
  io_set io = true -> io_bump io = true ->
  cutoff_notice cfg (snd (session_bump_iteration t sid)) sid (x_iter s + 1) (effective_max max_iterations) = Some notice ->
  let r := advance_session instance cfg io t sid max_iterations in
  out_action (fst r) = DONE /\ out_iteration (fst r) = x_iter s + 1 /\
  (exists s', get_session (snd r) sid = Some s' /\ x_state s' = Idle /\ x_owner s' = None /\ x_iter s' = 0) /\
  (exists e said, e ∈ t_entries (snd r) /\ e_session e = sid /\ e_role e = ROLE_ASSISTANT /\
     e_stop e = STOP_REASON_ERROR /\ e_content e = Some (said ++ notice)).
Proof.
  intros Hs Ha Hst Hp Hpend Hrun Hset Hb Hn. unfold advance_session. rewrite Hs, Hst. cbn zeta.
  destruct (x_agent s) as [a|]; [|done]. unfold advance_tool_running. rewrite Hpend, Hrun, Hb.
  destruct (bump_row sid t s Hs) as [Eb Er]. rewrite Eb in *. cbn [snd] in Hn, Er.
  set (t1 := update_session _ _ _) in *. fold (effective_max max_iterations). rewrite Hn. cbn [fst snd].
  split; [done|]. split; [done|].
  split.
  - destruct (cut_off_row instance sid io t1 notice _ Er Hp) as (lf & El). eexists. split; [exact El|].
    cbn [x_state with_leaf with_iter]. rewrite Hset, Hst. cbn. done.
  - destruct (cutoff_ends t1 sid notice) as (said & Es); [by eapply notice_short|].
    pose proof (insert_entry_entries t1 sid (leaf_of t1 sid) (pick_iter t1 sid 0) TAssistant ROLE_ASSISTANT
      (Some (rich_cutoff_message t1 sid notice)) None None false STOP_REASON_ERROR None None) as Ee.
    eexists _, said. split.
    + unfold cut_off, boundary, append_assistant. apply boundary_keeps_entry. unfold set_state. rewrite Hset.
      set (t2 := snd (insert_entry _ _ _ _ _ _ _ _ _ _ _ _ _)) in *.
      rewrite (set_state_same instance t2 sid Idle). cbn [t_entries with_sessions]. rewrite Ee.
      apply elem_of_app. right. by apply list_elem_of_singleton.
    + cbn. by rewrite Es.
Qed.

Lemma cap_ends_turn_witness :
  let r := @advance_session demo_ingest (bs "i1") budget_cfg budget_io budget_store 1 1 in
  out_action (fst r) = DONE /\ out_iteration (fst r) = 0 + 1 /\
  (exists s', get_session (snd r) 1 = Some s' /\ x_state s' = Idle /\ x_owner s' = None /\ x_iter s' = 0) /\
  (exists e said, e ∈ t_entries (snd r) /\ e_session e = 1 /\ e_role e = ROLE_ASSISTANT /\
     e_stop e = STOP_REASON_ERROR /\ e_content e = Some (said ++ max_iter_notice 1)).
Proof.
  apply (@cap_ends_turn demo_ingest (bs "i1") budget_cfg budget_io budget_store 1 1
           (mk_xsession 1 (Some (bs "main")) ToolRunning 0 2 (-1) None None (Some (bs "i1")) 0) (max_iter_notice 1));
    try (vm_compute; reflexivity); discriminate.
Defined.
