(* ===== verification/Config.v ===== *)
(** * The configuration registry: src/config_registry.c

    The table of keys with their defaults, and the resolution of a value: the
    environment, then the row's value or default, then the table.  The environment
    and the encrypted secrets are arguments.  Descriptions are not kept. *)
From S2P Require Import Prelude CString Libc.

(** A JSON array of names, as the table spells it: quotes are byte 34. *)
Definition json_name (s : string) : cstring := [34] ++ bs s ++ [34].
Fixpoint commas (l : list cstring) : cstring :=
  match l with [] => [] | [x] => x | x :: l' => x ++ bs "," ++ commas l' end.
Definition json_names (l : list string) : cstring := bs "[" ++ commas (map json_name l) ++ bs "]".

(** Key and default of each registered knob. *)
Definition s_defs : list (cstring * cstring) :=
  [
   (bs "default_agent", bs "Assistant");
   (bs "max_iterations", bs "25");
   (bs "shell_timeout", bs "30");
   (bs "llm_probe_timeout", bs "15");
   (bs "llm_request_timeout", bs "300");
   (bs "job_timeout_max", bs "3600");
   (bs "web_port", bs "8080");
   (bs "web_admin_token", bs "");
   (bs "max_history_tokens", bs "0");
   (bs "stale_lock_timeout", bs "300");
   (bs "channel_deaf_timeout", bs "300");
   (bs "cron_min_interval_seconds", bs "30");
   (bs "cron_max_jobs_per_session", bs "10");
   (bs "js_heap_mb", bs "8");
   (bs "sql_slow_ms", bs "100");
   (bs "token_rate_limit", bs "1000000");
   (bs "llm_max_calls_per_tool", bs "25");
   (bs "save_reasoning", bs "0");
   (bs "daily_cost_limit", bs "5.00");
   (bs "context_threshold", bs "0.6");
   (bs "context_window", bs "128000");
   (bs "compaction_target", bs "0.3");
   (bs "compaction", bs "1");
   (bs "auto_recall", bs "0");
   (bs "recall_max_tokens", bs "500");
   (bs "approval_timeout_sec", bs "3600");
   (bs "approval_block_sec", bs "60");
   (bs "approval_max_pending", bs "3");
   (bs "agent_max_depth", bs "2");
   (bs "session_max_active", bs "20");
   (bs "session_max_concurrent", bs "10");
   (bs "max_autonomous_turn_streak", bs "50");
   (bs "agent_delivery_default", bs "quiescent");
   (bs "worker_tools", json_names ["file_read"; "file_write"; "shell_exec"; "web_fetch"; "js_eval";
      "launch_agent"; "check_session"; "cancel"; "search_config"; "secret_create"]);
   (bs "agent_default_tools", json_names ["file_read"; "file_write"; "file_list"; "file_find"; "file_grep";
      "file_edit"; "js_eval"; "request_config"; "search_config"; "memory_create"; "memory_add"; "memory_edit";
      "memory_delete"; "cron_set"; "cron_list"; "cron_remove"; "update_agent"; "extension_promote";
      "extension_attach"; "extension_list"; "extension_fork"; "launch_agent"; "check_session"; "cancel";
      "channel_send"]);
   (bs "agent_default_extensions", json_names ["cclaw-docs"]);
   (bs "agent_approval_tools", json_names ["extension_publish"]);
   (bs "health_fail_threshold", bs "4");
   (bs "health_cooldown_sec", bs "300");
   (bs "notify_model_change", bs "1");
   (bs "llm_response_archive_max", bs "500");
   (bs "inbox_retention_sec", bs "604800");
   (bs "outbox_retention_sec", bs "604800");
   (bs "update.repo", bs "mark-os/cclaw");
   (bs "update.asset", bs "");
   (bs "update.installed_tag", bs "");
   (bs "update.check_interval_hours", bs "0");
   (bs "update.verify", bs "");
   (bs "update.notified_tag", bs "");
   (bs "update.last", bs "");
   (bs "update.restart_command", bs "");
   (bs "disk_min_free_mb", bs "20");
   (bs "workspace", bs "");
   (bs "tmp_root", bs "");
   (bs "skills_dirs", json_names ["~/.cclaw/skills"; "~/.agents/skills"])].

Definition config_default (key : cstring) : option cstring :=
  option_map snd (List.find (fun d => streq (fst d) key) s_defs).

(** [atoi]: the [long] of [strtol], converted to [int]. *)
Definition atoi (s : cstring) : Z := int_of_u32 (fst (strtol s)).

Definition config_default_int (key : cstring) : Z :=
  match config_default key with Some d => atoi d | None => 0 end.

(** The environment name of a key, in a buffer of [cap] bytes (at least 7: every
    caller passes 160). *)
Definition env_char (c : Z) : Z :=
  if c =? "."%char then "_"%char else if in_range "a"%char "z"%char c then c - 32 else c.

Definition config_env_name (key : cstring) (cap : nat) : cstring :=
  let pre := snprintf cap (bs "CCLAW_") in pre ++ take (cap - 1 - length pre) (map env_char key).

(** ** The table [config] *)
Record ConfigRow := mk_cfg { k_key : cstring; k_value : option cstring; k_default : option cstring; k_secret : bool }.

Definition config_row (rows : list ConfigRow) (key : cstring) : option ConfigRow :=
  List.find (fun r => streq (k_key r) key) rows.

Section Get.
(** [getenv], and [db_secret_get_system]: the decrypted system secret of a name. *)
Variable getenv secret_system : cstring -> option cstring.

Definition config_get (rows : list ConfigRow) (key : cstring) : option cstring :=
  let envn := config_env_name key 160 in
  match getenv envn with
  | Some e => Some e
  | None =>
      match config_row rows key with
      | Some r =>
          if k_secret r then secret_system envn
          else match k_value r with
               | Some v => Some v
               | None => match k_default r with Some d => Some d | None => config_default key end
               end
      | None => config_default key
      end
  end.

Definition config_get_int (rows : list ConfigRow) (key : cstring) : Z :=
  match config_get rows key with Some v => atoi v | None => 0 end.
End Get.

Definition with_value (v : option cstring) (r : ConfigRow) : ConfigRow :=
  mk_cfg (k_key r) v (k_default r) (k_secret r).

Definition upsert_row (rows : list ConfigRow) (key : cstring) (new : ConfigRow) (f : ConfigRow -> ConfigRow)
    : list ConfigRow :=
  match config_row rows key with
  | Some _ => map (fun r => if streq (k_key r) key then f r else r) rows
  | None => rows ++ [new]
  end.

(** [None] is the refusal -1. *)
Definition config_set (rows : list ConfigRow) (key : cstring) (value : option cstring) : option (list ConfigRow) :=
  if match config_row rows key with Some r => k_secret r | None => false end then None
  else match config_default key with
       | None =>
           match config_row rows key with
           | Some (mk_cfg _ _ (Some _) _) =>
               Some (map (fun r => if streq (k_key r) key then with_value value r else r) rows)
           | _ => None
           end
       | Some def => Some (upsert_row rows key (mk_cfg key value (Some def) false) (with_value value))
       end.

(** ** The sync at startup *)
Definition has_dot (s : cstring) : bool := match strchr s "."%char with Some _ => true | None => false end.

(** The JSON array of the registered keys, in its buffer of 4096 bytes. *)
Fixpoint keys_loop (first : bool) (keys : list cstring) (n : Z) : option cstring :=
  match keys with
  | [] => if 4096 <? n + 2 then None else Some (bs "]")
  | k :: keys' =>
      let item := (if first then [] else bs ",") ++ [34] ++ k ++ [34] in
      if 4096 - n <=? zlen item then None
      else option_map (app item) (keys_loop false keys' (n + zlen item))
  end.

Definition registry_keys : option cstring := option_map (app (bs "[")) (keys_loop true (map fst s_defs) 1).

Definition with_default (d : cstring) (r : ConfigRow) : ConfigRow := mk_cfg (k_key r) (k_value r) (Some d) (k_secret r).

Definition config_registry_sync (rows : list ConfigRow) : option (list ConfigRow) :=
  match registry_keys with
  | None => None
  | Some _ =>
      let kept := List.filter (fun r => has_dot (k_key r) || bool_decide (k_key r ∈ map fst s_defs)) rows in
      Some (fold_left (fun rows d => upsert_row rows (fst d) (mk_cfg (fst d) None (Some (snd d)) false)
                                       (with_default (snd d))) s_defs kept)
  end.

(** * Lemmas *)

Lemma config_row_key rows key r : config_row rows key = Some r -> k_key r = key.
Proof. intros [_ E]%List.find_some. by apply bool_decide_eq_true in E. Qed.

Lemma config_row_map rows key f i :
  (forall r, k_key (f r) = k_key r) ->
  config_row (map (fun r => if streq (k_key r) key then f r else r) rows) i =
  if streq key i then option_map f (config_row rows i) else config_row rows i.
Proof.
  intros Hf. induction rows as [|r rows IH]; cbn; [by destruct (streq key i)|].
  destruct (streq (k_key r) key) eqn:E; [rewrite Hf|]; destruct (streq (k_key r) i) eqn:Ei; try apply IH.
  - apply bool_decide_eq_true in E, Ei. subst i. unfold streq. by rewrite bool_decide_true by done.
  - apply bool_decide_eq_true in Ei. unfold streq in *. apply bool_decide_eq_false in E.
    by rewrite bool_decide_false by congruence.
Qed.

Lemma config_row_app rows r i :
  config_row (rows ++ [r]) i =
  match config_row rows i with Some x => Some x | None => if streq (k_key r) i then Some r else None end.
Proof. unfold config_row. induction rows as [|x rows IH]; cbn; [done|]. by destruct (streq (k_key x) i). Qed.

(** The upsert acts on its key and on no other. *)
Lemma config_row_upsert rows key new f i :
  k_key new = key -> (forall r, k_key (f r) = k_key r) ->
  config_row (upsert_row rows key new f) i =
  if streq key i then Some (match config_row rows key with Some r => f r | None => new end) else config_row rows i.
Proof.
  intros Hn Hf. unfold upsert_row. destruct (config_row rows key) as [r|] eqn:E.
  - rewrite config_row_map by done. destruct (streq key i) eqn:Ei; [|done].
    apply bool_decide_eq_true in Ei. subst i. by rewrite E.
  - rewrite config_row_app, Hn. destruct (streq key i) eqn:Ei; [|by destruct (config_row rows i)].
    apply bool_decide_eq_true in Ei. subst i. by rewrite E.
Qed.

Lemma registry_keys_fit : registry_keys <> None.
Proof. vm_compute. discriminate. Qed.

Lemma s_defs_nodup : NoDup (map fst s_defs).
Proof. apply (bool_decide_unpack _). vm_compute. exact I. Qed.

#[local] Opaque s_defs.

(** The fold of the sync, for any registry of distinct keys. *)
Definition sync_defs (defs : list (cstring * cstring)) (rows : list ConfigRow) : list ConfigRow :=
  fold_left (fun rows d => upsert_row rows (fst d) (mk_cfg (fst d) None (Some (snd d)) false)
                             (with_default (snd d))) defs rows.

Lemma sync_defs_row defs rows i :
  NoDup (map fst defs) ->
  config_row (sync_defs defs rows) i =
  match List.find (fun d => streq (fst d) i) defs with
  | Some d => Some (match config_row rows i with
                    | Some r => with_default (snd d) r
                    | None => mk_cfg i None (Some (snd d)) false
                    end)
  | None => config_row rows i
  end.
Proof.
  revert rows. induction defs as [|[k d] defs IH]; intros rows Hnd; [done|].
  apply NoDup_cons in Hnd as [Hk Hnd]. cbn [sync_defs fold_left] in *. fold (sync_defs defs).
  unfold sync_defs in IH. rewrite IH by done. cbn [fst snd].
  rewrite config_row_upsert by done. cbn [List.find fst snd].
  destruct (streq k i) eqn:E; [|done]. apply bool_decide_eq_true in E. subst i.
  destruct (List.find _ defs) as [[k' d']|] eqn:F.
  - apply List.find_some in F as [F E]. cbn in E. apply bool_decide_eq_true in E. subst k'.
    destruct Hk. apply list_elem_of_fmap. exists (k, d'). split; [done|]. by apply list_elem_of_In.
  - by destruct (config_row rows k).
Qed.

Lemma sync_row rows rows' i :
  config_registry_sync rows = Some rows' ->
  config_row rows' i =
  match config_default i with
  | Some d => Some (match config_row rows i with
                    | Some r => with_default d r
                    | None => mk_cfg i None (Some d) false
                    end)
  | None => if has_dot i then config_row rows i else None
  end.
Proof.
  unfold config_registry_sync. destruct registry_keys; [|done]. intros [= <-].
  change (fold_left _ s_defs ?r) with (sync_defs s_defs r). rewrite sync_defs_row by apply s_defs_nodup.
  assert (Hin : List.find (fun d => streq (fst d) i) s_defs <> None <-> i ∈ map fst s_defs).
  { destruct (List.find _ s_defs) as [d|] eqn:F; split; intros H; try done.
    - apply List.find_some in F as [F E]. apply bool_decide_eq_true in E. subst i.
      apply list_elem_of_fmap. exists d. split; [done|by apply list_elem_of_In].
    - apply list_elem_of_fmap in H as (d & -> & Hd). apply list_elem_of_In in Hd.
      pose proof (List.find_none _ _ F d Hd) as E. cbn in E. apply bool_decide_eq_false in E. by destruct E. }
  assert (Hf : forall rs, config_row (List.filter (fun r => has_dot (k_key r) || bool_decide (k_key r ∈ map fst s_defs)) rs) i =
               if has_dot i || bool_decide (i ∈ map fst s_defs) then config_row rs i else None).
  { intros rs. induction rs as [|r rs IH]; [by case_if|]. cbn [List.filter config_row List.find].
    destruct (streq (k_key r) i) eqn:E.
    - apply bool_decide_eq_true in E. rewrite E. destruct (has_dot i || _) eqn:Ek; [|done].
      cbn. unfold streq. by rewrite bool_decide_true by done.
    - destruct (has_dot (k_key r) || _); [cbn; rewrite E|]; apply IH. }
  rewrite Hf. unfold config_default.
  destruct (List.find _ s_defs) as [d|] eqn:F; cbn [option_map].
  - rewrite bool_decide_true by (apply Hin; done). by rewrite orb_true_r.
  - rewrite bool_decide_false by (intros H; by apply Hin in H). by rewrite orb_false_r.
Qed.

(** The resolution once the environment and the secrets are out of the way. *)
Definition plain_value (rows : list ConfigRow) (key : cstring) : option cstring :=
  match config_row rows key with
  | Some (mk_cfg _ (Some v) _ _) => Some v
  | Some (mk_cfg _ None (Some d) _) => Some d
  | _ => config_default key
  end.

Lemma config_get_plain getenv sec rows key :
  getenv (config_env_name key 160) = None ->
  (forall r, config_row rows key = Some r -> k_secret r = false) ->
  config_get getenv sec rows key = plain_value rows key.
Proof.
  intros He Hs. unfold config_get, plain_value. rewrite He.
  destruct (config_row rows key) as [[k v d s]|] eqn:E; [|done]. cbn.
  specialize (Hs _ eq_refl). cbn in Hs. by rewrite Hs.
Qed.

Lemma config_set_cases rows key value :
  match config_set rows key value with
  | None => (exists r, config_row rows key = Some r /\ k_secret r = true) \/
            (config_default key = None /\ forall r, config_row rows key = Some r -> k_default r = None)
  | Some rows' =>
      (exists r, config_row rows' key = Some r /\ k_value r = value /\ k_secret r = false) /\
      forall i, i <> key -> config_row rows' i = config_row rows i
  end.
Proof.
  assert (Hself : streq key key = true) by (unfold streq; by apply bool_decide_true).
  assert (Hoth : forall i, i <> key -> streq key i = false)
    by (intros i Hi; unfold streq; by apply bool_decide_false).
  unfold config_set. destruct (config_row rows key) as [[k v d s]|] eqn:E; cbn [k_secret].
  - pose proof (config_row_key _ _ _ E) as Hk. cbn in Hk. subst k.
    destruct s; [left; by eexists|].
    destruct (config_default key) as [def|] eqn:Ed.
    + split; [|intros i Hi; rewrite config_row_upsert by done; by rewrite Hoth].
      rewrite config_row_upsert by done. rewrite Hself, E. by eexists.
    + destruct d as [d|]; [|right; split; [done|by intros r [= <-]]].
      split; [|intros i Hi; rewrite config_row_map by done; by rewrite Hoth].
      rewrite config_row_map by done. rewrite Hself, E. by eexists.
  - destruct (config_default key) as [def|] eqn:Ed; [|by right].
    split; [|intros i Hi; rewrite config_row_upsert by done; by rewrite Hoth].
    rewrite config_row_upsert by done. rewrite Hself, E. by eexists.
Qed.

Lemma config_get_ext getenv sec rows rows' key :
  config_row rows' key = config_row rows key -> config_get getenv sec rows' key = config_get getenv sec rows key.
Proof. unfold config_get. by intros ->. Qed.

(** A write to the configuration is refused exactly for a secret key and for a
    key nobody registered; otherwise it is the value of its key and of no other, it
    survives the sync of the next start, and only the environment overrides it. *)
Theorem config_set_resolves getenv sec rows key value :
  match config_set rows key (Some value) with
  | None => (exists r, config_row rows key = Some r /\ k_secret r = true) \/
            (config_default key = None /\ forall r, config_row rows key = Some r -> k_default r = None)
  | Some rows' =>
      let resolved := Some (default value (getenv (config_env_name key 160))) in
      config_get getenv sec rows' key = resolved /\
      (forall i, i <> key -> config_get getenv sec rows' i = config_get getenv sec rows i) /\
      exists rows'', config_registry_sync rows' = Some rows'' /\
        (config_default key <> None \/ has_dot key = true -> config_get getenv sec rows'' key = resolved)
  end.
Proof.
  pose proof (config_set_cases rows key (Some value)) as H.
  destruct (config_set rows key (Some value)) as [rows'|]; [|done].
  destruct H as [([k v d s] & Er & Hv & Hs) Hi]. cbn in Hv, Hs. subst v s. cbn zeta.
  assert (Hget : forall rs d', config_row rs key = Some (mk_cfg k (Some value) d' false) ->
                 config_get getenv sec rs key = Some (default value (getenv (config_env_name key 160)))).
  { intros rs d' E. unfold config_get. rewrite E. by destruct (getenv _). }
  split; [by apply (Hget _ d)|]. split; [intros i Hne; by apply config_get_ext, Hi|].
  destruct (config_registry_sync rows') as [rows''|] eqn:Es.
  - exists rows''. split; [done|]. pose proof (sync_row _ _ key Es) as E. rewrite Er in E. intros Hk.
    destruct (config_default key) as [d'|]; [by apply (Hget _ (Some d'))|].
    destruct Hk as [Hk|Hk]; [done|]. rewrite Hk in E. by apply (Hget _ d).
  - unfold config_registry_sync in Es. by destruct registry_keys eqn:E; [|destruct (registry_keys_fit E)].
Qed.

(** Two keys of different extensions have one environment name. *)
Lemma config_env_name_collides : config_env_name (bs "chat.bot_token") 160 = config_env_name (bs "chat_bot.token") 160.
Proof. reflexivity. Qed.
