(* ===== verification/Json1.v ===== *)
(** * Tool arguments: src/tool_args.c over SQLite's JSON1

    JSON is parsed by SQLite, which is not code of the repository: [Json1] is the
    interface the sources use of it.  The extraction functions of tool_args.c and
    the host of a web call's url are written on it. *)
From S2P Require Import Prelude CString Libc.

#[local] Set Warnings "-register-all".

(** A parsed document; a number is kept as its text. *)
Inductive Json :=
  | JNull | JBool (b : bool) | JNum (n : cstring) | JText (s : cstring)
  | JArr (l : list Json) | JObj (kvs : list (cstring * Json)).

(** [json_valid]: RFC 8259 text.  [json_doc]: the document the json functions read,
    [None] when they raise.  [json_path d k]: the element at ['$.' || k], [None]
    when the path is malformed and the statement raises.  [json_extract_text]: the
    text of a number, an array or an object.  [json_tree]: the rows (fullkey, type,
    atom) of a document. *)
Class Json1 := {
  json_valid : cstring -> bool;
  json_doc : cstring -> option Json;
  json_path : Json -> cstring -> option (option Json);
  json_extract_text : Json -> cstring;
  json_tree : Json -> list (cstring * cstring * option cstring)
}.

Section Args.
Context {J : Json1}.

Definition is_object (d : option Json) : bool := match d with Some (JObj _) => true | _ => false end.

Definition tool_args_valid_object (args : option cstring) : bool :=
  match args with Some a => json_valid a && is_object (json_doc a) | None => false end.

(** The element at a key of a text: the path sits in a buffer of 128 bytes. *)
Definition at_key (args key : cstring) : option Json :=
  match json_doc args with
  | Some d => match json_path d (drop 2 (snprintf 128 (bs "$." ++ key))) with Some e => e | None => None end
  | None => None
  end.

Definition tool_args_str (args : option cstring) (key : cstring) : option cstring :=
  match args with
  | Some a => match at_key a key with Some (JText s) => Some s | _ => None end
  | None => None
  end.

Definition tool_args_bool (args : option cstring) (key : cstring) (def : bool) : bool :=
  match args with
  | Some a => match at_key a key with Some (JBool b) => b | _ => def end
  | None => def
  end.

Definition tool_args_json (args : option cstring) (key : cstring) : option cstring :=
  match args with
  | Some a => match at_key a key with
              | Some (JArr l) => Some (json_extract_text (JArr l))
              | Some (JObj l) => Some (json_extract_text (JObj l))
              | _ => None
              end
  | None => None
  end.

(** ** The host of a url *)

(** [p + strcspn(p, stop)]: the prefix before the first byte of [stop]. *)
Fixpoint before (stop : Z -> bool) (p : cstring) : cstring :=
  match p with
  | c :: p' => if stop c then [] else c :: before stop p'
  | [] => []
  end.

(** The range from [p] to [end] the code leaves; [memchr] on it is [strchr]. *)
Definition url_host_range (url : cstring) : cstring :=
  let p := match strstr url (bs "://") with Some n => drop (n + 3) url | None => url end in
  let r := before (fun c => (c =? "/"%char) || (c =? "?"%char) || (c =? "#"%char)) p in
  let r := match strchr r "@"%char with Some n => drop (S n) r | None => r end in
  (* [*p] is the byte at [p] even when the range is empty *)
  match r with
  | c :: r' =>
      if c =? "["%char
      then match strchr r "]"%char with Some n => take (n - 1) r' | None => r end
      else match strchr r ":"%char with Some n => take n r | None => r end
  | [] => []
  end.

Definition web_args_url_host (args : option cstring) (cap : nat) : option cstring :=
  match tool_args_str args (bs "url") with
  | Some url =>
      let h := url_host_range url in
      if (0 <? zlen h) && (zlen h <? Z.of_nat cap) then Some h else None
  | None => None
  end.
End Args.

(** ** A concrete instance, for evaluation

    Documents are looked up in a table of spellings; a path is one plain key. *)
Definition obj_find (kvs : list (cstring * Json)) (k : cstring) : option Json :=
  option_map snd (List.find (fun kv => streq (fst kv) k) kvs).

Fixpoint json_rows (path : cstring) (d : Json) : list (cstring * cstring * option cstring) :=
  match d with
  | JNull => [(path, bs "null", None)]
  | JBool b => [(path, if b then bs "true" else bs "false", Some (if b then bs "1" else bs "0"))]
  | JNum n => [(path, bs "integer", Some n)]
  | JText s => [(path, bs "text", Some s)]
  | JArr l => (path, bs "array", None) ::
      (fix go i l := match l with
                     | [] => []
                     | x :: l' => json_rows (path ++ bs "[" ++ print_int i ++ bs "]") x ++ go (i + 1) l'
                     end) 0 l
  | JObj kvs => (path, bs "object", None) ::
      (fix go kvs := match kvs with
                     | [] => []
                     | (k, x) :: kvs' => json_rows (path ++ bs "." ++ k) x ++ go kvs'
                     end) kvs
  end.

Definition demo_json (docs : list (cstring * Json)) : Json1 := {|
  json_valid s := match obj_find docs s with Some _ => true | None => false end;
  json_doc s := obj_find docs s;
  json_path d k := match k with
                   | [] => None
                   | _ => Some (match d with JObj kvs => obj_find kvs k | _ => None end)
                   end;
  json_extract_text d := match d with JNum n => n | JText s => s | _ => [] end;
  json_tree d := json_rows (bs "$") d
|}.

(** * Lemmas *)

Lemma before_stop stop p c : c ∈ before stop p -> stop c = false.
Proof.
  induction p as [|x p IH]; cbn; [by rewrite elem_of_nil|].
  destruct (stop x) eqn:E; [by rewrite elem_of_nil|]. intros [->|H]%elem_of_cons; auto.
Qed.

Lemma before_prefix stop p : exists q, p = before stop p ++ q.
Proof.
  induction p as [|x p (q & E)]; cbn; [by exists []|]. destruct (stop x); [by eexists|].
  exists q. cbn. by rewrite <- E.
Qed.

Lemma before_all stop p q :
  (forall c, c ∈ p -> stop c = false) -> (q = [] \/ stop (deref q) = true) -> before stop (p ++ q) = p.
Proof.
  induction p as [|x p IH]; intros Hp Hq; cbn.
  - destruct q as [|y q]; [done|]. cbn. destruct Hq as [?|Hq]; [done|]. cbn in Hq. by rewrite Hq.
  - rewrite Hp by apply list_elem_of_here. f_equal. apply IH; [|done]. intros c Hc. apply Hp. by right.
Qed.
