(* ===== verification/ToolPolicy.v ===== *)
(** * Per-argument tool policy: src/tool_policy.c

    A policy is a JSON list of rules, each a match object and an effect; the first
    rule whose match holds of the arguments decides.  The query of the code is
    written out with its NULL logic and the errors its json functions raise. *)
From S2P Require Import Prelude CString Libc Json1.

Inductive PolicyEffect := POLICY_ALLOW | POLICY_ASK | POLICY_DENY | POLICY_ERROR.
#[export] Instance PolicyEffect_eq_dec : EqDecision PolicyEffect.
Proof. solve_decision. Defined.

(** The result of a test in SQL, or a statement that raises. *)
Inductive sql := Raise | Null | Truth (b : bool).

Section Policy.
Context {J : Json1}.

(** A value column used as a JSON argument: text is parsed, NULL stays NULL. *)
Definition value_doc (v : Json) : option (option Json) :=
  match v with
  | JText s => match json_doc s with Some d => Some (Some d) | None => None end
  | JNull => Some None
  | _ => Some (Some v)
  end.

Definition is_text (s : cstring) (v : Json) : bool := match v with JText t => streq t s | _ => false end.

(** The CASE of the query for one key of a match object. *)
Definition key_test (args : Json) (key : cstring) (want : Json) : sql :=
  match want with
  | JText w =>
      match json_path args key with
      | None => Raise
      | Some v =>
          if streq w (bs "*") then Truth (match v with Some _ => true | None => false end)
          else match v with
               | None => Null            (* json_type is NULL, so both conjuncts are *)
               | Some v => Truth (is_text w v)
               end
      end
  | JArr l =>
      match json_path args key with
      | None => Raise
      | Some None => Truth false         (* NULL AND no element equals NULL *)
      | Some (Some v) => Truth (existsb (fun e => match e with JText w => is_text w v | _ => false end) l)
      end
  | _ => Truth false
  end.

(** [NOT EXISTS (key WHERE NOT test)]: NULL is not a counterexample. *)
Fixpoint keys_match (args : Json) (kvs : list (cstring * Json)) : option bool :=
  match kvs with
  | [] => Some true
  | (k, w) :: kvs' =>
      match key_test args k w with
      | Raise => None
      | Truth false => Some false
      | _ => keys_match args kvs'
      end
  end.

Definition effect_of (s : cstring) : option PolicyEffect :=
  if streq s (bs "allow") then Some POLICY_ALLOW
  else if streq s (bs "ask") then Some POLICY_ASK
  else if streq s (bs "deny") then Some POLICY_DENY
  else None.

(** A rule the pre-check accepts: its match object and its effect. *)
Definition rule_of (r : Json) : option (list (cstring * Json) * PolicyEffect) :=
  match value_doc r with
  | Some (Some d) =>
      match json_path d (bs "match"), json_path d (bs "effect") with
      | Some (Some (JObj kvs)), Some (Some (JText e)) => option_map (pair kvs) (effect_of e)
      | _, _ => None
      end
  | _ => None
  end.

Fixpoint rules_of (l : list Json) : option (list (list (cstring * Json) * PolicyEffect)) :=
  match l with
  | [] => Some []
  | r :: l' => match rule_of r, rules_of l' with Some x, Some xs => Some (x :: xs) | _, _ => None end
  end.

(** The rows the query yields, in rule order: the sort makes it test every rule,
    so a raise in any of them fails the statement. *)
Fixpoint first_matching (args : Json) (rules : list (list (cstring * Json) * PolicyEffect))
    : option (list PolicyEffect) :=
  match rules with
  | [] => Some []
  | (kvs, e) :: rules' =>
      match keys_match args kvs, first_matching args rules' with
      | Some m, Some es => Some (if m then e :: es else es)
      | _, _ => None
      end
  end.

Definition policy_eval (args policy : option cstring) : PolicyEffect :=
  match policy with
  | None | Some [] => POLICY_ALLOW
  | Some p =>
      match args with
      | None => POLICY_ERROR
      | Some a =>
          if negb (json_valid p && is_object (json_doc p)) then POLICY_ERROR
          else if negb (json_valid a && is_object (json_doc a)) then POLICY_ERROR
          else match json_doc p, json_doc a with
               | Some pd, Some ad =>
                   match json_path pd (bs "rules") with
                   | None => POLICY_ERROR
                   | Some None => POLICY_ALLOW
                   | Some (Some (JArr l)) =>
                       match rules_of l with
                       | None => POLICY_ERROR
                       | Some rules =>
                           match first_matching ad rules with
                           | None => POLICY_ERROR
                           | Some es => hd POLICY_ALLOW es
                           end
                       end
                   | Some (Some _) => POLICY_ERROR
                   end
               | _, _ => POLICY_ERROR
               end
      end
  end.
End Policy.

(** * Lemmas *)

Section Match.
Context {J : Json1}.

(** What one key of a match object asks, read off the code's CASE. *)
Definition key_holds (args : Json) (key : cstring) (want : Json) : Prop :=
  match want with
  | JText w =>
      if streq w (bs "*") then exists v, json_path args key = Some (Some v)
      else json_path args key = Some None \/ json_path args key = Some (Some (JText w))
  | JArr l => exists w, json_path args key = Some (Some (JText w)) /\ JText w ∈ l
  | _ => False
  end.

Definition rule_holds (args : Json) (kvs : list (cstring * Json)) : Prop :=
  forall k w, (k, w) ∈ kvs -> key_holds args k w.

Lemma is_text_eq w v : is_text w v = true <-> v = JText w.
Proof.
  destruct v; cbn; try (split; [done|by intros [=]]). unfold streq. rewrite bool_decide_eq_true.
  split; [by intros ->|by intros [= ->]].
Qed.

Lemma key_test_holds args k w :
  match key_test args k w with
  | Raise => True
  | Truth false => ~ key_holds args k w
  | _ => key_holds args k w
  end.
Proof.
  destruct w as [|b|n|w|l|kvs]; cbn [key_test key_holds]; try (by intros []).
  - destruct (json_path args k) as [[v|]|] eqn:E; [|by destruct (streq w (bs "*")); [intros (? & ?)|left]|done].
    destruct (streq w (bs "*")); [by exists v|].
    destruct (is_text w v) eqn:Et; [right; apply is_text_eq in Et; by subst|].
    intros [?|[= ->]]; [done|]. by rewrite (proj2 (is_text_eq w (JText w))) in Et.
  - destruct (json_path args k) as [[v|]|] eqn:E; [| |done].
    + destruct (existsb _ l) eqn:Ex.
      * apply existsb_exists in Ex as (e & Hin & He). destruct e as [| | |w| |]; try done.
        apply is_text_eq in He. subst v. exists w. split; [done|by apply list_elem_of_In].
      * intros (w & [= ->] & Hin). apply not_true_iff_false in Ex. apply Ex. apply existsb_exists.
        exists (JText w). split; [by apply list_elem_of_In|by apply is_text_eq].
    + by intros (w & ? & ?).
Qed.

Lemma keys_match_holds args kvs :
  match keys_match args kvs with
  | None => True
  | Some true => rule_holds args kvs
  | Some false => ~ rule_holds args kvs
  end.
Proof.
  induction kvs as [|[k w] kvs IH]; cbn [keys_match]; [by intros k w ?%elem_of_nil|].
  pose proof (key_test_holds args k w) as H.
  assert (Hc : key_holds args k w ->
    match keys_match args kvs with
    | None => True | Some true => rule_holds args ((k, w) :: kvs)
    | Some false => ~ rule_holds args ((k, w) :: kvs) end).
  { intros Hk. destruct (keys_match args kvs) as [[|]|]; [| |done].
    - intros k' w' [[= -> ->]|Hin]%elem_of_cons; auto.
    - intros Hr. apply IH. intros k' w' Hin. apply Hr. by right. }
  destruct (key_test args k w) as [| |[|]]; [done|by apply Hc..|].
  intros Hr. apply H, Hr. left.
Qed.

(** [e] is the effect of the first rule that holds, or of none. *)
Inductive first_match (args : Json) : list (list (cstring * Json) * PolicyEffect) -> PolicyEffect -> Prop :=
  | first_none : first_match args [] POLICY_ALLOW
  | first_here kvs e rules : rule_holds args kvs -> first_match args ((kvs, e) :: rules) e
  | first_skip kvs e e' rules : ~ rule_holds args kvs -> first_match args rules e' ->
      first_match args ((kvs, e) :: rules) e'.

Lemma matching_first args rules es : first_matching args rules = Some es -> first_match args rules (hd POLICY_ALLOW es).
Proof.
  revert es. induction rules as [|[kvs e] rules IH]; intros es; cbn; [intros [= <-]; constructor|].
  pose proof (keys_match_holds args kvs) as H.
  destruct (keys_match args kvs) as [m|]; [|done]. destruct (first_matching args rules) as [es'|]; [|done].
  intros [= <-]. destruct m; [by constructor|]. constructor; [done|]. by apply IH.
Qed.

Lemma rules_of_effects l rules kvs e : rules_of l = Some rules -> (kvs, e) ∈ rules -> e <> POLICY_ERROR.
Proof.
  revert rules. induction l as [|r l IH]; intros rules; cbn; [intros [= <-]; by rewrite elem_of_nil|].
  destruct (rule_of r) as [[kvs' e']|] eqn:Er; [|done]. destruct (rules_of l) as [rs|]; [|done].
  intros [= <-] [[= <- <-]|Hin]%elem_of_cons; [|by eapply IH].
  unfold rule_of in Er. destruct (value_doc r) as [[d|]|]; [|done..].
  destruct (json_path d _) as [[[]|]|]; try done. destruct (json_path d _) as [[[]|]|]; try done.
  unfold effect_of in Er. by repeat (case_match; simplify_eq/=).
Qed.
End Match.

(** What the code can read: both texts are objects, the policy has no rules or a list
    of well-formed ones, and no key of a match object is a malformed path. *)
Definition readable {J : Json1} (args : option cstring) (p : cstring) (d : Json)
    (rules : list (list (cstring * Json) * PolicyEffect)) : Prop :=
  exists a pkvs akvs, args = Some a /\ json_valid p = true /\ json_doc p = Some (JObj pkvs) /\
    json_valid a = true /\ json_doc a = Some (JObj akvs) /\ d = JObj akvs /\
    (json_path (JObj pkvs) (bs "rules") = Some None /\ rules = [] \/
     exists l, json_path (JObj pkvs) (bs "rules") = Some (Some (JArr l)) /\ rules_of l = Some rules) /\
    forall kvs e, (kvs, e) ∈ rules -> keys_match d kvs <> None.

Lemma matching_total {J : Json1} d rules :
  (forall kvs e, (kvs, e) ∈ rules -> keys_match d kvs <> None) <-> first_matching d rules <> None.
Proof.
  induction rules as [|[kvs e] rules IH]; cbn [first_matching]; [split; [done|by intros _ ? ? ?%elem_of_nil]|].
  split.
  - intros H. destruct (keys_match d kvs) eqn:E; [|destruct (H kvs e); [left|done]].
    destruct (first_matching d rules); [done|]. exfalso. apply IH; [|done]. intros k' e' Hin. apply (H k' e'). by right.
  - intros H k' e' [[= -> ->]|Hin]%elem_of_cons E; [by rewrite E in H|].
    apply IH in Hin; [done|]. intros Em. apply H. rewrite Em. by destruct (keys_match d kvs).
Qed.

Lemma first_match_effect {J : Json1} d l rules e :
  rules_of l = Some rules -> first_match d rules e -> e <> POLICY_ERROR.
Proof.
  intros Hrs Hf ->. revert l Hrs Hf. induction rules as [|[kvs e] rules IH]; intros l Hrs Hf; inversion Hf; subst.
  - by eapply (rules_of_effects _ _ _ _ Hrs); [left|].
  - destruct l as [|r l]; [done|]. cbn in Hrs. destruct (rule_of r); [|done].
    destruct (rules_of l) eqn:E; [|done]. simplify_eq. by eapply IH.
Qed.

(** The policy's answer.  An absent policy allows.  One the code cannot read
    together with the arguments is an error, never an allow; from any other the
    answer is the effect of the first rule that holds of the arguments, or to allow
    when none does.  A rule holds when each of its keys does: a star where the key is
    present, a list where the value is one of its texts, a text where the value is
    that text or the key is absent. *)
Theorem policy_eval_first_match {J : Json1} (args policy : option cstring) :
  match policy with
  | None | Some [] => policy_eval args policy = POLICY_ALLOW
  | Some p =>
      (policy_eval args policy = POLICY_ERROR /\ forall d rules, ~ readable args p d rules) \/
      exists d rules, readable args p d rules /\ first_match d rules (policy_eval args policy) /\
        policy_eval args policy <> POLICY_ERROR
  end.
Proof.
  destruct policy as [[|c p]|]; [done| |done]. cbn [policy_eval]. set (pol := c :: p). clearbody pol.
  destruct args as [a|]; [|left; split; [done|by intros ?? (?&?&?&?&?)]].
  destruct (json_valid pol) eqn:Hpv; [|left; split; [done|intros ?? (?&?&?&?&?&?); congruence]].
  destruct (json_doc pol) as [[| | | | |pkvs]|] eqn:Hpd;
    try (left; split; [done|intros ?? (?&?&?&?&?&?&?); congruence]). cbn [andb negb is_object].
  destruct (json_valid a) eqn:Hav; [|left; split; [done|intros ?? (?&?&?&?&?&?&?&?); congruence]].
  destruct (json_doc a) as [[| | | | |akvs]|] eqn:Had;
    try (left; split; [done|intros ?? (?&?&?&?&?&?&?&?&?); congruence]). cbn [andb negb is_object].
  destruct (json_path (JObj pkvs) (bs "rules")) as [[[| | | |l|]|]|] eqn:Hr;
    try (left; split; [done|intros ?? (?&?&?&?&?&?&?&?&?&[[? ?]|(?&?&?)]&?); congruence]).
  - destruct (rules_of l) as [rules|] eqn:Hrs;
      [|left; split; [done|intros ?? (?&?&?&?&?&?&?&?&?&[[? ?]|(?&?&?)]&?); congruence]].
    destruct (first_matching (JObj akvs) rules) as [es|] eqn:Hm.
    + right. exists (JObj akvs), rules. pose proof (matching_first _ _ _ Hm) as Hf. split_all; [|done|by eapply first_match_effect].
      exists a, pkvs, akvs. split_all; try done; [right; by exists l|]. apply matching_total. by rewrite Hm.
    + left. split; [done|]. intros d rs (?&?&?&?&?&?&?&?&?&Hl&Hk). simplify_eq.
      destruct Hl as [[? ?]|(?&?&?)]; [congruence|]. simplify_eq. apply matching_total in Hk. by rewrite Hm in Hk.
  - right. exists (JObj akvs), []. split_all; [|constructor|done]. exists a, pkvs, akvs.
    split_all; try done; [by left|]. by intros ?? ?%elem_of_nil.
Qed.

(** ** A rule with a literal matches arguments that lack the key *)
Definition dry_rule : Json :=
  JObj [(bs "match", JObj [(bs "dry_run", JText (bs "yes"))]); (bs "effect", JText (bs "allow"))].
Definition deny_rule : Json := JObj [(bs "match", JObj []); (bs "effect", JText (bs "deny"))].
Definition dry_docs : list (cstring * Json) :=
  [(bs "POLICY", JObj [(bs "rules", JArr [dry_rule; deny_rule])]);
   (bs "{}", JObj []);
   (bs "NO", JObj [(bs "dry_run", JText (bs "no"))])].

Lemma policy_literal_absent_key :
  @policy_eval (demo_json dry_docs) (Some (bs "NO")) (Some (bs "POLICY")) = POLICY_DENY /\
  @policy_eval (demo_json dry_docs) (Some (bs "{}")) (Some (bs "POLICY")) = POLICY_ALLOW.
Proof. by vm_compute. Qed.
