(* ===== verification/Approval.v ===== *)
(** * Approvals: the row model and the texts of src/approval.c

    A parked request is a row; a human (or an automatic rule) settles it once, and
    an approved row authorises one run.  The row operations are compare-and-swap
    updates on the table; the matching of requests, the deadlines, the receipts and
    the fenced blocks of the approver's card are here.  [Gate] and [Resolve] use
    them. *)
From S2P Require Import Prelude CString Libc Json1 Config Store.

Definition APPROVAL_PARK_REQUIRED : cstring := bs "approval_required".
Definition APPROVAL_PARK_SENSITIVE : cstring := bs "sensitive_target".

Inductive ApprovalDecision := APPROVAL_DENY | APPROVAL_ONCE | APPROVAL_ALWAYS.
#[export] Instance ApprovalDecision_eq_dec : EqDecision ApprovalDecision.
Proof. solve_decision. Defined.

(** ** The tables of the trust decisions, beside the session tables *)
Inductive ToolApprovalMode := TOOL_MODE_SILENT | TOOL_MODE_ALWAYS | TOOL_MODE_DECIDES.
#[export] Instance ToolApprovalMode_eq_dec : EqDecision ToolApprovalMode.
Proof. solve_decision. Defined.

Record GrantRow := mk_grant {
  g_agent : cstring; g_kind : cstring; g_value : cstring; g_mode : ToolApprovalMode; g_expires : option Z
}.

(** [w_deferred] is the process's pending automatic decision, not a table. *)
Record World := mk_world {
  w_store : Store; w_config : list ConfigRow; w_grants : list GrantRow;
  w_sensitive : list cstring;                       (* hosts of sensitive_targets, by value *)
  w_secret_hosts : list (cstring * cstring);        (* secret_hosts, by host *)
  w_filters : list (Z * cstring);                   (* sessions.tool_filter where not NULL *)
  w_pins : list (cstring * cstring * Z);            (* channel_routes: channel, chat, session *)
  w_models : list (cstring * cstring * option cstring);  (* agent_models by pos: agent, id, effort *)
  w_channels : list (cstring * cstring);            (* channels: name, extension_name *)
  w_deferred : option (Z * ApprovalDecision * cstring * Z)
}.

Definition on_store (f : Store -> Store) (w : World) : World :=
  mk_world (f (w_store w)) (w_config w) (w_grants w) (w_sensitive w) (w_secret_hosts w) (w_filters w) (w_pins w)
    (w_models w) (w_channels w) (w_deferred w).
Definition with_grants (g : list GrantRow) (w : World) : World :=
  mk_world (w_store w) (w_config w) g (w_sensitive w) (w_secret_hosts w) (w_filters w) (w_pins w) (w_models w)
    (w_channels w) (w_deferred w).
Definition with_deferred (d : option (Z * ApprovalDecision * cstring * Z)) (w : World) : World :=
  mk_world (w_store w) (w_config w) (w_grants w) (w_sensitive w) (w_secret_hosts w) (w_filters w) (w_pins w)
    (w_models w) (w_channels w) d.

(** ** Rows *)
Definition approval_is_sensitive (a : ApprovalRow) : bool :=
  match a_reason a with Some r => streq r APPROVAL_PARK_SENSITIVE | None => false end.

Definition get_approval (t : Store) (id : Z) : option ApprovalRow :=
  List.find (fun a => a_id a =? id) (t_approvals t).

Definition oeq (a b : option cstring) : bool := bool_decide (a = b).

(** The insert: the id is above every id the table has had, since rows are never
    deleted.  [ok], here and below: whether the statement ran ([false] is a busy
    database). *)
Definition approval_create (ok : bool) (t : Store) (timeout sid : Z) (call tool reason args : option cstring)
    (resolve : option cstring) : Z * Store :=
  let id := max_of (map a_id (t_approvals t)) + 1 in
  if negb ok then (-1, t)
  else (id, with_approvals (t_approvals t ++
         [mk_approval id sid call tool (Some (default APPROVAL_PARK_REQUIRED reason)) args
            (default (bs "rerun") resolve) ApPending None (t_now t) (Some (t_now t + timeout))]) t).

(** The first row by (requested_at, id). *)
Definition oldest (l : list ApprovalRow) : option ApprovalRow :=
  fold_left (fun best a => match best with
                           | None => Some a
                           | Some b => if a_requested a <? a_requested b then Some a else best
                           end) l None.

Definition is_pending (a : ApprovalRow) : bool := bool_decide (a_state a = ApPending).

Definition approval_get_pending (t : Store) (sid : Z) : option ApprovalRow :=
  oldest (List.filter (fun a => (a_session a =? sid) && is_pending a) (t_approvals t)).

Definition approval_get_pending_subtree (t : Store) (root : Z) : option ApprovalRow :=
  let sub := subtree (length (t_sessions t)) t [root] in
  oldest (List.filter (fun a => bool_decide (a_session a ∈ sub) && is_pending a) (t_approvals t)).

Definition approval_get_for_tool_call (t : Store) (sid : Z) (call : cstring) : option ApprovalRow :=
  last (List.filter (fun a => (a_session a =? sid) && oeq (a_call a) (Some call)) (t_approvals t)).

Definition with_state (s : ApprovalState) (via : option cstring) (a : ApprovalRow) : ApprovalRow :=
  mk_approval (a_id a) (a_session a) (a_call a) (a_tool a) (a_reason a) (a_args a) (a_resolve a) s via
    (a_requested a) (a_expires a).

(** The compare-and-swap both transitions are: whether a row changed. *)
Definition swap_state (t : Store) (id : Z) (from to : ApprovalState) (via : ApprovalRow -> option cstring)
    : bool * Store :=
  let hit a := (a_id a =? id) && bool_decide (a_state a = from) in
  (existsb hit (t_approvals t),
   with_approvals (map (fun a => if hit a then with_state to (via a) a else a) (t_approvals t)) t).

Definition approval_consume (ok : bool) (t : Store) (id : Z) : bool * Store :=
  if ok then swap_state t id ApApproved ApConsumed a_via else (false, t).

Definition approval_resolve (ok : bool) (t : Store) (id : Z) (approved : bool) (via : option cstring)
    : option ApprovalRow * Store :=
  if ok then
    let (changed, t') := swap_state t id ApPending (if approved then ApApproved else ApDenied) (fun _ => via) in
    (if changed then get_approval t' id else None, t')
  else (None, t).

(** ** Matching a request *)
Section Match.
Context {J : Json1}.

Definition json_row := (cstring * cstring * option cstring)%type.

Definition subset_rows (a b : list json_row) : bool := forallb (fun r => bool_decide (r ∈ b)) a.

Definition capability_match (a b : option cstring) : bool :=
  match a, b with
  | Some a, Some b =>
      streq a b ||
      match json_doc a, json_doc b with
      | Some x, Some y => subset_rows (json_tree x) (json_tree y) && subset_rows (json_tree y) (json_tree x)
      | _, _ => false
      end
  | _, _ => false
  end.

Definition unexpired (t : Store) (a : ApprovalRow) : bool :=
  match a_expires a with Some e => t_now t <? e | None => false end.

Definition approval_match_state (t : Store) (sid : Z) (state : ApprovalState) (unexpired_only : bool)
    (reason tool args : option cstring) : option ApprovalRow :=
  let rows := List.filter (fun a => (a_session a =? sid) && bool_decide (a_state a = state) &&
                                    streq (a_resolve a) (bs "rerun") && oeq (a_reason a) reason &&
                                    oeq (a_tool a) tool && (negb unexpired_only || unexpired t a))
                (t_approvals t) in
  List.find (fun a => capability_match (a_args a) args) (take 8 (rev rows)).

Definition approval_find_pending_match (t : Store) (sid : Z) (reason tool args : option cstring)
    : option ApprovalRow :=
  approval_match_state t sid ApPending false reason tool args.

Definition approval_take_ticket (ok : bool) (t : Store) (sid : Z) (reason tool args : option cstring)
    : option Z * Store :=
  match approval_match_state t sid ApApproved true reason tool args with
  | Some a => let (done, t) := approval_consume ok t (a_id a) in (if done then Some (a_id a) else None, t)
  | None => (None, t)
  end.
End Match.

(** The count, and the ids that fit a buffer of [cap] bytes. *)
Definition approval_pending_ids (t : Store) (sid : Z) (cap : nat) : Z * cstring :=
  fold_left (fun acc a =>
    let '(n, text) := acc in
    let item := (if n =? 0 then [] else bs " ") ++ bs "#" ++ print_int (a_id a) in
    (n + 1, if (length item <? cap - length text)%nat then text ++ item else text))
    (List.filter (fun a => (a_session a =? sid) && is_pending a) (t_approvals t)) (0, []).

(** ** The sweeps' lists *)
Definition owned_or_orphan (t : Store) (me : cstring) (sid : Z) : bool :=
  match get_session t sid with
  | None => false
  | Some s => match x_owner s with
              | None => true
              | Some o => oeq (owner_of me) (Some o) || negb (existsb (fun p => streq (pr_id p) o) (t_processes t))
              end
  end.

Definition approval_list_expired (t : Store) (me : cstring) : list Z :=
  map a_id (List.filter (fun a => is_pending a &&
                                  match a_expires a with Some e => e <? t_now t | None => false end &&
                                  owned_or_orphan t me (a_session a)) (t_approvals t)).

Definition approval_list_block_due (t : Store) (block : Z) (me : cstring) : list Z :=
  map a_id (List.filter (fun a => is_pending a &&
                                  match get_session t (a_session a) with
                                  | Some s => bool_decide (x_state s = AwaitingApproval)
                                  | None => false
                                  end && (a_requested a + block <? t_now t) &&
                                  owned_or_orphan t me (a_session a)) (t_approvals t)).

(** ** Deadlines *)
Section Deadlines.
Variable getenv secret_system : cstring -> option cstring.
Abbreviation config_get := (config_get getenv secret_system).
Abbreviation config_get_int := (config_get_int getenv secret_system).

Definition approval_timeout_seconds (rows : list ConfigRow) : Z :=
  let t := config_get_int rows (bs "approval_timeout_sec") in
  if 0 <? t then t else config_default_int (bs "approval_timeout_sec").

Definition approval_block_seconds (rows : list ConfigRow) : Z :=
  let block := match config_get rows (bs "approval_block_sec") with
               | Some ((_ :: _) as raw) => atoi raw
               | _ => config_default_int (bs "approval_block_sec")
               end in
  let block := if block <? 0 then 0 else block in
  let timeout := approval_timeout_seconds rows in
  if timeout <? block then timeout else block.

(** The comma list of [<channel>.ambient_channels]: blanks around an item are not
    part of it. *)
Fixpoint skip_blank_commas (p : cstring) : cstring :=
  match p with
  | c :: p' => if (c =? " "%char) || (c =? ","%char) then skip_blank_commas p' else p
  | [] => []
  end.

Fixpoint trim_tail (s : cstring) : cstring :=
  match s with
  | [] => []
  | c :: s' => match trim_tail s' with
               | [] => if c =? " "%char then [] else [c]
               | r => c :: r
               end
  end.

Fixpoint ambient_item (fuel : nat) (p chat : cstring) : bool :=
  match fuel, p with
  | O, _ | _, [] => false
  | S fuel', _ =>
      let p := skip_blank_commas p in
      let item := before (fun c => c =? ","%char) p in
      let word := trim_tail item in
      (match word with [] => false | _ => streq word chat end) ||
      match drop (length item) p with
      | _ :: rest => ambient_item fuel' rest chat
      | [] => false
      end
  end.

Definition session_is_ambient (w : World) (sid : Z) : bool :=
  existsb (fun r => let '(chan, chat, s) := r in
             (s =? sid) &&
             match chat with
             | [] => false
             | _ => match config_get (w_config w) (snprintf 128 (chan ++ bs ".ambient_channels")) with
                    | Some l => ambient_item (S (length l)) l chat
                    | None => false
                    end
             end) (w_pins w).

Definition approval_block_seconds_for_session (w : World) (sid : Z) : Z :=
  if session_is_ambient w sid then 0 else approval_block_seconds (w_config w).
End Deadlines.

(** ** Receipts *)
Definition approval_background_notice (id : Z) (cap : nat) : cstring :=
  snprintf cap (bs "approval " ++ print_int id ++
    bs " requested. Continue with whatever doesn't need it. You will be notified when the operator decides on the approval.").

Definition approval_decider_phrase (via : option cstring) (cap : nat) : cstring :=
  match via with
  | None | Some [] => []
  | Some via =>
      if starts_with (bs "channel:") via then
        let ch := drop 8 via in
        match strchr ch ":"%char with
        | Some n => match drop (S n) ch with
                    | [] => snprintf cap (bs " (via " ++ take n ch ++ bs ")")
                    | who => snprintf cap (bs " (" ++ who ++ bs ", via " ++ take n ch ++ bs ")")
                    end
        | None => snprintf cap (bs " (via " ++ ch ++ bs ")")
        end
      else snprintf cap (bs " (via " ++ via ++ bs ")")
  end.

Fixpoint comma_space (l : list cstring) : cstring :=
  match l with [] => [] | [x] => x | x :: l' => x ++ bs ", " ++ comma_space l' end.

Section Receipts.
Context {J : Json1}.

(** The models of the session's agent as the card spells them. *)
Definition models_text (w : World) (sid : Z) : cstring :=
  let agent := match get_session (w_store w) sid with Some s => x_agent s | None => None end in
  let mine := List.filter (fun m => oeq agent (Some (fst (fst m)))) (w_models w) in
  match mine with
  | [] => bs "(none)"
  | _ => comma_space (map (fun m => let '(_, id, effort) := m in
                                    id ++ match effort with Some e => bs "(" ++ e ++ bs ")" | None => [] end) mine)
  end.

(** What is true now of the sections a request touched. *)
Definition approval_state_restatement (w : World) (a : ApprovalRow) (cap : nat) : cstring :=
  let args := default (bs "{}") (a_args a) in
  let text :=
    match json_doc args with
    | None => []
    | Some d =>
        match json_path d (bs "changes.agent"), json_path d (bs "changes.grants") with
        | Some agent, Some grants =>
            let m := match agent with
                     | Some _ => snprintf cap (bs "models = " ++ models_text w (a_session a))
                     | None => []
                     end in
            m ++ match grants with
                 | Some _ => snprintf (cap - length m) ((match m with [] => [] | _ => bs "; " end) ++ bs "grants unchanged")
                 | None => []
                 end
        | _, _ => []
        end
    end in
  match text with [] => snprintf cap (bs "nothing was applied") | _ => text end.

Inductive ApprovalPostWindow :=
  | PW_RERUN_APPROVED | PW_RERUN_DENIED | PW_APPLY_GRANTED | PW_APPLY_DENIED | PW_APPLY_FAILED | PW_EXPIRED.

Definition postwindow_text (w : World) (a : ApprovalRow) (outcome : ApprovalPostWindow) (detail : option cstring)
    : cstring :=
  let what := default (bs "tool") (a_tool a) in
  let no := bs "Approval #" ++ print_int (a_id a) in
  let sp (pre : cstring) := match detail with Some d => pre ++ d | None => [] end in
  snprintf 512
    match outcome with
    | PW_RERUN_APPROVED =>
        if approval_is_sensitive a then
          no ++ bs " for '" ++ what ++ bs "' was approved after the wait window, but a sensitivity approval covers only that one frozen call, which was already answered " ++ EM_DASH ++
          bs " re-issue the call if still needed and it will ask the operator again."
        else
          no ++ bs " for '" ++ what ++ bs "' was approved " ++ EM_DASH ++
          bs " re-issue the call now if it's still needed; the approval covers the next matching call, so it will run without asking again."
    | PW_RERUN_DENIED =>
        no ++ bs " for '" ++ what ++ bs "' was denied. Don't re-request the same thing " ++ EM_DASH ++
        bs " adjust your approach, or explain what you were trying to do and let the operator decide."
    | PW_APPLY_GRANTED => no ++ bs " granted: " ++ what ++ bs " applied." ++ sp (bs " ")
    | PW_APPLY_FAILED =>
        no ++ bs " for '" ++ what ++ bs "' was approved, but applying it failed and everything was rolled back" ++
        sp (bs ": ") ++ bs ". This is a system error, not a denial " ++ EM_DASH ++
        bs " re-request once; if it fails again, tell the operator instead of retrying."
    | PW_APPLY_DENIED =>
        no ++ bs " denied: " ++ what ++ bs ". Don't re-request the same change " ++ EM_DASH ++
        bs " adjust, or explain what you were trying to do."
    | PW_EXPIRED =>
        no ++ bs " for '" ++ what ++ bs "' expired without a decision " ++ EM_DASH ++
        bs " the operator may not have seen it. Not a denial " ++ EM_DASH ++
        bs " re-request only if the task still needs it, and mention that it expired. Nothing was applied. Current state: " ++
        approval_state_restatement w a 256
    end.

Definition approval_deliver_postwindow (w : World) (a : ApprovalRow) (outcome : ApprovalPostWindow)
    (detail : option cstring) : World :=
  on_store (fun t => inbox_insert t (a_session a) (bs "approval") None (postwindow_text w a outcome detail)) w.
End Receipts.

(** ** The card *)
Definition FENCE : cstring := [96; 96; 96].

(** [run] backticks have just been copied. *)
Fixpoint append_fence_escaped (run : nat) (s : cstring) : cstring :=
  match s with
  | [] => []
  | c :: s' =>
      if c =? 96 then
        match run with
        | 2%nat => 32 :: c :: append_fence_escaped 1 s'
        | _ => c :: append_fence_escaped (S run) s'
        end
      else c :: append_fence_escaped 0 s'
  end.

(** The block of the rows a query yields; NULL columns are skipped. *)
Definition append_enum_block (header : cstring) (rows : list (option cstring)) : cstring :=
  let lines := flat_map (fun r => match r with Some v => append_fence_escaped 0 v ++ [10] | None => [] end) rows in
  if existsb (fun r => match r with Some _ => true | None => false end) rows
  then header ++ [10] ++ FENCE ++ [10] ++ lines ++ FENCE ++ [10] else [].

(** The command and the code of a frozen call. *)
Definition body_block (label : string) (body : option cstring) : cstring :=
  match body with
  | Some b => bs label ++ [10] ++ FENCE ++ [10] ++ append_fence_escaped 0 b ++ [10] ++ FENCE ++ [10]
  | None => []
  end.

Definition append_body_block {J : Json1} (args : option cstring) : cstring :=
  body_block "Command:" (tool_args_str args (bs "command")) ++ body_block "Code:" (tool_args_str args (bs "code")).

(** The cut of an overlong card: at the last line break before 3400, else at a
    character boundary. *)
Fixpoint cut_back (stop : Z -> bool) (s : cstring) (cut : nat) : nat :=
  match cut with
  | O => O
  | S cut' => if stop (nth cut s 0) then cut else cut_back stop s cut'
  end.

Definition summary_cut (s : cstring) : cstring :=
  if 3500 <? zlen s then
    let cut := cut_back (fun c => c =? 10) s 3400 in
    let cut := if (cut =? 0)%nat then cut_back (fun c => negb (Z.land c 0xC0 =? 0x80)) s 3400 else cut in
    take cut s ++ [10] ++ FENCE ++ [10] ++ bs "... (truncated)"
  else s.

(** * Lemmas *)

(** ** The fence *)

(** No three backticks in a row, after [run] of them. *)
Fixpoint runs_ok (run : nat) (s : cstring) : bool :=
  match s with
  | [] => true
  | c :: s' => if c =? 96 then (run <? 2)%nat && runs_ok (S run) s' else runs_ok 0 s'
  end.

Lemma fence_runs_ok s run : (run <= 2)%nat -> runs_ok run (append_fence_escaped run s) = true.
Proof.
  revert run. induction s as [|c s IH]; intros run Hr; cbn [append_fence_escaped]; [done|].
  destruct (c =? 96) eqn:E.
  - destruct run as [|[|[|run]]]; [| |cbn; rewrite E; cbn; apply IH; lia|lia]; cbn; rewrite E; cbn; apply IH; lia.
  - cbn. rewrite E. apply IH. lia.
Qed.

Lemma runs_ok_line s t run : runs_ok run (s ++ 10 :: t) = runs_ok run s && runs_ok 0 t.
Proof.
  revert run. induction s as [|c s IH]; intros run; cbn; [done|]. destruct (c =? 96); [|apply IH].
  by rewrite IH, andb_assoc.
Qed.

Lemma runs_ok_strstr s t : runs_ok 0 s = true -> strstr (s ++ 10 :: FENCE ++ t) FENCE = Some (length s + 1)%nat.
Proof.
  cut (forall run, runs_ok run s = true -> strstr (s ++ 10 :: FENCE ++ t) FENCE = Some (length s + 1)%nat);
    [by intros H; apply H|].
  induction s as [|c s IH]; intros run Hr; [done|].
  assert (Hhead : starts_with FENCE ((c :: s) ++ 10 :: FENCE ++ t) = false).
  { clear IH. unfold FENCE. cbn [starts_with app runs_ok] in *. rewrite (Z.eqb_sym 96 c).
    destruct (c =? 96); [|done]. apply andb_prop in Hr as [Hlt Hr].
    destruct s as [|d s]; [done|]. cbn [starts_with app runs_ok] in *. rewrite (Z.eqb_sym 96 d).
    destruct (d =? 96); [|done]. apply andb_prop in Hr as [Hlt2 Hr]. assert (run = 0)%nat as -> by lia.
    destruct s as [|f s]; [done|]. cbn [starts_with app runs_ok] in *. rewrite (Z.eqb_sym 96 f).
    by destruct (f =? 96). }
  change ((c :: s) ++ 10 :: FENCE ++ t) with (c :: (s ++ 10 :: FENCE ++ t)) in *.
  cbn [strstr]. rewrite Hhead. cbn in Hr. destruct (c =? 96).
  - apply andb_prop in Hr as [_ Hr]. by rewrite (IH _ Hr).
  - by rewrite (IH _ Hr).
Qed.

Lemma runs_ok_free s run : runs_ok run s = true -> (run <= 2)%nat -> append_fence_escaped run s = s.
Proof.
  revert run. induction s as [|c s IH]; intros run Hr Hl; cbn in *; [done|]. destruct (c =? 96).
  - apply andb_prop in Hr as [Hlt Hr]. destruct run as [|[|run]]; [| |lia]; rewrite IH by (done || lia); done.
  - rewrite IH by (done || lia). done.
Qed.

Lemma fence_spaces s run : List.filter (fun c => negb (c =? 32)) (append_fence_escaped run s) =
                           List.filter (fun c => negb (c =? 32)) s.
Proof.
  revert run. induction s as [|c s IH]; intros run; cbn; [done|]. destruct (c =? 96) eqn:E.
  - assert (c = 96) as -> by lia. destruct run as [|[|[|run]]]; cbn; by rewrite IH.
  - cbn. destruct (negb (c =? 32)); by rewrite IH.
Qed.

Definition row_text (r : option cstring) : cstring :=
  match r with Some v => append_fence_escaped 0 v ++ [10] | None => [] end.

Lemma row_texts_ok rows : runs_ok 0 (flat_map row_text rows) = true.
Proof.
  induction rows as [|[v|] rows IH]; cbn [flat_map row_text]; [done| |done].
  rewrite <- app_assoc. cbn. rewrite runs_ok_line, IH, andb_true_r. apply fence_runs_ok. lia.
Qed.

(** Row texts end in a line break. *)
Definition is_row (r : option cstring) : bool := match r with Some _ => true | None => false end.

Lemma row_texts_end rows :
  if existsb is_row rows then exists b, flat_map row_text rows = b ++ [10] else flat_map row_text rows = [].
Proof.
  induction rows as [|[v|] rows IH]; cbn [existsb is_row orb flat_map row_text]; [done| |done].
  destruct (existsb is_row rows); [destruct IH as (b & ->)|rewrite IH].
  - exists ((append_fence_escaped 0 v ++ [10]) ++ b). by rewrite app_assoc.
  - exists (append_fence_escaped 0 v). by rewrite app_nil_r.
Qed.

(** No value a model wrote can close the block it is shown in: in a block of rows,
    and in the block of a command, the first fence after the opening one is the
    block's own closing fence.  The rows are shown in order, one per line, and a value
    without a fence of its own is shown unchanged; in any other only blanks are added. *)
Theorem approval_blocks_fenced header rows label body :
  (existsb is_row rows = false -> append_enum_block header rows = []) /\
  (existsb is_row rows = true -> exists b,
     append_enum_block header rows = header ++ [10] ++ FENCE ++ [10] ++ b ++ FENCE ++ [10] /\
     b = flat_map row_text rows /\ strstr (b ++ FENCE ++ [10]) FENCE = Some (length b)) /\
  (exists b, body_block label (Some body) = bs label ++ [10] ++ FENCE ++ [10] ++ b ++ [10] ++ FENCE ++ [10] /\
     b = append_fence_escaped 0 body /\ strstr (b ++ [10] ++ FENCE ++ [10]) FENCE = Some (length b + 1)%nat) /\
  forall v, (runs_ok 0 v = true -> append_fence_escaped 0 v = v) /\
            List.filter (fun c => negb (c =? 32)) (append_fence_escaped 0 v) = List.filter (fun c => negb (c =? 32)) v.
Proof.
  pose proof (row_texts_end rows) as Hend.
  assert (Hblock : append_enum_block header rows =
    if existsb is_row rows then header ++ [10] ++ FENCE ++ [10] ++ flat_map row_text rows ++ FENCE ++ [10] else [])
    by done.
  rewrite Hblock. split; [by intros ->|]. split; [|split].
  - intros E. rewrite E in *. exists (flat_map row_text rows). split; [done|]. split; [done|].
    destruct Hend as (b & Hb). pose proof (row_texts_ok rows) as Hok. rewrite Hb in *.
    rewrite runs_ok_line in Hok. apply andb_prop in Hok as [Hok _]. rewrite <- app_assoc. cbn [app].
    change (b ++ 10 :: FENCE ++ [10]) with (b ++ 10 :: (FENCE ++ [10])). rewrite runs_ok_strstr by done.
    by rewrite length_app.
  - exists (append_fence_escaped 0 body). split; [done|]. split; [done|].
    apply (runs_ok_strstr _ [10]). apply fence_runs_ok. lia.
  - intros v. split; [|apply fence_spaces]. intros H. apply runs_ok_free; [done|lia].
Qed.

Lemma approval_blocks_fenced_witness :
  append_enum_block (bs "Args:") [Some ([97] ++ FENCE ++ [98])] =
    bs "Args:" ++ [10] ++ FENCE ++ [10] ++ (flat_map row_text [Some ([97] ++ FENCE ++ [98])]) ++ FENCE ++ [10].
Proof.
  destruct (approval_blocks_fenced (bs "Args:") [Some ([97] ++ FENCE ++ [98])] "Code:" [99]) as (_ & H & _).
  destruct (H eq_refl) as (b & E & Hb & _). rewrite E, Hb. reflexivity.
Defined.

(** ** The cut *)
Lemma cut_back_spec stop s cut :
  let k := cut_back stop s cut in
  (k <= cut)%nat /\ (k = 0%nat \/ stop (nth k s 0) = true).
Proof.
  induction cut as [|cut IH]; cbn [cut_back]; [split; [lia|by left]|].
  destruct (stop (nth (S cut) s 0)) eqn:E; [split; [lia|by right]|]. destruct IH as [? ?]. split; [lia|done].
Qed.

(** A card never passes 3500 bytes; a cut one is a prefix of the text, ended at a
    line break if the text has one that early and at the start of a character
    otherwise, and closed by a fence. *)
Lemma summary_cut_bound s : zlen (summary_cut s) <= 3500 /\
  (zlen s <= 3500 -> summary_cut s = s) /\
  (3500 < zlen s -> exists k, (k <= 3400)%nat /\ summary_cut s = take k s ++ [10] ++ FENCE ++ [10] ++ bs "... (truncated)" /\
     (k = 0%nat \/ nth k s 0 = 10 \/ Z.land (nth k s 0) 0xC0 <> 0x80)).
Proof.
  unfold summary_cut. destruct (3500 <? zlen s) eqn:E; [|split_all; [lia|done|lia]].
  cbn zeta. pose proof (cut_back_spec (fun c => c =? 10) s 3400) as [Ha Hb].
  pose proof (cut_back_spec (fun c => negb (Z.land c 0xC0 =? 0x80)) s 3400) as [Hc Hd].
  set (a := cut_back _ s 3400) in *. set (c := cut_back (fun c => negb _) s 3400) in *. clearbody a c.
  set (k := if (a =? 0)%nat then c else a).
  assert (Hk : (k <= 3400)%nat) by (unfold k; by destruct (a =? 0)%nat).
  split; [|split; [lia|]].
  - unfold zlen. rewrite length_app, length_take. change (length ([10] ++ _)) with 20%nat. lia.
  - intros _. exists k. split; [done|]. split; [done|]. unfold k. destruct (a =? 0)%nat eqn:Ea.
    + destruct Hd as [?|Hd]; [by left|]. right. right. lia.
    + destruct Hb as [?|Hb]; [lia|]. right. left. lia.
Qed.
