(* ===== verification/Resolve.v ===== *)
(** * Settling an approval: src/resolve.c and the approval sweeps of src/sweep.c

    A decision is a compare-and-swap on the row; what follows depends on whether the
    turn is still waiting for it.  In the window the frozen call is released, answered
    or its document applied; after it the outcome becomes an inbox row.  Automatic
    decisions taken while the call is claimed are deferred until it is released.

    [run_advance] is the parameter the last step of each path calls; the appliers of
    configuration documents are the argument [apply_doc], which says what they leave
    in the tables of the trust decisions. *)
From S2P Require Import Prelude CString Libc Json1 Config Store Approval.

(** ** Standing grants: src/agent_config.c *)
Definition live (now : Z) (g : GrantRow) : bool := match g_expires g with Some e => now <? e | None => true end.

Definition is_grant (agent kind value : cstring) (g : GrantRow) : bool :=
  streq (g_agent g) agent && streq (g_kind g) kind && streq (g_value g) value.

Definition grants_contains (w : World) (agent kind value : option cstring) : bool :=
  match agent, kind, value with
  | Some a, Some k, Some v =>
      existsb (fun g => is_grant a k v g && live (t_now (w_store w)) g) (w_grants w)
  | _, _, _ => false
  end.

Definition agent_tool_mode (w : World) (agent tool : option cstring) : ToolApprovalMode :=
  match agent, tool with
  | Some a, Some v =>
      match List.find (fun g => is_grant a (bs "tool") v g && live (t_now (w_store w)) g) (w_grants w) with
      | Some g => g_mode g
      | None => TOOL_MODE_SILENT
      end
  | _, _ => TOOL_MODE_SILENT
  end.

Definition with_mode (m : ToolApprovalMode) (g : GrantRow) : GrantRow :=
  mk_grant (g_agent g) (g_kind g) (g_value g) m (g_expires g).

(** The upsert of the standing mode. *)
Definition agent_config_set_tool_mode (w : World) (agent tool : option cstring) (m : ToolApprovalMode) : World :=
  match agent, tool with
  | Some a, Some v =>
      with_grants
        (if existsb (is_grant a (bs "tool") v) (w_grants w)
         then map (fun g => if is_grant a (bs "tool") v g then with_mode m g else g) (w_grants w)
         else w_grants w ++ [mk_grant a (bs "tool") v m None]) w
  | _, _ => w
  end.

(** ** Outside the model *)

(** What an applied document leaves in the tables: sessions are only added. *)
Record Applied := mk_applied {
  ap_failed : bool; ap_detail : option cstring; ap_config : list ConfigRow; ap_grants : list GrantRow;
  ap_secret_hosts : list (cstring * cstring); ap_pins : list (cstring * cstring * Z);
  ap_models : list (cstring * cstring * option cstring); ap_channels : list (cstring * cstring);
  ap_sessions : list XSession
}.

(** [p_exe]: what [readlink] gives for the running binary; [p_fork]: whether fork
    succeeds; [p_tty]: whether stdin is a terminal; [p_summary]: the rendered card. *)
Record Process := mk_process_env {
  p_instance : cstring; p_daemon : bool; p_auto_approve : bool; p_tty : bool;
  p_agents_dir : option cstring; p_exe : option cstring; p_fork : bool;
  p_summary : World -> ApprovalRow -> option cstring;
  p_apply : World -> ApprovalRow -> option cstring -> Z -> Applied
}.

(** Whether the statements that swap an approval's state or insert one ran. *)
Record Writes := mk_writes { wr_create : bool; wr_resolve : bool; wr_consume : bool }.

(** A prompt in the outbox. *)
Record Card := mk_card {
  cd_channel : cstring; cd_session : Z; cd_to : cstring; cd_text : cstring; cd_keyboard : cstring; cd_to_user : bool
}.

Section Resolve.
Context {J : Json1}.
Variable getenv secret_system : cstring -> option cstring.
Variable env : Process.
Variable run_advance : World -> Z -> World.

Definition session_get_agent_name (t : Store) (sid : Z) : option cstring :=
  match get_session t sid with Some s => x_agent s | None => None end.

Definition set_state (w : World) (sid : Z) (s : SState) : World :=
  on_store (fun t => snd (session_set_state (p_instance env) t sid s)) w.

(** ** Applying a document *)
Definition put_applied (w : World) (r : Applied) : World :=
  mk_world (with_sessions (t_sessions (w_store w) ++ ap_sessions r) (w_store w)) (ap_config r) (ap_grants r)
    (w_sensitive w) (ap_secret_hosts r) (w_filters w) (ap_pins r) (ap_models r) (ap_channels r) (w_deferred w).

Definition live_jobs (t : Store) : Z :=
  zlen (List.filter (fun c => bool_decide (c_status c = CallBackground) &&
                              match c_resolved_by c with
                              | Some i => existsb (fun p => streq (pr_id p) i) (t_processes t)
                              | None => false
                              end) (t_calls t)).

(** [install_update]: refused while a live instance owns a running job. *)
Definition apply_update (w : World) (a : ApprovalRow) : bool * option cstring :=
  let n := live_jobs (w_store w) in
  if 0 <? n then
    (true, Some (snprintf 192 (print_int n ++ bs " background job(s) are still running and would be killed by the restart " ++
                               EM_DASH ++ bs " wait for them to finish or cancel them, then re-request")))
  else match tool_args_str (a_args a) (bs "tag"), p_exe env with
       | Some ((_ :: _) as tag), Some (_ :: _) =>
           if p_fork env then
             (false, Some (snprintf 192 (bs "update to " ++ tag ++ bs " launched " ++ EM_DASH ++
                bs " the schema handshake may still refuse it; the daemon restarts only if update.restart_command is configured")))
           else (true, None)
       | _, _ => (true, None)
       end.

Definition created_text (name dir : cstring) : cstring :=
  snprintf 4192 (bs "agent " ++ name ++ bs " created; its workspace is " ++ dir ++ bs "/" ++ name ++
                 bs "/workspace (search_config lists the roster)").

Definition apply_grant (w : World) (a : ApprovalRow) (agent : option cstring) (expires : Z)
    : bool * option cstring * World :=
  match a_tool a with
  | None => (false, None, w)
  | Some tool =>
      let r := p_apply env w a agent expires in
      let w' := put_applied w r in
      if streq tool (bs "request_config") then (ap_failed r, ap_detail r, w')
      else if streq tool (bs "extension_promote") then
        match tool_args_str (a_args a) (bs "bundle") with
        | Some _ => (ap_failed r, None, w')
        | None => (true, None, w)
        end
      else if streq tool (bs "create_agent") then
        (ap_failed r,
         match ap_failed r, tool_args_str (a_args a) (bs "name"), p_agents_dir env with
         | false, Some name, Some dir => Some (created_text name dir)
         | _, _, _ => None
         end, w')
      else if streq tool (bs "update_agent") then (ap_failed r, None, w')
      else if streq tool (bs "install_update") then let (f, d) := apply_update w a in (f, d, w)
      else if streq tool (bs "cron_set") then (ap_failed r, None, w')
      else (false, None, w)
  end.

(** ** In the window or after it *)

(** The status of the newest row of the call, and the session's state. *)
Definition approval_is_post_window (t : Store) (sid : Z) (call : option cstring) : bool :=
  let status := match call with
                | Some c => option_map c_status (last (List.filter (is_call sid c) (t_calls t)))
                | None => None
                end in
  let state := option_map x_state (get_session t sid) in
  negb (bool_decide (status = Some CallPending)) || negb (bool_decide (state = Some AwaitingApproval)).

Definition resolve_approval_post_window (w : World) (a : ApprovalRow) (agent : option cstring)
    (d : ApprovalDecision) (via : cstring) (expires : Z) : World :=
  let expired := streq via (bs "auto:expired") in
  if streq (a_resolve a) (bs "apply") then
    match d with
    | APPROVAL_ALWAYS =>
        let '(failed, detail, w) := apply_grant w a agent expires in
        approval_deliver_postwindow w a (if failed then PW_APPLY_FAILED else PW_APPLY_GRANTED) detail
    | _ => approval_deliver_postwindow w a (if expired then PW_EXPIRED else PW_APPLY_DENIED) None
    end
  else match d with
       | APPROVAL_DENY => approval_deliver_postwindow w a (if expired then PW_EXPIRED else PW_RERUN_DENIED) None
       | _ => approval_deliver_postwindow w a PW_RERUN_APPROVED None
       end.

(** ** Answers to the frozen call *)
Definition tool_of (a : ApprovalRow) : cstring := default (bs "(null)") (a_tool a).

(** The tool result and the closed call. *)
Definition answer (w : World) (a : ApprovalRow) (content : cstring) (is_error : bool) (via : cstring) : World :=
  match a_call a with
  | None => w
  | Some call =>
      on_store (fun t =>
        let (_, t) := append_tool_result t (a_session a) call content (tool_of a) is_error 0 in
        snd (db_tool_call_set_status t (a_session a) call CallDone (Some via))) w
  end.

Definition rerun_denied_text (w : World) (a : ApprovalRow) (via : cstring) : cstring :=
  let state := approval_state_restatement w a 256 in
  snprintf 768
    (if streq via (bs "auto:expired") then
       bs "error: approval for " ++ tool_of a ++ bs " expired without a decision " ++ EM_DASH ++
       bs " the operator may not have seen it. Not a denial " ++ EM_DASH ++
       bs " re-request only if the task still needs it, and mention that it expired. Nothing was applied. Current state: " ++ state
     else
       bs "error: " ++ tool_of a ++ bs " denied by the operator" ++ approval_decider_phrase (Some via) 128 ++
       bs ": this is a decision, not an error " ++ EM_DASH ++
       bs " do not re-request unless the operator asks. Unchanged: " ++ state).

Definition apply_text (w : World) (a : ApprovalRow) (d : ApprovalDecision) (failed : bool)
    (detail : option cstring) (via : cstring) : cstring :=
  snprintf 1024
    (if failed then
       bs "error: " ++ default (bs "apply") (a_tool a) ++ bs " was approved but applying it failed (" ++
       default (bs "see daemon log") detail ++ bs ") " ++ EM_DASH ++
       bs " everything rolled back. System error, not a denial: re-request once; if it fails again, tell the operator."
     else match d with
          | APPROVAL_ALWAYS =>
              if oeq (a_tool a) (Some (bs "extension_promote")) then
                bs "approved: extension_promote " ++ EM_DASH ++
                bs " registered; its tools are granted to you and callable immediately"
              else bs "approved: " ++ tool_of a ++ match detail with
                                                   | Some x => bs " " ++ EM_DASH ++ bs " " ++ x
                                                   | None => []
                                                   end
          | _ =>
              bs "denied by the operator" ++ approval_decider_phrase (Some via) 128 ++
              bs ": this is a decision, not an error " ++ EM_DASH ++
              bs " do not re-request unless the operator asks. Unchanged: " ++ approval_state_restatement w a 256
          end).

(** The common end: the turn runs again. *)
Definition resume (w : World) (sid : Z) : World :=
  run_advance (on_store (wake sid) (set_state w sid ToolRunning)) sid.

(** What the decision does in the window, up to [resume]. *)
Definition resolve_rerun (w : World) (a : ApprovalRow) (agent : option cstring) (d : ApprovalDecision)
    (via : cstring) : World :=
  match d with
  | APPROVAL_DENY => answer w a (rerun_denied_text w a via) true via
  | APPROVAL_ALWAYS =>
      match agent with
      | Some _ => if approval_is_sensitive a then w
                  else agent_config_set_tool_mode w agent (a_tool a) TOOL_MODE_SILENT
      | None => w
      end
  | APPROVAL_ONCE => w
  end.

Definition resolve_apply (w : World) (a : ApprovalRow) (agent : option cstring) (d : ApprovalDecision)
    (via : cstring) (expires : Z) : World :=
  match d with
  | APPROVAL_ONCE => answer w a (snprintf 256 (bs "error: once-approval invalid for " ++ tool_of a)) true via
  | _ =>
      let '(failed, detail, w) :=
        match d with APPROVAL_ALWAYS => apply_grant w a agent expires | _ => (false, None, w) end in
      answer w a (apply_text w a d failed detail via) (bool_decide (d = APPROVAL_DENY) || failed) via
  end.

(** The settled row and the store of the swap, before anything acts on it. *)
Definition settle (wr : Writes) (w : World) (id : Z) (d : ApprovalDecision) (via : cstring)
    : option ApprovalRow * World :=
  let approved := negb (bool_decide (d = APPROVAL_DENY)) in
  let (r, t) := approval_resolve (wr_resolve wr) (w_store w) id approved (Some via) in
  let w := on_store (fun _ => t) w in
  match r with
  | Some a => (r, if approved && streq (a_resolve a) (bs "apply")
                  then on_store (fun t => snd (approval_consume (wr_consume wr) t (a_id a))) w else w)
  | None => (None, w)
  end.

Definition resolve_approval (wr : Writes) (w : World) (id : Z) (d : ApprovalDecision) (via : cstring)
    (expires : Z) : World :=
  match settle wr w id d via with
  | (None, w) => w
  | (Some a, w) =>
      let sid := a_session a in
      let agent := session_get_agent_name (w_store w) sid in
      if approval_is_post_window (w_store w) sid (a_call a) then
        on_store (wake sid) (resolve_approval_post_window w a agent d via expires)
      else if streq (a_resolve a) (bs "rerun") then resume (resolve_rerun w a agent d via) sid
      else resume (resolve_apply w a agent d via expires) sid
  end.

(** ** Deferred decisions *)
Definition approval_defer_decision (w : World) (id : Z) (d : ApprovalDecision) (via : cstring) (expires : Z)
    : World :=
  with_deferred (Some (id, d, snprintf 24 via, expires)) w.

Definition approval_flush_deferred (wr : Writes) (w : World) : World :=
  match w_deferred w with
  | Some (id, d, via, expires) => resolve_approval wr (with_deferred None w) id d via expires
  | None => w
  end.

(** ** The prompt *)
Definition channel_setting (channels : list (cstring * cstring)) (config : list ConfigRow) (channel key : cstring) : option cstring :=
  let ext := match List.find (fun c => streq (fst c) channel) channels with
             | Some (_, e) => snprintf 128 e
             | None => []
             end in
  match ext with
  | [] => None
  | _ => config_get getenv secret_system config (snprintf 192 (ext ++ bs "." ++ key))
  end.

Definition channel_config_get (w : World) : cstring -> cstring -> option cstring := channel_setting (w_channels w) (w_config w).

Definition button (text : string) (id : Z) (choice : string) : cstring :=
  bs "{" ++ json_name "text" ++ bs ":" ++ json_name text ++ bs "," ++ json_name "callback_data" ++ bs ":" ++
  [34] ++ bs "appr:" ++ print_int id ++ bs ":" ++ bs choice ++ [34] ++ bs "}".

(** The decisions a card offers are those [resolve_approval] can carry out. *)
Definition keyboard (a : ApprovalRow) : cstring :=
  let id := a_id a in
  snprintf 320
    (bs "[[" ++
     (if streq (a_resolve a) (bs "apply") then button "Grant" id "yes" ++ bs "," ++ button "Deny" id "no"
      else if approval_is_sensitive a then button "Allow once" id "once" ++ bs "," ++ button "Deny" id "no"
      else button "Always allow" id "yes" ++ bs "," ++ button "Once" id "once" ++ bs "," ++ button "Deny" id "no") ++
     bs "]]").

Definition prompt_text (w : World) (a : ApprovalRow) (sid : Z) (channel : cstring) : cstring :=
  bs "**Approval #" ++ print_int (a_id a) ++ bs "** " ++ EM_DASH ++ bs " agent " ++
  default (bs "?") (session_get_agent_name (w_store w) sid) ++ bs " (session " ++ print_int sid ++
  bs ", channel " ++ channel ++ bs "):" ++ [10] ++ default (bs "?") (p_summary env w a).

Definition CHANNEL_ADMIN_IDS_MAX : nat := 32.

Definition park_row (w : World) (sid : Z) (call : option cstring) : option ApprovalRow :=
  let mine := match call with
              | Some c => if p_daemon env then
                            match approval_get_for_tool_call (w_store w) sid c with
                            | Some a => if is_pending a then Some a else None
                            | None => None
                            end
                          else None
              | None => None
              end in
  match mine with Some a => Some a | None => approval_get_pending (w_store w) sid end.

Definition handle_approval_park (w : World) (sid : Z) (call : option cstring) : World * list Card :=
  match park_row w sid call with
  | None => (w, [])
  | Some a =>
      let deny := (approval_defer_decision w (a_id a) APPROVAL_DENY (bs "auto:no-approver") 0, []) in
      if negb (p_daemon env) then
        if p_auto_approve env then
          if streq (a_resolve a) (bs "apply") then
            (approval_defer_decision w (a_id a) APPROVAL_ALWAYS (bs "cli:auto-approve")
               (t_now (w_store w) + approval_timeout_seconds getenv secret_system (w_config w)), [])
          else (approval_defer_decision w (a_id a) APPROVAL_ONCE (bs "cli:auto-approve") 0, [])
        else if negb (p_tty env) then deny
        else (w, [])                       (* the prompt on the terminal *)
      else
        match get_session (w_store w) sid with
        | Some (mk_xsession _ _ _ _ _ _ (Some ((_ :: _) as ch)) chat _ _) =>
            let ch := snprintf 64 ch in
            let chat := snprintf 64 (default (bs "0") chat) in
            let text := prompt_text w a sid ch in
            (w, match channel_config_get w ch (bs "admin_ids") with
                | Some ((_ :: _) as admins) =>
                    map (fun id => mk_card ch sid id text (keyboard a) true)
                      (split_and_trim (Some admins) CHANNEL_ADMIN_IDS_MAX)
                | _ => [mk_card ch sid chat text (keyboard a) false]
                end)
        | _ => deny
        end
  end.

(** ** The sweeps *)

(** The parked invariant the unpark re-checks inside its transaction. *)
Definition unpark_row (t : Store) (id : Z) : option (ApprovalRow * cstring) :=
  match List.find (fun a => (a_id a =? id) && is_pending a) (t_approvals t) with
  | Some a =>
      match get_session t (a_session a), a_call a with
      | Some s, Some c =>
          if bool_decide (x_state s = AwaitingApproval) &&
             existsb (fun r => is_call (a_session a) c r && bool_decide (c_status r = CallPending)) (t_calls t)
          then Some (a, c) else None
      | _, _ => None
      end
  | None => None
  end.

(** [io]: whether BEGIN and whether COMMIT succeeded. *)
Definition approval_unpark_block_window (io : bool * bool) (w : World) (id : Z) : World :=
  if negb (fst io) then w
  else match unpark_row (w_store w) id with
       | None => w
       | Some (a, c) =>
           let sid := a_session a in
           let call := snprintf 128 c in
           let (_, t) := append_tool_result (w_store w) sid call (approval_background_notice id 512)
                           (snprintf 128 (default [] (a_tool a))) false 0 in
           let (ok1, t) := db_tool_call_set_status t sid call CallDone (Some (bs "block_window")) in
           let (ok2, t) := session_set_state (p_instance env) t sid ToolRunning in
           if ok1 && ok2 && snd io then run_advance (on_store (wake sid) (on_store (fun _ => t) w)) sid else w
       end.

Definition approval_sweep_expired (wr : Writes) (w : World) : World :=
  fold_left (fun w id => resolve_approval wr w id APPROVAL_DENY (bs "auto:expired") 0)
    (approval_list_expired (w_store w) (p_instance env)) w.

Definition approval_sweep_block_window (io : Z -> bool * bool) (w : World) : World :=
  fold_left (fun w id => approval_unpark_block_window (io id) w id)
    (approval_list_block_due (w_store w) (approval_block_seconds getenv secret_system (w_config w)) (p_instance env)) w.
End Resolve.
