(* ===== verification/Gate.v ===== *)
(** * The dispatch gate: dispatch_gate and call_egress_build of src/dispatch.c

    What stands between a tool call of the model and its run: the grant, the
    session's tool filter, the arguments, the policy, the hook, the sensitive hosts,
    the bindings of the secrets the call uses, and the approval.  The hook runs in
    the JavaScript engine; its verdict is an argument. *)
From S2P Require Import Prelude CString Libc HostMatch SecretInterp Json1 Config Store ToolPolicy Approval Resolve.

(** ** The call *)
Record PendingToolCall := mk_pc { pc_call : cstring; pc_name : cstring; pc_args : option cstring; pc_iter : Z; pc_entry : Z }.

Inductive HookGate := HOOK_GATE_ALLOW | HOOK_GATE_ASK | HOOK_GATE_DENY.
#[export] Instance HookGate_eq_dec : EqDecision HookGate.
Proof. solve_decision. Defined.

Definition gate_rank (g : HookGate) : Z :=
  match g with HOOK_GATE_ALLOW => 0 | HOOK_GATE_ASK => 1 | HOOK_GATE_DENY => 2 end.

(** The tool entry's policy and tier, the hook's verdict and reason (when tools are
    set up), the secrets loaded. *)
Record CallEnv := mk_cenv {
  ce_policy : option cstring; ce_web : bool; ce_hook : option (HookGate * option cstring); ce_secrets : list ShellSecret
}.

(** [Proceed by once host]: the call runs; [by] is the approval that let it through,
    [once] and [host] the per-call exception for a sensitive host. *)
Inductive GateResult := Proceed (by_ : option Z) (once : bool) (host : cstring) | Handled | Parked.

Definition HOST_CAP : nat := 254.

Section Gate.
Context {J : Json1}.
Variable alloc : Z -> bool.
Variable getenv secret_system : cstring -> option cstring.
Variable env : Process.
Abbreviation config_get_int := (config_get_int getenv secret_system).

(** ** Scope of the session: src/db.c *)
Definition value_is (name : cstring) (v : Json) : bool := is_text name v.

Definition session_tool_allowed (w : World) (sid : Z) (tool : cstring) : bool :=
  match get_session (w_store w) sid with
  | None => false
  | Some _ =>
      match List.find (fun f => fst f =? sid) (w_filters w) with
      | None => true
      | Some (_, filter) =>
          match json_doc filter with
          | Some (JArr l) => existsb (value_is tool) l
          | Some (JObj kvs) => existsb (fun kv => value_is tool (snd kv)) kvs
          | Some v => value_is tool v
          | None => false
          end
      end
  end.

Definition labels (hosts : list cstring) : option (list (option cstring)) :=
  match hosts with [] => None | _ => Some (map Some hosts) end.

Definition db_secret_hosts (w : World) (secret : cstring) : list cstring :=
  map snd (List.filter (fun r => streq (fst r) secret) (w_secret_hosts w)).

Definition used_names (args : option cstring) (secrets : list ShellSecret) : list cstring :=
  default [] (used_secret_names alloc args secrets).

(** ** Answering the call inline *)
Definition inline_answer (w : World) (sid : Z) (tc : PendingToolCall) (msg : cstring) (is_error : bool)
    (detail : option cstring) : World :=
  on_store (fun t =>
    let (_, t) := append_tool_result t sid (pc_call tc) msg (pc_name tc) is_error (pc_iter tc) in
    snd (db_tool_call_set_status t sid (pc_call tc) CallDone detail)) w.

Definition inline_result (w : World) (sid : Z) (tc : PendingToolCall) (msg : cstring) (is_error : bool)
    (detail : cstring) : World := inline_answer w sid tc msg is_error (Some detail).

Definition tool_inline_error (w : World) (sid : Z) (tc : PendingToolCall) (msg : cstring) (detail : cstring)
    : GateResult * World * list Card :=
  (Handled, inline_result w sid tc msg true detail, []).

(** ** The sensitive host of the call, if any *)
Definition sensitive_host (w : World) (args : option cstring) : option cstring :=
  match labels (w_sensitive w) with
  | None => None
  | Some ls =>
      match host_in_text (Some ls) args with
      | Some h => Some (out_host h HOST_CAP)
      | None =>
          match web_args_url_host args HOST_CAP with
          | Some uh =>
              let uh := url_host_normalize (Some uh) HOST_CAP in
              if host_covered (Some ls) uh then option_map (snprintf HOST_CAP) uh else None
          | None => None
          end
      end
  end.

(** ** The first credential the call may not use *)
Definition unbound_secret (w : World) (web : bool) (args : option cstring) (secrets : list ShellSecret)
    : option cstring :=
  let url := if web then web_args_url_host args HOST_CAP else None in
  let err name :=
    match db_secret_hosts w name with
    | [] => Some (snprintf 1024
              (bs "error: secret " ++ take 63 name ++ bs " has no host binding " ++ EM_DASH ++
               bs " request one with request_config (secret_bindings: {" ++ [34] ++ take 63 name ++ [34] ++ bs ": [" ++
               [34] ++ take 253 (default (bs "<host it needs>") url) ++ [34] ++ bs "]}), then re-issue this call"))
    | hosts =>
        match url with
        | Some u =>
            if host_covered (labels hosts) (Some u) then None
            else Some (snprintf 1024
                   (bs "error: secret " ++ take 63 name ++ bs " is not bound to " ++ take 253 u ++ bs " " ++ EM_DASH ++
                    bs " request the binding with request_config (secret_bindings: {" ++ [34] ++ take 63 name ++ [34] ++
                    bs ": [" ++ [34] ++ take 253 u ++ [34] ++ bs "]}), then re-issue this call"))
        | None => None
        end
    end in
  hd None (List.filter (fun e => match e with Some _ => true | None => false end)
             (map err (used_names args secrets))).

(** ** The approval *)
Definition pending_cap (w : World) : Z :=
  let cap := config_get_int (w_config w) (bs "approval_max_pending") in
  if cap <=? 0 then config_default_int (bs "approval_max_pending") else cap.

(** The park, once a pending row of the call exists. *)
Definition park (w : World) (sid : Z) (tc : PendingToolCall) : GateResult * World * list Card :=
  let w := set_state env w sid AwaitingApproval in
  let (w, cards) := handle_approval_park getenv secret_system env w sid (Some (pc_call tc)) in
  if p_daemon env && (approval_block_seconds_for_session getenv secret_system w sid =? 0) then
    match approval_get_for_tool_call (w_store w) sid (pc_call tc) with
    | Some bg =>
        if is_pending bg then
          (Handled, inline_result (set_state env w sid ToolRunning) sid tc
                      (approval_background_notice (a_id bg) 256) false (bs "approval:background"), cards)
        else (Parked, w, cards)
    | None => (Parked, w, cards)
    end
  else (Parked, w, cards).

(** A call that is neither approved nor pending: refused as a duplicate, refused at
    the cap, or parked as a new request. *)
Definition park_new (wr : Writes) (w : World) (sid : Z) (tc : PendingToolCall) (why : cstring)
    : GateResult * World * list Card :=
  match approval_find_pending_match (w_store w) sid (Some why) (Some (pc_name tc)) (pc_args tc) with
  | Some dup =>
      tool_inline_error w sid tc
        (snprintf 256 (bs "error: " ++ pc_name tc ++ bs " needs approval and a matching request is already parked as approval #" ++
           print_int (a_id dup) ++ bs " " ++ EM_DASH ++
           bs " do not re-issue this call or a variant; you'll be notified when it's decided")) (bs "approval:dup")
  | None =>
      let (npend, idlist) := approval_pending_ids (w_store w) sid 96 in
      if pending_cap w <=? npend then
        tool_inline_error w sid tc
          (snprintf 256 (bs "error: " ++ print_int npend ++ bs " approvals already pending (" ++ idlist ++ bs ") " ++ EM_DASH ++
             bs " no more will be requested; wait for those decisions or work on something that doesn't need approval"))
          (bs "approval:cap")
      else
        park (on_store (fun t => snd (approval_create (wr_create wr) t
                (approval_timeout_seconds getenv secret_system (w_config w)) sid (Some (pc_call tc))
                (Some (pc_name tc)) (Some why) (pc_args tc) (Some (bs "rerun")))) w) sid tc
  end.

(** Why the call parks: a sensitive park and an ordinary one never match. *)
Definition park_why (sens : option cstring) : cstring :=
  match sens with Some _ => APPROVAL_PARK_SENSITIVE | None => APPROVAL_PARK_REQUIRED end.

Definition is_some {A} (o : option A) : bool := match o with Some _ => true | None => false end.

(** The ticket of an earlier approval; a sensitive call never takes one. *)
Definition try_ticket (wr : Writes) (w : World) (sid : Z) (tc : PendingToolCall) (sens : option cstring)
    : option Z * World :=
  if is_some sens then (None, w)
  else let (tk, t) := approval_take_ticket (wr_consume wr) (w_store w) sid (Some (park_why sens))
                        (Some (pc_name tc)) (pc_args tc) in
       (tk, on_store (fun _ => t) w).

Definition approval_gate (wr : Writes) (w : World) (sid : Z) (tc : PendingToolCall) (sens : option cstring)
    : GateResult * World * list Card :=
  let host := default [] sens in
  let unapproved :=
    match try_ticket wr w sid tc sens with
    | (Some tk, w) => (Proceed (Some tk) (is_some sens) host, w, [])
    | (None, w) => park_new wr w sid tc (park_why sens)
    end in
  match approval_get_for_tool_call (w_store w) sid (pc_call tc) with
  | Some ap =>
      match a_state ap with
      | ApDenied =>
          tool_inline_error w sid tc (snprintf 128 (bs "error: " ++ pc_name tc ++ bs " denied by user")) (bs "denied")
      | ApApproved =>
          (* the result of the consume is not looked at *)
          (Proceed (Some (a_id ap)) (is_some sens) host,
           on_store (fun t => snd (approval_consume (wr_consume wr) t (a_id ap))) w, [])
      | ApPending => park w sid tc
      | ApConsumed => unapproved
      end
  | None => unapproved
  end.

(** ** The gate *)
Definition raise_to (g h : HookGate) : HookGate := if gate_rank g <? gate_rank h then h else g.

Definition policy_effect (ce : CallEnv) (tc : PendingToolCall) : PolicyEffect :=
  match ce_policy ce with Some p => policy_eval (pc_args tc) (Some p) | None => POLICY_ALLOW end.

(** The mode of the grant, raised by the policy and by the hook. *)
Definition asked (ce : CallEnv) (w : World) (agent : option cstring) (tc : PendingToolCall) : HookGate :=
  let gate := match agent_tool_mode w agent (Some (pc_name tc)) with
              | TOOL_MODE_SILENT => HOOK_GATE_ALLOW
              | _ => HOOK_GATE_ASK
              end in
  let gate := match policy_effect ce tc with POLICY_ASK => raise_to gate HOOK_GATE_ASK | _ => gate end in
  match ce_hook ce with Some (h, _) => raise_to gate h | None => gate end.

(** The hook's reason follows the refusal. *)
Definition hook_reason (ce : CallEnv) : cstring :=
  match ce_hook ce with Some (_, Some r) => bs ": " ++ r | _ => [] end.

Definition dispatch_gate (wr : Writes) (ce : CallEnv) (w : World) (sid : Z) (agent : option cstring)
    (tc : PendingToolCall) : GateResult * World * list Card :=
  let name := pc_name tc in
  if negb (grants_contains w agent (Some (bs "tool")) (Some name)) then
    tool_inline_error w sid tc
      (snprintf 160 (bs "error: " ++ name ++ bs " not granted " ++ EM_DASH ++ bs " request it with request_config"))
      (bs "not_granted")
  else if negb (session_tool_allowed w sid name) then
    tool_inline_error w sid tc
      (snprintf 288 (bs "error: " ++ name ++ bs " blocked by this session's tool filter (this session was spawned with a narrowed toolset; the spawner can pass tools:[...] within its own grants)"))
      (bs "tool_filter")
  else if negb (tool_args_valid_object (pc_args tc)) then
    tool_inline_error w sid tc
      (snprintf 160 (bs "error: " ++ name ++ bs ": arguments are not a valid JSON object " ++ EM_DASH ++
         bs " retry the call with well-formed JSON")) (bs "bad_args")
  else if bool_decide (policy_effect ce tc = POLICY_ERROR) then
    tool_inline_error w sid tc
      (snprintf 160 (bs "error: " ++ name ++ bs " blocked " ++ EM_DASH ++
         bs " its policy is unparseable; report this to the operator")) (bs "policy:error")
  else if bool_decide (policy_effect ce tc = POLICY_DENY) then
    tool_inline_error w sid tc (snprintf 128 (bs "error: " ++ name ++ bs " denied by policy")) (bs "policy:deny")
  else if bool_decide (asked ce w agent tc = HOOK_GATE_DENY) then
    tool_inline_error w sid tc (snprintf 256 (bs "error: " ++ name ++ bs " blocked by hook" ++ hook_reason ce))
      (bs "hook:deny")
  else
    let sens := sensitive_host w (pc_args tc) in
    match unbound_secret w (ce_web ce) (pc_args tc) (ce_secrets ce) with
    | Some err => tool_inline_error w sid tc err (bs "secret:unbound")
    | None =>
        if bool_decide (asked ce w agent tc = HOOK_GATE_ASK) || is_some sens
        then approval_gate wr w sid tc sens
        else (Proceed None false [], w, [])
    end.

(** ** Egress of one call *)
Record CallEgress := mk_egress {
  eg_deny : list cstring; eg_narrowed : bool; eg_note : option cstring; eg_hosts : list cstring
}.

(** The union of the bound hosts: [grow cap] says whether the array could be
    enlarged; a host that finds no room is dropped. *)
Definition push_host (grow : Z -> bool) (acc : list cstring * Z) (h : cstring) : list cstring * Z :=
  let '(u, cap) := acc in
  if existsb (fun x => ascii_strcasecmp x h =? 0) u then acc
  else if zlen u =? cap then
    let nc := if cap =? 0 then 4 else cap * 2 in
    if grow nc then (u ++ [h], nc) else acc
  else (u ++ [h], cap).

Definition bound_hosts (grow : Z -> bool) (w : World) (names : list cstring) : list cstring :=
  fst (fold_left (push_host grow) (flat_map (db_secret_hosts w) names) ([], 0)).

Fixpoint note_items (w : World) (first : bool) (names : list cstring) : cstring :=
  match names with
  | [] => []
  | n :: names' =>
      (if first then [] else bs "; ") ++ n ++ bs " ->" ++
      match db_secret_hosts w n with
      | [] => bs " none"
      | hs => flat_map (fun h => bs " " ++ h) hs
      end ++ note_items w false names'
  end.

Definition egress_note (w : World) (names : list cstring) : cstring :=
  bs "this call ran narrowed to its secrets' bound hosts (" ++ note_items w true names ++ bs ") " ++ EM_DASH ++
  bs " a blocked host means that secret lacks a binding for it; request the pair via request_config (secret_bindings), then re-issue".

(** [declared]: the hosts of the tool's manifest (db_tool_declared_hosts), none for
    a builtin; [grow] and [ext] are the outcomes of the allocations. *)
Definition call_egress_build (grow : Z -> bool) (ext : bool) (w : World) (args exception_ : option cstring)
    (declared : option (list cstring)) (base : list cstring) (secrets : list ShellSecret) : CallEgress :=
  let exception_ := match exception_ with Some ((_ :: _) as e) => Some e | _ => None end in
  let deny := match exception_ with
              | Some e => List.filter (fun l => negb (host_covered (Some [Some l]) (Some e))) (w_sensitive w)
              | None => w_sensitive w
              end in
  let names := match args with Some _ => used_names args secrets | None => [] end in
  let hosts := match names with
               | [] => default base declared
               | _ => bound_hosts grow w names
               end in
  mk_egress deny (match names with [] => false | _ => true end)
    (match names with [] => None | _ => Some (egress_note w names) end)
    (match exception_ with Some e => if ext then hosts ++ [e] else hosts | None => hosts end).
End Gate.
