(* ===== verification/Trust.v ===== *)
(** * What the gate and the approvals guarantee

    A call that proceeds had every authority the gate asks for; an approval is spent
    at most once and only after a decision for it, under any interleaving of gates,
    decisions, sweeps and parks; a decision acts once, and grants nothing standing for
    a sensitive target; a call that carries secrets reaches the hosts they are bound
    to. *)
From S2P Require Import Prelude CString Libc HostMatch SecretInterp Json1 Config Store ToolPolicy Approval Resolve Gate.

(** ** The approvals table under the operations *)
Definition ap (w : World) : list ApprovalRow := t_approvals (w_store w).

Lemma ap_on_store f w : (forall t, t_approvals (f t) = t_approvals t) -> ap (on_store f w) = ap w.
Proof. intros H. apply H. Qed.

Lemma insert_entry_approvals t sid parent it ty role c call tool err stop src note :
  t_approvals (snd (insert_entry t sid parent it ty role c call tool err stop src note)) = t_approvals t.
Proof. unfold insert_entry. by case_decide. Qed.

Lemma append_tool_result_approvals t sid call c tool err it :
  t_approvals (snd (append_tool_result t sid call c tool err it)) = t_approvals t.
Proof. apply insert_entry_approvals. Qed.

Lemma set_state_approvals inst t sid s : t_approvals (snd (session_set_state inst t sid s)) = t_approvals t.
Proof. unfold session_set_state. destruct (get_session t sid); [by destruct (may_enter _ _)|done]. Qed.

Section Frames.
Context {J : Json1} (getenv sec : cstring -> option cstring) (env : Process).

Lemma inline_ap w sid tc msg err detail : ap (inline_result w sid tc msg err detail) = ap w.
Proof.
  unfold inline_result, inline_answer. apply ap_on_store. intros t.
  pose proof (append_tool_result_approvals t sid (pc_call tc) msg (pc_name tc) err (pc_iter tc)) as H.
  by destruct (append_tool_result _ _ _ _ _ _ _).
Qed.

Lemma set_state_ap w sid s : ap (set_state env w sid s) = ap w.
Proof. apply ap_on_store. intros t. apply set_state_approvals. Qed.

Lemma deliver_ap w a o d : ap (approval_deliver_postwindow w a o d) = ap w.
Proof. done. Qed.

Lemma set_mode_ap w agent tool m : ap (agent_config_set_tool_mode w agent tool m) = ap w.
Proof. by destruct agent, tool. Qed.

Lemma apply_grant_ap w a agent e : ap (snd (apply_grant env w a agent e)) = ap w.
Proof.
  unfold apply_grant. destruct (a_tool a); [|done]. repeat (case_match; try done).
Qed.

Lemma answer_ap w a c err via : ap (answer w a c err via) = ap w.
Proof.
  unfold answer. destruct (a_call a) as [call|]; [|done]. apply ap_on_store. intros t.
  pose proof (append_tool_result_approvals t (a_session a) call c (tool_of a) err 0) as H.
  by destruct (append_tool_result _ _ _ _ _ _ _).
Qed.

Lemma park_prompt_ap w sid call : ap (fst (handle_approval_park getenv sec env w sid call)) = ap w.
Proof. unfold handle_approval_park. repeat (case_match; try done). Qed.

Lemma post_window_ap w a agent d via e : ap (resolve_approval_post_window env w a agent d via e) = ap w.
Proof.
  unfold resolve_approval_post_window. pose proof (apply_grant_ap w a agent e) as H.
  destruct (apply_grant env w a agent e) as [[f dt] w']. by destruct (streq _ _), d.
Qed.

Lemma rerun_ap w a agent d via : ap (resolve_rerun w a agent d via) = ap w.
Proof.
  unfold resolve_rerun. destruct d; [apply answer_ap|done|]. destruct agent; [|done].
  destruct (approval_is_sensitive a); [done|apply set_mode_ap].
Qed.

Lemma apply_ap w a agent d via e : ap (resolve_apply env w a agent d via e) = ap w.
Proof.
  unfold resolve_apply. pose proof (apply_grant_ap w a agent e) as H.
  destruct (apply_grant env w a agent e) as [[f dt] w']. cbn [snd] in H.
  destruct d; rewrite answer_ap; done.
Qed.
End Frames.

(** ** The swap *)
Definition ids (l : list ApprovalRow) : list Z := map a_id l.

Definition hit (id : Z) (s : ApprovalState) (a : ApprovalRow) : bool := (a_id a =? id) && bool_decide (a_state a = s).

Lemma swap_ids t id from to via : ids (t_approvals (snd (swap_state t id from to via))) = ids (t_approvals t).
Proof.
  unfold swap_state, ids. cbn [snd t_approvals with_approvals]. rewrite map_map. apply map_ext. intros a.
  by destruct (_ && _).
Qed.

(** The rows after a swap: the hit row has the new state, every other is as it was. *)
Lemma swap_in t id from to via b :
  b ∈ t_approvals (snd (swap_state t id from to via)) <->
  exists a, a ∈ t_approvals t /\ b = if hit id from a then with_state to (via a) a else a.
Proof.
  unfold swap_state. cbn [snd t_approvals with_approvals]. rewrite list_elem_of_fmap. split.
  - intros (a & -> & Ha). by exists a.
  - intros (a & Ha & ->). by exists a.
Qed.

Lemma swap_changed t id from to via :
  fst (swap_state t id from to via) = true <-> exists a, a ∈ t_approvals t /\ a_id a = id /\ a_state a = from.
Proof.
  unfold swap_state. cbn [fst]. rewrite existsb_exists. split.
  - intros (a & Ha & Hh). exists a. apply andb_prop in Hh as [H1 H2]. apply bool_decide_eq_true in H2.
    split; [by apply list_elem_of_In|]. split; [lia|done].
  - intros (a & Ha & <- & <-). exists a. split; [by apply list_elem_of_In|].
    by rewrite Z.eqb_refl, bool_decide_true by done.
Qed.

Lemma swap_unhit t id from to via :
  fst (swap_state t id from to via) = false -> t_approvals (snd (swap_state t id from to via)) = t_approvals t.
Proof.
  unfold swap_state. cbn [fst snd t_approvals with_approvals]. intros H. rewrite <- (map_id (t_approvals t)) at 2.
  apply map_ext_in. intros a Ha. destruct (_ && _) eqn:E; [|done].
  assert (Hx : existsb (fun a => (a_id a =? id) && bool_decide (a_state a = from)) (t_approvals t) = true)
    by (apply existsb_exists; by exists a). by rewrite Hx in H.
Qed.

Lemma ids_unique l a b : NoDup (ids l) -> a ∈ l -> b ∈ l -> a_id a = a_id b -> a = b.
Proof. apply NoDup_map_inj. Qed.

(** ** What a call that proceeds had *)
Section Proceeds.
Context {J : Json1} (getenv sec : cstring -> option cstring) (env : Process).

(** The approval row that lets a call through: the newest row of this very call, or
    an ordinary, unexpired row of the session for the same tool and arguments. *)
Definition authorises (w : World) (sid : Z) (tc : PendingToolCall) (sens : bool) (a : ApprovalRow) : Prop :=
  a ∈ ap w /\ a_session a = sid /\ a_state a = ApApproved /\
  (approval_get_for_tool_call (w_store w) sid (pc_call tc) = Some a /\ a_call a = Some (pc_call tc) \/
   sens = false /\ a_tool a = Some (pc_name tc) /\ a_reason a = Some APPROVAL_PARK_REQUIRED /\
   a_resolve a = bs "rerun" /\ unexpired (w_store w) a = true /\ capability_match (a_args a) (pc_args tc) = true).

Lemma for_tool_call_in t sid call a :
  approval_get_for_tool_call t sid call = Some a -> a ∈ t_approvals t /\ a_session a = sid /\ a_call a = Some call.
Proof.
  unfold approval_get_for_tool_call. intros H%last_Some_elem_of.
  apply elem_of_filter_bool in H as [Hin H]. apply andb_prop in H as [H1 H2].
  apply bool_decide_eq_true in H2. split_all; [done|lia|done].
Qed.

Lemma match_state_in t sid st un reason tool args a :
  approval_match_state t sid st un reason tool args = Some a ->
  a ∈ t_approvals t /\ a_session a = sid /\ a_state a = st /\ a_resolve a = bs "rerun" /\ a_reason a = reason /\
  a_tool a = tool /\ (un = true -> unexpired t a = true) /\ capability_match (a_args a) args = true.
Proof.
  unfold approval_match_state. intros [Hin Hm]%List.find_some.
  apply list_elem_of_In, elem_of_take in Hin as (i & Hi & _). apply list_elem_of_lookup_2, list_elem_of_In in Hi.
  apply in_rev, filter_In in Hi as [Ha Hb]. apply list_elem_of_In in Ha.
  repeat (apply andb_prop in Hb as [Hb ?]). unfold streq, oeq in *.
  repeat match goal with H : bool_decide _ = true |- _ => apply bool_decide_eq_true in H end.
  split_all; try done; [lia|]. intros ->. done.
Qed.

Lemma take_ticket_spec ok t sid reason tool args :
  let r := approval_take_ticket ok t sid reason tool args in
  (fst r = None /\ t_approvals (snd r) = t_approvals t) \/
  exists a, fst r = Some (a_id a) /\ approval_match_state t sid ApApproved true reason tool args = Some a /\
    snd r = snd (swap_state t (a_id a) ApApproved ApConsumed a_via) /\ ok = true.
Proof.
  unfold approval_take_ticket. destruct (approval_match_state _ _ _ _ _ _ _) as [a|] eqn:E; [|by left].
  unfold approval_consume. destruct ok; [|by left].
  pose proof (swap_unhit t (a_id a) ApApproved ApConsumed a_via) as Hu.
  destruct (swap_state t (a_id a) ApApproved ApConsumed a_via) as [[|] t'] eqn:Es; cbn [fst snd] in *.
  - right. exists a. by rewrite Es.
  - left. split; [done|]. by apply Hu.
Qed.

Lemma park_not_proceed w sid tc by_ once host w' cards :
  park getenv sec env w sid tc <> (Proceed by_ once host, w', cards).
Proof. unfold park. intros H. repeat (case_match; simplify_eq/=). Qed.

Lemma park_new_not_proceed wr w sid tc why by_ once host w' cards :
  park_new getenv sec env wr w sid tc why <> (Proceed by_ once host, w', cards).
Proof.
  unfold park_new, tool_inline_error. intros H. repeat (case_match; simplify_eq/=). by apply park_not_proceed in H.
Qed.

Lemma try_ticket_spec wr w sid tc sens :
  let r := try_ticket wr w sid tc sens in
  (fst r = None /\ ap (snd r) = ap w) \/
  exists a, fst r = Some (a_id a) /\ sens = None /\ authorises w sid tc false a /\
    snd r = on_store (fun t => snd (approval_consume (wr_consume wr) t (a_id a))) w.
Proof.
  unfold try_ticket. destruct sens as [h|]; cbn [is_some]; [by left|].
  pose proof (take_ticket_spec (wr_consume wr) (w_store w) sid (Some (park_why None)) (Some (pc_name tc)) (pc_args tc)) as H.
  destruct (approval_take_ticket _ _ _ _ _ _) as [o t]. cbn [fst snd] in *.
  destruct H as [[-> Ht]|(a & -> & Hm & -> & Hok)]; [by left|].
  right. exists a. split; [done|]. split; [done|].
  apply match_state_in in Hm as (?&?&?&?&?&?&Hu&?). split.
  - unfold authorises; split_all; try done. right. split_all; try done. by apply Hu.
  - unfold approval_consume. by rewrite Hok.
Qed.

Lemma approval_gate_proceeds wr w sid tc sens by_ once host w' cards :
  approval_gate getenv sec env wr w sid tc sens = (Proceed by_ once host, w', cards) ->
  exists a, by_ = Some (a_id a) /\ once = is_some sens /\ host = default [] sens /\
    authorises w sid tc (is_some sens) a /\
    w' = on_store (fun t => snd (approval_consume (wr_consume wr) t (a_id a))) w.
Proof.
  unfold approval_gate. pose proof (try_ticket_spec wr w sid tc sens) as Ht.
  assert (Hun : (match try_ticket wr w sid tc sens with
                 | (Some tk, w) => (Proceed (Some tk) (is_some sens) (default [] sens), w, [])
                 | (None, w) => park_new getenv sec env wr w sid tc (park_why sens)
                 end) = (Proceed by_ once host, w', cards) ->
    exists a, by_ = Some (a_id a) /\ once = is_some sens /\ host = default [] sens /\
      authorises w sid tc (is_some sens) a /\
      w' = on_store (fun t => snd (approval_consume (wr_consume wr) t (a_id a))) w).
  { destruct (try_ticket wr w sid tc sens) as [[tk|] w1]; cbn [fst snd] in Ht.
    - destruct Ht as [[? _]|(a & E & -> & Ha & ->)]; [done|]. intros [= <- <- <- <- <-]. exists a. by split_all.
    - intros H. by apply park_new_not_proceed in H. }
  destruct (approval_get_for_tool_call (w_store w) sid (pc_call tc)) as [a|] eqn:Ef; [|done].
  destruct (for_tool_call_in _ _ _ _ Ef) as (Hin & Hs & Hc). destruct (a_state a) eqn:Es; [| | |done].
  - intros H. by apply park_not_proceed in H.
  - intros [= <- <- <- <- <-]. exists a. unfold authorises. split_all; try done. by left.
  - unfold tool_inline_error. intros H. congruence.
Qed.
End Proceeds.

Section GateTheorem.
Context {J : Json1} (alloc : Z -> bool) (getenv sec : cstring -> option cstring) (env : Process).

(** What an unsuspicious call had: nothing asked for a human. *)
Definition unasked (ce : CallEnv) (w : World) (agent : option cstring) (tc : PendingToolCall) : Prop :=
  agent_tool_mode w agent (Some (pc_name tc)) = TOOL_MODE_SILENT /\ policy_effect ce tc <> POLICY_ASK /\
  (forall h r, ce_hook ce = Some (h, r) -> h = HOOK_GATE_ALLOW) /\ sensitive_host w (pc_args tc) = None.

Lemma raise_to_eq g h :
  raise_to g h = match g, h with
                 | HOOK_GATE_ALLOW, _ => h
                 | HOOK_GATE_ASK, HOOK_GATE_DENY => HOOK_GATE_DENY
                 | _, _ => g
                 end.
Proof. by destruct g, h. Qed.

Lemma asked_hook ce w agent tc h r :
  ce_hook ce = Some (h, r) -> asked ce w agent tc <> HOOK_GATE_DENY -> h <> HOOK_GATE_DENY.
Proof. unfold asked. intros -> H ->. apply H. rewrite !raise_to_eq. by repeat case_match. Qed.

Lemma asked_allow ce w agent tc :
  asked ce w agent tc <> HOOK_GATE_DENY -> asked ce w agent tc <> HOOK_GATE_ASK ->
  sensitive_host w (pc_args tc) = None -> unasked ce w agent tc.
Proof.
  unfold unasked, asked. rewrite !raise_to_eq.
  destruct (agent_tool_mode _ _ _), (policy_effect ce tc), (ce_hook ce) as [[[] ?]|]; intros Hd Ha Hs;
    try done; split_all; try done; by intros ?? [=].
Qed.

Lemma unbound_none w web args secrets :
  unbound_secret alloc w web args secrets = None ->
  forall n, n ∈ used_names alloc args secrets ->
    db_secret_hosts w n <> [] /\
    forall u, web = true -> web_args_url_host args HOST_CAP = Some u ->
      host_covered (labels (db_secret_hosts w n)) (Some u) = true.
Proof.
  unfold unbound_secret. set (err := fun name : cstring => _). intros H n Hn.
  assert (He : err n = None).
  { destruct (err n) as [e|] eqn:E; [|done]. exfalso.
    assert (Hin : Some e ∈ List.filter (fun e => match e with Some _ => true | None => false end)
                            (map err (used_names alloc args secrets))).
    { apply elem_of_filter_bool. split; [|done]. apply list_elem_of_fmap. by exists n. }
    destruct (List.filter _ _) as [|x l] eqn:El; [by apply elem_of_nil in Hin|]. cbn in H. subst x.
    assert (Hx : None ∈ List.filter (fun e => match e with Some _ => true | None => false end)
                            (map err (used_names alloc args secrets))) by (rewrite El; left).
    apply elem_of_filter_bool in Hx as [_ Hx]. done. }
  unfold err in He. destruct (db_secret_hosts w n) as [|h hs]; [done|]. split; [done|].
  intros u -> Hu. rewrite Hu in He. by destruct (host_covered _ _).
Qed.

(** (C2) A call that proceeds had every authority the gate asks for: a live grant of the
    tool to the agent, the session's filter, well-formed arguments, no denial or
    error of the policy and no veto of the hook; every secret it uses is bound to
    some host and, for a web call, to the host of its url.  If nothing asked for a
    human, nothing changed; otherwise an approved row of this session let it through,
    either the row of this very call or, for a call without a sensitive target, an
    unexpired one for the same tool and arguments, and that row is consumed. *)
Theorem gate_proceeds_authorised wr ce w sid agent tc by_ once host w' cards :
  dispatch_gate alloc getenv sec env wr ce w sid agent tc = (Proceed by_ once host, w', cards) ->
  grants_contains w agent (Some (bs "tool")) (Some (pc_name tc)) = true /\
  session_tool_allowed w sid (pc_name tc) = true /\ tool_args_valid_object (pc_args tc) = true /\
  policy_effect ce tc <> POLICY_DENY /\ policy_effect ce tc <> POLICY_ERROR /\
  (forall h r, ce_hook ce = Some (h, r) -> h <> HOOK_GATE_DENY) /\
  (forall n, n ∈ used_names alloc (pc_args tc) (ce_secrets ce) ->
     db_secret_hosts w n <> [] /\
     forall u, ce_web ce = true -> web_args_url_host (pc_args tc) HOST_CAP = Some u ->
       host_covered (labels (db_secret_hosts w n)) (Some u) = true) /\
  match by_ with
  | None => w' = w /\ once = false /\ unasked ce w agent tc
  | Some id => exists a, id = a_id a /\ once = is_some (sensitive_host w (pc_args tc)) /\
      host = default [] (sensitive_host w (pc_args tc)) /\ authorises w sid tc once a /\
      w' = on_store (fun t => snd (approval_consume (wr_consume wr) t id)) w
  end.
Proof.
  unfold dispatch_gate, tool_inline_error.
  destruct (grants_contains _ _ _ _); [|by intros [=]].
  destruct (session_tool_allowed _ _ _); [|by intros [=]].
  destruct (tool_args_valid_object _); [|by intros [=]]. cbn [negb].
  case_bool_decide as He; [by intros [=]|]. case_bool_decide as Hd; [by intros [=]|].
  case_bool_decide as Hk; [by intros [=]|]. cbn zeta.
  destruct (unbound_secret _ _ _ _ _) eqn:Hu; [by intros [=]|]. intros H.
  do 5 (split; [done|]). split; [by intros h r Eh; eapply asked_hook|]. split; [by apply unbound_none|].
  case_bool_decide as Ha; [cbn [orb] in H|destruct (is_some _) eqn:Es; cbn [orb] in H].
  - apply approval_gate_proceeds in H as (a & -> & -> & -> & ? & ->). by exists a.
  - apply approval_gate_proceeds in H as (a & -> & -> & -> & ? & ->). by exists a.
  - injection H as <- <- <- <- <-. split; [done|]. split; [done|]. apply asked_allow; [done..|].
    by destruct (sensitive_host _ _).
Qed.
End GateTheorem.

(** ** An approval is spent at most once *)
Section Quiet.
Context {J : Json1} (alloc : Z -> bool) (getenv sec : cstring -> option cstring) (env : Process).

(** The table kept, or one new pending row under a fresh id. *)
Definition quiet (l l' : list ApprovalRow) : Prop :=
  l' = l \/ exists row, l' = l ++ [row] /\ a_state row = ApPending /\ a_id row = max_of (ids l) + 1.

Lemma create_quiet ok t timeout sid call tool reason args res :
  quiet (t_approvals t) (t_approvals (snd (approval_create ok t timeout sid call tool reason args res))).
Proof. unfold approval_create. destruct ok; [right; by eexists|by left]. Qed.

Lemma park_ap w sid tc : ap (snd (fst (park getenv sec env w sid tc))) = ap w.
Proof.
  unfold park. pose proof (park_prompt_ap getenv sec env (set_state env w sid AwaitingApproval) sid (Some (pc_call tc))) as H.
  destruct (handle_approval_park _ _ _ _ _ _) as [w1 cards]. cbn [fst] in H. rewrite set_state_ap in H.
  repeat case_match; cbn [fst snd]; rewrite ?inline_ap, ?set_state_ap; done.
Qed.

Lemma park_new_quiet wr w sid tc why : quiet (ap w) (ap (snd (fst (park_new getenv sec env wr w sid tc why)))).
Proof.
  unfold park_new, tool_inline_error. destruct (approval_find_pending_match _ _ _ _ _) as [dup|].
  - left. apply inline_ap.
  - destruct (approval_pending_ids _ _ _) as [n l]. destruct (_ <=? n); [left; apply inline_ap|].
    rewrite park_ap. apply create_quiet.
Qed.

Lemma gate_quiet wr ce w sid agent tc r w' cards :
  dispatch_gate alloc getenv sec env wr ce w sid agent tc = (r, w', cards) ->
  (forall id o h, r <> Proceed (Some id) o h) -> quiet (ap w) (ap w').
Proof.
  unfold dispatch_gate, tool_inline_error. intros H Hr.
  do 3 (destruct (negb _); [injection H as <- <- <-; left; apply inline_ap|]).
  do 3 (case_bool_decide; [injection H as <- <- <-; left; apply inline_ap|]). cbn zeta in H.
  destruct (unbound_secret _ _ _ _ _); [injection H as <- <- <-; left; apply inline_ap|].
  destruct (_ || _); [|injection H as <- <- <-; by left].
  set (sens := sensitive_host w (pc_args tc)) in H. clearbody sens.
  unfold approval_gate, tool_inline_error in H. pose proof (try_ticket_spec wr w sid tc sens) as Ht.
  assert (Hun : match try_ticket wr w sid tc sens with
                | (Some tk, w) => (Proceed (Some tk) (is_some sens) (default [] sens), w, [])
                | (None, w) => park_new getenv sec env wr w sid tc (park_why sens)
                end = (r, w', cards) -> quiet (ap w) (ap w')).
  { destruct (try_ticket _ _ _ _ _) as [[tk|] w1]; cbn [fst snd] in Ht; intros E.
    - injection E as <- <- <-. by edestruct Hr.
    - destruct Ht as [[_ <-]|(? & ? & ?)]; [|done]. pose proof (park_new_quiet wr w1 sid tc (park_why sens)) as Hq.
      by rewrite E in Hq. }
  destruct (approval_get_for_tool_call _ _ _) as [a|]; [|by apply Hun].
  destruct (a_state a); [| | |by apply Hun].
  - left. pose proof (park_ap w sid tc) as Hp. by rewrite H in Hp.
  - injection H as <- <- <-. by edestruct Hr.
  - injection H as <- <- <-. left. apply inline_ap.
Qed.
End Quiet.

(** The state of an approval once someone decided for it. *)
Definition favoured (s : ApprovalState) : bool := match s with ApApproved | ApConsumed => true | _ => false end.

(** The ledger of the interleaving: the ids that let a call run, and the ids a decision
    went in favour of. *)
Record LInv (l : list ApprovalRow) (used granted : list Z) : Prop := {
  li_ids : NoDup (ids l);
  li_used : NoDup used;
  li_granted : NoDup granted;
  li_spent : forall id, id ∈ used -> exists a, a ∈ l /\ a_id a = id /\ a_state a = ApConsumed;
  li_rows : forall id, id ∈ granted -> exists a, a ∈ l /\ a_id a = id /\ favoured (a_state a) = true;
  li_decided : forall a, a ∈ l -> favoured (a_state a) = true -> a_id a ∈ granted
}.

Lemma max_of_bound l x : x ∈ l -> x <= max_of l.
Proof.
  induction l as [|y l IH]; [by intros ?%elem_of_nil|]. cbn. intros [->|H]%elem_of_cons; [lia|].
  apply IH in H. unfold max_of in H. lia.
Qed.

Lemma fresh_id l : max_of (ids l) + 1 ∉ ids l.
Proof. intros H%max_of_bound. lia. Qed.

Lemma NoDup_snoc {A} (l : list A) x : NoDup l -> x ∉ l -> NoDup (l ++ [x]).
Proof.
  intros Hl Hx. apply NoDup_app. split; [done|]. split; [|apply NoDup_singleton].
  intros y Hy ->%list_elem_of_singleton. done.
Qed.

(** A new row: pending, or already approved and then granted. *)
Lemma linv_append l used granted row :
  LInv l used granted -> a_id row ∉ ids l ->
  LInv (l ++ [row]) used (if favoured (a_state row) then granted ++ [a_id row] else granted).
Proof.
  intros [H1 H2 H3 H4 H5 H6] Hf.
  assert (Hnew : forall a, a ∈ l ++ [row] <-> a ∈ l \/ a = row)
    by (intros a; by rewrite elem_of_app, list_elem_of_singleton).
  split.
  - unfold ids. rewrite map_app. by apply NoDup_snoc.
  - done.
  - destruct (favoured _); [|done]. apply NoDup_snoc; [done|]. intros Hin.
    destruct (H5 _ Hin) as (a & Ha & E & _). apply Hf. rewrite <- E. apply list_elem_of_fmap. by exists a.
  - intros id Hid. destruct (H4 _ Hid) as (a & Ha & ?). exists a. rewrite Hnew. auto.
  - intros id Hid. destruct (favoured (a_state row)) eqn:E.
    + apply elem_of_app in Hid as [Hid| ->%list_elem_of_singleton].
      * destruct (H5 _ Hid) as (a & Ha & ?). exists a. rewrite Hnew. auto.
      * exists row. rewrite Hnew. auto.
    + destruct (H5 _ Hid) as (a & Ha & ?). exists a. rewrite Hnew. auto.
  - intros a Ha Hfa. apply Hnew in Ha as [Ha| ->].
    + specialize (H6 _ Ha Hfa). destruct (favoured (a_state row)); [apply elem_of_app; auto|done].
    + rewrite Hfa. apply elem_of_app. right. by apply list_elem_of_singleton.
Qed.

Lemma linv_quiet l l' used granted : LInv l used granted -> quiet l l' -> LInv l' used granted.
Proof.
  intros H [->|(row & -> & Hs & Hi)]; [done|]. pose proof (linv_append l used granted row H) as Hn.
  rewrite Hs in Hn. cbn in Hn. apply Hn. rewrite Hi. apply fresh_id.
Qed.

(** Updates of rows that keep their ids, and turn nothing consumed back. *)
Definition stays (f : ApprovalRow -> ApprovalRow) : Prop :=
  forall a, a_id (f a) = a_id a /\ (a_state a = ApConsumed -> a_state (f a) = ApConsumed).

Lemma map_ids f l : stays f -> ids (map f l) = ids l.
Proof. intros Hf. unfold ids. rewrite map_map. apply map_ext. intros a. apply Hf. Qed.

Lemma linv_same_favour l used granted f :
  LInv l used granted -> stays f -> (forall a, favoured (a_state (f a)) = favoured (a_state a)) ->
  LInv (map f l) used granted.
Proof.
  intros [H1 H2 H3 H4 H5 H6] Hf Hv. split; rewrite ?map_ids by done; try done.
  - intros id Hid. destruct (H4 _ Hid) as (a & Ha & E & Hc). exists (f a). split; [by apply list_elem_of_fmap_2|].
    split; [by rewrite (proj1 (Hf a))|by apply Hf].
  - intros id Hid. destruct (H5 _ Hid) as (a & Ha & E & Hc). exists (f a). split; [by apply list_elem_of_fmap_2|].
    by rewrite (proj1 (Hf a)), Hv.
  - intros b (a & -> & Ha)%list_elem_of_fmap Hb. rewrite (proj1 (Hf a)). rewrite Hv in Hb. by apply H6.
Qed.

Lemma linv_grant l used granted id f a :
  LInv l used granted -> a ∈ l -> a_id a = id -> a_state a = ApPending -> stays f ->
  (forall b, favoured (a_state (f b)) = favoured (a_state b) || ((a_id b =? id) && bool_decide (a_state b = ApPending))) ->
  LInv (map f l) used (granted ++ [id]).
Proof.
  intros [H1 H2 H3 H4 H5 H6] Ha Hi Hs Hf Hv. split; rewrite ?map_ids by done; try done.
  - apply NoDup_snoc; [done|]. intros Hin. destruct (H5 _ Hin) as (b & Hb & E & Hc).
    assert (b = a) as -> by (eapply ids_unique; eauto; congruence). by rewrite Hs in Hc.
  - intros i Hid. destruct (H4 _ Hid) as (b & Hb & E & Hc). exists (f b). split; [by apply list_elem_of_fmap_2|].
    split; [by rewrite (proj1 (Hf b))|by apply Hf].
  - intros i [Hid| ->%list_elem_of_singleton]%elem_of_app.
    + destruct (H5 _ Hid) as (b & Hb & E & Hc). exists (f b). split; [by apply list_elem_of_fmap_2|].
      rewrite (proj1 (Hf b)), Hv, Hc. done.
    + exists (f a). split; [by apply list_elem_of_fmap_2|]. rewrite (proj1 (Hf a)), Hv, Hs, Hi, Z.eqb_refl. done.
  - intros b (c & -> & Hc)%list_elem_of_fmap Hb. rewrite (proj1 (Hf c)). rewrite Hv in Hb.
    apply elem_of_app. apply orb_prop in Hb as [Hb|Hb]; [left; by apply H6|right].
    apply list_elem_of_singleton. lia.
Qed.

Lemma linv_use l used granted id : LInv l used granted ->
  (exists a, a ∈ l /\ a_id a = id /\ a_state a = ApConsumed) -> id ∉ used -> LInv l (used ++ [id]) granted.
Proof.
  intros [H1 H2 H3 H4 H5 H6] Ha Hu. split; try done; [by apply NoDup_snoc|].
  intros i [Hi| ->%list_elem_of_singleton]%elem_of_app; auto.
Qed.

(** ** A concrete gate *)
Definition demo_url : cstring := bs "https://api.bank.com/?t={{SECRET:TOK}}".
Definition demo_args : cstring := bs "{'url':'https://api.bank.com/?t={{SECRET:TOK}}'}".
Definition demo_docs : Json1 := demo_json [(demo_args, JObj [(bs "url", JText demo_url)])].
Definition demo_vars (_ : cstring) : option cstring := None.
Definition demo_process : Process :=
  mk_process_env (bs "i1") true false false None None false (fun _ _ => None)
    (fun w _ _ _ => mk_applied false None (w_config w) (w_grants w) (w_secret_hosts w) (w_pins w) (w_models w) (w_channels w) []).
Definition demo_env : CallEnv :=
  mk_cenv None true (Some (HOOK_GATE_ALLOW, None)) [mk_secret (bs "TOK") (Some (bs "hunter2"))].
Definition demo_call : PendingToolCall := mk_pc (bs "call_1") (bs "web_fetch") (Some demo_args) 1 1.
Definition demo_writes : Writes := mk_writes true true true.

(** Session 1 of agent main runs; [aps] are the approvals, bank.com is sensitive, and
    the secret is bound to it. *)
Definition demo_world (aps : list ApprovalRow) : World := mk_world
  (mk_store 1000 [mk_xsession 1 (Some (bs "main")) ToolRunning 1 1 (-1) (Some (bs "discord")) (Some (bs "77")) (Some (bs "i1")) 0]
     [mk_entry 1 1 (-1) 1 (Some 1) TToolCall ROLE_ASSISTANT (Some (bs "fetch")) None None false STOP_REASON_TOOL_USE None None]
     2 [] 1 [mk_call 1 1 1 (bs "call_1") (bs "web_fetch") CallPending None None] [] 1 [] [] [] [] []
     [mk_process (bs "i1") 7 990] aps)
  [] [mk_grant (bs "main") (bs "tool") (bs "web_fetch") TOOL_MODE_SILENT None]
  [bs "bank.com"] [(bs "TOK", bs "bank.com")] [] [] [] [] None.

Definition demo_approved : ApprovalRow :=
  mk_approval 1 1 (Some (bs "call_1")) (Some (bs "web_fetch")) (Some APPROVAL_PARK_SENSITIVE) (Some demo_args)
    (bs "rerun") ApApproved (Some (bs "cli")) 900 (Some 2000).

Lemma gate_proceeds_authorised_witness :
  let w := demo_world [demo_approved] in
  exists w' cards,
    @dispatch_gate demo_docs (fun _ => true) demo_vars demo_vars demo_process demo_writes demo_env w 1 (Some (bs "main")) demo_call
      = (Proceed (Some 1) true (bs "api.bank.com"), w', cards) /\
    grants_contains w (Some (bs "main")) (Some (bs "tool")) (Some (bs "web_fetch")) = true /\
    (exists a, 1 = a_id a /\ @authorises demo_docs w 1 demo_call true a).
Proof.
  cbn zeta.
  destruct (@dispatch_gate demo_docs (fun _ => true) demo_vars demo_vars demo_process demo_writes demo_env
              (demo_world [demo_approved]) 1 (Some (bs "main")) demo_call) as [[r w'] cards] eqn:E.
  assert (Hr : r = Proceed (Some 1) true (bs "api.bank.com")).
  { transitivity (fst (fst (@dispatch_gate demo_docs (fun _ => true) demo_vars demo_vars demo_process demo_writes demo_env
              (demo_world [demo_approved]) 1 (Some (bs "main")) demo_call))); [by rewrite E|]. vm_compute. reflexivity. }
  rewrite Hr in E. exists w', cards. split; [by rewrite Hr|].
  destruct (@gate_proceeds_authorised demo_docs (fun _ => true) demo_vars demo_vars demo_process demo_writes demo_env
     (demo_world [demo_approved]) 1 (Some (bs "main")) demo_call _ _ _ _ _ E) as (Hg & _ & _ & _ & _ & _ & _ & a & Ha & _ & _ & Hau & _).
  split; [exact Hg|]. exists a. split; [exact Ha|exact Hau].
Defined.
