(* ===== verification/Recovery.v ===== *)
(** * Crash recovery: the process registry and db_recover_stale_sessions of src/db.c

    A session whose owner is gone is reclaimed: its open calls are answered, its jobs
    and parked requests closed, and it goes back to idle; a session of a live
    instance is left alone.  One transaction does it all.  Rows are visited in table
    order. *)
From S2P Require Import Prelude CString Libc Store.

(** ** The registry *)
Definition process_heartbeat (t : Store) (id : cstring) : Store :=
  match id with
  | [] => t
  | _ => with_processes (map (fun p => if streq (pr_id p) id then mk_process (pr_id p) (pr_pid p) (t_now t) else p)
                           (t_processes t)) t
  end.

Definition process_unregister (t : Store) (id : cstring) : Store :=
  match id with
  | [] => t
  | _ => with_processes (List.filter (fun p => negb (streq (pr_id p) id)) (t_processes t)) t
  end.

(** [gone pid]: [kill(pid, 0)] fails with ESRCH. *)
Definition process_gc_dead (gone : Z -> bool) (t : Store) (ttl : Z) : Store :=
  let t := with_processes (List.filter (fun p => negb (ttl <? t_now t - pr_heartbeat p)) (t_processes t)) t in
  fold_left process_unregister
    (map pr_id (List.filter (fun p => (0 <? pr_pid p) && gone (pr_pid p)) (t_processes t))) t.

Definition process_is_live (gone : Z -> bool) (t : Store) (id : cstring) (ttl : Z) : bool :=
  match id with
  | [] => false
  | _ => match List.find (fun p => streq (pr_id p) id) (t_processes t) with
         | Some p => (t_now t - pr_heartbeat p <=? ttl) && ((0 <? pr_pid p) && negb (gone (pr_pid p)))
         | None => false
         end
  end.

(** ** Dead-owned sessions *)
Definition registered (t : Store) (o : cstring) : bool := existsb (fun p => streq (pr_id p) o) (t_processes t).

Definition stale_state (s : SState) : bool :=
  match s with LlmRunning | ToolRunning | Compacting | AwaitingApproval | RateLimited => true | _ => false end.

(** [RECOVER_DEAD_OWNER]. *)
Definition dead_owned (t : Store) (s : XSession) : bool :=
  stale_state (x_state s) && match x_owner s with None => true | Some o => negb (registered t o) end.

Definition dead_session (t : Store) (sid : Z) : bool :=
  existsb (fun s => (x_id s =? sid) && dead_owned t s) (t_sessions t).

(** ** The steps of the transaction *)
Definition has_result (t : Store) (sid : Z) (call : cstring) : bool :=
  existsb (fun e => (e_session e =? sid) && bool_decide (e_call e = Some call) &&
                    bool_decide (e_type e = TToolResult)) (t_entries t).

Definition orphan_calls (t : Store) : list ToolCallRow :=
  List.filter (fun c => open_status (c_status c) && negb (has_result t (c_session c) (c_call c)) &&
                        dead_session t (c_session c)) (t_calls t).

Definition INTERRUPTED : cstring :=
  bs "error: interrupted " ++ EM_DASH ++ bs " the process running this call exited".

Definition close_orphan (t : Store) (c : ToolCallRow) : Store :=
  let (_, t) := append_tool_result t (c_session c) (c_call c) INTERRUPTED (c_name c) true 0 in
  let (_, t) := db_tool_call_set_status t (c_session c) (c_call c) CallDone (Some (bs "recovery")) in
  drop_oneshot_edges_for_call t (c_session c) (c_call c).

Definition drop_dead_jobs (t : Store) : Store :=
  with_jobs (List.filter (fun j => negb (dead_session t (fst j))) (t_llm_jobs t)) t.

(** Background jobs of an instance no longer registered. *)
Definition orphan_job (t : Store) (c : ToolCallRow) : bool :=
  bool_decide (c_status c = CallBackground) &&
  match c_resolved_by c with None => true | Some i => negb (registered t i) end.

Definition job_notice (c : ToolCallRow) : cstring :=
  bs "background job " ++ print_int (c_id c) ++ bs " (" ++ c_name c ++
  bs ") did not survive a daemon restart; partial output may remain in .tool_results/" ++ print_int (c_session c) ++
  bs "/" ++ c_call c ++ bs ".log".

Definition close_jobs (t : Store) : Store :=
  let orphans := List.filter (orphan_job t) (t_calls t) in
  let t' := fold_left (fun t c => inbox_insert t (c_session c) (bs "job_result") (Some (c_call c)) (job_notice c)) orphans t in
  with_calls (map (fun c => if orphan_job t c then set_status CallDone (Some (bs "job:orphaned")) c else c) (t_calls t')) t'.

Definition dead_approval (t : Store) (a : ApprovalRow) : bool :=
  bool_decide (a_state a = ApPending) && dead_session t (a_session a).

Definition approval_notice (a : ApprovalRow) : cstring :=
  bs "Approval #" ++ print_int (a_id a) ++ bs " for '" ++ default (bs "tool") (a_tool a) ++
  bs "' was cancelled: the daemon restarted while it was pending.        Not a denial - re-request if the task still needs it.".

Definition deny_dead_approvals (t : Store) : Store :=
  let dead := List.filter (dead_approval t) (t_approvals t) in
  let t' := fold_left (fun t a => inbox_insert t (a_session a) (bs "approval") None (approval_notice a)) dead t in
  with_approvals (map (fun a =>
    if dead_approval t a
    then mk_approval (a_id a) (a_session a) (a_call a) (a_tool a) (a_reason a) (a_args a) (a_resolve a) ApDenied
           (Some (bs "recovery")) (a_requested a) (a_expires a)
    else a) (t_approvals t')) t'.

Definition reset_session (s : XSession) : XSession :=
  mk_xsession (x_id s) (x_agent s) Idle 0 (x_leaf s) (x_parent s) (x_channel s) (x_chat s) None (x_hold s).

Definition reset_dead (t : Store) : Store :=
  with_sessions (map (fun s => if dead_owned t s then reset_session s else s) (t_sessions t)) t.

Definition NUDGE : cstring :=
  bs "the previous run ended mid-task " ++ EM_DASH ++
  bs " a tool call was interrupted; review the work above and resume if needed".

Definition nudge (t : Store) (sids : list Z) : Store :=
  fold_left (fun t sid => inbox_insert t sid (bs "system") None NUDGE) sids t.

(** First occurrences, in order. *)
Definition distinct_ids (l : list Z) : list Z :=
  fold_left (fun acc x => if bool_decide (x ∈ acc) then acc else acc ++ [x]) l [].

Definition recovered (t : Store) : Store :=
  let orphans := orphan_calls t in
  let t := fold_left close_orphan orphans t in
  nudge (reset_dead (deny_dead_approvals (close_jobs (drop_dead_jobs t)))) (distinct_ids (map c_session orphans)).

(** [begin], [step], [commit]: whether BEGIN IMMEDIATE, every statement and allocation
    between, and COMMIT succeeded.  After a failed COMMIT the transaction is still open
    (the flag), so this connection reads the uncommitted work. *)
Definition db_recover_stale_sessions (begin step commit : bool) (t : Store) : Z * Store * bool :=
  if negb begin then (-1, t, false)
  else if negb step then (-1, t, false)
  else if negb commit then (-1, recovered t, true)
  else (0, recovered t, false).

(** * Lemmas *)

(** ** What each step keeps *)

(** Who is dead depends on the sessions' states and owners and on the registry. *)
Definition same_liveness (t t' : Store) : Prop :=
  t_processes t' = t_processes t /\
  map (fun s => (x_id s, x_state s, x_owner s)) (t_sessions t') =
  map (fun s => (x_id s, x_state s, x_owner s)) (t_sessions t).

Lemma same_liveness_refl t : same_liveness t t.
Proof. done. Qed.

Lemma same_liveness_trans t1 t2 t3 : same_liveness t1 t2 -> same_liveness t2 t3 -> same_liveness t1 t3.
Proof. intros [H1 H2] [H3 H4]. split; congruence. Qed.

Lemma dead_session_key t sid :
  dead_session t sid =
  existsb (fun k => (fst (fst k) =? sid) && (stale_state (snd (fst k)) &&
                    match snd k with None => true | Some o => negb (registered t o) end))
    (map (fun s => (x_id s, x_state s, x_owner s)) (t_sessions t)).
Proof. unfold dead_session, dead_owned. induction (t_sessions t) as [|s l IH]; cbn; [done|]. by rewrite IH. Qed.

Lemma same_liveness_dead t t' sid : same_liveness t t' -> dead_session t' sid = dead_session t sid.
Proof. intros [H1 H2]. rewrite !dead_session_key, H2. unfold registered. by rewrite H1. Qed.

Lemma close_orphan_liveness t c : same_liveness t (close_orphan t c).
Proof.
  unfold close_orphan, append_tool_result, insert_entry. rewrite decide_False by done. cbn. split; [done|].
  cbn. rewrite map_map. apply map_ext. intros s. by destruct (x_id s =? c_session c).
Qed.

Lemma close_orphans_liveness l t : same_liveness t (fold_left close_orphan l t).
Proof.
  revert t. induction l as [|c l IH]; intros t; [done|]. cbn.
  eapply same_liveness_trans; [apply close_orphan_liveness|apply IH].
Qed.

(** Only the inbox changes. *)
Definition only_inbox (t t' : Store) : Prop := t' = with_inbox (t_inbox t') (t_next_inbox t') t.

Lemma only_inbox_fold {A} (f : A -> Z) src (ref : A -> option cstring) (msg : A -> cstring) l t :
  let t' := fold_left (fun t x => inbox_insert t (f x) src (ref x) (msg x)) l t in
  only_inbox t t' /\
  exists rows, t_inbox t' = t_inbox t ++ rows /\
    map (fun q => (q_session q, q_source q, q_ref q, q_payload q, q_consumed q)) rows =
    map (fun x => (f x, src, ref x, msg x, false)) l.
Proof.
  revert t. induction l as [|x l IH]; intros t; cbn.
  - split; [by destruct t|]. exists []. by rewrite app_nil_r.
  - destruct (IH (inbox_insert t (f x) src (ref x) (msg x))) as [Ho (rows & E & Hr)]. cbn zeta in *.
    split.
    + unfold only_inbox in *. rewrite Ho at 1. done.
    + exists (mk_in (t_next_inbox t) (f x) src (ref x) (msg x) false (t_now t) :: rows).
      rewrite E. cbn [t_inbox inbox_insert with_inbox]. rewrite <- app_assoc. split; [done|]. cbn. by rewrite Hr.
Qed.

(** ** The answers *)

(** What the answers leave of the tables they do not touch. *)
Lemma close_orphan_rest t c :
  let t' := close_orphan t c in
  t_inbox t' = t_inbox t /\ t_next_inbox t' = t_next_inbox t /\ t_approvals t' = t_approvals t /\
  t_llm_jobs t' = t_llm_jobs t /\ t_processes t' = t_processes t /\ t_now t' = t_now t.
Proof. unfold close_orphan, append_tool_result, insert_entry. by rewrite decide_False by done. Qed.

Lemma close_orphans_rest l t :
  let t' := fold_left close_orphan l t in
  t_inbox t' = t_inbox t /\ t_next_inbox t' = t_next_inbox t /\ t_approvals t' = t_approvals t /\
  t_llm_jobs t' = t_llm_jobs t /\ t_processes t' = t_processes t /\ t_now t' = t_now t.
Proof.
  revert t. induction l as [|c l IH]; intros t; [done|]. cbn zeta in *. cbn [fold_left].
  destruct (close_orphan_rest t c) as (?&?&?&?&?&?). destruct (IH (close_orphan t c)) as (?&?&?&?&?&?).
  split_all; congruence.
Qed.

(** One result per orphan, in order. *)
Definition result_key (e : Entry) : Z * option cstring * option cstring * EType * bool :=
  (e_session e, e_call e, e_content e, e_type e, e_is_error e).
Definition orphan_key (c : ToolCallRow) : Z * option cstring * option cstring * EType * bool :=
  (c_session c, Some (c_call c), Some INTERRUPTED, TToolResult, true).

Lemma close_orphans_entries l t :
  exists es, t_entries (fold_left close_orphan l t) = t_entries t ++ es /\ map result_key es = map orphan_key l.
Proof.
  revert t. induction l as [|c l IH]; intros t; cbn [fold_left]; [exists []; by rewrite app_nil_r|].
  destruct (IH (close_orphan t c)) as (es & E & Hk). rewrite E.
  unfold close_orphan, append_tool_result, insert_entry. rewrite decide_False by done. cbn.
  eexists (_ :: es). rewrite <- app_assoc. split; [done|]. cbn. by rewrite Hk.
Qed.

Definition answered (l : list ToolCallRow) (c : ToolCallRow) : bool :=
  existsb (fun o => is_call (c_session o) (c_call o) c) l.

Definition as_recovered (l : list ToolCallRow) (c : ToolCallRow) : ToolCallRow :=
  if answered l c then set_status CallDone (Some (bs "recovery")) c else c.

Lemma close_orphan_calls t c : t_calls (close_orphan t c) = map (as_recovered [c]) (t_calls t).
Proof.
  unfold close_orphan, append_tool_result, insert_entry. rewrite decide_False by done. cbn.
  apply map_ext. intros r. unfold as_recovered, answered. cbn. by rewrite orb_false_r.
Qed.

Lemma close_orphans_calls l t : t_calls (fold_left close_orphan l t) = map (as_recovered l) (t_calls t).
Proof.
  revert t. induction l as [|c l IH]; intros t; cbn [fold_left].
  - rewrite <- (map_id (t_calls t)) at 1. by apply map_ext.
  - rewrite IH, close_orphan_calls, map_map. apply map_ext. intros r.
    unfold as_recovered, answered. cbn [existsb]. rewrite orb_false_r.
    destruct (is_call (c_session c) (c_call c) r) eqn:E; cbn [orb]; [|done].
    replace (existsb _ l) with (existsb (fun o => is_call (c_session o) (c_call o) r) l) by done.
    by destruct (existsb _ l).
Qed.

(** A session without an orphan keeps its row; the others only move their leaf. *)
Lemma close_orphan_session t c i :
  get_session (close_orphan t c) i =
  if i =? c_session c then option_map (with_leaf (t_next_entry t)) (get_session t i) else get_session t i.
Proof.
  unfold close_orphan. pose proof (insert_entry_get t (c_session c) (leaf_of t (c_session c))
    (pick_iter t (c_session c) 0) TToolResult ROLE_TOOL (Some INTERRUPTED) (Some (c_call c)) (Some (c_name c)) true 0 None None i) as H.
  unfold append_tool_result. destruct (insert_entry _ _ _ _ _ _ _ _ _ _ _ _ _) as [id t']. cbn in *.
  unfold get_session in *. cbn. rewrite H. rewrite bool_decide_false by done. cbn. rewrite andb_true_r.
  by destruct (i =? c_session c); destruct (List.find (fun s => x_id s =? i) (t_sessions t)).
Qed.

Lemma close_orphans_session l t i s :
  get_session t i = Some s ->
  exists leaf, get_session (fold_left close_orphan l t) i = Some (with_leaf leaf s) /\
    ((forall c, c ∈ l -> c_session c <> i) -> leaf = x_leaf s).
Proof.
  revert t s. induction l as [|c l IH]; intros t s Hs; cbn [fold_left].
  - exists (x_leaf s). split; [|done]. rewrite Hs. by destruct s.
  - pose proof (close_orphan_session t c i) as H. rewrite Hs in H. destruct (i =? c_session c) eqn:E.
    + destruct (IH _ _ H) as (leaf & Hl & _). exists leaf. split; [by rewrite Hl; destruct s|].
      intros Hc. destruct (Hc c); [left|lia].
    + destruct (IH _ _ H) as (leaf & Hl & Hk). exists leaf. split; [done|]. intros Hc. apply Hk.
      intros c' Hc'. apply Hc. by right.
Qed.

(** ** The store after the transaction *)
Lemma nudge_inbox l t : only_inbox t (nudge t l) /\
  exists rows, t_inbox (nudge t l) = t_inbox t ++ rows /\
    map (fun q => (q_session q, q_source q, q_ref q, q_payload q, q_consumed q)) rows =
    map (fun x => (x, bs "system", None, NUDGE, false)) l.
Proof. apply (only_inbox_fold (fun x => x) _ (fun _ => None) (fun _ => NUDGE)). Qed.

Definition row_key (q : Inbox) := (q_session q, q_source q, q_ref q, q_payload q, q_consumed q).
Definition job_key (c : ToolCallRow) := (c_session c, bs "job_result", Some (c_call c), job_notice c, false).
Definition approval_key (a : ApprovalRow) := (a_session a, bs "approval", @None cstring, approval_notice a, false).
Definition nudge_key (sid : Z) := (sid, bs "system", @None cstring, NUDGE, false).

Definition as_orphaned (t : Store) (c : ToolCallRow) : ToolCallRow :=
  if orphan_job t c then set_status CallDone (Some (bs "job:orphaned")) c else c.

Definition as_denied (t : Store) (a : ApprovalRow) : ApprovalRow :=
  if dead_approval t a
  then mk_approval (a_id a) (a_session a) (a_call a) (a_tool a) (a_reason a) (a_args a) (a_resolve a) ApDenied
         (Some (bs "recovery")) (a_requested a) (a_expires a)
  else a.

Lemma close_jobs_shape t :
  exists rows n, close_jobs t = with_calls (map (as_orphaned t) (t_calls t)) (with_inbox (t_inbox t ++ rows) n t) /\
    map row_key rows = map job_key (List.filter (orphan_job t) (t_calls t)).
Proof.
  unfold close_jobs. pose proof (only_inbox_fold c_session (bs "job_result") (fun c => Some (c_call c)) job_notice
    (List.filter (orphan_job t) (t_calls t)) t) as [Ho (rows & E & Hr)].
  cbn zeta in *. set (t' := fold_left _ _ t) in *. clearbody t'. exists rows, (t_next_inbox t'). split; [|done].
  rewrite <- E, Ho. done.
Qed.

Lemma deny_shape t :
  exists rows n, deny_dead_approvals t = with_approvals (map (as_denied t) (t_approvals t)) (with_inbox (t_inbox t ++ rows) n t) /\
    map row_key rows = map approval_key (List.filter (dead_approval t) (t_approvals t)).
Proof.
  unfold deny_dead_approvals. pose proof (only_inbox_fold a_session (bs "approval") (fun _ => None) approval_notice
    (List.filter (dead_approval t) (t_approvals t)) t) as [Ho (rows & E & Hr)].
  cbn zeta in *. set (t' := fold_left _ _ t) in *. clearbody t'. exists rows, (t_next_inbox t'). split; [|done].
  rewrite <- E, Ho. done.
Qed.

(** Death is read from the registry alone once the session row is fixed. *)
Lemma dead_owned_registry t t' s : t_processes t' = t_processes t -> dead_owned t' s = dead_owned t s.
Proof. intros H. unfold dead_owned, registered. by rewrite H. Qed.

Lemma orphan_job_registry t t' c : t_processes t' = t_processes t -> orphan_job t' c = orphan_job t c.
Proof. intros H. unfold orphan_job, registered. by rewrite H. Qed.

Lemma as_denied_liveness t t' a : same_liveness t t' -> as_denied t' a = as_denied t a.
Proof. intros H. unfold as_denied, dead_approval. by rewrite (same_liveness_dead t t'). Qed.

Lemma dead_approval_liveness t t' a : same_liveness t t' -> dead_approval t' a = dead_approval t a.
Proof. intros H. unfold dead_approval. by rewrite (same_liveness_dead t t'). Qed.

(** The whole transaction, table by table. *)
Lemma recovered_tables t :
  let o := orphan_calls t in
  let t1 := fold_left close_orphan o t in
  let calls := map (as_recovered o) (t_calls t) in
  let t' := recovered t in
  t_processes t' = t_processes t /\ t_entries t' = t_entries t1 /\
  t_calls t' = map (as_orphaned t) calls /\
  t_approvals t' = map (as_denied t) (t_approvals t) /\
  t_llm_jobs t' = List.filter (fun j => negb (dead_session t (fst j))) (t_llm_jobs t) /\
  t_sessions t' = map (fun s => if dead_owned t s then reset_session s else s) (t_sessions t1) /\
  exists rows, t_inbox t' = t_inbox t ++ rows /\
    map row_key rows = map job_key (List.filter (orphan_job t) calls) ++
      map approval_key (List.filter (dead_approval t) (t_approvals t)) ++ map nudge_key (distinct_ids (map c_session o)).
Proof.
  intros o t1 calls t'.
  pose proof (close_orphans_rest o t) as (Ri & _ & Ra & Rl & Rp & _). cbn zeta in *.
  pose proof (close_orphans_liveness o t) as L1. pose proof (close_orphans_calls o t) as Rc.
  subst t'. unfold recovered. change (orphan_calls t) with o. cbn zeta.
  change (fold_left close_orphan o t) with t1 in Ri, Ra, Rl, Rp, L1, Rc |- *.
  set (t2 := drop_dead_jobs t1). assert (L2 : same_liveness t t2) by done.
  destruct (close_jobs_shape t2) as (rows1 & n1 & E1 & K1). set (t3 := close_jobs t2) in *.
  assert (L3 : same_liveness t t3) by (by rewrite E1).
  destruct (deny_shape t3) as (rows2 & n2 & E2 & K2). set (t4 := deny_dead_approvals t3) in *.
  destruct (nudge_inbox (distinct_ids (map c_session o)) (reset_dead t4)) as [E3 (rows3 & E4 & K3)].
  assert (Hp : t_processes t4 = t_processes t) by (by rewrite E2, E1).
  unfold only_inbox in E3. set (t5 := nudge _ _) in *. clearbody t5 t4 t3.
  split_all.
  - rewrite E3. cbn. by rewrite Hp.
  - rewrite E3. cbn. by rewrite E2, E1.
  - rewrite E3. cbn. rewrite E2, E1. cbn. rewrite Rc. apply map_ext. intros c. unfold as_orphaned.
    by rewrite (orphan_job_registry t t2) by apply Rp.
  - rewrite E3. cbn. rewrite E2, E1. cbn. rewrite Ra. apply map_ext. intros a. by apply as_denied_liveness.
  - rewrite E3. cbn. rewrite E2, E1. cbn. rewrite Rl. apply filter_ext. intros j. by rewrite (same_liveness_dead t t1).
  - rewrite E3. cbn. rewrite E2, E1. cbn. apply map_ext. intros s. by rewrite (dead_owned_registry t).
  - exists (rows1 ++ rows2 ++ rows3). rewrite E4. cbn. rewrite E2, E1. cbn. rewrite Ri, <- !app_assoc. split; [done|].
    rewrite !map_app. unfold row_key in *. f_equal; [|f_equal].
    + rewrite K1. f_equal. cbn. rewrite Rc. apply filter_ext. intros c. by apply orphan_job_registry.
    + rewrite K2. f_equal. rewrite E1. cbn. rewrite Ra. apply filter_ext. intros a. by apply dead_approval_liveness.
    + exact K3.
Qed.

(** No dead session is left. *)
Lemma reset_not_dead t s : dead_owned t (reset_session s) = false.
Proof. done. Qed.

Lemma recovered_alive t s : s ∈ t_sessions (recovered t) -> dead_owned (recovered t) s = false.
Proof.
  destruct (recovered_tables t) as (Hp & _ & _ & _ & _ & Hs & _). rewrite Hs.
  intros (s0 & -> & H)%list_elem_of_fmap. rewrite (dead_owned_registry t _ _ Hp).
  by destruct (dead_owned t s0) eqn:E.
Qed.

Lemma alive_dead_session t sid : (forall s, s ∈ t_sessions t -> dead_owned t s = false) -> dead_session t sid = false.
Proof.
  intros H. unfold dead_session. apply not_true_iff_false. intros (s & Hin & Hd)%existsb_exists.
  apply andb_prop in Hd as [_ Hd]. rewrite H in Hd; [done|]. by apply list_elem_of_In.
Qed.

Lemma map_same {A} (f : A -> A) l : (forall x, x ∈ l -> f x = x) -> map f l = l.
Proof.
  induction l as [|x l IH]; intros H; [done|]. cbn. rewrite H by left. f_equal. apply IH. intros y Hy. apply H. by right.
Qed.

(** A store with nothing to recover is left as it is. *)
Lemma recovered_nothing t :
  (forall s, s ∈ t_sessions t -> dead_owned t s = false) -> (forall c, c ∈ t_calls t -> orphan_job t c = false) ->
  recovered t = t.
Proof.
  intros Hs Hc. assert (Hd : forall sid, dead_session t sid = false) by (intros; by apply alive_dead_session).
  assert (Ho : orphan_calls t = []).
  { apply filter_none. intros c _. rewrite Hd. apply andb_false_r. }
  unfold recovered. rewrite Ho. cbn.
  assert (E2 : drop_dead_jobs t = t).
  { unfold drop_dead_jobs. rewrite filter_all; [by destruct t|]. intros j _. by rewrite Hd. }
  rewrite E2.
  assert (E3 : close_jobs t = t).
  { unfold close_jobs. rewrite filter_none by done. cbn. rewrite map_same; [by destruct t|]. intros c H. by rewrite Hc. }
  rewrite E3.
  assert (Ha : forall a, dead_approval t a = false) by (intros a; unfold dead_approval; rewrite Hd; apply andb_false_r).
  assert (E4 : deny_dead_approvals t = t).
  { unfold deny_dead_approvals. rewrite filter_none by done. cbn. rewrite map_same; [by destruct t|]. intros a _. by rewrite Ha. }
  rewrite E4. unfold reset_dead. rewrite map_same; [by destruct t|]. intros s H. by rewrite Hs.
Qed.

Lemma recovered_jobs t c : c ∈ t_calls (recovered t) -> orphan_job (recovered t) c = false.
Proof.
  destruct (recovered_tables t) as (Hp & _ & Hc & _). rewrite Hc. intros (c0 & -> & _)%list_elem_of_fmap.
  rewrite (orphan_job_registry t _ _ Hp). unfold as_orphaned. by destruct (orphan_job t c0) eqn:E.
Qed.

(** Calls of a live session are left alone. *)
Lemma as_recovered_live t c : dead_session t (c_session c) = false -> as_recovered (orphan_calls t) c = c.
Proof.
  intros H. unfold as_recovered. destruct (answered _ c) eqn:E; [|done].
  apply existsb_exists in E as (o & Ho & [E%Z.eqb_eq _]%andb_prop).
  apply list_elem_of_In, elem_of_filter_bool in Ho as [_ [_ Hd]%andb_prop]. congruence.
Qed.

(** Every open call of a dead session has its answer. *)
Lemma has_result_app t t' es sid call :
  t_entries t' = t_entries t ++ es -> has_result t' sid call = has_result t sid call ||
    existsb (fun e => (e_session e =? sid) && bool_decide (e_call e = Some call) && bool_decide (e_type e = TToolResult)) es.
Proof. intros H. unfold has_result. by rewrite H, existsb_app. Qed.

Lemma orphans_answered t es c :
  map result_key es = map orphan_key (orphan_calls t) -> c ∈ orphan_calls t ->
  existsb (fun e => (e_session e =? c_session c) && bool_decide (e_call e = Some (c_call c)) &&
                    bool_decide (e_type e = TToolResult)) es = true.
Proof.
  intros Hk Hc. assert (H : orphan_key c ∈ map result_key es) by (rewrite Hk; by apply list_elem_of_fmap_2).
  apply list_elem_of_fmap in H as (e & E & He). apply existsb_exists. exists e. split; [by apply list_elem_of_In|].
  unfold orphan_key, result_key in E. injection E as E1 E2 _ E3 _. rewrite <- E1, <- E2, <- E3.
  rewrite Z.eqb_refl, !bool_decide_true by done. done.
Qed.

(** A session's row after the transaction. *)
Lemma recovered_session t i s :
  NoDup (map x_id (t_sessions t)) -> get_session t i = Some s ->
  if dead_owned t s then exists leaf, get_session (recovered t) i = Some (with_leaf leaf (reset_session s))
  else get_session (recovered t) i = Some s.
Proof.
  intros Hnd Hs. destruct (recovered_tables t) as (_ & _ & _ & _ & _ & Hss & _).
  destruct (close_orphans_session (orphan_calls t) t i s Hs) as (leaf & Hl & Hk).
  assert (E : get_session (recovered t) i =
              Some (if dead_owned t s then reset_session (with_leaf leaf s) else with_leaf leaf s)).
  { unfold get_session in *. rewrite Hss. rewrite find_map_same by (intros x; by destruct (dead_owned t x)).
    rewrite Hl. done. }
  destruct (dead_owned t s) eqn:Hd; [by exists leaf|]. rewrite E, Hk; [by destruct s|].
  intros c Hc Hi. unfold orphan_calls in Hc. apply elem_of_filter_bool in Hc as [_ Hc].
  apply andb_prop in Hc as [_ Hc]. apply existsb_exists in Hc as (s' & Hin & Hc). apply andb_prop in Hc as [Hid Hc].
  apply find_some in Hs as [Hin2 Hid2]. assert (s' = s); [|by subst; congruence].
  apply (NoDup_map_inj x_id (t_sessions t)); [done|by apply list_elem_of_In|by apply list_elem_of_In|lia].
Qed.

(** * What a recovery pass does, table by table *)

(** What a pass promises of the store [t'] it makes of [t]. *)
Record recovery_of (t t' : Store) : Prop := {
  (** one error result per orphaned call, appended in order, and nothing else *)
  rec_entries : exists es, t_entries t' = t_entries t ++ es /\ map result_key es = map orphan_key (orphan_calls t);
  (** so an open call of a dead session always has an answer *)
  rec_answered : forall c, c ∈ t_calls t -> open_status (c_status c) = true -> dead_session t (c_session c) = true ->
    has_result t' (c_session c) (c_call c) = true;
  (** calls: the orphans and the lost background jobs are closed; a live session's
      other calls keep their row *)
  rec_calls : t_calls t' = map (fun c => as_orphaned t (as_recovered (orphan_calls t) c)) (t_calls t);
  rec_live_calls : forall c, dead_session t (c_session c) = false -> as_recovered (orphan_calls t) c = c;
  rec_approvals : t_approvals t' = map (as_denied t) (t_approvals t);
  rec_llm_jobs : t_llm_jobs t' = List.filter (fun j => negb (dead_session t (fst j))) (t_llm_jobs t);
  (** the notices, in order: lost jobs, cancelled requests, one nudge per interrupted session *)
  rec_inbox : exists rows, t_inbox t' = t_inbox t ++ rows /\
    map row_key rows =
      map job_key (List.filter (orphan_job t) (map (as_recovered (orphan_calls t)) (t_calls t))) ++
      map approval_key (List.filter (dead_approval t) (t_approvals t)) ++
      map nudge_key (distinct_ids (map c_session (orphan_calls t)));
  (** a live session keeps its row; a dead one is idle, unowned, at iteration 0 *)
  rec_sessions : forall i s, get_session t i = Some s ->
    if dead_owned t s then exists leaf, get_session t' i =
      Some (mk_xsession (x_id s) (x_agent s) Idle 0 leaf (x_parent s) (x_channel s) (x_chat s) None (x_hold s))
    else get_session t' i = Some s;
  (** and a second pass finds nothing to do *)
  rec_idempotent : recovered t' = t'
}.

(** (C5) A crash-recovery pass that commits reclaims exactly the sessions whose owner is no longer registered: every open call of such a session gets one error result, its parked requests are denied and its jobs dropped with a notice each, the session returns to idle; rows of sessions owned by a live instance are untouched; and a second pass changes nothing. *)
Theorem recovery_exact t :
  NoDup (map x_id (t_sessions t)) ->
  exists t', db_recover_stale_sessions true true true t = (0, t', false) /\ recovery_of t t'.
Proof.
  intros Hnd. exists (recovered t). split; [done|].
  pose proof (recovered_tables t) as (_ & He & Hc & Ha & Hj & _ & Hi).
  destruct (close_orphans_entries (orphan_calls t) t) as (es & Hes & Hk).
  cbn zeta in *. split.
  - exists es. by rewrite He.
  - intros c Hin Ho Hd. rewrite (has_result_app t _ es) by (by rewrite He).
    destruct (has_result t (c_session c) (c_call c)) eqn:Hr; [done|]. apply (orphans_answered t); [done|].
    apply elem_of_filter_bool. by rewrite Ho, Hr, Hd.
  - by rewrite Hc, map_map.
  - intros c. apply as_recovered_live.
  - done.
  - done.
  - done.
  - intros i s Hs. exact (recovered_session t i s Hnd Hs).
  - apply recovered_nothing; [apply recovered_alive|apply recovered_jobs].
Qed.

(** Session 1 was running a tool when its instance died; session 2 belongs to a live one. *)
Definition demo_crash : Store := mk_store 1000
  [mk_xsession 1 (Some (bs "main")) ToolRunning 3 1 (-1) None None (Some (bs "i1")) 0;
   mk_xsession 2 (Some (bs "peer")) LlmRunning 1 2 (-1) None None (Some (bs "i2")) 0]
  [mk_entry 1 1 (-1) 1 (Some 1) TToolCall ROLE_ASSISTANT (Some (bs "run")) None None false STOP_REASON_TOOL_USE None None;
   mk_entry 2 2 (-1) 1 (Some 1) TToolCall ROLE_ASSISTANT (Some (bs "run")) None None false STOP_REASON_TOOL_USE None None]
  3 [] 1
  [mk_call 1 1 1 (bs "call_1") (bs "shell") CallRunning None None;
   mk_call 2 2 2 (bs "call_1") (bs "shell") CallRunning None None;
   mk_call 3 1 1 (bs "call_2") (bs "shell") CallBackground None (Some (bs "i1"))]
  [] 1 [] [(1, 0); (2, 0)] [] [] [] [mk_process (bs "i2") 77 990]
  [mk_approval 1 1 None (Some (bs "egress")) None None (bs "apply") ApPending None 900 None].

Lemma recovery_exact_witness :
  NoDup (map x_id (t_sessions demo_crash)) /\
  exists t', db_recover_stale_sessions true true true demo_crash = (0, t', false) /\ recovery_of demo_crash t'.
Proof.
  assert (H : NoDup (map x_id (t_sessions demo_crash))).
  { apply (bool_decide_unpack _). vm_compute. exact I. }
  split; [exact H|]. apply (recovery_exact demo_crash H).
Defined.

Example demo_crash_recovered :
  let t' := recovered demo_crash in
  map x_state (t_sessions t') = [Idle; LlmRunning] /\ map c_status (t_calls t') = [CallDone; CallRunning; CallDone] /\
  map a_state (t_approvals t') = [ApDenied] /\ map q_source (t_inbox t') = [bs "job_result"; bs "approval"; bs "system"] /\
  t_llm_jobs t' = [(2, 0)].
Proof. by vm_compute. Qed.
