(* ===== verification/ApprovalOnce.v ===== *)
(** * One decision, one action: the life of the approvals table

    The gate, the decisions, the sweeps, the parks of tools and crash recovery all write
    the table of approvals.  This file interleaves them in any order and shows that an
    approval lets at most one thing happen, a call of the gate or the application of
    its document, and never without a decision in its favour.  An advance that a
    decision triggers is made of these same steps, so it is not nested here. *)
From stdpp Require Import relations.
From S2P Require Import Prelude CString Libc Json1 Config Store SecretInterp ToolPolicy Approval Resolve Gate Trust Recovery.

Section Settling.
Context {J : Json1} (env : Process).

(** The advance is a step of its own. *)
Definition no_advance (w : World) (_ : Z) : World := w.

Abbreviation resolve := (resolve_approval env no_advance).

Definition pending_row (w : World) (id : Z) : option ApprovalRow :=
  List.find (hit id ApPending) (ap w).

(** What a decision adds to the ledger, when its swap ran on a pending row. *)
Definition grants_now (wr : Writes) (w : World) (id : Z) (d : ApprovalDecision) : list Z :=
  match pending_row w id with
  | Some _ => if wr_resolve wr && negb (bool_decide (d = APPROVAL_DENY)) then [id] else []
  | None => []
  end.

Definition applies_now (wr : Writes) (w : World) (id : Z) (d : ApprovalDecision) : list Z :=
  match pending_row w id with
  | Some a => if wr_resolve wr && bool_decide (d = APPROVAL_ALWAYS) && streq (a_resolve a) (bs "apply") then [id] else []
  | None => []
  end.

(** ** The table after a decision *)
Lemma unpark_ap io w id : ap (approval_unpark_block_window env no_advance io w id) = ap w.
Proof.
  unfold approval_unpark_block_window. destruct (fst io); cbn [negb]; [|done].
  destruct (unpark_row _ _) as [[a c]|]; [|done].
  pose proof (append_tool_result_approvals (w_store w) (a_session a) (snprintf 128 c)
    (approval_background_notice id 512) (snprintf 128 (default [] (a_tool a))) false 0) as H1.
  destruct (append_tool_result _ _ _ _ _ _ _) as [e t1]. cbn [snd] in H1.
  unfold db_tool_call_set_status.
  pose proof (set_state_approvals (p_instance env)
    (update_calls (a_session a) (snprintf 128 c) (set_status CallDone (Some (bs "block_window"))) t1)
    (a_session a) ToolRunning) as H2.
  destruct (session_set_state _ _ _ _) as [ok2 t2]. cbn [snd] in H2.
  destruct (_ && snd io); [|done]. unfold no_advance, ap. cbn. unfold wake. by rewrite H2.
Qed.

Lemma resume_ap w sid : ap (resume env no_advance w sid) = ap w.
Proof. unfold resume, no_advance. exact (set_state_ap env w sid ToolRunning). Qed.

Lemma resolve_ap wr w id d via e : ap (resolve wr w id d via e) = ap (snd (settle wr w id d via)).
Proof.
  unfold resolve_approval. destruct (settle wr w id d via) as [[a|] w1]; cbn [snd]; [|done].
  destruct (approval_is_post_window _ _ _); [exact (post_window_ap env w1 a _ d via e)|].
  destruct (streq _ _); rewrite resume_ap; [apply rerun_ap|apply apply_ap].
Qed.

(** The states a decision leaves, row by row. *)
Definition decided (wr : Writes) (id : Z) (d : ApprovalDecision) (via : cstring) (a : ApprovalRow) : ApprovalRow :=
  if wr_resolve wr && hit id ApPending a then
    with_state (if bool_decide (d = APPROVAL_DENY) then ApDenied
                else if streq (a_resolve a) (bs "apply") then ApConsumed else ApApproved) (Some via) a
  else a.

Lemma pending_row_spec w id a : pending_row w id = Some a -> a ∈ ap w /\ a_id a = id /\ a_state a = ApPending.
Proof.
  intros [Hin Hh]%List.find_some. unfold hit in Hh. apply andb_prop in Hh as [H1 H2%bool_decide_eq_true].
  split; [by apply list_elem_of_In|]. split; [lia|done].
Qed.

Lemma pending_row_none w id a : pending_row w id = None -> a ∈ ap w -> hit id ApPending a = false.
Proof. intros H Ha. eapply List.find_none in H; [exact H|]. by apply list_elem_of_In. Qed.

Lemma existsb_find {A} (f : A -> bool) l : existsb f l = match List.find f l with Some _ => true | None => false end.
Proof. induction l as [|x l IH]; [done|]. cbn. rewrite IH. by destruct (f x). Qed.

Lemma map_unhit {A} (f : A -> A) (h : A -> bool) l :
  (forall a, a ∈ l -> h a = false) -> map (fun a => if h a then f a else a) l = l.
Proof. intros H. apply map_same. intros a Ha. by rewrite H. Qed.

Lemma get_approval_map t id f a :
  NoDup (ids (t_approvals t)) -> a ∈ t_approvals t -> a_id a = id -> (forall b, a_id (f b) = a_id b) ->
  get_approval (with_approvals (map f (t_approvals t)) t) id = Some (f a).
Proof.
  intros Hnd Ha Hi Hf. unfold get_approval. cbn [t_approvals with_approvals].
  rewrite find_map_same by (intros x; by rewrite Hf).
  destruct (List.find _ _) as [b|] eqn:E.
  - apply List.find_some in E as [Hb E]. apply list_elem_of_In in Hb. cbn.
    by rewrite (ids_unique _ b a Hnd Hb Ha) by lia.
  - eapply List.find_none in E; [|by apply list_elem_of_In]. cbn in E. lia.
Qed.

Lemma swap_hit t id from to via :
  swap_state t id from to via =
  (existsb (hit id from) (t_approvals t),
   with_approvals (map (fun a => if hit id from a then with_state to (via a) a else a) (t_approvals t)) t).
Proof. done. Qed.

(** An approval that applies its document is consumed at once. *)
Lemma consume_after id via l a :
  NoDup (ids l) -> a ∈ l -> a_id a = id -> a_state a = ApPending ->
  map (fun b => if hit id ApApproved b then with_state ApConsumed (a_via b) b else b)
    (map (fun b => if hit id ApPending b then with_state ApApproved (Some via) b else b) l) =
  map (fun b => if hit id ApPending b then with_state ApConsumed (Some via) b else b) l.
Proof.
  intros Hnd Ha Hi Hs. rewrite map_map. apply map_ext_in. intros b Hb%list_elem_of_In. unfold hit.
  destruct (a_id b =? id) eqn:E; cbn [andb]; [|by rewrite E].
  rewrite (ids_unique l b a Hnd Hb Ha) by lia. rewrite Hs, !bool_decide_true by done. cbn.
  by rewrite Hi, Z.eqb_refl.
Qed.

Lemma settle_ap wr w id d via :
  NoDup (ids (ap w)) -> wr_consume wr = true -> ap (snd (settle wr w id d via)) = map (decided wr id d via) (ap w).
Proof.
  intros Hnd Hc. unfold settle, approval_resolve, decided. destruct (wr_resolve wr); cbn [andb].
  2:{ cbn. symmetry. apply map_id. }
  rewrite swap_hit, existsb_find. fold (ap w) (pending_row w id).
  destruct (pending_row w id) as [a|] eqn:Ep.
  2:{ cbn. rewrite !map_unhit; [done|..]; intros a; by apply pending_row_none. }
  apply pending_row_spec in Ep as (Ha & Hi & Hs).
  assert (Hhit : forall b, b ∈ ap w -> hit id ApPending b = true -> b = a).
  { intros b Hb Hh. apply (ids_unique (ap w)); [done..|]. unfold hit in Hh. lia. }
  assert (Hha : hit id ApPending a = true) by (unfold hit; by rewrite Hi, Hs, Z.eqb_refl).
  rewrite (get_approval_map (w_store w) id _ a Hnd Ha Hi) by (intros b; cbv beta; destruct (hit id ApPending b); reflexivity).
  rewrite Hha. cbn [a_resolve with_state].
  transitivity (map (fun b => if hit id ApPending b
                              then with_state (if bool_decide (d = APPROVAL_DENY) then ApDenied
                                               else if streq (a_resolve a) (bs "apply") then ApConsumed else ApApproved)
                                     (Some via) b else b) (ap w)).
  2:{ apply map_ext_in. intros b Hb%list_elem_of_In. destruct (hit id ApPending b) eqn:Eb; [|done].
      by rewrite (Hhit b Hb Eb). }
  generalize (streq (a_resolve a) (bs "apply")). intros apply_doc.
  destruct (bool_decide (d = APPROVAL_DENY)); [done|]. destruct apply_doc; [|done]. cbn [negb andb].
  unfold approval_consume. rewrite Hc. subst id.
  exact (consume_after (a_id a) via (ap w) a Hnd Ha eq_refl Hs).
Qed.

End Settling.

Section Once.
Context {J : Json1} (alloc : Z -> bool) (getenv sec : cstring -> option cstring) (env : Process).

Abbreviation resolve := (resolve_approval env no_advance).

(** A world, the approvals that let something happen so far, in order, and those
    decided in favour. *)
Record Ledger := mk_ledger { lg_world : World; lg_used : list Z; lg_granted : list Z }.

Inductive lstep : Ledger -> Ledger -> Prop :=
  (** the gate lets a call through on an approval *)
  | L_run wr ce w u g sid agent tc id once host w' cards :
      wr_consume wr = true ->
      dispatch_gate alloc getenv sec env wr ce w sid agent tc = (Proceed (Some id) once host, w', cards) ->
      lstep (mk_ledger w u g) (mk_ledger w' (u ++ [id]) g)
  (** or does anything else *)
  | L_gate wr ce w u g sid agent tc r w' cards :
      dispatch_gate alloc getenv sec env wr ce w sid agent tc = (r, w', cards) ->
      (forall id o h, r <> Proceed (Some id) o h) ->
      lstep (mk_ledger w u g) (mk_ledger w' u g)
  (** someone, or a deadline, decides *)
  | L_decide wr w u g id d via expires :
      wr_consume wr = true ->
      lstep (mk_ledger w u g)
            (mk_ledger (resolve wr w id d via expires) (u ++ applies_now wr w id d) (g ++ grants_now wr w id d))
  (** a parked call is released with a receipt *)
  | L_unpark io w u g id :
      lstep (mk_ledger w u g) (mk_ledger (approval_unpark_block_window env no_advance io w id) u g)
  (** a tool asks *)
  | L_ask ok timeout sid call tool reason args res w u g :
      lstep (mk_ledger w u g)
            (mk_ledger (on_store (fun t => snd (approval_create ok t timeout sid call tool reason args res)) w) u g)
  (** an instance recovers the sessions of a dead one *)
  | L_recover begin step commit w u g :
      lstep (mk_ledger w u g)
            (mk_ledger (on_store (fun t => snd (fst (db_recover_stale_sessions begin step commit t))) w) u g)
  (** anything else the program does leaves the table alone *)
  | L_other w w' u g : ap w' = ap w -> lstep (mk_ledger w u g) (mk_ledger w' u g).

Definition ledger_ok (x : Ledger) : Prop := LInv (ap (lg_world x)) (lg_used x) (lg_granted x).

(** ** Each step keeps the ledger *)

(** A decision keeps the ledger. *)
Lemma decided_stays wr id d via : stays (decided wr id d via).
Proof.
  intros a. unfold decided, hit. destruct (wr_resolve wr && _) eqn:E; [|done]. split; [done|]. intros Hc.
  by rewrite Hc, andb_false_r, andb_false_r in E.
Qed.

Lemma decide_ledger wr w u g id d via e :
  wr_consume wr = true -> LInv (ap w) u g ->
  LInv (ap (resolve wr w id d via e)) (u ++ applies_now wr w id d) (g ++ grants_now wr w id d).
Proof.
  intros Hc H. rewrite resolve_ap, settle_ap by (done || apply H). unfold applies_now, grants_now.
  pose proof (decided_stays wr id d via) as Hst.
  destruct (pending_row w id) as [a|] eqn:Ep; [destruct (wr_resolve wr) eqn:Ew|]; cbn [andb].
  2: { rewrite !app_nil_r, map_same; [done|]. intros b _. unfold decided. by rewrite Ew. }
  2: { rewrite !app_nil_r, map_same; [done|]. intros b Hb. unfold decided.
       by rewrite (pending_row_none w id b Ep Hb), andb_false_r. }
  apply pending_row_spec in Ep as (Ha & Hi & Hs).
  assert (Hu : id ∉ u).
  { intros Hin. destruct (li_spent _ _ _ H id Hin) as (b & Hb & Hbi & Hbs).
    rewrite (ids_unique (ap w) b a) in Hbs by (apply H || done || congruence). congruence. }
  assert (Hf : decided wr id d via a = with_state (if bool_decide (d = APPROVAL_DENY) then ApDenied
                  else if streq (a_resolve a) (bs "apply") then ApConsumed else ApApproved) (Some via) a).
  { unfold decided, hit. by rewrite Ew, Hi, Hs, Z.eqb_refl. }
  destruct (bool_decide (d = APPROVAL_DENY)) eqn:Ed; cbn [negb].
  - rewrite app_nil_r. apply bool_decide_eq_true in Ed as ->. cbn. rewrite app_nil_r.
    apply linv_same_favour; [done|done|]. intros b. unfold decided, hit. rewrite Ew. cbn [andb].
    case_bool_decide as Hb; [|by rewrite andb_false_r]. by destruct (a_id b =? id); cbn; rewrite ?Hb.
  - assert (Hg : LInv (map (decided wr id d via) (ap w)) u (g ++ [id])).
    { apply (linv_grant _ _ _ _ _ a); try done. intros b. unfold decided, hit. rewrite Ew, Ed. cbn [andb].
      destruct (_ && _) eqn:E; [|by rewrite orb_false_r]. rewrite orb_true_r.
      by destruct (streq (a_resolve b) _). }
    destruct (bool_decide (d = APPROVAL_ALWAYS) && streq (a_resolve a) (bs "apply")) eqn:Ea; [|by rewrite app_nil_r].
    apply linv_use; [done| |done]. apply andb_prop in Ea as [_ Ea]. exists (decided wr id d via a).
    split; [by apply list_elem_of_fmap_2|]. by rewrite Hf, Ea.
Qed.

(** The row a call ran on was approved, so it had not been used. *)
Lemma run_ledger ok w u g a :
  ok = true -> LInv (ap w) u g -> a ∈ ap w -> a_state a = ApApproved ->
  LInv (ap (on_store (fun t => snd (approval_consume ok t (a_id a))) w)) (u ++ [a_id a]) g.
Proof.
  intros -> H Ha Hs. unfold approval_consume.
  set (f := fun b => if hit (a_id a) ApApproved b then with_state ApConsumed (a_via b) b else b).
  change (LInv (map f (ap w)) (u ++ [a_id a]) g). apply linv_use.
  - apply linv_same_favour; [done|..].
    + intros b. unfold f. by destruct (hit _ _ b).
    + intros b. unfold f. destruct (hit _ _ b) eqn:E; [|done]. unfold hit in E.
      apply andb_prop in E as [_ E%bool_decide_eq_true]. by rewrite E.
  - exists (f a). split; [by apply list_elem_of_fmap_2|]. unfold f, hit. by rewrite Hs, Z.eqb_refl.
  - intros Hin. destruct (li_spent _ _ _ H _ Hin) as (b & Hb & Hbi & Hbs).
    rewrite (ids_unique (ap w) b a) in Hbs by (apply H || done). congruence.
Qed.

Lemma gate_run_row wr ce w sid agent tc id once host w' cards :
  dispatch_gate alloc getenv sec env wr ce w sid agent tc = (Proceed (Some id) once host, w', cards) ->
  exists a, id = a_id a /\ authorises w sid tc once a /\
    w' = on_store (fun t => snd (approval_consume (wr_consume wr) t (a_id a))) w.
Proof.
  unfold dispatch_gate, tool_inline_error.
  do 3 (destruct (negb _); [by intros [=]|]). do 3 (case_bool_decide; [by intros [=]|]). cbn zeta.
  destruct (unbound_secret _ _ _ _ _); [by intros [=]|]. destruct (_ || _); [|by intros [=]].
  intros H3. apply approval_gate_proceeds in H3 as (a & [= ->] & -> & _ & Ha & ->). by exists a.
Qed.

(** Recovery denies; it neither grants nor uses. *)
Lemma recover_ledger begin step commit w u g :
  LInv (ap w) u g -> LInv (ap (on_store (fun t => snd (fst (db_recover_stale_sessions begin step commit t))) w)) u g.
Proof.
  intros H. unfold ap, on_store, db_recover_stale_sessions. cbn [w_store].
  assert (Hr : LInv (t_approvals (recovered (w_store w))) u g).
  { pose proof (recovered_tables (w_store w)) as (_ & _ & _ & Ha & _). rewrite Ha.
    apply linv_same_favour; [done|..]; intros b; unfold as_denied, dead_approval; destruct (_ && _) eqn:E; try done.
    - split; [done|]. intros Hc. by rewrite Hc in E.
    - apply andb_prop in E as [E%bool_decide_eq_true _]. by rewrite E. }
  by destruct begin, step, commit.
Qed.

Lemma lstep_ledger x y : lstep x y -> ledger_ok x -> ledger_ok y.
Proof.
  intros Hstep. destruct Hstep; unfold ledger_ok; cbn [lg_world lg_used lg_granted]; intros H'.
  - apply gate_run_row in H0 as (a & -> & (Ha & _ & Hs & _) & ->). by apply run_ledger.
  - eapply linv_quiet; [done|]. by eapply gate_quiet.
  - by apply decide_ledger.
  - by rewrite unpark_ap.
  - eapply linv_quiet; [done|]. apply create_quiet.
  - by apply recover_ledger.
  - by rewrite H.
Qed.

Definition empty_ledger (w : World) : Ledger := mk_ledger w [] [].

Lemma empty_ledger_ok w : ap w = [] -> ledger_ok (empty_ledger w).
Proof.
  intros H. unfold ledger_ok. cbn. rewrite H.
  by split; try apply NoDup_nil_2; intros ? ?%elem_of_nil.
Qed.

Lemma ledger_reachable x y : rtc lstep x y -> ledger_ok x -> ledger_ok y.
Proof. induction 1 as [|x y z H _ IH]; [done|]. intros Hx. apply IH. by eapply lstep_ledger. Qed.

(** (C1) Whatever interleaving of gates, decisions, block-window releases, requests of tools, recovery passes and other work runs from a database without approvals, no approval lets more than one call run or document be applied, none does so without one decision in its favour (which is never repeated), and each one used is left consumed, so that no later call can run on it: provided the statement that marks a row consumed succeeds. *)
Theorem approval_single_use w x :
  ap w = [] -> rtc lstep (empty_ledger w) x ->
  NoDup (lg_used x) /\ NoDup (lg_granted x) /\ (forall id, id ∈ lg_used x -> id ∈ lg_granted x) /\
  forall id, id ∈ lg_used x -> forall a, a ∈ ap (lg_world x) -> a_id a = id -> a_state a = ApConsumed.
Proof.
  intros Hw Hx. destruct (ledger_reachable _ _ Hx (empty_ledger_ok w Hw)) as [H1 H2 H3 H4 H5 H6].
  split; [done|]. split; [done|]. split.
  - intros id Hid. destruct (H4 id Hid) as (a & Ha & <- & Hs). apply H6; [done|]. by rewrite Hs.
  - intros id Hid a Ha Hi. destruct (H4 id Hid) as (b & Hb & Hbi & Hs).
    by rewrite (ids_unique _ a b H1 Ha Hb) by congruence.
Qed.
End Once.

(** ** A run *)
Abbreviation demo_gate :=
  (fun wr w => @dispatch_gate demo_docs (fun _ => true) demo_vars demo_vars demo_process wr demo_env w 1 (Some (bs "main")) demo_call).

(** The sensitive call parks, the operator allows it once, and it runs. *)
Definition demo_parked : World := snd (fst (demo_gate demo_writes (demo_world []))).
Definition demo_decided : World :=
  @resolve_approval demo_docs demo_process no_advance demo_writes demo_parked 1 APPROVAL_ONCE (bs "cli") 0.
Definition demo_ran : World := snd (fst (demo_gate demo_writes demo_decided)).

Lemma demo_park_step :
  demo_gate demo_writes (demo_world []) = (Parked, demo_parked, snd (demo_gate demo_writes (demo_world []))).
Proof. vm_compute. reflexivity. Qed.

Lemma demo_decide_step :
  applies_now demo_writes demo_parked 1 APPROVAL_ONCE = [] /\ grants_now demo_writes demo_parked 1 APPROVAL_ONCE = [1].
Proof. vm_compute. split; reflexivity. Qed.

Lemma demo_run_step :
  demo_gate demo_writes demo_decided = (Proceed (Some 1) true (bs "api.bank.com"), demo_ran, []).
Proof. vm_compute. reflexivity. Qed.

Lemma approval_single_use_witness :
  let lstep := @lstep demo_docs (fun _ => true) demo_vars demo_vars demo_process in
  ap (demo_world []) = [] /\ rtc lstep (empty_ledger (demo_world [])) (mk_ledger demo_ran [1] [1]) /\
  NoDup (A := Z) [1] /\ forall a, a ∈ ap demo_ran -> a_id a = 1 -> a_state a = ApConsumed.
Proof.
  assert (Hr : rtc (@lstep demo_docs (fun _ => true) demo_vars demo_vars demo_process)
                 (empty_ledger (demo_world [])) (mk_ledger demo_ran [1] [1])).
  { apply rtc_l with (mk_ledger demo_parked [] []).
    { eapply L_gate; [exact demo_park_step|]. discriminate. }
    apply rtc_l with (mk_ledger demo_decided [] [1]).
    { pose proof (@L_decide demo_docs (fun _ => true) demo_vars demo_vars demo_process demo_writes demo_parked [] [] 1
                    APPROVAL_ONCE (bs "cli") 0 eq_refl) as H.
      destruct demo_decide_step as [H1 H2]. rewrite H1, H2 in H. exact H. }
    apply rtc_once. exact (@L_run demo_docs (fun _ => true) demo_vars demo_vars demo_process demo_writes demo_env demo_decided [] [1]
                             1 (Some (bs "main")) demo_call 1 _ _ demo_ran [] eq_refl demo_run_step). }
  split; [reflexivity|]. split; [exact Hr|].
  destruct (@approval_single_use demo_docs (fun _ => true) demo_vars demo_vars demo_process (demo_world []) _ eq_refl Hr)
    as (Hn & _ & _ & Hc).
  split; [exact Hn|]. intros a Ha Hi. apply (Hc 1); [apply list_elem_of_here|exact Ha|exact Hi].
Defined.

(** ** What the gate leaves open *)

(** When the statement that consumes the row fails, the call runs all the same and the
    row still authorises the next one. *)
Example gate_ignores_failed_consume :
  let wr := mk_writes true true false in
  let w := demo_world [demo_approved] in
  demo_gate wr w = (Proceed (Some 1) true (bs "api.bank.com"), w, []).
Proof. vm_compute. reflexivity. Qed.

(** A row is looked up by session and call id alone: an approval of an ordinary shell
    call, still unconsumed, lets a later web call to a sensitive host through when the
    provider's id is reused. *)
Definition demo_other : ApprovalRow :=
  mk_approval 1 1 (Some (bs "call_1")) (Some (bs "shell")) (Some APPROVAL_PARK_REQUIRED) (Some (bs "{'command':'ls'}"))
    (bs "rerun") ApApproved (Some (bs "cli")) 100 (Some 500).

Example gate_accepts_reused_call_id :
  fst (fst (demo_gate demo_writes (demo_world [demo_other]))) = Proceed (Some 1) true (bs "api.bank.com").
Proof. vm_compute. reflexivity. Qed.
