(* ===== verification/Settle.v ===== *)
(** * What a decision does: resolve_approval of src/resolve.c, effect by effect

    The first decision wins; a second one finds no pending row.  In the window the
    frozen call runs again or is answered; after it the session gets one inbox row.
    Only an "always" given in the window, for an ordinary request, leaves a standing
    mode behind. *)
From S2P Require Import Prelude CString Libc Json1 Config Store SecretInterp ToolPolicy Approval Resolve Gate Trust Recovery ApprovalOnce.

Section Settle.
Context {J : Json1} (env : Process).

Abbreviation resolve := (resolve_approval env no_advance).

(** ** The swap touches the table alone *)
Lemma swap_store t id from to via :
  snd (swap_state t id from to via) = with_approvals (t_approvals (snd (swap_state t id from to via))) t.
Proof. done. Qed.

Lemma settle_world wr w id d via :
  snd (settle wr w id d via) = on_store (with_approvals (ap (snd (settle wr w id d via)))) w.
Proof.
  unfold settle, approval_resolve, ap. destruct (wr_resolve wr).
  2:{ cbn. unfold on_store. destruct w as [t ? ? ? ? ? ? ? ? ?]. by destruct t. }
  destruct (swap_state _ _ _ _ _) as [c t'] eqn:E.
  assert (Et : t' = with_approvals (t_approvals t') (w_store w)).
  { pose proof (swap_store (w_store w) id ApPending
      (if negb (bool_decide (d = APPROVAL_DENY)) then ApApproved else ApDenied) (fun _ => Some via)) as H.
    by rewrite E in H. }
  assert (Hs : forall t2, t2 = with_approvals (t_approvals t2) (w_store w) ->
            on_store (fun _ => t2) w = on_store (with_approvals (t_approvals t2)) w).
  { intros t2 H2. unfold on_store. by rewrite H2 at 1. }
  destruct (if c then get_approval t' id else None) as [a|]; cbn [snd]; [|by apply Hs].
  destruct (_ && _); [|by apply Hs]. unfold approval_consume. destruct (wr_consume wr); [|by apply Hs].
  rewrite Et. done.
Qed.

Lemma settle_row wr w id d via :
  wr_resolve wr = true -> NoDup (ids (ap w)) ->
  fst (settle wr w id d via) =
  option_map (with_state (if bool_decide (d = APPROVAL_DENY) then ApDenied else ApApproved) (Some via)) (pending_row w id).
Proof.
  intros Hr Hnd. unfold settle, approval_resolve. rewrite Hr, swap_hit, existsb_find.
  fold (ap w) (pending_row w id). destruct (pending_row w id) as [a|] eqn:Ep; [|done].
  apply pending_row_spec in Ep as (Ha & Hi & Hs).
  rewrite (get_approval_map (w_store w) id _ a Hnd Ha Hi)
    by (intros b; cbv beta; destruct (hit id ApPending b); reflexivity).
  assert (Hh : hit id ApPending a = true) by (unfold hit; by rewrite Hi, Hs, Z.eqb_refl).
  rewrite Hh. by destruct (bool_decide _).
Qed.

(** A decision on an id that is not pending is not one. *)
Lemma resolve_not_pending wr w id d via e : pending_row w id = None -> resolve wr w id d via e = w.
Proof.
  intros Hp. unfold resolve_approval, settle, approval_resolve. destruct (wr_resolve wr).
  2:{ cbn. unfold on_store. destruct w as [t ? ? ? ? ? ? ? ? ?]. by destruct t. }
  rewrite swap_hit, existsb_find. fold (ap w) (pending_row w id). rewrite Hp.
  rewrite map_unhit by (intros a; by apply pending_row_none).
  unfold on_store, ap. destruct w as [t ? ? ? ? ? ? ? ? ?]. by destruct t.
Qed.

Lemma decided_not_pending wr w id d via :
  wr_resolve wr = true -> List.find (hit id ApPending) (map (decided wr id d via) (ap w)) = None.
Proof.
  intros Hr. destruct (List.find _ _) as [b|] eqn:E; [|done]. exfalso. apply List.find_some in E as [Hb Hh].
  apply in_map_iff in Hb as (a & <- & _). unfold decided in Hh. rewrite Hr in Hh. cbn [andb] in Hh.
  destruct (hit id ApPending a) eqn:E; [|congruence]. unfold hit in Hh. apply andb_prop in Hh as [_ Hh].
  apply bool_decide_eq_true in Hh. cbn [a_state with_state] in Hh.
  destruct (bool_decide _); [done|]. by destruct (streq (a_resolve a) _).
Qed.

(** The first decision on a request wins: once one has been recorded, any further decision on it, by an operator, a channel or a deadline, changes nothing at all; the same holds for an id no request has. *)
Theorem first_decision_wins wr wr' w id d via e d' via' e' :
  NoDup (ids (ap w)) -> wr_resolve wr = true -> wr_consume wr = true ->
  let w' := resolve_approval env no_advance wr w id d via e in
  resolve_approval env no_advance wr' w' id d' via' e' = w' /\ (pending_row w id = None -> w' = w).
Proof.
  intros Hnd Hr Hc. cbn zeta. split; [|by apply resolve_not_pending].
  apply resolve_not_pending. unfold pending_row. rewrite resolve_ap, settle_ap by done. by apply decided_not_pending.
Qed.

(** ** A re-run request *)

(** The world with the table settled. *)
Definition settled (wr : Writes) (w : World) (id : Z) (d : ApprovalDecision) (via : cstring) : World :=
  on_store (with_approvals (map (decided wr id d via) (ap w))) w.

Definition in_window (w : World) (a : ApprovalRow) : bool :=
  negb (approval_is_post_window (w_store w) (a_session a) (a_call a)).

(** What a decision on a re-run request leaves, beside the table of approvals. *)
Record rerun_effect (w : World) (a : ApprovalRow) (d : ApprovalDecision) (via : cstring) (w' : World) : Prop := {
  (** the standing mode *)
  re_grants : w_grants w' =
    match session_get_agent_name (w_store w) (a_session a) with
    | Some agent =>
        if in_window w a && bool_decide (d = APPROVAL_ALWAYS) && negb (approval_is_sensitive a)
        then w_grants (agent_config_set_tool_mode w (Some agent) (a_tool a) TOOL_MODE_SILENT) else w_grants w
    | None => w_grants w
    end;
  (** a denied call is answered, once, and closed *)
  re_entries : if in_window w a && bool_decide (d = APPROVAL_DENY)
    then forall c, a_call a = Some c -> exists en, t_entries (w_store w') = t_entries (w_store w) ++ [en] /\
           e_session en = a_session a /\ e_call en = Some c /\ e_type en = TToolResult /\ e_is_error en = true
    else t_entries (w_store w') = t_entries (w_store w);
  re_calls : t_calls (w_store w') =
    match a_call a with
    | Some c => if in_window w a && bool_decide (d = APPROVAL_DENY)
                then map (fun r => if is_call (a_session a) c r then set_status CallDone (Some via) r else r)
                       (t_calls (w_store w))
                else t_calls (w_store w)
    | None => t_calls (w_store w)
    end;
  (** outside the window the outcome is one inbox row *)
  re_inbox : if in_window w a then t_inbox (w_store w') = t_inbox (w_store w)
    else exists q, t_inbox (w_store w') = t_inbox (w_store w) ++ [q] /\ q_session q = a_session a /\
           q_source q = bs "approval" /\ q_consumed q = false;
  (** and in it the turn goes on *)
  re_state : forall s, get_session (w_store w) (a_session a) = Some s ->
    exists s', get_session (w_store w') (a_session a) = Some s' /\
      x_state s' = if in_window w a then ToolRunning else x_state s;
  re_woken : t_woken (w_store w') = t_woken (w_store w) ++ [a_session a]
}.

Lemma settle_eq wr w id d via :
  NoDup (ids (ap w)) -> wr_consume wr = true -> snd (settle wr w id d via) = settled wr w id d via.
Proof. intros Hnd Hc. by rewrite settle_world, settle_ap. Qed.

Lemma resolve_rerun_eq wr w id d via e a :
  NoDup (ids (ap w)) -> wr_resolve wr = true -> wr_consume wr = true -> pending_row w id = Some a ->
  a_resolve a = bs "rerun" ->
  resolve wr w id d via e =
    let w1 := settled wr w id d via in
    let a1 := with_state (if bool_decide (d = APPROVAL_DENY) then ApDenied else ApApproved) (Some via) a in
    let agent := session_get_agent_name (w_store w) (a_session a) in
    if in_window w a then resume env no_advance (resolve_rerun w1 a1 agent d via) (a_session a)
    else on_store (wake (a_session a)) (resolve_approval_post_window env w1 a1 agent d via e).
Proof.
  intros Hnd Hr Hc Hp Ha. pose proof (settle_row wr w id d via Hr Hnd) as H1. rewrite Hp in H1. cbn [option_map] in H1.
  pose proof (settle_eq wr w id d via Hnd Hc) as H2. unfold resolve_approval.
  destruct (settle wr w id d via) as [o w1]. cbn [fst snd] in H1, H2. subst o w1. cbn zeta.
  change (a_resolve (with_state _ _ a)) with (a_resolve a). rewrite Ha. unfold in_window.
  change (approval_is_post_window _ _ _) with (approval_is_post_window (w_store w) (a_session a) (a_call a)) at 1.
  by destruct (approval_is_post_window _ _ _).
Qed.

(** After the window. *)
Lemma post_window_effect wr w id d via e a st :
  a_resolve a = bs "rerun" -> in_window w a = false ->
  let w1 := settled wr w id d via in
  let agent := session_get_agent_name (w_store w) (a_session a) in
  rerun_effect w a d via
    (on_store (wake (a_session a)) (resolve_approval_post_window env w1 (with_state st (Some via) a) agent d via e)).
Proof.
  intros Ha Hw. cbn zeta. unfold resolve_approval_post_window. change (a_resolve (with_state _ _ a)) with (a_resolve a).
  rewrite Ha. change (streq (bs "rerun") (bs "apply")) with false. cbn iota.
  assert (H : forall o, rerun_effect w a d via (on_store (wake (a_session a))
               (approval_deliver_postwindow (settled wr w id d via) (with_state st (Some via) a) o None))).
  { intros o. split; rewrite ?Hw; cbn [andb]; try done.
    - by destruct (session_get_agent_name _ _).
    - by destruct (a_call a).
    - eexists. by split_all.
    - intros s Hs. by exists s. }
  destruct d; apply H.
Qed.

(** The turn goes on in a session that waits. *)
Lemma resume_state w1 sid s :
  get_session (w_store w1) sid = Some s -> x_state s <> UnknownState ->
  exists s', get_session (w_store (resume env no_advance w1 sid)) sid = Some s' /\ x_state s' = ToolRunning.
Proof.
  intros Hs Hk. exists (entered (p_instance env) ToolRunning s). split; [|done].
  change (get_session (snd (session_set_state (p_instance env) (w_store w1) sid ToolRunning)) sid =
          Some (entered (p_instance env) ToolRunning s)).
  rewrite set_state_get, Hs, Z.eqb_refl. by destruct (x_state s).
Qed.

Lemma resume_same w1 sid :
  let w2 := resume env no_advance w1 sid in
  w_grants w2 = w_grants w1 /\ t_entries (w_store w2) = t_entries (w_store w1) /\
  t_calls (w_store w2) = t_calls (w_store w1) /\ t_inbox (w_store w2) = t_inbox (w_store w1) /\
  t_woken (w_store w2) = t_woken (w_store w1) ++ [sid].
Proof.
  cbn zeta. pose proof (set_state_same (p_instance env) (w_store w1) sid ToolRunning) as H.
  unfold same_but_sessions in H. unfold resume, no_advance, set_state, on_store, wake.
  cbn [w_store w_grants t_entries t_calls t_inbox t_woken with_woken]. rewrite H. by split_all.
Qed.

Lemma window_session w a : in_window w a = true ->
  (exists c, a_call a = Some c) /\ exists s, get_session (w_store w) (a_session a) = Some s /\ x_state s = AwaitingApproval.
Proof.
  unfold in_window, approval_is_post_window. rewrite negb_orb, !negb_involutive.
  intros [H1%bool_decide_eq_true H2%bool_decide_eq_true]%andb_prop. split.
  - destruct (a_call a) as [c|]; [by exists c|done].
  - destruct (get_session _ _) as [s|]; [|done]. injection H2 as H2. by exists s.
Qed.

(** The answer of a refused call. *)
Lemma answer_effect w1 a text via c :
  a_call a = Some c ->
  let w2 := answer w1 a text true via in
  w_grants w2 = w_grants w1 /\ t_inbox (w_store w2) = t_inbox (w_store w1) /\
  t_woken (w_store w2) = t_woken (w_store w1) /\
  t_calls (w_store w2) = map (fun r => if is_call (a_session a) c r then set_status CallDone (Some via) r else r)
                           (t_calls (w_store w1)) /\
  (exists en, t_entries (w_store w2) = t_entries (w_store w1) ++ [en] /\ e_session en = a_session a /\
     e_call en = Some c /\ e_type en = TToolResult /\ e_is_error en = true) /\
  (forall s, get_session (w_store w1) (a_session a) = Some s ->
     exists s', get_session (w_store w2) (a_session a) = Some s' /\ x_state s' = x_state s).
Proof.
  intros Hc. unfold answer. rewrite Hc. unfold on_store. cbn [w_grants w_store]. set (t := w_store w1). clearbody t.
  unfold append_tool_result.
  pose proof (insert_entry_rest t (a_session a) (leaf_of t (a_session a)) (pick_iter t (a_session a) 0) TToolResult
    ROLE_TOOL (Some text) (Some c) (Some (tool_of a)) true 0 None None) as Hr.
  pose proof (insert_entry_entries t (a_session a) (leaf_of t (a_session a)) (pick_iter t (a_session a) 0) TToolResult
    ROLE_TOOL (Some text) (Some c) (Some (tool_of a)) true 0 None None) as He.
  pose proof (insert_entry_get t (a_session a) (leaf_of t (a_session a)) (pick_iter t (a_session a) 0) TToolResult
    ROLE_TOOL (Some text) (Some c) (Some (tool_of a)) true 0 None None (a_session a)) as Hg.
  destruct (insert_entry _ _ _ _ _ _ _ _ _ _ _ _ _) as [n t1]. cbn [snd] in *.
  destruct Hr as (_ & _ & Hi & Hk & _ & _ & _ & _ & _ & _ & _ & Hw).
  unfold db_tool_call_set_status, update_calls. cbn [snd t_inbox t_woken t_calls t_entries with_calls].
  rewrite Hk. split_all; try done.
  - eexists. by split_all.
  - intros s Hs. unfold get_session in *. cbn [t_sessions with_calls]. rewrite Hg, Hs. eexists. split; [done|].
    by destruct (_ && _).
Qed.

Lemma window_effect wr w id d via a st :
  in_window w a = true ->
  let w1 := settled wr w id d via in
  let agent := session_get_agent_name (w_store w) (a_session a) in
  rerun_effect w a d via (resume env no_advance (resolve_rerun w1 (with_state st (Some via) a) agent d via) (a_session a)).
Proof.
  intros Hw. cbn zeta. destruct (window_session w a Hw) as [[c Hc] (s & Hs & Hst)].
  set (w1 := settled wr w id d via). set (a1 := with_state st (Some via) a).
  set (agent := session_get_agent_name (w_store w) (a_session a)).
  assert (Hk : x_state s <> UnknownState) by congruence.
  destruct (resume_same (resolve_rerun w1 a1 agent d via) (a_session a)) as (Eg & Ee & Ec & Ei & Ew).
  destruct (decide (d = APPROVAL_DENY)) as [->|Hd].
  - cbn [resolve_rerun] in *.
    destruct (answer_effect w1 a1 (rerun_denied_text w1 a1 via) via c Hc) as (Fg & Fi & Fw & Fc & Fe & Fs).
    destruct (Fs s Hs) as (s2 & Hs2 & Hst2). clearbody agent.
    destruct (resume_state _ _ s2 Hs2) as (s3 & Hs3 & Hst3); [congruence|].
    split; rewrite ?Hw, ?bool_decide_true by done; cbn [andb].
    + rewrite Eg, Fg. by destruct (session_get_agent_name (w_store w) (a_session a)).
    + rewrite Ee. intros c' Hc'. assert (c' = c) as -> by congruence. exact Fe.
    + rewrite Hc, Ec. exact Fc.
    + rewrite Ei. exact Fi.
    + intros s0 _. by exists s3.
    + rewrite Ew, Fw. done.
  - assert (Hsame : w_store (resolve_rerun w1 a1 agent d via) = w_store w1).
    { unfold resolve_rerun. destruct d; [done|done|]. destruct agent as [ag|]; [|done].
      destruct (approval_is_sensitive a1); [done|]. unfold agent_config_set_tool_mode. by destruct (a_tool a1). }
    destruct (resume_state (resolve_rerun w1 a1 agent d via) (a_session a) s) as (s3 & Hs3 & Hst3);
      [by rewrite Hsame|done|].
    split; rewrite ?Hw, ?(bool_decide_false (d = APPROVAL_DENY)) by done; cbn [andb].
    + rewrite Eg. fold agent. unfold resolve_rerun.
      destruct d; [done|by destruct agent|]. destruct agent as [ag|]; [|done].
      change (approval_is_sensitive a1) with (approval_is_sensitive a). change (a_tool a1) with (a_tool a).
      destruct (approval_is_sensitive a); cbn; [done|]. by destruct (a_tool a).
    + by rewrite Ee, Hsame.
    + rewrite Hc, Ec. by rewrite Hsame.
    + by rewrite Ei, Hsame.
    + intros s0 _. by exists s3.
    + by rewrite Ew, Hsame.
Qed.

(** (C4) A decision on a re-run request settles that row and no other, and acts by where the turn stands.  While the call waits, a refusal answers it with one error result and closes it, an approval lets it run again unchanged, and the session goes back to work; only "always" for a request without a sensitive target leaves a standing mode, on the agent's tool.  After the window no call, entry or mode changes: the session gets one inbox row. *)
Theorem rerun_decision wr w id d via e a :
  NoDup (ids (ap w)) -> wr_resolve wr = true -> wr_consume wr = true -> pending_row w id = Some a ->
  a_resolve a = bs "rerun" ->
  ap (resolve wr w id d via e) = map (decided wr id d via) (ap w) /\
  rerun_effect w a d via (resolve wr w id d via e).
Proof.
  intros Hnd Hr Hc Hp Ha. split; [by rewrite resolve_ap, settle_ap|].
  rewrite (resolve_rerun_eq wr w id d via e a Hnd Hr Hc Hp Ha). cbn zeta.
  destruct (in_window w a) eqn:Hw; [by apply window_effect|by apply post_window_effect].
Qed.
End Settle.

(** ** The end of the wait window *)
Section Unpark.
Context {J : Json1} (env : Process).

Abbreviation unpark := (approval_unpark_block_window env no_advance).

(** What releasing a parked call leaves. *)
Record unparked (w : World) (a : ApprovalRow) (c : cstring) (w' : World) : Prop := {
  up_approvals : ap w' = ap w;
  up_entries : exists en, t_entries (w_store w') = t_entries (w_store w) ++ [en] /\ e_session en = a_session a /\
    e_call en = Some c /\ e_type en = TToolResult /\ e_is_error en = false;
  up_calls : t_calls (w_store w') =
    map (fun r => if is_call (a_session a) c r then set_status CallDone (Some (bs "block_window")) r else r)
      (t_calls (w_store w));
  up_state : exists s, get_session (w_store w') (a_session a) = Some s /\ x_state s = ToolRunning;
  up_inbox : t_inbox (w_store w') = t_inbox (w_store w);
  up_woken : t_woken (w_store w') = t_woken (w_store w) ++ [a_session a]
}.

Lemma unpark_row_spec t id a c :
  unpark_row t id = Some (a, c) ->
  a ∈ t_approvals t /\ a_id a = id /\ a_state a = ApPending /\ a_call a = Some c /\
  exists s, get_session t (a_session a) = Some s /\ x_state s = AwaitingApproval.
Proof.
  unfold unpark_row. destruct (List.find _ _) as [b|] eqn:E; [|done].
  destruct (get_session t (a_session b)) as [s|] eqn:Es; [|done]. destruct (a_call b) as [c'|] eqn:Ec; [|done].
  destruct (bool_decide (x_state s = AwaitingApproval) && _) eqn:Eb; [|done]. intros [= -> ->].
  apply List.find_some in E as [Hb Hh]. apply andb_prop in Hh as [Hi Hp]. apply andb_prop in Eb as [Hs _].
  apply bool_decide_eq_true in Hp, Hs. split_all; [by apply list_elem_of_In|lia|done|done|by exists s].
Qed.

(** The transaction's store. *)
Lemma unpark_store w a c text tool s :
  get_session (w_store w) (a_session a) = Some s ->
  let (_, t1) := append_tool_result (w_store w) (a_session a) c text tool false 0 in
  let t2 := update_calls (a_session a) c (set_status CallDone (Some (bs "block_window"))) t1 in
  unparked w a c (on_store (wake (a_session a))
    (on_store (fun _ => update_session (a_session a) (entered (p_instance env) ToolRunning) t2) w)).
Proof.
  intros Hs. unfold append_tool_result. set (t := w_store w) in *.
  pose proof (insert_entry_rest t (a_session a) (leaf_of t (a_session a)) (pick_iter t (a_session a) 0) TToolResult
    ROLE_TOOL (Some text) (Some c) (Some tool) false 0 None None) as Hr.
  pose proof (insert_entry_entries t (a_session a) (leaf_of t (a_session a)) (pick_iter t (a_session a) 0) TToolResult
    ROLE_TOOL (Some text) (Some c) (Some tool) false 0 None None) as He.
  pose proof (insert_entry_get t (a_session a) (leaf_of t (a_session a)) (pick_iter t (a_session a) 0) TToolResult
    ROLE_TOOL (Some text) (Some c) (Some tool) false 0 None None (a_session a)) as Hg.
  pose proof (insert_entry_approvals t (a_session a) (leaf_of t (a_session a)) (pick_iter t (a_session a) 0) TToolResult
    ROLE_TOOL (Some text) (Some c) (Some tool) false 0 None None) as Ha.
  destruct (insert_entry _ _ _ _ _ _ _ _ _ _ _ _ _) as [n t1]. cbn [snd] in *.
  destruct Hr as (_ & _ & Hi & Hk & _ & _ & _ & _ & _ & _ & _ & Hw). cbn zeta. split.
  - exact Ha.
  - eexists. split; [exact He|]. by split_all.
  - cbn. by rewrite Hk.
  - rewrite Hs in Hg. match type of Hg with _ = Some ?x => set (s1 := x) in Hg end. exists (entered (p_instance env) ToolRunning s1).
    split; [|done]. unfold on_store, wake. cbn [w_store]. set (t2 := update_calls _ _ _ t1).
    transitivity (get_session (update_session (a_session a) (entered (p_instance env) ToolRunning) t2) (a_session a)); [done|].
    rewrite get_session_update by done. rewrite Z.eqb_refl.
    change (get_session t2 (a_session a)) with (get_session t1 (a_session a)). by rewrite Hg.
  - exact Hi.
  - cbn. by rewrite Hw.
Qed.

(** The end of a call's wait window is all or nothing: either nothing changes, or the call gets one receipt as its result and is closed, its session goes back to work and is woken, and in both cases the request stays as it was, pending and open to a decision.  A call whose id the 128-byte buffer cuts is never released. *)
Theorem unpark_all_or_nothing io w id :
  ap (unpark io w id) = ap w /\
  (unpark io w id = w \/
   exists a c, unpark_row (w_store w) id = Some (a, c) /\ a_state a = ApPending /\
     unparked w a (snprintf 128 c) (unpark io w id)) /\
  (forall a c, unpark_row (w_store w) id = Some (a, c) ->
     (forall r, r ∈ t_calls (w_store w) -> is_call (a_session a) (snprintf 128 c) r = false) -> unpark io w id = w).
Proof.
  split; [apply unpark_ap|].
  unfold approval_unpark_block_window. destruct (fst io); cbn [negb]; [|split; [by left|done]].
  destruct (unpark_row (w_store w) id) as [[a c]|] eqn:E; [|split; [by left|done]].
  destruct (unpark_row_spec _ _ _ _ E) as (Hin & Hid & Hp & Hc & s & Hs & Hst).
  pose proof (unpark_store w a (snprintf 128 c) (approval_background_notice id 512)
    (snprintf 128 (default [] (a_tool a))) s Hs) as Hu.
  unfold append_tool_result in *.
  pose proof (insert_entry_rest (w_store w) (a_session a) (leaf_of (w_store w) (a_session a))
    (pick_iter (w_store w) (a_session a) 0) TToolResult ROLE_TOOL (Some (approval_background_notice id 512))
    (Some (snprintf 128 c)) (Some (snprintf 128 (default [] (a_tool a)))) false 0 None None) as Hr.
  pose proof (insert_entry_get (w_store w) (a_session a) (leaf_of (w_store w) (a_session a))
    (pick_iter (w_store w) (a_session a) 0) TToolResult ROLE_TOOL (Some (approval_background_notice id 512))
    (Some (snprintf 128 c)) (Some (snprintf 128 (default [] (a_tool a)))) false 0 None None (a_session a)) as Hg.
  destruct (insert_entry _ _ _ _ _ _ _ _ _ _ _ _ _) as [n t1]. cbn [snd] in Hr, Hg. rewrite Hs in Hg.
  destruct Hr as (_ & _ & _ & Hk & _). unfold db_tool_call_set_status.
  set (t2 := update_calls _ _ _ t1) in *.
  assert (Hg2 : get_session t2 (a_session a) = get_session t1 (a_session a)) by done.
  unfold session_set_state. rewrite Hg2, Hg.
  replace (may_enter _ ToolRunning) with true by (symmetry; destruct (_ && _); cbn; by rewrite Hst).
  rewrite Hk. split.
  - destruct (_ && snd io); [right; by exists a, c|by left].
  - intros a' c' [= <- <-] Hn. destruct (existsb _ _) eqn:Ex; [|done]. exfalso.
    apply existsb_exists in Ex as (r & Hr & Hx). rewrite Hn in Hx; [done|]. by apply list_elem_of_In.
Qed.
End Unpark.

(** ** Witnesses *)

(** The sensitive call of the demo parks as request 1; the operator says always. *)
Definition demo_request : ApprovalRow :=
  mk_approval 1 1 (Some (bs "call_1")) (Some (bs "web_fetch")) (Some APPROVAL_PARK_SENSITIVE) (Some demo_args)
    (bs "rerun") ApPending None 1000 (Some 4600).

Lemma demo_parked_ids : NoDup (ids (ap demo_parked)).
Proof. apply (bool_decide_unpack _). vm_compute. exact I. Qed.

Lemma first_decision_wins_witness :
  let w' := @resolve_approval demo_docs demo_process no_advance demo_writes demo_parked 1 APPROVAL_DENY (bs "cli") 0 in
  map a_state (ap demo_parked) = [ApPending] /\ map a_state (ap w') = [ApDenied] /\
  @resolve_approval demo_docs demo_process no_advance demo_writes w' 1 APPROVAL_ALWAYS (bs "channel:discord:1") 0 = w'.
Proof.
  cbn zeta. split; [vm_compute; reflexivity|]. split; [vm_compute; reflexivity|].
  exact (proj1 (@first_decision_wins demo_docs demo_process demo_writes demo_writes demo_parked 1 APPROVAL_DENY (bs "cli") 0
           APPROVAL_ALWAYS (bs "channel:discord:1") 0 demo_parked_ids eq_refl eq_refl)).
Defined.

Lemma rerun_decision_witness :
  exists a, pending_row demo_parked 1 = Some a /\ in_window demo_parked a = true /\ approval_is_sensitive a = true /\
    rerun_effect demo_parked a APPROVAL_ALWAYS (bs "cli")
      (@resolve_approval demo_docs demo_process no_advance demo_writes demo_parked 1 APPROVAL_ALWAYS (bs "cli") 0).
Proof.
  destruct (pending_row demo_parked 1) as [a|] eqn:E; [|vm_compute in E; discriminate].
  exists a. split; [reflexivity|].
  assert (Ha : in_window demo_parked a = true /\ approval_is_sensitive a = true /\ a_resolve a = bs "rerun").
  { vm_compute in E. injection E as E. subst a. vm_compute. repeat split; reflexivity. }
  destruct Ha as (H1 & H2 & H3). split; [exact H1|]. split; [exact H2|].
  exact (proj2 (@rerun_decision demo_docs demo_process demo_writes demo_parked 1 APPROVAL_ALWAYS (bs "cli") 0 a
           demo_parked_ids eq_refl eq_refl E H3)).
Defined.
