(* ===== verification/Egress.v ===== *)
(** * Where a call may connect: the egress of dispatch.c through the policy of proxy.c

    [call_egress_build] chooses the hosts and the denied labels of one call; the proxy
    of the call is bound to them ([proxy_bind]) and asks [host_decide] of every name
    and address.  This file composes the two. *)
From S2P Require Import Prelude CString Libc HostMatch SecretInterp Json1 Config Store ToolPolicy Approval Resolve Gate Trust Proxy.

Section Egress.
Context {J : Json1} `{InetPton} (alloc grow : Z -> bool).

(** The policy the child's proxy runs the call under. *)
Definition call_policy (e : CallEgress) : ProxyPolicy :=
  proxy_bind (map Some (eg_hosts e)) (labels (eg_deny e)).

(** A rule lets a host through: by name, or as the block of a literal address. *)
Definition rule_grants (rule host : cstring) : Prop :=
  rule_match rule host = true \/
  exists c fam bin, cidr_parse (Some rule) = Some c /\ ip_to_bin host = Some (fam, bin) /\
    (cidr_contains c fam bin = true \/ granted_exact (Some [c]) fam bin = true).

(** ** The union of the bound hosts *)
Lemma push_host_in acc h x : x ∈ fst (push_host grow acc h) -> x ∈ fst acc \/ x = h.
Proof.
  destruct acc as [u cap]. unfold push_host. destruct (existsb _ _); [by left|].
  destruct (_ =? _); [destruct (grow _); [|by left]|]; cbn [fst];
    rewrite elem_of_app, list_elem_of_singleton; tauto.
Qed.

Lemma push_hosts_in hs acc x : x ∈ fst (fold_left (push_host grow) hs acc) -> x ∈ fst acc \/ x ∈ hs.
Proof.
  revert acc. induction hs as [|h hs IH]; intros acc; [by left|]. cbn. intros [Hx|Hx]%IH.
  - apply push_host_in in Hx as [?| ->]; [by left|right; left].
  - right. by right.
Qed.

Lemma bound_hosts_in w names x :
  x ∈ bound_hosts grow w names -> exists n, n ∈ names /\ x ∈ db_secret_hosts w n.
Proof.
  unfold bound_hosts. intros [Hx|Hx]%push_hosts_in; [by apply elem_of_nil in Hx|].
  apply list_elem_of_In, in_flat_map in Hx as (n & Hn & Hx). exists n. by rewrite !list_elem_of_In.
Qed.

(** Every host finds a place, up to ASCII case, when the array grows. *)
Lemma push_host_keeps acc h x : x ∈ fst acc -> x ∈ fst (push_host grow acc h).
Proof.
  destruct acc as [u cap]. unfold push_host. intros Hx. destruct (existsb _ _); [done|].
  destruct (_ =? _); [destruct (grow _); [|done]|]; cbn [fst]; apply elem_of_app; by left.
Qed.

Lemma push_hosts_keep hs acc x : x ∈ fst acc -> x ∈ fst (fold_left (push_host grow) hs acc).
Proof. revert acc. induction hs as [|h hs IH]; intros acc Hx; [done|]. by apply IH, push_host_keeps. Qed.

Lemma push_host_has acc h :
  (forall n, grow n = true) -> exists x, x ∈ fst (push_host grow acc h) /\ (x = h \/ ascii_strcasecmp x h = 0).
Proof.
  intros Hg. destruct acc as [u cap]. unfold push_host. destruct (existsb _ _) eqn:E.
  - apply existsb_exists in E as (x & Hx & Hc). exists x. split; [by apply list_elem_of_In|right; lia].
  - exists h. split; [|by left]. rewrite Hg.
    destruct (_ =? _); cbn [fst]; apply elem_of_app; right; by apply list_elem_of_singleton.
Qed.

Lemma push_hosts_have hs acc h :
  (forall n, grow n = true) -> h ∈ hs ->
  exists x, x ∈ fst (fold_left (push_host grow) hs acc) /\ (x = h \/ ascii_strcasecmp x h = 0).
Proof.
  intros Hg. revert acc. induction hs as [|k hs IH]; intros acc Hh; [by apply elem_of_nil in Hh|].
  apply elem_of_cons in Hh as [->|Hh]; [|by apply IH]. cbn.
  destruct (push_host_has acc k Hg) as (x & Hx & Hc). exists x. split; [by apply push_hosts_keep|done].
Qed.

(** ** The proxy's decision *)
Lemma match_rules_in rules host :
  match_rules rules host = true -> exists r, Some r ∈ rules /\ rule_match r host = true.
Proof.
  induction rules as [|[r|] rules IH]; cbn; [done| |].
  - destruct (rule_match r host) eqn:E; [intros _; exists r; split; [left|done]|].
    intros (x & Hx & ?)%IH. exists x. split; [by right|done].
  - intros (x & Hx & ?)%IH. exists x. split; [by right|done].
Qed.

Lemma partition_names hosts r : Some r ∈ fst (partition_hosts hosts) -> Some r ∈ hosts.
Proof.
  induction hosts as [|h hosts IH]; cbn; [done|]. destruct (partition_hosts hosts) as [hs cs]. cbn in IH.
  destruct h as [h|]; [destruct (cidr_parse (Some h))|]; cbn [fst]; intros Hr; [right; auto| |right; auto].
  apply elem_of_cons in Hr as [->|Hr]; [left|right; auto].
Qed.

Lemma partition_blocks hosts c :
  c ∈ snd (partition_hosts hosts) -> exists r, Some r ∈ hosts /\ cidr_parse (Some r) = Some c.
Proof.
  induction hosts as [|h hosts IH]; cbn; [by intros ?%elem_of_nil|].
  destruct (partition_hosts hosts) as [hs cs]. cbn in IH.
  assert (Hs : c ∈ cs -> exists r, Some r ∈ h :: hosts /\ cidr_parse (Some r) = Some c).
  { intros (r & Hr & ?)%IH. exists r. split; [by right|done]. }
  destruct h as [h|]; [destruct (cidr_parse (Some h)) as [d|] eqn:E|]; cbn [snd]; [|done|done].
  intros [->|Hc]%elem_of_cons; [|by apply Hs]. exists h. split; [left|done].
Qed.

Lemma proxy_bind_deny hosts deny : deny_rules (proxy_bind hosts deny) = deny.
Proof. unfold proxy_bind. destruct hosts; [done|]. by destruct (partition_hosts _). Qed.

Lemma proxy_bind_rules hosts deny :
  hosts <> [] -> host_rules (proxy_bind hosts deny) = Some (fst (partition_hosts hosts)) /\
  cidr_rules (proxy_bind hosts deny) = Some (snd (partition_hosts hosts)).
Proof. unfold proxy_bind. intros Hh. destruct hosts; [done|]. by destruct (partition_hosts _). Qed.

(** What the proxy lets through has a rule for it and no denied label. *)
Lemma decide_by_rule rules deny host :
  host_decide (proxy_bind rules deny) host = true ->
  match deny with Some _ => host_covered deny (Some host) | None => false end = false /\ exists r, Some r ∈ rules /\ rule_grants r host.
Proof.
  unfold host_decide. rewrite proxy_bind_deny. intros Hd.
  destruct (match deny with Some _ => host_covered deny (Some host) | None => false end) eqn:Ed; [done|]. split; [done|].
  assert (Hne : rules <> []).
  { intros E. rewrite E in Hd. cbn in Hd. unfold numeric_ip_permitted in Hd. cbn in Hd. by repeat case_match. }
  destruct (proxy_bind_rules rules deny Hne) as [E1 E2].
  destruct (ip_to_bin host) as [[fam bin]|] eqn:Eb.
  - assert (Hc : exists c, c ∈ snd (partition_hosts rules) /\
              (cidr_contains c fam bin = true \/ granted_exact (Some [c]) fam bin = true)).
    { unfold numeric_ip_permitted in Hd. rewrite E2 in Hd. cbn [andb] in Hd.
      destruct (in_metadata_range fam bin); apply existsb_exists in Hd as (c & Hc & Hx);
        exists c; (split; [by apply list_elem_of_In|]); [right|by left]. cbn. by rewrite orb_false_r. }
    destruct Hc as (c & (r & Hr & Hp)%partition_blocks & Hx). exists r. split; [done|]. right. by exists c, fam, bin.
  - rewrite E1 in Hd. cbn in Hd. apply match_rules_in in Hd as (r & Hr & Hm). exists r. split; [by apply partition_names|by left].
Qed.

Lemma decide_has_rule hosts deny host :
  host_decide (proxy_bind (map Some hosts) (labels deny)) host = true ->
  host_covered (labels deny) (Some host) = false /\ exists r, r ∈ hosts /\ rule_grants r host.
Proof.
  intros [Hs (r & Hr & Hg)]%decide_by_rule. split; [by destruct deny|]. exists r. split; [|done].
  by apply list_elem_of_fmap in Hr as (x & [= ->] & Hx).
Qed.

(** A call that uses secrets and has no approved exception connects only where every connection is covered by a host one of those secrets is bound to and by no sensitive label, whatever hosts the agent or the tool's manifest were granted; and a failed allocation only narrows it. *)
Theorem secret_call_egress w args declared base secrets ext host :
  used_names alloc (Some args) secrets <> [] ->
  let e := call_egress_build alloc grow ext w (Some args) None declared base secrets in
  eg_narrowed e = true /\ eg_deny e = w_sensitive w /\
  (host_decide (call_policy e) host = true ->
    host_covered (labels (w_sensitive w)) (Some host) = false /\
    exists n r, n ∈ used_names alloc (Some args) secrets /\ r ∈ db_secret_hosts w n /\ rule_grants r host) /\
  ((forall n, grow n = true) -> forall n r, n ∈ used_names alloc (Some args) secrets -> r ∈ db_secret_hosts w n ->
     exists r', r' ∈ eg_hosts e /\ (r' = r \/ ascii_strcasecmp r' r = 0)).
Proof.
  intros Hn. cbn zeta. unfold call_egress_build. cbn [eg_narrowed eg_deny eg_hosts].
  destruct (used_names alloc (Some args) secrets) as [|n0 ns] eqn:En; [done|]. rewrite <- En. split; [done|].
  split; [done|]. split.
  - unfold call_policy. cbn [eg_hosts eg_deny]. intros [Hs (r & Hr & Hg)]%decide_has_rule. split; [done|].
    apply bound_hosts_in in Hr as (n & Hn' & Hr). by exists n, r.
  - intros Hg n r Hin Hr. apply push_hosts_have; [done|].
    apply list_elem_of_In, in_flat_map. exists n. by rewrite <- !list_elem_of_In.
Qed.

(** A call without secrets connects only where the tool's declared hosts, or else the agent's grants, say, and an approved sensitive host adds itself and lifts the labels that cover it and no other. *)
Theorem plain_call_egress w args exc declared base secrets host :
  exc <> [] -> (forall a, args = Some a -> used_names alloc (Some a) secrets = []) ->
  let hosts := default base declared in
  let e := call_egress_build alloc grow true w args (Some exc) declared base secrets in
  let e0 := call_egress_build alloc grow true w args None declared base secrets in
  (host_decide (call_policy e0) host = true ->
     host_covered (labels (w_sensitive w)) (Some host) = false /\ exists r, r ∈ hosts /\ rule_grants r host) /\
  (host_decide (call_policy e) host = true ->
     (forall l, l ∈ w_sensitive w -> label_covers l host = true -> label_covers l exc = true) /\
     (rule_grants exc host \/ exists r, r ∈ hosts /\ rule_grants r host)).
Proof.
  intros He Hn. cbn zeta.
  assert (Hu : match args with Some _ => used_names alloc args secrets | None => [] end = [])
    by (destruct args; auto).
  unfold call_egress_build. rewrite Hu. unfold call_policy. cbn [eg_hosts eg_deny]. split.
  - by intros ?%decide_has_rule.
  - destruct exc as [|c exc]; [done|]. intros [Hs (r & Hr & Hg)]%decide_has_rule. split.
    + intros l Hl Hc. destruct (label_covers l (c :: exc)) eqn:El; [done|]. exfalso.
      assert (Hin : l ∈ List.filter (fun l => negb (host_covered (Some [Some l]) (Some (c :: exc)))) (w_sensitive w)).
      { apply elem_of_filter_bool. split; [done|]. cbn. by rewrite El. }
      assert (Hcov : forall ls, l ∈ ls -> covers_any (map Some ls) host = true).
      { induction ls as [|x ls IH]; [by intros ?%elem_of_nil|]. cbn. intros [->|Hx]%elem_of_cons; [by rewrite Hc|].
        destruct (label_covers x host); auto. }
      destruct (List.filter _ _) as [|y ys] eqn:Ef; [by apply elem_of_nil in Hin|].
      apply Hcov in Hin. cbn in Hs, Hin. by rewrite Hin in Hs.
    + apply elem_of_app in Hr as [Hr| ->%list_elem_of_singleton]; [right; by exists r|by left].
Qed.
End Egress.

(** ** Concrete calls *)

(** The secret is bound to a shop; the bank is sensitive. *)
Definition demo_shop : World := mk_world (w_store (demo_world [])) [] [] [bs "bank.com"]
  [(bs "TOK", bs "api.shop.com"); (bs "TOK", bs "API.shop.com"); (bs "OTHER", bs "elsewhere.net")] [] [] [] [] None.
Definition demo_secrets1 : list ShellSecret := [mk_secret (bs "TOK") (Some (bs "hunter2"))].
Definition yes (_ : Z) : bool := true.
Definition demo_narrow : CallEgress :=
  @call_egress_build yes yes true demo_shop (Some demo_args) None None [bs "*"] demo_secrets1.

Lemma secret_call_egress_witness :
  used_names yes (Some demo_args) demo_secrets1 <> [] /\ eg_hosts demo_narrow = [bs "api.shop.com"] /\
  @host_decide demo_pton (call_policy (H := demo_pton) demo_narrow) (bs "api.shop.com") = true /\
  exists n r, n ∈ used_names yes (Some demo_args) demo_secrets1 /\ r ∈ db_secret_hosts demo_shop n /\
    rule_grants (H := demo_pton) r (bs "api.shop.com").
Proof.
  assert (Hn : used_names yes (Some demo_args) demo_secrets1 <> []) by (vm_compute; discriminate).
  assert (Hd : @host_decide demo_pton (call_policy (H := demo_pton) demo_narrow) (bs "api.shop.com") = true)
    by (vm_compute; reflexivity).
  split; [exact Hn|]. split; [vm_compute; reflexivity|]. split; [exact Hd|].
  destruct (@secret_call_egress demo_pton yes yes demo_shop demo_args None [bs "*"] demo_secrets1 true
              (bs "api.shop.com") Hn) as (_ & _ & H & _).
  exact (proj2 (H Hd)).
Defined.

(** The exception for the bank's api lifts the label for that call. *)
Definition demo_exception : CallEgress :=
  @call_egress_build yes yes true demo_shop None (Some (bs "api.bank.com")) None [bs "example.com"] demo_secrets1.

Lemma plain_call_egress_witness :
  @host_decide demo_pton (call_policy (H := demo_pton) demo_exception) (bs "api.bank.com") = true /\
  @host_decide demo_pton (call_policy (H := demo_pton) demo_exception) (bs "www.bank.com") = false /\
  (rule_grants (H := demo_pton) (bs "api.bank.com") (bs "api.bank.com") \/
   exists r, r ∈ [bs "example.com"] /\ rule_grants (H := demo_pton) r (bs "api.bank.com")).
Proof.
  assert (Hd : @host_decide demo_pton (call_policy (H := demo_pton) demo_exception) (bs "api.bank.com") = true)
    by (vm_compute; reflexivity).
  split; [exact Hd|]. split; [vm_compute; reflexivity|].
  destruct (@plain_call_egress demo_pton yes yes demo_shop None (bs "api.bank.com") None [bs "example.com"] demo_secrets1
              (bs "api.bank.com")) as [_ H].
  - discriminate.
  - discriminate.
  - exact (proj2 (H Hd)).
Defined.

(** A secret's call with an exception reaches the excepted host although the secret is
    not bound to it. *)
Example exception_widens_secret_call :
  let e := @call_egress_build yes yes true demo_shop (Some demo_args) (Some (bs "api.bank.com")) None [] demo_secrets1 in
  eg_narrowed e = true /\ @host_decide demo_pton (call_policy (H := demo_pton) e) (bs "api.bank.com") = true /\
  ~ bs "api.bank.com" ∈ db_secret_hosts demo_shop (bs "TOK").
Proof. split_and!; [vm_compute; reflexivity..|]. apply (bool_decide_unpack _). vm_compute. exact I. Qed.
