(* ===== verification/Wire.v ===== *)
(** * The request of a tool child: the wire format of src/run_tool.c

    The parent writes one length-prefixed little-endian frame; the re-executed child
    decodes it.  Both sides walk the same fixed order of fields.  The writer latches
    an error when its buffer is full, the reader when the input is short, a count is
    out of bounds or an allocation fails. *)
From S2P Require Import Prelude CString Libc.

Definition RUNTOOL_REQUEST_MAX : Z := 32768.

(** ** The request *)
Definition TOOL_ARG_TEXT : Z := 0.
Definition TOOL_ARG_JSON : Z := 1.
Definition TOOL_ARG_LIST : Z := 2.

Record RunToolSecret := mk_rsecret { rs_name : option cstring; rs_value : option cstring; rs_hosts : option cstring }.

Record ToolWireArg := mk_warg {
  wa_key : option cstring; wa_kind : Z; wa_value : option cstring; wa_list : list (option cstring)
}.

(** [RunToolReq], and [RunToolParsed] on the child's side. *)
Record RunToolReq := mk_req {
  q_tier : Z; q_tool_name : option cstring;
  q_env_mode : Z; q_nproc : Z; q_as_mb : Z; q_cpu_sec : Z; q_sandbox : Z; q_net_mode : Z;
  q_workspace : option cstring; q_cwd_path : option cstring; q_db_path : option cstring;
  q_mount_cwd : Z; q_tmp_dir : option cstring;
  q_read_paths : list (option cstring); q_write_paths : list (option cstring);
  q_agent_dir : option cstring;
  q_host_rules : list (option cstring); q_deny_rules : list (option cstring);
  q_command : option cstring; q_shell_path : option cstring; q_timeout : Z;
  q_secrets : list RunToolSecret; q_params : list ToolWireArg;
  q_egress_note : option cstring; q_spill_path : option cstring; q_llm_sock : option cstring
}.

(** ** The writer: what follows the four bytes of the prefix, and the latch *)
Record Wbuf := mk_wbuf { w_out : list Z; w_err : bool }.

Definition w_bytes (s : list Z) (b : Wbuf) : Wbuf :=
  if w_err b || (RUNTOOL_REQUEST_MAX <? 4 + zlen (w_out b) + zlen s) then mk_wbuf (w_out b) true
  else mk_wbuf (w_out b ++ s) false.

Definition w_u8 (v : Z) : Wbuf -> Wbuf := w_bytes [v mod 256].

Definition le32 (v : Z) : list Z :=
  [v mod 256; Z.shiftr v 8 mod 256; Z.shiftr v 16 mod 256; Z.shiftr v 24 mod 256].

Definition w_u32 (v : Z) : Wbuf -> Wbuf := w_bytes (le32 (wrap32 v)).

Definition w_str (s : option cstring) (b : Wbuf) : Wbuf :=
  let s := default [] s in
  let b := w_u32 (zlen s) b in
  match s with [] => b | _ => w_bytes s b end.

Definition w_each {A} (w : A -> Wbuf -> Wbuf) (l : list A) (b : Wbuf) : Wbuf := fold_left (fun b x => w x b) l b.

Definition w_str_array (l : list (option cstring)) (b : Wbuf) : Wbuf := w_each w_str l (w_u32 (zlen l) b).

Definition w_secret (s : RunToolSecret) (b : Wbuf) : Wbuf :=
  w_str (rs_hosts s) (w_str (rs_value s) (w_str (rs_name s) b)).

Definition w_param (p : ToolWireArg) (b : Wbuf) : Wbuf :=
  let b := w_u8 (wa_kind p) (w_str (wa_key p) b) in
  if wa_kind p =? TOOL_ARG_LIST then w_str_array (wa_list p) b else w_str (wa_value p) b.

Definition w_finalize (b : Wbuf) : option (list Z) :=
  if w_err b then None
  else let body := zlen (w_out b) in
       if (body =? 0) || (RUNTOOL_REQUEST_MAX <? body + 4) then None else Some (le32 body ++ w_out b).

(** The fields, in the order of the wire. *)
Definition w_request (q : RunToolReq) (b : Wbuf) : Wbuf :=
  let b := w_str (q_tool_name q) (w_u8 (q_tier q) b) in
  let b := w_u32 (q_cpu_sec q) (w_u32 (q_as_mb q) (w_u32 (q_nproc q) (w_u32 (q_env_mode q) b))) in
  let b := w_u32 (q_net_mode q) (w_u32 (q_sandbox q) b) in
  let b := w_str (q_workspace q) b in
  let b := w_str (if q_mount_cwd q =? 0 then None else q_cwd_path q) b in
  let b := w_u32 (q_mount_cwd q) (w_str (q_db_path q) b) in
  let b := w_str_array (q_write_paths q) (w_str_array (q_read_paths q) (w_str (q_tmp_dir q) b)) in
  let b := w_str_array (q_deny_rules q) (w_str_array (q_host_rules q) (w_str (q_agent_dir q) b)) in
  let b := w_u32 (q_timeout q) (w_str (q_shell_path q) (w_str (q_command q) b)) in
  let b := w_each w_secret (q_secrets q) (w_u32 (zlen (q_secrets q)) b) in
  let b := w_each w_param (q_params q) (w_u32 (zlen (q_params q)) b) in
  w_str (q_llm_sock q) (w_str (q_spill_path q) (w_str (q_egress_note q) b)).

Definition run_tool_serialize_request (alloc : Z -> bool) (q : RunToolReq) : option (list Z) :=
  if alloc RUNTOOL_REQUEST_MAX then w_finalize (w_request q (mk_wbuf [] false)) else None.

(** ** The reader *)
Record Rbuf := mk_rbuf { r_p : list Z; r_err : bool }.

Definition R (A : Type) : Type := Rbuf -> A * Rbuf.
Definition r_ret {A} (x : A) : R A := fun r => (x, r).
Definition r_bind {A B} (m : R A) (f : A -> R B) : R B := fun r => let (x, r) := m r in f x r.
Definition r_fail (r : Rbuf) : Rbuf := mk_rbuf (r_p r) true.

Declare Scope reader_scope.
Delimit Scope reader_scope with reader.
Notation "'let*' x := m 'in' k" := (r_bind m (fun x => k)) (at level 10, x binder, k at level 200) : reader_scope.
#[local] Open Scope reader_scope.

Definition of_le32 (b : list Z) : Z :=
  Z.lor (Z.lor (Z.lor (nth 0 b 0) (Z.shiftl (nth 1 b 0) 8)) (Z.shiftl (nth 2 b 0) 16)) (Z.shiftl (nth 3 b 0) 24).

Definition r_u32 : R Z := fun r =>
  if r_err r || (zlen (r_p r) <? 4) then (0, r_fail r)
  else (of_le32 (take 4 (r_p r)), mk_rbuf (drop 4 (r_p r)) false).

Definition r_int : R Z := let* v := r_u32 in r_ret (int_of_u32 v).

Definition r_u8 : R Z := fun r =>
  if r_err r then (0, r_fail r)
  else match r_p r with [] => (0, r_fail r) | c :: p => (c, mk_rbuf p false) end.

Section Reader.
Variable alloc : Z -> bool.

Definition r_str : R (option cstring) := fun r =>
  let (n, r) := r_u32 r in
  if r_err r || (zlen (r_p r) <? n) then (None, r_fail r)
  else if n =? 0 then (None, r)
  else if alloc (n + 1) then (Some (take (Z.to_nat n) (r_p r)), mk_rbuf (drop (Z.to_nat n) (r_p r)) false)
  else (None, r_fail r).

Fixpoint r_many {A} (m : R A) (n : nat) : R (list A) :=
  match n with
  | O => r_ret []
  | S n' => let* x := m in let* l := r_many m n' in r_ret (x :: l)
  end.

(** A counted section: nothing on a count of 0 or an error, an error beyond [bound];
    [size] bytes an element. *)
Definition r_counted {A} (bound size : Z) (m : R A) : R (list A) := fun r =>
  let (n, r) := r_u32 r in
  if r_err r || (n =? 0) then ([], r)
  else if (bound <? n) || negb (alloc (n * size)) then ([], r_fail r)
  else r_many m (Z.to_nat n) r.

Definition r_str_array : R (list (option cstring)) := r_counted (RUNTOOL_REQUEST_MAX / 4) 8 r_str.

Definition r_secret : R RunToolSecret :=
  let* name := r_str in let* value := r_str in let* hosts := r_str in r_ret (mk_rsecret name value hosts).

(** A present parameter always has a value. *)
Definition r_value : R (option cstring) := fun r =>
  let (v, r) := r_str r in
  match v with
  | Some _ => (v, r)
  | None => if r_err r then (None, r) else (if alloc 1 then Some [] else None, r)
  end.

Definition r_param : R ToolWireArg :=
  let* key := r_str in
  let* kind := r_u8 in
  if kind =? TOOL_ARG_LIST
  then let* l := r_str_array in r_ret (mk_warg key kind None l)
  else let* v := r_value in r_ret (mk_warg key kind v []).

Definition r_request : R RunToolReq :=
  let* tier := r_u8 in
  let* tool_name := r_str in
  let* env_mode := r_int in
  let* nproc := r_int in
  let* as_mb := r_int in
  let* cpu_sec := r_int in
  let* sandbox := r_int in
  let* net_mode := r_int in
  let* workspace := r_str in
  let* cwd_path := r_str in
  let* db_path := r_str in
  let* mount_cwd := r_int in
  let* tmp_dir := r_str in
  let* read_paths := r_str_array in
  let* write_paths := r_str_array in
  let* agent_dir := r_str in
  let* host_rules := r_str_array in
  let* deny_rules := r_str_array in
  let* command := r_str in
  let* shell_path := r_str in
  let* timeout := r_int in
  let* secrets := r_counted (RUNTOOL_REQUEST_MAX / 4) 24 r_secret in
  let* params := r_counted (RUNTOOL_REQUEST_MAX / 8) 40 r_param in
  let* egress_note := r_str in
  let* spill_path := r_str in
  let* llm_sock := r_str in
  r_ret (mk_req tier tool_name env_mode nproc as_mb cpu_sec sandbox net_mode workspace cwd_path db_path mount_cwd
           tmp_dir read_paths write_paths agent_dir host_rules deny_rules command shell_path timeout secrets params
           egress_note spill_path llm_sock).

Definition parse_request (body : list Z) : option RunToolReq :=
  let (q, r) := r_request (mk_rbuf body false) in if r_err r then None else Some q.

(** ** The child's entry *)
Record TierDescriptor := mk_tier { td_skip_pid_ns : bool; td_needs_proxy : bool; td_inner_exec : bool }.

Definition tier_descriptor (tier : Z) : option TierDescriptor :=
  if tier =? 0 then Some (mk_tier true false false)
  else if tier =? 1 then Some (mk_tier false true true)
  else if tier =? 2 then Some (mk_tier true true false)
  else if tier =? 3 then Some (mk_tier true true false)
  else None.

(** What the child makes of the bytes it is sent: the request, or what it says before
    it dies.  A stream that ends early is one [read_exact] fails on. *)
Definition run_tool_read (stream : list Z) : cstring + (RunToolReq * TierDescriptor) :=
  if zlen stream <? 4 then inl (bs "error: failed to read request length")
  else
    let n := of_le32 (take 4 stream) in
    if (n =? 0) || (RUNTOOL_REQUEST_MAX - 4 <? n) then inl (bs "error: request length out of bounds")
    else if negb (alloc n) then inl (bs "error: OOM")
    else if zlen (drop 4 stream) <? n then inl (bs "error: short read on request body")
    else match parse_request (take (Z.to_nat n) (drop 4 stream)) with
         | None => inl (bs "error: malformed request")
         | Some q =>
             match q_tool_name q with
             | None => inl (bs "error: missing tool_name")
             | Some _ =>
                 match tier_descriptor (q_tier q) with
                 | None => inl (bs "error: unsupported tier")
                 | Some d => inr (q, d)
                 end
             end
         end.
End Reader.

(** ** Parameters by name *)
Definition param_find (q : RunToolReq) (key : cstring) (kind : Z) : option ToolWireArg :=
  List.find (fun p => (wa_kind p =? kind) && match wa_key p with Some k => streq k key | None => false end) (q_params q).

Definition run_tool_param_str (q : RunToolReq) (key : cstring) : option cstring :=
  match param_find q key TOOL_ARG_TEXT with Some p => wa_value p | None => None end.

Definition run_tool_param_bool (q : RunToolReq) (key : cstring) (def : bool) : bool :=
  match run_tool_param_str q key with Some v => deref v =? "1"%char | None => def end.

Definition run_tool_param_json (q : RunToolReq) (key : cstring) : option cstring :=
  match param_find q key TOOL_ARG_JSON with Some p => wa_value p | None => None end.

Definition run_tool_param_list (q : RunToolReq) (key : cstring) : list (option cstring) :=
  match param_find q key TOOL_ARG_LIST with Some p => wa_list p | None => [] end.


(** * Lemmas *)

(** ** Numbers *)
Lemma lor_low n a b : 0 <= n -> 0 <= a < 2 ^ n -> Z.lor a (Z.shiftl b n) = b * 2 ^ n + a.
Proof. intros Hn Ha. rewrite Z.lor_comm. by apply lor_shiftl_add. Qed.

Lemma of_le32_le32 v rest : 0 <= v < 2 ^ 32 -> of_le32 (take 4 (le32 v ++ rest)) = v.
Proof.
  intros Hv. change (take 4 (le32 v ++ rest)) with (le32 v). unfold of_le32, le32. cbn [nth].
  rewrite !Z.shiftr_div_pow2 by lia.
  rewrite (lor_low 8) by lia. rewrite (lor_low 16) by lia. rewrite (lor_low 24) by lia. lia.
Qed.

(** ** What a writer appends *)
Definition Out (b : Wbuf) (xs : list Z) (b' : Wbuf) : Prop :=
  w_err b' = false -> w_err b = false /\ w_out b' = w_out b ++ xs.

Lemma Out_refl b : Out b [] b.
Proof. intros H. by rewrite app_nil_r. Qed.

Lemma Out_trans a b c xs ys : Out a xs b -> Out b ys c -> Out a (xs ++ ys) c.
Proof. intros H1 H2 Hc. destruct (H2 Hc) as [Hb E2]. destruct (H1 Hb) as [Ha E1]. by rewrite E2, E1, app_assoc. Qed.

Lemma Out_bytes s b : Out b s (w_bytes s b).
Proof. unfold Out, w_bytes. destruct (w_err b || _) eqn:E; cbn; [done|]. by destruct (w_err b). Qed.

(** The encodings. *)
Definition enc_u32 (v : Z) : list Z := le32 (wrap32 v).
Definition enc_str (s : option cstring) : list Z := enc_u32 (zlen (default [] s)) ++ default [] s.
Definition enc_array (l : list (option cstring)) : list Z := enc_u32 (zlen l) ++ concat (map enc_str l).
Definition enc_secret (s : RunToolSecret) : list Z := enc_str (rs_name s) ++ enc_str (rs_value s) ++ enc_str (rs_hosts s).
Definition enc_param (p : ToolWireArg) : list Z :=
  enc_str (wa_key p) ++ [wa_kind p mod 256] ++
  (if wa_kind p =? TOOL_ARG_LIST then enc_array (wa_list p) else enc_str (wa_value p)).

Definition enc_secrets (l : list RunToolSecret) : list Z := enc_u32 (zlen l) ++ concat (map enc_secret l).
Definition enc_params (l : list ToolWireArg) : list Z := enc_u32 (zlen l) ++ concat (map enc_param l).

Lemma Out_u32 v b : Out b (enc_u32 v) (w_u32 v b).
Proof. apply Out_bytes. Qed.

Lemma Out_u8 v b : Out b [v mod 256] (w_u8 v b).
Proof. apply Out_bytes. Qed.

Lemma Out_str s b : Out b (enc_str s) (w_str s b).
Proof.
  unfold w_str, enc_str. set (t := default [] s). eapply Out_trans; [apply Out_u32|].
  destruct t; [apply Out_refl|apply Out_bytes].
Qed.

Lemma Out_each {A} (w : A -> Wbuf -> Wbuf) (enc : A -> list Z) l :
  (forall x b, Out b (enc x) (w x b)) -> forall b, Out b (concat (map enc l)) (w_each w l b).
Proof.
  intros Hw. induction l as [|x l IH]; intros b; [apply Out_refl|]. cbn [map concat].
  eapply Out_trans; [apply Hw|apply IH].
Qed.

Lemma Out_array l b : Out b (enc_array l) (w_str_array l b).
Proof. eapply Out_trans; [apply Out_u32|]. apply Out_each, Out_str. Qed.

Lemma Out_secret s b : Out b (enc_secret s) (w_secret s b).
Proof. unfold enc_secret, w_secret. rewrite app_assoc. repeat (eapply Out_trans; [|apply Out_str]). apply Out_str. Qed.

Lemma Out_param p b : Out b (enc_param p) (w_param p b).
Proof.
  unfold enc_param, w_param. eapply Out_trans; [apply Out_str|]. eapply Out_trans; [apply Out_u8|].
  destruct (wa_kind p =? TOOL_ARG_LIST); [apply Out_array|apply Out_str].
Qed.

Definition enc_request (q : RunToolReq) : list Z :=
  [q_tier q mod 256] ++ enc_str (q_tool_name q) ++ enc_u32 (q_env_mode q) ++ enc_u32 (q_nproc q) ++ enc_u32 (q_as_mb q) ++
  enc_u32 (q_cpu_sec q) ++ enc_u32 (q_sandbox q) ++ enc_u32 (q_net_mode q) ++ enc_str (q_workspace q) ++
  enc_str (if q_mount_cwd q =? 0 then None else q_cwd_path q) ++ enc_str (q_db_path q) ++ enc_u32 (q_mount_cwd q) ++
  enc_str (q_tmp_dir q) ++ enc_array (q_read_paths q) ++ enc_array (q_write_paths q) ++ enc_str (q_agent_dir q) ++
  enc_array (q_host_rules q) ++ enc_array (q_deny_rules q) ++ enc_str (q_command q) ++ enc_str (q_shell_path q) ++
  enc_u32 (q_timeout q) ++ enc_secrets (q_secrets q) ++
  enc_params (q_params q) ++ enc_str (q_egress_note q) ++
  enc_str (q_spill_path q) ++ enc_str (q_llm_sock q).

(** The writers, from the last field back. *)
Ltac out_last :=
  first [apply Out_str | apply Out_u8 | apply Out_u32 | apply Out_array
        | apply Out_each; first [apply Out_secret | apply Out_param]].

Lemma Out_request q b : Out b (enc_request q) (w_request q b).
Proof.
  unfold enc_request, enc_secrets, enc_params. rewrite !app_assoc. unfold w_request. cbn zeta.
  repeat (eapply Out_trans; [|out_last]). out_last.
Qed.

Lemma serialize_enc alloc q blob :
  run_tool_serialize_request alloc q = Some blob ->
  blob = le32 (zlen (enc_request q)) ++ enc_request q /\ 0 < zlen (enc_request q) <= RUNTOOL_REQUEST_MAX - 4.
Proof.
  unfold run_tool_serialize_request. destruct (alloc _); [|done]. unfold w_finalize.
  destruct (w_err (w_request q (mk_wbuf [] false))) eqn:E; [done|].
  destruct (Out_request q (mk_wbuf [] false) E) as [_ ->]. cbn [w_out app].
  destruct (_ || _) eqn:Eb; [done|]. intros [= <-]. pose proof (zlen_nonneg (enc_request q)).
  split; [done|]. lia.
Qed.

(** ** What the reader makes of an encoding *)
Definition reads {A} (m : R A) (xs : list Z) (v : A) : Prop :=
  zlen xs <= RUNTOOL_REQUEST_MAX -> forall rest, m (mk_rbuf (xs ++ rest) false) = (v, mk_rbuf rest false).

Lemma reads_ret {A} (v : A) : reads (r_ret v) [] v.
Proof. done. Qed.

Lemma reads_bind {A B} (m : R A) (f : A -> R B) xs ys v w :
  reads m xs v -> reads (f v) ys w -> reads (r_bind m f) (xs ++ ys) w.
Proof.
  intros Hm Hf Hz rest. rewrite zlen_app in Hz. pose proof (zlen_nonneg xs). pose proof (zlen_nonneg ys).
  unfold r_bind. rewrite <- app_assoc, Hm by lia. apply Hf. lia.
Qed.

Lemma reads_last {A} (m : R A) xs v : reads m (xs ++ []) v -> reads m xs v.
Proof. by rewrite app_nil_r. Qed.

Lemma wrap32_bound v : 0 <= wrap32 v < 2 ^ 32.
Proof. apply Z.mod_pos_bound. lia. Qed.

Lemma zlen_u32 v : zlen (enc_u32 v) = 4.
Proof. done. Qed.

Lemma reads_u32 v : reads r_u32 (enc_u32 v) (wrap32 v).
Proof.
  intros _ rest. unfold r_u32. cbn [r_err r_p orb].
  destruct (zlen (enc_u32 v ++ rest) <? 4) eqn:E; [rewrite zlen_app, zlen_u32 in E; pose proof (zlen_nonneg rest); lia|].
  unfold enc_u32. by rewrite of_le32_le32 by apply wrap32_bound.
Qed.

Lemma reads_len n : 0 <= n < 2 ^ 32 -> reads r_u32 (enc_u32 n) n.
Proof. intros Hn. pose proof (reads_u32 n) as H. unfold wrap32 in H. by rewrite Z.mod_small in H by done. Qed.

Lemma int_of_u32_id v : - 2 ^ 31 <= v < 2 ^ 31 -> int_of_u32 (wrap32 v) = v.
Proof. intros Hv. unfold int_of_u32, wrap32. rewrite Z.mod_mod by lia. case_match; lia. Qed.

Lemma reads_int v : - 2 ^ 31 <= v < 2 ^ 31 -> reads r_int (enc_u32 v) v.
Proof.
  intros Hv. apply reads_last. eapply reads_bind; [apply reads_u32|].
  rewrite int_of_u32_id by done. apply reads_ret.
Qed.

Lemma reads_u8 v : 0 <= v < 256 -> reads r_u8 [v mod 256] v.
Proof. intros Hv _ rest. cbn. by rewrite Z.mod_small by lia. Qed.

(** An absent string and an empty one are the same on the wire. *)
Definition opt_str (s : option cstring) : option cstring := match s with Some [] => None | _ => s end.

Section Reads.
Context (alloc : Z -> bool) (alloc_ok : forall n, n <= 24 * RUNTOOL_REQUEST_MAX -> alloc n = true).

Lemma reads_str s : reads (r_str alloc) (enc_str s) (opt_str s).
Proof.
  intros Hz rest. unfold enc_str in *. rewrite zlen_app, zlen_u32 in Hz.
  assert (Hopt : opt_str s = match default [] s with [] => None | t => Some t end) by (by destruct s as [[|]|]).
  rewrite Hopt. set (t := default [] s) in *. clearbody t. pose proof (zlen_nonneg t).
  unfold RUNTOOL_REQUEST_MAX in *. unfold r_str. rewrite <- app_assoc, reads_len by (rewrite ?zlen_u32; unfold RUNTOOL_REQUEST_MAX; lia).
  cbn [r_err r_p orb]. rewrite zlen_app. pose proof (zlen_nonneg rest).
  destruct (zlen t + zlen rest <? zlen t) eqn:E; [lia|]. destruct t as [|c t]; [done|].
  rewrite zlen_cons in *. pose proof (zlen_nonneg t). destruct (1 + zlen t =? 0) eqn:E0; [lia|].
  rewrite alloc_ok by lia.
  replace (Z.to_nat (1 + zlen t)) with (length (c :: t)) by (unfold zlen; cbn [length]; lia).
  by rewrite take_app_length, drop_app_length.
Qed.

Lemma reads_many {A B} (m : R A) (enc : B -> list Z) (f : B -> A) l :
  Forall (fun x => reads m (enc x) (f x)) l -> reads (r_many m (length l)) (concat (map enc l)) (map f l).
Proof.
  induction 1 as [|x l Hx _ IH]; [apply reads_ret|]. cbn [length r_many map concat].
  eapply reads_bind; [exact Hx|]. apply reads_last. eapply reads_bind; [exact IH|]. apply reads_ret.
Qed.

Lemma concat_map_zlen {B} (enc : B -> list Z) k l :
  (forall x, k <= zlen (enc x)) -> k * zlen l <= zlen (concat (map enc l)).
Proof.
  intros Hk. induction l as [|x l IH]; [unfold zlen; cbn; lia|]. cbn [map concat].
  rewrite zlen_cons, zlen_app. specialize (Hk x). lia.
Qed.

(** Each element takes [k] bytes, so the count of a frame that fits is within bounds. *)
Lemma reads_counted {A B} (m : R A) (enc : B -> list Z) (f : B -> A) bound size k l :
  (forall x, k <= zlen (enc x)) -> 0 < k -> RUNTOOL_REQUEST_MAX < k * (bound + 1) + 4 -> 0 <= size -> bound * size <= 24 * RUNTOOL_REQUEST_MAX ->
  Forall (fun x => reads m (enc x) (f x)) l ->
  reads (r_counted alloc bound size m) (enc_u32 (zlen l) ++ concat (map enc l)) (map f l).
Proof.
  intros Hk Hk0 Hb Hs Hsz Hl Hz rest. pose proof (concat_map_zlen enc k l Hk) as Hc.
  rewrite zlen_app, zlen_u32 in Hz. pose proof (zlen_nonneg l). unfold RUNTOOL_REQUEST_MAX in *.
  assert (zlen l <= bound) by nia.
  unfold r_counted. rewrite <- app_assoc, reads_len by (rewrite ?zlen_u32; unfold RUNTOOL_REQUEST_MAX; nia).
  cbn [r_err orb]. destruct (zlen l =? 0) eqn:E0; [destruct l; [done|rewrite zlen_cons in *; pose proof (zlen_nonneg l); lia]|].
  destruct (bound <? zlen l) eqn:Eb; [lia|]. rewrite alloc_ok by (unfold RUNTOOL_REQUEST_MAX; nia). cbn [orb negb].
  replace (Z.to_nat (zlen l)) with (length l) by (unfold zlen; lia).
  apply reads_many; [done|]. unfold RUNTOOL_REQUEST_MAX. lia.
Qed.

Lemma zlen_enc_str s : 4 <= zlen (enc_str s).
Proof. unfold enc_str. rewrite zlen_app, zlen_u32. pose proof (zlen_nonneg (default [] s)). lia. Qed.

Lemma reads_array l : reads (r_str_array alloc) (enc_array l) (map opt_str l).
Proof.
  eapply (reads_counted _ _ _ _ _ 4); [apply zlen_enc_str|done|done|done|done|].
  apply List.Forall_forall. intros x _. apply reads_str.
Qed.

Definition parsed_secret (s : RunToolSecret) : RunToolSecret :=
  mk_rsecret (opt_str (rs_name s)) (opt_str (rs_value s)) (opt_str (rs_hosts s)).

Lemma reads_secret s : reads (r_secret alloc) (enc_secret s) (parsed_secret s).
Proof.
  apply reads_last. unfold enc_secret. rewrite <- !app_assoc.
  repeat (eapply reads_bind; [apply reads_str|]). apply reads_ret.
Qed.

(** The value of a parameter is a string, were it empty. *)
Definition parsed_param (p : ToolWireArg) : ToolWireArg :=
  if wa_kind p =? TOOL_ARG_LIST then mk_warg (opt_str (wa_key p)) (wa_kind p) None (map opt_str (wa_list p))
  else mk_warg (opt_str (wa_key p)) (wa_kind p) (Some (default [] (wa_value p))) [].

Lemma reads_value s : reads (r_value alloc) (enc_str s) (Some (default [] s)).
Proof.
  intros Hz rest. unfold r_value. rewrite reads_str by done. destruct s as [[|c t]|]; cbn; by rewrite ?alloc_ok.
Qed.

Lemma reads_param p : 0 <= wa_kind p < 256 -> reads (r_param alloc) (enc_param p) (parsed_param p).
Proof.
  intros Hp. unfold enc_param, r_param, parsed_param. eapply reads_bind; [apply reads_str|].
  eapply reads_bind; [by apply reads_u8|]. apply reads_last.
  destruct (wa_kind p =? TOOL_ARG_LIST).
  - eapply reads_bind; [apply reads_array|apply reads_ret].
  - eapply reads_bind; [apply reads_value|apply reads_ret].
Qed.
End Reads.

(** The request the child works from. *)
Definition as_parsed (q : RunToolReq) : RunToolReq :=
  mk_req (q_tier q) (opt_str (q_tool_name q)) (q_env_mode q) (q_nproc q) (q_as_mb q) (q_cpu_sec q) (q_sandbox q)
    (q_net_mode q) (opt_str (q_workspace q)) (if q_mount_cwd q =? 0 then None else opt_str (q_cwd_path q))
    (opt_str (q_db_path q)) (q_mount_cwd q) (opt_str (q_tmp_dir q)) (map opt_str (q_read_paths q))
    (map opt_str (q_write_paths q)) (opt_str (q_agent_dir q)) (map opt_str (q_host_rules q))
    (map opt_str (q_deny_rules q)) (opt_str (q_command q)) (opt_str (q_shell_path q)) (q_timeout q)
    (map parsed_secret (q_secrets q)) (map parsed_param (q_params q)) (opt_str (q_egress_note q))
    (opt_str (q_spill_path q)) (opt_str (q_llm_sock q)).

Definition int_ok (v : Z) : Prop := - 2 ^ 31 <= v < 2 ^ 31.

(** The C types of the fields: bytes for the tier and the kinds, [int] for the numbers. *)
Record req_ok (q : RunToolReq) : Prop := {
  ok_tier : 0 <= q_tier q < 256;
  ok_ints : Forall int_ok [q_env_mode q; q_nproc q; q_as_mb q; q_cpu_sec q; q_sandbox q; q_net_mode q; q_mount_cwd q; q_timeout q];
  ok_kinds : Forall (fun p => 0 <= wa_kind p < 256) (q_params q)
}.

Lemma zlen_enc_secret s : 12 <= zlen (enc_secret s).
Proof.
  unfold enc_secret. rewrite !zlen_app.
  pose proof (zlen_enc_str (rs_name s)). pose proof (zlen_enc_str (rs_value s)). pose proof (zlen_enc_str (rs_hosts s)). lia.
Qed.

Lemma zlen_enc_param p : 9 <= zlen (enc_param p).
Proof.
  unfold enc_param. rewrite !zlen_app. pose proof (zlen_enc_str (wa_key p)). cbn [zlen length].
  assert (4 <= zlen (if wa_kind p =? TOOL_ARG_LIST then enc_array (wa_list p) else enc_str (wa_value p))).
  { case_match; [|apply zlen_enc_str]. unfold enc_array. rewrite zlen_app, zlen_u32.
    pose proof (zlen_nonneg (concat (map enc_str (wa_list p)))). lia. }
  change (zlen [wa_kind p mod 256]) with 1. lia.
Qed.

Section Roundtrip.
Context (alloc : Z -> bool) (alloc_ok : forall n, n <= 24 * RUNTOOL_REQUEST_MAX -> alloc n = true).

Lemma reads_secrets l :
  reads (r_counted alloc (RUNTOOL_REQUEST_MAX / 4) 24 (r_secret alloc))
    (enc_secrets l) (map parsed_secret l).
Proof.
  eapply (reads_counted alloc alloc_ok _ _ _ _ _ 12); [apply zlen_enc_secret|done|done|done|done|].
  apply List.Forall_forall. intros x _. by apply reads_secret.
Qed.

Lemma reads_params l : Forall (fun p => 0 <= wa_kind p < 256) l ->
  reads (r_counted alloc (RUNTOOL_REQUEST_MAX / 8) 40 (r_param alloc))
    (enc_params l) (map parsed_param l).
Proof.
  intros Hl. eapply (reads_counted alloc alloc_ok _ _ _ _ _ 9); [apply zlen_enc_param|done|done|done|done|].
  eapply Forall_impl; [exact Hl|]. intros x Hx. by apply reads_param.
Qed.

Lemma reads_cwd q :
  reads (r_str alloc) (enc_str (if q_mount_cwd q =? 0 then None else q_cwd_path q))
    (if q_mount_cwd q =? 0 then None else opt_str (q_cwd_path q)).
Proof.
  pose proof (reads_str alloc alloc_ok (if q_mount_cwd q =? 0 then None else q_cwd_path q)) as H.
  by destruct (q_mount_cwd q =? 0).
Qed.

(** The next field of the request: the lemma of its reader. *)
Ltac read_field :=
  lazymatch goal with
  | |- reads (r_bind (r_str _) _) (enc_str (if _ then _ else _) ++ _) _ => apply reads_bind with (1 := reads_cwd _)
  | |- reads (r_bind (r_str _) _) _ _ => apply reads_bind with (1 := reads_str alloc alloc_ok _)
  | |- reads (r_bind r_int _) (enc_u32 ?v ++ _) _ =>
      let H := fresh in assert (H : int_ok v) by assumption; apply reads_bind with (1 := reads_int v H); clear H
  | |- reads (r_bind r_u8 _) _ _ => apply reads_bind with (1 := reads_u8 _ (ok_tier _ ltac:(eassumption)))
  | |- reads (r_bind (r_str_array _) _) _ _ => apply reads_bind with (1 := reads_array alloc alloc_ok _)
  | |- reads (r_bind (r_counted _ _ 24 _) _) _ _ => apply reads_bind with (1 := reads_secrets _)
  | |- reads (r_bind (r_counted _ _ 40 _) _) _ _ => apply reads_bind with (1 := reads_params _ (ok_kinds _ ltac:(eassumption)))
  end.

Lemma reads_request q : req_ok q -> reads (r_request alloc) (enc_request q) (as_parsed q).
Proof.
  intros Hq. pose proof (ok_ints q Hq) as Hi. rewrite !List.Forall_cons_iff in Hi. destruct Hi as (?&?&?&?&?&?&?&?&_).
  apply reads_last. unfold enc_request, r_request. rewrite <- !app_assoc.
  do 26 read_field. apply reads_ret.
Qed.

Lemma parse_request_enc q : req_ok q -> zlen (enc_request q) <= RUNTOOL_REQUEST_MAX ->
  parse_request alloc (enc_request q) = Some (as_parsed q).
Proof.
  intros Hq Hz. unfold parse_request. pose proof (reads_request q Hq Hz []) as E. rewrite app_nil_r in E. by rewrite E.
Qed.
End Roundtrip.

(** The child reads the request of a blob, whatever follows it. *)
Lemma wire_read alloc q blob rest :
  (forall n, n <= 24 * RUNTOOL_REQUEST_MAX -> alloc n = true) -> req_ok q ->
  run_tool_serialize_request alloc q = Some blob ->
  run_tool_read alloc (blob ++ rest) =
    match opt_str (q_tool_name q), tier_descriptor (q_tier q) with
    | None, _ => inl (bs "error: missing tool_name")
    | _, None => inl (bs "error: unsupported tier")
    | Some _, Some d => inr (as_parsed q, d)
    end.
Proof.
  intros Ha Hq Hs. destruct (serialize_enc alloc q blob Hs) as [-> Hlen].
  set (e := enc_request q) in *. assert (Hb : 0 <= zlen e < 2 ^ 32) by (unfold RUNTOOL_REQUEST_MAX in Hlen; lia).
  unfold run_tool_read.
  rewrite !zlen_app. change (zlen (le32 (zlen e))) with 4. pose proof (zlen_nonneg rest).
  destruct (4 + zlen e + zlen rest <? 4) eqn:E1; [lia|]. rewrite <- app_assoc, of_le32_le32 by done.
  destruct ((zlen e =? 0) || (RUNTOOL_REQUEST_MAX - 4 <? zlen e)) eqn:E2; [lia|].
  rewrite Ha by lia. cbn [negb]. change (drop 4 (le32 (zlen e) ++ e ++ rest)) with (e ++ rest).
  rewrite zlen_app. destruct (zlen e + zlen rest <? zlen e) eqn:E3; [lia|].
  replace (Z.to_nat (zlen e)) with (length e) by (unfold zlen; lia). rewrite take_app_length.
  unfold e. rewrite parse_request_enc by (done || (unfold e in Hlen; lia)). cbn [as_parsed q_tool_name q_tier].
  by destruct (opt_str (q_tool_name q)), (tier_descriptor (q_tier q)).
Qed.

(** (C40) The request survives the pipe.  When the parent can serialise a request, the
    child reads it back field by field, whatever the strings, the lists, the secrets
    and the parameters are: an absent or empty string is absent, a parameter keeps an
    empty value, the working directory travels only when it is mounted, and nothing
    is misread as another field.  It then fails only for want of a tool name or of a
    known tier.  The frame is within the bound both sides agree on, and extra bytes
    that follow it are left alone. *)
Theorem wire_roundtrip alloc q blob rest :
  (forall n, n <= 24 * RUNTOOL_REQUEST_MAX -> alloc n = true) -> req_ok q ->
  run_tool_serialize_request alloc q = Some blob ->
  zlen blob <= RUNTOOL_REQUEST_MAX /\
  run_tool_read alloc (blob ++ rest) =
    match opt_str (q_tool_name q), tier_descriptor (q_tier q) with
    | None, _ => inl (bs "error: missing tool_name")
    | _, None => inl (bs "error: unsupported tier")
    | Some _, Some d => inr (as_parsed q, d)
    end.
Proof.
  intros Ha Hq Hs. split; [|by apply wire_read]. destruct (serialize_enc alloc q blob Hs) as [-> Hlen].
  rewrite zlen_app. change (zlen (le32 (zlen (enc_request q)))) with 4. unfold RUNTOOL_REQUEST_MAX in *. lia.
Qed.


Definition wire_example : RunToolReq :=
  mk_req 1 (Some (bs "bash")) 0 64 (-1) 30 1 2 (Some (bs "/ws")) (Some (bs "/home")) (Some []) 0 None
    [Some (bs "/a"); Some []] [] None [Some (bs "example.com")] [] (Some (bs "ls")) None (-5)
    [mk_rsecret (Some (bs "K")) (Some (bs "v")) None]
    [mk_warg (Some (bs "content")) TOOL_ARG_TEXT (Some []) []; mk_warg (Some (bs "argv")) TOOL_ARG_LIST None [Some (bs "-l")]]
    None None None.

Lemma wire_roundtrip_witness :
  exists blob, run_tool_serialize_request (fun _ => true) wire_example = Some blob /\
    run_tool_read (fun _ => true) (blob ++ [7; 7]) = inr (as_parsed wire_example, mk_tier false true true).
Proof.
  eexists. split; [vm_compute; reflexivity|].
  refine (proj2 (wire_roundtrip (fun _ => true) wire_example _ [7; 7] _ _ _)); [done | | vm_compute; reflexivity].
  split; [vm_compute; split; congruence | repeat constructor; vm_compute; congruence | repeat constructor; vm_compute; congruence].
Defined.
