(* ===== verification/ToolFrame.v ===== *)
(** * The answer of a tool child: src/run_tool.c and src/child.c

    The child drains its command, spills a long output to a file and writes one frame
    (status, contacted hosts, result); the daemon drains the frame from a non-blocking
    pipe, however it is cut into reads.  The table of live children is here too. *)
From S2P Require Import Prelude CString Libc Ingest Wire.

Definition RUNTOOL_RESULT_MAX : Z := 64 * 1024.
Definition RUNTOOL_RESULT_MAX_LINES : Z := 2000.
Definition RUNTOOL_STATUS_OK : Z := 0.
Definition RUNTOOL_STATUS_ERROR : Z := 1.
Definition NET_MAX_OUTPUT : Z := 256 * 1024.

(** ** Writing until it is done or a write fails *)

(** [w k] is what the [k]th call of write() answers, were there enough bytes: the
    bytes that went out, whether all did, and the next call. *)
Section Writes.
Context (w : nat -> Z).

Fixpoint write_loop (fuel k : nat) (buf : list Z) : list Z * bool * nat :=
  match fuel, buf with
  | _, [] => ([], true, k)
  | O, _ => ([], false, k)
  | S fuel, _ =>
      if w k <=? 0 then ([], false, S k)
      else
        let n := Z.to_nat (Z.min (w k) (zlen buf)) in
        let '(out, ok, k) := write_loop fuel (S k) (drop n buf) in (take n buf ++ out, ok, k)
  end.

Definition write_all (k : nat) (buf : list Z) : list Z * bool * nat := write_loop (length buf) k buf.
End Writes.

(** ** The frame *)
Definition be32 (v : Z) : list Z :=
  [Z.shiftr v 24 mod 256; Z.shiftr v 16 mod 256; Z.shiftr v 8 mod 256; v mod 256].

Definition frame_hdr (status : Z) (mlen : Z) : list Z :=
  (if status =? 0 then RUNTOOL_STATUS_OK else RUNTOOL_STATUS_ERROR) :: be32 mlen.

(** What reaches the pipe, and the function's 0 or -1. *)
Definition write_framed (w : nat -> Z) (status : Z) (hosts_json : option cstring) (result : cstring) : list Z * bool :=
  let meta := default [] hosts_json in
  let '(o1, ok1, k) := write_all w 0 (frame_hdr status (zlen meta)) in
  if negb ok1 then (o1, false)
  else
    let '(o2, ok2, k) := write_all w k meta in
    if negb ok2 then (o1 ++ o2, false)
    else let '(o3, ok3, _) := write_all w k result in (o1 ++ o2 ++ o3, ok3).

Definition frame_bytes (status : Z) (hosts_json : option cstring) (result : cstring) : list Z :=
  frame_hdr status (zlen (default [] hosts_json)) ++ default [] hosts_json ++ result.

(** ** The result that is too long *)

(** The loop of [spill_large_result]: the cut ([len] while there is none), the lines
    before it and all the lines. *)
Fixpoint spill_scan (len i cut lines total : Z) (s : cstring) : Z * Z * Z :=
  match s with
  | [] => (cut, lines, total)
  | c :: s' =>
      let nl := c =? 10 in
      let total := if nl then total + 1 else total in
      let lines' := if nl && (cut =? len) then lines + 1 else lines in
      let cut' := if nl && (cut =? len) && (RUNTOOL_RESULT_MAX_LINES <=? lines') then i + 1 else cut in
      let cut'' := if (RUNTOOL_RESULT_MAX <=? i + 1) && (cut' =? len) then RUNTOOL_RESULT_MAX else cut' in
      spill_scan len (i + 1) cut'' lines' total s'
  end.

Definition child_suffix (wrote : bool) (lines total : Z) (path : cstring) : cstring :=
  let head := [10] ++ bs "[truncated " ++ EM_DASH ++ bs " showing first " ++
    print_int (if lines <? RUNTOOL_RESULT_MAX_LINES then lines else RUNTOOL_RESULT_MAX_LINES) ++ bs " lines of " ++
    print_int (if total >? 0 then total else 1) in
  snprintf (PATH_MAX + 128)
    (if wrote then head ++ bs ". Full output: " ++ path ++ bs "]" else head ++ bs "; full output could not be saved]").

(** The replacement of the result (NULL keeps it), and the file as this call leaves
    it (untouched when it does not open it). *)
Definition spill_large_result (alloc : Z -> bool) (opens : bool) (w : nat -> Z)
    (spill_path : option cstring) (result : option cstring) (already_written : bool)
    : option cstring * option (list Z) :=
  match spill_path, result with
  | Some ((_ :: _) as path), Some result =>
      let len := zlen result in
      let '(cut, lines, total) := spill_scan len 0 len 0 0 result in
      if len <=? cut then (None, None)
      else
        let '(wrote, file) :=
          if already_written then (true, None)
          else if opens then let '(out, ok, _) := write_all w 0 result in (ok, Some out)
          else (false, None) in
        let suffix := child_suffix wrote lines total path in
        (if alloc (cut + zlen suffix + 1) then Some (take (Z.to_nat cut) result ++ suffix) else None, file)
  | _, _ => (None, None)
  end.

(** ** Draining the command *)

(** The spill file as it is written while the command runs: its bytes once it is open,
    the latch, and the next call of write(). *)
Record SpillSink := mk_sink { sk_fd : option (list Z); sk_failed : bool; sk_k : nat }.

Definition sink_put (w : nat -> Z) (f : list Z) (buf : list Z) (k : nat) : SpillSink :=
  let '(out, ok, k) := write_all w k buf in mk_sink (Some (f ++ out)) (negb ok) k.

Definition spill_sink_feed (opens : bool) (w : nat -> Z) (path : option cstring) (head buf : list Z) (total_before : Z)
    (s : SpillSink) : SpillSink :=
  match path with
  | None | Some [] => s
  | Some _ =>
      if sk_failed s then s
      else
        match sk_fd s with
        | Some f => sink_put w f buf (sk_k s)
        | None =>
            if total_before + zlen buf <=? RUNTOOL_RESULT_MAX then s
            else if negb opens then mk_sink None true (sk_k s)
            else
              let s := sink_put w [] head (sk_k s) in
              if sk_failed s then s else sink_put w (default [] (sk_fd s)) buf (sk_k s)
        end
  end.

Inductive WaitStatus := Exited (code : Z) | Signaled (sig : Z).

(** What select() and read() of one turn answer; an empty read is the end or an error. *)
Inductive Sel := SelRead (chunk : list Z) | SelIdle | SelError.

(** One turn of the loop: whether the deadline is past, the select, and what a
    waitpid() that does not block reports. *)
Record Turn := mk_turn { tn_deadline : bool; tn_sel : Sel; tn_wait : option WaitStatus }.

Record Drain := mk_drain { d_output : list Z; d_total : Z; d_sink : SpillSink }.

Definition drain0 : Drain := mk_drain [] 0 (mk_sink None false 0).

Section DrainChild.
Context (opens : bool) (w : nat -> Z) (spill_path : option cstring).

Definition drain_absorb (d : Drain) (chunk : list Z) : Drain :=
  let len := zlen (d_output d) in
  let keep := Z.min (zlen chunk) (NET_MAX_OUTPUT - len) in
  mk_drain (d_output d ++ take (Z.to_nat keep) chunk) (d_total d + zlen chunk)
    (spill_sink_feed opens w spill_path (d_output d) chunk (d_total d) (d_sink d)).

(** [rest] is what the reads after the child was reaped give; [last] the status of the
    waitpid() that blocks.  [None]: the turns ran out. *)
Fixpoint drain_loop (turns : list Turn) (rest : list (list Z)) (last : WaitStatus) (d : Drain)
    : option (Drain * bool * WaitStatus) :=
  match turns with
  | [] => None
  | t :: turns =>
      if tn_deadline t then Some (d, true, Exited 0)
      else
        match tn_sel t with
        | SelRead [] | SelError => Some (d, false, last)
        | sel =>
            let d := match sel with SelRead chunk => drain_absorb d chunk | _ => d end in
            match tn_wait t with
            | Some st => Some (fold_left drain_absorb rest d, false, st)
            | None => drain_loop turns rest last d
            end
        end
  end.

Definition drain_child (turns : list Turn) (rest : list (list Z)) (last : WaitStatus) :=
  drain_loop turns rest last drain0.
End DrainChild.

Definition spilled (d : Drain) : bool := match sk_fd (d_sink d) with Some _ => true | None => false end.

(** ** The result of a tier *)
Definition SIGKILL : Z := 9.
Definition SIGXCPU : Z := 24.

Definition signal_attribution (as_mb cpu_sec nproc : Z) (status : WaitStatus) : option cstring :=
  match status with
  | Exited _ => None
  | Signaled sig =>
      let limited := (as_mb >? 0) || (cpu_sec >? 0) || (nproc >? 0) in
      if (sig =? SIGKILL) && limited then
        Some ([10] ++ bs "[killed by SIGKILL " ++ EM_DASH ++
              bs " likely resource limit (memory/CPU/processes); reduce usage, don't just retry]")
      else if sig =? SIGKILL then Some ([10] ++ bs "[killed by SIGKILL]")
      else if sig =? SIGXCPU then
        Some ([10] ++ bs "[killed by SIGXCPU " ++ EM_DASH ++ bs " CPU limit reached; reduce usage, don't just retry]")
      else None
  end.

(** [output] up to its terminator.  When the first allocation fails the raw capture is
    returned as it is. *)
Definition format_tier_result (alloc : Z -> bool) (inner_exec : bool) (q : RunToolReq) (timeout : Z)
    (output : list Z) (timed_out : bool) (status : WaitStatus) : cstring * bool :=
  let text := c_str (output ++ [0]) in
  let out_len := zlen output in
  let finish (result : cstring) :=
    match signal_attribution (q_as_mb q) (q_cpu_sec q) (q_nproc q) status with
    | Some a => if alloc (zlen result + zlen a + 1) then result ++ a else result
    | None => result
    end in
  if inner_exec then
    let needed := out_len + 256 in
    if negb (alloc needed) then (text, false)
    else if timed_out then
      (finish (snprintf (Z.to_nat needed)
         (bs "[timeout after " ++ print_int timeout ++ bs "s " ++ EM_DASH ++ bs " raise with the timeout parameter]" ++
          [10] ++ text)), true)
    else
      let code := match status with Exited c => c | Signaled _ => -1 end in
      (finish (snprintf (Z.to_nat needed) (bs "[exit " ++ print_int code ++ bs "]" ++ [10] ++ text)), false)
  else
    let failed := match status with Exited c => negb (c =? 0) | Signaled _ => true end in
    if timed_out then
      let needed := out_len + 128 in
      if negb (alloc needed) then (text, failed)
      else (finish (snprintf (Z.to_nat needed)
              (bs "error: tool timed out (" ++ print_int timeout ++ bs "s; raise with the timeout parameter)" ++ [10] ++
               text)), true)
    else (finish text, failed).

(** What the broker of a network tier answers: the error flag, the result, and the
    spill file at the end.  [file] is what the drain left in it, [denied] the summary
    of the proxy. *)
Definition serve_result (alloc : Z -> bool) (opens : bool) (w : nat -> Z) (inner_exec : bool) (q : RunToolReq)
    (drained : Drain) (timed_out : bool) (status : WaitStatus) (denied : option cstring)
    : bool * cstring * option (list Z) :=
  let timeout := if q_timeout q <=? 0 then 60 else q_timeout q in
  let (result, is_error) := format_tier_result alloc inner_exec q timeout (d_output drained) timed_out status in
  let result :=
    match denied with
    | Some d => if alloc (zlen result + zlen d + 1) then result ++ d else result
    | None => result
    end in
  let (cut, file) := spill_large_result alloc opens w (q_spill_path q) (Some result) (spilled drained) in
  (is_error, default result cut, match file with Some f => Some f | None => sk_fd (d_sink drained) end).

(** ** The daemon's side: draining the frame *)
Definition TOOL_MAX_OUTPUT : Z := 60 * 1024.
Definition FRAME_META_MAX : Z := 64 * 1024.
Definition CHILD_MAX : Z := 48.

(** The frame state of a [ChildProc].  [f_hosts] is the zeroed allocation the meta is
    copied into, [f_log] what the log file of a background job holds. *)
Record Frame := mk_frame {
  f_hdr : list Z; f_status : bool; f_meta_len : Z; f_meta_read : Z;
  f_hosts : option (list Z); f_outbuf : option (list Z); f_log : option (list Z)
}.

Definition frame0 (log : bool) : Frame := mk_frame [] false 0 0 None None (if log then Some [] else None).

Definition of_be32 (b : list Z) : Z :=
  Z.lor (Z.lor (Z.lor (Z.shiftl (nth 0 b 0) 24) (Z.shiftl (nth 1 b 0) 16)) (Z.shiftl (nth 2 b 0) 8)) (nth 3 b 0).

Section Drain.
Context (alloc : Z -> bool).

(** The header bytes of a read, and what is left of it. *)
Definition drain_hdr (f : Frame) (buf : list Z) : Frame * list Z :=
  let want := (5 - length (f_hdr f))%nat in
  (mk_frame (f_hdr f ++ take want buf) (f_status f) (f_meta_len f) (f_meta_read f) (f_hosts f) (f_outbuf f) (f_log f),
   drop want buf).

Definition drain_parse (f : Frame) : Frame :=
  if bool_decide (length (f_hdr f) = 5%nat) && (f_meta_read f =? 0) && match f_hosts f with None => true | Some _ => false end
  then
    let n := of_be32 (drop 1 (f_hdr f)) in
    mk_frame (f_hdr f) (nth 0 (f_hdr f) 0 =? RUNTOOL_STATUS_ERROR) n 0
      (if (0 <? n) && (n <=? FRAME_META_MAX) && alloc (n + 1) then Some (repeat 0 (Z.to_nat (n + 1))) else None)
      (f_outbuf f) (f_log f)
  else f.

Definition overwrite (buf : list Z) (at_ : nat) (s : list Z) : list Z := take at_ buf ++ s ++ drop (at_ + length s) buf.

Definition drain_meta (f : Frame) (buf : list Z) : Frame * list Z :=
  let want := Z.to_nat (f_meta_len f - f_meta_read f) in
  let part := take want buf in
  (mk_frame (f_hdr f) (f_status f) (f_meta_len f) (f_meta_read f + zlen part)
     (match f_hosts f with Some h => Some (overwrite h (Z.to_nat (f_meta_read f)) part) | None => None end)
     (f_outbuf f) (f_log f),
   drop want buf).

Definition drain_body (wr : list Z -> list Z) (f : Frame) (buf : list Z) : Frame :=
  match f_log f with
  | Some l => mk_frame (f_hdr f) (f_status f) (f_meta_len f) (f_meta_read f) (f_hosts f) (f_outbuf f) (Some (l ++ wr buf))
  | None =>
      let have := default [] (f_outbuf f) in
      let to_copy := if TOOL_MAX_OUTPUT <? zlen have + zlen buf then TOOL_MAX_OUTPUT - zlen have else zlen buf in
      if (to_copy =? 0) || negb (alloc (zlen have + to_copy + 1)) then f
      else mk_frame (f_hdr f) (f_status f) (f_meta_len f) (f_meta_read f) (f_hosts f)
             (Some (have ++ take (Z.to_nat to_copy) buf)) (f_log f)
  end.

(** One read of the loop of [child_drain_pipe]; [w] answers the writes to the log. *)
Definition drain_read (w : nat -> Z) (f : Frame) (buf : list Z) : Frame :=
  let (f, buf) := drain_hdr f buf in
  let f := drain_parse f in
  if (length (f_hdr f) <? 5)%nat then f
  else
    let (f, buf) := drain_meta f buf in
    match buf with [] => f | _ => drain_body (fun b => fst (fst (write_all w 0 b))) f buf end.

(** How the last read of a drain fails. *)
Inductive ReadEnd := EndEof | EndAgain | EndError.

(** One drain: the reads, then the frame and whether the pipe is still open. *)
Definition child_drain_pipe (f : Frame) (pipe_open : bool) (reads : list ((nat -> Z) * list Z)) (fin : ReadEnd) : Frame * bool :=
  if negb pipe_open then (f, false)
  else (fold_left (fun f r => drain_read (fst r) f (snd r)) reads f, match fin with EndAgain => true | _ => false end).
End Drain.

(** What the child sends when it cannot be executed (child.c:277). *)
Definition exec_failed_frame : list Z := [0; 0; 0; 0] ++ bs "error: execve failed".

(** ** The table of children *)
Inductive ChildType := CHILD_CHANNEL | CHILD_TOOL_EXEC | CHILD_CRON_SCRIPT.
#[export] Instance child_type_eq_dec : EqDecision ChildType.
Proof. solve_decision. Defined.

Record ChildProc := mk_child {
  cp_pid : Z; cp_type : ChildType; cp_session_id : Z; cp_agent_name : cstring;
  cp_tool_call_id : cstring; cp_tool_name : cstring; cp_tool_args : option cstring;
  cp_iteration_id : Z; cp_entry_id : Z;
  cp_pipe : bool; cp_frame : Frame; cp_background : bool; cp_cancelled : bool;
  cp_deadline : Z; cp_timeout_sec : Z; cp_cron_job : cstring; cp_cron_prompt : option cstring
}.

Definition child_count (t : list ChildProc) : Z := zlen t.

Definition child_at (t : list ChildProc) (idx : Z) : option ChildProc :=
  if (idx <? 0) || (zlen t <=? idx) then None else t !! Z.to_nat idx.

Definition child_find_tool_call (t : list ChildProc) (sid : Z) (call : option cstring) : option ChildProc :=
  List.find (fun c => bool_decide (cp_type c = CHILD_TOOL_EXEC) && (cp_session_id c =? sid) &&
                      match call with Some id => streq (cp_tool_call_id c) id | None => false end) t.

Definition child_find (t : list ChildProc) (pid : Z) : option ChildProc := List.find (fun c => cp_pid c =? pid) t.

(** The last slot moves into the one removed. *)
Definition child_remove (t : list ChildProc) (idx : Z) : list ChildProc :=
  if (idx <? 0) || (zlen t <=? idx) then t else swap_remove t (Z.to_nat idx).

Definition child_is_run_tool (c : ChildProc) : bool :=
  bool_decide (cp_type c = CHILD_TOOL_EXEC) || bool_decide (cp_type c = CHILD_CRON_SCRIPT).

Definition child_has_session (t : list ChildProc) (sid : Z) : bool :=
  existsb (fun c => bool_decide (cp_type c = CHILD_TOOL_EXEC) && (cp_session_id c =? sid) && negb (cp_background c)) t.

(** The indices [add_result_pipe_fds] polls, in the room of [max] descriptors. *)
Definition add_result_pipe_fds (t : list ChildProc) (nfds max : Z) : list ChildProc :=
  take (Z.to_nat (max - nfds)) (List.filter (fun c => child_is_run_tool c && cp_pipe c) t).

(** What the system calls of a spawn answer. *)
Record SpawnEnv := mk_spawn { sp_socketpair : bool; sp_fork : option Z; sp_sent : bool; sp_now : Z }.

(** The table, and the slot of the child ([None] is NULL). *)
Definition spawn_run_tool_blob (env : SpawnEnv) (t : list ChildProc) (type : ChildType) (sid : Z)
    (agent : option cstring) (timeout_sec : Z) : list ChildProc * option ChildProc :=
  if CHILD_MAX <=? child_count t then (t, None)
  else if negb (sp_socketpair env) then (t, None)
  else match sp_fork env with
       | None => (t, None)
       | Some pid =>
           if negb (sp_sent env) then (t, None)
           else
             let secs := if timeout_sec >? 0 then timeout_sec else 120 in
             let c := mk_child pid type sid (snprintf 64 (default [] agent)) [] [] None 0 0 true (frame0 false) false false
                        (sp_now env + secs) secs [] None in
             (t ++ [c], Some c)
       end.

Definition spawn_run_tool_child (env : SpawnEnv) (t : list ChildProc) (sid : Z) (agent : option cstring)
    (call tool_name : cstring) (args : option cstring) (iteration_id entry_id timeout_sec : Z)
    : list ChildProc * option ChildProc :=
  let (t', c) := spawn_run_tool_blob env t CHILD_TOOL_EXEC sid agent timeout_sec in
  match c with
  | None => (t', None)
  | Some c =>
      let c := mk_child (cp_pid c) (cp_type c) (cp_session_id c) (cp_agent_name c) (snprintf 64 call) (snprintf 64 tool_name)
                 args iteration_id entry_id (cp_pipe c) (cp_frame c) (cp_background c) (cp_cancelled c)
                 (cp_deadline c) (cp_timeout_sec c) (cp_cron_job c) (cp_cron_prompt c) in
      (<[length t := c]> t', Some c)
  end.

(** * Lemmas *)

(** ** The frame after any bytes *)

(** The frame whose header is [h] and that has read [ys] after it. *)
Definition frame_at (h ys : list Z) : Frame :=
  let n := of_be32 (drop 1 h) in
  let meta := take (Z.to_nat n) ys in
  let body := drop (Z.to_nat n) ys in
  mk_frame h (nth 0 h 0 =? RUNTOOL_STATUS_ERROR) n (zlen meta)
    (if (0 <? n) && (n <=? FRAME_META_MAX) then Some (meta ++ repeat 0 (Z.to_nat (n + 1) - length meta)) else None)
    (match body with [] => None | _ => Some (take (Z.to_nat TOOL_MAX_OUTPUT) body) end) None.

(** What the bytes [xs] of a stream say. *)
Definition frame_of (xs : list Z) : Frame :=
  if (length xs <? 5)%nat then mk_frame xs false 0 0 None None None else frame_at (take 5 xs) (drop 5 xs).

Section DrainSpec.
Context (alloc : Z -> bool) (alloc_ok : forall n, n <= FRAME_META_MAX + 1 -> alloc n = true).

Lemma drain_meta_at h ys buf :
  0 <= of_be32 (drop 1 h) ->
  drain_meta (frame_at h ys) buf =
    (mk_frame h (f_status (frame_at h (ys ++ buf))) (f_meta_len (frame_at h (ys ++ buf)))
       (f_meta_read (frame_at h (ys ++ buf))) (f_hosts (frame_at h (ys ++ buf))) (f_outbuf (frame_at h ys)) None,
     drop (Z.to_nat (of_be32 (drop 1 h)) - length ys) buf).
Proof.
  intros Hn. unfold drain_meta, frame_at. cbn [f_hdr f_status f_meta_len f_meta_read f_hosts f_outbuf f_log].
  set (n := of_be32 (drop 1 h)) in *.
  assert (Ew : Z.to_nat (n - zlen (take (Z.to_nat n) ys)) = (Z.to_nat n - length ys)%nat).
  { unfold zlen. rewrite length_take. lia. }
  rewrite Ew, take_app. f_equal. f_equal; [by rewrite zlen_app|].
  destruct ((0 <? n) && (n <=? FRAME_META_MAX)); [|done]. f_equal. unfold overwrite.
  set (m := take (Z.to_nat n) ys). set (part := take (Z.to_nat n - length ys) buf).
  replace (Z.to_nat (zlen m)) with (length m) by (unfold zlen; lia).
  rewrite take_app_length, <- app_assoc. do 2 f_equal.
  rewrite drop_app, drop_ge by lia. cbn [app]. rewrite length_app.
  replace (length m + length part - length m)%nat with (length part) by lia.
  replace (Z.to_nat (n + 1) - (length m + length part))%nat with (Z.to_nat (n + 1) - length m - length part)%nat by lia.
  generalize (Z.to_nat (n + 1) - length m)%nat. generalize (length part).
  intros k. induction k as [|k IH]; intros [|j]; [done|done|done|]. cbn. apply IH.
Qed.

Lemma outbuf_app (body buf : list Z) :
  buf <> [] ->
  let have := default [] (match body with [] => None | _ => Some (take (Z.to_nat TOOL_MAX_OUTPUT) body) end) in
  have = take (Z.to_nat TOOL_MAX_OUTPUT) body /\
  have ++ take (Z.to_nat (if TOOL_MAX_OUTPUT <? zlen have + zlen buf then TOOL_MAX_OUTPUT - zlen have else zlen buf)) buf =
    take (Z.to_nat TOOL_MAX_OUTPUT) (body ++ buf).
Proof.
  intros Hb. cbv zeta. set (have := default [] _).
  assert (E : have = take (Z.to_nat TOOL_MAX_OUTPUT) body) by (unfold have; destruct body; [by rewrite take_nil|done]).
  split; [done|]. clearbody have. subst have. rewrite take_app. f_equal.
  unfold zlen. rewrite length_take. unfold TOOL_MAX_OUTPUT. case_match.
  - f_equal. lia.
  - rewrite !take_ge by lia. done.
Qed.

Lemma drain_body_at wr h ys buf' body :
  buf' <> [] -> body = drop (Z.to_nat (of_be32 (drop 1 h))) ys ->
  forall st n m hosts,
  drain_body alloc wr (mk_frame h st n m hosts (f_outbuf (frame_at h ys)) None) buf' =
    mk_frame h st n m hosts (Some (take (Z.to_nat TOOL_MAX_OUTPUT) (body ++ buf'))) None.
Proof.
  intros Hb -> st n m hosts. unfold drain_body. cbn [f_hdr f_status f_meta_len f_meta_read f_hosts f_outbuf f_log].
  unfold frame_at. cbn [f_outbuf]. set (body := drop _ ys).
  destruct (outbuf_app body buf' Hb) as [Eh Et]. cbv zeta in Eh, Et. revert Eh Et.
  set (o := match body with [] => None | _ => _ end). set (have := default [] o). intros Eh Et.
  set (k := if TOOL_MAX_OUTPUT <? _ then _ else _) in *.
  assert (Hlen : zlen have <= TOOL_MAX_OUTPUT) by (rewrite Eh; unfold zlen, TOOL_MAX_OUTPUT; rewrite length_take; lia).
  assert (Hk : 0 <= k <= TOOL_MAX_OUTPUT - zlen have)
    by (unfold k; pose proof (zlen_nonneg buf'); destruct (TOOL_MAX_OUTPUT <? zlen have + zlen buf') eqn:?; lia).
  destruct (k =? 0) eqn:Ek.
  - cbn [orb]. assert (k = 0) as E0 by lia. rewrite E0 in Et. cbn in Et. rewrite app_nil_r in Et.
    assert (have <> []).
    { intros E. unfold k in E0. rewrite E in E0. change (zlen (@nil Z)) with 0 in E0. destruct buf' as [|c b]; [done|].
      rewrite zlen_cons in E0. pose proof (zlen_nonneg b). unfold TOOL_MAX_OUTPUT in E0.
      destruct (60 * 1024 <? 0 + (1 + zlen b)) eqn:?; lia. }
    rewrite <- Et. f_equal. unfold o in *. by destruct body.
  - rewrite alloc_ok by (revert Hk Hlen; clearbody k; clear; unfold TOOL_MAX_OUTPUT, FRAME_META_MAX; lia). cbn [orb negb].
    by rewrite Et.
Qed.

Lemma drain_parse_at h ys : length h = 5%nat -> drain_parse alloc (frame_at h ys) = frame_at h ys.
Proof.
  intros Hh. unfold drain_parse. destruct (bool_decide _ && _ && _) eqn:E; [|done].
  apply andb_prop in E as [E Eho]. apply andb_prop in E as [_ Em]. cbn [f_meta_read f_hosts frame_at] in Em, Eho.
  unfold frame_at at 1 2 3 4 5 6. cbn [f_hdr f_status f_meta_len f_meta_read f_hosts f_outbuf f_log].
  set (n := of_be32 (drop 1 h)) in *. unfold frame_at. fold n.
  destruct ((0 <? n) && (n <=? FRAME_META_MAX)) eqn:En; [done|]. cbn [andb].
  replace (zlen (take (Z.to_nat n) ys)) with 0 by lia. done.
Qed.

Lemma drain_parse_full h : length h = 5%nat -> drain_parse alloc (mk_frame h false 0 0 None None None) = frame_at h [].
Proof.
  intros Hh. unfold drain_parse. cbn [f_hdr f_status f_meta_len f_meta_read f_hosts f_outbuf f_log].
  rewrite bool_decide_true by done. cbn [andb Z.eqb]. unfold frame_at. set (n := of_be32 (drop 1 h)).
  rewrite take_nil, drop_nil. cbn [app length]. rewrite Nat.sub_0_r. f_equal.
  destruct ((0 <? n) && (n <=? FRAME_META_MAX)) eqn:En; [|done]. by rewrite alloc_ok by lia.
Qed.

Lemma drain_rest wr h ys buf :
  0 <= of_be32 (drop 1 h) ->
  (let (f, buf) := drain_meta (frame_at h ys) buf in match buf with [] => f | _ => drain_body alloc wr f buf end) =
    frame_at h (ys ++ buf).
Proof.
  intros Hn. rewrite drain_meta_at by done. set (n := Z.to_nat (of_be32 (drop 1 h))).
  assert (Ed : drop n (ys ++ buf) = drop n ys ++ drop (n - length ys) buf) by apply drop_app.
  destruct (drop (n - length ys) buf) as [|c b'] eqn:Eb.
  - unfold frame_at. cbn [f_hdr f_status f_meta_len f_meta_read f_hosts f_outbuf f_log]. fold n.
    by rewrite Ed, app_nil_r.
  - rewrite (drain_body_at wr h ys (c :: b') _ ltac:(done) eq_refl). unfold frame_at.
    cbn [f_hdr f_status f_meta_len f_meta_read f_hosts f_outbuf f_log]. fold n. rewrite Ed.
    by destruct (drop n ys).
Qed.

Lemma hdr_bytes_ok xs : bytes_ok xs -> bytes_ok (drop 1 (take 5 xs)).
Proof.
  unfold bytes_ok. rewrite !List.Forall_forall. intros H x Hx. apply H.
  rewrite <- (firstn_skipn 5 xs). apply in_or_app. left. rewrite <- (firstn_skipn 1 (take 5 xs)). apply in_or_app. by right.
Qed.

Lemma of_be32_nonneg b : bytes_ok b -> 0 <= of_be32 b.
Proof.
  intros Hb. assert (Hn : forall i, 0 <= nth i b 0).
  { intros i. destruct (nth_in_or_default i b 0) as [Hin| ->]; [|done].
    unfold bytes_ok in Hb. rewrite List.Forall_forall in Hb. by destruct (Hb _ Hin). }
  unfold of_be32. rewrite !Z.lor_nonneg, !Z.shiftl_nonneg. auto.
Qed.

Lemma drain_read_frame_of w xs buf :
  bytes_ok (xs ++ buf) -> drain_read alloc w (frame_of xs) buf = frame_of (xs ++ buf).
Proof.
  intros Hb. unfold drain_read, frame_of. rewrite length_app.
  destruct (length xs <? 5)%nat eqn:E1.
  - unfold drain_hdr. cbn [f_hdr f_status f_meta_len f_meta_read f_hosts f_outbuf f_log].
    set (k := (5 - length xs)%nat). destruct (length xs + length buf <? 5)%nat eqn:E2.
    + rewrite take_ge by lia. unfold drain_parse. cbn [f_hdr].
      rewrite bool_decide_false by (rewrite length_app; lia). cbn [andb f_hdr].
      by destruct (length (xs ++ buf) <? 5)%nat eqn:E3; [|rewrite length_app in E3; lia].
    + assert (Et : take 5 (xs ++ buf) = xs ++ take k buf) by (by rewrite take_app, (take_ge xs) by lia).
      assert (Ed : drop 5 (xs ++ buf) = drop k buf) by (by rewrite drop_app, (drop_ge xs) by lia).
      assert (Hl : length (xs ++ take k buf) = 5%nat) by (rewrite length_app, length_take; lia).
      rewrite Et, Ed, drain_parse_full by done. cbn [f_hdr frame_at]. rewrite Hl. cbn [Nat.ltb Nat.leb].
      rewrite drain_rest; [done|]. apply of_be32_nonneg. rewrite <- Et.
      by apply hdr_bytes_ok.
  - destruct (length xs + length buf <? 5)%nat eqn:E2; [lia|].
    rewrite take_app_le, drop_app_le by lia.
    assert (Hl : length (take 5 xs) = 5%nat) by (rewrite length_take; lia).
    unfold drain_hdr. cbn [f_hdr f_status f_meta_len f_meta_read f_hosts f_outbuf f_log frame_at]. rewrite Hl.
    cbn [Nat.sub take drop]. rewrite app_nil_r.
    change (mk_frame (take 5 xs) _ _ _ _ _ _) with (frame_at (take 5 xs) (drop 5 xs)).
    rewrite drain_parse_at by done. cbn [f_hdr frame_at]. rewrite Hl. cbn [Nat.ltb Nat.leb].
    rewrite drain_rest; [done|]. apply of_be32_nonneg. rewrite bytes_ok_app in Hb. destruct Hb as [Hb _].
    by apply hdr_bytes_ok.
Qed.

Lemma drain_reads_frame_of reads : forall xs,
  bytes_ok (xs ++ concat (map snd reads)) ->
  fold_left (fun f r => drain_read alloc (fst r) f (snd r)) reads (frame_of xs) = frame_of (xs ++ concat (map snd reads)).
Proof.
  induction reads as [|[w buf] reads IH]; intros xs Hb; cbn [map concat fold_left fst snd] in *; [by rewrite app_nil_r|].
  rewrite app_assoc in Hb. rewrite drain_read_frame_of, IH, app_assoc; [done|done|].
  by apply bytes_ok_app in Hb as [Hb _].
Qed.
End DrainSpec.

(** The daemon's parser of the answer is independent of how the pipe cuts it.
    However the bytes of the stream are split into reads, the drain's state is that
    of the one function [frame_of] of all of them: the header, the verdict, the hosts
    and the head of the result within its cap.  A header or a host list that arrives
    in pieces is never misread, and nothing read twice or lost. *)
Theorem drain_chunking alloc reads fin :
  (forall n, n <= FRAME_META_MAX + 1 -> alloc n = true) -> bytes_ok (concat (map snd reads)) ->
  fst (child_drain_pipe alloc (frame0 false) true reads fin) = frame_of (concat (map snd reads)).
Proof. intros Ha Hb. exact (drain_reads_frame_of alloc Ha reads [] Hb). Qed.

Lemma drain_chunking_witness :
  fst (child_drain_pipe (fun _ => true) (frame0 false) true
         [(fun _ => 1, [1; 0; 0]); (fun _ => 1, [0; 2; 91]); (fun _ => 1, [93; 104; 105])] EndAgain) =
  mk_frame [1; 0; 0; 0; 2] true 2 2 (Some [91; 93; 0]) (Some [104; 105]) None.
Proof.
  rewrite (drain_chunking (fun _ => true) [(fun _ => 1, [1; 0; 0]); (fun _ => 1, [0; 2; 91]); (fun _ => 1, [93; 104; 105])] EndAgain);
    [vm_compute; reflexivity | done |].
  apply List.Forall_forall. intros x Hx. cbn in Hx. unfold byte_ok. lia.
Defined.

(** ** The frame the child writes *)
Lemma write_loop_all w fuel : (forall k, 0 < w k) -> forall k buf, (length buf <= fuel)%nat ->
  exists k', write_loop w fuel k buf = (buf, true, k').
Proof.
  intros Hw. induction fuel as [|fuel IH]; intros k [|c buf] Hf; try (by eexists); [cbn in Hf; lia|].
  cbn [write_loop]. specialize (Hw k) as Hk. destruct (w k <=? 0) eqn:E; [lia|].
  set (n := Z.to_nat (Z.min (w k) (zlen (c :: buf)))).
  assert (1 <= n)%nat by (unfold n; rewrite zlen_cons; pose proof (zlen_nonneg buf); lia).
  destruct (IH (S k) (drop n (c :: buf))) as [k' ->]; [rewrite length_drop; cbn [length] in *; lia|].
  exists k'. by rewrite take_drop.
Qed.

Lemma write_all_ok w k buf : (forall k, 0 < w k) -> exists k', write_all w k buf = (buf, true, k').
Proof. intros Hw. by apply write_loop_all. Qed.

Lemma write_framed_ok w st hosts result : (forall k, 0 < w k) ->
  write_framed w st hosts result = (frame_bytes st hosts result, true).
Proof.
  intros Hw. unfold write_framed, frame_bytes.
  edestruct (write_all_ok w 0) as [k1 E1]; [done|]. rewrite E1. cbn [negb].
  edestruct (write_all_ok w k1) as [k2 E2]; [done|]. rewrite E2. cbn [negb].
  edestruct (write_all_ok w k2) as [k3 E3]; [done|]. by rewrite E3.
Qed.

Lemma of_be32_be32 v : 0 <= v < 2 ^ 32 -> of_be32 (be32 v) = v.
Proof.
  intros Hv. unfold of_be32, be32. cbn [nth]. rewrite !Z.shiftr_div_pow2 by lia.
  rewrite <- !Z.lor_assoc.
  rewrite (lor_shiftl_add 8) by lia. rewrite (lor_shiftl_add 16) by lia. rewrite (lor_shiftl_add 24) by lia. lia.
Qed.

Lemma frame_bytes_ok st hosts result : bytes_ok (default [] hosts) -> bytes_ok result -> bytes_ok (frame_bytes st hosts result).
Proof.
  intros Hh Hr. unfold frame_bytes. rewrite !bytes_ok_app. split; [|done]. unfold frame_hdr, be32.
  repeat (apply bytes_ok_cons; split); try (unfold byte_ok; lia); [|constructor].
  by case_match.
Qed.

(** What the child answers is what the daemon records.  When the writes go through,
    the daemon's drain ends, whatever the reads, with the child's own verdict, the
    contacted hosts (none when there are none) and the result, cut to the daemon's
    60 KB; the whole answer is on the wire. *)
Theorem frame_roundtrip alloc w reads fin status hosts result :
  (forall n, n <= FRAME_META_MAX + 1 -> alloc n = true) -> (forall k, 0 < w k) ->
  bytes_ok (default [] hosts) -> bytes_ok result -> zlen (default [] hosts) <= FRAME_META_MAX ->
  concat (map snd reads) = fst (write_framed w status hosts result) ->
  let f := fst (child_drain_pipe alloc (frame0 false) true reads fin) in
  snd (write_framed w status hosts result) = true /\ f_status f = negb (status =? 0) /\
  f_hosts f = (match default [] hosts with [] => None | h => Some (h ++ [0]) end) /\
  default [] (f_outbuf f) = take (Z.to_nat TOOL_MAX_OUTPUT) result.
Proof.
  intros Ha Hw Hh Hr Hlen Hc. rewrite write_framed_ok in * by done. cbn [fst snd] in *.
  pose proof (frame_bytes_ok status hosts result Hh Hr) as Hb. cbn zeta. unfold child_drain_pipe. cbn [negb fst].
  change (frame0 false) with (frame_of []).
  rewrite (drain_reads_frame_of alloc Ha) by (by rewrite Hc). rewrite Hc. cbn [app]. clear Hc.
  unfold frame_bytes. set (h := default [] hosts) in *. unfold frame_of.
  change (length (frame_hdr status (zlen h) ++ h ++ result)) with (5 + length (h ++ result))%nat. cbn [Nat.add Nat.ltb Nat.leb].
  change (take 5 (frame_hdr status (zlen h) ++ h ++ result)) with (frame_hdr status (zlen h)).
  change (drop 5 (frame_hdr status (zlen h) ++ h ++ result)) with (h ++ result).
  unfold frame_at. cbn [f_status f_hosts f_outbuf]. change (drop 1 (frame_hdr status (zlen h))) with (be32 (zlen h)).
  pose proof (zlen_nonneg h). rewrite of_be32_be32 by (unfold FRAME_META_MAX in *; lia).
  replace (Z.to_nat (zlen h)) with (length h) by (unfold zlen; lia). rewrite take_app_length, drop_app_length.
  split; [done|]. split; [unfold frame_hdr; cbn [nth]; by destruct (status =? 0)|]. split.
  - destruct h as [|c h'] eqn:E; [done|]. rewrite <- E in *. destruct (0 <? zlen h) eqn:E0; [|rewrite E, zlen_cons in *; pose proof (zlen_nonneg h'); lia].
    destruct (zlen h <=? FRAME_META_MAX) eqn:E1; [|lia]. cbn [andb].
    replace (Z.to_nat (zlen h + 1) - length h)%nat with 1%nat by (unfold zlen; lia). by rewrite E.
  - destruct result; [by rewrite take_nil|done].
Qed.

(** The whole of the hosts was read. *)
Lemma frame_meta_whole alloc w reads fin status hosts result :
  (forall n, n <= FRAME_META_MAX + 1 -> alloc n = true) -> (forall k, 0 < w k) ->
  bytes_ok (default [] hosts) -> bytes_ok result -> zlen (default [] hosts) <= FRAME_META_MAX ->
  concat (map snd reads) = fst (write_framed w status hosts result) ->
  let f := fst (child_drain_pipe alloc (frame0 false) true reads fin) in
  f_meta_len f = zlen (default [] hosts) /\ f_meta_read f = zlen (default [] hosts).
Proof.
  intros Ha Hw Hh Hr Hlen Hc. rewrite write_framed_ok in * by done. cbn [fst snd] in *.
  pose proof (frame_bytes_ok status hosts result Hh Hr) as Hb. cbn zeta. unfold child_drain_pipe. cbn [negb fst].
  change (frame0 false) with (frame_of []).
  rewrite (drain_reads_frame_of alloc Ha) by (by rewrite Hc). rewrite Hc. cbn [app]. clear Hc.
  unfold frame_bytes. set (h := default [] hosts) in *. unfold frame_of.
  change (length (frame_hdr status (zlen h) ++ h ++ result)) with (5 + length (h ++ result))%nat. cbn [Nat.add Nat.ltb Nat.leb].
  change (take 5 (frame_hdr status (zlen h) ++ h ++ result)) with (frame_hdr status (zlen h)).
  change (drop 5 (frame_hdr status (zlen h) ++ h ++ result)) with (h ++ result).
  unfold frame_at. cbn [f_meta_len f_meta_read]. change (drop 1 (frame_hdr status (zlen h))) with (be32 (zlen h)).
  pose proof (zlen_nonneg h). rewrite of_be32_be32 by (unfold FRAME_META_MAX in *; lia).
  split; [done|]. replace (Z.to_nat (zlen h)) with (length h) by (unfold zlen; lia). by rewrite take_app_length.
Qed.

Lemma frame_roundtrip_witness :
  let f := fst (child_drain_pipe (fun _ => true) (frame0 false) true
     [(fun _ => 1, [1; 0; 0]); (fun _ => 1, [0; 2; 91; 93; 111]); (fun _ => 1, [107])] EndEof) in
  snd (write_framed (fun _ => 2) 1 (Some (bs "[]")) (bs "ok")) = true /\ f_status f = true /\
  f_hosts f = Some (bs "[]" ++ [0]) /\ default [] (f_outbuf f) = take (Z.to_nat TOOL_MAX_OUTPUT) (bs "ok").
Proof.
  refine (frame_roundtrip (fun _ => true) (fun _ => 2)
     [(fun _ => 1, [1; 0; 0]); (fun _ => 1, [0; 2; 91; 93; 111]); (fun _ => 1, [107])] EndEof 1 (Some (bs "[]")) (bs "ok") _ _ _ _ _ _);
    [done | done | | | done | vm_compute; reflexivity];
    apply List.Forall_forall; intros x Hx; vm_compute in Hx; unfold byte_ok; intuition lia.
Defined.

(** The answer of a child that could not be executed has a header of four bytes: the
    daemon reads a success, takes 101 bytes of hosts, and has no result. *)
Example exec_failed_misread :
  let f := fst (child_drain_pipe (fun _ => true) (frame0 false) true [(fun _ => 1, exec_failed_frame)] EndEof) in
  f_status f = false /\ f_outbuf f = None /\ f_meta_len f = 101.
Proof. by vm_compute. Qed.

(** ** The cut *)
Lemma spill_scan_done len s : forall i cut lines total,
  cut <> len -> spill_scan len i cut lines total s = (cut, lines, total + newlines s).
Proof.
  induction s as [|c s IH]; intros i cut lines total Hc; cbn [spill_scan].
  { change (newlines []) with 0. by rewrite Z.add_0_r. }
  assert (E : (cut =? len) = false) by lia. rewrite E, andb_false_r. cbn [andb]. rewrite E, andb_false_r.
  rewrite newlines_cons, (IH _ cut) by done. f_equal. case_match; lia.
Qed.

Lemma spill_scan_cut len s : forall i lines total,
  len = i + zlen s -> 0 <= i < RUNTOOL_RESULT_MAX ->
  spill_scan len i len lines total s = let (cut, lines) := cut_loop len i lines s in (cut, lines, total + newlines s).
Proof.
  induction s as [|c s IH]; intros i lines total Hl Hi; cbn [spill_scan cut_loop].
  { change (newlines []) with 0. by rewrite Z.add_0_r. }
  rewrite zlen_cons in Hl. pose proof (zlen_nonneg s). rewrite Z.eqb_refl, !andb_true_r, newlines_cons.
  set (total' := if c =? 10 then total + 1 else total). set (lines' := if c =? 10 then lines + 1 else lines).
  assert (Et : total + ((if c =? 10 then 1 else 0) + newlines s) = total' + newlines s) by (unfold total'; case_match; lia).
  rewrite Et, (Z.geb_leb lines'). change TRUNCATE_MAX_LINES with RUNTOOL_RESULT_MAX_LINES.
  change TRUNCATE_MAX_BYTES with RUNTOOL_RESULT_MAX. rewrite (Z.geb_leb (i + 1)). clearbody total' lines'. clear Et.
  assert (Hend : forall cut, cut = i + 1 -> spill_scan len (i + 1) cut lines' total' s = (cut, lines', total' + newlines s)).
  { intros cut ->. destruct (decide (i + 1 = len)) as [E|]; [|by apply spill_scan_done].
    destruct s; [cbn [spill_scan]; change (newlines []) with 0; by rewrite Z.add_0_r|].
    rewrite zlen_cons in Hl. pose proof (zlen_nonneg s). lia. }
  destruct ((c =? 10) && (RUNTOOL_RESULT_MAX_LINES <=? lines')).
  - replace (if _ && _ then RUNTOOL_RESULT_MAX else i + 1) with (i + 1) by (case_match; lia). by apply Hend.
  - rewrite Z.eqb_refl, andb_true_r. destruct (RUNTOOL_RESULT_MAX <=? i + 1) eqn:E; [|apply IH; lia].
    assert (Em : RUNTOOL_RESULT_MAX = i + 1) by lia. rewrite Em. by apply Hend.
Qed.

(** The child cuts a long result where the daemon would.  The child's loop, which
    goes on counting lines past the cut, finds the cut and the lines of
    [truncate_and_spill]'s, and the lines of the whole text. *)
Theorem spill_cut_equiv s :
  spill_scan (zlen s) 0 (zlen s) 0 0 s = let (cut, lines) := cut_loop (zlen s) 0 0 s in (cut, lines, newlines s).
Proof. by rewrite spill_scan_cut by (unfold RUNTOOL_RESULT_MAX; lia). Qed.

Lemma cut_within s : exists k lines, cut_loop (zlen s) 0 0 s = (Z.of_nat k, lines) /\ (k <= length s)%nat /\
  Z.of_nat k <= RUNTOOL_RESULT_MAX.
Proof.
  destruct (cut_loop_spec (zlen s) s 0 0) as (k & Hk & E & Hb & _);
    [lia|unfold TRUNCATE_MAX_BYTES; lia|unfold TRUNCATE_MAX_LINES; lia|].
  exists k, (0 + newlines (take k s)). by rewrite E.
Qed.

(** ** The spill file of a drain *)
Definition sink_inv (all : list Z) (d : Drain) : Prop :=
  d_output d = take (Z.to_nat NET_MAX_OUTPUT) all /\ d_total d = zlen all /\ sk_failed (d_sink d) = false /\
  sk_fd (d_sink d) = if RUNTOOL_RESULT_MAX <? zlen all then Some all else None.

(** The bytes the drain reads. *)
Fixpoint read_bytes (turns : list Turn) (rest : list (list Z)) : list Z :=
  match turns with
  | [] => []
  | t :: turns =>
      if tn_deadline t then []
      else
        match tn_sel t with
        | SelRead [] | SelError => []
        | sel =>
            (match sel with SelRead chunk => chunk | _ => [] end) ++
            match tn_wait t with Some _ => concat rest | None => read_bytes turns rest end
        end
  end.

Section SinkInv.
Context (w : nat -> Z) (Hw : forall k, 0 < w k) (path : cstring) (Hpath : path <> []).

Lemma sink_put_ok f buf k : exists k', sink_put w f buf k = mk_sink (Some (f ++ buf)) false k'.
Proof. unfold sink_put. destruct (write_all_ok w k buf Hw) as [k' ->]. by exists k'. Qed.

Lemma absorb_inv all d chunk :
  sink_inv all d -> sink_inv (all ++ chunk) (drain_absorb true w (Some path) d chunk).
Proof.
  intros (Ho & Ht & Hf & Hfd). unfold drain_absorb. set (keep := Z.min _ _). unfold sink_inv. cbn [d_output d_total d_sink].
  rewrite zlen_app, Ht. split; [|split; [done|]].
  { rewrite Ho at 1. rewrite take_app. f_equal. unfold keep. rewrite Ho. unfold zlen. rewrite length_take.
    unfold NET_MAX_OUTPUT. destruct (decide (length chunk <= Z.to_nat (256 * 1024) - length all)%nat).
    - rewrite !take_ge by lia. done.
    - f_equal. lia. }
  unfold spill_sink_feed. destruct path as [|c p] eqn:Ep; [done|]. rewrite Hf, Hfd.
  pose proof (zlen_nonneg chunk). destruct (RUNTOOL_RESULT_MAX <? zlen all) eqn:E.
  - destruct (sink_put_ok all chunk (sk_k (d_sink d))) as [k' ->]. cbn.
    by destruct (RUNTOOL_RESULT_MAX <? zlen all + zlen chunk) eqn:E2; [|lia].
  - destruct (zlen all + zlen chunk <=? RUNTOOL_RESULT_MAX) eqn:E2.
    + rewrite Hf, Hfd. by destruct (RUNTOOL_RESULT_MAX <? zlen all + zlen chunk) eqn:E3; [lia|].
    + cbn [negb]. destruct (sink_put_ok [] (d_output d) (sk_k (d_sink d))) as [k1 ->]. cbn [sk_failed sk_fd sk_k default app id].
      assert (d_output d = all) as ->
        by (rewrite Ho; apply take_ge; unfold zlen, RUNTOOL_RESULT_MAX, NET_MAX_OUTPUT in *; lia).
      destruct (sink_put_ok all chunk k1) as [k2 ->]. cbn.
      by destruct (RUNTOOL_RESULT_MAX <? zlen all + zlen chunk) eqn:E3; [|lia].
Qed.

Lemma absorbs_inv chunks : forall all d,
  sink_inv all d -> sink_inv (all ++ concat chunks) (fold_left (drain_absorb true w (Some path)) chunks d).
Proof.
  induction chunks as [|c chunks IH]; intros all d H; cbn [concat fold_left]; [by rewrite app_nil_r|].
  rewrite app_assoc. by apply IH, absorb_inv.
Qed.

Lemma drain_loop_inv turns rest last : forall all d d' timed_out st,
  sink_inv all d -> drain_loop true w (Some path) turns rest last d = Some (d', timed_out, st) ->
  sink_inv (all ++ read_bytes turns rest) d'.
Proof.
  induction turns as [|t turns IH]; intros all d d' timed_out st H; cbn [drain_loop read_bytes]; [done|].
  destruct (tn_deadline t). { intros [= <- _ _]. by rewrite app_nil_r. }
  destruct (tn_sel t) as [[|c chunk]| |]; try (intros [= <- _ _]; by rewrite app_nil_r).
  - rewrite app_assoc. pose proof (absorb_inv all d (c :: chunk) H). destruct (tn_wait t).
    + intros [= <- _ _]. by apply absorbs_inv.
    + by apply IH.
  - rewrite app_assoc, app_nil_r. destruct (tn_wait t); [|by apply IH]. intros [= <- _ _]. by apply absorbs_inv.
Qed.

Lemma drain_child_inv turns rest last d timed_out st :
  drain_child true w (Some path) turns rest last = Some (d, timed_out, st) -> sink_inv (read_bytes turns rest) d.
Proof. intros H. by apply (drain_loop_inv turns rest last [] drain0 d timed_out st). Qed.
End SinkInv.

(** A drain ends: at the latest on the turn that finds the deadline past. *)
Lemma drain_child_ends opens w path turns rest last :
  existsb tn_deadline turns = true -> drain_child opens w path turns rest last <> None.
Proof.
  unfold drain_child. generalize drain0. induction turns as [|t turns IH]; intros d; cbn [existsb drain_loop]; [done|].
  destruct (tn_deadline t); [done|]. intros H. destruct (tn_sel t) as [[|c chunk]| |]; try done; destruct (tn_wait t); auto; done.
Qed.

(** ** The broker's answer *)
Lemma digits_length fuel n : (length (digits fuel n) <= fuel)%nat.
Proof.
  revert n. induction fuel as [|fuel IH]; intros n; cbn [digits length]; [lia|]. rewrite length_app. cbn [length].
  specialize (IH (n / 10)). case_match; cbn [length]; lia.
Qed.

Lemma print_int_length n : (length (print_int n) <= 21)%nat.
Proof.
  unfold print_int. pose proof (digits_length 20 n). pose proof (digits_length 20 (- n)). case_match; cbn [length]; lia.
Qed.

Lemma c_str_term s : cstr s -> c_str (s ++ [0]) = s.
Proof.
  induction s as [|c s IH]; intros Hs; [done|]. apply cstr_cons in Hs as [Hc Hs]. cbn [app c_str].
  destruct (c =? 0) eqn:E; [lia|]. by rewrite IH.
Qed.

Lemma snprintf_fits size s : (length s < size)%nat -> snprintf size s = s.
Proof. intros H. unfold snprintf. apply take_ge. lia. Qed.

Lemma occurs_mid w l r : occurs w (l ++ w ++ r).
Proof. by exists l, r. Qed.

Lemma occurs_ext w s r : occurs w s -> occurs w (s ++ r).
Proof. intros (a & b & ->). exists a, (b ++ r). by rewrite <- !app_assoc. Qed.

(** The output is within the result, whatever the tier adds. *)
Lemma format_occurs inner q timeout output timed_out st : cstr output ->
  occurs output (fst (format_tier_result (fun _ => true) inner q timeout output timed_out st)).
Proof.
  intros Hc. unfold format_tier_result. rewrite c_str_term by done. cbn [negb].
  assert (Hfin : forall r, occurs output r ->
    occurs output (match signal_attribution (q_as_mb q) (q_cpu_sec q) (q_nproc q) st with Some a => r ++ a | None => r end)).
  { intros r Hr. case_match; [by apply occurs_ext|done]. }
  assert (Hpre : forall p size, (length p < size - length output)%nat -> occurs output (snprintf size (p ++ output))).
  { intros p size H. rewrite snprintf_fits by (rewrite length_app; lia). exists p, []. by rewrite app_nil_r. }
  pose proof (print_int_length timeout) as Ht.
  destruct inner, timed_out; cbn [fst]; apply Hfin; rewrite ?app_assoc.
  - apply Hpre. rewrite !length_app. unfold zlen. cbn [length bs]. cbn. lia.
  - pose proof (print_int_length (match st with Exited c => c | Signaled _ => -1 end)).
    apply Hpre. rewrite !length_app. unfold zlen. cbn. lia.
  - apply Hpre. rewrite !length_app. unfold zlen. cbn. lia.
  - exists [], []. by rewrite app_nil_r.
Qed.

Lemma cstr_take n s : cstr s -> cstr (take n s).
Proof. intros H. rewrite <- (take_drop n s) in H. by apply cstr_app in H as [H _]. Qed.

(** What a long result becomes, the file written or already there. *)
Lemma spill_large_result_ok w path result already :
  (forall k, 0 < w k) -> path <> [] ->
  exists k lines, (k <= length result)%nat /\ Z.of_nat k <= RUNTOOL_RESULT_MAX /\
    (spill_large_result (fun _ => true) true w (Some path) (Some result) already = (None, None) /\ k = length result \/
     spill_large_result (fun _ => true) true w (Some path) (Some result) already =
       (Some (take k result ++ child_suffix true lines (newlines result) path), if already then None else Some result)).
Proof.
  intros Hw Hp. destruct (cut_within result) as (k & lines & E & Hk & Hb). exists k, lines. split; [done|]. split; [done|].
  unfold spill_large_result. destruct path as [|c p]; [done|].
  rewrite spill_scan_cut, E by (unfold RUNTOOL_RESULT_MAX; lia). rewrite Z.add_0_l.
  destruct (zlen result <=? Z.of_nat k) eqn:El; [left; split; [done|unfold zlen in El; lia]|right].
  rewrite Nat2Z.id. destruct already; [done|]. by destruct (write_all_ok w 0 result Hw) as [k' ->].
Qed.

(** What a command prints is not lost.  The broker keeps 256 KB of the output and
    streams all of it to the spill file once it passes 64 KB.  When the file can be
    opened and written, then either the whole output is in the result the child sends
    and no file is made, or the result is cut to 64 KB and names the file, and the file
    holds every byte the command wrote: the note never points at the truncated copy. *)
Theorem broker_full_output w path inner q turns rest last d timed_out st denied :
  (forall k, 0 < w k) -> path <> [] -> q_spill_path q = Some path -> cstr (read_bytes turns rest) ->
  drain_child true w (Some path) turns rest last = Some (d, timed_out, st) ->
  let all := read_bytes turns rest in
  let '(_, result, file) := serve_result (fun _ => true) true w inner q d timed_out st denied in
  (file = None /\ occurs all result) \/
  (exists f head lines total, file = Some f /\ occurs all f /\ zlen head <= RUNTOOL_RESULT_MAX /\
     result = head ++ child_suffix true lines total path).
Proof.
  intros Hw Hp Hq Hc Hd all. pose proof (drain_child_inv w Hw path Hp _ _ _ _ _ _ Hd) as (Ho & _ & _ & Hfd).
  fold all in Ho, Hfd, Hc. unfold serve_result. rewrite Hq.
  set (tmo := if q_timeout q <=? 0 then 60 else q_timeout q).
  pose proof (format_occurs inner q tmo (d_output d) timed_out st ltac:(rewrite Ho; by apply cstr_take)) as Hf.
  destruct (format_tier_result (fun _ => true) inner q tmo (d_output d) timed_out st) as [r e]. cbn [fst] in Hf.
  set (full := match denied with Some x => _ | None => r end).
  assert (Hfull : occurs (d_output d) full) by (unfold full; destruct denied; [by apply occurs_ext|done]).
  clearbody full. unfold spilled. rewrite Hfd.
  destruct (RUNTOOL_RESULT_MAX <? zlen all) eqn:Es.
  - destruct (spill_large_result_ok w path full true Hw Hp) as (k & lines & Hk & Hb & [[_ E]| ->]).
    + exfalso. destruct Hfull as (a & b & Ef). rewrite Ef, Ho, !length_app, length_take in E.
      unfold zlen, RUNTOOL_RESULT_MAX, NET_MAX_OUTPUT in *. lia.
    + right. exists all, (take k full), lines, (newlines full). split; [done|]. split; [exists [], []; by rewrite app_nil_r|].
      split; [unfold zlen; rewrite length_take; lia|done].
  - assert (Eo : d_output d = all)
      by (rewrite Ho; apply take_ge; unfold zlen, RUNTOOL_RESULT_MAX, NET_MAX_OUTPUT in *; lia).
    rewrite Eo in Hfull. destruct (spill_large_result_ok w path full false Hw Hp) as (k & lines & Hk & Hb & [[-> _]| ->]).
    + by left.
    + right. exists full, (take k full), lines, (newlines full). split; [done|]. split; [done|].
      split; [unfold zlen; rewrite length_take; lia|done].
Qed.

Definition broker_example : RunToolReq :=
  mk_req 1 None 0 0 0 0 0 0 None None None 0 None [] [] None [] [] None None 5 [] [] None (Some (bs "/t")) None.
Definition turns_example : list Turn :=
  [mk_turn false (SelRead (bs "a")) None; mk_turn false SelIdle (Some (Exited 2))].

Lemma broker_full_output_witness :
  exists d, drain_child true (fun _ => 1) (Some (bs "/t")) turns_example [bs "b"] (Exited 0) = Some (d, false, Exited 2) /\
  let all := read_bytes turns_example [bs "b"] in
  let '(_, result, file) := serve_result (fun _ => true) true (fun _ => 1) true broker_example d false (Exited 2) None in
  (file = None /\ occurs all result) \/
  (exists f head lines total, file = Some f /\ occurs all f /\ zlen head <= RUNTOOL_RESULT_MAX /\
     result = head ++ child_suffix true lines total (bs "/t")).
Proof.
  assert (E : exists d, drain_child true (fun _ => 1) (Some (bs "/t")) turns_example [bs "b"] (Exited 0) =
    Some (d, false, Exited 2)) by (eexists; vm_compute; reflexivity).
  destruct E as [d E]. exists d. split; [exact E|].
  apply (broker_full_output (fun _ => 1) (bs "/t") true broker_example turns_example [bs "b"] (Exited 0) d false (Exited 2) None);
    [done | done | done | | exact E].
  apply List.Forall_forall. intros x Hx. vm_compute in Hx. lia.
Defined.

(** ** The second spill *)

(** A result the child cut at 2000 lines is over the daemon's line limit, by the
    newline of the note: the daemon cuts it again, and writes the cut copy to the file
    that held the whole. *)
Lemma cut_loop_lines len s : forall i lines,
  len = i + zlen s -> 0 <= i -> i + zlen s < TRUNCATE_MAX_BYTES -> 0 <= lines < TRUNCATE_MAX_LINES ->
  TRUNCATE_MAX_LINES <= lines + newlines s -> exists k, cut_loop len i lines s = (i + Z.of_nat k, TRUNCATE_MAX_LINES) /\ newlines (drop k s) = lines + newlines s - TRUNCATE_MAX_LINES /\ (k <= length s)%nat.
Proof.
  induction s as [|c s IH]; intros i lines Hl Hi Hb Hn Ht; cbn [cut_loop].
  { change (newlines []) with 0 in Ht. lia. }
  rewrite zlen_cons in *. rewrite newlines_cons in *. pose proof (zlen_nonneg s).
  destruct (c =? 10) eqn:Ec; cbn [andb].
  - destruct (lines + 1 >=? TRUNCATE_MAX_LINES) eqn:E.
    + exists 1%nat. change (drop 1 (c :: s)) with s. cbn [length]. assert (El : lines + 1 = TRUNCATE_MAX_LINES) by lia. rewrite El. split_all; [f_equal; lia|lia|lia].
    + destruct (i + 1 >=? TRUNCATE_MAX_BYTES) eqn:E2; [lia|].
      destruct (IH (i + 1) (lines + 1)) as (k & E3 & E4 & Hk); [lia..|]. exists (S k). rewrite E3. cbn [drop length].
      split_all; [f_equal; lia|lia|lia].
  - destruct (i + 1 >=? TRUNCATE_MAX_BYTES) eqn:E2; [lia|].
    destruct (IH (i + 1) lines) as (k & E3 & E4 & Hk); [lia..|]. exists (S k). rewrite E3. cbn [drop length].
    split_all; [f_equal; lia|lia|lia].
Qed.

Lemma snprintf_nl n s : (1 < n)%nat -> 1 <= newlines (snprintf n ([10] ++ s)).
Proof.
  intros Hn. unfold snprintf. destruct (n - 1)%nat as [|m] eqn:E; [lia|]. cbn [app take]. rewrite newlines_cons.
  pose proof (newlines_nonneg (take m s)). cbn [Z.eqb Pos.eqb]. lia.
Qed.

Theorem line_cut_spilled_twice dir call head lines total path :
  newlines head = TRUNCATE_MAX_LINES -> spill_path_build dir (Some call) (PATH_MAX + 64) = Some path ->
  let sent := head ++ child_suffix true lines total path in
  zlen sent < TRUNCATE_MAX_BYTES -> snd (truncate_and_spill (fun _ => true) dir call sent) = Some (path, sent).
Proof.
  intros Hh Hp sent Hz. unfold truncate_and_spill.
  assert (Hs : newlines sent = TRUNCATE_MAX_LINES + newlines (child_suffix true lines total path)).
  { unfold sent, newlines in *. by rewrite List.filter_app, zlen_app, Hh. }
  assert (H1 : 1 <= newlines (child_suffix true lines total path)).
  { unfold child_suffix. rewrite <- app_assoc. apply snprintf_nl. unfold PATH_MAX. lia. }
  destruct (cut_loop_lines (zlen sent) sent 0 0) as (k & E & Ed & Hk); try done; try (pose proof (zlen_nonneg sent); lia).
  rewrite E, Hp. destruct (0 + Z.of_nat k >=? zlen sent) eqn:Eg; [|done].
  rewrite drop_ge in Ed by (unfold zlen in Eg; lia). change (newlines []) with 0 in Ed. lia.
Qed.
