(* ===== verification/Routing.v ===== *)
(** * Which model answers: src/llm_proc.c and src/llm_transport.c

    The health columns of [models], the candidate list of an agent, the selection loop
    of [llm_req], the ladder of [llm_request] and the attempts of [llm_transcribe].
    HTTP, the assembly of a request body and the parsing of a response are arguments:
    each attempt is given what they answered. *)
From S2P Require Import Prelude CString Libc Config Store.

Definition MAX_MODELS : nat := 16.
Definition JSLLM_MAX_CANDIDATES : nat := 4.

(** ** The tables *)
Record ModelRow := mk_model {
  md_id : cstring; md_provider : cstring; md_model : cstring; md_window : option Z; md_caps : option cstring;
  md_status : cstring; md_until : option Z; md_fails : option Z; md_requests : Z; md_tokens_in : Z;
  md_tokens_out : Z; md_cost_nano : Z; md_success_at : option Z; md_error_at : option Z; md_created : Z
}.

Record ProviderRow := mk_provider { pv_name : cstring; pv_base_url : cstring; pv_endpoint : cstring; pv_key_env : cstring }.

Record AgentModel := mk_am { am_agent : cstring; am_model : cstring; am_pos : Z; am_effort : option cstring }.

Record RoutingDb := mk_rdb {
  rd_models : list ModelRow; rd_providers : list ProviderRow; rd_agent_models : list AgentModel;
  rd_config : list ConfigRow
}.

Definition with_models (f : ModelRow -> ModelRow) (db : RoutingDb) : RoutingDb :=
  mk_rdb (map f (rd_models db)) (rd_providers db) (rd_agent_models db) (rd_config db).

(** An update of the row [id] where [p] holds of it. *)
Definition update_model (id : cstring) (p : ModelRow -> bool) (f : ModelRow -> ModelRow) (db : RoutingDb) : RoutingDb :=
  with_models (fun m => if streq (md_id m) id && p m then f m else m) db.

(** [SELECT CAST(COALESCE(value, default_value, dflt) AS INTEGER) FROM config ..]. *)
Definition sql_config_int (db : RoutingDb) (key dflt : cstring) : option Z :=
  match config_row (rd_config db) key with
  | None => None
  | Some r => Some (fst (strtol (match k_value r with
                                 | Some v => v
                                 | None => default dflt (k_default r)
                                 end)))
  end.

Definition fail_threshold_sql (db : RoutingDb) : option Z := sql_config_int db (bs "health_fail_threshold") (bs "4").
Definition cooldown_sql (db : RoutingDb) : option Z := sql_config_int db (bs "health_cooldown_sec") (bs "300").

(** Arithmetic and scalar MAX on a NULL are NULL. *)
Definition null_add (a : option Z) (b : Z) : option Z := option_map (fun x => x + b) a.
Definition null_max (a b : option Z) : option Z :=
  match a, b with Some x, Some y => Some (Z.max x y) | _, _ => None end.

(** ** Health *)
Definition HEALTHY : cstring := bs "healthy".
Definition DEGRADED : cstring := bs "degraded".
Definition DISABLED : cstring := bs "disabled".

Definition set_health (status : cstring) (until fails : option Z) (err : option Z) (m : ModelRow) : ModelRow :=
  mk_model (md_id m) (md_provider m) (md_model m) (md_window m) (md_caps m) status until fails (md_requests m)
    (md_tokens_in m) (md_tokens_out m) (md_cost_nano m) (md_success_at m) err (md_created m).

Definition enabled (m : ModelRow) : bool := negb (streq (md_status m) DISABLED).

(** [ok1] and [ok2]: the two statements can be prepared and run. *)
Definition model_stat_error (ok1 ok2 : bool) (now : Z) (id : cstring) (db : RoutingDb) : RoutingDb :=
  if negb ok1 then db
  else
    let db := update_model id (fun _ => true) (fun m =>
      mk_model (md_id m) (md_provider m) (md_model m) (md_window m) (md_caps m) (md_status m) (md_until m)
        (null_add (md_fails m) 1) (md_requests m + 1) (md_tokens_in m) (md_tokens_out m) (md_cost_nano m)
        (md_success_at m) (Some now) (md_created m)) db in
    if negb ok2 then db
    else update_model id
           (fun m => enabled m && match md_fails m, fail_threshold_sql db with Some f, Some n => n <=? f | _, _ => false end)
           (fun m => set_health DEGRADED (null_add (cooldown_sql db) now) (md_fails m) (md_error_at m) m) db.

Definition model_degrade_retry_after (ok : bool) (now : Z) (id : cstring) (retry_after : Z) (db : RoutingDb) : RoutingDb :=
  if negb ok then db
  else update_model id enabled
         (fun m => set_health DEGRADED (null_add (null_max (Some retry_after) (cooldown_sql db)) now)
                     (null_max (null_add (md_fails m) 1) (fail_threshold_sql db)) (Some now) m) db.

Definition model_degrade_unavailable (ok : bool) (now : Z) (id : cstring) (db : RoutingDb) : RoutingDb :=
  if negb ok then db
  else update_model id enabled
         (fun m => set_health DEGRADED (null_add (cooldown_sql db) now) (md_fails m) (Some now) m) db.

Definition cooling (now : Z) (m : ModelRow) : bool :=
  streq (md_status m) DEGRADED && match md_until m with Some u => now <? u | None => false end.

Definition model_degraded_now (ok : bool) (now : Z) (id : cstring) (db : RoutingDb) : bool :=
  ok && existsb (fun m => streq (md_id m) id && cooling now m) (rd_models db).

Definition model_degrade_config (ok : bool) (id : cstring) (db : RoutingDb) : RoutingDb :=
  if negb ok then db
  else update_model id (fun m => streq (md_status m) HEALTHY)
         (fun m => set_health DEGRADED None (md_fails m) (md_error_at m) m) db.

Definition model_config_recover (ok : bool) (id : cstring) (db : RoutingDb) : RoutingDb :=
  if negb ok then db
  else update_model id (fun m => streq (md_status m) DEGRADED && match md_until m with None => true | Some _ => false end)
         (fun m => set_health HEALTHY (md_until m) (md_fails m) (md_error_at m) m) db.

Definition model_stat_success (ok : bool) (now : Z) (id : cstring) (tin tout cost : Z) (db : RoutingDb) : RoutingDb :=
  if negb ok then db
  else update_model id enabled (fun m =>
    mk_model (md_id m) (md_provider m) (md_model m) (md_window m) (md_caps m) HEALTHY None (Some 0) (md_requests m + 1)
      (md_tokens_in m + tin) (md_tokens_out m + tout) (md_cost_nano m + cost) (Some now) (md_error_at m) (md_created m)) db.

(** ** Candidates *)
Inductive EndpointType := ENDPOINT_OPENAI | ENDPOINT_GEMINI.
#[export] Instance EndpointType_eq_dec : EqDecision EndpointType.
Proof. solve_decision. Defined.

Record ModelCandidate := mk_cand {
  mc_id : cstring; mc_model : cstring; mc_base_url : cstring; mc_key_env : cstring; mc_provider : cstring;
  mc_endpoint : EndpointType; mc_window : Z; mc_effort : cstring; mc_use_cfg_key : bool
}.

Definition endpoint_of (s : cstring) : EndpointType := if streq s (bs "gemini") then ENDPOINT_GEMINI else ENDPOINT_OPENAI.

Definition candidate (m : ModelRow) (p : ProviderRow) (effort : option cstring) : ModelCandidate :=
  let w := int_of_u32 (default 0 (md_window m)) in
  mk_cand (snprintf 128 (md_id m)) (snprintf 128 (md_model m)) (snprintf 256 (pv_base_url p)) (snprintf 64 (pv_key_env p))
    (snprintf 64 (pv_name p)) (endpoint_of (pv_endpoint p)) (if w <=? 0 then 128000 else w)
    (snprintf 16 (default [] effort)) false.

(** The rows of the join, in the order of the list. *)
Definition candidate_rows (db : RoutingDb) (agent : cstring) : list ModelCandidate :=
  let ams := fold_right (insert_by (fun a b => am_pos a - am_pos b)) []
               (List.filter (fun a => streq (am_agent a) agent) (rd_agent_models db)) in
  flat_map (fun a =>
    flat_map (fun m =>
      map (fun p => candidate m p (am_effort a))
        (List.filter (fun p => streq (pv_name p) (md_provider m)) (rd_providers db)))
      (List.filter (fun m => streq (md_id m) (am_model a) && enabled m) (rd_models db))) ams.

Section Keys.
(** The environment, the decrypted system secrets, and which of them have a row. *)
Context (getenv secret_system : cstring -> option cstring) (secret_exists : cstring -> bool).

Definition env_set (name : cstring) : option cstring :=
  match getenv name with Some (c :: v) => Some (c :: v) | _ => None end.

Definition provider_key_available (ok : bool) (api_key_env : cstring) : bool :=
  match api_key_env with
  | [] => true
  | _ => match env_set api_key_env with Some _ => true | None => negb ok || secret_exists api_key_env end
  end.

Fixpoint load_loop (rows : list ModelCandidate) (max : nat) (db : RoutingDb) : list ModelCandidate * RoutingDb :=
  match rows, max with
  | [], _ | _, O => ([], db)
  | c :: rows, S max' =>
      if provider_key_available true (mc_key_env c)
      then let (l, db) := load_loop rows max' (model_config_recover true (mc_id c) db) in (c :: l, db)
      else load_loop rows max (model_degrade_config true (mc_id c) db)
  end.

Definition load_candidates (db : RoutingDb) (agent : option cstring) (max : nat) : list ModelCandidate * RoutingDb :=
  load_loop (candidate_rows db (default [] agent)) max db.

Definition by_age (a b : ModelRow) : Z :=
  if md_created a =? md_created b then text_cmp (md_id a) (md_id b) else md_created a - md_created b.

(** [json_has caps cap]: the text is a JSON array with the string. *)
Definition model_pick_by_capability (json_has : cstring -> cstring -> bool) (now : Z) (db : RoutingDb) (cap : cstring) (max : nat)
    : list ModelCandidate :=
  let rows := List.filter (fun m => enabled m && match md_until m with Some u => u <? now | None => true end &&
                                    match md_caps m with Some c => json_has c cap | None => false end) (rd_models db) in
  let rows := fold_right (insert_by by_age) [] rows in
  take max (flat_map (fun m => map (fun p => candidate m p None)
                                 (List.filter (fun p => streq (pv_name p) (md_provider m)) (rd_providers db))) rows).

(** What [llm_req] sends as the key of a candidate; [cfg_key] is cfg->provider.api_key. *)
Definition req_key (cfg_key : option cstring) (m : ModelCandidate) : cstring :=
  let key := match mc_key_env m with
             | [] => if mc_use_cfg_key m then cfg_key else None
             | env => getenv env
             end in
  match key with
  | Some (c :: k) => c :: k
  | _ => match mc_key_env m with [] => [] | env => default [] (secret_system env) end
  end.

(** And [llm_attempt]. *)
Definition attempt_key (m : ModelCandidate) : cstring :=
  match mc_key_env m with
  | [] => []
  | env => match env_set env with Some k => k | None => default [] (secret_system env) end
  end.
End Keys.

(** ** The request line (src/llm_transport.c) *)
Definition llm_build_url (alloc : Z -> bool) (base : cstring) (ep : EndpointType) (model : option cstring) : option cstring :=
  let blen := if (0 <? zlen base) && (nth (length base - 1) base 0 =? "/"%char) then zlen base - 1 else zlen base in
  let base := take (Z.to_nat blen) base in
  match ep with
  | ENDPOINT_GEMINI =>
      let model := default (bs "gemini-2.5-flash") model in
      let need := blen + 8 + zlen model + 1 + 15 + 1 in
      if alloc need then Some (snprintf (Z.to_nat need) (base ++ bs "/models/" ++ model ++ bs ":generateContent")) else None
  | ENDPOINT_OPENAI => if alloc (blen + 17 + 1) then Some (base ++ bs "/chat/completions") else None
  end.

Definition llm_build_auth_header (alloc : Z -> bool) (ep : EndpointType) (api_key : option cstring) : option cstring :=
  let key := default [] api_key in
  match ep with
  | ENDPOINT_GEMINI =>
      let cap := 16 + zlen key + 1 in
      if alloc cap then Some (snprintf (Z.to_nat cap) (bs "x-goog-api-key: " ++ key)) else None
  | ENDPOINT_OPENAI =>
      let cap := 22 + zlen key + 1 in
      if alloc cap then Some (snprintf (Z.to_nat cap) (bs "Authorization: Bearer " ++ key)) else None
  end.

Definition llm_is_context_overflow (body : option cstring) : bool :=
  match body with
  | None => false
  | Some b => existsb (fun w => match strstr b w with Some _ => true | None => false end)
                [bs "context_length_exceeded"; bs "maximum context length"; bs "too many tokens"; bs "context window"]
  end.

(** ** The selection loop of [llm_req] *)
Inductive LlmRespStatus := LLM_RESP_OK | LLM_RESP_EMPTY | LLM_RESP_MALFORMED | LLM_RESP_TOOL_MARKUP | LLM_RESP_DBERR.
#[export] Instance LlmRespStatus_eq_dec : EqDecision LlmRespStatus.
Proof. solve_decision. Defined.

(** What [http_do] answers: the status (-2 timeout, other negatives network errors),
    the header, the body; and, when the body is ingested, how that ends and what it
    leaves in the session tables. *)
Record Reply := mk_reply {
  rp_status : Z; rp_retry_after : Z; rp_data : option cstring; rp_ingest : LlmRespStatus;
  rp_store : Store -> Store; rp_usage : Z * Z * Z
}.

(** One turn of the loop: the clock and whether the health query runs, whether the
    payload could be built, the reply, and the clock and the writes after it. *)
Record Attempt := mk_attempt {
  at_select : Z; at_read : bool; at_payload : bool; at_alloc : Z -> bool; at_reply : Reply; at_now : Z;
  at_ok1 : bool; at_ok2 : bool
}.

(** A request that went out: the candidate, its url and header, the wait before it. *)
Record Sent := mk_sent { se_index : nat; se_url : cstring; se_auth : cstring; se_wait : Z; se_status : Z }.

Record ReqSt := mk_req_st {
  rq_db : RoutingDb; rq_store : Store; rq_attempts : list Z; rq_skip : list bool; rq_desperate : bool;
  rq_last : option nat; rq_same : Z; rq_next_wait : Z; rq_fail : cstring; rq_served : option cstring; rq_dberr : bool;
  rq_sent : list Sent
}.

(** The first index below [n] that [p] holds of. *)
Fixpoint first_index (p : nat -> bool) (i n : nat) : option nat :=
  match n with
  | O => None
  | S n => if p i then Some i else first_index p (S i) n
  end.

Section Request.
Context (getenv secret_system : cstring -> option cstring) (cfg_key : option cstring).
Context (models : list ModelCandidate) (fail_threshold : Z).

Definition eligible (read : bool) (now : Z) (st : ReqSt) (i : nat) : bool :=
  negb (nth i (rq_skip st) false) && (nth i (rq_attempts st) 0 <? fail_threshold) &&
  negb (match models !! i with Some m => model_degraded_now read now (mc_id m) (rq_db st) | None => false end).

(** The candidate, and whether it is the one attempt on a cooling list. *)
Definition select (read : bool) (now : Z) (st : ReqSt) : option (nat * bool) :=
  match first_index (eligible read now st) 0 (length models) with
  | Some i => Some (i, rq_desperate st)
  | None =>
      if rq_desperate st then None
      else match first_index (fun i => negb (nth i (rq_skip st) false) && (nth i (rq_attempts st) 0 =? 0)) 0 (length models) with
           | Some i => Some (i, true)
           | None => None
           end
  end.

(** What a status does: the new health, whether the candidate is out for this request,
    the text, and the wait it asks for. *)
Record Verdict := mk_verdict {
  vd_db : RoutingDb; vd_skip : bool; vd_fail : cstring; vd_wait : Z; vd_served : bool; vd_dberr : bool; vd_store : Store
}.

Definition classify (a : Attempt) (id : cstring) (fail : cstring) (db : RoutingDb) (t : Store) : Verdict :=
  let r := at_reply a in
  let status := rp_status r in
  let counted := model_stat_error (at_ok1 a) (at_ok2 a) (at_now a) id db in
  let sidelined := model_degrade_unavailable (at_ok1 a) (at_now a) id db in
  if (status =? 429) || ((500 <=? status) && (status <? 600)) then
    let fail := if status =? 429 then bs "error: rate limited" else bs "error: provider server error" in
    if (status =? 429) && (4 <? rp_retry_after r)
    then mk_verdict (model_degrade_retry_after (at_ok1 a) (at_now a) id (rp_retry_after r) db) false fail 0 false false t
    else mk_verdict counted false fail (if (status =? 429) && (0 <? rp_retry_after r) then rp_retry_after r else 0) false false t
  else if (status =? 400) && llm_is_context_overflow (rp_data r) then
    mk_verdict db true (bs "error: prompt too large for the model's context window") 0 false false t
  else if status =? 400 then mk_verdict sidelined true (bs "error: provider rejected the request") 0 false false t
  else if (status =? 401) || (status =? 403) || (status =? 404) then
    mk_verdict sidelined true (if status =? 404 then bs "error: model not available" else bs "error: authentication failed")
      0 false false t
  else if status =? -2 then mk_verdict counted false (bs "error: request timed out") 0 false false t
  else if status <? 0 then mk_verdict counted false (bs "error: network error") 0 false false t
  else if (status <? 200) || (300 <=? status) then
    mk_verdict db true (bs "error: provider rejected the request") 0 false false t
  else
    match rp_data r with
    | None | Some [] => mk_verdict counted false (bs "error: provider returned an empty response") 0 false false t
    | Some _ =>
        let t := rp_store r t in
        match rp_ingest r with
        | LLM_RESP_OK =>
            let '(tin, tout, cost) := rp_usage r in
            mk_verdict (model_stat_success (at_ok1 a) (at_now a) id tin tout cost db) false fail 0 true false t
        | LLM_RESP_DBERR => mk_verdict db false fail 0 false true t
        | LLM_RESP_EMPTY => mk_verdict counted false (bs "error: provider returned an empty response") 0 false false t
        | LLM_RESP_TOOL_MARKUP =>
            mk_verdict counted false (bs "error: provider returned a tool call as unparsed markup") 0 false false t
        | LLM_RESP_MALFORMED => mk_verdict counted false (bs "error: provider returned a malformed response") 0 false false t
        end
    end.

Definition backoff_step (same_run : Z) : Z := if same_run <=? 3 then Z.shiftl 1 (same_run - 1) else 4.

(** The attempt on candidate [i]. *)
Definition attempt (a : Attempt) (i : nat) (desperate : bool) (m : ModelCandidate) (st : ReqSt) : ReqSt :=
  let again := match rq_last st with Some l => (l =? i)%nat | None => false end in
  let same := if again then rq_same st + 1 else 0 in
  let wait := if again then if rq_next_wait st >? 0 then rq_next_wait st else backoff_step same else 0 in
  let attempts := <[i := nth i (rq_attempts st) 0 + 1]> (rq_attempts st) in
  let key := req_key getenv secret_system cfg_key m in
  let st' := mk_req_st (rq_db st) (rq_store st) attempts (rq_skip st) desperate (Some i) same 0 (rq_fail st) (rq_served st)
               (rq_dberr st) (rq_sent st) in
  if negb (at_payload a) then st'
  else
    match llm_build_url (at_alloc a) (mc_base_url m) (mc_endpoint m) (Some (mc_model m)),
          llm_build_auth_header (at_alloc a) (mc_endpoint m) (Some key) with
    | Some url, Some auth =>
        let v := classify a (mc_id m) (rq_fail st) (rq_db st) (rq_store st) in
        mk_req_st (vd_db v) (vd_store v) attempts (if vd_skip v then <[i := true]> (rq_skip st) else rq_skip st) desperate
          (Some i) same (vd_wait v) (vd_fail v) (if vd_served v then Some (snprintf 128 (mc_id m)) else rq_served st)
          (rq_dberr st || vd_dberr v)
          (rq_sent st ++ [mk_sent i url auth wait (rp_status (at_reply a))])
    | _, _ => st'
    end.

(** The turns of the loop, each with its own clock; [None] when they run out. *)
Fixpoint req_loop (turns : list Attempt) (st : ReqSt) : option ReqSt :=
  if match rq_served st with Some _ => true | None => false end || rq_dberr st then Some st
  else
    match turns with
    | [] => None
    | a :: turns =>
        match select (at_read a) (at_select a) st with
        | None => Some st
        | Some (i, desperate) =>
            match models !! i with
            | Some m => req_loop turns (attempt a i desperate m st)
            | None => Some st
            end
        end
    end.
End Request.

(** cfg->provider, and the window of the configuration. *)
Record CfgProvider := mk_cfgp {
  cp_name : option cstring; cp_model : option cstring; cp_base_url : option cstring; cp_api_key : option cstring;
  cp_endpoint : EndpointType; cp_window : Z
}.

(** The candidate of an empty list; [stale] is what its slot held where the code
    writes nothing. *)
Definition config_candidate (stale : cstring) (c : CfgProvider) : ModelCandidate :=
  let model := default (bs "unknown") (cp_model c) in
  mk_cand (snprintf 128 (bs "config/" ++ model)) (snprintf 128 model) (snprintf 256 (default [] (cp_base_url c))) []
    (snprintf 64 (default [] (cp_name c))) (cp_endpoint c) (cp_window c) stale true.

Definition req_start (db : RoutingDb) (t : Store) (n : nat) : ReqSt :=
  mk_req_st db t (repeat 0 n) (repeat false n) false None 0 0 (bs "error: LLM request failed") None false [].

Definition DB_CONTENTION : cstring :=
  bs "error: DB contention during response ingest (SQLITE_BUSY) " ++ EM_DASH ++ bs " check logs".

Section LlmReq.
Context (getenv secret_system : cstring -> option cstring) (secret_exists : cstring -> bool).

Definition req_candidates (stale : cstring) (c : CfgProvider) (db : RoutingDb) (agent : cstring) : list ModelCandidate * RoutingDb :=
  let (models, db) := load_candidates getenv secret_exists db (Some agent) MAX_MODELS in
  (match models with [] => [config_candidate stale c] | _ => models end, db).

Definition req_threshold (db : RoutingDb) : Z :=
  let n := config_get_int getenv secret_system (rd_config db) (bs "health_fail_threshold") in
  if n <=? 0 then 4 else n.

(** [plan_ok]: [context_plan] succeeds; [resp_id]: the last archived row of the
    iteration.  The answer is the function's 0 or -1, the tables and the requests. *)
Definition llm_req (stale : cstring) (c : CfgProvider) (plan_ok : bool) (turns : list Attempt) (resp_id : option Z)
    (db : RoutingDb) (t : Store) (agent : cstring) (sid : Z) : option (Z * RoutingDb * Store * list Sent) :=
  if negb plan_ok then Some (-1, db, t, [])
  else
    let (models, db) := req_candidates stale c db agent in
    match req_loop getenv secret_system (cp_api_key c) models (req_threshold db) turns (req_start db t (length models)) with
    | None => None
    | Some st =>
        match rq_served st with
        | Some _ => Some (0, rq_db st, rq_store st, rq_sent st)
        | None =>
            let text := if rq_dberr st then DB_CONTENTION else rq_fail st in
            let text := snprintf 160 (match resp_id with
                                      | Some id => if 0 <? id then text ++ bs " [resp #" ++ print_int id ++ bs "]" else text
                                      | None => text
                                      end) in
            Some (-1, rq_db st, snd (append_assistant (rq_store st) sid (Some text) STOP_REASON_ERROR 0), rq_sent st)
        end
    end.
End LlmReq.

(** ** The walk of [llm_request] *)

(** What an attempt answers: it cannot be built, or the reply, whether it has a body,
    and the text of the body ([SQL_JSBODY_TEXT]). *)
Record JsReply := mk_js { js_built : bool; js_now : Z; js_status : Z; js_data : bool; js_text : option cstring }.

Definition contains (s w : cstring) : bool := match strstr s w with Some _ => true | None => false end.

Fixpoint js_walk (getenv secret_system : cstring -> option cstring) (want : cstring) (n i : nat) (ms : list ModelCandidate)
    (replies : nat -> JsReply) (matched : nat) (db : RoutingDb) (sent : list (nat * cstring))
    : option cstring * nat * RoutingDb * list (nat * cstring) :=
  match ms with
  | [] => (None, matched, db, sent)
  | m :: ms' =>
      let next := js_walk getenv secret_system want n (S i) ms' replies in
      if negb (bool_decide (want = [])) && negb (contains (mc_id m) want) && negb (contains (mc_model m) want)
      then next matched db sent
      else
        let matched := S matched in
        let r := replies i in
        if model_degraded_now true (js_now r) (mc_id m) db && (S i <? n)%nat then next matched db sent
        else if negb (js_built r) then next matched db sent
        else
          let sent := sent ++ [(i, attempt_key getenv secret_system m)] in
          if (200 <=? js_status r) && (js_status r <? 300) && js_data r then
            match js_text r with
            | Some ((_ :: _) as text) => (Some text, matched, model_config_recover true (mc_id m) db, sent)
            | _ => next matched db sent
            end
          else next matched (model_stat_error true true (js_now r) (mc_id m) db) sent
  end.

(** ** The attempts of [llm_transcribe] *)
Definition TRANSCRIBE_MAX_ATTEMPTS : Z := 3.
Definition TRANSCRIBE_RETRIES : nat := 1.

(** A reply: status, and the text [extract_content] finds. *)
Record MediaReply := mk_media { mm_built : bool; mm_now : Z; mm_status : Z; mm_text : option cstring }.

(** The retries of one candidate; [k] counts the requests. *)
Fixpoint media_tries (retries : nat) (id : cstring) (replies : nat -> MediaReply) (k : nat) (db : RoutingDb)
    : option cstring * nat * RoutingDb :=
  let r := replies k in
  let again db := match retries with O => (None, S k, db) | S n => media_tries n id replies (S k) db end in
  if negb (mm_built r) then (None, k, db)
  else if (200 <=? mm_status r) && (mm_status r <? 300) then
    match mm_text r with
    | Some ((_ :: _) as text) => (Some text, S k, model_stat_success true (mm_now r) id 0 0 0 db)
    | _ => again (model_stat_error true true (mm_now r) id db)
    end
  else if (mm_status r =? 400) || (mm_status r =? 401) || (mm_status r =? 403) || (mm_status r =? 404)
  then (None, S k, model_degrade_unavailable true (mm_now r) id db)
  else again (model_stat_error true true (mm_now r) id db).

(** [bodies]: whether the body of a candidate can be built. *)
Fixpoint media_walk (ms : list ModelCandidate) (bodies : ModelCandidate -> bool) (replies : nat -> MediaReply) (k : nat)
    (db : RoutingDb) : option cstring * nat * RoutingDb :=
  match ms with
  | [] => (None, k, db)
  | m :: ms =>
      if negb (bodies m) then media_walk ms bodies replies k db
      else
        let '(text, k, db) := media_tries TRANSCRIBE_RETRIES (mc_id m) replies k db in
        match text with Some t => (Some t, k, db) | None => media_walk ms bodies replies k db end
  end.

(** A job: the row, the text its resolution puts in the inbox, and the messages. *)
Record MediaJob := mk_job { mj_id : Z; mj_session : Z; mj_attempts : Z; mj_image : bool }.

Definition media_label (image : bool) : cstring := if image then bs "[image]" else bs "[voice message]".
Definition media_fail_text (image : bool) : cstring :=
  if image then bs "[image received but description failed]" else bs "[voice message received but transcription failed]".

(** What the job ends with: its resolution text, or [None] when it is kept for a
    restart; the attempts counted, and the requests sent.  [inbox_ok] is whether the
    inbox takes the text, [join] whether the text can be allocated. *)
Definition llm_transcribe (json_has : cstring -> cstring -> bool) (now : Z) (bodies : ModelCandidate -> bool)
    (replies : nat -> MediaReply) (join : bool) (inbox_ok : bool) (j : MediaJob) (db : RoutingDb)
    : option cstring * MediaJob * nat * RoutingDb :=
  let resolve (text : cstring) := if inbox_ok then Some text else None in
  if TRANSCRIBE_MAX_ATTEMPTS <=? mj_attempts j then (resolve (media_fail_text (mj_image j)), j, O, db)
  else
    let j := mk_job (mj_id j) (mj_session j) (mj_attempts j + 1) (mj_image j) in
    let models := model_pick_by_capability json_has now db (if mj_image j then bs "image" else bs "audio") MAX_MODELS in
    let '(text, k, db) := media_walk models bodies replies O db in
    match text with
    | Some t => (if join then resolve (media_label (mj_image j) ++ bs " " ++ t) else None, j, k, db)
    | None => (resolve (media_fail_text (mj_image j)), j, k, db)
    end.

(** * Lemmas *)

(** ** The loop *)
Lemma first_index_spec p n : forall i,
  match first_index p i n with
  | Some k => (i <= k < i + n)%nat /\ p k = true /\ forall j, (i <= j < k)%nat -> p j = false
  | None => forall j, (i <= j < i + n)%nat -> p j = false
  end.
Proof.
  induction n as [|n IH]; intros i; cbn [first_index]; [lia|]. destruct (p i) eqn:E.
  - split; [lia|]. split; [done|]. lia.
  - specialize (IH (S i)). destruct (first_index p (S i) n) as [k|].
    + destruct IH as (Hk & Hp & Hj). split; [lia|]. split; [done|]. intros j Hlt.
      destruct (decide (j = i)) as [->|]; [done|]. apply Hj. lia.
    + intros j Hlt. destruct (decide (j = i)) as [->|]; [done|]. apply IH. lia.
Qed.

(** A status that rejects the request for good. *)
Definition rejected (status : Z) : bool :=
  ((0 <=? status) && (status <? 200)) || ((300 <=? status) && negb (status =? 429) && negb ((500 <=? status) && (status <? 600))).

Lemma classify_skip a id fail db t : vd_skip (classify a id fail db t) = rejected (rp_status (at_reply a)).
Proof.
  unfold classify, rejected. set (s := rp_status (at_reply a)).
  repeat match goal with
  | |- context [vd_skip (if ?b then _ else _)] => destruct b eqn:?; cbn [vd_skip]
  end; try lia.
  destruct (rp_data (at_reply a)) as [[|]|]; cbn [vd_skip]; try lia.
  destruct (rp_ingest (at_reply a)); cbn [vd_skip]; try lia. destruct (rp_usage (at_reply a)) as [[? ?] ?]. cbn [vd_skip]. lia.
Qed.

Definition total (l : list Z) : Z := fold_right Z.add 0 l.

Lemma total_bound l k : Forall (fun x => x <= k) l -> total l <= zlen l * k.
Proof. induction 1 as [|x l Hx _ IH]; [done|]. cbn [total fold_right]. fold (total l). rewrite zlen_cons. lia. Qed.

Lemma total_bump l i : (i < length l)%nat -> total (<[i := nth i l 0 + 1]> l) = total l + 1.
Proof.
  revert i. induction l as [|x l IH]; intros [|i] Hi; cbn [length] in Hi; try lia; cbn [nth].
  - change (<[0%nat := x + 1]> (x :: l)) with ((x + 1) :: l). cbn. fold (total l). lia.
  - change (<[S i := nth i l 0 + 1]> (x :: l)) with (x :: <[i := nth i l 0 + 1]> l). cbn [total fold_right].
    fold (total l) (total (<[i := nth i l 0 + 1]> l)). rewrite IH by lia. lia.
Qed.

Lemma nth_insert {A} (l : list A) i j x d : (i < length l)%nat ->
  nth j (<[i := x]> l) d = if decide (i = j) then x else nth j l d.
Proof.
  intros Hi. rewrite !nth_lookup. destruct (decide (i = j)) as [->|Hne].
  - by rewrite list_lookup_insert_eq.
  - by rewrite list_lookup_insert_ne.
Qed.

Lemma total_zero n : total (repeat 0 n) = 0.
Proof. induction n; [done|]. cbn. by fold (total (repeat 0 n)). Qed.

Section Loop.
Context (getenv secret_system : cstring -> option cstring) (cfg_key : option cstring).
Context (models : list ModelCandidate) (T : Z) (HT : 1 <= T).

Abbreviation sel := (select models T).
Abbreviation loop := (req_loop getenv secret_system cfg_key models T).
Abbreviation att := (attempt getenv secret_system cfg_key).

Lemma select_spec read now st i b : sel read now st = Some (i, b) ->
  (i < length models)%nat /\ nth i (rq_skip st) false = false /\ nth i (rq_attempts st) 0 < T.
Proof.
  unfold select. pose proof (first_index_spec (eligible models T read now st) (length models) 0) as H.
  destruct (first_index _ _ _) as [k|].
  - intros [= <- <-]. destruct H as (Hk & He & _). unfold eligible in He.
    split; [lia|]. destruct (nth k (rq_skip st) false); [done|]. split; [done|lia].
  - destruct (rq_desperate st); [done|].
    set (p := fun i => negb (nth i (rq_skip st) false) && (nth i (rq_attempts st) 0 =? 0)).
    pose proof (first_index_spec p (length models) 0) as H2. destruct (first_index p _ _) as [k|]; [|done].
    intros [= <- <-]. destruct H2 as (Hk & He & _). unfold p in He.
    split; [lia|]. destruct (nth k (rq_skip st) false); [done|]. split; [done|lia].
Qed.

(** What holds of the state between turns. *)
Record loop_ok (st : ReqSt) : Prop := {
  lo_len : length (rq_attempts st) = length models;
  lo_skip : length (rq_skip st) = length models;
  lo_max : Forall (fun x => x <= T) (rq_attempts st);
  lo_sent : forall i, zlen (List.filter (fun x => (se_index x =? i)%nat) (rq_sent st)) <= nth i (rq_attempts st) 0;
  lo_rejected : Forall (fun x => rejected (se_status x) = true -> nth (se_index x) (rq_skip st) false = true) (rq_sent st)
}.

Lemma start_ok db t : loop_ok (req_start db t (length models)).
Proof.
  split; cbn; try by rewrite ?repeat_length.
  - apply List.Forall_forall. intros x Hx. apply repeat_spec in Hx. lia.
  - intros i. change (zlen []) with 0. destruct (decide (i < length models)%nat) as [Hi|Hi].
    + rewrite nth_repeat. lia.
    + rewrite nth_overflow by (rewrite repeat_length; lia). lia.
Qed.

Lemma attempt_ok a i b m st : loop_ok st -> (i < length models)%nat -> nth i (rq_skip st) false = false ->
  nth i (rq_attempts st) 0 < T -> loop_ok (att a i b m st) /\ total (rq_attempts (att a i b m st)) = total (rq_attempts st) + 1.
Proof.
  intros [Hl Hs Hm Hn Hr] Hi Hsk Hat. set (st' := att a i b m st).
  assert (Ha : rq_attempts st' = <[i := nth i (rq_attempts st) 0 + 1]> (rq_attempts st)).
  { unfold st', attempt. destruct (negb _); [done|]. by do 2 (case_match; [|done]). }
  assert (Hmax : Forall (fun x => x <= T) (rq_attempts st')) by (rewrite Ha; apply Forall_insert; [done|lia]).
  assert (Hlen : length (rq_attempts st') = length models) by (rewrite Ha; by rewrite length_insert).
  split; [|rewrite Ha; apply total_bump; lia].
  assert (Hstep : rq_skip st' = rq_skip st /\ rq_sent st' = rq_sent st \/
    exists x, rq_sent st' = rq_sent st ++ [x] /\ se_index x = i /\
      rq_skip st' = if rejected (se_status x) then <[i := true]> (rq_skip st) else rq_skip st).
  { unfold st', attempt. destruct (negb _); [by left|]. do 2 (case_match; [|by left]). right. eexists. cbn.
    split; [done|]. split; [done|]. by rewrite classify_skip. }
  destruct Hstep as [[Es En]|(x & En & Ei & Es)].
  - split; try done; rewrite ?Es, ?En; try done.
    intros j. rewrite Ha, nth_insert by lia. specialize (Hn j). case_decide; subst; lia.
  - split; try done.
    + rewrite Es. case_match; by rewrite ?length_insert.
    + intros j. rewrite En, List.filter_app, zlen_app, Ha, nth_insert by lia. specialize (Hn j). cbn [List.filter].
      rewrite Ei. destruct (i =? j)%nat eqn:E.
      * apply Nat.eqb_eq in E as ->. rewrite decide_True by done. change (zlen [x]) with 1. lia.
      * apply Nat.eqb_neq in E. rewrite decide_False by done. change (zlen []) with 0. lia.
    + rewrite En. apply Forall_app. split.
      * eapply Forall_impl; [exact Hr|]. intros y Hy Hrej. specialize (Hy Hrej). rewrite Es. case_match; [|done].
        rewrite nth_insert by lia. by case_decide.
      * constructor; [|constructor]. intros Hrej. rewrite Es, Hrej, Ei, nth_insert by lia. by rewrite decide_True.
Qed.

Lemma loop_ends turns : forall st, loop_ok st -> zlen models * T - total (rq_attempts st) < zlen turns -> exists st', loop turns st = Some st'.
Proof.
  induction turns as [|a turns IH]; intros st Hok Hlen; cbn [req_loop].
  - destruct (_ || _); [by eexists|]. exfalso. pose proof (total_bound _ T (lo_max _ Hok)) as Hb.
    unfold zlen in *. rewrite (lo_len _ Hok) in Hb. cbn [length] in Hlen. lia.
  - destruct (_ || _); [by eexists|]. destruct (sel _ _ st) as [[i b]|] eqn:Es; [|by eexists].
    destruct (models !! i) as [m|]; [|by eexists]. destruct (select_spec _ _ _ _ _ Es) as (Hi & Hk & Ht).
    destruct (attempt_ok a i b m st Hok Hi Hk Ht) as [Hok' Htot]. apply IH; [done|]. rewrite zlen_cons in Hlen. lia.
Qed.

(** An invariant of the turns holds at the end. *)
Lemma loop_preserves (P : ReqSt -> Prop) :
  (forall a i b m st, models !! i = Some m -> (i < length models)%nat -> nth i (rq_skip st) false = false ->
     nth i (rq_attempts st) 0 < T -> loop_ok st -> P st -> P (att a i b m st)) ->
  forall turns st st', loop_ok st -> P st -> loop turns st = Some st' -> loop_ok st' /\ P st'.
Proof.
  intros Hstep. induction turns as [|a turns IH]; intros st st' Hok HP; cbn [req_loop].
  - destruct (_ || _); [|done]. by intros [= <-].
  - destruct (_ || _); [by intros [= <-]|]. destruct (sel _ _ st) as [[i b]|] eqn:Es; [|by intros [= <-]].
    destruct (models !! i) as [m|] eqn:Em; [|by intros [= <-]]. destruct (select_spec _ _ _ _ _ Es) as (Hi & Hk & Ht).
    apply IH; [by apply attempt_ok|by apply Hstep].
Qed.

Lemma attempt_sent a i b m st : models !! i = Some m -> (i < length models)%nat -> nth i (rq_skip st) false = false ->
  nth i (rq_attempts st) 0 < T -> loop_ok st -> zlen (rq_sent st) <= total (rq_attempts st) ->
  zlen (rq_sent (att a i b m st)) <= total (rq_attempts (att a i b m st)).
Proof.
  intros _ Hi Hk Ht Hok Hs. destruct (attempt_ok a i b m st Hok Hi Hk Ht) as [_ ->].
  unfold attempt. destruct (negb _); [cbn; lia|]. do 2 (case_match; [|cbn; lia]). cbn [rq_sent].
  rewrite zlen_app. change (zlen [_]) with 1. lia.
Qed.

Lemma sent_start db t n : zlen (rq_sent (req_start db t n)) <= total (rq_attempts (req_start db t n)).
Proof. cbn [req_start rq_sent rq_attempts]. by rewrite total_zero. Qed.

(** The requests of a state: their headers, and none to a candidate after it rejected. *)
Definition rejected_last (l : list Sent) : Prop :=
  forall l1 x l2, l = l1 ++ x :: l2 -> rejected (se_status x) = true -> Forall (fun y => se_index y <> se_index x) l2.

Definition auth_prefix (ep : EndpointType) : cstring :=
  match ep with ENDPOINT_GEMINI => bs "x-goog-api-key: " | ENDPOINT_OPENAI => bs "Authorization: Bearer " end.

Definition own_request (x : Sent) : Prop :=
  exists m, models !! se_index x = Some m /\
    (exists alloc, llm_build_url alloc (mc_base_url m) (mc_endpoint m) (Some (mc_model m)) = Some (se_url x)) /\
    se_auth x = auth_prefix (mc_endpoint m) ++ req_key getenv secret_system cfg_key m.

Lemma auth_header_exact alloc ep key h : llm_build_auth_header alloc ep (Some key) = Some h -> h = auth_prefix ep ++ key.
Proof.
  unfold llm_build_auth_header, auth_prefix. destruct ep; destruct (alloc _); try done; intros [= <-];
    unfold snprintf; apply take_ge; rewrite length_app; unfold zlen; cbn [default length bs]; cbn; lia.
Qed.

Lemma rejected_last_snoc l x : rejected_last l ->
  Forall (fun y => rejected (se_status y) = true -> se_index x <> se_index y) l -> rejected_last (l ++ [x]).
Proof.
  intros Hl Hx l1 y l2 E Hrej. destruct (decide (l2 = [])) as [->|Hne]; [constructor|].
  destruct (exists_last Hne) as (l2' & z & ->). rewrite app_comm_cons, app_assoc in E.
  apply app_inj_tail in E as [E <-]. apply Forall_app. split; [by apply (Hl l1)|]. constructor; [|constructor].
  rewrite E in Hx. rewrite List.Forall_forall in Hx. apply Hx; [|done]. apply in_or_app. right. by left.
Qed.

Lemma attempt_trace a i b m st : models !! i = Some m -> nth i (rq_skip st) false = false -> loop_ok st ->
  rejected_last (rq_sent st) /\ Forall own_request (rq_sent st) ->
  rejected_last (rq_sent (att a i b m st)) /\ Forall own_request (rq_sent (att a i b m st)).
Proof.
  intros Hm Hsk Hok [Hrl Hown]. unfold attempt. destruct (negb _); [done|].
  destruct (llm_build_url _ _ _ _) as [url|] eqn:Eu; [|done]. destruct (llm_build_auth_header _ _ _) as [auth|] eqn:Ea; [|done].
  cbn [rq_sent]. split.
  - apply rejected_last_snoc; [done|]. pose proof (lo_rejected _ Hok) as Hrej. rewrite List.Forall_forall in Hrej |- *.
    intros y Hy Hr. cbn [se_index]. intros ->. by rewrite (Hrej y Hy Hr) in Hsk.
  - apply Forall_app. split; [done|]. constructor; [|constructor]. exists m. cbn [se_index se_url se_auth].
    split; [done|]. split; [by exists (at_alloc a)|]. by eapply auth_header_exact.
Qed.
End Loop.

(** ** The candidates *)
Lemma load_loop_own getenv secret_exists rows max db :
  Forall (fun c => mc_use_cfg_key c = false) rows ->
  Forall (fun c => mc_use_cfg_key c = false) (fst (load_loop getenv secret_exists rows max db)) /\
  (length (fst (load_loop getenv secret_exists rows max db)) <= max)%nat.
Proof.
  intros H. revert max db. induction H as [|c rows Hc _ IH]; intros [|max] db; cbn [load_loop fst length]; try (split; [constructor|lia]).
  destruct (provider_key_available _ _ _ _).
  - specialize (IH max (model_config_recover true (mc_id c) db)). destruct (load_loop _ _ rows max _) as [l db']. cbn [fst length] in *.
    destruct IH as [Hl Hlen]. split; [by constructor|lia].
  - apply IH.
Qed.

Lemma candidate_rows_own db agent : Forall (fun c => mc_use_cfg_key c = false) (candidate_rows db agent).
Proof.
  unfold candidate_rows. apply List.Forall_forall. intros c Hc. apply in_flat_map in Hc as (a & _ & Hc).
  apply in_flat_map in Hc as (m & _ & Hc). apply in_map_iff in Hc as (p & <- & _). done.
Qed.

(** A candidate of the tables is asked with its own provider's key. *)
Lemma req_key_own getenv secret_system cfg_key m :
  mc_use_cfg_key m = false -> req_key getenv secret_system cfg_key m = attempt_key getenv secret_system m.
Proof.
  unfold req_key, attempt_key, env_set. intros ->. destruct (mc_key_env m); [done|].
  by destruct (getenv _) as [[|]|].
Qed.

Section Req.
Context (getenv secret_system : cstring -> option cstring) (secret_exists : cstring -> bool).

Lemma req_candidates_own stale c db agent :
  let models := fst (req_candidates getenv secret_exists stale c db agent) in
  (0 < length models <= MAX_MODELS)%nat /\
  (Forall (fun m => mc_use_cfg_key m = false) models \/ models = [config_candidate stale c]).
Proof.
  unfold req_candidates, load_candidates.
  destruct (load_loop_own getenv secret_exists (candidate_rows db (default [] (Some agent))) MAX_MODELS db (candidate_rows_own _ _)) as [Hf Hl].
  destruct (load_loop _ _ _ _ _) as [[|m ms] db']; cbn [fst] in *.
  - split; [unfold MAX_MODELS; cbn; lia|by right].
  - split; [cbn [length] in *; lia|by left].
Qed.

Lemma req_threshold_pos db : 1 <= req_threshold getenv secret_system db.
Proof. unfold req_threshold. case_match; lia. Qed.

(** A request of the model ends.  However the attempts turn out, whether the clock
    moves and whether the health updates go through, the selection loop stops after at
    most 16 times the threshold of attempts, and the call leaves either what the ingested
    response wrote, with no error, or one error entry: the model is never silent. *)
Theorem llm_req_ends stale c turns resp_id db t agent sid :
  let db1 := snd (req_candidates getenv secret_exists stale c db agent) in
  16 * req_threshold getenv secret_system db1 < zlen turns ->
  exists rc db' t' sent,
    llm_req getenv secret_system secret_exists stale c true turns resp_id db t agent sid = Some (rc, db', t', sent) /\
    zlen sent <= 16 * req_threshold getenv secret_system db1 /\
    (rc = 0 \/ rc = -1 /\ exists t0 text, t' = snd (append_assistant t0 sid (Some text) STOP_REASON_ERROR 0)).
Proof.
  cbn zeta. intros Hlen. pose proof (req_candidates_own stale c db agent) as [Hn _]. unfold llm_req. cbn [negb].
  destruct (req_candidates getenv secret_exists stale c db agent) as [models db1]. cbn [fst snd] in *.
  pose proof (req_threshold_pos db1) as HT. set (T := req_threshold _ _ db1) in *.
  pose proof (start_ok models T HT db1 t) as Hok. unfold MAX_MODELS in Hn.
  assert (Hz : zlen models * T <= 16 * T) by (unfold zlen; nia).
  destruct (loop_ends getenv secret_system (cp_api_key c) models T HT turns _ Hok) as [st E].
  { cbn [req_start rq_attempts]. rewrite total_zero. lia. }
  rewrite E.
  destruct (loop_preserves getenv secret_system (cp_api_key c) models T HT (fun st => zlen (rq_sent st) <= total (rq_attempts st))
    (attempt_sent getenv secret_system (cp_api_key c) models T) turns _ _ Hok (sent_start _ _ _) E) as [Hok' Hs].
  pose proof (total_bound _ T (lo_max _ _ _ Hok')) as Hb. unfold zlen in Hb at 1. rewrite (lo_len _ _ _ Hok') in Hb. fold (zlen models) in Hb.
  destruct (rq_served st); do 4 eexists; (split; [reflexivity|]); (split; [lia|]); [by left|right; split; [done|by do 2 eexists]].
Qed.

(** (C31) Whom a request goes to, and with what.  Every request of the call is for a
    candidate of the list, at its provider's address, with the key of its own
    provider's variable or secret: a row of the tables never borrows the key the
    configuration found, which goes only to the configuration's own address.  A
    candidate that rejects the request is not asked again, and none is asked more
    often than the threshold. *)
Theorem llm_req_requests stale c turns resp_id db t agent sid rc db' t' sent :
  llm_req getenv secret_system secret_exists stale c true turns resp_id db t agent sid = Some (rc, db', t', sent) ->
  let (models, db1) := req_candidates getenv secret_exists stale c db agent in
  rejected_last sent /\
  (forall i, zlen (List.filter (fun x => (se_index x =? i)%nat) sent) <= req_threshold getenv secret_system db1) /\
  (forall x, In x sent -> exists m, models !! se_index x = Some m /\
     (exists alloc, llm_build_url alloc (mc_base_url m) (mc_endpoint m) (Some (mc_model m)) = Some (se_url x)) /\
     exists key, se_auth x = auth_prefix (mc_endpoint m) ++ key /\
       (key = attempt_key getenv secret_system m \/
        mc_use_cfg_key m = true /\ m = config_candidate stale c /\ key = default [] (cp_api_key c))).
Proof.
  intros H. pose proof (req_candidates_own stale c db agent) as [_ Hown]. unfold llm_req in H. cbn [negb] in H.
  destruct (req_candidates getenv secret_exists stale c db agent) as [models db1]. cbn [fst] in Hown.
  pose proof (req_threshold_pos db1) as HT. set (T := req_threshold _ _ db1) in *.
  destruct (req_loop _ _ _ _ _ _ _) as [st|] eqn:E; [|done].
  destruct (loop_preserves getenv secret_system (cp_api_key c) models T HT
    (fun st => rejected_last (rq_sent st) /\ Forall (own_request getenv secret_system (cp_api_key c) models) (rq_sent st)))
    with (turns := turns) (st := req_start db1 t (length models)) (st' := st) as (Hok & Hrl & Hf); try done.
  { intros a i b m st0 Hm _ Hsk _ Hok. by apply attempt_trace with (T := T). }
  { by apply start_ok. }
  { cbn. split; [|constructor]. intros [|? ?] x l2 E0; discriminate. }
  assert (Es : sent = rq_sent st) by (destruct (rq_served st); congruence). subst sent.
  split; [done|]. split.
  - intros i. etrans; [apply (lo_sent _ _ _ Hok)|]. pose proof (lo_max _ _ _ Hok) as Hm. rewrite List.Forall_forall in Hm.
    destruct (nth_in_or_default i (rq_attempts st) 0) as [Hin| ->]; [by apply Hm|lia].
  - intros x Hx. rewrite List.Forall_forall in Hf. destruct (Hf x Hx) as (m & Hm & Hu & Ha).
    exists m. split; [done|]. split; [done|]. eexists. split; [exact Ha|].
    destruct Hown as [Hown| ->].
    + left. apply req_key_own. rewrite List.Forall_forall in Hown. apply Hown. apply list_elem_of_In. by eapply list_elem_of_lookup_2.
    + right. destruct (se_index x) as [|[|]]; cbn in Hm; [|done..]. injection Hm as <-. split; [done|]. split; [done|].
      unfold req_key. cbn. by destruct (cp_api_key c) as [[|]|].
Qed.
End Req.

(** ** Selection *)

(** Health reorders the list and never empties it.  A turn of the loop takes the
    first candidate in list order that is not rejected, not at the threshold and not
    cooling down; when there is none, and once per request, the first that was not
    asked yet; otherwise it stops.  So a request with a candidate makes an attempt,
    even when every candidate is cooling down. *)
Theorem select_first models T read now st :
  1 <= T ->
  let tried i := nth i (rq_skip st) false = true \/ nth i (rq_attempts st) 0 <> 0 in
  match select models T read now st with
  | Some (i, _) =>
      (i < length models)%nat /\
      (eligible models T read now st i = true /\ (forall j, (j < i)%nat -> eligible models T read now st j = false) \/
       (forall j, (j < length models)%nat -> eligible models T read now st j = false) /\ rq_desperate st = false /\
       ~ tried i /\ forall j, (j < i)%nat -> tried j)
  | None =>
      (forall j, (j < length models)%nat -> eligible models T read now st j = false) /\
      (rq_desperate st = true \/ forall j, (j < length models)%nat -> tried j)
  end /\
  (forall db t, models <> [] -> select models T read now (req_start db t (length models)) <> None).
Proof.
  intros HT tried. set (fresh st i := negb (nth i (rq_skip st) false) && (nth i (rq_attempts st) 0 =? 0)).
  assert (Hfresh : forall i, fresh st i = false -> tried i) by (intros i; unfold fresh, tried; destruct (nth i (rq_skip st) false); [by left|right; lia]).
  assert (Hfresh' : forall i, fresh st i = true -> ~ tried i)
    by (intros i; unfold fresh, tried; destruct (nth i (rq_skip st) false); [done|intros Hi [?|?]; [done|lia]]).
  split.
  - unfold select. fold (fresh st). pose proof (first_index_spec (eligible models T read now st) (length models) 0) as H.
    destruct (first_index (eligible models T read now st) _ _) as [k|].
    + destruct H as (Hk & He & Hj). split; [lia|]. left. split; [done|]. intros j Hlt. apply Hj. lia.
    + assert (Hnone : forall j, (j < length models)%nat -> eligible models T read now st j = false) by (intros j Hlt; apply H; lia).
      destruct (rq_desperate st) eqn:Ed; [split; [done|by left]|].
      pose proof (first_index_spec (fresh st) (length models) 0) as H2. destruct (first_index (fresh st) _ _) as [k|].
      * destruct H2 as (Hk & He & Hj). split; [lia|]. right. split; [done|]. split; [done|]. split; [by apply Hfresh'|].
        intros j Hlt. apply Hfresh, Hj. lia.
      * split; [done|]. right. intros j Hlt. apply Hfresh, H2. lia.
  - intros db t Hne. unfold select. fold (fresh (req_start db t (length models))).
    destruct (first_index (eligible _ _ _ _ _) _ _); [done|]. cbn [rq_desperate req_start].
    pose proof (first_index_spec (fresh (req_start db t (length models))) (length models) 0) as H2.
    destruct (first_index (fresh _) _ _) as [k|]; [done|]. exfalso.
    assert (H0 : (0 < length models)%nat) by (destruct models; [done|cbn; lia]).
    specialize (H2 0%nat). unfold fresh in H2. cbn [req_start rq_skip rq_attempts] in H2.
    destruct (length models) as [|n]; [lia|]. cbn in H2. specialize (H2 ltac:(lia)). done.
Qed.

(** ** Health over time *)
Inductive HealthOp :=
  OpError | OpRetryAfter (retry_after : Z) | OpUnavailable | OpSuccess (tin tout cost : Z) | OpKeyMissing | OpKeyFound.

Definition run_op (db : RoutingDb) (x : Z * cstring * HealthOp) : RoutingDb :=
  let '(now, id, op) := x in
  match op with
  | OpError => model_stat_error true true now id db
  | OpRetryAfter ra => model_degrade_retry_after true now id ra db
  | OpUnavailable => model_degrade_unavailable true now id db
  | OpSuccess tin tout cost => model_stat_success true now id tin tout cost db
  | OpKeyMissing => model_degrade_config true id db
  | OpKeyFound => model_config_recover true id db
  end.

(** At the threshold a row is sidelined for a cooldown from its last error. *)
Definition health_ok (T C : Z) (m : ModelRow) : Prop :=
  md_status m = DISABLED \/
  exists f, md_fails m = Some f /\
    (T <= f -> md_status m = DEGRADED /\ exists u e, md_until m = Some u /\ md_error_at m = Some e /\ e + C <= u).

Lemma update_model_ok (Q : ModelRow -> Prop) id p f db :
  (forall m, Q m -> p m = true -> Q (f m)) -> Forall Q (rd_models db) -> Forall Q (rd_models (update_model id p f db)).
Proof.
  intros Hf H. cbn [update_model with_models rd_models]. apply List.Forall_map. eapply Forall_impl; [exact H|].
  intros m Hm. destruct (streq (md_id m) id); cbn [andb]; [|done]. destruct (p m) eqn:E; [by apply Hf|done].
Qed.

Lemma enabled_not m : enabled m = true -> md_status m <> DISABLED.
Proof. unfold enabled, streq. intros H E. rewrite E, bool_decide_true in H; done. Qed.

Lemma run_op_config db x : rd_config (run_op db x) = rd_config db.
Proof.
  by destruct x as [[now id] [| | | | |]].
Qed.

Lemma run_op_ok T C db x : 1 <= T -> fail_threshold_sql db = Some T -> cooldown_sql db = Some C ->
  Forall (health_ok T C) (rd_models db) -> Forall (health_ok T C) (rd_models (run_op db x)).
Proof.
  intros HT Et Ec H. destruct x as [[now id] op]. destruct op; cbn [run_op].
  - unfold model_stat_error. cbn [negb].
    (* between the two updates the count may be at the threshold of a row not yet sidelined *)
    cbn [update_model with_models rd_models]. rewrite map_map. apply List.Forall_map. eapply Forall_impl; [exact H|].
    change (fail_threshold_sql _) with (fail_threshold_sql db). change (cooldown_sql _) with (cooldown_sql db). rewrite Et, Ec.
    intros m Hm. cbn beta. destruct (streq (md_id m) id) eqn:Eid; cbn [andb]; [|by rewrite Eid].
    cbn [md_id md_fails]. rewrite Eid. cbn [andb]. unfold enabled. cbn [md_status].
    destruct Hm as [Hd|(f & Ef & Hm)].
    + rewrite Hd. unfold streq at 1. rewrite bool_decide_true by done. by left.
    + rewrite Ef. cbn [null_add option_map]. destruct (streq (md_status m) DISABLED) eqn:Ed; cbn [negb andb].
      { left. cbn. by apply bool_decide_eq_true in Ed. }
      right. exists (f + 1). destruct (T <=? f + 1) eqn:E; cbn; (split; [done|]); [|lia].
      intros _. split; [done|]. do 2 eexists. split; [done|]. split; [done|]. lia.
  - unfold model_degrade_retry_after. cbn [negb]. apply update_model_ok; [|done]. intros m Hm He.
    pose proof (enabled_not m He). destruct Hm as [?|(f & Ef & Hm)]; [done|]. right. rewrite Et, Ec, Ef. cbn.
    eexists. split; [done|]. intros _. split; [done|]. do 2 eexists. split; [done|]. split; [done|]. lia.
  - unfold model_degrade_unavailable. cbn [negb]. apply update_model_ok; [|done]. intros m Hm He.
    pose proof (enabled_not m He). destruct Hm as [?|(f & Ef & Hm)]; [done|]. right. rewrite Ec. cbn.
    exists f. split; [done|]. intros _. split; [done|]. do 2 eexists. split; [done|]. split; [done|]. lia.
  - unfold model_stat_success. cbn [negb]. apply update_model_ok; [|done]. intros m _ _. right. exists 0. cbn. split; [done|lia].
  - unfold model_degrade_config. cbn [negb]. apply update_model_ok; [|done]. intros m Hm He.
    apply bool_decide_eq_true in He. destruct Hm as [Hd|(f & Ef & Hm)]; [by rewrite He in Hd|]. right. exists f. cbn.
    split; [done|]. intros Hf. destruct (Hm Hf) as [Hd _]. by rewrite He in Hd.
  - unfold model_config_recover. cbn [negb]. apply update_model_ok; [|done]. intros m Hm He.
    apply andb_prop in He as [He Hu]. apply bool_decide_eq_true in He. destruct Hm as [Hd|(f & Ef & Hm)]; [by rewrite He in Hd|].
    right. exists f. cbn. split; [done|]. intros Hf. destruct (Hm Hf) as [_ (u & e & Eu & _)]. by rewrite Eu in Hu.
Qed.

Lemma update_disabled id p f db i m :
  (forall m, enabled m = false -> p m = true -> enabled (f m) = false) -> rd_models db !! i = Some m -> enabled m = false ->
  exists m1, rd_models (update_model id p f db) !! i = Some m1 /\ enabled m1 = false.
Proof.
  intros Hf Hm Hd. cbn [update_model with_models rd_models]. rewrite list_lookup_fmap, Hm. cbn [fmap option_fmap option_map].
  eexists. split; [done|]. destruct (streq (md_id m) id); cbn [andb]; [|done]. destruct (p m) eqn:E; [by apply Hf|done].
Qed.

Lemma disabled_not m s : enabled m = false -> s <> DISABLED -> streq (md_status m) s = true -> False.
Proof.
  unfold enabled, streq. intros H Hs E. apply bool_decide_eq_true in E. rewrite E in H. rewrite bool_decide_false in H; done.
Qed.

Lemma run_op_disabled db x i m : rd_models db !! i = Some m -> enabled m = false ->
  exists m1, rd_models (run_op db x) !! i = Some m1 /\ enabled m1 = false.
Proof.
  intros Hm Hd. destruct x as [[now id] op]. destruct op; cbn [run_op].
  - unfold model_stat_error. cbn [negb].
    destruct (update_disabled id (fun _ => true) (fun m =>
      mk_model (md_id m) (md_provider m) (md_model m) (md_window m) (md_caps m) (md_status m) (md_until m)
        (null_add (md_fails m) 1) (md_requests m + 1) (md_tokens_in m) (md_tokens_out m) (md_cost_nano m)
        (md_success_at m) (Some now) (md_created m)) db i m) as (m1 & H1 & H2); [done|done|done|].
    apply (update_disabled _ _ _ _ i m1); [|done|done]. intros m0 H0 Hp. rewrite H0 in Hp. done.
  - apply (update_disabled _ _ _ _ i m); [|done|done]. intros m0 H0 Hp. by rewrite H0 in Hp.
  - apply (update_disabled _ _ _ _ i m); [|done|done]. intros m0 H0 Hp. by rewrite H0 in Hp.
  - apply (update_disabled _ _ _ _ i m); [|done|done]. intros m0 H0 Hp. by rewrite H0 in Hp.
  - apply (update_disabled _ _ _ _ i m); [|done|done]. intros m0 H0 Hp. by destruct (disabled_not m0 HEALTHY H0).
  - apply (update_disabled _ _ _ _ i m); [|done|done]. intros m0 H0 Hp. apply andb_prop in Hp as [Hp _].
    by destruct (disabled_not m0 DEGRADED H0).
Qed.

(** A failing model is sidelined, and stays so.  Whatever errors, long waits,
    rejections, successes and changes of its key befall the models, in any order, a row
    whose count of consecutive failures is at the threshold is cooling down until at
    least the cooldown after its last error, every further failure included, so it is
    not selected before; a disabled row is never enabled. *)
Theorem health_invariant T C db ops :
  1 <= T -> fail_threshold_sql db = Some T -> cooldown_sql db = Some C ->
  Forall (fun m => md_status m = DISABLED \/ exists f, md_fails m = Some f /\ f < T) (rd_models db) ->
  let db' := fold_left run_op ops db in
  (forall m f e now, In m (rd_models db') -> enabled m = true -> md_fails m = Some f -> T <= f -> md_error_at m = Some e ->
     now < e + C -> model_degraded_now true now (md_id m) db' = true) /\
  (forall i m m', rd_models db !! i = Some m -> rd_models db' !! i = Some m' -> enabled m = false -> enabled m' = false).
Proof.
  intros HT Et Ec H0 db'.
  assert (Hinv : Forall (health_ok T C) (rd_models db')).
  { assert (H : Forall (health_ok T C) (rd_models db)).
    { eapply Forall_impl; [exact H0|]. intros m [?|(f & Ef & Hf)]; [by left|]. right. exists f. split; [done|lia]. }
    clear H0. subst db'. revert db Et Ec H. induction ops as [|x ops IH]; intros db Et Ec H; [done|]. cbn [fold_left].
    apply IH; [| | by apply run_op_ok].
    - unfold fail_threshold_sql, sql_config_int in *. by rewrite run_op_config.
    - unfold cooldown_sql, sql_config_int in *. by rewrite run_op_config. }
  split.
  - intros m f e now Hin He Ef Hf Ee Hnow. rewrite List.Forall_forall in Hinv. pose proof (enabled_not m He).
    destruct (Hinv m Hin) as [?|(f' & Ef' & Hm)]; [done|]. rewrite Ef in Ef'. injection Ef' as <-.
    destruct (Hm Hf) as [Hd (u & e' & Eu & Ee' & Hu)]. rewrite Ee in Ee'. injection Ee' as <-.
    unfold model_degraded_now. cbn [andb]. apply existsb_exists. exists m. split; [done|].
    unfold streq at 1. rewrite bool_decide_true by done. unfold cooling. rewrite Hd, Eu. unfold streq. rewrite bool_decide_true by done.
    cbn [andb]. lia.
  - clear Hinv H0. subst db'. clear Et Ec. revert db. induction ops as [|x ops IH]; intros db i m m' Hm Hm' Hd; cbn [fold_left] in Hm'.
    + congruence.
    + assert (Hstep : exists m1, rd_models (run_op db x) !! i = Some m1 /\ enabled m1 = false).
      { pose proof (run_op_disabled db x i m Hm Hd) as (m1 & H1 & H2). by exists m1. }
      destruct Hstep as (m1 & H1 & H2). by apply (IH (run_op db x) i m1 m').
Qed.

(** ** Media jobs *)
Lemma media_tries_bound id replies n : forall k db,
  let '(_, k', _) := media_tries n id replies k db in (k <= k' <= k + S n)%nat.
Proof.
  induction n as [|n IH]; intros k db; cbn [media_tries]; (destruct (negb (mm_built (replies k))); [lia|]);
    (destruct ((200 <=? mm_status (replies k)) && (mm_status (replies k) <? 300));
       [destruct (mm_text (replies k)) as [[|c s]|]|destruct (_ || _ || _ || _)]); try lia;
    match goal with |- context [media_tries _ _ _ _ ?d] =>
      specialize (IH (S k) d); destruct (media_tries n id replies (S k) d) as [[? ?] ?]; lia end.
Qed.

Lemma media_walk_bound bodies replies ms : forall k db,
  let '(_, k', _) := media_walk ms bodies replies k db in (k <= k' <= k + length ms * 2)%nat.
Proof.
  induction ms as [|m ms IH]; intros k db; cbn [media_walk]; [cbn; lia|]. destruct (negb (bodies m)).
  - specialize (IH k db). destruct (media_walk ms bodies replies k db) as [[? ?] ?]. cbn [length]. lia.
  - pose proof (media_tries_bound (mc_id m) replies TRANSCRIBE_RETRIES k db) as Ht.
    destruct (media_tries TRANSCRIBE_RETRIES (mc_id m) replies k db) as [[[t|] k1] db1]; unfold TRANSCRIBE_RETRIES in Ht; cbn [length]; [lia|].
    specialize (IH k1 db1). destruct (media_walk ms bodies replies k1 db1) as [[? ?] ?]. lia.
Qed.

(** A media job comes to an end.  Each run sends at most two requests per capable
    model and, when the inbox takes it, leaves the text or the failure notice; a run
    that leaves neither has counted itself, and after three the next one only delivers
    the notice, without a request. *)
Theorem media_job_ends json_has now bodies replies join inbox_ok j db :
  let '(text, j', k, _) := llm_transcribe json_has now bodies replies join inbox_ok j db in
  (k <= 2 * MAX_MODELS)%nat /\
  (inbox_ok = true -> join = true -> exists t, text = Some t) /\
  (text = None -> inbox_ok = true -> mj_attempts j' = mj_attempts j + 1 /\ mj_attempts j < TRANSCRIBE_MAX_ATTEMPTS) /\
  (TRANSCRIBE_MAX_ATTEMPTS <= mj_attempts j -> inbox_ok = true -> text = Some (media_fail_text (mj_image j)) /\ k = O).
Proof.
  unfold llm_transcribe. destruct (TRANSCRIBE_MAX_ATTEMPTS <=? mj_attempts j) eqn:E.
  - destruct inbox_ok; split_all; try lia; try done; by eexists.
  - set (ms := model_pick_by_capability _ _ _ _ _).
    assert (Hms : (length ms <= MAX_MODELS)%nat) by (unfold ms, model_pick_by_capability; rewrite length_take; lia).
    pose proof (media_walk_bound bodies replies ms 0 db) as H.
    destruct (media_walk ms bodies replies 0 db) as [[[t|] k] db']; cbn [mj_attempts]; split_all; intros; try lia.
    all: try (subst; cbn; by eexists). all: try done.
    all: destruct inbox_ok; try done; try lia.
Qed.

(** ** Two departures of the LLM() walk *)
Definition row_example (id status : string) (until : option Z) (fails : Z) : ModelRow :=
  mk_model (bs id) (bs "p") (bs id) None None (bs status) until (Some fails) 0 0 0 0 None None 0.
Definition db_example (ms : list ModelRow) : RoutingDb :=
  mk_rdb ms [mk_provider (bs "p") (bs "https://p/v1/") (bs "openai") []]
    [mk_am (bs "A") (bs "b") 1 None; mk_am (bs "A") (bs "a") 0 None]
    [mk_cfg (bs "health_fail_threshold") None (Some (bs "2")) false; mk_cfg (bs "health_cooldown_sec") (Some (bs "60")) None false].

(** The only candidate that matches is passed over while it cools down, because it is
    not the last of the list. *)
Example js_walk_skips_only_match :
  let db := db_example [row_example "a" "degraded" (Some 100) 2; row_example "b" "healthy" None 0] in
  js_walk (fun _ => None) (fun _ => None) (bs "a") 2 0 (candidate_rows db (bs "A"))
    (fun _ => mk_js true 50 200 true (Some (bs "hi"))) 0 db [] = (None, 1%nat, db, []).
Proof. by vm_compute. Qed.

(** A success of the walk leaves the count of failures. *)
Example js_walk_keeps_failures :
  let db := db_example [row_example "a" "healthy" None 1; row_example "b" "healthy" None 0] in
  let '(text, _, db', _) := js_walk (fun _ => None) (fun _ => None) [] 2 0 (candidate_rows db (bs "A"))
    (fun _ => mk_js true 50 200 true (Some (bs "hi"))) 0 db [] in
  text = Some (bs "hi") /\ map md_fails (rd_models db') = [Some 1; Some 0].
Proof. by vm_compute. Qed.

(** The candidate of the configuration is sent with what the slot held: after a row
    without a key, that row's effort. *)
Example stale_effort :
  mc_effort (config_candidate (bs "high") (mk_cfgp None None None None ENDPOINT_OPENAI 0)) = bs "high".
Proof. done. Qed.

(** ** Witnesses *)
Definition turn_example (status : Z) (ing : LlmRespStatus) : Attempt :=
  mk_attempt 10 true true (fun _ => true) (mk_reply status 0 (Some (bs "{}")) ing (fun t => t) (1, 2, 3)) 10 true true.
Definition cfg_example : CfgProvider := mk_cfgp None None None (Some (bs "cfgkey")) ENDPOINT_OPENAI 0.
Definition store_example : Store := mk_store 0 [] [] 1 [] 1 [] [] 1 [] [] [] [] [] [] [].
Definition routing_example : RoutingDb := db_example [row_example "a" "healthy" None 0; row_example "b" "healthy" None 0].

Lemma llm_req_ends_witness :
  exists rc db' t' sent,
    llm_req (fun _ => None) (fun _ => None) (fun _ => false) [] cfg_example true (repeat (turn_example 500 LLM_RESP_OK) 40) None
      routing_example store_example (bs "A") 1 = Some (rc, db', t', sent) /\ zlen sent <= 16 * 2 /\
    (rc = 0 \/ rc = -1 /\ exists t0 text, t' = snd (append_assistant t0 1 (Some text) STOP_REASON_ERROR 0)).
Proof.
  apply (llm_req_ends (fun _ => None) (fun _ => None) (fun _ => false) [] cfg_example (repeat (turn_example 500 LLM_RESP_OK) 40) None
    routing_example store_example (bs "A") 1).
  vm_compute. reflexivity.
Defined.

Lemma llm_req_requests_witness :
  exists db' t' sent,
    llm_req (fun _ => None) (fun _ => None) (fun _ => false) [] cfg_example true
      [turn_example 401 LLM_RESP_OK; turn_example 200 LLM_RESP_OK] None
      routing_example store_example (bs "A") 1 = Some (0, db', t', sent) /\
    length sent = 2%nat /\ rejected_last sent.
Proof.
  do 3 eexists. split; [vm_compute; reflexivity|]. split; [reflexivity|].
  apply (llm_req_requests (fun _ => None) (fun _ => None) (fun _ => false) [] cfg_example
    [turn_example 401 LLM_RESP_OK; turn_example 200 LLM_RESP_OK] None routing_example store_example (bs "A") 1 0 _ _ _
    ltac:(vm_compute; reflexivity)).
Defined.

Lemma select_first_witness :
  select (candidate_rows routing_example (bs "A")) 2 true 10 (req_start routing_example store_example 2) <> None.
Proof.
  apply (proj2 (select_first (candidate_rows routing_example (bs "A")) 2 true 10 (req_start routing_example store_example 2) ltac:(lia))
    routing_example store_example). by vm_compute.
Defined.

Lemma health_invariant_witness :
  let db' := fold_left run_op [(5, bs "a", OpError); (6, bs "a", OpError)] routing_example in
  model_degraded_now true 30 (bs "a") db' = true.
Proof.
  assert (H : Forall (fun m => md_status m = DISABLED \/ exists f, md_fails m = Some f /\ f < 2) (rd_models routing_example)).
  { apply List.Forall_forall. intros m [<-|[<-|[]]]; right; exists 0; (split; [reflexivity|lia]). }
  cbv zeta.
  set (m := nth 0 (rd_models (fold_left run_op [(5, bs "a", OpError); (6, bs "a", OpError)] routing_example)) (row_example "" "" None 0)).
  change (bs "a") with (md_id m) at 3.
  apply (proj1 (health_invariant 2 60 routing_example [(5, bs "a", OpError); (6, bs "a", OpError)] ltac:(lia) eq_refl eq_refl H) m 2 6 30);
    [vm_compute; left; reflexivity | reflexivity | reflexivity | lia | reflexivity | lia].
Defined.

Lemma media_job_ends_witness :
  let '(text, _, k, _) := llm_transcribe (fun _ _ => true) 10 (fun _ => true) (fun _ => mk_media true 10 500 None) true true
    (mk_job 1 1 3 false) routing_example in
  TRANSCRIBE_MAX_ATTEMPTS <= 3 /\ text = Some (media_fail_text false) /\ k = O.
Proof.
  pose proof (media_job_ends (fun _ _ => true) 10 (fun _ => true) (fun _ => mk_media true 10 500 None) true true
    (mk_job 1 1 3 false) routing_example) as H.
  split; [done|]. apply H; [done|reflexivity].
Defined.
