(* ===== verification/Capture.v ===== *)
(** * Stored secrets and their capture: src/secret_capture.c, src/secret_store.c and the
    secrets table of src/db.c

    A tool call may ask that its result, or a value inside it, becomes a secret: the
    value is sealed into the table, and what the model reads has a placeholder in its
    place.  What SQLite's json_extract gives of a text is an argument. *)
From S2P Require Import Prelude CString Libc Buf Codec SecretInterp Json1.

Definition CAPTURE_MAX_VALUE : Z := 8192.

(** A row of secrets; [sr_value] is the sealed text, [sr_agent] the scope. *)
Record SecretRow := mk_srow { sr_name : cstring; sr_value : cstring; sr_source : cstring; sr_agent : bool }.

Section Secrets.
Context `{Aead} (alloc : Z -> bool).
(** The master key, when it is loaded. *)
Context (key : option (list Z)).

Definition db_secret_exists (db : list SecretRow) (name : cstring) : bool :=
  negb (bool_decide (name = [])) && existsb (fun r => streq (sr_name r) name) db.

Definition put_secret (db : list SecretRow) (r : SecretRow) : list SecretRow :=
  if existsb (fun x => streq (sr_name x) (sr_name r)) db
  then map (fun x => if streq (sr_name x) (sr_name r) then r else x) db
  else db ++ [r].

(** [random]: the nonce; [ok]: the insert runs. *)
Definition db_secret_set (random : option (list Z)) (ok : bool) (db : list SecretRow) (name value : cstring)
    (source : cstring) (agent : bool) : bool * list SecretRow :=
  if bool_decide (name = []) then (false, db)
  else
    match key with
    | None => (false, db)
    | Some _ =>
        match secret_encrypt alloc random key (Some value) with
        | Some enc => if ok then (true, put_secret db (mk_srow name enc source agent)) else (false, db)
        | None => (false, db)
        end
    end.

Definition db_secret_rm (db : list SecretRow) (name : cstring) : list SecretRow :=
  if bool_decide (name = []) then db else List.filter (fun r => negb (streq (sr_name r) name)) db.

Definition db_secret_get_system (db : list SecretRow) (name : cstring) : option cstring :=
  if bool_decide (name = []) then None
  else match List.find (fun r => streq (sr_name r) name && negb (sr_agent r)) db with
       | Some r => secret_decrypt alloc key (Some (sr_value r))
       | None => None
       end.

(** The rows of an array of room [cap]: a row that does not decrypt is passed over, a
    failed growth ends the load. *)
Fixpoint load_rows (rows : list SecretRow) (cap : Z) (out : list ShellSecret) : list ShellSecret :=
  match rows with
  | [] => out
  | r :: rows =>
      match secret_decrypt alloc key (Some (sr_value r)) with
      | None => load_rows rows cap out
      | Some v =>
          let s := mk_secret (sr_name r) (Some v) in
          if zlen out =? cap
          then if alloc (cap * 2 * 16) then load_rows rows (cap * 2) (out ++ [s]) else out
          else load_rows rows cap (out ++ [s])
      end
  end.

Definition db_secrets_load (db : list SecretRow) : list ShellSecret :=
  match key with
  | None => []
  | Some _ =>
      if alloc (8 * 16)
      then load_rows (fold_right (insert_by (fun a b => text_cmp (sr_name a) (sr_name b))) []
                        (List.filter sr_agent db)) 8 []
      else []
  end.

(** The secrets of the environment, then those of the table whose names are free. *)
Definition secrets_snapshot (db : list SecretRow) (env_base : list ShellSecret) : list ShellSecret :=
  let rows := db_secrets_load db in
  let cap := zlen env_base + zlen rows in
  if (cap =? 0) || negb (alloc (cap * 16)) then []
  else env_base ++ List.filter (fun s => negb (existsb (fun e => streq (s_name s) (s_name e)) env_base)) rows.

(** ** Capture *)

(** The text between the blanks. *)
Definition value_from_result (result : cstring) : cstring := rev (skip_space (rev (skip_space result))).

(** [json_extract doc path]: the text of the element, [None] for NULL and for errors. *)
Context (json_extract : cstring -> cstring -> option cstring).

Definition value_from_path (result path : cstring) : option cstring :=
  match json_extract result path with
  | Some ((_ :: _) as v) => Some v
  | _ => None
  end.

Definition NOTE_HEAD : cstring := 10 :: bs "[cclaw: ".

(** Outer [None]: the buffer does not end; inner [None]: NULL. *)
Definition with_note (result text : cstring) : option (option cstring) :=
  match buf_append_str alloc buf_zero result with
  | None => None
  | Some b =>
      match buf_append_str alloc b NOTE_HEAD with
      | None => None
      | Some b =>
          match buf_appendf alloc b (Some text) with
          | None => None
          | Some b =>
              match buf_append_str alloc b (bs "]") with
              | None => None
              | Some b =>
                  Some (match fst (buf_take alloc b) with
                        | Some out => Some out
                        | None => strdup alloc result
                        end)
              end
          end
      end
  end.

Definition saved_note (name : cstring) (len : Z) : cstring :=
  snprintf 192 (bs "saved {{SECRET:" ++ name ++ bs "}} (" ++ print_int len ++
    bs " chars). No host bindings yet " ++ EM_DASH ++
    bs " first use parks for approval; ALWAYS-approve a url-bearing call to bind it").

Definition refuse_name (name : cstring) : cstring :=
  bs "save_secret failed: invalid name " ++ name ++ bs " (expected ^[A-Z][A-Z0-9_]*$)".
Definition refuse_exists (name : cstring) : cstring :=
  bs "save_secret failed: secret " ++ name ++ bs " already exists " ++ EM_DASH ++
  bs " pick a new name or have the operator `cclaw secret rm` the old one".
Definition refuse_empty (path : option cstring) : cstring :=
  match path with
  | Some p => bs "save_secret failed: nothing at json path " ++ p ++ bs " (result not JSON, or path missing)"
  | None => bs "save_secret failed: empty result"
  end.
Definition refuse_long : cstring :=
  bs "save_secret failed: extracted value exceeds 8KB " ++ EM_DASH ++
  bs " use save_secret_path to select the credential field".

Definition secret_capture_apply {J : Json1} `{Qsort} (random : option (list Z)) (ok : bool) (db : list SecretRow)
    (tool_args : option cstring) (raw_result : cstring) (is_error : bool)
    : option (option cstring) * list SecretRow :=
  match tool_args with
  | None => (Some None, db)
  | Some args =>
      if negb (match strstr args (bs "save_secret") with Some _ => true | None => false end) then (Some None, db)
      else
        let path := tool_args_str tool_args (bs "save_secret_path") in
        match tool_args_str tool_args (bs "save_secret") with
        | None => (Some None, db)
        | Some name =>
            if negb (is_valid_secret_name (Some name)) then (with_note raw_result (refuse_name name), db)
            else if db_secret_exists db name then (with_note raw_result (refuse_exists name), db)
            else if is_error then (with_note raw_result (bs "save_secret skipped: tool returned an error"), db)
            else
              match match path with Some p => value_from_path raw_result p | None => Some (value_from_result raw_result) end with
              | None | Some [] => (with_note raw_result (refuse_empty path), db)
              | Some value =>
                  if CAPTURE_MAX_VALUE <? zlen value then (with_note raw_result refuse_long, db)
                  else
                    let (set, db) := db_secret_set random ok db name value (bs "captured") true in
                    if negb set then (with_note raw_result (bs "save_secret failed: store error"), db)
                    else
                      let masked := secret_deinterpolate alloc (Some raw_result) [mk_secret name (Some value)] in
                      (with_note (default raw_result masked) (saved_note name (zlen value)), db)
              end
        end
  end.
End Secrets.

(** * Lemmas *)

Lemma replace_loop_length fuel : forall scan needle ph, needle <> [] ->
  (length (replace_loop fuel scan needle ph) <= length scan * S (length ph))%nat.
Proof.
  induction fuel as [|fuel IH]; intros scan needle ph Hn; cbn [replace_loop]; [rewrite Nat.mul_succ_r; lia|].
  destruct (strstr scan needle) as [k|] eqn:E; [|rewrite Nat.mul_succ_r; lia].
  pose proof (strstr_drop _ _ _ E) as Es. rewrite !length_app.
  specialize (IH (drop (k + length needle) scan) needle ph Hn).
  apply (f_equal length) in Es. rewrite !length_app in Es. rewrite length_take in *.
  destruct needle as [|c needle]; [done|]. cbn [length] in *. nia.
Qed.

Lemma replace_all_length cur needle ph :
  zlen (replace_all always cur needle ph) <= zlen cur * (1 + zlen ph).
Proof.
  pose proof (zlen_nonneg cur). pose proof (zlen_nonneg ph).
  unfold replace_all. destruct needle as [|c needle]; [nia|]. cbn [always].
  pose proof (replace_loop_length (length cur) cur (c :: needle) ph ltac:(done)). unfold zlen in *. nia.
Qed.

Lemma mask_secret_length cur s : zlen (mask_secret always cur s) <= zlen cur * 2 ^ 24.
Proof.
  pose proof (zlen_nonneg cur). unfold mask_secret.
  destruct (s_value s) as [[|c v]|]; [lia| |lia]. destruct (placeholder (s_name s)) as [ph|] eqn:E; [|lia].
  assert (Hp : 0 <= zlen ph <= 255).
  { unfold placeholder in E. cbv zeta in E. destruct (zlen (PREFIX ++ s_name s ++ SUFFIX) >=? 256) eqn:El; [done|].
    assert (ph = PREFIX ++ s_name s ++ SUFFIX) as -> by congruence. split; [apply zlen_nonneg|]. lia. }
  assert (Hr : forall x n, 0 <= zlen (replace_all always x n ph) <= zlen x * 256).
  { intros x n. pose proof (replace_all_length x n ph). pose proof (zlen_nonneg x).
    pose proof (zlen_nonneg (replace_all always x n ph)). nia. }
  repeat case_if; repeat match goal with
    | |- context [replace_all always ?x ?n ph] =>
        lazymatch x with
        | context [replace_all] => fail
        | _ => let H := fresh in pose proof (Hr x n) as H; set (replace_all always x n ph) in *
        end
    end; lia.
Qed.

(** Appends to one buffer whose sum is small, without failures. *)
Lemma with_note_always result text :
  zlen result + zlen text < 2 ^ 62 -> with_note always result text = Some (Some (result ++ NOTE_HEAD ++ text ++ bs "]")).
Proof.
  intros Hn. pose proof (zlen_nonneg result). pose proof (zlen_nonneg text).
  assert (Ha : forall b s, buf_appendf always b (Some s) = buf_append always b s).
  { intros b s. unfold buf_appendf. cbn [always]. destruct (b_oom b) eqn:E; [|by case_if].
    unfold buf_append. by rewrite E. }
  pose proof (buf_appends_appended always buf_zero [result; NOTE_HEAD; text; bs "]"] buf_zero_ok) as Hb.
  cbn [concat app] in Hb. rewrite app_nil_r in Hb. destruct Hb as (b & E & Hok & D & _ & A).
  { cbn [b_data buf_zero]. change (zlen (@nil Z)) with 0. rewrite !zlen_app. change (zlen NOTE_HEAD) with 9.
    change (zlen (bs "]")) with 1. lia. }
  cbn [buf_appends] in E. unfold with_note, buf_append_str.
  destruct (buf_append always buf_zero result) as [b1|]; [|done].
  destruct (buf_append always b1 NOTE_HEAD) as [b2|]; [|done]. rewrite Ha.
  destruct (buf_append always b2 text) as [b3|]; [|done].
  destruct (buf_append always b3 (bs "]")) as [b4|]; [|done]. injection E as ->.
  specialize (A ltac:(done)). cbn [b_oom buf_zero] in A.
  destruct (buf_take_result always b (result ++ NOTE_HEAD ++ text ++ bs "]") Hok) as [_ ->]; [|done..].
  intros _. by rewrite D.
Qed.

(** ** Values *)
Lemma skip_space_incl s x : In x (skip_space s) -> In x s.
Proof. induction s as [|c s IH]; [done|]. cbn [skip_space]. destruct (isspace c); [intros ?; right; by apply IH|done]. Qed.

Lemma value_from_result_cstr raw : cstr raw -> cstr (value_from_result raw).
Proof.
  unfold cstr. rewrite !List.Forall_forall. intros H x Hx. unfold value_from_result in Hx.
  apply in_rev, skip_space_incl, in_rev, skip_space_incl in Hx. by apply H.
Qed.

Lemma mask_one `{QsortLaws} name value raw :
  exists masked, secret_deinterpolate always (Some raw) [mk_secret name (Some value)] = Some masked /\
    masked = mask_secret always raw (mk_secret name (Some value)).
Proof.
  eexists. split; [|reflexivity]. unfold secret_deinterpolate. cbn [negb always]. f_equal.
  pose proof (qsort_perm (cmp_secret_len_desc [mk_secret name (Some value)]) (seq 0 1)) as Hp.
  cbn [seq length] in *. apply Permutation_singleton_r in Hp. by rewrite Hp.
Qed.

(** ** The table *)
Section Table.
Context `{AeadLaws} (key : list Z).
Abbreviation unseal r := (secret_decrypt always (Some key) (Some (sr_value r))).

Lemma load_rows_in r v rows : forall cap out, unseal r = Some v ->
  In r rows \/ In (mk_secret (sr_name r) (Some v)) out ->
  In (mk_secret (sr_name r) (Some v)) (load_rows always (Some key) rows cap out).
Proof.
  induction rows as [|x rows IH]; intros cap out Hv Hin; cbn [load_rows]; [by destruct Hin|].
  assert (Hout : forall l, In (mk_secret (sr_name r) (Some v)) out -> In (mk_secret (sr_name r) (Some v)) (out ++ l))
    by (intros l; rewrite in_app_iff; by left).
  destruct (unseal x) as [vx|] eqn:Ex.
  - assert (Hnext : forall cap', In (mk_secret (sr_name r) (Some v))
      (load_rows always (Some key) rows cap' (out ++ [mk_secret (sr_name x) (Some vx)]))).
    { intros cap'. apply IH; [done|]. destruct Hin as [[-> |Hr]|Ho]; [|by left|right; by apply Hout].
      right. rewrite in_app_iff. right. left. rewrite Ex in Hv. by injection Hv as ->. }
    cbn [always]. by case_if.
  - apply IH; [done|]. destruct Hin as [[-> |Hr]|Ho]; [congruence|by left|by right].
Qed.

Lemma insert_all_perm {A} (cmp : A -> A -> Z) l : Permutation (fold_right (insert_by cmp) [] l) l.
Proof. induction l as [|x l IH]; [done|]. cbn. etrans; [apply insert_by_perm|by apply Permutation_skip]. Qed.

Lemma snapshot_in r v db base : In r db -> sr_agent r = true -> unseal r = Some v ->
  ~ In (sr_name r) (map s_name base) -> In (mk_secret (sr_name r) (Some v)) (secrets_snapshot always (Some key) db base).
Proof.
  intros Hin Ha Hv Hb. unfold secrets_snapshot.
  assert (Hl : In (mk_secret (sr_name r) (Some v)) (db_secrets_load always (Some key) db)).
  { unfold db_secrets_load. cbn [always]. apply load_rows_in; [done|]. left.
    eapply Permutation_in; [symmetry; apply insert_all_perm|]. by apply filter_In. }
  destruct (db_secrets_load always (Some key) db) as [|s l]; [done|]. cbn [always negb orb]. rewrite orb_false_r.
  pose proof (zlen_nonneg base). pose proof (zlen_nonneg l). unfold zlen at 2. cbn [length].
  replace (_ =? 0) with false by (unfold zlen in *; lia). apply in_or_app. right. apply filter_In. split; [done|].
  destruct (existsb _ base) eqn:E; [|done]. apply existsb_exists in E as (e & He & E). exfalso. apply Hb.
  unfold streq in E. apply bool_decide_eq_true in E. cbn [s_name] in E. rewrite E. by apply in_map.
Qed.
End Table.

(** The length of a text made of constants and names. *)
Lemma zlen_bs s : zlen (bs s) = Z.of_nat (String.length s).
Proof. unfold zlen, bs. rewrite length_map. induction s as [|a s IH]; [done|]. cbn. lia. Qed.

Ltac text_len := rewrite ?zlen_app, ?zlen_bs; change (zlen EM_DASH) with 3; cbn [String.length]; lia.

Lemma valid_name_short name : is_valid_secret_name (Some name) = true -> 0 < zlen name <= 63.
Proof.
  destruct name as [|c name]; [done|]. cbn [is_valid_secret_name]. destruct (negb (is_upper c)); [done|].
  destruct (zlen (c :: name) >? 63) eqn:E; [done|]. intros _. unfold zlen in *. cbn [length] in *. lia.
Qed.

Lemma saved_note_short name n : zlen (saved_note name n) < 192.
Proof. unfold saved_note, zlen, snprintf. rewrite length_take. lia. Qed.

(** What the call asks to be captured: the element at its [save_secret_path], else the
    trimmed result. *)
Definition captured {J : Json1} (json_extract : cstring -> cstring -> option cstring) (args raw value : cstring) : Prop :=
  match tool_args_str (Some args) (bs "save_secret_path") with
  | Some path => json_extract raw path = Some value
  | None => value = value_from_result raw
  end.

(** (C35) A captured secret is usable and its text is out of the result.  The call answers
    every time, when memory suffices (and the texts have less than 4 GiB together, a string
    of the arguments being no longer than they are): it leaves the table alone and appends a note to the
    result, if it was asked for anything, or it stores what its arguments ask for, the
    element at [save_secret_path] if they have one and else the trimmed result, under a
    valid name that was free, in a row that every snapshot loads with that value as long as
    the table has it and the environment has no secret of the name. The text that takes the place of the result
    then holds neither that value, nor its base64 form of at most 1023 bytes, nor
    its URL form of at most 2047, whatever surrounds them, for the needles masking can remove
    ([inert]). Other spellings are not looked for: the JSON
    spelling of an element with an escape in it stays in the text
    ([capture_escaped_leaks]), and so do the encoded forms of a longer value. *)
Theorem capture_masks `{AeadLaws} {J : Json1} `{QsortLaws} json_extract nonce key ok db args raw is_error :
  bytes_ok nonce -> length nonce = NONCE_LEN -> cstr raw -> zlen raw + zlen args < 2 ^ 32 ->
  (forall d p v, json_extract d p = Some v -> cstr v) ->
  (forall k v, tool_args_str (Some args) k = Some v -> zlen v <= zlen args) ->
  let '(r, db') := secret_capture_apply always (Some key) json_extract (Some nonce) ok db (Some args) raw is_error in
  exists out, r = Some out /\
    (db' = db /\ (out = None \/ exists text, out = Some (raw ++ NOTE_HEAD ++ text ++ bs "]")) \/
     exists name value masked,
       tool_args_str (Some args) (bs "save_secret") = Some name /\ is_valid_secret_name (Some name) = true /\
       db_secret_exists db name = false /\ is_error = false /\ 0 < zlen value <= CAPTURE_MAX_VALUE /\
       captured json_extract args raw value /\
       out = Some (masked ++ NOTE_HEAD ++ saved_note name (zlen value) ++ bs "]") /\
       (forall w, w ∈ forms value -> inert [mk_secret name (Some value)] w -> strstr masked w = None) /\
       exists row, In row db' /\ forall later base, In row later -> ~ In name (map s_name base) ->
         In (mk_secret name (Some value)) (secrets_snapshot always (Some key) later base)).
Proof.
  intros Hnb Hnl Hraw Hlen Hj Hargs. pose proof (zlen_nonneg raw). pose proof (zlen_nonneg args).
  assert (Hnote : forall text db0, zlen text < 2 ^ 40 ->
    exists out, with_note always raw text = Some out /\
      (db0 = db -> db0 = db /\ (out = None \/ exists text, out = Some (raw ++ NOTE_HEAD ++ text ++ bs "]")))).
  { intros text db0 Ht. rewrite with_note_always by lia. eexists. split; [done|]. intros ->. split; [done|]. right. by eexists. }
  unfold secret_capture_apply.
  destruct (negb _); [eexists; split; [done|]; by left; split; [|left]|].
  destruct (tool_args_str (Some args) (bs "save_secret")) as [name|] eqn:En; [|eexists; split; [done|]; by left; split; [|left]].
  pose proof (Hargs _ _ En) as Hname.
  destruct (is_valid_secret_name (Some name)) eqn:Ev; cbn [negb].
  2:{ destruct (Hnote (refuse_name name) db) as (out & -> & Ho); [unfold refuse_name; text_len|].
      eexists. split; [done|]. left. by apply Ho. }
  pose proof (valid_name_short name Ev) as Hns.
  destruct (db_secret_exists db name) eqn:Ee.
  { destruct (Hnote (refuse_exists name) db) as (out & -> & Ho); [unfold refuse_exists; text_len|]. eexists. split; [done|]. left. by apply Ho. }
  destruct is_error.
  { destruct (Hnote (bs "save_secret skipped: tool returned an error") db) as (out & -> & Ho); [text_len|].
    eexists. split; [done|]. left. by apply Ho. }
  set (path := tool_args_str (Some args) (bs "save_secret_path")).
  assert (Hval : forall value, match path with Some p => value_from_path json_extract raw p | None => Some (value_from_result raw) end = Some value ->
    cstr value /\ captured json_extract args raw value).
  { intros value. unfold captured. fold path. destruct path as [p|].
    - unfold value_from_path. destruct (json_extract raw p) as [[|c v]|] eqn:Ep; [done| |done]. intros [= <-].
      split; [by eapply Hj|done].
    - intros [= <-]. split; [by apply value_from_result_cstr|done]. }
  assert (Hempty : exists out, with_note always raw (refuse_empty path) = Some out /\
    (db = db -> db = db /\ (out = None \/ exists text, out = Some (raw ++ NOTE_HEAD ++ text ++ bs "]")))).
  { apply Hnote. unfold refuse_empty. destruct path as [p|] eqn:Ep; [pose proof (Hargs _ _ Ep)|]; text_len. }
  destruct (match path with Some p => _ | None => _ end) as [[|c v]|].
  { destruct Hempty as (out & -> & Ho). eexists. split; [done|]. left. by apply Ho. }
  2:{ destruct Hempty as (out & -> & Ho). eexists. split; [done|]. left. by apply Ho. }
  destruct (Hval _ eq_refl) as [Hvc Hvs]. set (value := c :: v) in *.
  destruct (CAPTURE_MAX_VALUE <? zlen value) eqn:El.
  { destruct (Hnote refuse_long db) as (out & -> & Ho); [unfold refuse_long; text_len|]. eexists. split; [done|]. left. by apply Ho. }
  unfold db_secret_set. rewrite bool_decide_false by (intros ->; done).
  destruct (secret_decrypt_encrypt nonce key value Hnb Hnl Hvc) as (e & Ese & _ & Esd).
  change (fun _ : Z => true) with always in Ese, Esd. rewrite Ese.
  assert (Hstore : exists out, with_note always raw (bs "save_secret failed: store error") = Some out /\
    (db = db -> db = db /\ (out = None \/ exists text, out = Some (raw ++ NOTE_HEAD ++ text ++ bs "]"))))
    by (apply Hnote; text_len).
  destruct ok; cbn [negb].
  2:{ destruct Hstore as (out & -> & Ho). eexists. split; [done|]. left. by apply Ho. }
  destruct (mask_one name value raw) as (masked & -> & ->). cbn [default id].
  pose proof (mask_secret_length raw (mk_secret name (Some value))).
  pose proof (saved_note_short name (zlen value)).
  rewrite with_note_always by lia. eexists. split; [done|]. right. exists name, value, (mask_secret always raw (mk_secret name (Some value))).
  split_all; try done.
  - lia.
  - intros w Hw%forms_needles Hi. apply strstr_occurs. apply (mask_secret_removes [mk_secret name (Some value)]) with (v := value); try done.
    + intros s Hs. apply list_elem_of_singleton in Hs as ->. unfold placeholder. cbn [s_name].
      rewrite !zlen_app. change (zlen PREFIX) with 9. change (zlen SUFFIX) with 2.
      replace (_ >=? 256) with false by lia. done.
    + by left.
    + by eauto with cclaw.
  - exists (mk_srow name e (bs "captured") true). split.
    + unfold put_secret. cbn [sr_name]. replace (existsb _ db) with false; [apply in_or_app; right; by left|].
      symmetry. unfold db_secret_exists in Ee. rewrite bool_decide_false in Ee by (intros ->; done). done.
    + intros later base Hl Hb. by apply (snapshot_in key (mk_srow name e (bs "captured") true)).
Qed.

(** ** A value that is not masked *)
Definition capture_args : cstring := bs "{save_secret: TOKEN, save_secret_path: $.k}".
Definition capture_json (path : bool) : Json1 :=
  demo_json [(capture_args, JObj ((bs "save_secret", JText (bs "TOKEN")) ::
                                  if path then [(bs "save_secret_path", JText (bs "$.k"))] else []))].
Definition capture_example (path : bool) (json_extract : cstring -> cstring -> option cstring) (raw : cstring) :=
  @secret_capture_apply demo_aead always (Some [1]) json_extract (capture_json path) isort (Some (replicate 24 7)) true
    [] (Some capture_args) raw false.

(** The value at the path is the unescaped text; the result spells it escaped, so the
    mask does not find it and the note goes under the whole secret. *)
Example capture_escaped_leaks :
  let raw := bs "{k:" ++ [34] ++ bs "line1\\nline2" ++ [34] ++ bs "}" in
  let value := bs "line1" ++ [10] ++ bs "line2" in
  exists note, fst (capture_example true (fun _ _ => Some value) raw) = Some (Some (raw ++ note)).
Proof. eexists. vm_compute. reflexivity. Qed.

(** ** Witness *)
Lemma capture_masks_witness :
  let '(r, db') := capture_example false (fun _ _ => None) (bs " s3cr3t-value ") in
  exists masked, r = Some (Some (masked ++ NOTE_HEAD ++ saved_note (bs "TOKEN") 12 ++ bs "]")) /\
    strstr masked (bs "s3cr3t-value") = None /\
    In (mk_secret (bs "TOKEN") (Some (bs "s3cr3t-value"))) (@secrets_snapshot demo_aead always (Some [1]) db' []).
Proof.
  pose proof (@capture_masks demo_aead demo_aead_laws (capture_json false) isort isort_laws (fun _ _ => None)
    (replicate 24 7) [1] true [] capture_args (bs " s3cr3t-value ") false) as H.
  specialize (H ltac:(apply Forall_replicate; unfold byte_ok; lia) eq_refl ltac:(repeat constructor; lia) eq_refl
    ltac:(done)).
  assert (Hargs : forall k v, @tool_args_str (capture_json false) (Some capture_args) k = Some v -> zlen v <= zlen capture_args).
  { intros k v E. unfold tool_args_str, at_key in E. cbn [json_doc capture_json demo_json] in E.
    change (obj_find _ capture_args) with (Some (JObj [(bs "save_secret", JText (bs "TOKEN"))])) in E.
    cbv [json_path capture_json demo_json] in E. destruct (drop 2 (snprintf 128 (bs "$." ++ k))) as [|c l]; [done|].
    unfold obj_find in E. cbn [List.find fst app] in E. destruct (streq (bs "save_secret") (c :: l)); [|done].
    injection E as <-. by vm_compute. }
  specialize (H Hargs).
  fold (capture_example false (fun _ _ => None) (bs " s3cr3t-value ")) in H.
  destruct (capture_example false (fun _ _ => None) (bs " s3cr3t-value ")) as [r db'] eqn:E.
  assert (Hdb : db' <> []) by (replace db' with (snd (r, db')) by done; rewrite <- E; by vm_compute).
  destruct H as (out & -> & [[? _]|(name & value & masked & Hn & _ & _ & _ & _ & Hv & -> & Hm & row & Hrow & Hs)]); [done|].
  vm_compute in Hn. injection Hn as <-. unfold captured in Hv. vm_compute in Hv. subst value.
  exists masked. split; [reflexivity|]. split; [|apply (Hs db' []); [exact Hrow|intros []]].
  apply Hm; [left|]. apply inert_dec; by vm_compute.
Defined.
