(* ===== verification/Complete.v ===== *)
(** * How a tool call ends: the results of the children (src/dispatch.c)

    [tool_result_commit], the notice of a background job, the output of a cron script,
    the sweep of the deadlines and the reaping of the children, over the table of
    children ([ToolFrame]) and the session tables ([Store]).  What the security half of
    the chain makes of a text is the interface [Secure], implemented by capture and
    post-processing. *)
From stdpp Require Import relations.
From S2P Require Import Prelude CString Libc Unicode Codec SecretInterp SecretScan Redact Ingest Store Json1 Capture Delivery ToolFrame.

(** What a raw output becomes, given the call's arguments and whether it is an error:
    with the secrets loaded after its capture, or with those a dispatch loaded before the
    call; those secrets; and what a text entering the inbox becomes. *)
Class Secure := {
  secure : list SecretRow -> option cstring -> cstring -> bool -> cstring * list SecretRow;
  snapshot : list SecretRow -> list ShellSecret;
  secure_with : list ShellSecret -> list SecretRow -> option cstring -> cstring -> bool -> cstring * list SecretRow;
  mask_in : list SecretRow -> cstring -> cstring
}.

(** What [inbox_insert_scanned] inserts: stripped, then post-processed without the
    secrets of the environment. *)
Definition inbox_scanned `{Aead} `{Qsort} `{Entropy} (alloc : Z -> bool) (key : option (list Z)) (db : list SecretRow)
    (payload : cstring) : cstring :=
  match payload with
  | [] => []
  | _ =>
      let scanned := default payload (unicode_strip_invisible (Some payload)) in
      match tool_result_postprocess alloc (Some scanned) (secrets_snapshot alloc key db []) with
      | Some (Some m) => m
      | _ => scanned
      end
  end.

(** Capture on the raw text, then post-processing with the secrets [snap] gives of the
    table after it. *)
Definition secure_chain `{Aead} `{Qsort} `{Entropy} {J : Json1} (alloc : Z -> bool) (key random : option (list Z)) (set_ok : bool)
    (json_extract : cstring -> cstring -> option cstring) (snap : list SecretRow -> list ShellSecret)
    (db : list SecretRow) (args : option cstring) (output : cstring) (is_error : bool) : cstring * list SecretRow :=
  let (cap, db) := match args with
                   | Some a => secret_capture_apply alloc key json_extract random set_ok db (Some a) output is_error
                   | None => (Some None, db)
                   end in
  let output := match cap with Some (Some o) => o | _ => output end in
  match tool_result_postprocess alloc (Some output) (snap db) with
  | Some (Some pp) => (pp, db)
  | _ => (output, db)
  end.

Definition secure_impl `{Aead} `{Qsort} `{Entropy} {J : Json1} (alloc : Z -> bool) (key random : option (list Z)) (set_ok : bool)
    (json_extract : cstring -> cstring -> option cstring) (env_base : list ShellSecret) : Secure := {|
  secure := secure_chain alloc key random set_ok json_extract (fun db => secrets_snapshot alloc key db env_base);
  snapshot db := secrets_snapshot alloc key db env_base;
  secure_with snap := secure_chain alloc key random set_ok json_extract (fun _ => snap);
  mask_in db payload := inbox_scanned alloc key db payload
|}.

(** The tables and the process's own state.  [dm_net] is entries.network_hosts,
    [dm_killed] the pids sent SIGKILL. *)
Record Daemon := mk_daemon {
  dm_store : Store; dm_secrets : list SecretRow; dm_children : list ChildProc; dm_net : list (Z * cstring);
  dm_killed : list Z; dm_stalled : list Z
}.

Definition d_store (t : Store) (d : Daemon) : Daemon :=
  mk_daemon t (dm_secrets d) (dm_children d) (dm_net d) (dm_killed d) (dm_stalled d).
Definition d_secrets (s : list SecretRow) (d : Daemon) : Daemon :=
  mk_daemon (dm_store d) s (dm_children d) (dm_net d) (dm_killed d) (dm_stalled d).
Definition d_children (c : list ChildProc) (d : Daemon) : Daemon :=
  mk_daemon (dm_store d) (dm_secrets d) c (dm_net d) (dm_killed d) (dm_stalled d).
Definition d_net (n : list (Z * cstring)) (d : Daemon) : Daemon :=
  mk_daemon (dm_store d) (dm_secrets d) (dm_children d) n (dm_killed d) (dm_stalled d).
Definition d_killed (k : list Z) (d : Daemon) : Daemon :=
  mk_daemon (dm_store d) (dm_secrets d) (dm_children d) (dm_net d) k (dm_stalled d).
Definition d_stalled (l : list Z) (d : Daemon) : Daemon :=
  mk_daemon (dm_store d) (dm_secrets d) (dm_children d) (dm_net d) (dm_killed d) l.

(** ** The list of stalled sessions *)
Definition STALLED_MAX : Z := CHILD_MAX.

Definition stalled_add (sid : Z) (l : list Z) : list Z :=
  if existsb (Z.eqb sid) l then l else if zlen l <? STALLED_MAX then l ++ [sid] else l.

(** ** The end of a call *)
Definition db_tool_call_complete_with_result (t : Store) (entry : Z) (call : cstring) (result : Z) : Store :=
  with_calls (map (fun c => if (c_entry c =? entry) && streq (c_call c) call then complete_call result c else c) (t_calls t)) t.

(** [PATCH data]: what [json_patch] leaves of the keys of an entry's data. *)
Definition Patch := (option cstring * option cstring -> option cstring * option cstring)%type.

Definition hook_entry_data_patch (t : Store) (id : Z) (p : Patch) : Store :=
  with_entries (map (fun e =>
    if e_id e =? id then
      let (src, note) := p (e_source e, e_note e) in
      mk_entry (e_id e) (e_session e) (e_parent e) (e_turn e) (e_iter e) (e_type e) (e_role e) (e_content e) (e_call e)
        (e_tool e) (e_is_error e) (e_stop e) src note
    else e) (t_entries t)) (t_next_entry t) t.

(** What the outside answers at the end of a child: the last reads of its pipe, whether
    the insert of the result runs, the observer hook (in a process with tools set up),
    the log file of a job, the transaction of the delivery. *)
Record Finish := mk_finish {
  fi_reads : list ((nat -> Z) * list Z); fi_end : ReadEnd; fi_append : bool;
  fi_hook : option cstring * option Patch; fi_log : option (list Z); fi_path : option cstring;
  fi_deliver : bool * bool
}.

Section Complete.
Context `{Ingest} `{Secure} (alloc : Z -> bool) (instance : cstring).

(** The entry's id, -1 when the insert fails. *)
Definition append_result (ok : bool) (t : Store) (sid : Z) (call content tool : cstring) (is_error : bool) (iter : Z) : Z * Store :=
  if ok then append_tool_result t sid call content tool is_error iter else (-1, t).

Definition tool_result_commit (v : Finish) (d : Daemon) (sid : Z) (call : cstring) (entry iter : Z) (tool result : cstring)
    (is_err : bool) (hosts : option cstring) (annotate : option Patch) : Z * Daemon :=
  let result := default result (utf8_sanitize (Some result)) in
  let (rid, t) := append_result (fi_append v) (dm_store d) sid call (spill sid call result) tool is_err iter in
  let d := d_store (db_tool_call_complete_with_result t entry call rid) d in
  let d := match hosts with Some h => if 0 <? rid then d_net (dm_net d ++ [(rid, h)]) d else d | None => d end in
  (rid, match annotate with
        | Some p => if 0 <? rid then d_store (hook_entry_data_patch (dm_store d) rid p) d else d
        | None => d
        end).

(** ** Background jobs *)
Definition tool_call_rowid (t : Store) (sid : Z) (call : cstring) : Z :=
  match List.find (is_call sid call) (t_calls t) with Some c => c_id c | None => 0 end.

Definition job_log_rel (sid : Z) (log_abs : option cstring) (size : nat) : cstring :=
  let base := match log_abs with
              | Some p => match strchr (rev p) "/"%char with
                          | Some n => Some (drop (length p - n) p)
                          | None => None
                          end
              | None => None
              end in
  snprintf size (bs ".tool_results/" ++ print_int sid ++ bs "/" ++ default (bs "unknown.log") base).

(** The last [cap] bytes of the log, as a string. *)
Definition job_log_tail (log : option (list Z)) (cap : nat) : option cstring :=
  match log with
  | None | Some [] => None
  | Some b => Some (c_str (drop (length b - cap) b))
  end.

Definition job_finish (v : Finish) (c : ChildProc) (outcome detail : cstring) (d : Daemon) : Daemon :=
  let sid := cp_session_id c in
  let call := cp_tool_call_id c in
  let job := tool_call_rowid (dm_store d) sid call in
  let t := snd (db_tool_call_set_status (dm_store d) sid call CallDone (Some detail)) in
  let body := match job_log_tail (fi_log v) 4096 with Some tail => scrub tail | None => bs "(no output)" end in
  let payload :=
    snprintf (length body + 512)
      (bs "background job " ++ print_int job ++ bs " (" ++ cp_tool_name c ++ bs ") " ++ outcome ++ [10] ++
       bs "---- output tail ----" ++ [10] ++ body ++ [10] ++ bs "full log: " ++ job_log_rel sid (fi_path v) 128) in
  let t := if alloc (zlen body + 512) then inbox_insert t sid (bs "job_result") (Some call) payload else t in
  d_store (wake sid t) d.

(** ** The output of a child *)
Definition crashed (st : WaitStatus) : bool :=
  match st with Signaled _ => true | Exited code => negb (code =? 0) end.

Definition crash_text (st : WaitStatus) : cstring :=
  snprintf 192
    (match st with
     | Signaled s => bs "error: tool killed by signal " ++ print_int s ++
                     (if s =? SIGKILL then bs " " ++ EM_DASH ++ bs " likely resource limit (memory/CPU/time); reduce usage, don't just retry" else [])
     | Exited code => bs "error: tool exited " ++ print_int code
     end).

Definition meta_damaged (f : Frame) : bool :=
  (0 <? f_meta_len f) &&
  match f_hosts f with None => true | Some _ => negb (f_meta_read f =? f_meta_len f) end.

(** The hosts that tag the result. *)
Definition hosts_tag (f : Frame) : option cstring :=
  if meta_damaged f then None
  else match f_hosts f with
       | None => None
       | Some h => match c_str h with
                   | [] => None
                   | h => if streq h (bs "[]") then None else Some h
                   end
       end.

Definition with_frame (f : Frame) (open : bool) (c : ChildProc) : ChildProc :=
  mk_child (cp_pid c) (cp_type c) (cp_session_id c) (cp_agent_name c) (cp_tool_call_id c) (cp_tool_name c) (cp_tool_args c)
    (cp_iteration_id c) (cp_entry_id c) open f (cp_background c) (cp_cancelled c) (cp_deadline c) (cp_timeout_sec c)
    (cp_cron_job c) (cp_cron_prompt c).

Definition without_outbuf (f : Frame) : Frame :=
  mk_frame (f_hdr f) (f_status f) (f_meta_len f) (f_meta_read f) (f_hosts f) None (f_log f).

(** The text before the security half, and whether it is an error. *)
Definition raw_output (f : Frame) (st : WaitStatus) : cstring * bool :=
  if crashed st && match f_outbuf f with None | Some [] => true | _ => false end then (crash_text st, true)
  else (c_str (default [] (f_outbuf f)), f_status f).

(** Invisible code points go when the run saw the network, or may have. *)
Definition strip_untrusted (f : Frame) (output : cstring) : cstring :=
  if meta_damaged f || match hosts_tag f with Some _ => true | None => false end
  then default output (unicode_strip_invisible (Some output)) else output.

(** The output, its hosts, its status; the slot and the secrets after it. *)
Definition child_output_finalize (v : Finish) (secrets : list SecretRow) (c : ChildProc) (st : WaitStatus)
    : cstring * option cstring * bool * ChildProc * list SecretRow :=
  let (f, _) := child_drain_pipe alloc (cp_frame c) (cp_pipe c) (fi_reads v) (fi_end v) in
  let (raw, is_error) := raw_output f st in
  let (output, secrets) := secure secrets (cp_tool_args c) (strip_untrusted f raw) is_error in
  let f' := if crashed st && match f_outbuf f with None | Some [] => true | _ => false end then f else without_outbuf f in
  (output, hosts_tag f, is_error, with_frame f' false c, secrets).

(** ** The output of a cron script *)
Definition cron_inbox_payload (prompt : option cstring) (out : cstring) : cstring :=
  match prompt with Some p => p ++ [10; 10] | None => [] end ++ bs "script output:" ++ [10] ++ out.

Definition cron_script_post (v : Finish) (c : ChildProc) (output : cstring) (hosts : option cstring) (is_err : bool)
    (d : Daemon) : Daemon :=
  let sid := cp_session_id c in
  let text := default output (utf8_sanitize (Some output)) in
  let queue mask prompt d :=
    let payload := cron_inbox_payload prompt text in
    let t := if alloc (zlen payload + 1)
             then inbox_insert (dm_store d) sid (bs "cron") (Some (cp_cron_job c)) (mask payload)
             else dm_store d in
    d_store (wake sid t) d in
  match cp_cron_prompt c with
  | Some p => queue (mask_in (dm_secrets d)) (Some p) d
  | None =>
      if negb (match get_session (dm_store d) sid with Some s => bool_decide (x_state s = Idle) | None => false end)
      then queue (fun x => x) None d
      else
        let (rid, t) := if fi_append v then entry_append_cron_result (dm_store d) sid (Some text) is_err else (-1, dm_store d) in
        let d := d_store t d in
        let d := match hosts with Some h => if 0 <? rid then d_net (dm_net d ++ [(rid, h)]) d else d | None => d end in
        d_store (snd (advance_deliver_boundary instance (fst (fi_deliver v)) (snd (fi_deliver v)) (dm_store d) sid is_err true)) d
  end.

(** ** The sweep of the deadlines *)
Definition with_deadline (n : Z) (c : ChildProc) : ChildProc :=
  mk_child (cp_pid c) (cp_type c) (cp_session_id c) (cp_agent_name c) (cp_tool_call_id c) (cp_tool_name c) (cp_tool_args c)
    (cp_iteration_id c) (cp_entry_id c) (cp_pipe c) (cp_frame c) (cp_background c) (cp_cancelled c) n (cp_timeout_sec c)
    (cp_cron_job c) (cp_cron_prompt c).

Definition timeout_text (secs : Z) (partial : cstring) : cstring :=
  snprintf 128 (bs "error: tool timed out (" ++ print_int (if 0 <? secs then secs else 120) ++
                bs "s; raise with the timeout parameter)") ++
  match partial with [] => [] | _ => 10 :: partial end.

Definition overdue (now : Z) (c : ChildProc) : bool :=
  negb ((cp_deadline c =? 0) || (cp_pid c <=? 0) || (now <? cp_deadline c)).

(** One child: the slot after it, and the rest. *)
Definition sweep_child (v : Finish) (now : Z) (c : ChildProc) (d : Daemon) : ChildProc * Daemon :=
  if negb (overdue now c) then (c, d)
  else
    let d := d_killed (dm_killed d ++ [cp_pid c]) d in
    match cp_type c with
    | CHILD_TOOL_EXEC =>
        if cp_background c then
          let outcome := snprintf 64 (if cp_cancelled c then bs "cancelled"
                                      else bs "timed out (" ++ print_int (if 0 <? cp_timeout_sec c then cp_timeout_sec c else 600) ++ bs "s)") in
          (with_deadline (-1) c,
           job_finish v c outcome (if cp_cancelled c then bs "job:cancelled" else bs "job:timeout") d)
        else
          let '(partial, _, _, c, secrets) := child_output_finalize v (dm_secrets d) c (Exited 0) in
          let d := d_secrets secrets d in
          let text := if alloc (zlen partial + 128) then timeout_text (cp_timeout_sec c) partial else bs "error: tool timed out" in
          let (_, t) := append_result (fi_append v) (dm_store d) (cp_session_id c) (cp_tool_call_id c) text (cp_tool_name c) true (cp_iteration_id c) in
          (with_deadline (-1) c, d_store (db_tool_call_complete_with_result t (cp_entry_id c) (cp_tool_call_id c) (-1)) d)
    | CHILD_CRON_SCRIPT =>
        let c := with_frame (without_outbuf (cp_frame c)) false c in
        let text := snprintf 96 (bs "error: cron script timed out (" ++ print_int (if 0 <? cp_timeout_sec c then cp_timeout_sec c else 120) ++ bs "s)") in
        (with_deadline (-1) c, cron_script_post v c text None true d)
    | CHILD_CHANNEL => (with_deadline (-1) c, d)
    end.

(** [v i]: what the outside answers for slot [i]. *)
Fixpoint sweep_loop (v : nat -> Finish) (now : Z) (i n : nat) (d : Daemon) : Daemon :=
  match n with
  | O => d
  | S n =>
      match dm_children d !! i with
      | Some c =>
          let (c, d) := sweep_child (v i) now c d in
          sweep_loop v now (S i) n (d_children (<[i := c]> (dm_children d)) d)
      | None => d
      end
  end.

Definition child_sweep_deadlines (v : nat -> Finish) (now : Z) (d : Daemon) : Daemon :=
  sweep_loop v now 0 (length (dm_children d)) d.

(** ** Reaping *)
Fixpoint child_index (t : list ChildProc) (pid : Z) : option nat :=
  match t with
  | [] => None
  | c :: t => if cp_pid c =? pid then Some O else option_map S (child_index t pid)
  end.

Definition exit_outcome (c : ChildProc) (st : WaitStatus) : cstring * cstring :=
  if cp_cancelled c then (bs "cancelled", bs "job:cancelled")
  else match st with
       | Exited code =>
           (snprintf 64 ((if code =? 0 then bs "finished" else bs "failed") ++ bs " (exit " ++ print_int code ++ bs ")"),
            snprintf 48 (bs "job:exit=" ++ print_int code))
       | Signaled s => (snprintf 64 (bs "killed by signal " ++ print_int s), snprintf 48 (bs "job:signal=" ++ print_int s))
       end.

(** What a reaped child of the table leaves, before its session is advanced. *)
Definition reap_child (v : Finish) (c : ChildProc) (st : WaitStatus) (d : Daemon) : Daemon :=
  if cp_deadline c =? -1 then d
  else
    match cp_type c with
    | CHILD_CRON_SCRIPT =>
        let '(output, hosts, is_err, c, secrets) := child_output_finalize v (dm_secrets d) c st in
        cron_script_post v c output hosts is_err (d_secrets secrets d)
    | CHILD_TOOL_EXEC =>
        if cp_background c then let (outcome, detail) := exit_outcome c st in job_finish v c outcome detail d
        else
          let '(output, hosts, is_err, c, secrets) := child_output_finalize v (dm_secrets d) c st in
          let output := default output (fst (fi_hook v)) in
          snd (tool_result_commit v (d_secrets secrets d) (cp_session_id c) (cp_tool_call_id c) (cp_entry_id c) (cp_iteration_id c)
                 [] output is_err hosts (snd (fi_hook v)))
    | CHILD_CHANNEL => d
    end.

(** Whether the slot goes and the session advances; a swept cron script only frees it. *)
Definition reap_advances (c : ChildProc) : bool :=
  match cp_type c with
  | CHILD_TOOL_EXEC => true
  | CHILD_CRON_SCRIPT => negb (cp_deadline c =? -1)
  | CHILD_CHANNEL => false
  end.

Definition reap_one (v : Finish) (pid : Z) (st : WaitStatus) (d : Daemon) : Daemon * option Z :=
  match child_index (dm_children d) pid with
  | None => (d, None)
  | Some i =>
      match dm_children d !! i with
      | Some c =>
          let d := reap_child v c st d in
          (match cp_type c with
           | CHILD_CHANNEL => d
           | _ => d_children (child_remove (dm_children d) (Z.of_nat i)) d
           end, if reap_advances c then Some (cp_session_id c) else None)
      | None => (d, None)
      end
  end.

(** The loop of [waitpid], then the stalled sessions.  [run_advance] is loop.c's,
    [channel_reap] channel.c's. *)
Fixpoint reap_loop (run_advance : Z -> Daemon -> Daemon) (channel_reap : Z -> Daemon -> Daemon)
    (reaped : list (Z * WaitStatus * Finish)) (d : Daemon) : Daemon :=
  match reaped with
  | [] => d
  | (pid, st, v) :: reaped =>
      match child_index (dm_children d) pid with
      | None => reap_loop run_advance channel_reap reaped (channel_reap pid d)
      | Some _ =>
          let (d, adv) := reap_one v pid st d in
          reap_loop run_advance channel_reap reaped (match adv with Some sid => run_advance sid d | None => d end)
      end
  end.

Definition stalled_drain (run_advance : Z -> Daemon -> Daemon) (d : Daemon) : Daemon :=
  fold_left (fun d sid => run_advance sid d) (dm_stalled d) (d_stalled [] d).

Definition reap_children (run_advance : Z -> Daemon -> Daemon) (channel_reap : Z -> Daemon -> Daemon)
    (reaped : list (Z * WaitStatus * Finish)) (d : Daemon) : Daemon :=
  stalled_drain run_advance (reap_loop run_advance channel_reap reaped d).
End Complete.

(** * Lemmas *)

(** ** The table *)
Lemma child_index_lookup t pid i : child_index t pid = Some i -> exists c, t !! i = Some c /\ cp_pid c = pid.
Proof.
  revert i. induction t as [|c t IH]; intros i; cbn [child_index]; [done|].
  destruct (cp_pid c =? pid) eqn:E; [intros [= <-]; exists c; split; [done|lia]|].
  destruct (child_index t pid) as [k|]; [|done]. intros [= <-]. by apply IH.
Qed.

(** The slot removed is gone, the others stay in some order. *)
Lemma child_remove_perm (t : list ChildProc) i c : t !! i = Some c -> t ≡ₚ c :: child_remove t (Z.of_nat i).
Proof.
  intros Hi. pose proof (lookup_lt_Some _ _ _ Hi) as Hl. unfold child_remove.
  replace (Z.of_nat i <? 0) with false by lia. replace (zlen t <=? Z.of_nat i) with false by (unfold zlen; lia).
  cbn [orb]. rewrite Nat2Z.id. by apply swap_remove_perm.
Qed.

Lemma insert_perm (t : list ChildProc) i c c' : t !! i = Some c -> <[i:=c']> t ≡ₚ c' :: delete i t.
Proof.
  intros Hi. pose proof (lookup_lt_Some _ _ _ Hi) as Hl. rewrite insert_take_drop, delete_take_drop by done.
  by rewrite Permutation_middle.
Qed.

(** ** One answer for one call *)
Section Once.
Context `{Ingest} `{Secure} (alloc : Z -> bool) (instance : cstring) (sid : Z) (call : cstring) (entry : Z).

Definition is_answer (e : Entry) : bool :=
  (e_session e =? sid) && bool_decide (e_type e = TToolResult) && bool_decide (e_call e = Some call).

Definition answers (t : Store) : Z := zlen (List.filter is_answer (t_entries t)).

(** The row of the call. *)
Definition the_row (c : ToolCallRow) : Prop := c_session c = sid /\ c_entry c = entry /\ c_call c = call.
Definition has_row (t : Store) : Prop := exists c, In c (t_calls t) /\ the_row c.
Definition closed (t : Store) : Prop := forall c, In c (t_calls t) -> the_row c -> c_status c = CallDone.

(** What leaves the call alone. *)
Definition calm (t t' : Store) : Prop :=
  answers t' = answers t /\ (has_row t -> has_row t') /\ (closed t -> closed t').

Lemma calm_refl t : calm t t.
Proof. done. Qed.

Lemma calm_trans t1 t2 t3 : calm t1 t2 -> calm t2 t3 -> calm t1 t3.
Proof. intros (A & B & C) (A' & B' & C'). split; [by rewrite A'|]. auto. Qed.

(** An update of the rows that keeps identities and closed rows closed. *)
Lemma calm_calls t f :
  (forall c, the_row (f c) <-> the_row c) -> (forall c, c_status c = CallDone -> c_status (f c) = CallDone) ->
  calm t (with_calls (map f (t_calls t)) t).
Proof.
  intros Hf Hd. split; [done|]. split.
  - intros (c & Hin & Hc). exists (f c). split; [by apply in_map|by apply Hf].
  - intros Hcl c' Hin Hc. apply in_map_iff in Hin as (c & <- & Hin). apply Hd, Hcl; [done|by apply Hf].
Qed.

Lemma calm_same t t' : t_entries t' = t_entries t -> t_calls t' = t_calls t -> calm t t'.
Proof. intros E C. unfold calm, answers, has_row, closed. by rewrite E, C. Qed.

Lemma append_answers ok t s k content tool err iter :
  let t' := snd (append_result ok t s k content tool err iter) in
  answers t' = answers t + (if ok && (s =? sid) && streq k call then 1 else 0) /\
  t_calls t' = t_calls t.
Proof.
  destruct ok; cbn [append_result andb snd]; [|split; [lia|done]]. unfold append_tool_result. cbn zeta.
  pose proof (insert_entry_rest t s (leaf_of t s) (pick_iter t s iter) TToolResult ROLE_TOOL (Some content) (Some k) (Some tool)
    err 0 None None) as (_ & _ & _ & -> & _). split; [|done].
  unfold answers. rewrite insert_entry_entries, List.filter_app, zlen_app. f_equal. cbn [List.filter].
  unfold is_answer at 1. cbn [e_session e_type e_call]. rewrite (bool_decide_true (TToolResult = TToolResult)) by done.
  unfold streq. rewrite andb_true_r.
  replace (bool_decide (Some k = Some call)) with (bool_decide (k = call)) by (apply bool_decide_ext; split; congruence).
  destruct (_ && _); done.
Qed.

Lemma complete_rows t en k r :
  let t' := db_tool_call_complete_with_result t en k r in
  calm t t' /\ (en = entry -> k = call -> closed t').
Proof.
  unfold db_tool_call_complete_with_result. cbn zeta. split.
  - apply calm_calls; intros c; destruct (_ && _); done.
  - intros -> -> c' Hin (Hs & He & Hc). cbn [t_calls with_calls] in Hin. apply in_map_iff in Hin as (c & <- & _).
    destruct ((c_entry c =? entry) && streq (c_call c) call) eqn:E; [done|]. exfalso.
    rewrite He, Hc, Z.eqb_refl in E. unfold streq in E. by rewrite bool_decide_true in E.
Qed.

Lemma set_status_calm t s k by_ : calm t (snd (db_tool_call_set_status t s k CallDone by_)).
Proof. unfold db_tool_call_set_status, update_calls. cbn [snd]. apply calm_calls; intros c; by destruct (is_call s k c). Qed.

Lemma patch_calm t id p : calm t (hook_entry_data_patch t id p).
Proof.
  split; [|done]. unfold answers, hook_entry_data_patch. cbn [t_entries with_entries].
  induction (t_entries t) as [|e es IH]; [done|]. cbn [map List.filter].
  assert (E : forall x : Entry, is_answer (if e_id x =? id
      then let (src, note) := p (e_source x, e_note x) in
           mk_entry (e_id x) (e_session x) (e_parent x) (e_turn x) (e_iter x) (e_type x) (e_role x) (e_content x) (e_call x)
             (e_tool x) (e_is_error x) (e_stop x) src note
      else x) = is_answer x) by (intros x; destruct (_ =? _); [by destruct (p _)|done]).
  rewrite E. destruct (is_answer e); [rewrite !zlen_cons|]; lia.
Qed.

(** The call of a child. *)
Definition mine (c : ChildProc) : bool :=
  bool_decide (cp_type c = CHILD_TOOL_EXEC) && (cp_session_id c =? sid) && streq (cp_tool_call_id c) call.

Definition others (l : list ChildProc) : Prop := Forall (fun c => mine c = false) l.

Definition tool_child (c : ChildProc) : Prop := cp_type c = CHILD_TOOL_EXEC.

Lemma job_finish_calm v c outcome detail d : calm (dm_store d) (dm_store (job_finish alloc v c outcome detail d)).
Proof.
  unfold job_finish. cbn [dm_store d_store]. eapply calm_trans; [apply (set_status_calm _ (cp_session_id c) (cp_tool_call_id c) (Some detail))|].
  destruct (alloc _); by apply calm_same.
Qed.

Lemma job_finish_rest v c outcome detail d :
  dm_children (job_finish alloc v c outcome detail d) = dm_children d.
Proof. done. Qed.

(** The result of a foreground call: one answer and a closed row for it, nothing for
    the others. *)
Definition answered_by (yes : bool) (t t' : Store) : Prop :=
  answers t' = answers t + (if yes then 1 else 0) /\ (has_row t -> has_row t') /\ (closed t -> closed t') /\ (yes = true -> closed t').

Lemma answer_and_close ok t s k en content tool err iter r :
  let yes := (s =? sid) && streq k call in
  ok = true -> (yes = true -> en = entry) ->
  answered_by yes t (db_tool_call_complete_with_result (snd (append_result ok t s k content tool err iter)) en k r).
Proof.
  intros yes -> Hen. pose proof (append_answers true t s k content tool err iter) as [Ha Hc]. cbn zeta in Ha, Hc.
  set (t1 := snd (append_result true t s k content tool err iter)) in *.
  pose proof (complete_rows t1 en k r) as [(B1 & B2 & B3) B4]. unfold answered_by.
  split; [rewrite B1, Ha; unfold yes; by destruct (s =? sid)|]. unfold has_row, closed in *. rewrite Hc in B2, B3.
  split; [done|]. split; [done|]. intros Hy. apply B4; [by apply Hen|]. unfold yes, streq in Hy.
  apply andb_prop in Hy as [_ Hy]. by apply bool_decide_eq_true in Hy.
Qed.

Lemma answered_calm yes t1 t2 t3 : answered_by yes t1 t2 -> calm t2 t3 -> answered_by yes t1 t3.
Proof. intros (A & B & C & D) (A' & B' & C'). unfold answered_by. rewrite A'. split_all; auto. Qed.

Lemma calm_answered t1 t2 : calm t1 t2 -> answered_by false t1 t2.
Proof. intros (A & B & C). unfold answered_by. rewrite A. split; [lia|]. by split_all. Qed.

(** ** One child *)
Lemma finalize_child v s c st :
  let '(_, _, _, c', _) := child_output_finalize alloc v s c st in
  cp_type c' = cp_type c /\ cp_session_id c' = cp_session_id c /\ cp_tool_call_id c' = cp_tool_call_id c /\
  cp_entry_id c' = cp_entry_id c /\ cp_background c' = cp_background c /\ cp_pid c' = cp_pid c.
Proof.
  unfold child_output_finalize. destruct (child_drain_pipe alloc (cp_frame c) (cp_pipe c) (fi_reads v) (fi_end v)) as [f op].
  destruct (raw_output f st) as [raw e]. destruct (secure s (cp_tool_args c) (strip_untrusted f raw) e). done.
Qed.

(** Whether an event that ends [c] answers the call. *)
Definition ends (c : ChildProc) : bool := mine c && negb (cp_background c).

Lemma mine_tool c : tool_child c -> mine c = (cp_session_id c =? sid) && streq (cp_tool_call_id c) call.
Proof. unfold mine, tool_child. intros ->. by rewrite bool_decide_true. Qed.

Lemma sweep_child_spec v now c d :
  tool_child c -> fi_append v = true -> (mine c = true -> cp_entry_id c = entry) ->
  let (c', d') := sweep_child alloc instance v now c d in
  mine c' = mine c /\ tool_child c' /\ cp_entry_id c' = cp_entry_id c /\ cp_background c' = cp_background c /\
  dm_children d' = dm_children d /\
  (if overdue now c then cp_deadline c' = -1 /\ answered_by (ends c) (dm_store d) (dm_store d') else c' = c /\ d' = d).
Proof.
  intros Ht Hap Hen. unfold sweep_child. destruct (overdue now c); cbn [negb]; [|by split_all].
  unfold ends. pose proof Ht as Ht'. unfold tool_child in Ht. rewrite Ht. destruct (cp_background c) eqn:Eb.
  - rewrite andb_false_r. split_all; try done. apply calm_answered.
    exact (job_finish_calm v c _ _ (d_killed (dm_killed d ++ [cp_pid c]) d)).
  - pose proof (finalize_child v (dm_secrets (d_killed (dm_killed d ++ [cp_pid c]) d)) c (Exited 0)) as Hf.
    destruct (child_output_finalize alloc v _ c (Exited 0)) as [[[[partial hosts] err] c'] secrets].
    destruct Hf as (F1 & F2 & F3 & F4 & F5 & _). rewrite Hap.
    match goal with |- context [append_result true ?t ?s ?k ?x ?tl true ?it] =>
      pose proof (answer_and_close true t s k (cp_entry_id c') x tl true it (-1) eq_refl) as Ha;
      destruct (append_result true t s k x tl true it) as [rid t1] end.
    cbn [snd] in Ha. cbn [dm_store dm_children d_store d_secrets d_killed].
    assert (Hm : mine (with_deadline (-1) c') = mine c) by (unfold mine; cbn [cp_type cp_session_id cp_tool_call_id with_deadline]; by rewrite F1, F2, F3).
    split; [done|]. split; [by unfold tool_child in *; cbn; rewrite F1|]. split; [done|]. split; [by cbn; rewrite F5|].
    split; [done|]. split; [done|]. rewrite andb_true_r, (mine_tool c Ht'), <- F2, <- F3. apply Ha.
    rewrite F2, F3, F4, <- (mine_tool c Ht'). done.
Qed.

Lemma commit_answers v d s k en iter tool result err hosts ann :
  fi_append v = true -> ((s =? sid) && streq k call = true -> en = entry) ->
  answered_by ((s =? sid) && streq k call) (dm_store d)
    (dm_store (snd (tool_result_commit v d s k en iter tool result err hosts ann))) /\
  dm_children (snd (tool_result_commit v d s k en iter tool result err hosts ann)) = dm_children d.
Proof.
  intros Hap Hen. unfold tool_result_commit. rewrite Hap.
  match goal with |- context [append_result true ?t ?s ?k ?x ?tl ?er ?it] =>
    pose proof (fun r => answer_and_close true t s k en x tl er it r eq_refl Hen) as Ha;
    destruct (append_result true t s k x tl er it) as [rid t1] end.
  cbn [snd] in Ha. specialize (Ha rid).
  destruct hosts as [h|], ann as [p|]; destruct (0 <? rid); cbn [snd dm_store dm_children d_store d_net]; (split; [|done]);
    try exact Ha; (eapply answered_calm; [exact Ha|apply patch_calm]).
Qed.

Lemma reap_child_spec v c st d :
  tool_child c -> fi_append v = true -> (mine c = true -> cp_entry_id c = entry) ->
  answered_by (ends c && negb (cp_deadline c =? -1)) (dm_store d) (dm_store (reap_child alloc instance v c st d)) /\
  dm_children (reap_child alloc instance v c st d) = dm_children d.
Proof.
  intros Ht Hap Hen. unfold reap_child. destruct (cp_deadline c =? -1).
  - rewrite andb_false_r. split; [by apply calm_answered|done].
  - rewrite andb_true_r. unfold ends. pose proof Ht as Ht'. unfold tool_child in Ht. rewrite Ht. destruct (cp_background c).
    + rewrite andb_false_r. destruct (exit_outcome c st) as [o det]. split; [|done]. apply calm_answered, job_finish_calm.
    + pose proof (finalize_child v (dm_secrets d) c st) as Hf.
      destruct (child_output_finalize alloc v (dm_secrets d) c st) as [[[[out hosts] err] c'] secrets].
      destruct Hf as (F1 & F2 & F3 & F4 & _). rewrite andb_true_r, (mine_tool c Ht'), <- F2, <- F3.
      apply (commit_answers v (d_secrets secrets d)); [done|]. rewrite F2, F3, F4, <- (mine_tool c Ht'). done.
Qed.

(** ** Runs *)
Definition slots_ok (l : list ChildProc) : Prop :=
  Forall (fun c => tool_child c /\ (mine c = true -> cp_entry_id c = entry /\ cp_background c = false)) l.

(** The daemon's events: a sweep after the killed children were reaped, a reap, a spawn
    for a claimed call without a child, and whatever leaves this call alone. *)
Inductive child_step : Daemon -> Daemon -> Prop :=
  | step_sweep v now d :
      Forall (fun c => cp_deadline c <> -1) (dm_children d) -> (forall i, fi_append (v i) = true) ->
      child_step d (child_sweep_deadlines alloc instance v now d)
  | step_reap v pid st d :
      fi_append v = true -> child_step d (fst (reap_one alloc instance v pid st d))
  | step_spawn c d :
      tool_child c -> child_find_tool_call (dm_children d) (cp_session_id c) (Some (cp_tool_call_id c)) = None ->
      (forall r, In r (t_calls (dm_store d)) -> c_session r = cp_session_id c -> c_call r = cp_tool_call_id c -> c_status r = CallRunning) ->
      child_step d (d_children (dm_children d ++ [c]) d)
  | step_other t d : calm (dm_store d) t -> child_step d (d_store t d).

(** The child still runs, or its call is answered. *)
Definition waiting (l : list ChildProc) : Prop :=
  exists c rest, l ≡ₚ c :: rest /\ others rest /\ mine c = true /\ cp_deadline c <> -1.
Definition over (l : list ChildProc) : Prop :=
  others l \/ exists c rest, l ≡ₚ c :: rest /\ others rest /\ mine c = true /\ cp_deadline c = -1.

Definition once (n : Z) (d : Daemon) : Prop :=
  slots_ok (dm_children d) /\ has_row (dm_store d) /\
  (waiting (dm_children d) /\ answers (dm_store d) = n \/
   over (dm_children d) /\ answers (dm_store d) = n + 1 /\ closed (dm_store d)).

Lemma mine_dec c : mine c = true \/ mine c = false.
Proof. destruct (mine c); auto. Qed.

Lemma others_perm l l' : l ≡ₚ l' -> others l -> others l'.
Proof. unfold others. by intros ->. Qed.

(** The slot of index [i] of a table whose only slot of ours is [c]. *)
Lemma only_slot l c rest i x : l ≡ₚ c :: rest -> others rest -> mine c = true -> l !! i = Some x ->
  (mine x = true -> x = c /\ delete i l ≡ₚ rest) /\
  (mine x = false -> exists rest', delete i l ≡ₚ c :: rest' /\ others rest').
Proof.
  intros Hp Ho Hm Hi. assert (Hd : c :: rest ≡ₚ x :: delete i l) by (rewrite <- Hp; by apply delete_Permutation).
  assert (Hin : x ∈ c :: rest) by (rewrite Hd; left).
  split; intros Hx.
  - apply elem_of_cons in Hin as [-> |Hin].
    + split; [done|]. by apply Permutation_cons_inv in Hd.
    + unfold others in Ho. rewrite Forall_forall in Ho. rewrite (Ho x Hin) in Hx. done.
  - apply elem_of_cons in Hin as [-> |Hin]; [congruence|].
    apply elem_of_Permutation in Hin as [rest' Hr]. exists rest'. split.
    + rewrite Hr in Hd. rewrite Permutation_swap in Hd. by apply Permutation_cons_inv in Hd.
    + apply (others_perm _ _ Hr) in Ho. by apply Forall_cons in Ho as [_ Ho].
Qed.

Lemma slots_delete l i : slots_ok l -> slots_ok (delete i l).
Proof. unfold slots_ok. apply Forall_delete. Qed.

Lemma lookup_in_delete (l : list ChildProc) i j x : l !! j = Some x -> j <> i -> x ∈ delete i l.
Proof.
  intros Hj Hne. rewrite delete_take_drop, elem_of_app. destruct (decide (j < i)%nat) as [Hlt|].
  - left. apply (list_elem_of_lookup_2 _ j). by rewrite lookup_take_lt.
  - right. apply (list_elem_of_lookup_2 _ (j - S i)). rewrite lookup_drop. by replace (S i + (j - S i))%nat with j by lia.
Qed.

(** A change of one slot that is not the call's, or that is. *)
Lemma waiting_insert l i x x' : waiting l -> l !! i = Some x -> mine x = false -> mine x' = false -> waiting (<[i:=x']> l).
Proof.
  intros (c & rest & Hp & Ho & Hm & Hd) Hi Hx Hx'. destruct (only_slot l c rest i x Hp Ho Hm Hi) as [_ H1].
  destruct (H1 Hx) as (rest' & Hr & Ho'). exists c, (x' :: rest'). split_all; try done.
  - rewrite (insert_perm l i x x' Hi), Hr. apply Permutation_swap.
  - by apply Forall_cons.
Qed.

Lemma over_insert l i x x' : over l -> l !! i = Some x -> mine x = false -> mine x' = false -> over (<[i:=x']> l).
Proof.
  intros [Ho|(c & rest & Hp & Ho & Hm & Hd)] Hi Hx Hx'.
  - left. by apply Forall_insert.
  - right. destruct (only_slot l c rest i x Hp Ho Hm Hi) as [_ H1]. destruct (H1 Hx) as (rest' & Hr & Ho').
    exists c, (x' :: rest'). split_all; try done.
    + rewrite (insert_perm l i x x' Hi), Hr. apply Permutation_swap.
    + by apply Forall_cons.
Qed.

Lemma waiting_end l i c : waiting l -> l !! i = Some c -> mine c = true -> others (delete i l) /\ cp_deadline c <> -1.
Proof.
  intros (c0 & rest & Hp & Ho & Hm & Hd) Hi Hc. destruct (only_slot l c0 rest i c Hp Ho Hm Hi) as [H1 _].
  destruct (H1 Hc) as [-> Hr]. split; [|done]. by apply (others_perm rest).
Qed.

Definition mid (n : Z) (i : nat) (d : Daemon) : Prop :=
  slots_ok (dm_children d) /\ has_row (dm_store d) /\
  (waiting (dm_children d) /\ answers (dm_store d) = n \/
   over (dm_children d) /\ answers (dm_store d) = n + 1 /\ closed (dm_store d) /\
   forall j x, (i <= j)%nat -> dm_children d !! j = Some x -> mine x = false).

Lemma mid_once n i d : mid n i d -> once n d.
Proof. intros (A & B & [C|(C & D & E & _)]); (split; [done|]; split; [done|]); [by left|by right]. Qed.

Lemma mid_step n v now i d c : mid n i d -> fi_append v = true -> dm_children d !! i = Some c ->
  let (c', d') := sweep_child alloc instance v now c d in mid n (S i) (d_children (<[i:=c']> (dm_children d')) d').
Proof.
  intros (Hs & Hr & Hst) Hap Hi. unfold slots_ok in Hs. pose proof Hs as Hs'. rewrite Forall_forall in Hs'.
  destruct (Hs' c (list_elem_of_lookup_2 _ _ _ Hi)) as [Ht Hm].
  pose proof (sweep_child_spec v now c d Ht Hap (fun E => proj1 (Hm E))) as H1.
  destruct (sweep_child alloc instance v now c d) as [c' d']. destruct H1 as (E1 & E2 & E3 & E4 & E5 & E6).
  rewrite E5. unfold mid. cbn [dm_children dm_store d_children].
  assert (Hs1 : slots_ok (<[i:=c']> (dm_children d))).
  { apply Forall_insert; [done|]. split; [done|]. rewrite E1, E3, E4. done. }
  assert (Hnext : others (delete i (dm_children d)) -> forall j x, (S i <= j)%nat -> <[i:=c']> (dm_children d) !! j = Some x -> mine x = false).
  { intros Ho j x Hj Hx. rewrite list_lookup_insert_ne in Hx by lia. unfold others in Ho. rewrite Forall_forall in Ho.
    apply Ho. by apply (lookup_in_delete _ _ j); [|lia]. }
  destruct (overdue now c) eqn:Eo.
  2:{ destruct E6 as [-> ->]. rewrite list_insert_id by done. split; [done|]. split; [done|].
      destruct Hst as [Hw|(Ho & Ha & Hc & Hj)]; [by left|right]. split_all; try done. intros j x Hle. apply Hj. lia. }
  destruct E6 as (Ed & A1 & A2 & A3 & A4). split; [done|]. split; [by apply A2|].
  destruct (mine_dec c) as [Hmc|Hmc].
  - destruct (Hm Hmc) as [_ Hb]. assert (He : ends c = true) by (unfold ends; by rewrite Hmc, Hb). rewrite He in A1, A4.
    destruct Hst as [(Hw & Ha)|(_ & _ & _ & Hj)]; [|by rewrite (Hj i c) in Hmc].
    destruct (waiting_end _ i c Hw Hi Hmc) as [Ho Hd]. right. split_all; [|lia|by apply A4|by apply Hnext].
    right. exists c', (delete i (dm_children d)). split_all; try done; [|congruence]. by apply insert_perm with c.
  - assert (He : ends c = false) by (unfold ends; by rewrite Hmc). rewrite He in A1. rewrite Hmc in E1.
    destruct Hst as [(Hw & Ha)|(Ho & Ha & Hc & Hj)]; [left|right].
    + split; [by apply waiting_insert with c|lia].
    + split_all; [by apply over_insert with c|lia|by apply A3|]. intros j x Hle Hx.
      rewrite list_lookup_insert_ne in Hx by lia. apply (Hj j); [lia|done].
Qed.

Lemma sweep_mid n v now k : (forall i, fi_append (v i) = true) -> forall i d, mid n i d -> once n (sweep_loop alloc instance v now i k d).
Proof.
  intros Hv. induction k as [|k IH]; intros i d Hm; cbn [sweep_loop]; [by apply mid_once with i|].
  destruct (dm_children d !! i) as [c|] eqn:Ei; [|by apply mid_once with i].
  pose proof (mid_step n (v i) now i d c Hm (Hv i) Ei) as H1. destruct (sweep_child _ _ _ _ _ _) as [c' d'].
  by apply (IH (S i)).
Qed.

Lemma reap_once n v pid st d : fi_append v = true -> once n d -> once n (fst (reap_one alloc instance v pid st d)).
Proof.
  intros Hap Ho. unfold reap_one. destruct (child_index (dm_children d) pid) as [i|] eqn:Ei; [|done].
  destruct (child_index_lookup _ _ _ Ei) as (c & Hi & _). rewrite Hi. destruct Ho as (Hs & Hr & Hst).
  pose proof Hs as Hs'. unfold slots_ok in Hs'. rewrite Forall_forall in Hs'.
  destruct (Hs' c (list_elem_of_lookup_2 _ _ _ Hi)) as [Ht Hm]. pose proof Ht as Ht'. unfold tool_child in Ht'. rewrite Ht'. cbn [fst].
  destruct (reap_child_spec v c st d Ht Hap (fun E => proj1 (Hm E))) as [(A1 & A2 & A3 & A4) ->].
  assert (Hd : child_remove (dm_children d) (Z.of_nat i) ≡ₚ delete i (dm_children d)).
  { pose proof (child_remove_perm _ _ _ Hi) as H1. rewrite (delete_Permutation _ _ _ Hi) in H1 at 1. by apply Permutation_cons_inv in H1. }
  unfold once. cbn [dm_children dm_store d_children]. split; [|split; [by apply A2|]].
  { unfold slots_ok. rewrite Hd. by apply slots_delete. }
  destruct (mine_dec c) as [Hmc|Hmc].
  - destruct (Hm Hmc) as [_ Hb]. assert (He : ends c = true) by (unfold ends; by rewrite Hmc, Hb). rewrite He in A1, A4.
    right. destruct Hst as [(Hw & Ha)|(Ho & Ha & Hc)].
    + destruct (waiting_end _ i c Hw Hi Hmc) as [Hoth Hdl]. replace (cp_deadline c =? -1) with false in * by lia.
      split; [left; by apply (others_perm (delete i (dm_children d)))|]. split; [cbn in A1; lia|by apply A4].
    + destruct Ho as [Ho|(c1 & rest & Hp & Ho & Hm1 & Hd1)].
      { unfold others in Ho. rewrite Forall_forall in Ho. rewrite (Ho c) in Hmc; [done|]. by apply list_elem_of_lookup_2 in Hi. }
      destruct (only_slot _ c1 rest i c Hp Ho Hm1 Hi) as [H1 _]. destruct (H1 Hmc) as [-> Hrest].
      rewrite Hd1, Z.eqb_refl in A1. split; [left; apply (others_perm rest); [by rewrite Hd|done]|]. cbn in A1. split; [lia|by apply A3].
  - assert (He : ends c = false) by (unfold ends; by rewrite Hmc). rewrite He in A1. cbn in A1.
    destruct Hst as [((c1 & rest & Hp & Ho & Hm1 & Hd1) & Ha)|(Ho & Ha & Hc)]; [left|right].
    + destruct (only_slot _ c1 rest i c Hp Ho Hm1 Hi) as [_ H1]. destruct (H1 Hmc) as (rest' & Hr' & Ho').
      split; [|lia]. exists c1, rest'. split_all; try done. by rewrite Hd.
    + split; [|split; [lia|by apply A3]]. destruct Ho as [Ho|(c1 & rest & Hp & Ho & Hm1 & Hd1)].
      * left. apply (others_perm (delete i (dm_children d))); [done|]. by apply Forall_delete.
      * right. destruct (only_slot _ c1 rest i c Hp Ho Hm1 Hi) as [_ H1]. destruct (H1 Hmc) as (rest' & Hr' & Ho').
        exists c1, rest'. split_all; try done. by rewrite Hd.
Qed.

Lemma spawn_not_mine c d n :
  once n d -> tool_child c -> child_find_tool_call (dm_children d) (cp_session_id c) (Some (cp_tool_call_id c)) = None ->
  (forall r, In r (t_calls (dm_store d)) -> c_session r = cp_session_id c -> c_call r = cp_tool_call_id c -> c_status r = CallRunning) ->
  mine c = false.
Proof.
  intros (Hs & (r & Hin & Hs1 & Hs2 & Hs3) & Hst) Ht Hf Hrun. destruct (mine_dec c) as [Hmc|]; [|done]. exfalso.
  pose proof Hmc as Hk. unfold mine in Hk. apply andb_prop in Hk as [Hk Hk3]. apply andb_prop in Hk as [_ Hk2].
  unfold streq in Hk3. apply bool_decide_eq_true in Hk3. assert (Hk2' : cp_session_id c = sid) by lia.
  assert (Hnone : forall x, x ∈ dm_children d -> mine x = false).
  { intros x Hx. apply list_elem_of_In in Hx. pose proof (List.find_none _ _ Hf x Hx) as E. cbn beta in E. unfold mine.
    by rewrite <- Hk2', <- Hk3. }
  destruct Hst as [((c1 & rest & Hp & _ & Hm1 & _) & _)|(_ & _ & Hc)].
  - rewrite (Hnone c1) in Hm1; [done|]. rewrite Hp. left.
  - pose proof (Hc r Hin (conj Hs1 (conj Hs2 Hs3))) as E. rewrite (Hrun r Hin) in E; [done|congruence|congruence].
Qed.

Lemma step_once n d d' : child_step d d' -> once n d -> once n d'.
Proof.
  intros [v now d0 Hdl Hv|v pid st d0 Hap|c d0 Ht Hf Hrun|t d0 (A & B & C)] Ho.
  - destruct Ho as (Hs & Hr & Hst). unfold child_sweep_deadlines. apply sweep_mid; [done|]. split; [done|]. split; [done|].
    destruct Hst as [Hw|(Hov & Ha & Hc)]; [by left|right]. split_all; try done. intros j x _ Hx.
    apply list_elem_of_lookup_2 in Hx. destruct Hov as [Hoth|(c1 & rest & Hp & _ & _ & Hd1)].
    + unfold others in Hoth. rewrite Forall_forall in Hoth. by apply Hoth.
    + rewrite Forall_forall in Hdl. exfalso. apply (Hdl c1); [|done]. rewrite Hp. left.
  - by apply reap_once.
  - pose proof (spawn_not_mine c d0 n Ho Ht Hf Hrun) as Hm. destruct Ho as (Hs & Hr & Hst). unfold once.
    cbn [dm_children dm_store d_children]. split.
    { unfold slots_ok in *. apply Forall_app. split; [done|]. apply Forall_singleton. split; [done|]. by rewrite Hm. }
    split; [done|]. destruct Hst as [((c1 & rest & Hp & Ho' & Hm1 & Hd1) & Ha)|(Hov & Ha & Hc)]; [left|right].
    + split; [|done]. exists c1, (rest ++ [c]). split_all; try done; [by rewrite Hp|].
      apply Forall_app. split; [done|]. by apply Forall_singleton.
    + split_all; try done. destruct Hov as [Hoth|(c1 & rest & Hp & Ho' & Hm1 & Hd1)].
      * left. apply Forall_app. split; [done|]. by apply Forall_singleton.
      * right. exists c1, (rest ++ [c]). split_all; try done; [by rewrite Hp|].
        apply Forall_app. split; [done|]. by apply Forall_singleton.
  - destruct Ho as (Hs & Hr & Hst). unfold once. cbn [dm_children dm_store d_store]. split; [done|]. split; [by apply B|].
    rewrite A. destruct Hst as [Hw|(Hov & Ha & Hc)]; [by left|right]. split_all; auto.
Qed.
End Once.


(** ** From the child's write to the entry *)

(** The tag of a run that contacted hosts. *)
Definition net_tag (hosts : option cstring) : option cstring :=
  match default [] hosts with
  | [] => None
  | h => if streq h (bs "[]") then None else Some h
  end.

Lemma framed_output alloc w reads1 reads2 fin status hosts result :
  (forall n, n <= FRAME_META_MAX + 1 -> alloc n = true) -> (forall k, 0 < w k) ->
  cstr (default [] hosts) -> bytes_ok result -> zlen (default [] hosts) <= FRAME_META_MAX ->
  concat (map snd (reads1 ++ reads2)) = fst (write_framed w status hosts result) ->
  let f := fst (child_drain_pipe alloc (fst (child_drain_pipe alloc (frame0 false) true reads1 EndAgain)) true reads2 fin) in
  hosts_tag f = net_tag hosts /\ f_status f = negb (status =? 0) /\
  default [] (f_outbuf f) = take (Z.to_nat TOOL_MAX_OUTPUT) result /\
  (meta_damaged f = false).
Proof.
  intros Ha Hw Hh Hr Hl Hc. cbn zeta.
  assert (E : fst (child_drain_pipe alloc (fst (child_drain_pipe alloc (frame0 false) true reads1 EndAgain)) true reads2 fin) =
    fst (child_drain_pipe alloc (frame0 false) true (reads1 ++ reads2) fin)).
  { unfold child_drain_pipe. cbn [negb fst]. by rewrite fold_left_app. }
  rewrite E. pose proof (frame_meta_whole alloc w (reads1 ++ reads2) fin status hosts result Ha Hw (cstr_bytes _ Hh) Hr Hl Hc) as Hm.
  pose proof (frame_roundtrip alloc w (reads1 ++ reads2) fin status hosts result Ha Hw (cstr_bytes _ Hh) Hr Hl Hc) as (_ & Es & Eh & Eo).
  cbn zeta in *. set (f := fst (child_drain_pipe alloc (frame0 false) true (reads1 ++ reads2) fin)) in *. clearbody f.
  assert (Hd : meta_damaged f = false).
  { unfold meta_damaged. rewrite Eh. destruct Hm as [Hm1 Hm2]. rewrite Hm1, Hm2.
    destruct (default [] hosts) as [|x h]; [done|]. by rewrite Z.eqb_refl, andb_false_r. }
  split_all; try done. unfold hosts_tag, net_tag. rewrite Hd, Eh. destruct (default [] hosts) as [|x h] eqn:Ed; [done|].
  replace (c_str ((x :: h) ++ [0])) with (x :: h); [done|]. rewrite <- Ed in *. symmetry. clear -Hh.
  induction (default [] hosts) as [|y l IH]; [done|]. inversion Hh; subst. cbn.
  replace (y =? 0) with false by lia. f_equal. by apply IH.
Qed.

(** (C16) What a child answers is what the session records.  Bytes the child wrote, however
    the pipe was read while it ran and after its death, end as one entry of the call:
    the result, cut to the daemon's 60 KB, stripped of invisible code points when hosts
    were contacted, through the security half and the spill; with the child's verdict,
    tagged with exactly the hosts it contacted; and the row of the call is closed on it. *)
Theorem child_result_recorded `{Ingest} `{Secure} alloc instance v c d w reads status hosts result :
  (forall n, n <= FRAME_META_MAX + 1 -> alloc n = true) -> (forall k, 0 < w k) ->
  cstr (default [] hosts) -> cstr result -> zlen (default [] hosts) <= FRAME_META_MAX ->
  cp_type c = CHILD_TOOL_EXEC -> cp_background c = false -> cp_deadline c <> -1 -> cp_pipe c = true ->
  cp_frame c = fst (child_drain_pipe alloc (frame0 false) true reads EndAgain) ->
  concat (map snd (reads ++ fi_reads v)) = fst (write_framed w status hosts result) ->
  fi_append v = true -> fi_hook v = (None, None) -> 0 < t_next_entry (dm_store d) ->
  let sid := cp_session_id c in let call := cp_tool_call_id c in
  let raw := take (Z.to_nat TOOL_MAX_OUTPUT) result in
  let text := match net_tag hosts with Some _ => default raw (unicode_strip_invisible (Some raw)) | None => raw end in
  let (text, secrets) := secure (dm_secrets d) (cp_tool_args c) text (negb (status =? 0)) in
  let d' := reap_child alloc instance v c (Exited 0) d in
  exists e,
    t_entries (dm_store d') = t_entries (dm_store d) ++ [e] /\ e_session e = sid /\ e_call e = Some call /\
    e_type e = TToolResult /\ e_is_error e = negb (status =? 0) /\
    e_content e = Some (spill sid call (default text (utf8_sanitize (Some text)))) /\
    dm_net d' = dm_net d ++ match net_tag hosts with Some h => [(e_id e, h)] | None => [] end /\
    dm_secrets d' = secrets /\
    (forall r, In r (t_calls (dm_store d')) -> c_entry r = cp_entry_id c -> c_call r = call ->
       c_status r = CallDone /\ c_result r = Some (e_id e)).
Proof.
  intros Ha Hw Hh Hr Hl Ht Hb Hd Hp Hf Hc Hap Hhook Hid. cbn zeta.
  destruct (framed_output alloc w reads (fi_reads v) (fi_end v) status hosts result Ha Hw Hh (cstr_bytes _ Hr) Hl Hc) as (Et & Es & Eo & Em).
  rewrite <- Hf in *. unfold reap_child. replace (cp_deadline c =? -1) with false by lia. rewrite Ht, Hb.
  unfold child_output_finalize. rewrite Hp in *.
  destruct (child_drain_pipe alloc (cp_frame c) true (fi_reads v) (fi_end v)) as [f op]. cbn [fst] in *.
  unfold raw_output. cbn [crashed Z.eqb negb andb]. rewrite Eo, Es. unfold strip_untrusted. rewrite Et, Em. cbn [orb].
  assert (Ec : c_str (take (Z.to_nat TOOL_MAX_OUTPUT) result) = take (Z.to_nat TOOL_MAX_OUTPUT) result).
  { apply c_str_id. by apply Forall_take. }
  rewrite Ec. set (raw := take (Z.to_nat TOOL_MAX_OUTPUT) result).
  replace (if match net_tag hosts with Some _ => true | None => false end then default raw (unicode_strip_invisible (Some raw)) else raw)
    with (match net_tag hosts with Some _ => default raw (unicode_strip_invisible (Some raw)) | None => raw end) by (by destruct (net_tag hosts)).
  destruct (secure (dm_secrets d) (cp_tool_args c) _ _) as [text secrets]. rewrite Hhook. cbn [fst snd default id].
  unfold tool_result_commit. rewrite Hap. cbn [cp_session_id cp_tool_call_id cp_entry_id cp_iteration_id with_frame append_result].
  unfold append_tool_result.
  pose proof (insert_entry_rest (dm_store (d_secrets secrets d)) (cp_session_id c) (leaf_of (dm_store (d_secrets secrets d)) (cp_session_id c))
    (pick_iter (dm_store (d_secrets secrets d)) (cp_session_id c) (cp_iteration_id c)) TToolResult ROLE_TOOL
    (Some (spill (cp_session_id c) (cp_tool_call_id c) (default text (utf8_sanitize (Some text))))) (Some (cp_tool_call_id c)) (Some [])
    (negb (status =? 0)) 0 None None) as (_ & _ & _ & Erows & _).
  pose proof (insert_entry_entries (dm_store (d_secrets secrets d)) (cp_session_id c) (leaf_of (dm_store (d_secrets secrets d)) (cp_session_id c))
    (pick_iter (dm_store (d_secrets secrets d)) (cp_session_id c) (cp_iteration_id c)) TToolResult ROLE_TOOL
    (Some (spill (cp_session_id c) (cp_tool_call_id c) (default text (utf8_sanitize (Some text))))) (Some (cp_tool_call_id c)) (Some [])
    (negb (status =? 0)) 0 None None) as Eents.
  match type of Eents with t_entries (snd ?x) = _ => assert (Efst : fst x = t_next_entry (dm_store d)) by done; destruct x as [rid t1] end.
  cbn [fst snd] in *. subst rid. eexists. cbn [dm_store d_store d_secrets] in *.
  assert (Hrow : forall r, In r (t_calls (db_tool_call_complete_with_result t1 (cp_entry_id c) (cp_tool_call_id c) (t_next_entry (dm_store d)))) ->
    c_entry r = cp_entry_id c -> c_call r = cp_tool_call_id c -> c_status r = CallDone /\ c_result r = Some (t_next_entry (dm_store d))).
  { intros r Hin He Hk. apply in_map_iff in Hin as (r0 & <- & _). destruct ((c_entry r0 =? cp_entry_id c) && streq (c_call r0) (cp_tool_call_id c)) eqn:E; [done|].
    exfalso. rewrite He, Hk, Z.eqb_refl in E. unfold streq in E. by rewrite bool_decide_true in E. }
  replace (0 <? t_next_entry (dm_store d)) with true by lia.
  destruct (net_tag hosts) as [h|]; cbn [snd dm_store dm_net dm_secrets d_store d_net d_secrets].
  - split; [exact Eents|]. by split_all.
  - split; [exact Eents|]. rewrite app_nil_r. by split_all.
Qed.

(** ** What the code does in the corners *)
Definition plain : Secure :=
  {| secure s _ text _ := (text, s); snapshot _ := []; secure_with _ s _ text _ := (text, s); mask_in _ s := s |}.
Definition quiet_finish : Finish := mk_finish [] EndAgain true (None, None) None None (true, true).
Definition run_example (deadline : Z) (f : Frame) : ChildProc :=
  mk_child 77 CHILD_TOOL_EXEC 1 (bs "main") (bs "call_1") (bs "web_fetch") None 1 2 true f false false deadline 30 [] None.
Definition daemon_example (cs : list ChildProc) : Daemon := mk_daemon demo_store [] cs [] [] [].
Definition sweep_example (now : Z) (d : Daemon) : Daemon :=
  @child_sweep_deadlines demo_ingest plain (fun _ => true) (bs "i1") (fun _ => quiet_finish) now d.

(** Two sweeps before the killed child is reaped: two results for the call, and the
    child is killed twice; the deadline -1 is in the past. *)
Example swept_twice :
  let d := sweep_example 200 (sweep_example 100 (daemon_example [run_example 50 (frame0 false)])) in
  answers 1 (bs "call_1") (dm_store d) = 2 /\ dm_killed d = [77; 77].
Proof. by vm_compute. Qed.

(** The result of a child killed at its deadline keeps what had crossed the pipe, but
    goes to the entry without the UTF-8 repair of [tool_result_commit], and without the
    hosts it contacted. *)
Definition partial_frame : Frame :=
  mk_frame [0; 0; 0; 0; 9] false 9 9 (Some (bs "[evil.io]" ++ [0])) (Some [104; 105; 255]) None.
Example timeout_result_raw :
  hosts_tag partial_frame = Some (bs "[evil.io]") /\
  let d := sweep_example 100 (daemon_example [run_example 50 partial_frame]) in
  dm_net d = [] /\
  match last (t_entries (dm_store d)) with
  | Some e => match e_content e with
              | Some text => existsb (Z.eqb 255) text = true /\ utf8_sanitize (Some text) <> Some text
              | None => False
              end
  | None => False
  end.
Proof. vm_compute. split_all; try done. Qed.

(** A secret of the environment is masked in a result, and not in the tail of a job's
    log nor in a text that enters the inbox. *)
Definition env_secret : list ShellSecret := [mk_secret (bs "PW") (Some (bs "hunter2x"))].
Example env_secret_unmasked :
  let ing := @ingest_impl isort lax_entropy (fun _ => true) (@secrets_snapshot demo_aead (fun _ => true) (Some [1]) [] []) (fun _ => []) in
  let sec := @secure_impl demo_aead isort lax_entropy (demo_json []) (fun _ => true) (Some [1]) None true (fun _ _ => None) env_secret in
  fst (@secure sec [] None (bs "pw=hunter2x") false) = bs "pw={{SECRET:PW}}" /\
  @scrub ing (bs "pw=hunter2x") = bs "pw=hunter2x" /\
  @mask_in sec [] (bs "pw=hunter2x") = bs "pw=hunter2x".
Proof. by vm_compute. Qed.


Definition answer_example : Finish := mk_finish [(fun _ => 1, bs "llo")] EndEof true (None, None) None None (true, true).

Lemma child_result_recorded_witness :
  let c := run_example 50 (fst (child_drain_pipe (fun _ => true) (frame0 false) true [(fun _ => 1, [0; 0; 0; 0; 0] ++ bs "he")] EndAgain)) in
  let d' := @reap_child demo_ingest plain (fun _ => true) (bs "i1") answer_example c (Exited 0) (daemon_example [c]) in
  exists e, t_entries (dm_store d') = t_entries demo_store ++ [e] /\ e_content e = Some (bs "hello").
Proof.
  intros c d'.
  assert (Hb : forall s, forallb (fun x => (0 <? x) && (x <? 256)) s = true -> cstr s).
  { intros s Hs. unfold cstr. apply List.Forall_forall. intros x Hx. rewrite forallb_forall in Hs. specialize (Hs x Hx). lia. }
  destruct (@child_result_recorded demo_ingest plain (fun _ => true) (bs "i1") answer_example c (daemon_example [c]) (fun _ => 100)
    [(fun _ => 1, [0; 0; 0; 0; 0] ++ bs "he")] 0 None (bs "hello")) as (e & He & _ & _ & _ & _ & Hc & _); try done.
  - constructor.
  - by apply Hb.
  - exists e. split; [exact He|]. rewrite Hc. by vm_compute.
Defined.
