(* ===== verification/Setup.v ===== *)
(** * The tool registry and the containment of a tool call: src/tools.c, src/agent_setup.c

    Which tools an agent has, how each is run, and the sandbox profile, paths, hosts and
    workspace a call runs under: the registry of src/tools.c with the extension tools of
    src/tool_js.c, the profile of src/sandbox.c, the capabilities of src/agent_config.c
    and the refresh of src/agent_setup.c that rebinds them for the advancing agent.  The
    contexts of the tools are fields of one [AgentSetup] that the registry's entries
    refer to, and a workspace is a reference to its buffer, as the pointers are. *)
From S2P Require Import Prelude CString Libc SecretInterp Json1 Config Store Approval Resolve Ingest.

(** ** Recipes: src/tools.h *)
Definition TOOLS_MAX : Z := 48.
Definition TOOL_TIMEOUT_MAX_SEC : Z := 600.

Inductive ExecVehicle := EXEC_INLINE | EXEC_THREAD | EXEC_SANDBOX.
Inductive SandboxTier := SBX_NONE | SBX_FILE | SBX_WEB | SBX_SHELL | SBX_JS.
Inductive ToolNullKind := NULL_NONE | NULL_ASYNC | NULL_PARK.
#[export] Instance ExecVehicle_eq_dec : EqDecision ExecVehicle.
Proof. solve_decision. Defined.
#[export] Instance SandboxTier_eq_dec : EqDecision SandboxTier.
Proof. solve_decision. Defined.

(** [rc_thread_run]: whether the recipe has one. *)
Record ToolRecipe := mk_recipe {
  rc_vehicle : ExecVehicle; rc_tier : SandboxTier; rc_thread_run : bool; rc_parallel_safe : bool; rc_needs_interp : bool;
  rc_backgroundable : bool; rc_null_kind : ToolNullKind
}.

Definition recipe0 : ToolRecipe := mk_recipe EXEC_INLINE SBX_NONE false false false false NULL_NONE.

(** The handlers the dispatcher tells apart, and the contexts an entry's [user_data]
    points to; [UJsTool path] is [JsToolData] over the setup's [js_eval_ctx]. *)
Inductive HandlerFn := H_stub | H_js_eval | H_js_defined | H_inline (name : cstring).
Inductive CtxKind := LaunchCtx | ReqCfgCtx | BootstrapCtx | ExtToolCtx | CronCtx | ChanSendCtx | OtherCtx.
Inductive UserData := UNull | UFile | UShell | UWeb | UJsEval | UJsTool (path : cstring) | UCtx (k : CtxKind).
#[export] Instance CtxKind_eq_dec : EqDecision CtxKind.
Proof. solve_decision. Defined.

Record ToolEntry := mk_tool {
  te_name : cstring; te_description : option cstring; te_parameters : option cstring; te_policy : option cstring;
  te_handler : HandlerFn; te_data : UserData; te_recipe : ToolRecipe
}.

(** ** The registry: src/tools.c *)
Definition tool_timeout_clamp (requested def : Z) : Z :=
  let t := if requested >? 0 then requested else def in
  if TOOL_TIMEOUT_MAX_SEC <? t then TOOL_TIMEOUT_MAX_SEC else t.

Definition tools_lookup (reg : list ToolEntry) (name : cstring) : option ToolEntry :=
  List.find (fun e => streq (te_name e) name) reg.

Definition tools_register (reg : list ToolEntry) (name : cstring) (description parameters : option cstring)
    (handler : HandlerFn) (data : UserData) : bool * list ToolEntry :=
  if TOOLS_MAX <=? zlen reg then (false, reg)
  else (true, reg ++ [mk_tool name description parameters None handler data recipe0]).

(** The first entry of that name, changed. *)
Fixpoint update_tool (name : cstring) (f : ToolEntry -> ToolEntry) (reg : list ToolEntry) : list ToolEntry :=
  match reg with
  | [] => []
  | e :: reg => if streq (te_name e) name then f e :: reg else e :: update_tool name f reg
  end.

Definition with_recipe (r : ToolRecipe) (e : ToolEntry) : ToolEntry :=
  mk_tool (te_name e) (te_description e) (te_parameters e) (te_policy e) (te_handler e) (te_data e) r.

Definition tools_set_recipe (reg : list ToolEntry) (name : cstring) (r : ToolRecipe) : list ToolEntry :=
  update_tool name (with_recipe r) reg.

(** *** Extension tools: src/tool_js.c *)
Definition js_recipe : ToolRecipe := mk_recipe EXEC_SANDBOX SBX_JS false false false false NULL_NONE.

(** The branch of a name already there replaces what the entry says. *)
Definition js_tool_register_ext (reg : list ToolEntry) (name : cstring) (description parameters : option cstring) (path : cstring)
    (policy : option cstring) : bool * list ToolEntry :=
  match tools_lookup reg name with
  | Some _ =>
      (true, update_tool name (fun e => mk_tool (te_name e) description parameters policy H_js_defined (UJsTool path) js_recipe) reg)
  | None =>
      let (ok, reg) := tools_register reg name description parameters H_js_defined (UJsTool path) in
      (ok, if ok then update_tool name (fun e => mk_tool (te_name e) (te_description e) (te_parameters e) policy (te_handler e)
                                                   (te_data e) js_recipe) reg
           else reg)
  end.

(** Whether the entry runs a handler file, and which. *)
Definition js_tool_resolve_request (e : ToolEntry) : option (option cstring) :=
  match te_handler e, te_data e with
  | H_js_eval, _ => Some None
  | _, UJsTool path => Some (Some path)
  | _, _ => None
  end.

(** *** Paths *)
(** [p] before its last '/'. *)
Definition before_slash (p : cstring) : option cstring :=
  match strchr (rev p) "/"%char with Some n => Some (take (length p - S n) p) | None => None end.

(** [<dir of the database>/extensions/]: src/extension_manifest.c. *)
Definition store_root (dbfile : option cstring) : option cstring :=
  match dbfile with
  | None | Some [] => None
  | Some f => let base := snprintf PATH_MAX f in
              Some (snprintf PATH_MAX (default (bs ".") (before_slash base) ++ bs "/extensions/"))
  end.

Definition has_sub (s w : cstring) : bool := match strstr s w with Some _ => true | None => false end.

Definition extension_path_in_store (dbfile : option cstring) (path : cstring) : bool :=
  match path, store_root dbfile with
  | [], _ | _, None => false
  | _, Some root =>
      negb (bool_decide (root = [])) && starts_with root path && negb (has_sub path (bs "/../")) &&
      negb ((3 <=? zlen path) && streq (drop (length path - 3) path) (bs "/..")) && (length root <? length path)%nat
  end.

(** *** The tables of the extensions *)
Record ToolRow := mk_trow {
  tr_name : cstring; tr_extension : option cstring; tr_description : option cstring; tr_parameters : option cstring;
  tr_path : option cstring; tr_enabled : bool; tr_policy : option cstring; tr_egress : option cstring
}.
Record AgentExtRow := mk_aext { ae_agent : cstring; ae_ext : cstring; ae_enabled : bool }.
Record ExtRow := mk_ext { ex_name : cstring; ex_owner : option cstring; ex_published : bool }.
Record AgentRow := mk_arow { ag_name : cstring; ag_profile : option cstring; ag_shell : option cstring; ag_max_iter : Z }.

Record Catalog := mk_catalog {
  ct_agents : list AgentRow; ct_tools : list ToolRow; ct_agent_exts : list AgentExtRow; ct_exts : list ExtRow;
  ct_dbfile : option cstring
}.

(** The extension is attached to the agent and enabled, published or its own. *)
Definition visible (c : Catalog) (agent ext : cstring) : bool :=
  existsb (fun ae => streq (ae_ext ae) ext && streq (ae_agent ae) agent && ae_enabled ae) (ct_agent_exts c) &&
  existsb (fun e => streq (ex_name e) ext && (ex_published e || bool_decide (ex_owner e = Some agent))) (ct_exts c).

(** The rows of the join. *)
Definition extension_rows (c : Catalog) (agent : cstring) : list ToolRow :=
  List.filter (fun t => match tr_extension t, tr_path t with
                        | Some x, Some _ => visible c agent x && tr_enabled t
                        | _, _ => false
                        end) (ct_tools c).

Definition load_extension_tool (c : Catalog) (reg : list ToolEntry) (t : ToolRow) : list ToolEntry :=
  match tr_path t with
  | Some path =>
      if negb (extension_path_in_store (ct_dbfile c) path) then reg
      else match tools_lookup reg (tr_name t) with
           | Some _ => reg
           | None => snd (js_tool_register_ext reg (tr_name t) (tr_description t) (Some (default (bs "{}") (tr_parameters t))) path (tr_policy t))
           end
  | None => reg
  end.

Definition tools_load_extension_tools (c : Catalog) (reg : list ToolEntry) (agent : option cstring) : list ToolEntry :=
  match agent with
  | None => reg
  | Some a => fold_left (load_extension_tool c) (extension_rows c a) reg
  end.

(** The hosts the manifest of a promoted tool declares: src/db.c.  Without memory there
    are none, or the first ones. *)
Fixpoint strdup_all (alloc : Z -> bool) (l : list cstring) : list cstring :=
  match l with
  | [] => []
  | s :: l => if alloc (zlen s + 1) then s :: strdup_all alloc l else []
  end.

Definition db_tool_declared_hosts (alloc : Z -> bool) (c : Catalog) (tool : cstring) : option (list cstring) :=
  match List.find (fun t => streq (tr_name t) tool && match tr_extension t with Some _ => true | None => false end &&
                            negb (bool_decide (default [] (tr_egress t) = []))) (ct_tools c) with
  | Some t =>
      if alloc (zlen (default [] (tr_egress t)) + 1) then
        match split_and_trim (tr_egress t) 64 with
        | [] => None
        | tok => if alloc (8 * zlen tok) then match strdup_all alloc tok with [] => None | hosts => Some hosts end else None
        end
      else None
  | None => None
  end.

(** The settings of the tool's extension, the secret ones left out; [group] is SQLite's
    [json_group_object]. *)
Definition config_prefix (ext key : cstring) : bool := streq (take (length ext + 1) key) (ext ++ bs ".").

Definition extension_settings (c : Catalog) (config : list ConfigRow) (tool : cstring) : list (cstring * option cstring) :=
  match List.find (fun t => streq (tr_name t) tool) (ct_tools c) with
  | Some t =>
      match tr_extension t with
      | Some ((_ :: _) as ext) =>
          map (fun k => (drop (length ext + 1) (k_key k), match k_value k with Some v => Some v | None => k_default k end))
            (List.filter (fun k => config_prefix ext (k_key k) && negb (k_secret k)) config)
      | _ => []
      end
  | None => []
  end.

Definition tool_extension_config_json (group : list (cstring * option cstring) -> cstring) (c : Catalog) (config : list ConfigRow)
    (tool : cstring) : cstring := group (extension_settings c config tool).

(** ** Containment *)

(** [SandboxProfile]: the policy and the paths of the grants. *)
Record SandboxProfile := mk_profile {
  sb_sandbox : Z; sb_env_mode : Z; sb_net_mode : Z; sb_mount_cwd : Z; sb_nproc : Z; sb_as_mb : Z; sb_cpu_sec : Z;
  sb_read_paths : list cstring; sb_write_paths : list cstring
}.

(** [sandbox_policy_from_profile] of src/sandbox.c, copied by [sandbox_profile_resolve]. *)
Definition sandbox_profile_resolve (name : option cstring) : SandboxProfile :=
  if bool_decide (name = Some (bs "host")) then mk_profile 0 0 0 1 0 0 0 [] []
  else if bool_decide (name = Some (bs "restricted")) then mk_profile 1 1 1 0 64 0 120 [] []
  else mk_profile 1 1 0 0 256 0 0 [] [].

(** *** Capabilities: src/agent_config.c *)
Record AgentCaps := mk_caps { cap_hosts : list cstring; cap_tools : list cstring; cap_read : list cstring; cap_write : list cstring }.

(** The array grows by doubling from eight; when it cannot, it is gone. *)
Fixpoint caps_grow (alloc : Z -> bool) (cap : Z) (arr items : list cstring) : list cstring :=
  match items with
  | [] => arr
  | i :: items =>
      if cap <=? zlen arr then if alloc (cap * 2 * 8) then caps_grow alloc (cap * 2) (arr ++ [i]) items else []
      else caps_grow alloc cap (arr ++ [i]) items
  end.

Definition live_grants (w : World) (agent kind : cstring) : list cstring :=
  map g_value (List.filter (fun g => streq (g_agent g) agent && streq (g_kind g) kind && live (t_now (w_store w)) g) (w_grants w)).

Definition caps_load_kind (alloc : Z -> bool) (w : World) (agent kind : cstring) : list cstring :=
  match live_grants w agent kind with
  | [] => []
  | items => if alloc 64 then caps_grow alloc 8 [] items else []
  end.

Definition agent_caps_load (alloc : Z -> bool) (w : World) (agent : option cstring) : AgentCaps :=
  match agent with
  | None => mk_caps [] [] [] []
  | Some a =>
      mk_caps (caps_load_kind alloc w a (bs "host")) (caps_load_kind alloc w a (bs "tool"))
        (caps_load_kind alloc w a (bs "read_path")) (caps_load_kind alloc w a (bs "write_path"))
  end.

(** *** The contexts *)

(** A workspace: the setup's own buffer, or the string configured at start. *)
Inductive Workspace := WsBuf | WsCfg (path : option cstring).

Record Base := mk_base { b_workspace : Workspace; b_cwd_path : option cstring; b_db_path : option cstring; b_sb : SandboxProfile }.

Record FileReadCtx := mk_file { f_base : Base }.
Record WebFetchCtx := mk_web { wf_base : Base; wf_hosts : list cstring; wf_host_mode : bool }.
Record JsEvalCtx := mk_js { js_base : Base; js_hosts : list cstring; js_host_mode : bool; js_profile : option cstring }.
Record ShellConfig := mk_shell {
  sc_base : Base; sc_hosts : list cstring; sc_timeout : Z; sc_shell_path : option cstring; sc_secrets : list ShellSecret
}.

(** The session, the call and the agent a handler finds in its context. *)
Record HandlerCtx := mk_hctx { hc_session : Z; hc_call : option cstring; hc_agent : option cstring }.

(** The [_env] flags: an operator's override was present at start. *)
Record AgentSetup := mk_setup {
  su_reg : list ToolEntry; su_caps : AgentCaps;
  su_profile_buf : cstring; su_shell_buf : cstring; su_profile_env : bool; su_shell_env : bool;
  su_agents_dir : cstring; su_workspace_buf : cstring; su_pinned : bool;
  su_file : FileReadCtx; su_js : JsEvalCtx; su_web : WebFetchCtx; su_shell : ShellConfig;
  su_ext_ws : Workspace; su_cron_ws : Workspace;
  su_ctx : CtxKind -> HandlerCtx; su_secrets : list ShellSecret
}.

Definition ws_text (s : AgentSetup) (w : Workspace) : option cstring :=
  match w with WsBuf => Some (su_workspace_buf s) | WsCfg p => p end.

(** *** The refresh: src/agent_setup.c *)
Definition agents_column (c : Catalog) (agent : option cstring) (col : AgentRow -> option cstring) (size : nat) : cstring :=
  match agent with
  | Some a => match List.find (fun r => streq (ag_name r) a) (ct_agents c) with
              | Some r => snprintf size (default [] (col r))
              | None => []
              end
  | None => []
  end.

Definition buf_str (b : cstring) : option cstring := match b with [] => None | _ => Some b end.

Definition base_sb (sb : SandboxProfile) (b : Base) : Base := mk_base (b_workspace b) (b_cwd_path b) (b_db_path b) sb.
Definition base_ws (ws : Workspace) (b : Base) : Base := mk_base ws (b_cwd_path b) (b_db_path b) (b_sb b).
Definition base_paths (r w : list cstring) (b : Base) : Base :=
  let p := b_sb b in
  base_sb (mk_profile (sb_sandbox p) (sb_env_mode p) (sb_net_mode p) (sb_mount_cwd p) (sb_nproc p) (sb_as_mb p) (sb_cpu_sec p) r w) b.

(** The entry of the shell: the refresh reaches its context through the registry. *)
Definition has_shell (reg : list ToolEntry) : bool :=
  match tools_lookup reg (bs "shell_exec") with
  | Some e => match te_data e with UShell => true | _ => false end
  | None => false
  end.

Definition containment_refresh (c : Catalog) (agent : option cstring) (s : AgentSetup) : AgentSetup :=
  let profile_buf := if su_profile_env s then su_profile_buf s else agents_column c agent ag_profile 32 in
  let shell_buf := if su_shell_env s then su_shell_buf s else agents_column c agent ag_shell 256 in
  let profile := sandbox_profile_resolve (buf_str profile_buf) in
  let host_mode := sb_sandbox profile =? 0 in
  mk_setup (su_reg s) (su_caps s) profile_buf shell_buf (su_profile_env s) (su_shell_env s) (su_agents_dir s) (su_workspace_buf s)
    (su_pinned s) (mk_file (base_sb profile (f_base (su_file s))))
    (mk_js (base_sb profile (js_base (su_js s))) (js_hosts (su_js s)) host_mode (buf_str profile_buf))
    (mk_web (base_sb profile (wf_base (su_web s))) (wf_hosts (su_web s)) host_mode)
    (let sc := su_shell s in
     if has_shell (su_reg s) then mk_shell (base_sb profile (sc_base sc)) (sc_hosts sc) (sc_timeout sc) (buf_str shell_buf) (sc_secrets sc)
     else sc)
    (su_ext_ws s) (su_cron_ws s) (su_ctx s) (su_secrets s).

(** The name may be a path component. *)
Definition agent_component (agent : cstring) : bool :=
  negb (bool_decide (agent = [])) && negb (match strchr agent "/"%char with Some _ => true | None => false end) &&
  negb (streq agent (bs "..")).

Definition agent_workspace (dir agent : cstring) : cstring := dir ++ bs "/" ++ agent ++ bs "/workspace".

Definition workspace_refresh (agent : option cstring) (s : AgentSetup) : AgentSetup :=
  let with_buf buf s :=
    mk_setup (su_reg s) (su_caps s) (su_profile_buf s) (su_shell_buf s) (su_profile_env s) (su_shell_env s) (su_agents_dir s) buf
      (su_pinned s) (su_file s) (su_js s) (su_web s) (su_shell s) (su_ext_ws s) (su_cron_ws s) (su_ctx s) (su_secrets s) in
  match agent with
  | Some a =>
      if su_pinned s || negb (agent_component a) then s
      else
        let path := agent_workspace (su_agents_dir s) a in
        if (PATH_MAX <=? length path)%nat then with_buf [] s
        else
          let s := with_buf path s in
          mk_setup (su_reg s) (su_caps s) (su_profile_buf s) (su_shell_buf s) (su_profile_env s) (su_shell_env s) (su_agents_dir s)
            (su_workspace_buf s) (su_pinned s) (mk_file (base_ws WsBuf (f_base (su_file s))))
            (mk_js (base_ws WsBuf (js_base (su_js s))) (js_hosts (su_js s)) (js_host_mode (su_js s)) (js_profile (su_js s)))
            (mk_web (base_ws WsBuf (wf_base (su_web s))) (wf_hosts (su_web s)) (wf_host_mode (su_web s)))
            (let sc := su_shell s in
             if has_shell (su_reg s) then mk_shell (base_ws WsBuf (sc_base sc)) (sc_hosts sc) (sc_timeout sc) (sc_shell_path sc) (sc_secrets sc)
             else sc)
            WsBuf WsBuf (su_ctx s) (su_secrets s)
  | None => s
  end.

Definition bind_caps (caps : AgentCaps) (s : AgentSetup) : AgentSetup :=
  let paths b := base_paths (cap_read caps) (cap_write caps) b in
  mk_setup (su_reg s) caps (su_profile_buf s) (su_shell_buf s) (su_profile_env s) (su_shell_env s) (su_agents_dir s)
    (su_workspace_buf s) (su_pinned s) (mk_file (paths (f_base (su_file s))))
    (mk_js (paths (js_base (su_js s))) (cap_hosts caps) (js_host_mode (su_js s)) (js_profile (su_js s)))
    (mk_web (paths (wf_base (su_web s))) (cap_hosts caps) (wf_host_mode (su_web s)))
    (let sc := su_shell s in
     if has_shell (su_reg s) then mk_shell (paths (sc_base sc)) (cap_hosts caps) (sc_timeout sc) (sc_shell_path sc) (sc_secrets sc)
     else sc)
    (su_ext_ws s) (su_cron_ws s) (su_ctx s) (su_secrets s).

Definition agent_setup_refresh_caps (alloc : Z -> bool) (c : Catalog) (w : World) (agent : option cstring) (s : AgentSetup) : AgentSetup :=
  bind_caps (agent_caps_load alloc w agent) (workspace_refresh agent (containment_refresh c agent s)).

(** * Lemmas *)

(** ** The registry *)
Lemma find_tool_app reg reg' name :
  tools_lookup (reg ++ reg') name = match tools_lookup reg name with Some e => Some e | None => tools_lookup reg' name end.
Proof. unfold tools_lookup. induction reg as [|e reg IH]; [done|]. cbn. by destruct (streq (te_name e) name). Qed.

Lemma update_tool_last reg e name f :
  tools_lookup reg name = None -> te_name e = name -> update_tool name f (reg ++ [e]) = reg ++ [f e].
Proof.
  intros Hn He. induction reg as [|x reg IH]; cbn [app update_tool].
  - unfold streq. by rewrite bool_decide_true.
  - unfold tools_lookup in Hn, IH. cbn in Hn. destruct (streq (te_name x) name); [done|]. by rewrite IH.
Qed.

(** The entry of an extension tool. *)
Definition ext_entry (name : cstring) (description parameters : option cstring) (path : cstring) (policy : option cstring) : ToolEntry :=
  mk_tool name description parameters policy H_js_defined (UJsTool path) js_recipe.

Lemma register_new reg name d p path policy :
  tools_lookup reg name = None ->
  js_tool_register_ext reg name d p path policy =
    if TOOLS_MAX <=? zlen reg then (false, reg) else (true, reg ++ [ext_entry name d p path policy]).
Proof.
  intros Hn. unfold js_tool_register_ext, tools_register. rewrite Hn. destruct (_ <=? _); [done|].
  by rewrite update_tool_last.
Qed.

Lemma lookup_none_names reg name : tools_lookup reg name = None <-> name ∉ map te_name reg.
Proof.
  unfold tools_lookup. induction reg as [|e reg IH]; cbn; [split; [intros _ H; by apply elem_of_nil in H|done]|].
  unfold streq in *. destruct (bool_decide (te_name e = name)) eqn:E.
  - apply bool_decide_eq_true in E. split; [done|]. intros H. exfalso. apply H. rewrite E. left.
  - apply bool_decide_eq_false in E. rewrite IH, not_elem_of_cons. split; [by intros H; split; [congruence|]|tauto].
Qed.

(** What one row adds. *)
Definition loaded_from (c : Catalog) (t : ToolRow) (e : ToolEntry) : Prop :=
  exists path, tr_path t = Some path /\ extension_path_in_store (ct_dbfile c) path = true /\
    e = ext_entry (tr_name t) (tr_description t) (Some (default (bs "{}") (tr_parameters t))) path (tr_policy t).

Lemma load_one c reg t :
  load_extension_tool c reg t = reg \/
  tools_lookup reg (tr_name t) = None /\ zlen reg < TOOLS_MAX /\
  exists e, loaded_from c t e /\ load_extension_tool c reg t = reg ++ [e].
Proof.
  unfold load_extension_tool. destruct (tr_path t) as [path|] eqn:Ep; [|by left].
  destruct (extension_path_in_store (ct_dbfile c) path) eqn:Es; cbn [negb]; [|by left].
  destruct (tools_lookup reg (tr_name t)) eqn:El; [by left|]. rewrite register_new by done.
  destruct (TOOLS_MAX <=? zlen reg) eqn:Em; [by left|]. right. split; [done|]. split; [lia|].
  eexists. split; [|done]. by exists path.
Qed.

Lemma load_one_has c reg t path :
  tr_path t = Some path -> extension_path_in_store (ct_dbfile c) path = true ->
  (exists e, tools_lookup (load_extension_tool c reg t) (tr_name t) = Some e) \/ TOOLS_MAX <= zlen reg.
Proof.
  intros Hp Hs. unfold load_extension_tool. rewrite Hp, Hs. cbn [negb].
  destruct (tools_lookup reg (tr_name t)) as [e|] eqn:El; [left; by exists e|]. rewrite register_new by done.
  destruct (TOOLS_MAX <=? zlen reg) eqn:Em; [right; lia|]. left. cbn [snd]. eexists. rewrite find_tool_app, El. cbn.
  unfold streq. by rewrite bool_decide_true.
Qed.

(** The loop, over any rows. *)
Definition load_rows (c : Catalog) (rows : list ToolRow) (reg : list ToolEntry) : list ToolEntry :=
  fold_left (load_extension_tool c) rows reg.

Lemma load_rows_adds c rows reg :
  exists new, load_rows c rows reg = reg ++ new /\
    (NoDup (map te_name reg) -> NoDup (map te_name (reg ++ new))) /\
    (new = [] \/ zlen (reg ++ new) <= TOOLS_MAX) /\
    Forall (fun e => exists t, t ∈ rows /\ loaded_from c t e) new.
Proof.
  revert reg. induction rows as [|t rows IH]; intros reg; cbn.
  - exists []. rewrite app_nil_r. split_all; auto.
  - assert (Hw : forall new, Forall (fun e => exists t0, t0 ∈ rows /\ loaded_from c t0 e) new ->
        Forall (fun e => exists t0, t0 ∈ t :: rows /\ loaded_from c t0 e) new).
    { intros new Hf. eapply Forall_impl; [exact Hf|]. intros e (t0 & Ht & Hl). exists t0. split; [by right|done]. }
    destruct (load_one c reg t) as [->|(Hn & Hz & e & Hl & ->)].
    + destruct (IH reg) as (new & E & Hd & Hm & Hf). exists new. split_all; auto.
    + destruct (IH (reg ++ [e])) as (new & E & Hd & Hm & Hf). exists (e :: new).
      rewrite <- app_assoc in E, Hd, Hm. cbn [app] in E, Hd, Hm. split; [done|].
      assert (Hname : te_name e = tr_name t) by (destruct Hl as (? & _ & _ & ->); done). split_all.
      * intros Hr. apply Hd. rewrite map_app. apply NoDup_app. split; [done|]. split.
        -- intros x Hx Hx'. cbn in Hx'. apply list_elem_of_singleton in Hx' as ->. rewrite Hname in Hx.
           by apply (lookup_none_names reg (tr_name t)) in Hn.
        -- apply NoDup_singleton.
      * right. destruct Hm as [->|]; [rewrite zlen_app; change (zlen [e]) with 1; lia|done].
      * apply Forall_cons. split; [|by apply Hw]. exists t. split; [left|done].
Qed.

Lemma load_rows_keep c rows reg name e : tools_lookup reg name = Some e -> tools_lookup (load_rows c rows reg) name = Some e.
Proof. intros Hl. destruct (load_rows_adds c rows reg) as (new & -> & _). by rewrite find_tool_app, Hl. Qed.

Lemma load_rows_len c rows reg : zlen reg <= zlen (load_rows c rows reg).
Proof. destruct (load_rows_adds c rows reg) as (new & -> & _). rewrite zlen_app. pose proof (zlen_nonneg new). lia. Qed.

Lemma load_rows_has c rows reg t path :
  t ∈ rows -> tr_path t = Some path -> extension_path_in_store (ct_dbfile c) path = true ->
  (exists e, tools_lookup (load_rows c rows reg) (tr_name t) = Some e) \/ TOOLS_MAX <= zlen (load_rows c rows reg).
Proof.
  intros Hin Hp Hs. revert reg. induction rows as [|r rows IH]; intros reg; [by apply elem_of_nil in Hin|].
  cbn. apply elem_of_cons in Hin as [<-|Hin]; [|by apply IH].
  destruct (load_one_has c reg t path Hp Hs) as [[e He]|Hm].
  - left. exists e. by apply load_rows_keep.
  - right. pose proof (load_rows_len c rows (load_extension_tool c reg t)). unfold load_rows in *.
    destruct (load_one c reg t) as [E|(_ & Hz & _)]; [rewrite E in *; lia|lia].
Qed.

(** A path of the store lies strictly below its root and does not climb. *)
Lemma in_store_spec dbfile path :
  extension_path_in_store dbfile path = true ->
  exists root rest, store_root dbfile = Some root /\ path = root ++ rest /\ rest <> [] /\
    ~ occurs (bs "/../") path /\ drop (length path - 3) path <> bs "/..".
Proof.
  unfold extension_path_in_store. destruct path as [|c p] eqn:E; [done|]. rewrite <- E.
  destruct (store_root dbfile) as [root|]; [|done]. rewrite !andb_true_iff. intros ((((_ & Hp) & Hs) & Hd) & Hl).
  apply Nat.ltb_lt in Hl. apply starts_with_spec in Hp as [rest Hr]. exists root, rest. split; [done|]. split; [done|].
  split; [intros ->; rewrite app_nil_r in Hr; subst root; lia|]. split.
  - intros Ho. unfold has_sub in Hs. destruct (strstr path (bs "/../")) eqn:Eo; [done|]. by apply strstr_occurs in Eo.
  - intros He. assert (length (drop (length path - 3) path) = 3)%nat as Hn by (by rewrite He). rewrite length_drop in Hn.
    rewrite He in Hd. unfold streq in Hd. rewrite bool_decide_true in Hd by done. unfold zlen in Hd.
    replace (3 <=? Z.of_nat (length path)) with true in Hd by lia. done.
Qed.

(** ** Capabilities *)
Lemma caps_grow_all alloc cap arr items :
  caps_grow alloc cap arr items = arr ++ items \/ caps_grow alloc cap arr items = [].
Proof.
  revert cap arr. induction items as [|i items IH]; intros cap arr; cbn; [left; by rewrite app_nil_r|].
  destruct (cap <=? zlen arr); [destruct (alloc _); [|by right]; destruct (IH (cap * 2) (arr ++ [i])) as [-> | ->]
                               |destruct (IH cap (arr ++ [i])) as [-> | ->]].
  all: first [by right | left; by rewrite <- app_assoc].
Qed.

Lemma caps_grow_ok alloc cap arr items : (forall n, alloc n = true) -> caps_grow alloc cap arr items = arr ++ items.
Proof.
  intros Ha. revert cap arr. induction items as [|i items IH]; intros cap arr; cbn; [by rewrite app_nil_r|].
  rewrite Ha. by destruct (_ <=? _); rewrite IH, <- app_assoc.
Qed.

(** What the refresh may leave of a kind of grants: all the live ones or none. *)
Lemma caps_load_exact alloc w a k :
  (caps_load_kind alloc w a k = live_grants w a k \/ caps_load_kind alloc w a k = []) /\
  ((forall n, alloc n = true) -> caps_load_kind alloc w a k = live_grants w a k).
Proof.
  unfold caps_load_kind. destruct (live_grants w a k) as [|g gs]; [split; [by left|done]|]. split.
  - destruct (alloc 64); [|by right]. destruct (caps_grow_all alloc 8 [] (g :: gs)) as [-> | ->]; [by left|by right].
  - intros Ha. rewrite Ha. by rewrite caps_grow_ok.
Qed.

(** The containment one context has, whatever context it is. *)
Definition contained (s : AgentSetup) (b : Base) (profile : option cstring) (caps : AgentCaps) (workspace : cstring) : Prop :=
  b_sb b = (let p := sandbox_profile_resolve profile in
            mk_profile (sb_sandbox p) (sb_env_mode p) (sb_net_mode p) (sb_mount_cwd p) (sb_nproc p) (sb_as_mb p) (sb_cpu_sec p)
              (cap_read caps) (cap_write caps)) /\
  ws_text s (b_workspace b) = Some workspace.

Lemma column_bind (o : option AgentRow) (f : AgentRow -> option cstring) n :
  match o with Some r => snprintf n (default [] (f r)) | None => [] end = snprintf n (default [] (o ≫= f)).
Proof. destruct o; [done|]. change ([] = take (n - 1) ([] : cstring)). by rewrite take_nil. Qed.

Tactic Notation "setup_cbn" := cbn [su_reg su_caps su_profile_buf su_shell_buf su_profile_env su_shell_env su_agents_dir su_workspace_buf su_pinned
  su_file su_js su_web su_shell su_ext_ws su_cron_ws su_ctx su_secrets f_base js_base js_hosts js_host_mode js_profile wf_base wf_hosts
  wf_host_mode sc_base sc_hosts sc_timeout sc_shell_path sc_secrets base_sb base_ws base_paths b_workspace b_cwd_path b_db_path b_sb].

(** (C17) Before every batch of calls the one setup of the process is bound to the agent that advances: each of the four tool contexts has that agent's own workspace, the profile of its row (the standard one when it names no other), and its live path and host grants, exactly or, when memory fails, none, so that nothing of the agent that ran before stays in force. *)
Theorem refresh_follows_agent alloc c w a s :
  su_pinned s = false -> su_profile_env s = false -> su_shell_env s = false -> has_shell (su_reg s) = true ->
  agent_component a = true -> (length (agent_workspace (su_agents_dir s) a) < PATH_MAX)%nat ->
  let s' := agent_setup_refresh_caps alloc c w (Some a) s in
  let caps := su_caps s' in
  let row := List.find (fun r => streq (ag_name r) a) (ct_agents c) in
  let profile := buf_str (snprintf 32 (default [] (row ≫= ag_profile))) in
  let ok b := contained s' b profile caps (agent_workspace (su_agents_dir s) a) in
  (ok (f_base (su_file s')) /\ ok (js_base (su_js s')) /\ ok (wf_base (su_web s')) /\ ok (sc_base (su_shell s'))) /\
  js_hosts (su_js s') = cap_hosts caps /\ wf_hosts (su_web s') = cap_hosts caps /\ sc_hosts (su_shell s') = cap_hosts caps /\
  sc_shell_path (su_shell s') = buf_str (snprintf 256 (default [] (row ≫= ag_shell))) /\
  Forall (fun kl : cstring * list cstring =>
            (snd kl = live_grants w a (fst kl) \/ snd kl = []) /\ ((forall n, alloc n = true) -> snd kl = live_grants w a (fst kl)))
    [(bs "host", cap_hosts caps); (bs "read_path", cap_read caps); (bs "write_path", cap_write caps)].
Proof.
  intros Hp He Hs Hsh Hc Hl. cbn zeta.
  destruct s as [reg oc pb sb pe se dir buf pin [fb] [jb jh jm jp] [wb wh wm] [sc sh st sp ss] ew cw cx sec]. cbn [su_pinned su_profile_env su_shell_env su_reg su_agents_dir] in *. subst.
  unfold agent_setup_refresh_caps, containment_refresh. setup_cbn. rewrite Hsh. setup_cbn.
  unfold workspace_refresh. setup_cbn. rewrite Hc, Hsh. cbn [orb negb].
  replace (PATH_MAX <=? _)%nat with false by (symmetry; apply Nat.leb_gt; exact Hl). setup_cbn. rewrite ?Hsh.
  unfold bind_caps. setup_cbn. rewrite Hsh. setup_cbn. unfold contained, ws_text, agents_column. setup_cbn.
  rewrite !column_bind.
  split_all; try reflexivity.
  all: apply Forall_cons; (split; [apply caps_load_exact|]); apply Forall_cons; (split; [apply caps_load_exact|]);
    apply Forall_cons; (split; [apply caps_load_exact|done]).
Qed.

(** Loading an agent's extension tools only adds to the registry, never beyond its capacity and never a second entry of a name; every entry added runs a handler file strictly below the shared store, in the JavaScript sandbox, from an enabled row of an extension the agent has attached and enabled and that is published or its own; and every such row has its entry unless the registry is full. *)
Theorem extension_tools_confined c reg a :
  let reg' := tools_load_extension_tools c reg (Some a) in
  exists new, reg' = reg ++ new /\ (NoDup (map te_name reg) -> NoDup (map te_name reg')) /\ (new = [] \/ zlen reg' <= TOOLS_MAX) /\
  Forall (fun e => te_recipe e = js_recipe /\
    exists t x path root rest, t ∈ ct_tools c /\ tr_name t = te_name e /\ tr_policy t = te_policy e /\ tr_enabled t = true /\
      tr_extension t = Some x /\ visible c a x = true /\
      js_tool_resolve_request e = Some (Some path) /\ tr_path t = Some path /\ store_root (ct_dbfile c) = Some root /\
      path = root ++ rest /\ rest <> [] /\ ~ occurs (bs "/../") path) new /\
  (forall t path, t ∈ extension_rows c a -> tr_path t = Some path -> extension_path_in_store (ct_dbfile c) path = true ->
     (exists e, tools_lookup reg' (tr_name t) = Some e) \/ TOOLS_MAX <= zlen reg').
Proof.
  cbn zeta. unfold tools_load_extension_tools. change (fold_left (load_extension_tool c)) with (load_rows c).
  destruct (load_rows_adds c (extension_rows c a) reg) as (new & E & Hd & Hm & Hf). exists new. rewrite E.
  split; [done|]. split; [done|]. split; [done|]. split.
  - eapply Forall_impl; [exact Hf|]. intros e (t & Ht & path & Hp & Hs & ->). split; [done|].
    apply list_elem_of_In, filter_In in Ht as [Ht Hv]. destruct (tr_extension t) as [x|] eqn:Ex; [|done]. rewrite Hp in Hv.
    apply andb_prop in Hv as [Hv He]. apply in_store_spec in Hs as (root & rest & H1 & H2 & H3 & H4 & _).
    exists t, x, path, root, rest. rewrite <- list_elem_of_In in Ht. split_all; done.
  - rewrite <- E. intros t path. apply load_rows_has.
Qed.

(** What the registry already holds is not read again: neither a disabled row nor a new
    policy of a promoted tool changes its entry. *)
Lemma reload_keeps_entry c reg agent name e :
  tools_lookup reg name = Some e -> tools_lookup (tools_load_extension_tools c reg agent) name = Some e.
Proof. destruct agent; [apply load_rows_keep|done]. Qed.

(** ** Examples *)
Definition demo_policy_tool : ToolRow :=
  mk_trow (bs "quote") (Some (bs "stocks")) None None (Some (bs "/home/u/.cclaw/extensions/stocks/quote.qjs")) true None None.
Definition demo_catalog (t : ToolRow) : Catalog :=
  mk_catalog [mk_arow (bs "Ada") (Some (bs "restricted")) None 25; mk_arow (bs "Bob") None None 0] [t]
    [mk_aext (bs "Ada") (bs "stocks") true] [mk_ext (bs "stocks") (Some (bs "Ada")) false] (Some (bs "/home/u/.cclaw/cclaw.db")).
Definition demo_shell_entry : ToolEntry :=
  mk_tool (bs "shell_exec") None None None H_stub UShell (mk_recipe EXEC_SANDBOX SBX_SHELL false false true true NULL_NONE).
Definition demo_base : Base := mk_base (WsCfg (Some (bs "/w"))) None (Some (bs "/home/u/.cclaw/cclaw.db")) (sandbox_profile_resolve None).
Definition demo_setup : AgentSetup :=
  mk_setup [demo_shell_entry] (mk_caps [bs "old.example"] [] [] []) [] [] false false (bs "/home/u/.cclaw/agents") [] false
    (mk_file demo_base) (mk_js demo_base [bs "old.example"] false None) (mk_web demo_base [bs "old.example"] false)
    (mk_shell demo_base [bs "old.example"] 30 None []) (WsCfg None) (WsCfg None) (fun _ => mk_hctx 0 None None) [].

(** A tool whose row gets a policy after it was loaded keeps the entry without one, and
    a disabled row keeps its entry. *)
Definition denied (t : ToolRow) : ToolRow :=
  mk_trow (tr_name t) (tr_extension t) (tr_description t) (tr_parameters t) (tr_path t) false (Some (bs "[{'effect':'deny'}]")) (tr_egress t).

Example stale_registry_entry :
  let reg := tools_load_extension_tools (demo_catalog demo_policy_tool) [demo_shell_entry] (Some (bs "Ada")) in
  let reg' := tools_load_extension_tools (demo_catalog (denied demo_policy_tool)) reg (Some (bs "Ada")) in
  option_map te_policy (tools_lookup reg' (bs "quote")) = Some None /\
  tools_lookup (tools_load_extension_tools (demo_catalog (denied demo_policy_tool)) [demo_shell_entry] (Some (bs "Ada"))) (bs "quote") = None.
Proof. by vm_compute. Qed.

(** ** Witnesses *)
Definition demo_grants : World :=
  mk_world (mk_store 100 [] [] 1 [] 1 [] [] 1 [] [] [] [] [] [] []) []
    [mk_grant (bs "Ada") (bs "host") (bs "api.example") TOOL_MODE_SILENT None;
     mk_grant (bs "Ada") (bs "host") (bs "gone.example") TOOL_MODE_SILENT (Some 90);
     mk_grant (bs "Bob") (bs "host") (bs "bob.example") TOOL_MODE_SILENT None] [] [] [] [] [] [] None.

Lemma refresh_follows_agent_witness :
  let s' := agent_setup_refresh_caps (fun _ => true) (demo_catalog demo_policy_tool) demo_grants (Some (bs "Ada")) demo_setup in
  wf_hosts (su_web s') = [bs "api.example"] /\ sb_net_mode (b_sb (sc_base (su_shell s'))) = 1 /\
  ws_text s' (b_workspace (js_base (su_js s'))) = Some (bs "/home/u/.cclaw/agents/Ada/workspace").
Proof.
  pose proof (refresh_follows_agent (fun _ => true) (demo_catalog demo_policy_tool) demo_grants (bs "Ada") demo_setup
    eq_refl eq_refl eq_refl eq_refl eq_refl ltac:(apply Nat.ltb_lt; vm_compute; reflexivity)) as H.
  cbn zeta in H. destruct H as ((_ & [_ Hj] & _ & [Hs _]) & _ & Hw & _ & _ & Hk).
  apply Forall_cons in Hk as [[_ Hk] _]. specialize (Hk (fun _ => eq_refl)). cbn [fst snd] in Hk.
  cbn zeta. rewrite Hw, Hk, Hs, Hj. by vm_compute.
Defined.
