(* ===== verification/ToolRequest.v ===== *)
(** * The request of one call: src/tool_args.c, the tiers of dispatch_tool_inner in src/dispatch.c

    What the daemon sends the child of a file, shell, web or JavaScript call: the
    arguments taken apart by the tool's schema, the secrets put in their place, the
    sandbox profile and paths of the context, the egress of the call, and the timeouts.
    The request is serialised by [Wire]. *)
From S2P Require Import Prelude CString Libc SecretInterp Json1 Config Store Approval Resolve Gate Ingest Wire Setup.

(** ** Typed accessors: src/tool_args.c *)
Section ToolRequest.
Context {J : Json1}.

(** SQLite's [CAST(x AS INTEGER)] of a number's text, as text. *)
Variable cast_integer : cstring -> cstring.

Definition tool_args_int (args : option cstring) (key : cstring) (def : Z) : Z :=
  match args with
  | Some a => match at_key a key with Some (JNum n) => atoi (cast_integer n) | _ => def end
  | None => def
  end.

Definition tool_call_timeout (args : option cstring) (def : Z) : Z :=
  tool_timeout_clamp (tool_args_int args (bs "timeout") def) def.

(** ** The arguments on the wire *)
Variable alloc : Z -> bool.

(** Appending to an array that doubles from eight slots of [size] bytes. *)
Definition room (size used need cap : Z) : option Z :=
  if cap <? used + need then
    let cap := if 0 <? cap then cap * 2 else 8 in
    if alloc (cap * size) then Some cap else None
  else Some cap.

(** The text at a key of an element, which is parsed again when it is a text. *)
Definition pair_text (d : Json) (key : cstring) : option cstring :=
  match match d with JText s => json_doc s | JObj _ | JArr _ => Some d | _ => None end with
  | Some d => match json_path d key with Some (Some (JText s)) => Some s | _ => None end
  | None => None
  end.

(** [json_each]: the elements of an array, the values of an object, a scalar itself. *)
Definition each_value (d : Json) : list Json :=
  match d with
  | JArr l => l
  | JObj kvs => map snd kvs
  | x => [x]
  end.

Fixpoint flatten_pairs (n cap : Z) (l : list Json) (acc : list (option cstring)) : option (list (option cstring)) :=
  match l with
  | [] => Some acc
  | d :: l =>
      match pair_text d (bs "oldText"), pair_text d (bs "newText") with
      | Some ot, Some nt =>
          match room 8 n 2 cap, strdup alloc ot, strdup alloc nt with
          | Some cap, Some o, Some nw => flatten_pairs (n + 2) cap l (acc ++ [Some o; Some nw])
          | _, _, _ => None
          end
      | _, _ => None
      end
  end.

Definition flatten_edit_pairs (args : Json) : option (list (option cstring)) :=
  match json_path args (bs "edits") with
  | Some (Some d) => flatten_pairs 0 0 (each_value d) []
  | Some None => Some []
  | None => None
  end.

(** A row of the walk: the key, [None] for a scalar's, and the value at it. *)
Definition value_text (d : Json) : cstring :=
  match d with
  | JText s => s
  | JBool b => if b then bs "1" else bs "0"
  | JNull => []
  | _ => json_extract_text d
  end.

Definition value_kind (d : Json) : Z := match d with JObj _ | JArr _ => TOOL_ARG_JSON | _ => TOOL_ARG_TEXT end.

Definition wire_arg (tool : option cstring) (args : Json) (key : cstring) (d : Json) : option ToolWireArg :=
  match strdup alloc key with
  | None => None
  | Some key =>
      if bool_decide (tool = Some (bs "file_edit")) && streq key (bs "edits") then
        option_map (fun l => mk_warg (Some key) TOOL_ARG_LIST None l) (flatten_edit_pairs args)
      else option_map (fun v => mk_warg (Some key) (value_kind d) (Some v) []) (strdup alloc (value_text d))
  end.

(** The keys of the walk, [None] for a scalar: the declared properties, or with no schema
    those of the arguments.  [None] when a function raises. *)
Definition walk_keys (schema : option cstring) (args : Json) : option (list (option cstring)) :=
  let keys d := match d with
                | JObj kvs => map (fun kv => Some (fst kv)) kvs
                | JArr l => imap (fun i _ => Some (print_int (Z.of_nat i))) l
                | _ => [None]
                end in
  match schema with
  | None => Some (keys args)
  | Some s =>
      match json_doc s with
      | None => None
      | Some d => match json_path d (bs "properties") with
                  | None => None
                  | Some None => Some []
                  | Some (Some p) => Some (keys p)
                  end
      end
  end.

(** [json_type(args, '$.'||key)] is NULL for a NULL key: the row of a scalar schema is
    filtered out, that of scalar arguments cannot be. *)
Fixpoint extract_loop (tool : option cstring) (args : Json) (n cap : Z) (keys : list (option cstring)) (acc : list ToolWireArg)
    : option (list ToolWireArg) :=
  match keys with
  | [] => Some acc
  | None :: keys => extract_loop tool args n cap keys acc
  | Some key :: keys =>
      match json_path args key with
      | None => None
      | Some None | Some (Some JNull) => extract_loop tool args n cap keys acc
      | Some (Some d) =>
          match room 40 n 1 cap with
          | None => None
          | Some cap => match wire_arg tool args key d with
                        | Some w => extract_loop tool args (n + 1) cap keys (acc ++ [w])
                        | None => None
                        end
          end
      end
  end.

(** [None] is -1. *)
Definition tool_args_extract (tool schema args : option cstring) : option (list ToolWireArg) :=
  match args with
  | None => None
  | Some a =>
      if negb (tool_args_valid_object args) then None
      else match json_doc a with
           | Some d => match walk_keys schema d with
                       | Some keys => extract_loop tool d 0 0 keys []
                       | None => None
                       end
           | None => None
           end
  end.

(** ** Secrets *)
Definition with_value (v : cstring) (p : ToolWireArg) : ToolWireArg := mk_warg (wa_key p) (wa_kind p) (Some v) (wa_list p).

Definition wire_params_interpolate (params : list ToolWireArg) (secrets : list ShellSecret) : list ToolWireArg :=
  match secrets with
  | [] => params
  | _ =>
      map (fun p =>
        if wa_kind p =? TOOL_ARG_LIST then p
        else match wa_value p with
             | None => p
             | Some v => match secret_interpolate alloc (Some v) secrets with
                         | Some (Some v) => with_value v p
                         | _ => p
                         end
             end) params
  end.

(** The first placeholder that names no loaded secret. *)
Definition unknown_secret_name (args : option cstring) (secrets : list ShellSecret) : option cstring :=
  match secret_placeholder_names alloc args with
  | None => None
  | Some names => hd_error (List.filter (fun n => negb (existsb (fun s => streq n (s_name s)) secrets) && alloc (zlen n + 1)) names)
  end.

(** *** The secrets a command names: src/tool_shell.c *)
Definition is_ident (c : Z) : bool := is_alnum c || (c =? "_"%char).

(** The search restarts after the token, with the byte before it at hand. *)
Fixpoint token_in (fuel : nat) (before : Z) (p tok : cstring) : bool :=
  match fuel with
  | O => false
  | S fuel =>
      match strstr p tok with
      | None => false
      | Some n =>
          let b := if (n =? 0)%nat then before else deref (drop (n - 1) p) in
          let rest := drop (n + length tok) p in
          if negb (is_ident b) && negb (is_ident (deref rest)) then true
          else token_in fuel (deref (drop (n + length tok - 1) p)) rest tok
      end
  end.

Definition secret_token (name : cstring) : cstring := bs "CCLAW_SECRET_" ++ name.

Definition names_secret (cmd : cstring) (s : ShellSecret) : bool :=
  (zlen (secret_token (s_name s)) <? 256) && token_in (S (length cmd)) 0 cmd (secret_token (s_name s)).

Definition shell_filter_secrets (cmd : option cstring) (all : list ShellSecret) : list RunToolSecret :=
  match cmd with
  | None | Some [] => []
  | Some cmd =>
      if alloc (24 * zlen all) then
        map (fun s => mk_rsecret (Some (s_name s)) (s_value s) None) (List.filter (names_secret cmd) all)
      else []
  end.

(** ** Directories *)

(** [PATH_MAX] buffers; the three loops that trim the workspace, on its reversal. *)
Fixpoint trim_slashes (r : cstring) : cstring :=
  match r with
  | c :: ((_ :: _) as r') => if c =? "/"%char then trim_slashes r' else r
  | _ => r
  end.
Fixpoint drop_component (r : cstring) : cstring :=
  match r with [] => [] | c :: r' => if c =? "/"%char then r else drop_component r' end.

Definition agent_dir_resolve (workspace db_path : option cstring) (cap : nat) : cstring :=
  let from_db :=
    match db_path with
    | Some ((_ :: _) as db) =>
        match before_slash db with
        | Some d => let p := d ++ bs "/agents" in if (length p <? cap)%nat then p else snprintf cap (bs ".cclaw/agents")
        | None => snprintf cap (bs ".cclaw/agents")
        end
    | _ => snprintf cap (bs ".cclaw/agents")
    end in
  match workspace with
  | Some ((_ :: _) as ws) =>
      let r := trim_slashes (drop_component (trim_slashes (rev ws))) in
      if (1 <? length r)%nat && (length r <? cap)%nat then rev r else from_db
  | _ => from_db
  end.

(** What the file system and the process's environment answer: [ho_owned p]: [p] is made
    or is a directory of mode 0700 of this user; [ho_is_dir]: [stat]. *)
Record Host := mk_host {
  ho_uid : Z; ho_owned : cstring -> bool; ho_is_dir : cstring -> bool; ho_home : option cstring; ho_workspace : option cstring
}.

(** A path one level up is owned before it is used. *)
Definition scratch_dir_ensure (h : Host) (agent root : option cstring) (cap : nat) : option cstring :=
  let root := match root with Some ((_ :: _) as r) => r | _ => bs "/tmp" end in
  let agent := match agent with Some a => if agent_component a then a else bs "default" | None => bs "default" end in
  let base := root ++ bs "/cclaw-" ++ print_int (ho_uid h) in
  let path := base ++ bs "/" ++ agent in
  if negb (length base <? PATH_MAX)%nat || negb (ho_owned h base) then None
  else if negb (length path <? cap)%nat || negb (ho_owned h path) then None
  else Some path.

(** The store next to the database, when it is there. *)
Definition store_dir (h : Host) (db_path : option cstring) : list cstring :=
  match db_path with
  | Some ((_ :: _) as db) =>
      match before_slash (snprintf (PATH_MAX - 16) db) with
      | Some d => let p := d ++ bs "/extensions" in if ho_is_dir h p then [p] else []
      | None => []
      end
  | _ => []
  end.

(** *** The directories of skills: src/skills.c *)
Definition expand_tilde (h : Host) (path : cstring) : option cstring :=
  let tilde := starts_with (bs "~/") path || streq path (bs "~") in
  match ho_home h with
  | Some ((_ :: _) as home) =>
      if tilde then if alloc (zlen home + zlen path) then Some (home ++ drop 1 path) else None else strdup alloc path
  | _ => strdup alloc path
  end.

(** Configured directories in order, while the array grows: [slots] is its size, [cap]
    what the code holds it to be. *)
Fixpoint skill_dirs_loop (h : Host) (slots cap : Z) (items : list Json) (acc : list cstring) : Z * Z * list cstring :=
  match items with
  | [] => (slots, cap, acc)
  | d :: items =>
      match value_text d with
      | [] => skill_dirs_loop h slots cap items acc
      | v => match expand_tilde h v with
             | None => skill_dirs_loop h slots cap items acc
             | Some full =>
                 if negb (ho_is_dir h full) then skill_dirs_loop h slots cap items acc
                 else if zlen acc =? cap then
                   if alloc (cap * 2 * 8) then skill_dirs_loop h (cap * 2) (cap * 2) items (acc ++ [full]) else (slots, cap * 2, acc)
                 else skill_dirs_loop h slots cap items (acc ++ [full])
             end
      end
  end.

(** The agent's own directory comes last.  [None]: it is written past the array. *)
Definition skills_dirs_resolve (h : Host) (skills_dirs : option cstring) (agents_dir : cstring) (agent : option cstring)
    : option (list cstring) :=
  if negb (alloc 32) then Some []
  else
    let items := match skills_dirs with
                 | Some ((_ :: _) as l) => match json_doc l with Some d => each_value d | None => [] end
                 | _ => []
                 end in
    let '(slots, cap, dirs) := skill_dirs_loop h 4 4 items [] in
    match agent with
    | None => Some dirs
    | Some a =>
        let path := agents_dir ++ bs "/" ++ a ++ bs "/skills" in
        if negb (length path <? PATH_MAX)%nat || negb (ho_is_dir h path) then Some dirs
        else
          let (slots, cap) := if zlen dirs =? cap then (if alloc (cap * 2 * 8) then cap * 2 else slots, cap * 2) else (slots, cap) in
          if zlen dirs <? cap then if zlen dirs <? slots then Some (dirs ++ [path]) else None else Some dirs
    end.

(** ** The request *)

(** [run_tool_req_init] of src/run_tool.c, and the fields a tier sets after it. *)
Definition tier_request (tier : Z) (tool : cstring) (b : Base) (ws tmp : option cstring) (read : list cstring)
    (agent_dir : option cstring) (egress : option CallEgress) (command shell : option cstring) (timeout : Z)
    (secrets : list RunToolSecret) (params : list ToolWireArg) (spill llm : option cstring) : RunToolReq :=
  let p := b_sb b in
  mk_req tier (Some tool) (sb_env_mode p) (sb_nproc p) (sb_as_mb p) (sb_cpu_sec p) (sb_sandbox p) (sb_net_mode p)
    ws (b_cwd_path b) (b_db_path b) (sb_mount_cwd p) tmp (map Some read) (map Some (sb_write_paths p)) agent_dir
    (match egress with Some e => map Some (eg_hosts e) | None => [] end)
    (match egress with Some e => map Some (eg_deny e) | None => [] end)
    command shell timeout secrets params (egress ≫= eg_note) spill llm.

Definition RUNTOOL_TIER_FILE : Z := 0.
Definition RUNTOOL_TIER_SHELL : Z := 1.
Definition RUNTOOL_TIER_WEB : Z := 2.
Definition RUNTOOL_TIER_JS : Z := 3.
Definition WEB_FETCH_DEFAULT_TIMEOUT : Z := 60.
Definition JSEVAL_DEFAULT_TIMEOUT : Z := 120.

(** The read paths of a file call; without memory, those of the grants. *)
Definition file_read_paths (b : Base) (extra : list cstring) : list cstring :=
  let all := sb_read_paths (b_sb b) ++ extra in
  if alloc (8 * zlen all) then all else sb_read_paths (b_sb b).

(** The same of a JavaScript call; without memory, none. *)
Definition js_read_paths (b : Base) (store : list cstring) : list cstring :=
  let all := sb_read_paths (b_sb b) ++ store in
  if alloc (8 * zlen all) then all else [].

(** The secrets of a JavaScript call, each with the hosts it is bound to. *)
Definition js_secrets (w : World) (secrets : list ShellSecret) : list RunToolSecret :=
  if alloc (24 * zlen secrets) && alloc (8 * zlen secrets) then
    map (fun s => mk_rsecret (Some (s_name s)) (s_value s)
                    (match db_secret_hosts w (s_name s) with
                     | [] => None
                     | h :: hs => Some (h ++ flat_map (fun x => 32 :: x) hs)
                     end)) secrets
  else [].
End ToolRequest.

(** ** Examples *)

(** Four configured directories fill the array, and it cannot grow for the agent's own. *)
Definition skills_docs : Json1 := demo_json [(bs "l", JArr (map (fun s => JText (bs s)) ["/a"; "/b"; "/c"; "/d"]%string))].
Definition skills_host : Host := mk_host 1000 (fun _ => true) (fun _ => true) None None.
Definition demo_skills (alloc : Z -> bool) : option (list cstring) :=
  @skills_dirs_resolve skills_docs alloc skills_host (Some (bs "l")) (bs "/home/u/agents") (Some (bs "Ada")).

Example skills_past_the_array :
  demo_skills (fun _ => true) = Some (map bs ["/a"; "/b"; "/c"; "/d"; "/home/u/agents/Ada/skills"]%string) /\
  demo_skills (fun n => n <? 64) = None.
Proof. split; reflexivity. Qed.
