(* ===== verification/Dispatch.v ===== *)
(** * Dispatching a tool call: dispatch_tool and its vehicles in src/dispatch.c

    One claimed call, from the registry through the gate to a result, a child, a thread
    or a park: [dispatch_tool] with the four sandbox tiers, the inline handlers, the
    background jobs and the threads, and the scripts of the scheduler.  The handlers of
    the inline tools are the interface [Handlers]. *)
From S2P Require Import Prelude CString Libc Cron CronJobs Codec SecretInterp Ingest Store Json1 Config Approval Resolve Gate Capture Wire ToolFrame Complete Setup ToolRequest.

(** ** The process *)

(** What a child was sent, by its pid; the threads in flight; the sockets of the bridges
    to the models, by the pid of their child. *)
Record ThreadJob := mk_job {
  tj_session : Z; tj_call : cstring; tj_name : cstring; tj_agent : cstring; tj_args : cstring; tj_iter : Z; tj_entry : Z
}.

Record Runtime := mk_rt {
  rt_world : World; rt_secrets : list SecretRow; rt_children : list ChildProc; rt_net : list (Z * cstring);
  rt_killed : list Z; rt_stalled : list Z; rt_setup : AgentSetup; rt_threads : list ThreadJob; rt_cards : list Card;
  rt_sent : list (Z * list Z); rt_bridges : list (Z * cstring)
}.

Definition r_world (w : World) (r : Runtime) : Runtime :=
  mk_rt w (rt_secrets r) (rt_children r) (rt_net r) (rt_killed r) (rt_stalled r) (rt_setup r) (rt_threads r) (rt_cards r) (rt_sent r) (rt_bridges r).
Definition r_children (c : list ChildProc) (r : Runtime) : Runtime :=
  mk_rt (rt_world r) (rt_secrets r) c (rt_net r) (rt_killed r) (rt_stalled r) (rt_setup r) (rt_threads r) (rt_cards r) (rt_sent r) (rt_bridges r).
Definition r_stalled (l : list Z) (r : Runtime) : Runtime :=
  mk_rt (rt_world r) (rt_secrets r) (rt_children r) (rt_net r) (rt_killed r) l (rt_setup r) (rt_threads r) (rt_cards r) (rt_sent r) (rt_bridges r).
Definition r_setup (s : AgentSetup) (r : Runtime) : Runtime :=
  mk_rt (rt_world r) (rt_secrets r) (rt_children r) (rt_net r) (rt_killed r) (rt_stalled r) s (rt_threads r) (rt_cards r) (rt_sent r) (rt_bridges r).
Definition r_threads (l : list ThreadJob) (r : Runtime) : Runtime :=
  mk_rt (rt_world r) (rt_secrets r) (rt_children r) (rt_net r) (rt_killed r) (rt_stalled r) (rt_setup r) l (rt_cards r) (rt_sent r) (rt_bridges r).
Definition r_cards (l : list Card) (r : Runtime) : Runtime :=
  mk_rt (rt_world r) (rt_secrets r) (rt_children r) (rt_net r) (rt_killed r) (rt_stalled r) (rt_setup r) (rt_threads r) l (rt_sent r) (rt_bridges r).
Definition r_sent (l : list (Z * list Z)) (r : Runtime) : Runtime :=
  mk_rt (rt_world r) (rt_secrets r) (rt_children r) (rt_net r) (rt_killed r) (rt_stalled r) (rt_setup r) (rt_threads r) (rt_cards r) l (rt_bridges r).
Definition r_bridges (l : list (Z * cstring)) (r : Runtime) : Runtime :=
  mk_rt (rt_world r) (rt_secrets r) (rt_children r) (rt_net r) (rt_killed r) (rt_stalled r) (rt_setup r) (rt_threads r) (rt_cards r) (rt_sent r) l.

Definition rt_store (r : Runtime) : Store := w_store (rt_world r).
Definition r_store (f : Store -> Store) (r : Runtime) : Runtime := r_world (on_store f (rt_world r)) r.

(** The part of the process the completion of a call works on. *)
Definition daemon_of (r : Runtime) : Daemon :=
  mk_daemon (rt_store r) (rt_secrets r) (rt_children r) (rt_net r) (rt_killed r) (rt_stalled r).
Definition with_daemon (d : Daemon) (r : Runtime) : Runtime :=
  mk_rt (on_store (fun _ => dm_store d) (rt_world r)) (dm_secrets d) (dm_children d) (dm_net d) (dm_killed d) (dm_stalled d)
    (rt_setup r) (rt_threads r) (rt_cards r) (rt_sent r) (rt_bridges r).

(** An inline handler, over its context and the arguments: its result ([None] is NULL),
    whether it failed, and what it left. *)
Class Handlers := { run_handler : cstring -> HandlerCtx -> option cstring -> Runtime -> option cstring * bool * Runtime }.

(** What the outside answers during one dispatch. *)
Record Outside := mk_outside {
  ou_writes : Writes; ou_hook : option (HookGate * option cstring); ou_finish : Finish; ou_spawn : SpawnEnv;
  ou_thread : bool; ou_bridge : option cstring; ou_log : bool; ou_host : Host
}.

Section Dispatch.
Context {J : Json1} `{Ingest} `{Secure} {Hs : Handlers}.
Context (alloc grow : Z -> bool) (ext : bool) (getenv secret_system : cstring -> option cstring) (env : Process)
  (cast_integer : cstring -> cstring) (group : list (cstring * option cstring) -> cstring).

(** The tables of the tools, which handlers change: read from the world when they are
    used.  [cfg_db]: the configured path of the database. *)
Context (catalog : World -> Catalog) (cfg_db : option cstring).

Definition Dispatched : Type := Z * Runtime.

(** ** Inline answers *)
Definition answer_inline (r : Runtime) (sid : Z) (tc : PendingToolCall) (msg : cstring) (is_error : bool) (detail : option cstring)
    : Dispatched := (1, r_world (inline_answer (rt_world r) sid tc msg is_error detail) r).

Definition tool_running (r : Runtime) (sid : Z) : Runtime := r_world (set_state env (rt_world r) sid ToolRunning) r.

(** ** The inline vehicle *)

(** The context an entry points to, bound to the session, the call and, for two of
    them, the agent. *)
Definition bind_ctx (k : CtxKind) (sid : Z) (call : cstring) (agent : option cstring) (c : HandlerCtx) : HandlerCtx :=
  match k with
  | LaunchCtx | ReqCfgCtx | BootstrapCtx | ExtToolCtx => mk_hctx sid (Some call) (hc_agent c)
  | CronCtx => mk_hctx sid (Some call) (Some (snprintf 64 (default [] agent)))
  | ChanSendCtx => mk_hctx sid (hc_call c) (Some (snprintf 64 (default [] agent)))
  | OtherCtx => c
  end.

Definition ctx_of (s : AgentSetup) (d : UserData) : HandlerCtx :=
  match d with UCtx k => su_ctx s k | _ => mk_hctx 0 None None end.

Definition bind_setup (d : UserData) (sid : Z) (call : cstring) (agent : option cstring) (s : AgentSetup) : AgentSetup :=
  match d with
  | UCtx k =>
      mk_setup (su_reg s) (su_caps s) (su_profile_buf s) (su_shell_buf s) (su_profile_env s) (su_shell_env s) (su_agents_dir s)
        (su_workspace_buf s) (su_pinned s) (su_file s) (su_js s) (su_web s) (su_shell s) (su_ext_ws s) (su_cron_ws s)
        (fun k' => if decide (k' = k) then bind_ctx k sid call agent (su_ctx s k) else su_ctx s k') (su_secrets s)
  | _ => s
  end.

(** The result of an inline tool: capture, the secrets loaded at dispatch, the observer
    hook, and the end of the call. *)
Definition inline_commit (v : Outside) (r : Runtime) (sid : Z) (tc : PendingToolCall) (secrets : list ShellSecret)
    (result : cstring) (is_err : bool) : Dispatched :=
  let (result, db) := secure_with secrets (rt_secrets r) (pc_args tc) result is_err in
  let result := default result (fst (fi_hook (ou_finish v))) in
  let (_, d) := tool_result_commit (ou_finish v) (d_secrets db (daemon_of r)) sid (pc_call tc) (pc_entry tc) (pc_iter tc)
                  (pc_name tc) result is_err None (snd (fi_hook (ou_finish v))) in
  (1, with_daemon d r).

Definition dispatch_inline (v : Outside) (r : Runtime) (sid : Z) (agent : option cstring) (tc : PendingToolCall) (te : ToolEntry)
    (secrets : list ShellSecret) : Dispatched :=
  let interp := if rc_needs_interp (te_recipe te) && negb (bool_decide (secrets = [])) then
                  match secret_interpolate alloc (pc_args tc) secrets with Some (Some i) => Some i | _ => None end
                else None in
  let r := r_setup (bind_setup (te_data te) sid (pc_call tc) agent (rt_setup r)) r in
  let '(result, is_err, r) :=
    run_handler (te_name te) (ctx_of (rt_setup r) (te_data te)) (match interp with Some i => Some i | None => pc_args tc end) r in
  match result with
  | Some result => inline_commit v r sid tc secrets result is_err
  | None =>
      match rc_null_kind (te_recipe te) with
      | NULL_ASYNC => (if rc_parallel_safe (te_recipe te) then 3 else 0, r)
      | NULL_PARK =>
          let (w, cards) := handle_approval_park getenv secret_system env (rt_world r) sid (Some (pc_call tc)) in
          (2, r_cards (rt_cards r ++ cards) (r_world w r))
      | NULL_NONE => inline_commit v r sid tc secrets (bs "error: tool returned null") true
      end
  end.

(** ** Background jobs *)

(** The slot of the child just spawned, the last of the table. *)
Definition last_child (f : ChildProc -> ChildProc) (r : Runtime) : Runtime :=
  match rev (rt_children r) with
  | c :: l => r_children (rev l ++ [f c]) r
  | [] => r
  end.

Definition as_background (log : bool) (c : ChildProc) : ChildProc :=
  let f := cp_frame c in
  mk_child (cp_pid c) (cp_type c) (cp_session_id c) (cp_agent_name c) (cp_tool_call_id c) (cp_tool_name c) (cp_tool_args c)
    (cp_iteration_id c) (cp_entry_id c) (cp_pipe c)
    (mk_frame (f_hdr f) (f_status f) (f_meta_len f) (f_meta_read f) (f_hosts f) (f_outbuf f) (if log then Some [] else f_log f))
    true (cp_cancelled c) (cp_deadline c) (cp_timeout_sec c) (cp_cron_job c) (cp_cron_prompt c).

(** The directory of a session's results. *)
Definition results_dir (h : Host) (w : World) (sid : Z) : cstring :=
  session_tmp_dir (ho_workspace h) (agent_dir_resolve None (ct_dbfile (catalog w)) PATH_MAX)
    (match get_session (w_store w) sid with Some s => x_agent s | None => None end) sid PATH_MAX.

Definition job_note (job : Z) (rel : cstring) : cstring :=
  snprintf 512
    (bs "job started (job_id=" ++ print_int job ++ bs ", log=" ++ match rel with [] => bs "(log unavailable)" | _ => rel end ++
     bs "). Output streams to the log " ++ EM_DASH ++
     bs " read or tail it for live progress (ps cannot see the job: it runs in its own PID namespace). The result arrives as a message when it finishes; check_session {" ++
     [34] ++ bs "job_id" ++ [34] ++ bs ":" ++ print_int job ++ bs "} shows status, cancel {" ++ [34] ++ bs "job_id" ++ [34] ++ bs ":" ++
     print_int job ++ bs "} stops it.").

Definition job_start (v : Outside) (r : Runtime) (sid : Z) (tc : PendingToolCall) : Dispatched :=
  let path := job_log_path_build (results_dir (ou_host v) (rt_world r) sid) (Some (pc_call tc)) (PATH_MAX + 64) in
  let rel := match path with Some p => job_log_rel sid (Some p) 128 | None => [] end in
  let r := last_child (as_background (match path with Some _ => ou_log v | None => false end)) r in
  let note := job_note (tool_call_rowid (rt_store r) sid (pc_call tc)) rel in
  (1, r_store (fun t =>
        let (_, t) := append_tool_result t sid (pc_call tc) note (pc_name tc) false (pc_iter tc) in
        snd (db_tool_call_set_status t sid (pc_call tc) CallBackground (Some (p_instance env)))) r).

(** ** The sandbox tiers *)
Definition scratch (v : Outside) (w : World) (agent : option cstring) : option cstring :=
  scratch_dir_ensure (ou_host v) agent (config_get getenv secret_system (w_config w) (bs "tmp_root")) PATH_MAX.

Definition spill_of (v : Outside) (w : World) (sid : Z) (tc : PendingToolCall) : option cstring :=
  spill_path_build (results_dir (ou_host v) w sid) (Some (pc_call tc)) (PATH_MAX + 64).

(** Serialise, spawn, and answer inline when one of them fails. *)
Definition launch (v : Outside) (r : Runtime) (sid : Z) (agent : option cstring) (tc : PendingToolCall) (q : RunToolReq) (timeout : Z)
    (too_big : cstring) : Dispatched * bool :=
  match run_tool_serialize_request alloc q with
  | None => (answer_inline r sid tc too_big true None, false)
  | Some blob =>
      let (t, c) := spawn_run_tool_child (ou_spawn v) (rt_children r) sid agent (pc_call tc) (pc_name tc) (pc_args tc) (pc_iter tc)
                      (pc_entry tc) timeout in
      match c with
      | None => (answer_inline r sid tc (bs "error: spawn_run_tool_child failed") true (Some (bs "fork_failed")), false)
      | Some c => ((0, r_sent (rt_sent r ++ [(cp_pid c, blob)]) (r_children t r)), true)
      end
  end.

(** [call_egress_build] for a call under the agent's grants. *)
Definition egress_of (w : World) (tool : cstring) (args exception_ : option cstring) (base : list cstring)
    (secrets : list ShellSecret) : CallEgress :=
  call_egress_build alloc grow ext w args exception_ (db_tool_declared_hosts alloc (catalog w) tool) base secrets.

Definition bad_args (r : Runtime) (sid : Z) (tc : PendingToolCall) : Dispatched :=
  answer_inline r sid tc (bs "error: invalid tool arguments") true (Some (bs "bad_args")).

(** A daemon without a configured database path has no store next to it. *)
Definition dispatch_file (v : Outside) (r : Runtime) (sid : Z) (agent : option cstring) (tc : PendingToolCall) (te : ToolEntry)
    (ws : cstring) : Dispatched :=
  let b := f_base (su_file (rt_setup r)) in
  let r := tool_running r sid in
  match tool_args_extract alloc (Some (pc_name tc)) (te_parameters te) (pc_args tc) with
  | None => bad_args r sid tc
  | Some params =>
      let w := rt_world r in
      let skills := default [] (skills_dirs_resolve alloc (ou_host v) (config_get getenv secret_system (w_config w) (bs "skills_dirs"))
                                  (agent_dir_resolve (Some ws) cfg_db PATH_MAX) agent) in
      let q := tier_request RUNTOOL_TIER_FILE (pc_name tc) b (Some ws) (scratch v w agent)
                 (file_read_paths alloc b (skills ++ store_dir (ou_host v) cfg_db)) None None None None 0 [] params
                 (spill_of v w sid tc) None in
      fst (launch v r sid agent tc q 120 (bs "error: file tool request exceeds 32KB cap"))
  end.

(** The timeout of a background job answers to the ceiling of the jobs. *)
Definition job_timeout (w : World) (args : option cstring) : Z :=
  let ceil := config_get_int getenv secret_system (w_config w) (bs "job_timeout_max") in
  let ceil := if ceil <=? 0 then 3600 else ceil in
  let raw := tool_args_int cast_integer args (bs "timeout") 600 in
  let raw := if raw <=? 0 then 600 else raw in
  if raw >? ceil then ceil else raw.

Definition dispatch_shell (v : Outside) (r : Runtime) (sid : Z) (agent : option cstring) (tc : PendingToolCall)
    (sens : option cstring) (background : bool) (secrets : list ShellSecret) (ws : cstring) : Dispatched :=
  let sc := su_shell (rt_setup r) in
  let r := tool_running r sid in
  match tool_args_str (pc_args tc) (bs "command") with
  | None => answer_inline r sid tc (bs "error: shell_exec requires a 'command' string argument") true None
  | Some command =>
      let w := rt_world r in
      let timeout := if background then job_timeout w (pc_args tc) else tool_call_timeout cast_integer (pc_args tc) (sc_timeout sc) in
      let resolved := match secrets with
                      | [] => command
                      | _ => match secret_interpolate alloc (Some command) secrets with Some (Some i) => i | _ => command end
                      end in
      let e := egress_of w (pc_name tc) (pc_args tc) sens (sc_hosts sc) secrets in
      let q := tier_request RUNTOOL_TIER_SHELL (pc_name tc) (sc_base sc) (Some ws) (scratch v w agent) (sb_read_paths (b_sb (sc_base sc)))
                 (Some (agent_dir_resolve (Some ws) (b_db_path (sc_base sc)) PATH_MAX)) (Some e) (Some resolved) (sc_shell_path sc)
                 timeout (shell_filter_secrets alloc (Some resolved) (sc_secrets sc)) [] (spill_of v w sid tc) None in
      let (d, spawned) := launch v r sid agent tc q (timeout + 30) (bs "error: shell request exceeds 32KB cap") in
      if spawned && background then job_start v (snd d) sid tc else d
  end.

Definition dispatch_web (v : Outside) (r : Runtime) (sid : Z) (agent : option cstring) (tc : PendingToolCall) (te : ToolEntry)
    (sens : option cstring) (secrets : list ShellSecret) : Dispatched :=
  let wc := su_web (rt_setup r) in
  let ws := ws_text (rt_setup r) (b_workspace (wf_base wc)) in
  let timeout := tool_call_timeout cast_integer (pc_args tc) WEB_FETCH_DEFAULT_TIMEOUT in
  let r := tool_running r sid in
  match tool_args_extract alloc (Some (pc_name tc)) (te_parameters te) (pc_args tc) with
  | None => bad_args r sid tc
  | Some params =>
      let w := rt_world r in
      let e := egress_of w (pc_name tc) (pc_args tc) sens (wf_hosts wc) secrets in
      let q := tier_request RUNTOOL_TIER_WEB (pc_name tc) (wf_base wc) ws (scratch v w agent) (sb_read_paths (b_sb (wf_base wc)))
                 (Some (agent_dir_resolve ws (b_db_path (wf_base wc)) PATH_MAX)) (Some e) None None timeout []
                 (wire_params_interpolate alloc params secrets) (spill_of v w sid tc) None in
      fst (launch v r sid agent tc q (timeout + 30) (bs "error: web request exceeds 32KB cap"))
  end.

(** [js_request_serialize]: the request of a model's call or of a scheduled script.  The
    bridge to the models is started for a profile with network only. *)
Definition js_request (v : Outside) (r : Runtime) (agent : option cstring) (tool : cstring) (args sens : option cstring)
    (secrets : list ShellSecret) (params : list ToolWireArg) (spill : option cstring) (timeout : Z) : RunToolReq :=
  let jc := su_js (rt_setup r) in
  let w := rt_world r in
  let ws := ws_text (rt_setup r) (b_workspace (js_base jc)) in
  let e := egress_of w tool args sens (js_hosts jc) secrets in
  let llm := if sb_net_mode (b_sb (js_base jc)) =? 0 then ou_bridge v else None in
  tier_request RUNTOOL_TIER_JS (bs "js_eval") (js_base jc) ws (scratch v w agent)
    (js_read_paths alloc (js_base jc) (store_dir (ou_host v) (b_db_path (js_base jc))))
    (Some (agent_dir_resolve ws (b_db_path (js_base jc)) PATH_MAX)) (Some e) None None timeout (js_secrets alloc w secrets) params spill llm.

(** The parameters of an extension tool; [None] when there is no memory. *)
Definition handler_params (w : World) (tool path : cstring) (args : option cstring) : option (list ToolWireArg) :=
  let config := tool_extension_config_json group (catalog w) (w_config w) tool in
  let args := match args with Some ((_ :: _) as a) => a | _ => bs "{}" end in
  if alloc 120 && forallb (fun s => alloc (zlen s + 1)) [bs "filename"; path; bs "args"; args; bs "config"] then
    Some [mk_warg (Some (bs "filename")) TOOL_ARG_TEXT (Some path) []; mk_warg (Some (bs "args")) TOOL_ARG_JSON (Some args) [];
          mk_warg (Some (bs "config")) TOOL_ARG_JSON (Some config) []]
  else None.

(** The bridge of a child, stopped when it is reaped. *)
Definition add_bridge (v : Outside) (q : RunToolReq) (r : Runtime) : Runtime :=
  match q_llm_sock q with
  | Some s => match rev (rt_children r) with
              | c :: _ => r_bridges (rt_bridges r ++ [(cp_pid c, s)]) r
              | [] => r
              end
  | None => r
  end.

Definition dispatch_js (v : Outside) (r : Runtime) (sid : Z) (agent : option cstring) (tc : PendingToolCall) (te : ToolEntry)
    (sens : option cstring) (secrets : list ShellSecret) : Dispatched :=
  match js_tool_resolve_request te with
  | None => answer_inline r sid tc (bs "error: js tool request resolution failed") true None
  | Some path =>
      let timeout := tool_call_timeout cast_integer (pc_args tc) JSEVAL_DEFAULT_TIMEOUT in
      let r := tool_running r sid in
      let params := match path with
                    | None => match tool_args_extract alloc (Some (pc_name tc)) (te_parameters te) (pc_args tc) with
                              | Some p => inl p
                              | None => inr (bs "error: invalid tool arguments", Some (bs "bad_args"))
                              end
                    | Some path => match handler_params (rt_world r) (pc_name tc) path (pc_args tc) with
                                   | Some p => inl p
                                   | None => inr (bs "error: OOM building js request", None)
                                   end
                    end in
      match params with
      | inr (msg, detail) => answer_inline r sid tc msg true detail
      | inl params =>
          let q := js_request v r agent (pc_name tc) (pc_args tc) sens secrets (wire_params_interpolate alloc params secrets)
                     (spill_of v (rt_world r) sid tc) timeout in
          let (d, spawned) := launch v r sid agent tc q (timeout + 30) (bs "error: js request exceeds 32KB cap") in
          if spawned then (fst d, add_bridge v q (snd d)) else d
      end
  end.

(** ** The thread vehicle *)
Definition dispatch_thread (v : Outside) (r : Runtime) (sid : Z) (agent : option cstring) (tc : PendingToolCall) : Dispatched :=
  let r := tool_running r sid in
  let job := mk_job sid (snprintf 128 (pc_call tc)) (snprintf 64 (pc_name tc)) (snprintf 64 (default [] agent))
               (default (bs "{}") (pc_args tc)) (pc_iter tc) (pc_entry tc) in
  if ou_thread v then (0, r_threads (rt_threads r ++ [job]) r)
  else answer_inline r sid tc (bs "error: failed to spawn tool thread") true (Some (bs "thread_failed")).

(** ** One call *)

(** Whether the placeholders of the arguments are looked at before the call runs. *)
Definition interpolates (te : ToolEntry) : bool :=
  let rc := te_recipe te in
  rc_needs_interp rc || (bool_decide (rc_vehicle rc = EXEC_SANDBOX) && negb (bool_decide (rc_tier rc = SBX_FILE))).

Definition missing_secret (te : ToolEntry) (tc : PendingToolCall) (secrets : list ShellSecret) : option cstring :=
  if interpolates te && match pc_args tc with Some a => has_sub a (bs "{{SECRET:") | None => false end
  then unknown_secret_name alloc (pc_args tc) secrets else None.

Definition background_asked (args : option cstring) : bool :=
  tool_args_bool args (bs "background") false || negb (tool_args_int cast_integer args (bs "background") 0 =? 0).

(** The vehicle, after the gate: entries are registered with the context of their tier. *)
Definition run_call (v : Outside) (r : Runtime) (sid : Z) (agent : option cstring) (tc : PendingToolCall) (te : ToolEntry)
    (sens : option cstring) (background : bool) (secrets : list ShellSecret) : Dispatched :=
  let rc := te_recipe te in
  let no_recipe := answer_inline r sid tc (bs "error: tool has no execution recipe") true None in
  match rc_vehicle rc with
  | EXEC_INLINE => dispatch_inline v r sid agent tc te secrets
  | EXEC_THREAD => if rc_thread_run rc then dispatch_thread v r sid agent tc else no_recipe
  | EXEC_SANDBOX =>
      match rc_tier rc, te_data te with
      | SBX_FILE, UFile =>
          match ws_text (rt_setup r) (b_workspace (f_base (su_file (rt_setup r)))) with
          | Some ws => dispatch_file v r sid agent tc te ws
          | None => no_recipe
          end
      | SBX_SHELL, UShell =>
          match ws_text (rt_setup r) (b_workspace (sc_base (su_shell (rt_setup r)))) with
          | Some ws => dispatch_shell v r sid agent tc sens background secrets ws
          | None => no_recipe
          end
      | SBX_WEB, UWeb => dispatch_web v r sid agent tc te sens secrets
      | SBX_JS, (UJsEval | UJsTool _) => dispatch_js v r sid agent tc te sens secrets
      | _, _ => no_recipe
      end
  end.

(** After the gate let the call through. *)
Definition after_gate (v : Outside) (r : Runtime) (sid : Z) (agent : option cstring) (tc : PendingToolCall) (te : ToolEntry)
    (sens : option cstring) (secrets : list ShellSecret) : Dispatched :=
  match missing_secret te tc secrets with
  | Some miss =>
      answer_inline r sid tc
        (snprintf 256 (bs "error: {{SECRET:" ++ miss ++ bs "}} names no known secret " ++ EM_DASH ++
           bs " check the spelling; search_config's secret_bindings section lists the known names")) true (Some (bs "unknown_secret"))
  | None =>
      let background := background_asked (pc_args tc) in
      if background && negb (rc_backgroundable (te_recipe te)) then
        answer_inline r sid tc
          (bs "error: this tool cannot run in the background (background:true is accepted only by tools that declare it, e.g. shell_exec, launch_agent)")
          true (Some (bs "bad_args"))
      else run_call v r sid agent tc te sens background secrets
  end.

Definition with_reg (reg : list ToolEntry) (s : AgentSetup) : AgentSetup :=
  mk_setup reg (su_caps s) (su_profile_buf s) (su_shell_buf s) (su_profile_env s) (su_shell_env s) (su_agents_dir s)
    (su_workspace_buf s) (su_pinned s) (su_file s) (su_js s) (su_web s) (su_shell s) (su_ext_ws s) (su_cron_ws s) (su_ctx s) (su_secrets s).

(** The entry of the call, loaded again on a miss. *)
Definition find_tool (r : Runtime) (agent : option cstring) (name : cstring) : option ToolEntry * Runtime :=
  match tools_lookup (su_reg (rt_setup r)) name with
  | Some te => (Some te, r)
  | None =>
      let reg := tools_load_extension_tools (catalog (rt_world r)) (su_reg (rt_setup r)) agent in
      (tools_lookup reg name, r_setup (with_reg reg (rt_setup r)) r)
  end.

Definition call_env (v : Outside) (te : ToolEntry) (secrets : list ShellSecret) : CallEnv :=
  mk_cenv (te_policy te) (bool_decide (rc_tier (te_recipe te) = SBX_WEB)) (ou_hook v) secrets.

(** 1: answered.  0 and 3: a child, a thread or another session answers later, and for 3
    the next call may start.  2: parked.  -1: no room for a child. *)
Definition dispatch_tool_inner (v : Outside) (r : Runtime) (sid : Z) (agent : option cstring) (tc : PendingToolCall)
    (secrets : list ShellSecret) : Dispatched :=
  if CHILD_MAX <=? child_count (rt_children r) then (-1, r)
  else
    let (te, r) := find_tool r agent (pc_name tc) in
    match te with
    | None =>
        answer_inline r sid tc
          (snprintf 192 (bs "error: unknown tool '" ++ pc_name tc ++ bs "' " ++ EM_DASH ++ bs " use search_config to see available tools"))
          true None
    | Some te =>
        let '(g, w, cards) := dispatch_gate alloc getenv secret_system env (ou_writes v) (call_env v te secrets) (rt_world r) sid agent tc in
        let r := r_cards (rt_cards r ++ cards) (r_world w r) in
        match g with
        | Handled => (1, r)
        | Parked => (2, r)
        | Proceed _ once host => after_gate v r sid agent tc te (if once then Some host else None) secrets
        end
    end.

Definition dispatch_tool (v : Outside) (r : Runtime) (sid : Z) (agent : option cstring) (tc : PendingToolCall) : Dispatched :=
  dispatch_tool_inner v r sid agent tc (snapshot (rt_secrets r)).

(** ** The batch: the tool calls of one advance, in src/loop.c *)

(** [claims i]: whether the statement of the claim ran. *)
Record BatchState := mk_batch { ba_async : bool; ba_stop : bool; ba_rt : Runtime }.

Definition batch_call (v : Outside) (claim_ok : bool) (sid : Z) (agent : option cstring) (tc : PendingToolCall) (b : BatchState) : BatchState :=
  if ba_stop b then b
  else if negb claim_ok then mk_batch (ba_async b) true (ba_rt b)
  else
    let (claimed, t) := db_tool_call_claim (rt_store (ba_rt b)) sid (pc_call tc) in
    if negb claimed then b
    else
      let (rc, r) := dispatch_tool v (r_store (fun _ => t) (ba_rt b)) sid agent tc in
      if rc =? 1 then mk_batch (ba_async b) false r
      else if rc =? 3 then mk_batch true false r
      else if rc =? 0 then mk_batch true true r
      else
        let r := r_store (fun t => db_tool_call_unclaim t sid (pc_call tc)) r in
        mk_batch (ba_async b) true (if rc =? -1 then r_stalled (stalled_add sid (rt_stalled r)) r else r).

(** [ins i]: the outside's answers to the call [i] and whether its claim ran. *)
Fixpoint batch_loop (ins : nat -> Outside * bool) (i : nat) (sid : Z) (agent : option cstring) (calls : list PendingToolCall)
    (b : BatchState) : BatchState :=
  match calls with
  | [] => b
  | tc :: calls => batch_loop ins (S i) sid agent calls (batch_call (fst (ins i)) (snd (ins i)) sid agent tc b)
  end.

(** The batch of [run_advance]: the capabilities of the agent, the calls, the decision
    put off while a call was claimed; whether the session advances again at once. *)
Definition dispatch_tools (ins : nat -> Outside * bool) (flush : World -> World) (sid : Z) (agent : option cstring)
    (calls : list PendingToolCall) (r : Runtime) : bool * Runtime :=
  let r := r_setup (agent_setup_refresh_caps alloc (catalog (rt_world r)) (rt_world r) agent (rt_setup r)) r in
  let b := batch_loop ins 0 sid agent calls (mk_batch false false r) in
  (negb (ba_async b) && negb (ba_stop b), r_world (flush (rt_world (ba_rt b))) (ba_rt b)).

(** ** Scheduled scripts: the runner that [CronJobs] hands its fires to *)

(** The file of the script; [is_file]: [stat] finds a regular file there. *)
Definition cron_script_path (dbfile : option cstring) (is_file : cstring -> bool) (workspace script : cstring) : cstring + cstring :=
  let full := if starts_with (bs "/") script then script else workspace ++ bs "/" ++ script in
  let ok := if starts_with (bs "/") script
            then (length full <? PATH_MAX)%nat && extension_path_in_store dbfile full
            else negb (has_sub script (bs "..")) && (length full <? PATH_MAX)%nat in
  if negb ok then inr (bs "script '" ++ script ++ (if starts_with (bs "/") script then bs "' is outside the extension store"
                                                   else bs "' is not a workspace-relative path"))
  else if negb (is_file full) then inr (bs "script '" ++ full ++ bs "' is missing or not a file")
  else inl full.

Definition with_cron (f : CronScriptFire) (c : ChildProc) : ChildProc :=
  mk_child (cp_pid c) (cp_type c) (cp_session_id c) (cp_agent_name c) (cp_tool_call_id c) (cp_tool_name c) (cp_tool_args c)
    (cp_iteration_id c) (cp_entry_id c) (cp_pipe c) (cp_frame c) (cp_background c) (cp_cancelled c) (cp_deadline c) (cp_timeout_sec c)
    (snprintf 80 (f_job f)) (f_prompt f).

Definition cron_script_run (v : Outside) (is_file : cstring -> bool) (err_len : nat) (f : CronScriptFire) (r : Runtime)
    : CronScriptRc * cstring * Runtime :=
  let failed why := (CRON_SCRIPT_FAILED, snprintf err_len why) in
  let agent := Some (f_agent f) in
  if CHILD_MAX <=? child_count (rt_children r) then (CRON_SCRIPT_BUSY, [], r)
  else
    let r := r_setup (agent_setup_refresh_caps alloc (catalog (rt_world r)) (rt_world r) agent (rt_setup r)) r in
    match ws_text (rt_setup r) (b_workspace (js_base (su_js (rt_setup r)))) with
    | None | Some [] => (failed (bs "agent '" ++ f_agent f ++ bs "' has no workspace"), r)
    | Some ws =>
        match cron_script_path (ct_dbfile (catalog (rt_world r))) is_file ws (f_script f) with
        | inr why => (failed why, r)
        | inl full =>
            if negb (alloc 40 && alloc 9 && alloc (zlen full + 1)) then
              (failed (bs "out of memory building the script request"), r)
            else
              let q := js_request v r agent (bs "js_eval") (Some (bs "{}")) None (snapshot (rt_secrets r))
                         [mk_warg (Some (bs "filename")) TOOL_ARG_TEXT (Some full) []] None JSEVAL_DEFAULT_TIMEOUT in
              match run_tool_serialize_request alloc q with
              | None => (failed (bs "the script request exceeds the 32KB wire cap"), r)
              | Some blob =>
                  match spawn_run_tool_blob (ou_spawn v) (rt_children r) CHILD_CRON_SCRIPT (f_session f) agent 150 with
                  | (_, None) => (CRON_SCRIPT_BUSY, [], r)
                  | (t, Some c) =>
                      let r := r_sent (rt_sent r ++ [(cp_pid c, blob)]) (r_children t r) in
                      (CRON_SCRIPT_SPAWNED, [], last_child (with_cron f) (add_bridge v q r))
                  end
              end
        end
    end.
End Dispatch.
