(* ===== verification/DispatchOnce.v ===== *)
(** * What a dispatch leaves of its call, and a batch of its calls

    [dispatch_tool] answers its call once and closes its row, or leaves the row claimed
    with one child, thread or session that will answer, or leaves it as it was; it never
    touches another call.  The batch of [run_advance] keeps the order of the calls. *)
From S2P Require Import Prelude CString Libc Codec SecretInterp Ingest Store Json1 Config Approval Resolve Gate Capture Wire Delivery ToolFrame Complete Setup ToolRequest Dispatch.

(** ** Reply edges *)

(** A child session of [s] owes the reply to its call [k]: the edge that
    [blocking_launch_answered] answers from. *)
Definition reply_owed (s : Z) (k : cstring) (t : Store) : Prop :=
  exists d x, d ∈ t_edges t /\ d_kind d = KToolCall /\ d_one_shot d = true /\ d_ref d = k /\
    get_session t (d_session d) = Some x /\ x_parent x = s.

Definition replies_kept (t t' : Store) : Prop := forall s k, reply_owed s k t -> reply_owed s k t'.

Lemma replies_from t t' :
  t_edges t' = t_edges t ->
  (forall i x, get_session t i = Some x -> exists x', get_session t' i = Some x' /\ x_parent x' = x_parent x) ->
  replies_kept t t'.
Proof.
  intros He Hs s k (d & x & Hd & Hk & Ho & Hr & Hx & <-). destruct (Hs _ _ Hx) as (x' & Hx' & Hp).
  exists d, x'. rewrite He. by split_all.
Qed.

Lemma replies_refl t : replies_kept t t.
Proof. by intros s k. Qed.
#[export] Hint Resolve replies_refl : core.

Lemma replies_same t t' : t_edges t' = t_edges t -> t_sessions t' = t_sessions t -> replies_kept t t'.
Proof. intros He Hs. apply replies_from; [done|]. intros i x Hx. exists x. unfold get_session. by rewrite Hs. Qed.

Lemma replies_insert t sid par it ty role c call tool err stop src note :
  replies_kept t (snd (insert_entry t sid par it ty role c call tool err stop src note)).
Proof.
  apply replies_from; [apply insert_entry_rest|]. intros i x Hx. rewrite insert_entry_get, Hx. eexists. split; [done|].
  by destruct (_ && _).
Qed.

Lemma replies_trans t1 t2 t3 : replies_kept t1 t2 -> replies_kept t2 t3 -> replies_kept t1 t3.
Proof. intros H1 H2 s k Hs. by apply H2, H1. Qed.

(** ** Stores that agree on the calls and their answers *)
Definition unmoved (t t' : Store) : Prop :=
  t_calls t' = t_calls t /\ (forall s k, answers s k t' = answers s k t) /\ replies_kept t t'.

Lemma unmoved_refl t : unmoved t t.
Proof. split; [done|]. split; [done|]. by intros s k. Qed.

Lemma unmoved_trans t1 t2 t3 : unmoved t1 t2 -> unmoved t2 t3 -> unmoved t1 t3.
Proof.
  intros (A & B & C) (A' & B' & C'). split; [by rewrite A'|]. split; [intros s k; by rewrite B'|by eapply replies_trans].
Qed.

Lemma unmoved_same t t' :
  t_calls t' = t_calls t -> t_entries t' = t_entries t -> replies_kept t t' -> unmoved t t'.
Proof. intros Hc He Hr. split; [done|]. split; [intros s k; unfold answers; by rewrite He|done]. Qed.

#[export] Hint Resolve unmoved_refl : core.

Lemma set_state_unmoved env w sid s : unmoved (w_store w) (w_store (set_state env w sid s)).
Proof.
  apply unmoved_same; unfold set_state, on_store; cbn [w_store].
  1, 2: unfold session_set_state; destruct (get_session (w_store w) sid) as [x|]; try done; by destruct (may_enter _ _).
  apply replies_from.
  - unfold session_set_state. destruct (get_session (w_store w) sid) as [x|]; try done. by destruct (may_enter _ _).
  - intros i x Hx. rewrite set_state_get, Hx. eexists. split; [done|]. destruct (_ && _); [|done]. by destruct s.
Qed.

Lemma park_prompt_store getenv sec env w sid call : w_store (fst (handle_approval_park getenv sec env w sid call)) = w_store w.
Proof. unfold handle_approval_park. repeat (case_match; try done). Qed.

Section Gate.
Context {J : Json1} (alloc : Z -> bool) (getenv sec : cstring -> option cstring) (env : Process).

(** What the gate leaves: the calls as they were, or then an answer of this one. *)
Definition gate_left (w : World) (sid : Z) (tc : PendingToolCall) (g : GateResult) (w' : World) : Prop :=
  match g with
  | Handled => exists w1 msg e detail, unmoved (w_store w) (w_store w1) /\ w' = inline_answer w1 sid tc msg e detail
  | _ => unmoved (w_store w) (w_store w')
  end.

Lemma inline_left w sid tc msg e detail : gate_left w sid tc Handled (inline_result w sid tc msg e detail).
Proof. by exists w, msg, e, (Some detail). Qed.

Lemma gate_left_from w w1 sid tc g w' : unmoved (w_store w) (w_store w1) -> gate_left w1 sid tc g w' -> gate_left w sid tc g w'.
Proof.
  intros H1. destruct g; cbn; [by apply unmoved_trans| |by apply unmoved_trans].
  intros (w2 & msg & e & d & H2 & ->). exists w2, msg, e, d. split; [by eapply unmoved_trans|done].
Qed.

Lemma park_left w sid tc : let '(g, w', _) := park getenv sec env w sid tc in gate_left w sid tc g w'.
Proof.
  unfold park. pose proof (park_prompt_store getenv sec env (set_state env w sid AwaitingApproval) sid (Some (pc_call tc))) as Hp.
  destruct (handle_approval_park _ _ _ _ _ _) as [w1 cards]. cbn [fst] in Hp.
  assert (H1 : unmoved (w_store w) (w_store w1)) by (rewrite Hp; apply set_state_unmoved).
  destruct (_ && _); [|exact H1]. destruct (approval_get_for_tool_call _ _ _) as [bg|]; [|exact H1].
  destruct (is_pending bg); [|exact H1]. eapply gate_left_from; [|apply inline_left].
  eapply unmoved_trans; [exact H1|apply set_state_unmoved].
Qed.

Lemma swap_unmoved t id from to via : unmoved t (snd (swap_state t id from to via)).
Proof. apply unmoved_same; try done. by apply replies_same. Qed.

Lemma consume_unmoved ok t id : unmoved t (snd (approval_consume ok t id)).
Proof. destruct ok; [apply swap_unmoved|done]. Qed.

Lemma park_new_left wr w sid tc why : let '(g, w', _) := park_new getenv sec env wr w sid tc why in gate_left w sid tc g w'.
Proof.
  unfold park_new, tool_inline_error. destruct (approval_find_pending_match _ _ _ _ _) as [dup|]; [apply inline_left|].
  destruct (approval_pending_ids _ _ _) as [n l]. destruct (_ <=? n); [apply inline_left|].
  match goal with |- context [park _ _ _ ?w1 _ _] => pose proof (park_left w1 sid tc) as Hp; set (w2 := w1) in * end.
  destruct (park _ _ _ w2 sid tc) as [[g w'] cards]. eapply gate_left_from; [|exact Hp].
  unfold w2, on_store. cbn [w_store]. unfold approval_create.
  destruct (wr_create wr); [by apply unmoved_same, replies_same|apply unmoved_refl].
Qed.

Lemma approval_gate_left wr w sid tc sens : let '(g, w', _) := approval_gate getenv sec env wr w sid tc sens in gate_left w sid tc g w'.
Proof.
  unfold approval_gate, tool_inline_error.
  assert (Hun : let '(g, w', _) := match try_ticket wr w sid tc sens with
                | (Some tk, w) => (Proceed (Some tk) (is_some sens) (default [] sens), w, [])
                | (None, w) => park_new getenv sec env wr w sid tc (park_why sens)
                end in gate_left w sid tc g w').
  { assert (Ht : unmoved (w_store w) (w_store (snd (try_ticket wr w sid tc sens)))).
    { unfold try_ticket. destruct (is_some sens); [done|]. unfold approval_take_ticket.
      destruct (approval_match_state _ _ _ _ _ _ _) as [a|]; [|done].
      pose proof (consume_unmoved (wr_consume wr) (w_store w) (a_id a)) as Hs. by destruct (approval_consume _ _ _) as [done_ t]. }
    destruct (try_ticket _ _ _ _ _) as [[tk|] w1]; cbn [snd] in Ht; [exact Ht|].
    pose proof (park_new_left wr w1 sid tc (park_why sens)) as Hp. destruct (park_new _ _ _ _ _ _ _ _) as [[g w'] cards].
    by eapply gate_left_from. }
  destruct (approval_get_for_tool_call _ _ _) as [a|]; [|exact Hun].
  destruct (a_state a); [apply park_left| |apply inline_left|exact Hun].
  apply consume_unmoved.
Qed.

Lemma gate_leaves wr ce w sid agent tc :
  let '(g, w', _) := dispatch_gate alloc getenv sec env wr ce w sid agent tc in gate_left w sid tc g w'.
Proof.
  unfold dispatch_gate, tool_inline_error. do 3 (destruct (negb _); [apply inline_left|]).
  do 3 (case_bool_decide; [apply inline_left|]). cbn zeta. destruct (unbound_secret _ _ _ _ _); [apply inline_left|].
  destruct (_ || _); [apply approval_gate_left|done].
Qed.
End Gate.

(** ** One answer of one call *)
Definition ident (c : ToolCallRow) : Z * Z * Z * cstring * cstring := (c_id c, c_session c, c_entry c, c_call c, c_name c).

(** One more result of the call, its row in the state [st], every other row as it was. *)
Record answered_as (st : CallStatus) (sid : Z) (call : cstring) (entry : Z) (t t' : Store) : Prop := {
  aa_rows : exists g, t_calls t' = map g (t_calls t) /\ (forall c, c_call c <> call -> g c = c) /\ (forall c, ident (g c) = ident c) /\
    (forall c, the_row sid call entry c -> c_status (g c) = st);
  aa_answers : forall s k, answers s k t' = answers s k t + (if (s =? sid) && streq k call then 1 else 0);
  aa_replies : replies_kept t t'
}.

Lemma answered_before st sid call entry t1 t2 t3 : unmoved t1 t2 -> answered_as st sid call entry t2 t3 -> answered_as st sid call entry t1 t3.
Proof.
  intros (Hc & Ha & Hr) [(g & Hg & H1) H2 H3].
  split; [exists g; by rewrite Hg, Hc|intros s k; by rewrite H2, Ha|by eapply replies_trans].
Qed.

Lemma answered_after st sid call entry t1 t2 t3 : answered_as st sid call entry t1 t2 -> unmoved t2 t3 -> answered_as st sid call entry t1 t3.
Proof.
  intros [(g & Hg & H1) H2 H3] (Hc & Ha & Hr).
  split; [exists g; by rewrite Hc, Hg|intros s k; by rewrite Ha, H2|by eapply replies_trans].
Qed.

Lemma streq_sym a b : streq a b = streq b a.
Proof. unfold streq. apply bool_decide_ext. by split. Qed.

Lemma streq_refl a : streq a a = true.
Proof. unfold streq. by apply bool_decide_true. Qed.

Lemma append_all ok t sid call content tool err iter s k :
  answers s k (snd (append_result ok t sid call content tool err iter)) =
    answers s k t + (if ok && (s =? sid) && streq k call then 1 else 0).
Proof.
  destruct (append_answers (fun _ => true) s k ok t sid call content tool err iter) as [-> _].
  by rewrite Z.eqb_sym, streq_sym.
Qed.

Lemma append_rows ok t sid call content tool err iter : t_calls (snd (append_result ok t sid call content tool err iter)) = t_calls t.
Proof. by destruct (append_answers (fun _ => true) 0 [] ok t sid call content tool err iter). Qed.

Lemma replies_append ok t sid call content tool err iter :
  replies_kept t (snd (append_result ok t sid call content tool err iter)).
Proof. destruct ok; [apply replies_insert|done]. Qed.

(** The result, then the status by session and call. *)
Lemma set_status_answered t sid call entry content tool err iter st by_ :
  answered_as st sid call entry t
    (snd (db_tool_call_set_status (snd (append_tool_result t sid call content tool err iter)) sid call st by_)).
Proof.
  pose proof (append_rows true t sid call content tool err iter) as Hr. cbn [append_result] in Hr.
  split.
  - exists (fun c => if is_call sid call c then set_status st by_ c else c). unfold db_tool_call_set_status, update_calls.
    cbn [snd t_calls with_calls]. rewrite Hr. split; [done|]. unfold is_call. split_all.
    + intros c Hc. destruct (c_session c =? sid); [|done]. unfold streq. by rewrite bool_decide_false.
    + intros c. by destruct (_ && _).
    + intros c (<- & _ & <-). by rewrite Z.eqb_refl, streq_refl.
  - intros s k. exact (append_all true t sid call content tool err iter s k).
  - exact (replies_append true t sid call content tool err iter).
Qed.

Lemma inline_answered w sid tc msg e detail :
  answered_as CallDone sid (pc_call tc) (pc_entry tc) (w_store w) (w_store (inline_answer w sid tc msg e detail)).
Proof.
  unfold inline_answer, on_store. cbn [w_store].
  pose proof (set_status_answered (w_store w) sid (pc_call tc) (pc_entry tc) msg (pc_name tc) e (pc_iter tc) CallDone detail) as Ha.
  by destruct (append_tool_result _ _ _ _ _ _ _).
Qed.

Lemma patch_unmoved t id p : unmoved t (hook_entry_data_patch t id p).
Proof. split; [done|]. split; [intros s k; apply (patch_calm (fun _ => true) s k 0)|by apply replies_same]. Qed.

Section Commit.
Context `{Ingest}.

(** The result, then the row by entry and call. *)
Lemma commit_answered v d sid call entry iter tool result err hosts ann :
  fi_append v = true ->
  let d' := snd (tool_result_commit v d sid call entry iter tool result err hosts ann) in
  answered_as CallDone sid call entry (dm_store d) (dm_store d') /\ dm_children d' = dm_children d /\
  dm_stalled d' = dm_stalled d.
Proof.
  intros Hap. unfold tool_result_commit. rewrite Hap. cbn zeta.
  match goal with |- context [append_result true ?t ?s ?k ?x ?tl ?er ?it] =>
    pose proof (append_rows true t s k x tl er it) as Hr; pose proof (append_all true t s k x tl er it) as Ha;
    pose proof (replies_append true t s k x tl er it) as Hk; destruct (append_result true t s k x tl er it) as [rid t1] end.
  cbn [snd] in Hr, Ha, Hk.
  assert (H1 : answered_as CallDone sid call entry (dm_store d) (db_tool_call_complete_with_result t1 entry call rid)).
  { split; [|intros s k; exact (Ha s k)|exact Hk].
    exists (fun c => if (c_entry c =? entry) && streq (c_call c) call then complete_call rid c else c).
    unfold db_tool_call_complete_with_result. cbn [t_calls with_calls]. rewrite Hr. split; [done|]. split_all.
    - intros c Hc. destruct (c_entry c =? entry); [|done]. unfold streq. by rewrite bool_decide_false.
    - intros c. by destruct (_ && _).
    - intros c (_ & <- & <-). by rewrite Z.eqb_refl, streq_refl. }
  destruct hosts as [h|], ann as [p|]; destruct (0 <? rid); cbn [snd dm_store dm_children dm_stalled d_store d_net]; (split; [|done]);
    try exact H1; (eapply answered_after; [exact H1|apply patch_unmoved]).
Qed.
End Commit.

(** ** The table of children *)
Definition slot (c : ChildProc) : ChildType * Z * cstring * Z * bool :=
  (cp_type c, cp_session_id c, cp_tool_call_id c, cp_entry_id c, cp_background c).

Definition slots (r : Runtime) : list (ChildType * Z * cstring * Z * bool) := map slot (rt_children r).

Lemma spawn_slot env t sid agent call tool args iter entry timeout :
  match spawn_run_tool_child env t sid agent call tool args iter entry timeout with
  | (t', None) => t' = t
  | (t', Some c) => t' = t ++ [c] /\ slot c = (CHILD_TOOL_EXEC, sid, snprintf 64 call, entry, false) /\ sp_fork env = Some (cp_pid c)
  end.
Proof.
  unfold spawn_run_tool_child, spawn_run_tool_blob. destruct (_ <=? _); [done|]. destruct (sp_socketpair env); cbn [negb]; [|done].
  destruct (sp_fork env) as [pid|]; [|done]. destruct (sp_sent env); cbn [negb]; [|done].
  split; [|done]. by rewrite insert_app_r_alt, Nat.sub_diag by lia.
Qed.

(** ** The outcome of a dispatch *)

(** The only inline tool whose NULL means that a session will answer is launch_agent,
    registered with its context (tool_agent.c). *)
Definition async_launch (reg : list ToolEntry) : Prop :=
  Forall (fun te => rc_vehicle (te_recipe te) = EXEC_INLINE -> rc_null_kind (te_recipe te) = NULL_ASYNC ->
                    te_name te = bs "launch_agent" /\ te_data te = UCtx LaunchCtx) reg.

Definition rt_async (r : Runtime) : Prop := async_launch (su_reg (rt_setup r)).

(** What the inline tools promise: they leave the calls, the answers, the reply edges, the
    identity of the children, what was sent to them and the threads alone, register no
    other tool of launch_agent's kind, and launch_agent returns NULL only when it left a
    child session that owes the call's reply (the contract of NULL_ASYNC in tools.h). *)
Class HandlersLaw (Hs : Handlers) : Prop := handler_leaves : forall name ctx args r,
  let '(result, _, r') := run_handler name ctx args r in
  unmoved (rt_store r) (rt_store r') /\ slots r' = slots r /\ rt_threads r' = rt_threads r /\ rt_sent r' = rt_sent r /\
  (rt_async r -> rt_async r') /\
  (forall call, name = bs "launch_agent" -> result = None -> hc_call ctx = Some call ->
     reply_owed (hc_session ctx) call (rt_store r')).

(** The child slot of a call. *)
Definition call_slot (sid : Z) (tc : PendingToolCall) (background : bool) := (CHILD_TOOL_EXEC, sid, pc_call tc, pc_entry tc, background).

(** Who answers a call left open: a child of its own, a thread of its own, or the session
    a launch started for it. *)
Inductive owner (r r' : Runtime) (sid : Z) (tc : PendingToolCall) : Prop :=
  | by_child : slots r' = slots r ++ [call_slot sid tc false] -> rt_threads r' = rt_threads r -> owner r r' sid tc
  | by_thread j : slots r' = slots r -> rt_threads r' = rt_threads r ++ [j] -> tj_session j = sid -> tj_call j = pc_call tc ->
      tj_entry j = pc_entry tc -> owner r r' sid tc
  | by_session : slots r' = slots r -> rt_threads r' = rt_threads r -> pc_name tc = bs "launch_agent" ->
      reply_owed sid (pc_call tc) (rt_store r') -> owner r r' sid tc.

Definition settled (r r' : Runtime) (sid : Z) (tc : PendingToolCall) : Prop :=
  answered_as CallDone sid (pc_call tc) (pc_entry tc) (rt_store r) (rt_store r') /\ slots r' = slots r /\
    rt_threads r' = rt_threads r \/
  answered_as CallBackground sid (pc_call tc) (pc_entry tc) (rt_store r) (rt_store r') /\
    slots r' = slots r ++ [call_slot sid tc true] /\ rt_threads r' = rt_threads r.

Definition outcome (r : Runtime) (sid : Z) (tc : PendingToolCall) (d : Dispatched) : Prop :=
  let (rc, r') := d in
  (rt_async r -> rt_async r') /\
  ((rc = 1 /\ settled r r' sid tc) \/
  ((rc = 0 \/ rc = 3) /\ unmoved (rt_store r) (rt_store r') /\ owner r r' sid tc) \/
  ((rc = 2 \/ rc = -1) /\ unmoved (rt_store r) (rt_store r') /\ slots r' = slots r /\ rt_threads r' = rt_threads r)).

(** Steps before the outcome that leave the call alone. *)
Definition still (r r1 : Runtime) : Prop :=
  unmoved (rt_store r) (rt_store r1) /\ slots r1 = slots r /\ rt_threads r1 = rt_threads r /\ (rt_async r -> rt_async r1).

Lemma still_outcome r r1 sid tc d : still r r1 -> outcome r1 sid tc d -> outcome r sid tc d.
Proof.
  intros (Hu & Hsl & Ht & Ha). destruct d as [rc r']. unfold outcome, settled. rewrite <- Hsl, <- Ht.
  intros [Hth Hout]. split; [auto|]. revert Hout. intros [(E & [(A & S)|(A & S)])|[(E & U & O)|(E & U & S)]].
  - left. split; [done|]. left. split; [by eapply answered_before|done].
  - left. split; [done|]. right. split; [by eapply answered_before|done].
  - right; left. split; [done|]. split; [by eapply unmoved_trans|].
    destruct O as [O O'|j O1 O2 O3 O4 O5|O1 O2 O3 O4]; [apply by_child|eapply by_thread|apply by_session]; try eassumption;
      by rewrite <- ?Hsl, <- ?Ht.
  - right; right. split; [done|]. split; [by eapply unmoved_trans|done].
Qed.

Lemma still_trans r1 r2 r3 : still r1 r2 -> still r2 r3 -> still r1 r3.
Proof.
  intros (A & B & C & D) (A' & B' & C' & D'). split; [by eapply unmoved_trans|]. split; [congruence|]. split; [congruence|auto].
Qed.

Section Outcome.
Context {J : Json1} `{Ingest} `{Secure} {Hs : Handlers} {HL : HandlersLaw Hs}.
Context (alloc grow : Z -> bool) (ext : bool) (getenv sec : cstring -> option cstring) (env : Process)
  (cast_integer : cstring -> cstring) (group : list (cstring * option cstring) -> cstring)
  (catalog : World -> Catalog) (cfg_db : option cstring).
Context (sid : Z) (tc : PendingToolCall) (v : Outside) (agent : option cstring).
Context (Hcall : (length (pc_call tc) < 64)%nat) (Happend : fi_append (ou_finish v) = true).

Lemma answer_outcome r msg e detail : outcome r sid tc (answer_inline r sid tc msg e detail).
Proof. split; [done|]. left. split; [done|]. left. split; [apply inline_answered|done]. Qed.

Lemma still_refl r : still r r.
Proof. split; [apply unmoved_refl|done]. Qed.

Lemma tool_running_still r : still r (tool_running env r sid).
Proof. split; [apply set_state_unmoved|done]. Qed.

(** The child spawned last. *)
Definition spawned_for (background : bool) (r r' : Runtime) : Prop :=
  exists t c, rt_children r' = t ++ [c] /\ slots r = map slot t /\ slot c = call_slot sid tc background /\
    rt_threads r' = rt_threads r /\ (rt_async r -> rt_async r').

Lemma launch_outcome r q timeout msg :
  let (d, spawned) := launch alloc v r sid agent tc q timeout msg in
  if spawned then fst d = 0 /\ unmoved (rt_store r) (rt_store (snd d)) /\ spawned_for false r (snd d) else outcome r sid tc d.
Proof.
  unfold launch. destruct (run_tool_serialize_request alloc q) as [blob|]; [|apply answer_outcome].
  pose proof (spawn_slot (ou_spawn v) (rt_children r) sid agent (pc_call tc) (pc_name tc) (pc_args tc) (pc_iter tc) (pc_entry tc) timeout) as Hsp.
  destruct (spawn_run_tool_child _ _ _ _ _ _ _ _ _ _) as [t [c|]]; [|apply answer_outcome].
  destruct Hsp as (-> & Hsl & _). split; [done|]. split; [apply unmoved_refl|]. exists (rt_children r), c. split; [done|]. split; [done|].
  by rewrite Hsl, snprintf_short.
Qed.

Lemma spawned_outcome r r' : unmoved (rt_store r) (rt_store r') -> spawned_for false r r' -> outcome r sid tc (0, r').
Proof.
  intros Hu (t & c & Hc & Hr & Hsl & Ht & Ha). split; [done|]. right; left. split; [by left|]. split; [done|]. apply by_child; [|done].
  change (slots r') with (map slot (rt_children r')). rewrite Hc, List.map_app, Hr. cbn [map]. by rewrite Hsl.
Qed.

Lemma launch_first r q timeout msg : outcome r sid tc (fst (launch alloc v r sid agent tc q timeout msg)).
Proof.
  pose proof (launch_outcome r q timeout msg) as Hl. destruct (launch _ _ _ _ _ _ _ _ _) as [[rc r'] []]; [|done].
  destruct Hl as (E & Hu & Hsp). cbn [fst snd] in *. subst rc. by apply spawned_outcome.
Qed.

Lemma job_outcome r r' : unmoved (rt_store r) (rt_store r') -> spawned_for false r r' -> outcome r sid tc (job_start env catalog v r' sid tc).
Proof.
  intros Hu (t & c & Hc & Hr & Hsl & Ht & Has). unfold job_start. split; [unfold last_child; by destruct (rev _)|]. left. split; [done|]. right.
  unfold last_child. rewrite Hc, rev_app_distr. cbn [rev app]. rewrite rev_involutive.
  match goal with |- context [as_background ?l c] => set (lg := l) end.
  split.
  - eapply answered_before; [exact Hu|]. unfold r_store, rt_store, on_store. cbn [rt_world r_world w_store].
    match goal with |- context [append_tool_result ?t1 sid ?k ?n ?nm false ?it] =>
      pose proof (set_status_answered t1 sid k (pc_entry tc) n nm false it CallBackground (Some (p_instance env))) as Ha;
      destruct (append_tool_result t1 sid k n nm false it) end.
    exact Ha.
  - rewrite Hr, <- Ht. split; [|done]. match goal with |- slots ?x = _ => change (slots x) with (map slot (t ++ [as_background lg c])) end.
    rewrite List.map_app. f_equal. unfold call_slot, slot in *. cbn. by injection Hsl as -> -> -> -> _.
Qed.

Lemma file_outcome r te ws : outcome r sid tc (dispatch_file alloc getenv sec env catalog cfg_db v r sid agent tc te ws).
Proof.
  unfold dispatch_file, bad_args. cbn zeta. apply (still_outcome _ _ _ _ _ (tool_running_still r)).
  destruct (tool_args_extract _ _ _ _); [apply launch_first|apply answer_outcome].
Qed.

Lemma web_outcome r te sens secrets :
  outcome r sid tc (dispatch_web alloc grow ext getenv sec env cast_integer catalog v r sid agent tc te sens secrets).
Proof.
  unfold dispatch_web, bad_args. cbn zeta. apply (still_outcome _ _ _ _ _ (tool_running_still r)).
  destruct (tool_args_extract _ _ _ _); [apply launch_first|apply answer_outcome].
Qed.

Lemma shell_outcome r sens background secrets ws :
  outcome r sid tc (dispatch_shell alloc grow ext getenv sec env cast_integer catalog v r sid agent tc sens background secrets ws).
Proof.
  unfold dispatch_shell. cbn zeta. apply (still_outcome _ _ _ _ _ (tool_running_still r)).
  destruct (tool_args_str _ _); [|apply answer_outcome].
  match goal with |- context [launch alloc v ?r1 sid agent tc ?q ?t ?m] =>
    pose proof (launch_outcome r1 q t m) as Hl; destruct (launch alloc v r1 sid agent tc q t m) as [[rc r'] sp] end.
  destruct sp; [|exact Hl]. destruct Hl as (E & Hu & Hsp). cbn [fst snd] in *. subst rc. cbn [andb].
  destruct background; [by apply job_outcome|by apply spawned_outcome].
Qed.


Lemma js_outcome r te sens secrets :
  outcome r sid tc (dispatch_js alloc grow ext getenv sec env cast_integer group catalog v r sid agent tc te sens secrets).
Proof.
  unfold dispatch_js. destruct (js_tool_resolve_request te) as [path|]; [|apply answer_outcome]. cbn zeta.
  apply (still_outcome _ _ _ _ _ (tool_running_still r)).
  match goal with |- context [match ?x with inl _ => _ | inr _ => _ end] => destruct x as [params|[msg detail]] end; [|apply answer_outcome].
  match goal with |- context [launch alloc v ?r1 sid agent tc ?q ?t ?m] =>
    pose proof (launch_outcome r1 q t m) as Hl; destruct (launch alloc v r1 sid agent tc q t m) as [[rc r'] sp]; set (qq := q) in * end.
  destruct sp; [|exact Hl]. destruct Hl as (E & Hu & Hsp). cbn [fst snd] in *. subst rc.
  unfold add_bridge. destruct (q_llm_sock qq); [|by apply spawned_outcome].
  destruct (rev (rt_children r')) eqn:Er; [by apply spawned_outcome|].
  apply spawned_outcome; done.
Qed.

Lemma thread_outcome r : outcome r sid tc (dispatch_thread env v r sid agent tc).
Proof.
  unfold dispatch_thread. cbn zeta. apply (still_outcome _ _ _ _ _ (tool_running_still r)).
  destruct (ou_thread v); [|apply answer_outcome].
  split; [done|]. right; left. split; [by left|]. split; [apply unmoved_refl|].
  eapply by_thread; [done|done|done| |done].
  cbn [tj_call]. apply snprintf_short. lia.
Qed.

Lemma commit_outcome r secrets result err : outcome r sid tc (inline_commit v r sid tc secrets result err).
Proof.
  unfold inline_commit. destruct (secure_with secrets (rt_secrets r) (pc_args tc) result err) as [text db].
  match goal with |- context [tool_result_commit ?a ?b ?c ?d ?e ?f ?g ?h ?i ?j ?k] =>
    pose proof (commit_answered a b c d e f g h i j k Happend) as Hcm; destruct (tool_result_commit a b c d e f g h i j k) as [rid d'] end.
  cbn zeta in Hcm. cbn [snd] in Hcm. destruct Hcm as (A & B & _). split; [done|]. left. split; [done|]. left. split; [exact A|].
  unfold slots, with_daemon. cbn [rt_children]. by rewrite B.
Qed.

(** The registry's entry of the call, when it waits for a session. *)
Definition launches (te : ToolEntry) : Prop :=
  te_name te = pc_name tc /\
  (rc_vehicle (te_recipe te) = EXEC_INLINE -> rc_null_kind (te_recipe te) = NULL_ASYNC ->
     te_name te = bs "launch_agent" /\ te_data te = UCtx LaunchCtx).

Lemma inline_outcome r te secrets :
  launches te -> rc_vehicle (te_recipe te) = EXEC_INLINE ->
  outcome r sid tc (dispatch_inline alloc getenv sec env v r sid agent tc te secrets).
Proof.
  intros [Hname Hl] Hveh. specialize (Hl Hveh). unfold dispatch_inline. cbn zeta.
  set (r1 := r_setup (bind_setup (te_data te) sid (pc_call tc) agent (rt_setup r)) r).
  assert (H1 : still r r1).
  { split; [apply unmoved_refl|]. split; [done|]. split; [done|]. unfold rt_async. cbn. by destruct (te_data te). }
  match goal with |- context [run_handler ?n ?c ?a r1] =>
    set (cx := c); pose proof (handler_leaves n c a r1) as Hh; fold cx in Hh; destruct (run_handler n cx a r1) as [[result err] r2] end.
  destruct Hh as (A & B & C & _ & D & E).
  assert (H2 : still r r2) by (apply (still_trans _ _ _ H1); by split).
  apply (still_outcome _ _ _ _ _ H2).
  destruct result as [x|]; [apply commit_outcome|]. destruct (rc_null_kind (te_recipe te)) eqn:Ek; [apply commit_outcome| |].
  - split; [done|]. right; left. split; [destruct (rc_parallel_safe _); auto|]. split; [apply unmoved_refl|].
    destruct (Hl eq_refl) as [Hn Hd]. apply by_session; try done; [congruence|].
    assert (Ec : cx = mk_hctx sid (Some (pc_call tc)) (hc_agent (su_ctx (rt_setup r) LaunchCtx))).
    { unfold cx, r1, bind_setup, ctx_of. rewrite Hd. cbn [rt_setup r_setup su_ctx]. by rewrite decide_True by done. }
    specialize (E (pc_call tc) Hn eq_refl). rewrite Ec in E. by apply E.
  - pose proof (park_prompt_store getenv sec env (rt_world r2) sid (Some (pc_call tc))) as Hp.
    destruct (handle_approval_park _ _ _ _ _ _) as [w cards]. split; [done|]. right; right. split; [by left|]. split; [|done].
    unfold rt_store. cbn [rt_world r_cards r_world]. cbn [fst] in Hp. rewrite Hp. apply unmoved_refl.
Qed.

Lemma async_lookup reg name te : async_launch reg -> tools_lookup reg name = Some te ->
  te_name te = name /\
  (rc_vehicle (te_recipe te) = EXEC_INLINE -> rc_null_kind (te_recipe te) = NULL_ASYNC ->
     te_name te = bs "launch_agent" /\ te_data te = UCtx LaunchCtx).
Proof.
  unfold tools_lookup. intros Ha [Hin Hn]%find_some. unfold streq in Hn. apply bool_decide_eq_true in Hn.
  split; [done|]. unfold async_launch in Ha. rewrite Forall_forall in Ha. by apply Ha, list_elem_of_In.
Qed.

Lemma async_loaded r0 reg : async_launch reg -> async_launch (tools_load_extension_tools (catalog (rt_world r0)) reg agent).
Proof.
  intros Ha. destruct agent as [a|]; [|done].
  destruct (extension_tools_confined (catalog (rt_world r0)) reg a) as (new & -> & _ & _ & Hf & _).
  apply Forall_app. split; [done|]. eapply Forall_impl; [exact Hf|]. intros e [-> _]. done.
Qed.

Lemma find_tool_spec r : rt_async r -> let (te, r1) := find_tool catalog r agent (pc_name tc) in
  still r r1 /\ rt_world r1 = rt_world r /\ match te with Some te => launches te | None => True end.
Proof.
  intros Ha. unfold find_tool. destruct (tools_lookup (su_reg (rt_setup r)) (pc_name tc)) as [te|] eqn:E.
  - split; [apply still_refl|]. split; [done|]. by apply async_lookup in E.
  - pose proof (async_loaded r (su_reg (rt_setup r)) Ha) as Hl.
    split; [split; [apply unmoved_refl|done]|]. split; [done|].
    match goal with |- match ?o with _ => _ end => destruct o as [te|] eqn:E' end; [by apply async_lookup in E'|done].
Qed.

Abbreviation run := (run_call alloc grow ext getenv sec env cast_integer group catalog cfg_db v).

Lemma run_call_outcome r te sens background secrets :
  launches te -> outcome r sid tc (run r sid agent tc te sens background secrets).
Proof.
  intros Hn. unfold run_call. destruct (rc_vehicle (te_recipe te)) eqn:Ev.
  - by apply inline_outcome.
  - destruct (rc_thread_run _); [apply thread_outcome|apply answer_outcome].
  - destruct (rc_tier (te_recipe te)), (te_data te); try apply answer_outcome; try apply web_outcome; try apply js_outcome;
      (destruct (ws_text _ _); [|apply answer_outcome]); [apply file_outcome|apply shell_outcome].
Qed.

Lemma after_gate_outcome r te sens secrets :
  launches te ->
  outcome r sid tc (after_gate alloc grow ext getenv sec env cast_integer group catalog cfg_db v r sid agent tc te sens secrets).
Proof.
  intros Hn. unfold after_gate. destruct (missing_secret alloc te tc secrets); [apply answer_outcome|]. cbn zeta.
  destruct (_ && _); [apply answer_outcome|by apply run_call_outcome].
Qed.

Abbreviation dispatch r := (dispatch_tool alloc grow ext getenv sec env cast_integer group catalog cfg_db v r sid agent tc).

Lemma dispatch_outcome r : rt_async r -> outcome r sid tc (dispatch r).
Proof.
  intros Has. unfold dispatch_tool, dispatch_tool_inner. destruct (_ <=? _); [split; [done|]; right; right; auto|].
  pose proof (find_tool_spec r Has) as Hf. destruct (find_tool catalog r agent (pc_name tc)) as [te r1].
  destruct Hf as (Hst & _ & Hn). apply (still_outcome _ _ _ _ _ Hst). destruct te as [te|]; [|apply answer_outcome].
  pose proof (gate_leaves alloc getenv sec env (ou_writes v) (call_env v te (snapshot (rt_secrets r))) (rt_world r1) sid agent tc) as Hg.
  destruct (dispatch_gate _ _ _ _ _ _ _ _ _ _) as [[g w] cards].
  destruct g as [by_ once host| |]; cbn [gate_left] in Hg.
  - match goal with |- outcome r1 sid tc (after_gate _ _ _ _ _ _ _ _ _ _ _ ?r2 _ _ _ _ _ _) => assert (H2 : still r1 r2) by (split; done) end.
    apply (still_outcome _ _ _ _ _ H2). by apply after_gate_outcome.
  - destruct Hg as (w1 & msg & e & detail & Hu & ->). split; [done|]. left. split; [done|]. left. split; [|done].
    eapply answered_before; [exact Hu|]. apply inline_answered.
  - split; [done|]. right; right. split; [by left|]. split; done.
Qed.
End Outcome.

(** ** In terms of the tables *)

(** The rows of the call are in one of these states. *)
Definition rows_in (P : CallStatus -> Prop) (sid : Z) (tc : PendingToolCall) (t : Store) : Prop :=
  forall c, In c (t_calls t) -> the_row sid (pc_call tc) (pc_entry tc) c -> P (c_status c).

(** Another call is as it was: its results counted the same, its rows the same. *)
Definition same_call (sid : Z) (k : cstring) (t t' : Store) : Prop :=
  answers sid k t' = answers sid k t /\
  List.filter (fun c => streq (c_call c) k) (t_calls t') = List.filter (fun c => streq (c_call c) k) (t_calls t).

Lemma same_call_refl sid k t : same_call sid k t t.
Proof. done. Qed.

Lemma same_call_trans sid k t1 t2 t3 : same_call sid k t1 t2 -> same_call sid k t2 t3 -> same_call sid k t1 t3.
Proof. intros [A B] [A' B']. split; congruence. Qed.

Lemma unmoved_same_call sid k t t' : unmoved t t' -> same_call sid k t t'.
Proof. intros (A & B & _). split; [apply B|by rewrite A]. Qed.

Lemma filter_map_other (call k : cstring) (g : ToolCallRow -> ToolCallRow) l :
  k <> call -> (forall c, c_call c <> call -> g c = c) -> (forall c, ident (g c) = ident c) ->
  List.filter (fun c => streq (c_call c) k) (map g l) = List.filter (fun c => streq (c_call c) k) l.
Proof.
  intros Hk Hg Hi. induction l as [|c l IH]; [done|]. cbn.
  assert (Hc : c_call (g c) = c_call c) by (specialize (Hi c); unfold ident in Hi; congruence). rewrite Hc.
  destruct (streq (c_call c) k) eqn:E; [|exact IH]. unfold streq in E. apply bool_decide_eq_true in E.
  rewrite Hg by congruence. by rewrite IH.
Qed.

Lemma answered_same_call st sid call entry t t' k : k <> call -> answered_as st sid call entry t t' -> same_call sid k t t'.
Proof.
  intros Hk [(g & Hg & H1 & H2 & _) Ha]. split.
  - rewrite Ha. unfold streq. rewrite (bool_decide_false (k = call)) by done. rewrite andb_false_r. lia.
  - rewrite Hg. by eapply filter_map_other.
Qed.

Lemma update_same_call sid call f k t :
  k <> call -> (forall c, ident (f c) = ident c) -> same_call sid k t (update_calls sid call f t).
Proof.
  intros Hk Hf. split; [done|]. unfold update_calls. cbn [t_calls with_calls].
  apply (filter_map_other call); [done| |].
  - intros c Hc. unfold is_call, streq. rewrite (bool_decide_false (c_call c = call)) by done. by rewrite andb_false_r.
  - intros c. by destruct (is_call sid call c).
Qed.

Lemma same_call_rows P sid tc t t' : same_call sid (pc_call tc) t t' -> rows_in P sid tc t -> rows_in P sid tc t'.
Proof.
  intros [_ Hf] Hr c Hin Hc. apply Hr; [|done]. pose proof Hc as (_ & _ & Hk).
  assert (Hm : In c (List.filter (fun c => streq (c_call c) (pc_call tc)) (t_calls t'))) by (apply filter_In; split; [done|by rewrite Hk, streq_refl]).
  rewrite Hf in Hm. by apply filter_In in Hm as [Hm _].
Qed.

Lemma same_call_has sid tc t t' : same_call sid (pc_call tc) t t' -> has_row sid (pc_call tc) (pc_entry tc) t -> has_row sid (pc_call tc) (pc_entry tc) t'.
Proof.
  intros [_ Hf] (c & Hin & Hc). exists c. split; [|done]. pose proof Hc as (_ & _ & Hk).
  assert (Hm : In c (List.filter (fun c => streq (c_call c) (pc_call tc)) (t_calls t))) by (apply filter_In; split; [done|by rewrite Hk, streq_refl]).
  rewrite <- Hf in Hm. by apply filter_In in Hm as [Hm _].
Qed.

Lemma answered_rows st sid tc t t' :
  answered_as st sid (pc_call tc) (pc_entry tc) t t' ->
  rows_in (fun s => s = st) sid tc t' /\ answers sid (pc_call tc) t' = answers sid (pc_call tc) t + 1.
Proof.
  intros [(g & Hg & H1 & H2 & H3) Ha]. split; [|by rewrite Ha, Z.eqb_refl, streq_refl].
  intros c' Hin Hc. rewrite Hg in Hin. apply in_map_iff in Hin as (c & <- & Hin). apply H3.
  specialize (H2 c). unfold ident in H2. unfold the_row in *. destruct Hc as (A & B & D). injection H2 as _ E1 E2 E3 _.
  split_all; congruence.
Qed.

Lemma unmoved_rows P sid tc t t' : unmoved t t' -> rows_in P sid tc t -> rows_in P sid tc t'.
Proof. intros (Hc & _) Hr c. rewrite Hc. apply Hr. Qed.

(** What an outcome says of the tables, and how it lets the process grow. *)
Definition tables (r : Runtime) (sid : Z) (tc : PendingToolCall) (d : Dispatched) : Prop :=
  let (rc, r') := d in
  let same := answers sid (pc_call tc) (rt_store r') = answers sid (pc_call tc) (rt_store r) in
  (rc = 1 /\ answers sid (pc_call tc) (rt_store r') = answers sid (pc_call tc) (rt_store r) + 1 /\
   (rows_in (eq CallDone) sid tc (rt_store r') /\ slots r' = slots r /\ rt_threads r' = rt_threads r \/
    rows_in (eq CallBackground) sid tc (rt_store r') /\ slots r' = slots r ++ [call_slot sid tc true] /\
      rt_threads r' = rt_threads r)) \/
  ((rc = 0 \/ rc = 3) /\ same /\ rows_in (eq CallRunning) sid tc (rt_store r') /\ owner r r' sid tc) \/
  ((rc = 2 \/ rc = -1) /\ same /\ rows_in (eq CallRunning) sid tc (rt_store r') /\ slots r' = slots r /\
    rt_threads r' = rt_threads r).

Record rt_grows (r r' : Runtime) : Prop := {
  gr_slots : exists more, slots r' = slots r ++ more;
  gr_threads : exists more, rt_threads r' = rt_threads r ++ more;
  gr_replies : replies_kept (rt_store r) (rt_store r');
  gr_async : rt_async r -> rt_async r'
}.

Lemma rt_grows_same r r' :
  slots r' = slots r -> rt_threads r' = rt_threads r -> replies_kept (rt_store r) (rt_store r') ->
  (rt_async r -> rt_async r') -> rt_grows r r'.
Proof. intros Es Et Hr Ha. split; [exists []; by rewrite app_nil_r|exists []; by rewrite app_nil_r|done|done]. Qed.

Lemma rt_grows_refl r : rt_grows r r.
Proof. by apply rt_grows_same. Qed.

Lemma rt_grows_trans r1 r2 r3 : rt_grows r1 r2 -> rt_grows r2 r3 -> rt_grows r1 r3.
Proof.
  intros [[m E] [t T] R A] [[m' E'] [t' T'] R' A'].
  split; [exists (m ++ m'); by rewrite E', E, app_assoc|exists (t ++ t'); by rewrite T', T, app_assoc|by eapply replies_trans|auto].
Qed.

Lemma outcome_grows r sid tc d : outcome r sid tc d -> rt_grows r (snd d).
Proof.
  destruct d as [rc r']. cbn [snd].
  intros [Ha [(_ & [(A & S & T)|(A & S & T)])|[(_ & (_ & _ & U) & O)|(_ & (_ & _ & U) & S & T)]]].
  - by apply rt_grows_same; [| |apply A|].
  - split; [by eexists|exists []; by rewrite app_nil_r|apply A|done].
  - destruct O as [O T|j O T|O T]; [split; [by eexists|exists []; by rewrite app_nil_r|done|done]| |by apply rt_grows_same].
    split; [exists []; by rewrite app_nil_r|by eexists|done|done].
  - by apply rt_grows_same.
Qed.

Lemma outcome_tables r sid tc d :
  rows_in (eq CallRunning) sid tc (rt_store r) -> outcome r sid tc d ->
  tables r sid tc d /\ rt_grows r (snd d) /\ (forall k, k <> pc_call tc -> same_call sid k (rt_store r) (rt_store (snd d))).
Proof.
  intros Hr Ho. pose proof (outcome_grows _ _ _ _ Ho) as Hg. revert Ho Hg. destruct d as [rc r']. cbn [snd].
  intros [Ha [(E & [(A & S)|(A & S)])|[(E & U & O)|(E & U & S)]]] Hg.
  - destruct (answered_rows _ _ _ _ _ A) as [Hrows Han]. split; [left; split; [done|]; split; [done|]; left; split; [|done]|].
    + intros c Hc Hrow. symmetry. by apply Hrows.
    + split; [done|]. intros k Hk. by eapply answered_same_call.
  - destruct (answered_rows _ _ _ _ _ A) as [Hrows Han]. split; [left; split; [done|]; split; [done|]; right; split; [|done]|].
    + intros c Hc Hrow. symmetry. by apply Hrows.
    + split; [done|]. intros k Hk. by eapply answered_same_call.
  - split; [right; left; split; [done|]; split; [apply U|]; split; [by eapply unmoved_rows|done]|].
    split; [done|]. intros k Hk. by apply unmoved_same_call.
  - split; [right; right; split; [done|]; split; [apply U|]; split; [by eapply unmoved_rows|done]|].
    split; [done|]. intros k Hk. by apply unmoved_same_call.
Qed.

(** ** Batches *)

(** The fate of each call of a batch: answered; left to an owner while the next ones
    start, or while they wait; put back because there was no room for a child, or for a
    park, a failed claim or a call before it. *)
Inductive Fate := Answered | Parallel | Serial | Ceiling | Back.
#[export] Instance Fate_eq_dec : EqDecision Fate.
Proof. solve_decision. Defined.

(** What will answer a call left open, started since [r]: its own child, its own thread,
    or, of a launch, the session that owes its reply. *)
Definition waited_for (r r' : Runtime) (sid : Z) (tc : PendingToolCall) : Prop :=
  (exists more, slots r' = slots r ++ more /\ call_slot sid tc false ∈ more) \/
  (exists more j, rt_threads r' = rt_threads r ++ more /\ j ∈ more /\ tj_session j = sid /\ tj_call j = pc_call tc /\
     tj_entry j = pc_entry tc) \/
  (pc_name tc = bs "launch_agent" /\ reply_owed sid (pc_call tc) (rt_store r')).

Definition fate_ok (r r' : Runtime) (sid : Z) (tc : PendingToolCall) (f : Fate) : Prop :=
  let n := answers sid (pc_call tc) (rt_store r) in
  let n' := answers sid (pc_call tc) (rt_store r') in
  match f with
  | Answered => n' = n + 1 /\ rows_in (fun s => s = CallDone \/ s = CallBackground) sid tc (rt_store r')
  | Parallel | Serial => n' = n /\ rows_in (eq CallRunning) sid tc (rt_store r') /\ waited_for r r' sid tc
  | Ceiling => n' = n /\ rows_in (eq CallPending) sid tc (rt_store r') /\
               (sid ∈ rt_stalled r' \/ STALLED_MAX <= zlen (rt_stalled r'))
  | Back => n' = n /\ rows_in (eq CallPending) sid tc (rt_store r')
  end.

(** After a call that stops the batch every other goes back. *)
Fixpoint in_order (fs : list Fate) : bool :=
  match fs with
  | [] => true
  | (Answered | Parallel) :: fs => in_order fs
  | _ :: fs => forallb (fun f => bool_decide (f = Back)) fs
  end.

Definition stops (f : Fate) : bool := match f with Answered | Parallel => false | _ => true end.
Definition waits (f : Fate) : bool := match f with Parallel | Serial => true | _ => false end.

(** A later step that leaves this call alone and lets the process grow. *)
Lemma waited_grows r r1 r2 sid tc : rt_grows r1 r2 -> waited_for r r1 sid tc -> waited_for r r2 sid tc.
Proof.
  intros [[m E] [l T] R _] [(k & Hk & Hs)|[(k & j & Hk & Hj & Hx)|[Hn Hr]]].
  - left. exists (k ++ m). rewrite E, Hk, app_assoc. split; [done|]. apply elem_of_app. by left.
  - right; left. exists (k ++ l), j. rewrite T, Hk, app_assoc. split; [done|]. split; [apply elem_of_app; by left|done].
  - right; right. split; [done|by apply R].
Qed.

Lemma waited_before r r1 r2 sid tc : rt_grows r r1 -> waited_for r1 r2 sid tc -> waited_for r r2 sid tc.
Proof.
  intros [[m E] [l T] _ _] [(k & Hk & Hs)|[(k & j & Hk & Hj & Hx)|Hr]]; [| |by right; right].
  - left. exists (m ++ k). rewrite Hk, E, app_assoc. split; [done|]. apply elem_of_app. by right.
  - right; left. exists (l ++ k), j. rewrite Hk, T, app_assoc. split; [done|]. split; [apply elem_of_app; by right|done].
Qed.

Lemma owner_waited r r' sid tc : owner r r' sid tc -> waited_for r r' sid tc.
Proof.
  intros [O1 O2|j O1 O2 O3 O4 O5|O1 O2 O3 O4].
  - left. eexists. split; [exact O1|]. by apply list_elem_of_singleton.
  - right; left. eexists _, j. split; [exact O2|]. split; [by apply list_elem_of_singleton|done].
  - right; right. by split.
Qed.

Lemma fate_later r r1 r2 sid tc f :
  f = Answered \/ f = Parallel -> fate_ok r r1 sid tc f -> rt_grows r1 r2 -> same_call sid (pc_call tc) (rt_store r1) (rt_store r2) ->
  fate_ok r r2 sid tc f.
Proof.
  intros Hf Hok Hg Hs. pose proof (proj1 Hs) as Ha. destruct Hf as [-> | ->]; cbn in *; rewrite Ha.
  - destruct Hok as [A B]. split; [done|]. by eapply same_call_rows.
  - destruct Hok as (A & B & C). split; [done|]. split; [by eapply same_call_rows|by eapply waited_grows].
Qed.

Lemma fate_before r r1 r2 sid tc f :
  rt_grows r r1 -> same_call sid (pc_call tc) (rt_store r) (rt_store r1) -> fate_ok r1 r2 sid tc f -> fate_ok r r2 sid tc f.
Proof.
  intros Hg [Ha _] Hok. destruct f; cbn in *; rewrite Ha in Hok; try done.
  1, 2: destruct Hok as (A & B & C); split; [done|]; split; [done|]; by eapply waited_before.
Qed.

(** *** The claim and its undo *)
Lemma row_is_call sid tc c : the_row sid (pc_call tc) (pc_entry tc) c -> is_call sid (pc_call tc) c = true.
Proof. intros (<- & _ & <-). unfold is_call. by rewrite Z.eqb_refl, streq_refl. Qed.

(** A rewrite of the call's rows that keeps who they are. *)
Lemma update_rows (P Q : CallStatus -> Prop) sid tc f t :
  (forall c, ident (f c) = ident c) -> (forall c, P (c_status c) -> Q (c_status (f c))) ->
  rows_in P sid tc t -> rows_in Q sid tc (update_calls sid (pc_call tc) f t).
Proof.
  intros Hf HPQ Hr c' Hin Hc'. unfold update_calls in Hin. cbn [t_calls with_calls] in Hin.
  apply in_map_iff in Hin as (c & <- & Hin).
  assert (Hc : the_row sid (pc_call tc) (pc_entry tc) c).
  { destruct (is_call sid (pc_call tc) c); [|done]. specialize (Hf c). unfold ident in Hf. injection Hf as _ E1 E2 E3 _.
    unfold the_row in *. destruct Hc' as (A & B & D). split_all; congruence. }
  rewrite (row_is_call sid tc c Hc). by apply HPQ, Hr.
Qed.

Lemma claim_spec t sid tc :
  has_row sid (pc_call tc) (pc_entry tc) t -> rows_in (eq CallPending) sid tc t ->
  let (claimed, t') := db_tool_call_claim t sid (pc_call tc) in
  claimed = true /\ rows_in (eq CallRunning) sid tc t' /\ answers sid (pc_call tc) t' = answers sid (pc_call tc) t /\
  (forall k, k <> pc_call tc -> same_call sid k t t').
Proof.
  intros (c & Hin & Hc) Hp. unfold db_tool_call_claim. split; [|split; [|split; [done|]]].
  - apply existsb_exists. exists c. split; [done|]. rewrite (row_is_call sid tc c Hc), <- (Hp c Hin Hc). by rewrite bool_decide_true.
  - apply (update_rows (eq CallPending)); [| |done]; intros c0; [by case_decide|]. intros <-. by case_decide.
  - intros k Hk. apply update_same_call; [done|]. intros c0. by case_decide.
Qed.

Lemma unclaim_spec t sid tc :
  rows_in (eq CallRunning) sid tc t -> let t' := db_tool_call_unclaim t sid (pc_call tc) in
  rows_in (eq CallPending) sid tc t' /\ answers sid (pc_call tc) t' = answers sid (pc_call tc) t /\
  (forall k, k <> pc_call tc -> same_call sid k t t').
Proof.
  intros Hr. cbn zeta. unfold db_tool_call_unclaim. split; [|split; [done|]].
  - apply (update_rows (eq CallRunning)); [| |done]; intros c0; [by case_decide|]. intros <-. by case_decide.
  - intros k Hk. apply update_same_call; [done|]. intros c0. by case_decide.
Qed.

Lemma stalled_has sid l : sid ∈ stalled_add sid l \/ STALLED_MAX <= zlen (stalled_add sid l).
Proof.
  unfold stalled_add. destruct (existsb (Z.eqb sid) l) eqn:E.
  - left. apply existsb_exists in E as (x & Hx & E). apply Z.eqb_eq in E as <-. by apply list_elem_of_In.
  - destruct (zlen l <? STALLED_MAX) eqn:El; [left; apply elem_of_app; right; by apply list_elem_of_singleton|right; lia].
Qed.

Section Batch.
Context {J : Json1} `{Ingest} `{Secure} {Hs : Handlers} {HL : HandlersLaw Hs}.
Context (alloc grow : Z -> bool) (ext : bool) (getenv sec : cstring -> option cstring) (env : Process)
  (cast_integer : cstring -> cstring) (group : list (cstring * option cstring) -> cstring)
  (catalog : World -> Catalog) (cfg_db : option cstring) (sid : Z) (agent : option cstring).

Abbreviation step v ok tc b := (batch_call alloc grow ext getenv sec env cast_integer group catalog cfg_db v ok sid agent tc b).
Abbreviation loop ins i calls b := (batch_loop alloc grow ext getenv sec env cast_integer group catalog cfg_db ins i sid agent calls b).

(** What the process asks of a call before a batch: a row of its own, unclaimed, and an
    id that fits a slot. *)
Definition ready (t : Store) (tc : PendingToolCall) : Prop :=
  (length (pc_call tc) < 64)%nat /\ has_row sid (pc_call tc) (pc_entry tc) t /\ rows_in (eq CallPending) sid tc t.

Lemma batch_step v ok tc b :
  ba_stop b = false -> rt_async (ba_rt b) -> fi_append (ou_finish v) = true -> ready (rt_store (ba_rt b)) tc ->
  let b' := step v ok tc b in
  exists f, fate_ok (ba_rt b) (ba_rt b') sid tc f /\ ba_stop b' = stops f /\ ba_async b' = ba_async b || waits f /\
    rt_grows (ba_rt b) (ba_rt b') /\ (forall k, k <> pc_call tc -> same_call sid k (rt_store (ba_rt b)) (rt_store (ba_rt b'))).
Proof.
  intros Hb Has Ha (Hl & Hh & Hp). cbn zeta. unfold batch_call. rewrite Hb.
  destruct ok; cbn [negb].
  2:{ exists Back. cbn. split_all; try done; [by rewrite orb_false_r|apply rt_grows_refl]. }
  pose proof (claim_spec _ _ _ Hh Hp) as Hc.
  assert (Et : snd (db_tool_call_claim (rt_store (ba_rt b)) sid (pc_call tc)) =
    update_calls sid (pc_call tc) (fun c => if decide (c_status c = CallPending) then set_status CallRunning None c else c) (rt_store (ba_rt b))) by done.
  destruct (db_tool_call_claim (rt_store (ba_rt b)) sid (pc_call tc)) as [claimed t]. cbn [snd] in Et.
  destruct Hc as (-> & Hr & Hn & Hk). cbn [negb].
  set (r1 := r_store (fun _ => t) (ba_rt b)). change t with (rt_store r1) in Hr, Hn, Hk.
  assert (Hg1 : rt_grows (ba_rt b) r1) by (apply rt_grows_same; try done; unfold r1; rewrite Et; by apply replies_same).
  pose proof (dispatch_outcome alloc grow ext getenv sec env cast_integer group catalog cfg_db sid tc v agent Hl Ha r1 Has) as Ho.
  apply outcome_tables in Ho; [|done].
  destruct (dispatch_tool _ _ _ _ _ _ _ _ _ _ v r1 sid agent tc) as [rc r2]. cbn [snd] in Ho. destruct Ho as (Ht & Hg & Hk').
  pose proof (rt_grows_trans _ _ _ Hg1 Hg) as Hgg.
  assert (Hkk : forall k, k <> pc_call tc -> same_call sid k (rt_store (ba_rt b)) (rt_store r2)) by (intros k Hne; eapply same_call_trans; eauto).
  destruct Ht as [(-> & E & Hrow)|[([-> | ->] & E & Hrow & Hown)|(Hrc & E & Hrow & Hsl)]].
  - exists Answered. cbn. rewrite orb_false_r. split_all; try done; [by rewrite E, Hn|].
    intros c Hin Hc. destruct Hrow as [[Hx _]|[Hx _]]; rewrite <- (Hx c Hin Hc); auto.
  - exists Serial. cbn. rewrite orb_true_r, E, Hn. split_all; try done. eapply waited_before; [exact Hg1|by apply owner_waited].
  - exists Parallel. cbn. rewrite orb_true_r, E, Hn. split_all; try done. eapply waited_before; [exact Hg1|by apply owner_waited].
  - pose proof (unclaim_spec _ _ _ Hrow) as (Hu1 & Hu2 & Hu3).
    set (r3 := r_store (fun t => db_tool_call_unclaim t sid (pc_call tc)) r2). change (db_tool_call_unclaim (rt_store r2) sid (pc_call tc)) with (rt_store r3) in *.
    assert (Hk3 : forall k, k <> pc_call tc -> same_call sid k (rt_store (ba_rt b)) (rt_store r3))
      by (intros k Hne; exact (same_call_trans _ _ _ _ _ (Hkk k Hne) (Hu3 k Hne))).
    assert (H3 : (rc =? 1) = false /\ (rc =? 3) = false /\ (rc =? 0) = false) by lia. destruct H3 as (-> & -> & ->).
    assert (Hans : answers sid (pc_call tc) (rt_store r3) = answers sid (pc_call tc) (rt_store (ba_rt b))) by (by rewrite Hu2, E, Hn).
    assert (Hg3 : rt_grows (ba_rt b) r3) by (eapply rt_grows_trans; [exact Hgg|apply rt_grows_same; try done; by apply replies_same]).
    assert (Hg4 : forall l, rt_grows (ba_rt b) (r_stalled l r3)) by (intros l; eapply rt_grows_trans; [exact Hg3|by apply rt_grows_same]).
    destruct Hrc as [-> | ->].
    + exists Back. cbn [Z.eqb Pos.eqb ba_rt ba_stop ba_async stops waits]. rewrite orb_false_r. by split_all.
    + exists Ceiling. cbn [Z.eqb Pos.eqb ba_rt ba_stop ba_async stops waits]. rewrite orb_false_r.
      split_all; try done. split; [exact Hans|]. split; [exact Hu1|]. apply stalled_has.
Qed.

Lemma batch_stopped ins i calls b : ba_stop b = true -> loop ins i calls b = b.
Proof.
  revert i b. induction calls as [|tc calls IH]; intros i b Hb; cbn [batch_loop]; [done|].
  assert (E : step (fst (ins i)) (snd (ins i)) tc b = b) by (unfold batch_call; by rewrite Hb). rewrite E. by apply IH.
Qed.

Lemma back_all r r' calls :
  Forall (ready (rt_store r)) calls -> (forall tc, tc ∈ calls -> same_call sid (pc_call tc) (rt_store r) (rt_store r')) ->
  Forall2 (fate_ok r r' sid) calls (repeat Back (length calls)).
Proof.
  induction calls as [|tc calls IH]; intros Hf Hsc; [constructor|]. apply Forall_cons in Hf as [(_ & _ & Hp) Hf].
  assert (Hx : same_call sid (pc_call tc) (rt_store r) (rt_store r')) by (apply Hsc; left).
  constructor; [split; [apply Hx|by eapply same_call_rows]|]. apply IH; [done|]. intros tc' Hin. apply Hsc. by right.
Qed.

Lemma back_repeat n :
  forallb (fun f => bool_decide (f = Back)) (repeat Back n) = true /\ existsb waits (repeat Back n) = false.
Proof. induction n as [|n [A B]]; [done|]. cbn. by rewrite A, B. Qed.

Lemma fates_before r r1 r2 calls fs :
  rt_grows r r1 -> Forall2 (fate_ok r1 r2 sid) calls fs ->
  (forall tc, tc ∈ calls -> same_call sid (pc_call tc) (rt_store r) (rt_store r1)) ->
  Forall2 (fate_ok r r2 sid) calls fs.
Proof.
  intros Hg. induction 1 as [|tc f calls fs Hx _ IH]; intros Hsc; [constructor|]. constructor.
  - eapply fate_before; [exact Hg| |exact Hx]. apply Hsc. left.
  - apply IH. intros tc' Hin. apply Hsc. by right.
Qed.

Lemma ready_same t t' tc : same_call sid (pc_call tc) t t' -> ready t tc -> ready t' tc.
Proof. intros Hsc (A & B & C). split; [done|]. split; [by eapply same_call_has|by eapply same_call_rows]. Qed.

Lemma batch_fates ins i calls b :
  ba_stop b = false -> rt_async (ba_rt b) -> (forall n, fi_append (ou_finish (fst (ins n))) = true) -> NoDup (map pc_call calls) ->
  Forall (ready (rt_store (ba_rt b))) calls ->
  let b' := loop ins i calls b in
  exists fs, Forall2 (fate_ok (ba_rt b) (ba_rt b') sid) calls fs /\ in_order fs = true /\
    ba_stop b' = existsb stops fs /\ ba_async b' = ba_async b || existsb waits fs /\ rt_grows (ba_rt b) (ba_rt b') /\
    (forall k, k ∉ map pc_call calls -> same_call sid k (rt_store (ba_rt b)) (rt_store (ba_rt b'))).
Proof.
  intros Hb Has Ha. revert i b Hb Has. induction calls as [|tc calls IH]; intros i b Hb Has Hnd Hf; cbn zeta; cbn [batch_loop].
  { exists []. cbn. rewrite Hb, orb_false_r. split_all; try done. apply rt_grows_refl. }
  apply Forall_cons in Hf as [Htc Hf]. cbn [map] in Hnd. apply NoDup_cons in Hnd as [Hnin Hnd].
  destruct (batch_step (fst (ins i)) (snd (ins i)) tc b Hb Has (Ha i) Htc) as (f & F1 & F2 & F3 & F4 & F5).
  set (b1 := step (fst (ins i)) (snd (ins i)) tc b) in *.
  assert (Hother : forall tc', tc' ∈ calls -> pc_call tc' <> pc_call tc).
  { intros tc' Hin E. apply Hnin. rewrite <- E. by apply list_elem_of_fmap_2. }
  destruct (stops f) eqn:Es.
  - rewrite (batch_stopped ins (S i) calls b1) by done. exists (f :: repeat Back (length calls)).
    destruct (back_repeat (length calls)) as [R1 R2]. split_all; try done.
    + constructor; [done|]. apply back_all; [done|]. intros tc' Hin. by apply F5, Hother.
    + cbn. destruct f; done.
    + cbn. by rewrite Es.
    + cbn. by rewrite R2, orb_false_r.
    + intros k Hk. apply F5. intros ->. apply Hk. left.
  - assert (Hf1 : Forall (ready (rt_store (ba_rt b1))) calls).
    { rewrite Forall_forall in *. intros tc' Hin. apply (ready_same (rt_store (ba_rt b))); [by apply F5, Hother|by apply Hf]. }
    destruct (IH (S i) b1 F2 (gr_async _ _ F4 Has) Hnd Hf1) as (fs & G1 & G2 & G3 & G4 & G5 & G6). exists (f :: fs).
    assert (Hf' : f = Answered \/ f = Parallel) by (destruct f; auto; done). split_all.
    + constructor.
      * eapply fate_later; [exact Hf'|exact F1|exact G5|]. by apply G6.
      * apply (fates_before _ _ _ _ _ F4 G1). intros tc' Hin. by apply F5, Hother.
    + cbn. by destruct Hf' as [-> | ->].
    + cbn. by rewrite Es, G3.
    + cbn. by rewrite G4, F3, orb_assoc.
    + by eapply rt_grows_trans.
    + intros k Hk. cbn [map] in Hk. apply not_elem_of_cons in Hk as [Hk1 Hk2]. eapply same_call_trans; [by apply F5|by apply G6].
Qed.
End Batch.

Lemma refresh_reg alloc c w agent s : su_reg (agent_setup_refresh_caps alloc c w agent s) = su_reg s.
Proof.
  unfold agent_setup_refresh_caps, bind_caps. cbn [su_reg]. transitivity (su_reg (containment_refresh c agent s)).
  - unfold workspace_refresh. destruct agent as [a|]; [|done]. destruct (_ || _); [done|]. cbn zeta. by destruct (_ <=? _)%nat.
  - unfold containment_refresh. by destruct agent.
Qed.

Section Claims.
Context {J : Json1} `{Ingest} `{Secure} {Hs : Handlers} {HL : HandlersLaw Hs}.
Context (alloc grow : Z -> bool) (ext : bool) (getenv sec : cstring -> option cstring) (env : Process)
  (cast_integer : cstring -> cstring) (group : list (cstring * option cstring) -> cstring)
  (catalog : World -> Catalog) (cfg_db : option cstring) (sid : Z) (agent : option cstring).


End Claims.

(** ** Examples *)

(** A launch that blocks: a new child session, and the edge that owes its reply. *)
Definition child_id (t : Store) : Z :=
  1 + fold_right Z.max 0 (map x_id (t_sessions t) ++ map d_session (t_edges t)).

Definition demo_launch (ctx : HandlerCtx) (call : cstring) (t : Store) : Store :=
  delivery_edge_create
    (with_sessions (t_sessions t ++ [mk_xsession (child_id t) (Some (bs "helper")) LlmRunning 0 0 (hc_session ctx) None None None 0]) t)
    (child_id t) KToolCall call PQuiescent true.

Lemma fresh_above l z : z ∈ l -> z < 1 + fold_right Z.max 0 l.
Proof. induction l as [|x l IH]; [by intros ?%elem_of_nil|]. intros [->|Hz%IH]%elem_of_cons; cbn; lia. Qed.

Lemma demo_launch_edges ctx call t :
  t_edges (demo_launch ctx call t) = t_edges t ++ [mk_edge (t_next_edge t) (child_id t) KToolCall call PQuiescent 0 true].
Proof.
  unfold demo_launch, delivery_edge_create. cbn [t_edges with_sessions].
  destruct (existsb _ _) eqn:E; [|done]. apply existsb_exists in E as (d & Hd & E).
  assert (d_session d < child_id t); [|lia]. apply fresh_above, elem_of_app. right.
  apply list_elem_of_fmap. exists d. split; [done|by apply list_elem_of_In].
Qed.

Lemma demo_launch_sessions ctx call t :
  t_sessions (demo_launch ctx call t) =
    t_sessions t ++ [mk_xsession (child_id t) (Some (bs "helper")) LlmRunning 0 0 (hc_session ctx) None None None 0].
Proof. unfold demo_launch, delivery_edge_create. by destruct (existsb _ _). Qed.

Lemma demo_launch_unmoved ctx call t :
  unmoved t (demo_launch ctx call t) /\ reply_owed (hc_session ctx) call (demo_launch ctx call t).
Proof.
  assert (Hc : t_calls (demo_launch ctx call t) = t_calls t /\ t_entries (demo_launch ctx call t) = t_entries t).
  { unfold demo_launch, delivery_edge_create. by destruct (existsb _ _). }
  split; [apply unmoved_same; [apply Hc|apply Hc|]|].
  - intros s k (d & x & Hd & Hk & Ho & Hr & Hx & Hp). exists d, x. rewrite demo_launch_edges.
    split; [apply elem_of_app; by left|]. split_all; try done. unfold get_session. rewrite demo_launch_sessions.
    rewrite find_app. unfold get_session in Hx. by rewrite Hx.
  - exists (mk_edge (t_next_edge t) (child_id t) KToolCall call PQuiescent 0 true),
      (mk_xsession (child_id t) (Some (bs "helper")) LlmRunning 0 0 (hc_session ctx) None None None 0).
    rewrite demo_launch_edges. split; [apply elem_of_app; right; by apply list_elem_of_singleton|].
    split_all; try done. unfold get_session. rewrite demo_launch_sessions, find_app.
    destruct (List.find _ (t_sessions t)) as [x|] eqn:E.
    + apply find_some in E as [Hin E]. cbn in E. assert (x_id x < child_id t); [|lia].
      apply fresh_above, elem_of_app. left. apply list_elem_of_fmap. exists x. split; [done|by apply list_elem_of_In].
    + cbn. by rewrite Z.eqb_refl.
Qed.

(** launch_agent blocks, and every other tool answers. *)
Definition demo_handlers : Handlers := {|
  run_handler name ctx args r :=
    if decide (name = bs "launch_agent") then
      match hc_call ctx with
      | Some call => (None, false, r_store (demo_launch ctx call) r)
      | None => (Some (bs "launched"), false, r)
      end
    else (Some (bs "ok"), false, r) |}.
#[export] Instance demo_handlers_law : HandlersLaw demo_handlers.
Proof.
  intros name ctx args r. cbn [run_handler demo_handlers]. destruct (decide _) as [->|Hn]; [|by split_all].
  destruct (hc_call ctx) as [call|] eqn:Ec; [|by split_all].
  destruct (demo_launch_unmoved ctx call (rt_store r)) as [Hu Hr]. split_all; try done.
  intros c _ _ [= <-]. exact Hr.
Qed.

Definition batch_docs : Json1 := demo_json [(bs "{}", JObj []); (bs "u", JObj [(bs "url", JText (bs "https://a.io/"))])].
Definition note_tool : ToolEntry := mk_tool (bs "note") None None None (H_inline (bs "note")) (UCtx OtherCtx) recipe0.
Definition web_tool : ToolEntry :=
  mk_tool (bs "web_fetch") None None None H_stub UWeb (mk_recipe EXEC_SANDBOX SBX_WEB false false true false NULL_NONE).
Definition batch_setup : AgentSetup :=
  mk_setup [demo_shell_entry; note_tool; web_tool] (mk_caps [] [] [] []) [] [] false false (bs "/home/u/.cclaw/agents") [] false
    (mk_file demo_base) (mk_js demo_base [] false None) (mk_web demo_base [] false) (mk_shell demo_base [] 30 None [])
    (WsCfg None) (WsCfg None) (fun _ => mk_hctx 0 None None) [].
Definition batch_row (i : Z) (name : string) : ToolCallRow := mk_call i 1 i (bs "c" ++ print_int i) (bs name) CallPending None None.
Definition batch_calls : list PendingToolCall :=
  [mk_pc (bs "c1") (bs "note") (Some (bs "{}")) 1 1; mk_pc (bs "c2") (bs "web_fetch") (Some (bs "u")) 1 2;
   mk_pc (bs "c3") (bs "note") (Some (bs "{}")) 1 3].
Definition batch_world : World :=
  mk_world (mk_store 1000 [mk_xsession 1 (Some (bs "Ada")) ToolRunning 1 1 (-1) None None (Some (bs "i1")) 0] [] 1 [] 1
      [batch_row 1 "note"; batch_row 2 "web_fetch"; batch_row 3 "note"] [] 1 [] [] [] [] [] [mk_process (bs "i1") 7 990] []) []
    [mk_grant (bs "Ada") (bs "tool") (bs "note") TOOL_MODE_SILENT None; mk_grant (bs "Ada") (bs "tool") (bs "web_fetch") TOOL_MODE_SILENT None;
     mk_grant (bs "Ada") (bs "host") (bs "a.io") TOOL_MODE_SILENT None] [] [] [] [] [] [] None.
Definition batch_runtime : Runtime := mk_rt batch_world [] [] [] [] [] batch_setup [] [] [] [].
Definition batch_outside : Outside :=
  mk_outside (mk_writes true true true) None quiet_finish (mk_spawn true (Some 77) true 1000) true None true
    (mk_host 1000 (fun _ => true) (fun _ => false) None None).
Definition demo_process_env : Process :=
  mk_process_env (bs "i1") true false false None None false (fun _ _ => None) (fun _ _ _ _ => mk_applied false None [] [] [] [] [] [] []).
Definition demo_batch (ins : nat -> Outside * bool) :=
  @dispatch_tools batch_docs demo_ingest plain demo_handlers (fun _ => true) (fun _ => true) true (fun _ => None) (fun _ => None)
    demo_process_env id (fun _ => bs "{}") (fun _ => demo_catalog demo_policy_tool) None ins id 1 (Some (bs "Ada")) batch_calls batch_runtime.
Definition fates_of (r : Runtime) : list (CallStatus * Z) :=
  map (fun c => (c_status c, answers 1 (c_call c) (rt_store r))) (t_calls (rt_store r)).

(** The first call runs in the process, the second waits for its child, and the third
    is not started. *)
Example batch_run : let (again, r) := demo_batch (fun _ => (batch_outside, true)) in
  again = false /\ fates_of r = [(CallDone, 1); (CallRunning, 0); (CallPending, 0)] /\ map cp_tool_call_id (rt_children r) = [bs "c2"].
Proof. by vm_compute. Qed.

(** A blocking launch: the call waits alone for the session that owes its reply. *)
Definition launch_tool : ToolEntry :=
  mk_tool (bs "launch_agent") None None None (H_inline (bs "launch_agent")) (UCtx LaunchCtx)
    (mk_recipe EXEC_INLINE SBX_NONE false false false true NULL_ASYNC).
Definition launch_world : World :=
  let w := batch_world in
  mk_world (with_calls [mk_call 4 1 4 (bs "c4") (bs "launch_agent") CallRunning None None] (w_store w)) (w_config w)
    (mk_grant (bs "Ada") (bs "tool") (bs "launch_agent") TOOL_MODE_SILENT None :: w_grants w) [] [] [] [] [] [] None.
Definition launch_runtime : Runtime := mk_rt launch_world [] [] [] [] [] (with_reg [launch_tool; note_tool] batch_setup) [] [] [] [].

Example launch_waits :
  let (rc, r) := @dispatch_tool batch_docs demo_ingest plain demo_handlers (fun _ => true) (fun _ => true) true (fun _ => None) (fun _ => None)
    demo_process_env id (fun _ => bs "{}") (fun _ => demo_catalog demo_policy_tool) None batch_outside launch_runtime 1 (Some (bs "Ada"))
    (mk_pc (bs "c4") (bs "launch_agent") (Some (bs "{}")) 1 4) in
  rc = 0 /\ map c_status (t_calls (rt_store r)) = [CallRunning] /\
  t_edges (rt_store r) = [mk_edge 1 2 KToolCall (bs "c4") PQuiescent 0 true] /\
  option_map x_parent (get_session (rt_store r) 2) = Some 1.
Proof. by vm_compute. Qed.

(** ** Witnesses *)
Lemma batch_async : rt_async batch_runtime.
Proof. repeat (apply Forall_cons_2; [discriminate|]); apply Forall_nil_2. Qed.

Definition demo_dispatch (tc : PendingToolCall) (r : Runtime) : Dispatched :=
  @dispatch_tool batch_docs demo_ingest plain demo_handlers (fun _ => true) (fun _ => true) true (fun _ => None) (fun _ => None)
    demo_process_env id (fun _ => bs "{}") (fun _ => demo_catalog demo_policy_tool) None batch_outside r 1 (Some (bs "Ada")) tc.
Definition web_call : PendingToolCall := mk_pc (bs "c2") (bs "web_fetch") (Some (bs "u")) 1 2.
Definition claimed_runtime : Runtime := r_store (fun t => snd (db_tool_call_claim t 1 (bs "c2"))) batch_runtime.


