(* ===== verification/DispatchEgress.v ===== *)
(** * What reaches the child of a call: dispatch, egress and wire together

    A child is sent a request only after the gate let the call through, and the egress
    it reads from the pipe is that of [call_egress_build]. *)
From S2P Require Import Prelude CString Libc Codec HostMatch SecretInterp Ingest Store Json1 Config ToolPolicy Approval Resolve Gate Trust Proxy Egress Capture Wire Delivery ToolFrame Complete Setup ToolRequest Dispatch DispatchOnce.

(** ** Numbers that fit an [int] *)
Definition profile_ok (p : SandboxProfile) : Prop :=
  Forall int_ok [sb_env_mode p; sb_nproc p; sb_as_mb p; sb_cpu_sec p; sb_sandbox p; sb_net_mode p; sb_mount_cwd p].

Record setup_ok (s : AgentSetup) : Prop := {
  so_file : profile_ok (b_sb (f_base (su_file s))); so_js : profile_ok (b_sb (js_base (su_js s)));
  so_web : profile_ok (b_sb (wf_base (su_web s))); so_shell : profile_ok (b_sb (sc_base (su_shell s)));
  so_timeout : int_ok (sc_timeout (su_shell s))
}.

Lemma int_of_u32_ok v : int_ok (int_of_u32 v).
Proof.
  unfold int_of_u32, int_ok. cbn zeta. pose proof (Z.mod_pos_bound v (2 ^ 32) ltac:(lia)).
  destruct (_ <? _) eqn:E; lia.
Qed.

Lemma atoi_ok s : int_ok (atoi s).
Proof. apply int_of_u32_ok. Qed.

Section Numbers.
Context {J : Json1} (cast_integer : cstring -> cstring) (getenv sec : cstring -> option cstring).

Lemma args_int_ok args key def : int_ok def -> int_ok (tool_args_int cast_integer args key def).
Proof. intros Hd. unfold tool_args_int. repeat (case_match; try done). apply atoi_ok. Qed.

Lemma call_timeout_ok args def : int_ok def -> int_ok (tool_call_timeout cast_integer args def).
Proof.
  intros Hd. unfold tool_call_timeout, tool_timeout_clamp, TOOL_TIMEOUT_MAX_SEC. cbn zeta.
  pose proof (args_int_ok args (bs "timeout") def Hd). unfold int_ok in *. repeat case_match; lia.
Qed.

Lemma config_int_ok rows key : int_ok (config_get_int getenv sec rows key).
Proof. unfold config_get_int. destruct (config_get _ _ _ _); [apply atoi_ok|done]. Qed.

Lemma job_timeout_ok w args : int_ok (job_timeout getenv sec cast_integer w args) /\ 0 < job_timeout getenv sec cast_integer w args.
Proof.
  unfold job_timeout. cbn zeta. pose proof (config_int_ok (w_config w) (bs "job_timeout_max")).
  pose proof (args_int_ok args (bs "timeout") 600 ltac:(done)). unfold int_ok in *. repeat case_match; lia.
Qed.
End Numbers.

(** The parameters have one of the three kinds. *)
Definition kinds_ok (l : list ToolWireArg) : Prop := Forall (fun p => 0 <= wa_kind p < 256) l.

Section Kinds.
Context {J : Json1} (alloc : Z -> bool).

Lemma wire_arg_kind tool args key d w : wire_arg alloc tool args key d = Some w -> 0 <= wa_kind w < 256.
Proof.
  unfold wire_arg. destruct (strdup alloc key); [|done]. destruct (_ && _).
  - destruct (flatten_edit_pairs alloc args); [|done]. by intros [= <-].
  - destruct (strdup alloc (value_text d)); [|done]. intros [= <-]. cbn. by destruct d.
Qed.

Lemma extract_kinds tool schema args l : tool_args_extract alloc tool schema args = Some l -> kinds_ok l.
Proof.
  unfold tool_args_extract. destruct args as [a|]; [|done]. destruct (negb _); [done|]. destruct (json_doc a) as [d|]; [|done].
  destruct (walk_keys schema d) as [keys|]; [|done].
  assert (H : forall n cap acc, kinds_ok acc -> extract_loop alloc tool d n cap keys acc = Some l -> kinds_ok l).
  { induction keys as [|[k|] keys IH]; intros n cap acc Hacc; cbn [extract_loop]; [by intros [= <-]| |by apply IH].
    destruct (json_path d k) as [[[]|]|]; try done; try (by apply IH).
    all: destruct (room _ _ _ _ _) as [cap'|]; [|done]; destruct (wire_arg _ _ _ _ _) as [w|] eqn:Ew; [|done]; apply IH;
      apply Forall_app; split; [done|]; apply Forall_singleton; by eapply wire_arg_kind. }
  apply H, Forall_nil_2.
Qed.

Lemma interpolate_kinds l secrets : kinds_ok l -> kinds_ok (wire_params_interpolate alloc l secrets).
Proof.
  unfold kinds_ok. intros Hl. unfold wire_params_interpolate. destruct secrets; [done|].
  induction Hl as [|p l Hp _ IH]; cbn [map]; [constructor|]. apply Forall_cons. split; [|exact IH]. repeat (case_match; try done).
Qed.
End Kinds.

(** ** The child's proxy *)

(** The policy the broker of a child binds its proxy to. *)
Definition child_policy `{InetPton} (q : RunToolReq) : ProxyPolicy := proxy_bind (q_host_rules q) (Some (q_deny_rules q)).

Lemma opt_str_in (l : list cstring) r : Some r ∈ map opt_str (map Some l) -> r ∈ l.
Proof. intros (x & Hx & (y & -> & Hy)%list_elem_of_fmap)%list_elem_of_fmap. destruct y; [done|]. by injection Hx as ->. Qed.

(** A label that is not empty reaches the child. *)
Lemma parsed_labels ls host l :
  covers_any (map opt_str (map Some ls)) host = false -> l ∈ ls -> l <> [] -> label_covers l host = false.
Proof.
  intros Hc Hl Hne. induction Hl as [l ls|l x ls Hl IH]; cbn in Hc.
  - destruct l as [|c l]; [done|]. by destruct (label_covers (c :: l) host).
  - apply IH; [|done]. destruct x as [|c x]; [done|]. by destruct (label_covers (c :: x) host).
Qed.

Section Reach.
Context {J : Json1} `{InetPton} (alloc grow : Z -> bool) (ext : bool) (catalog : World -> Catalog).

(** An exception a human approved for this call: the sensitive host it names. *)
Definition approved (w : World) (sid : Z) (tc : PendingToolCall) (e : cstring) : Prop :=
  sensitive_host w (pc_args tc) = Some e /\ exists a, authorises w sid tc true a.

(** Where a call may connect: on a sensitive label only under an approved exception that
    the label covers, and where the exception, the hosts bound to the secrets the call
    uses or, when it uses none, the given hosts let it. *)
Definition may_reach (w : World) (sid : Z) (tc : PendingToolCall) (secrets : list ShellSecret) (hosts : list cstring) (host : cstring) : Prop :=
  (forall l, l ∈ w_sensitive w -> l <> [] -> label_covers l host = true -> exists e, approved w sid tc e /\ label_covers l e = true) /\
  ((exists e, approved w sid tc e /\ rule_grants e host) \/
   exists r, rule_grants r host /\
     match used_names alloc (pc_args tc) secrets with
     | [] => r ∈ hosts
     | names => exists n, n ∈ names /\ r ∈ db_secret_hosts w n
     end).

Lemma child_reaches w sid tc secrets base sens q host :
  (forall e, sens = Some e -> approved w sid tc e) ->
  let e := egress_of alloc grow ext catalog w (pc_name tc) (pc_args tc) sens base secrets in
  q_host_rules q = map Some (eg_hosts e) -> q_deny_rules q = map Some (eg_deny e) ->
  host_decide (child_policy (as_parsed q)) host = true ->
  may_reach w sid tc secrets (default base (db_tool_declared_hosts alloc (catalog w) (pc_name tc))) host.
Proof.
  intros Hs e Hh Hd. unfold child_policy. cbn [as_parsed q_host_rules q_deny_rules]. rewrite Hh, Hd.
  intros [Hdeny (r & Hr%opt_str_in & Hg)]%decide_by_rule. unfold e, egress_of, call_egress_build in Hr, Hdeny. cbn [eg_hosts eg_deny] in Hr, Hdeny.
  cbn [host_covered] in Hdeny. split.
  - intros l Hl Hne Hc. destruct sens as [[|c x]|].
    + exfalso. rewrite (parsed_labels _ _ l Hdeny Hl Hne) in Hc. done.
    + exists (c :: x). split; [by apply Hs|]. destruct (label_covers l (c :: x)) eqn:El; [done|]. exfalso.
      rewrite (parsed_labels _ _ l Hdeny) in Hc; [done| |done]. apply elem_of_filter_bool. split; [done|]. cbn. by rewrite El.
    + exfalso. rewrite (parsed_labels _ _ l Hdeny Hl Hne) in Hc. done.
  - set (hosts := match match pc_args tc with Some _ => _ | None => _ end with [] => _ | _ => _ end) in Hr.
    assert (Hb : r ∈ hosts -> match used_names alloc (pc_args tc) secrets with
                              | [] => r ∈ default base (db_tool_declared_hosts alloc (catalog w) (pc_name tc))
                              | names => exists n, n ∈ names /\ r ∈ db_secret_hosts w n
                              end).
    { unfold hosts. destruct (pc_args tc) as [a|]; [|by destruct secrets]. destruct (used_names _ _ _) as [|n ns] eqn:En; [done|].
      intros Hx. by eapply bound_hosts_in. }
    assert (Hx : r ∈ hosts \/ sens = Some r /\ r <> []).
    { destruct sens as [[|c x]|]; [by left| |by left]. destruct ext; [|by left].
      apply elem_of_app in Hr as [Hr|Hr]; [by left|]. apply list_elem_of_singleton in Hr as ->. by right. }
    destruct Hx as [Hx|[-> _]]; [right; exists r; split; [done|by apply Hb]|left; exists r; split; [by apply Hs|done]].
Qed.
End Reach.

(** ** What a dispatch sends *)

(** Only the session tables moved. *)
Definition same_trust (w w' : World) : Prop := exists f, w' = on_store f w.

Lemma same_trust_refl w : same_trust w w.
Proof. exists id. by destruct w. Qed.

Lemma same_trust_trans w1 w2 w3 : same_trust w1 w2 -> same_trust w2 w3 -> same_trust w1 w3.
Proof. intros [f ->] [g ->]. by exists (fun t => g (f t)). Qed.

#[export] Hint Resolve same_trust_refl : core.

Section Sends.
Context {J : Json1} `{Ingest} `{Secure} {Hs : Handlers} {HL : HandlersLaw Hs} `{InetPton}.
Context (alloc grow : Z -> bool) (ext : bool) (getenv sec : cstring -> option cstring) (env : Process)
  (cast_integer : cstring -> cstring) (group : list (cstring * option cstring) -> cstring)
  (catalog : World -> Catalog) (cfg_db : option cstring).
Context (v : Outside) (sid : Z) (agent : option cstring) (tc : PendingToolCall).

(** The hosts the contexts of the tiers were given. *)
Definition tier_hosts (s : AgentSetup) : list (list cstring) := [sc_hosts (su_shell s); wf_hosts (su_web s); js_hosts (su_js s)].

(** A request a tier sends: well formed, and with no hosts or those of the egress of
    the call. *)
Record sendable (r : Runtime) (sens : option cstring) (secrets : list ShellSecret) (q : RunToolReq) : Prop := {
  se_ok : req_ok q;
  se_tier : q_tier q ∈ [RUNTOOL_TIER_FILE; RUNTOOL_TIER_SHELL; RUNTOOL_TIER_WEB; RUNTOOL_TIER_JS];
  se_name : q_tool_name q = Some (pc_name tc) \/ q_tool_name q = Some (bs "js_eval");
  se_hosts : q_host_rules q = [] \/
    exists base w, base ∈ tier_hosts (rt_setup r) /\ same_trust (rt_world r) w /\
      let e := egress_of alloc grow ext catalog w (pc_name tc) (pc_args tc) sens base secrets in
      q_host_rules q = map Some (eg_hosts e) /\ q_deny_rules q = map Some (eg_deny e)
}.

(** Nothing, or one such request. *)
Definition sends (r : Runtime) (sens : option cstring) (secrets : list ShellSecret) (d : Dispatched) : Prop :=
  rt_sent (snd d) = rt_sent r \/
  exists pid blob q, rt_sent (snd d) = rt_sent r ++ [(pid, blob)] /\ run_tool_serialize_request alloc q = Some blob /\
    sendable r sens secrets q.

Lemma launch_sends r r1 sens secrets q timeout msg :
  rt_sent r1 = rt_sent r -> sendable r sens secrets q -> sends r sens secrets (fst (launch alloc v r1 sid agent tc q timeout msg)).
Proof.
  intros E Hq. unfold launch. destruct (run_tool_serialize_request alloc q) as [blob|] eqn:Eb; [|by left].
  destruct (spawn_run_tool_child _ _ _ _ _ _ _ _ _ _) as [t [c|]]; [|by left].
  right. exists (cp_pid c), blob, q. cbn. rewrite E. by split_all.
Qed.

(** The numbers of a request. *)
Lemma tier_ok tier tool b ws tmp read dir e cmd sh timeout secrets params spill llm :
  0 <= tier < 256 -> profile_ok (b_sb b) -> int_ok timeout -> kinds_ok params ->
  req_ok (tier_request tier tool b ws tmp read dir e cmd sh timeout secrets params spill llm).
Proof.
  intros Ht Hp Hi Hk. split; [done| |done]. unfold tier_request, profile_ok in *. cbn. rewrite !Forall_cons in *. tauto.
Qed.

Lemma tool_running_same r : same_trust (rt_world r) (rt_world (tool_running env r sid)).
Proof. by eexists. Qed.

Lemma file_sends r te ws sens secrets : setup_ok (rt_setup r) ->
  sends r sens secrets (dispatch_file alloc getenv sec env catalog cfg_db v r sid agent tc te ws).
Proof.
  intros Hok. unfold dispatch_file. destruct (tool_args_extract _ _ _ _) as [params|] eqn:Ep; [|by left].
  apply launch_sends; [done|]. split.
  - apply tier_ok; [done|apply Hok|done|by eapply extract_kinds].
  - left.
  - by left.
  - by left.
Qed.

Lemma web_sends r te sens secrets : setup_ok (rt_setup r) ->
  sends r sens secrets (dispatch_web alloc grow ext getenv sec env cast_integer catalog v r sid agent tc te sens secrets).
Proof.
  intros Hok. unfold dispatch_web. destruct (tool_args_extract _ _ _ _) as [params|] eqn:Ep; [|by left].
  apply launch_sends; [done|]. split.
  - apply tier_ok; [done|apply Hok|by apply call_timeout_ok|by eapply interpolate_kinds, extract_kinds].
  - do 2 right; left.
  - by left.
  - right. exists (wf_hosts (su_web (rt_setup r))), (rt_world (tool_running env r sid)). split; [right; left|]. split; [apply tool_running_same|done].
Qed.

Lemma shell_sends r sens background secrets ws : setup_ok (rt_setup r) ->
  sends r sens secrets (dispatch_shell alloc grow ext getenv sec env cast_integer catalog v r sid agent tc sens background secrets ws).
Proof.
  intros Hok. unfold dispatch_shell. destruct (tool_args_str _ _) as [command|]; [|by left]. cbn zeta.
  match goal with |- context [launch alloc v ?r1 sid agent tc ?q ?t ?m] =>
    pose proof (launch_sends r r1 sens secrets q t m) as Hl; destruct (launch alloc v r1 sid agent tc q t m) as [d spawned] end.
  cbn [fst] in Hl. assert (Hd : sends r sens secrets d).
  { apply Hl; [done|]. split.
    - apply tier_ok; [done|apply Hok| |apply Forall_nil_2]. destruct background; [apply job_timeout_ok|apply call_timeout_ok, Hok].
    - right; left.
    - by left.
    - right. exists (sc_hosts (su_shell (rt_setup r))), (rt_world (tool_running env r sid)). split; [left|]. split; [apply tool_running_same|done]. }
  destruct (spawned && background); [|exact Hd]. unfold sends in *.
  assert (E : rt_sent (snd (job_start env catalog v (snd d) sid tc)) = rt_sent (snd d)) by (unfold job_start, last_child; cbn; by destruct (rev _)).
  by rewrite E.
Qed.

Lemma js_sends r te sens secrets : setup_ok (rt_setup r) ->
  sends r sens secrets (dispatch_js alloc grow ext getenv sec env cast_integer group catalog v r sid agent tc te sens secrets).
Proof.
  intros Hok. unfold dispatch_js. destruct (js_tool_resolve_request te) as [path|]; [|by left]. cbn zeta.
  match goal with |- context [match ?p with inl _ => _ | inr _ => _ end] => set (params := p) end.
  assert (Hp : forall l, params = inl l -> kinds_ok l).
  { unfold params. destruct path as [path|].
    - unfold handler_params. destruct (_ && _); [|done]. intros l [= <-]. unfold kinds_ok. by repeat (apply Forall_cons; split; [done|]).
    - destruct (tool_args_extract _ _ _ _) as [l|] eqn:El; [|done]. intros l' [= <-]. by eapply extract_kinds. }
  destruct params as [l|[msg detail]]; [|by left]. specialize (Hp l eq_refl).
  match goal with |- context [launch alloc v ?r1 sid agent tc ?q ?t ?m] =>
    pose proof (launch_sends r r1 sens secrets q t m) as Hl; destruct (launch alloc v r1 sid agent tc q t m) as [d spawned]; set (q0 := q) in * end.
  cbn [fst] in Hl. assert (Hd : sends r sens secrets d).
  { apply Hl; [done|]. split.
    - apply tier_ok; [done|apply Hok|by apply call_timeout_ok|by apply interpolate_kinds].
    - do 3 right; left.
    - by right.
    - right. exists (js_hosts (su_js (rt_setup r))), (rt_world (tool_running env r sid)). split; [do 2 right; left|]. split; [apply tool_running_same|done]. }
  destruct spawned; [|exact Hd]. unfold sends in *.
  assert (E : rt_sent (snd (fst d, add_bridge v q0 (snd d))) = rt_sent (snd d)) by (cbn [snd]; unfold add_bridge; by repeat case_match).
  by rewrite E.
Qed.

Lemma inline_sends r te sens secrets : sends r sens secrets (dispatch_inline alloc getenv sec env v r sid agent tc te secrets).
Proof.
  unfold dispatch_inline. cbn zeta. pose proof (handler_leaves (te_name te)
    (ctx_of (rt_setup (r_setup (bind_setup (te_data te) sid (pc_call tc) agent (rt_setup r)) r)) (te_data te))) as Hl.
  match goal with |- context [run_handler _ _ ?a ?r1] => specialize (Hl a r1); destruct (run_handler _ _ a r1) as [[result is_err] r2] end.
  destruct Hl as (_ & _ & _ & Hsent & _). left. destruct result as [result|].
  - unfold inline_commit. destruct (secure_with _ _ _ _ _) as [x db]. destruct (tool_result_commit _ _ _ _ _ _ _ _ _ _ _). exact Hsent.
  - destruct (rc_null_kind (te_recipe te)); [|exact Hsent|destruct (handle_approval_park _ _ _ _ _ _); exact Hsent].
    unfold inline_commit. destruct (secure_with _ _ _ _ _) as [x db]. destruct (tool_result_commit _ _ _ _ _ _ _ _ _ _ _). exact Hsent.
Qed.

Lemma after_gate_sends r te sens secrets : setup_ok (rt_setup r) ->
  sends r sens secrets (after_gate alloc grow ext getenv sec env cast_integer group catalog cfg_db v r sid agent tc te sens secrets).
Proof.
  intros Hok. unfold after_gate. destruct (missing_secret _ _ _); [by left|]. cbn zeta. destruct (_ && _); [by left|].
  unfold run_call. destruct (rc_vehicle _); [apply inline_sends| |].
  - destruct (rc_thread_run _); [|by left]. unfold dispatch_thread. destruct (ou_thread v); by left.
  - assert (Hno : sends r sens secrets (answer_inline r sid tc (bs "error: tool has no execution recipe") true None)) by by left.
    destruct (rc_tier _), (te_data te); try (destruct (ws_text _ _); [|exact Hno]);
      lazymatch goal with
      | |- sends _ _ _ (dispatch_file _ _ _ _ _ _ _ _ _ _ _ _ _) => by apply file_sends
      | |- sends _ _ _ (dispatch_shell _ _ _ _ _ _ _ _ _ _ _ _ _ _ _ _ _) => by apply shell_sends
      | |- sends _ _ _ (dispatch_web _ _ _ _ _ _ _ _ _ _ _ _ _ _ _ _) => by apply web_sends
      | |- sends _ _ _ (dispatch_js _ _ _ _ _ _ _ _ _ _ _ _ _ _ _ _ _) => by apply js_sends
      | |- _ => exact Hno
      end.
Qed.
End Sends.

Section Confined.
Context {J : Json1} `{Ingest} `{Secure} {Hs : Handlers} {HL : HandlersLaw Hs} `{InetPton}.
Context (alloc grow : Z -> bool) (ext : bool) (getenv sec : cstring -> option cstring) (env : Process)
  (cast_integer : cstring -> cstring) (group : list (cstring * option cstring) -> cstring)
  (catalog : World -> Catalog) (cfg_db : option cstring).
Context (v : Outside) (sid : Z) (agent : option cstring) (tc : PendingToolCall).

(** What the gate lets through: the grant and the filter of the session hold, and an
    exception was approved. *)
Lemma gate_through wr ce w by_ once host w' cards :
  dispatch_gate alloc getenv sec env wr ce w sid agent tc = (Proceed by_ once host, w', cards) ->
  grants_contains w agent (Some (bs "tool")) (Some (pc_name tc)) = true /\ session_tool_allowed w sid (pc_name tc) = true /\
  same_trust w w' /\ forall e, (if once then Some host else None) = Some e -> approved w sid tc e.
Proof.
  unfold dispatch_gate, tool_inline_error.
  destruct (grants_contains _ _ _ _); [|by intros [=]]. destruct (session_tool_allowed _ _ _); [|by intros [=]].
  destruct (tool_args_valid_object _); [|by intros [=]]. cbn [negb].
  do 3 (case_bool_decide; [by intros [=]|]). cbn zeta. destruct (unbound_secret _ _ _ _ _); [by intros [=]|].
  intros Hg. split; [done|]. split; [done|]. destruct (_ || _).
  - apply approval_gate_proceeds in Hg as (a & -> & -> & -> & Ha & ->). split; [by eexists|]. intros e He.
    destruct (sensitive_host w (pc_args tc)) as [x|] eqn:Ex; [|done]. injection He as <-. split; [exact Ex|by exists a].
  - injection Hg as <- <- <- <- <-. by split.
Qed.

Lemma egress_same w w1 sens base secrets :
  (forall f w, catalog (on_store f w) = catalog w) -> same_trust w w1 ->
  let e1 := egress_of alloc grow ext catalog w1 (pc_name tc) (pc_args tc) sens base secrets in
  let e := egress_of alloc grow ext catalog w (pc_name tc) (pc_args tc) sens base secrets in
  eg_hosts e1 = eg_hosts e /\ eg_deny e1 = eg_deny e.
Proof. intros Hc [f ->]. cbn zeta. unfold egress_of. by rewrite Hc. Qed.

Lemma tier_known tier :
  tier ∈ [RUNTOOL_TIER_FILE; RUNTOOL_TIER_SHELL; RUNTOOL_TIER_WEB; RUNTOOL_TIER_JS] -> exists d, tier_descriptor tier = Some d.
Proof. intros Ht. repeat (apply elem_of_cons in Ht as [->|Ht]; [by eexists|]). by apply elem_of_nil in Ht. Qed.

(** A request with no hosts reaches nothing. *)
Lemma no_hosts_reach q host : q_host_rules q = [] -> host_decide (child_policy q) host = false.
Proof.
  intros E. destruct (host_decide _ _) eqn:Ed; [|done]. apply decide_by_rule in Ed as (_ & r & Hr & _). rewrite E in Hr. by apply elem_of_nil in Hr.
Qed.

Lemma find_tool_frame r name te r1 :
  find_tool catalog r agent name = (te, r1) ->
  rt_world r1 = rt_world r /\ rt_sent r1 = rt_sent r /\ tier_hosts (rt_setup r1) = tier_hosts (rt_setup r) /\
  (setup_ok (rt_setup r) -> setup_ok (rt_setup r1)).
Proof.
  unfold find_tool. destruct (tools_lookup _ _); intros [= <- <-]; split_all; try done. intros [A B C D E]. by split.
Qed.

(** (C3) What a dispatch sends to a child is nothing, or one request that the child reads back whole, for a tool the agent has a live grant for and the session's filter allows; and under that request the child's proxy connects only to hosts bound to a secret the call uses or, when it uses none, to those its manifest declares or its agent was granted, and to a host on a sensitive label only under an exception a human approved for this very call. *)
Theorem child_confined r :
  (forall n, n <= 24 * RUNTOOL_REQUEST_MAX -> alloc n = true) -> setup_ok (rt_setup r) -> pc_name tc <> [] ->
  (forall f w, catalog (on_store f w) = catalog w) ->
  let (_, r') := dispatch_tool alloc grow ext getenv sec env cast_integer group catalog cfg_db v r sid agent tc in
  let w := rt_world r in
  rt_sent r' = rt_sent r \/
  exists pid blob q d, rt_sent r' = rt_sent r ++ [(pid, blob)] /\ (forall rest, run_tool_read alloc (blob ++ rest) = inr (q, d)) /\
    grants_contains w agent (Some (bs "tool")) (Some (pc_name tc)) = true /\ session_tool_allowed w sid (pc_name tc) = true /\
    forall host, host_decide (child_policy q) host = true -> exists base, base ∈ tier_hosts (rt_setup r) /\
      may_reach alloc w sid tc (snapshot (rt_secrets r)) (default base (db_tool_declared_hosts alloc (catalog w) (pc_name tc))) host.
Proof.
  intros Ha Hok Hn Hc. unfold dispatch_tool, dispatch_tool_inner. destruct (_ <=? _); [by left|].
  destruct (find_tool catalog r agent (pc_name tc)) as [te r1] eqn:Ef. apply find_tool_frame in Ef as (Ew & Es & Eh & Hok1).
  destruct te as [te|]; [|by left]. rewrite Ew.
  destruct (dispatch_gate _ _ _ _ _ _ _ _ _ _) as [[g w1] cards] eqn:Eg. destruct g as [by_ once host| |]; [|by left..].
  apply gate_through in Eg as (Hg & Hf & Hw & Hx).
  set (r2 := r_cards (rt_cards r1 ++ cards) (r_world w1 r1)). set (sens := if once then Some host else None) in *.
  pose proof (after_gate_sends alloc grow ext getenv sec env cast_integer group catalog cfg_db v sid agent tc r2 te sens
    (snapshot (rt_secrets r)) (Hok1 Hok)) as Hs'.
  destruct (after_gate _ _ _ _ _ _ _ _ _ _ _ _ _ _ _ _ _ _) as [rc r']. cbn [snd] in *.
  destruct Hs' as [E|(pid & blob & q & E & Hb & [Hq Ht Hname Hh])]; [left; by rewrite <- Es|]. right.
  destruct (tier_known _ Ht) as [d Hd]. exists pid, blob, (as_parsed q), d.
  split; [cbn [snd] in E; by rewrite E, <- Es|]. split; [|split; [done|split; [done|]]].
  - intros rest. rewrite (wire_read alloc q blob rest) by done. rewrite Hd.
    destruct Hname as [-> | ->]; [|done]. cbn. by destruct (pc_name tc).
  - intros h Hdec. destruct Hh as [Hh|(base & w2 & Hbase & Hw2 & Hh1 & Hh2)].
    + rewrite no_hosts_reach in Hdec; [done|]. cbn. by rewrite Hh.
    + exists base. cbn [r2 rt_setup r_cards r_world] in Hbase. rewrite <- Eh. split; [done|].
      destruct (egress_same (rt_world r) w2 sens base (snapshot (rt_secrets r))) as [E1 E2]; [done|by eapply same_trust_trans|].
      rewrite E1 in Hh1. rewrite E2 in Hh2. by eapply child_reaches.
Qed.
End Confined.

(** ** Witness *)

(** The web call of the batch, under the hosts of the agent's grants. *)
Definition refreshed_runtime : Runtime :=
  r_setup (agent_setup_refresh_caps (fun _ => true) (demo_catalog demo_policy_tool) (rt_world claimed_runtime) (Some (bs "Ada"))
             (rt_setup claimed_runtime)) claimed_runtime.

(** Whether the proxy of the child that was sent one request lets a host through. *)
Definition sent_lets (r : Runtime) (host : cstring) : bool :=
  match rt_sent r with
  | [(_, blob)] => match run_tool_read (fun _ => true) (blob ++ []) with
                   | inr (q, _) => @host_decide demo_pton (child_policy (H := demo_pton) q) host
                   | inl _ => false
                   end
  | _ => false
  end.

Lemma refreshed_ok : setup_ok (rt_setup refreshed_runtime).
Proof. split; try (unfold profile_ok; repeat (apply Forall_cons; split); try apply Forall_nil_2); vm_compute; split; discriminate || reflexivity. Qed.

(** Its dispatch, as [demo_dispatch]. *)
Abbreviation refreshed_dispatch :=
  (@dispatch_tool batch_docs demo_ingest plain demo_handlers (fun _ => true) (fun _ => true) true (fun _ => None) (fun _ => None)
    demo_process_env id (fun _ => bs "{}") (fun _ => demo_catalog demo_policy_tool) None batch_outside refreshed_runtime 1 (Some (bs "Ada")) web_call).

Lemma web_call_reach :
  let r' := snd (refreshed_dispatch) in
  sent_lets r' (bs "a.io") = true /\ sent_lets r' (bs "b.io") = false.
Proof. split; vm_compute; reflexivity. Qed.

Lemma child_confined_witness :
  let r' := snd (refreshed_dispatch) in
  sent_lets r' (bs "a.io") = true /\ sent_lets r' (bs "b.io") = false /\
  exists base, @may_reach batch_docs demo_pton (fun _ => true) (rt_world refreshed_runtime) 1 web_call
    (snapshot (Secure := plain) (rt_secrets refreshed_runtime)) base (bs "a.io").
Proof.
  destruct web_call_reach as [E E0]. cbn zeta. split; [exact E|]. split; [exact E0|].
  pose proof (@child_confined batch_docs demo_ingest plain demo_handlers demo_handlers_law demo_pton (fun _ => true) (fun _ => true) true
    (fun _ => None) (fun _ => None) demo_process_env id (fun _ => bs "{}") (fun _ => demo_catalog demo_policy_tool) None
    batch_outside 1 (Some (bs "Ada")) web_call refreshed_runtime (fun _ _ => eq_refl) refreshed_ok ltac:(discriminate) (fun _ _ => eq_refl)) as H.
  assert (Er : rt_sent refreshed_runtime = []) by exact eq_refl.
  destruct (dispatch_tool _ _ _ _ _ _ _ _ _ _ _ _ _ _ _) as [rc r']. cbn [snd] in E.
  destruct H as [Hn|(pid & blob & q & d & Hs & Hq & _ & _ & Hr)]; unfold sent_lets in E.
  - rewrite Hn, Er in E. discriminate E.
  - rewrite Hs, Er in E. cbn [app] in E. rewrite Hq in E. destruct (Hr _ E) as (base & _ & Hm). eexists. exact Hm.
Defined.
