(* ===== verification/Supervisor.v ===== *)
(** * The supervisor of the channel processes: src/channel.c

    One process per active channel: the launch gate, the reconciliation of the running
    set with the table, the back-off after a death, the detection of a channel that
    flaps with its revert to the extension before, and the watchdog of a silent
    transport; with the operator's verbs on the table. *)
From stdpp Require Import relations.
From S2P Require Import Prelude CString Libc Config Store Approval Resolve.

(** ** State: src/channel.h and the tables *)
Definition CHANNEL_MAX : Z := 16.
Definition CHANNEL_MAX_RESTARTS : Z := 3.
Definition CHANNEL_FLAP_WINDOW : Z := 300.
Definition CHANNEL_MAX_BACKOFF : Z := 60.
Definition CHANNEL_DEAF_TIMEOUT : Z := 300.
Definition CHANNEL_DEAF_MAX : Z := 86400.

Record ChannelProc := mk_chproc {
  hp_pid : Z; hp_name : cstring; hp_restarts : Z; hp_first_crash : Z; hp_next_restart : Z; hp_started : Z
}.

Record ChannelRow := mk_chrow {
  cr_name : cstring; cr_ext : cstring; cr_prev : option cstring; cr_status : cstring; cr_pid : option Z
}.

(** A process of the operating system, and whether it was told to end. *)
Record Runner := mk_runner { rn_pid : Z; rn_name : cstring; rn_told : bool }.

(** [sv_required]: the keys of config with required=1; [sv_marks]: the rows of
    channel_state that hold the last activity; [sv_notes]: the notices to admins in the
    outbox; [sv_forks]: how often fork was called. *)
Record Supervisor := mk_sup {
  sv_procs : list ChannelProc; sv_rows : list ChannelRow; sv_exts : list cstring; sv_config : list ConfigRow;
  sv_required : list cstring; sv_marks : list (cstring * Z); sv_notes : list (cstring * cstring * cstring);
  sv_runners : list Runner; sv_forks : nat
}.

Definition s_procs (p : list ChannelProc) (s : Supervisor) : Supervisor :=
  mk_sup p (sv_rows s) (sv_exts s) (sv_config s) (sv_required s) (sv_marks s) (sv_notes s) (sv_runners s) (sv_forks s).
Definition s_rows (r : list ChannelRow) (s : Supervisor) : Supervisor :=
  mk_sup (sv_procs s) r (sv_exts s) (sv_config s) (sv_required s) (sv_marks s) (sv_notes s) (sv_runners s) (sv_forks s).
Definition s_marks (m : list (cstring * Z)) (s : Supervisor) : Supervisor :=
  mk_sup (sv_procs s) (sv_rows s) (sv_exts s) (sv_config s) (sv_required s) m (sv_notes s) (sv_runners s) (sv_forks s).
Definition s_notes (n : list (cstring * cstring * cstring)) (s : Supervisor) : Supervisor :=
  mk_sup (sv_procs s) (sv_rows s) (sv_exts s) (sv_config s) (sv_required s) (sv_marks s) n (sv_runners s) (sv_forks s).
Definition s_runners (r : list Runner) (s : Supervisor) : Supervisor :=
  mk_sup (sv_procs s) (sv_rows s) (sv_exts s) (sv_config s) (sv_required s) (sv_marks s) (sv_notes s) r (sv_forks s).
Definition s_forks (n : nat) (s : Supervisor) : Supervisor :=
  mk_sup (sv_procs s) (sv_rows s) (sv_exts s) (sv_config s) (sv_required s) (sv_marks s) (sv_notes s) (sv_runners s) n.

(** Whether the database answers: the list of the active channels, the row of a channel,
    a key of config, and the scan of the required keys ([Some n]: it dies after [n] rows). *)
Record Reads := mk_reads {
  rd_names : bool; rd_row : cstring -> bool; rd_key : cstring -> bool; rd_scan : cstring -> option nat
}.

Definition all_read : Reads := mk_reads true (fun _ => true) (fun _ => true) (fun _ => None).

Section Supervisor.
Context (getenv secret_system : cstring -> option cstring).

(** The answer of the [n]-th fork beside the live processes: a pid, or -1. *)
Context (fork : nat -> list Z -> option Z).

(** ** The process table *)
Definition find_by_pid (l : list ChannelProc) (pid : Z) : option (nat * ChannelProc) :=
  list_find (fun c => hp_pid c = pid) l.
Definition find_by_name (l : list ChannelProc) (name : cstring) : bool := existsb (fun c => streq (hp_name c) name) l.

(** Signals: what is told to end stays until it is reaped. *)
Definition sigterm (pid : Z) (s : Supervisor) : Supervisor :=
  s_runners (map (fun r => if rn_pid r =? pid then mk_runner (rn_pid r) (rn_name r) true else r) (sv_runners s)) s.

Definition do_fork (name : cstring) (s : Supervisor) : option Z * Supervisor :=
  let s' := s_forks (S (sv_forks s)) s in
  match fork (sv_forks s) (map rn_pid (sv_runners s)) with
  | Some pid => (Some pid, s_runners (sv_runners s' ++ [mk_runner pid name false]) s')
  | None => (None, s')
  end.

Definition row_of (rows : list ChannelRow) (name : cstring) : option ChannelRow := List.find (fun r => streq (cr_name r) name) rows.

Definition with_pid (pid : Z) (r : ChannelRow) : ChannelRow := mk_chrow (cr_name r) (cr_ext r) (cr_prev r) (cr_status r) (Some pid).
Definition with_status (st : cstring) (r : ChannelRow) : ChannelRow := mk_chrow (cr_name r) (cr_ext r) (cr_prev r) st (cr_pid r).

(** An update of the rows of a name that pass a test: whether one did. *)
Definition edit_row (name : cstring) (p : ChannelRow -> bool) (f : ChannelRow -> ChannelRow) (s : Supervisor) : bool * Supervisor :=
  let hit r := streq (cr_name r) name && p r in
  (existsb hit (sv_rows s), s_rows (map (fun r => if hit r then f r else r) (sv_rows s)) s).

Definition update_pid (name : cstring) (pid : Z) (s : Supervisor) : Supervisor := snd (edit_row name (fun _ => true) (with_pid pid) s).

(** ** The verbs of the operator *)
Definition channel_mark_validated (name : cstring) (s : Supervisor) : bool * Supervisor :=
  edit_row name (fun r => streq (cr_status r) (bs "draft") || streq (cr_status r) (bs "broken")) (with_status (bs "validated")) s.

Definition channel_activate (name : cstring) (s : Supervisor) : bool * Supervisor :=
  edit_row name (fun r => streq (cr_status r) (bs "validated")) (with_status (bs "active")) s.

Definition channel_get_status (name : cstring) (s : Supervisor) : option cstring := option_map cr_status (row_of (sv_rows s) name).

Definition channel_prev_extension (name : cstring) (s : Supervisor) : option cstring :=
  match row_of (sv_rows s) name with Some r => match cr_prev r with Some ((_ :: _) as p) => Some p | _ => None end | None => None end.

Definition channel_bounce (name : cstring) (s : Supervisor) : bool * Supervisor :=
  match row_of (sv_rows s) name with
  | None => (false, s)
  | Some r => (true, let pid := default 0 (cr_pid r) in if pid >? 0 then sigterm pid s else s)
  end.

Inductive SwapRc := SwapOk | SwapNoChannel | SwapNoExtension.

Definition channel_swap (name extension : cstring) (s : Supervisor) : SwapRc * Supervisor :=
  if negb (bool_decide (extension ∈ sv_exts s)) then (SwapNoExtension, s)
  else
    let (_, s) := edit_row name (fun r => negb (streq (cr_ext r) extension))
                    (fun r => mk_chrow (cr_name r) extension (Some (cr_ext r)) (cr_status r) (cr_pid r)) s in
    let (ok, s) := channel_bounce name s in (if ok then SwapOk else SwapNoChannel, s).

(** The revert of one row. *)
Definition reverted (r : ChannelRow) : ChannelRow :=
  mk_chrow (cr_name r) (default [] (cr_prev r)) None (cr_status r) (cr_pid r).

Definition channel_revert (name : cstring) (s : Supervisor) : bool * Supervisor :=
  let (changed, s) := edit_row name (fun r => match cr_prev r with Some _ => true | None => false end) reverted s in
  if changed then channel_bounce name s else (false, s).

(** ** Activity *)
Definition channel_activity_seen (now : Z) (name : cstring) (s : Supervisor) : Supervisor :=
  s_marks (if existsb (fun m => streq (fst m) name) (sv_marks s)
           then map (fun m => if streq (fst m) name then (fst m, now) else m) (sv_marks s)
           else sv_marks s ++ [(name, now)]) s.

Definition channel_activity_reset (now : Z) (name : cstring) (s : Supervisor) : Supervisor :=
  s_marks (map (fun m => if streq (fst m) name then (fst m, now) else m) (sv_marks s)) s.

(** -1 when it was never recorded. *)
Definition channel_activity_age (now : Z) (name : cstring) (s : Supervisor) : Z :=
  match List.find (fun m => streq (fst m) name) (sv_marks s) with Some m => Z.max 0 (now - snd m) | None => -1 end.

Definition deaf_seconds (v : option cstring) : option Z :=
  match v with
  | None | Some [] => None
  | Some v => let (n, rest) := strtol v in
              match rest with
              | [] => Some (if n <=? 0 then 0 else if n >? CHANNEL_DEAF_MAX then CHANNEL_DEAF_MAX else n)
              | _ => None
              end
  end.

Definition sup_setting (s : Supervisor) (name key : cstring) : option cstring :=
  channel_setting getenv secret_system (map (fun r => (cr_name r, cr_ext r)) (sv_rows s)) (sv_config s) name key.

Definition channel_deaf_timeout (name : cstring) (s : Supervisor) : Z :=
  match deaf_seconds (sup_setting s name (bs "deaf_timeout")) with
  | Some n => n
  | None => match deaf_seconds (config_get getenv secret_system (sv_config s) (bs "channel_deaf_timeout")) with
            | Some n => n
            | None => CHANNEL_DEAF_TIMEOUT
            end
  end.

(** A notice to each admin of the channel. *)
Definition channel_notify_admins (name text : cstring) (s : Supervisor) : Supervisor :=
  match sup_setting s name (bs "admin_ids") with
  | None => s
  | Some admins => s_notes (sv_notes s ++ map (fun id => (name, id, text)) (split_and_trim (Some admins) CHANNEL_ADMIN_IDS_MAX)) s
  end.

(** ** The launch gate *)
Inductive LaunchGate := GateYes | GateNo (why : cstring) | GateUnread (why : cstring).

(** A value that is there and not empty, or [None]; [inr]: the read failed. *)
Definition gate_config_get (rd : Reads) (s : Supervisor) (key : cstring) : option cstring + unit :=
  match config_get getenv secret_system (if rd_key rd key then sv_config s else []) key with
  | Some ((_ :: _) as v) => inl (Some v)
  | _ => if rd_key rd key then inl None else inr tt
  end.

Fixpoint required_gate (rd : Reads) (s : Supervisor) (keys : list cstring) : LaunchGate :=
  match keys with
  | [] => GateYes
  | k :: keys =>
      match gate_config_get rd s k with
      | inr _ => GateUnread (bs "config lookup failed for " ++ k)
      | inl None => GateNo (bs "required config " ++ k ++ bs " unresolved")
      | inl (Some _) => required_gate rd s keys
      end
  end.

(** The required keys of an extension, as many as the code keeps. *)
Definition required_keys (s : Supervisor) (ext : cstring) : list cstring :=
  map (snprintf 192) (take 16 (List.filter (fun k => streq (take (length ext + 1) k) (ext ++ bs ".")) (sv_required s))).

(** The reasons without the text of SQLite. *)
Definition channel_should_launch (rd : Reads) (s : Supervisor) (name : cstring) : LaunchGate :=
  if negb (rd_row rd name) then GateUnread (bs "channel lookup failed")
  else
    let (status, ext) := match row_of (sv_rows s) name with
                         | Some r => (snprintf 32 (cr_status r), snprintf 128 (cr_ext r))
                         | None => ([], [])
                         end in
    if negb (streq status (bs "active")) then GateNo (bs "trust status " ++ match status with [] => bs "missing" | _ => status end)
    else if bool_decide (ext = []) then GateNo (bs "no extension registered for this channel")
    else
      match gate_config_get rd s (snprintf 192 (ext ++ bs ".enabled")) with
      | inr _ => GateUnread (bs "enabled lookup failed")
      | inl enabled =>
          if negb match enabled with Some e => negb (streq e (bs "0")) | None => false end
          then GateNo (bs "not enabled (set <ext>.enabled=1)")
          else match rd_scan rd ext with
               | Some n => if (n <=? 16)%nat then GateUnread (bs "required-key lookup failed")
                           else required_gate rd s (required_keys s ext)
               | None => required_gate rd s (required_keys s ext)
               end
      end.

(** ** Start, death, and the tick *)
Definition active_channel_names (rd : Reads) (s : Supervisor) (max : nat) : list cstring :=
  if rd_names rd then
    map (fun r => snprintf 64 (cr_name r))
      (take max (List.filter (fun r => streq (cr_status r) (bs "active") && bool_decide (cr_ext r ∈ sv_exts s)) (sv_rows s)))
  else [].

Definition start_channel (now : Z) (name : cstring) (s : Supervisor) : bool * Supervisor :=
  if CHANNEL_MAX <=? zlen (sv_procs s) then (false, s)
  else match do_fork name s with
       | (None, s) => (false, s)
       | (Some pid, s) =>
           let s := s_procs (sv_procs s ++ [mk_chproc pid (snprintf 64 name) 0 0 0 now]) s in
           (true, channel_activity_reset now name (update_pid name pid s))
       end.

Definition launch_one (rd : Reads) (now : Z) (s : Supervisor) (name : cstring) : Supervisor :=
  match channel_should_launch rd s name with GateYes => snd (start_channel now name s) | _ => s end.

Definition channel_launch_all (rd : Reads) (now : Z) (s : Supervisor) : Supervisor :=
  fold_left (launch_one rd now) (active_channel_names rd s (Z.to_nat (CHANNEL_MAX - zlen (sv_procs s)))) s.

Definition put_proc (i : nat) (c : ChannelProc) (s : Supervisor) : Supervisor := s_procs (<[i := c]> (sv_procs s)) s.

(** [1 << n] in an [int]: undefined from 31 on, and here what the shift of x86 gives. *)
Definition backoff (n : Z) : Z :=
  let delay := int_of_u32 (Z.shiftl 1 (n mod 32)) in
  if delay >? CHANNEL_MAX_BACKOFF then CHANNEL_MAX_BACKOFF else delay.

Definition flap_note (c : ChannelProc) (prev : cstring) : cstring :=
  snprintf 256 ([0xE2; 0x9A; 0xA0] ++ bs " channel " ++ hp_name c ++ bs " crashed " ++ print_int (hp_restarts c) ++
    bs " times and was reverted to extension '" ++ prev ++
    bs "'. The failed extension is still registered " ++ EM_DASH ++ bs " fix and re-swap when ready.").

(** A process of the daemon ended. *)
Definition reaped (pid : Z) (s : Supervisor) : Supervisor :=
  s_runners (List.filter (fun r => negb (rn_pid r =? pid)) (sv_runners s)) s.

Definition channel_reap (now pid : Z) (s : Supervisor) : bool * Supervisor :=
  match find_by_pid (sv_procs s) pid with
  | None => (false, s)
  | Some (i, c) =>
      let first := if hp_first_crash c =? 0 then now else hp_first_crash c in
      let c := mk_chproc (-1) (hp_name c) (hp_restarts c + 1) first (hp_next_restart c) (hp_started c) in
      if (CHANNEL_MAX_RESTARTS <=? hp_restarts c) && (now - first <? CHANNEL_FLAP_WINDOW) then
        match channel_prev_extension (hp_name c) s with
        | Some prev =>
            let s := snd (edit_row (hp_name c) (fun _ => true) reverted s) in
            let s := channel_notify_admins (hp_name c) (flap_note c prev) s in
            (true, put_proc i (mk_chproc (-1) (hp_name c) 0 0 (now + 2) (hp_started c)) s)
        | None =>
            let s := snd (edit_row (hp_name c) (fun _ => true) (with_status (bs "broken")) s) in
            (true, s_procs (swap_remove (sv_procs s) i) s)
        end
      else (true, put_proc i (mk_chproc (-1) (hp_name c) (hp_restarts c) first (now + backoff (hp_restarts c)) (hp_started c)) s)
  end.

(** The channels that should run. *)
Definition wanted (rd : Reads) (s : Supervisor) (name : cstring) : bool :=
  match channel_should_launch rd s name with
  | GateYes => true
  | GateNo _ => false
  | GateUnread _ => find_by_name (sv_procs s) name
  end.

Definition launch_new (now : Z) (s : Supervisor) (name : cstring) : Supervisor :=
  if find_by_name (sv_procs s) name then s else snd (start_channel now name s).

(** The slot is looked at again after a removal. *)
Fixpoint stop_unwanted (fuel i : nat) (desired : list cstring) (s : Supervisor) : Supervisor :=
  match fuel with
  | O => s
  | S fuel =>
      match sv_procs s !! i with
      | None => s
      | Some c =>
          if bool_decide (hp_name c ∈ desired) then stop_unwanted fuel (S i) desired s
          else
            let s := if hp_pid c >? 0 then sigterm (hp_pid c) s else s in
            let s := update_pid (hp_name c) 0 s in
            stop_unwanted fuel i desired (s_procs (swap_remove (sv_procs s) i) s)
      end
  end.

(** *** One tracked channel, in three steps *)
Definition respawn (now : Z) (i : nat) (s : Supervisor) : Supervisor :=
  match sv_procs s !! i with
  | Some c =>
      if (hp_pid c <=? 0) && (hp_next_restart c >? 0) && (hp_next_restart c <=? now) then
        let c := mk_chproc (hp_pid c) (hp_name c) (hp_restarts c) (hp_first_crash c) 0 (hp_started c) in
        match do_fork (hp_name c) s with
        | (Some pid, s) =>
            let c := mk_chproc pid (hp_name c) (hp_restarts c) (hp_first_crash c) 0 now in
            channel_activity_reset now (hp_name c) (update_pid (hp_name c) pid (put_proc i c s))
        | (None, s) => put_proc i c s
        end
      else s
  | None => s
  end.

Definition forgive (now : Z) (i : nat) (s : Supervisor) : Supervisor :=
  match sv_procs s !! i with
  | Some c =>
      if (hp_pid c >? 0) && (hp_restarts c >? 0) && (hp_started c >? 0) && (now - hp_started c >? CHANNEL_FLAP_WINDOW) then
        put_proc i (mk_chproc (hp_pid c) (hp_name c) 0 0 (hp_next_restart c) (hp_started c)) s
      else s
  | None => s
  end.

Definition watch (now : Z) (i : nat) (s : Supervisor) : Supervisor :=
  match sv_procs s !! i with
  | Some c =>
      if hp_pid c >? 0 then
        let age := channel_activity_age now (hp_name c) s in
        let limit := if age >=? 0 then channel_deaf_timeout (hp_name c) s else 0 in
        if (limit >? 0) && (age >=? limit) then channel_activity_reset now (hp_name c) (sigterm (hp_pid c) s) else s
      else s
  | None => s
  end.

Definition tend (now : Z) (s : Supervisor) (i : nat) : Supervisor := watch now i (forgive now i (respawn now i s)).

Definition channel_tick (rd : Reads) (now : Z) (s : Supervisor) : Supervisor :=
  let desired := List.filter (wanted rd s) (active_channel_names rd s (Z.to_nat CHANNEL_MAX)) in
  let s := fold_left (launch_new now) desired s in
  let s := stop_unwanted (2 * length (sv_procs s)) 0 desired s in
  fold_left (tend now) (seq 0 (length (sv_procs s))) s.

Definition channel_next_deadline (s : Supervisor) : Z :=
  fold_left (fun e c => let t := hp_next_restart c in if (t >? 0) && ((e =? 0) || (t <? e)) then t else e) (sv_procs s) 0.

(** ** What the daemon and the others do *)
Inductive sup_step : Supervisor -> Supervisor -> Prop :=
| step_tick rd now s : sup_step s (channel_tick rd now s)
| step_reap now pid s : pid ∈ map rn_pid (sv_runners s) -> sup_step s (snd (channel_reap now pid (reaped pid s)))
| step_bounce name s : sup_step s (snd (channel_bounce name s))
| step_swap name ext s : sup_step s (snd (channel_swap name ext s))
| step_revert name s : sup_step s (snd (channel_revert name s))
| step_tables rows exts config required marks notes s :
    sup_step s (mk_sup (sv_procs s) rows exts config required marks notes (sv_runners s) (sv_forks s)).

(** ** The table of the supervisor and the processes *)
Record tracking (procs : list ChannelProc) (runs : list Runner) : Prop := mk_tracking {
  tk_names : NoDup (map hp_name procs);
  tk_max : (length procs <= 16)%nat;
  tk_pids : NoDup (map rn_pid runs);
  tk_pos : forall r, r ∈ runs -> 0 < rn_pid r;
  tk_live : forall c, c ∈ procs -> 0 < hp_pid c -> exists t, mk_runner (hp_pid c) (hp_name c) t ∈ runs;
  tk_heard : forall r, r ∈ runs -> rn_told r = false -> exists c, c ∈ procs /\ hp_pid c = rn_pid r /\ hp_name c = rn_name r
}.

Definition tracked (s : Supervisor) : Prop := tracking (sv_procs s) (sv_runners s).

(** What the operating system promises of fork: a pid no live process has. *)
Context (Hfork : forall n live p, fork n live = Some p -> 0 < p /\ p ∉ live).

Definition tell (pid : Z) (runs : list Runner) : list Runner :=
  map (fun r => if rn_pid r =? pid then mk_runner (rn_pid r) (rn_name r) true else r) runs.

Lemma tell_pids pid runs : map rn_pid (tell pid runs) = map rn_pid runs.
Proof. unfold tell. rewrite map_map. apply map_ext. intros r. by case_match. Qed.

Lemma elem_of_tell pid runs r :
  r ∈ tell pid runs <-> exists r0, r0 ∈ runs /\ r = (if rn_pid r0 =? pid then mk_runner (rn_pid r0) (rn_name r0) true else r0).
Proof.
  unfold tell. rewrite !list_elem_of_In, in_map_iff. split.
  - intros (r0 & <- & H). exists r0. by rewrite list_elem_of_In.
  - intros (r0 & H & ->). exists r0. by rewrite <- list_elem_of_In.
Qed.

Lemma elem_of_tell_same pid runs r t :
  mk_runner pid r t ∈ runs -> forall k, exists t', mk_runner pid r t' ∈ tell k runs.
Proof.
  intros H k. exists (if pid =? k then true else t). apply elem_of_tell. exists (mk_runner pid r t). split; [done|].
  cbn. by case_match.
Qed.

Lemma tracking_tell procs runs pid : tracking procs runs -> tracking procs (tell pid runs).
Proof.
  intros [H1 H2 H3 H4 H5 H6]. split; try done.
  - by rewrite tell_pids.
  - intros r (r0 & Hr & ->)%elem_of_tell. specialize (H4 _ Hr). by case_match.
  - intros c Hc Hp. destruct (H5 c Hc Hp) as [t Ht]. by apply (elem_of_tell_same _ _ _ t).
  - intros r (r0 & Hr & ->)%elem_of_tell. case_match; [done|]. by apply H6.
Qed.

Lemma tracking_perm procs procs' runs : procs ≡ₚ procs' -> tracking procs runs -> tracking procs' runs.
Proof.
  intros Hp [H1 H2 H3 H4 H5 H6]. split; try done.
  - by rewrite <- Hp.
  - by rewrite <- Hp.
  - intros c. rewrite <- Hp. apply H5.
  - intros r Hr Ht. destruct (H6 r Hr Ht) as (c & Hc & ?). exists c. by rewrite <- Hp.
Qed.

Lemma tracking_drop c procs runs :
  tracking (c :: procs) runs -> tracking procs (if hp_pid c >? 0 then tell (hp_pid c) runs else runs).
Proof.
  intros Ht. assert (Hr : forall r, r ∈ runs -> rn_told r = false -> rn_pid r = hp_pid c \/
    exists c', c' ∈ procs /\ hp_pid c' = rn_pid r /\ hp_name c' = rn_name r).
  { intros r Hr Hf. destruct (tk_heard _ _ Ht r Hr Hf) as (c' & Hc & He & Hn).
    apply elem_of_cons in Hc as [->|Hc]; [by left|right; by exists c']. }
  assert (tracking procs (tell (hp_pid c) runs)) as H.
  { apply (tracking_tell _ _ (hp_pid c)) in Ht as [H1 H2 H3 H4 H5 H6]. split; try done.
    - by inversion H1.
    - cbn in H2. lia.
    - intros c' Hc. apply H5. by right.
    - intros r (r0 & Hr0 & ->)%elem_of_tell. case_match eqn:E; [done|]. intros Hf.
      destruct (Hr r0 Hr0 Hf) as [|]; [lia|done]. }
  destruct (hp_pid c >? 0) eqn:E; [done|]. destruct Ht as [H1 H2 H3 H4 H5 H6]. destruct H as [H1' H2' _ _ _ _].
  split; try done.
  - intros c' Hc. apply H5. by right.
  - intros r Hr0 Hf. destruct (Hr r Hr0 Hf) as [He|]; [|done]. specialize (H4 _ Hr0). lia.
Qed.

(** Any other state of the same channel and process. *)
Lemma tracking_same c c' procs runs :
  hp_name c' = hp_name c -> hp_pid c' = hp_pid c -> tracking (c :: procs) runs -> tracking (c' :: procs) runs.
Proof.
  intros Hn Hp [H1 H2 H3 H4 H5 H6]. split; try done.
  - cbn [map]. by rewrite Hn.
  - intros k [->|Hk]%elem_of_cons; [rewrite Hn, Hp; apply H5; by left|apply H5; by right].
  - intros r Hr Ht. destruct (H6 r Hr Ht) as (k & [->|Hk]%elem_of_cons & He & Hk'); [exists c'|exists k].
    + split; [by left|]. by rewrite Hn, Hp.
    + split; [by right|done].
Qed.

(** A process for a channel that has none. *)
Lemma tracking_start c procs runs :
  (length procs < 16)%nat -> 0 < hp_pid c -> hp_pid c ∉ map rn_pid runs -> hp_name c ∉ map hp_name procs ->
  tracking procs runs -> tracking (c :: procs) (runs ++ [mk_runner (hp_pid c) (hp_name c) false]).
Proof.
  intros Hl Hp Hf Hn [H1 H2 H3 H4 H5 H6]. split.
  - by constructor.
  - cbn [length]. lia.
  - rewrite map_app. apply NoDup_app. split; [done|]. split; [|apply NoDup_singleton].
    intros x Hx ->%list_elem_of_singleton. done.
  - intros r [Hr| ->%list_elem_of_singleton]%elem_of_app; [by apply H4|done].
  - intros k [->|Hk]%elem_of_cons Hk0; [exists false; apply elem_of_app; right; by left|].
    destruct (H5 k Hk Hk0) as [t Ht]. exists t. apply elem_of_app. by left.
  - intros r [Hr| ->%list_elem_of_singleton]%elem_of_app Ht; [|exists c; by split; [left|]].
    destruct (H6 r Hr Ht) as (k & Hk & He). exists k. by split; [right|].
Qed.

Lemma tracking_idle c procs runs :
  (length procs < 16)%nat -> hp_pid c <= 0 -> hp_name c ∉ map hp_name procs -> tracking procs runs -> tracking (c :: procs) runs.
Proof.
  intros Hl Hp Hn [H1 H2 H3 H4 H5 H6]. split; try done.
  - by constructor.
  - intros k [->|Hk]%elem_of_cons Hk0; [lia|by apply H5].
  - intros r Hr Ht. destruct (H6 r Hr Ht) as (k & Hk & He). exists k. by split; [right|].
Qed.

Lemma tracking_head c procs runs :
  tracking (c :: procs) runs -> (length procs < 16)%nat /\ hp_name c ∉ map hp_name procs.
Proof.
  intros [H1 H2 _ _ _ _]. apply NoDup_cons in H1 as [H1 _].
  split; [cbn in H2; lia|done]. Qed.

Definition gone (pid : Z) (runs : list Runner) : list Runner := List.filter (fun r => negb (rn_pid r =? pid)) runs.

Lemma tracking_gone pid procs runs :
  (forall c, c ∈ procs -> hp_pid c <> pid) -> tracking procs runs -> tracking procs (gone pid runs).
Proof.
  intros Hno [H1 H2 H3 H4 H5 H6]. split; try done.
  - by apply NoDup_map_filter.
  - intros r [Hr _]%elem_of_filter_bool. by apply H4.
  - intros c Hc Hp. destruct (H5 c Hc Hp) as [t Ht]. exists t. apply elem_of_filter_bool. split; [done|].
    cbn. specialize (Hno c Hc). by apply negb_true_iff, Z.eqb_neq.
  - intros r [Hr _]%elem_of_filter_bool. by apply H6.
Qed.

Lemma gone_tell pid runs : gone pid (tell pid runs) = gone pid runs.
Proof.
  unfold gone, tell. induction runs as [|r runs IH]; [done|]. cbn. destruct (rn_pid r =? pid) eqn:E; cbn; rewrite E; cbn.
  - done.
  - by rewrite IH.
Qed.

(** Only one tracked channel has the process. *)
Lemma tracking_one_pid c procs runs :
  tracking (c :: procs) runs -> 0 < hp_pid c -> forall c', c' ∈ procs -> hp_pid c' <> hp_pid c.
Proof.
  intros Ht Hp c' Hc He. destruct (tracking_head _ _ _ Ht) as [_ Hn].
  destruct (tk_live _ _ Ht c (list_elem_of_here _ _) Hp) as [t1 H1].
  destruct (tk_live _ _ Ht c' (list_elem_of_further _ _ _ Hc) ltac:(lia)) as [t2 H2].
  pose proof (NoDup_map_inj rn_pid runs _ _ (tk_pids _ _ Ht) H1 H2 (eq_sym He)) as Heq. injection Heq as _ Heq _.
  apply Hn. rewrite Heq. apply list_elem_of_In, in_map, list_elem_of_In, Hc.
Qed.

Lemma tracking_reap c procs runs :
  tracking (c :: procs) runs -> 0 < hp_pid c -> tracking procs (gone (hp_pid c) runs).
Proof.
  intros Ht Hp. pose proof (tracking_one_pid _ _ _ Ht Hp) as Hone. apply tracking_drop in Ht.
  rewrite (proj2 (Z.gtb_lt _ _) Hp) in Ht. rewrite <- gone_tell. by apply tracking_gone.
Qed.

(** ** The operations that write no process *)
Definition same_processes (s s' : Supervisor) : Prop := sv_procs s' = sv_procs s /\ sv_runners s' = sv_runners s.

Lemma same_tracked s s' : same_processes s s' -> tracked s -> tracked s'.
Proof. unfold tracked. by intros [-> ->]. Qed.

Lemma edit_row_processes name p f s : same_processes s (snd (edit_row name p f s)).
Proof. done. Qed.

Lemma notify_processes name text s : same_processes s (channel_notify_admins name text s).
Proof. unfold channel_notify_admins. by destruct (sup_setting _ _ _). Qed.

Lemma bounce_processes name s :
  sv_procs (snd (channel_bounce name s)) = sv_procs s /\
  exists pids, sv_runners (snd (channel_bounce name s)) = foldr tell (sv_runners s) pids.
Proof.
  unfold channel_bounce. destruct (row_of _ _) as [r|]; [|split; [done|by exists []]]. cbn.
  destruct (_ >? 0); [|split; [done|by exists []]]. split; [done|]. by exists [default 0 (cr_pid r)].
Qed.

Lemma tracking_tells procs runs pids : tracking procs runs -> tracking procs (foldr tell runs pids).
Proof. intros H. induction pids as [|p pids IH]; [done|]. by apply tracking_tell. Qed.

Lemma bounce_tracked name s : tracked s -> tracked (snd (channel_bounce name s)).
Proof. unfold tracked. destruct (bounce_processes name s) as [-> [pids ->]]. apply tracking_tells. Qed.

Lemma swap_tracked name ext s : tracked s -> tracked (snd (channel_swap name ext s)).
Proof.
  intros H. unfold channel_swap. case_match; [done|]. destruct (edit_row _ _ _ s) as [b s1] eqn:E.
  assert (tracked s1) as H1 by (change s1 with (snd (b, s1)); rewrite <- E; exact H).
  destruct (channel_bounce name s1) as [ok s2] eqn:E2. cbn. change s2 with (snd (ok, s2)). rewrite <- E2. by apply bounce_tracked.
Qed.

Lemma revert_tracked name s : tracked s -> tracked (snd (channel_revert name s)).
Proof.
  intros H. unfold channel_revert. destruct (edit_row _ _ _ s) as [b s1] eqn:E.
  assert (tracked s1) as H1 by (change s1 with (snd (b, s1)); rewrite <- E; exact H).
  destruct b; [|done]. by apply bounce_tracked.
Qed.

(** ** Start *)
Lemma elem_of_map_name c l : c ∈ l -> hp_name c ∈ map hp_name l.
Proof. intros H. apply list_elem_of_In, in_map. by apply list_elem_of_In. Qed.

Lemma find_by_name_spec l name : find_by_name l name = true <-> name ∈ map hp_name l.
Proof.
  unfold find_by_name. rewrite existsb_exists. split.
  - intros (c & Hc%list_elem_of_In & He%bool_decide_eq_true). rewrite <- He. by apply elem_of_map_name.
  - intros (c & He & Hc)%list_elem_of_In%in_map_iff. exists c. split; [done|]. by apply bool_decide_eq_true.
Qed.

Lemma do_fork_inv name s : forall o s', do_fork name s = (o, s') ->
  sv_procs s' = sv_procs s /\
  match o with
  | Some p => 0 < p /\ (p ∉ map rn_pid (sv_runners s)) /\ sv_runners s' = sv_runners s ++ [mk_runner p name false]
  | None => sv_runners s' = sv_runners s
  end.
Proof.
  unfold do_fork. intros o s'. destruct (fork _ _) as [p|] eqn:E; intros [= <- <-]; [|done].
  apply Hfork in E as [??]. done.
Qed.

(** What a start does: it tracks one more channel, or nothing but the count of forks changes. *)
Lemma start_channel_inv now name s :
  let s' := snd (start_channel now name s) in
  same_processes s s' /\ (fst (start_channel now name s) = false) \/
  exists c, sv_procs s' = sv_procs s ++ [c] /\ hp_name c = snprintf 64 name /\ 0 < hp_pid c /\ hp_next_restart c = 0 /\
    (hp_pid c ∉ map rn_pid (sv_runners s)) /\ sv_runners s' = sv_runners s ++ [mk_runner (hp_pid c) name false] /\
    (length (sv_procs s) < 16)%nat.
Proof.
  unfold start_channel. destruct (CHANNEL_MAX <=? zlen (sv_procs s)) eqn:Em; [by left|].
  destruct (do_fork name s) as [[p|] s1] eqn:Ef; apply do_fork_inv in Ef as [Hp H]; cbn; [|by left].
  destruct H as (H0 & Hn & Hr). right. exists (mk_chproc p (snprintf 64 name) 0 0 0 now). rewrite Hp, Hr. cbn.
  unfold CHANNEL_MAX, zlen in Em. split_all; try done. lia.
Qed.

Lemma short_name name : (length name <= 63)%nat -> snprintf 64 name = name.
Proof. intros H. unfold snprintf. by apply take_ge. Qed.

Lemma start_tracked now name s :
  (length name <= 63)%nat -> name ∉ map hp_name (sv_procs s) -> tracked s -> tracked (snd (start_channel now name s)).
Proof.
  intros Hl Hn Ht. destruct (start_channel_inv now name s) as [[H _]|(c & Hp & Hc & H0 & _ & Hf & Hr & Hlen)];
    [by apply (same_tracked s)|].
  unfold tracked. rewrite Hp, Hr. rewrite (short_name name Hl) in Hc. rewrite <- Hc.
  apply (tracking_perm (c :: sv_procs s)); [by rewrite Permutation_app_comm|]. apply tracking_start; try done. by rewrite Hc.
Qed.

Lemma launch_new_tracked now name s : (length name <= 63)%nat -> tracked s -> tracked (launch_new now s name).
Proof.
  intros Hl Ht. unfold launch_new. destruct (find_by_name _ _) eqn:E; [done|].
  apply start_tracked; try done. rewrite <- find_by_name_spec. by rewrite E.
Qed.

Lemma active_short rd s max name : name ∈ active_channel_names rd s max -> (length name <= 63)%nat.
Proof.
  unfold active_channel_names. destruct (rd_names rd); [|by intros ?%not_elem_of_nil].
  intros (r & <- & _)%list_elem_of_In%in_map_iff. unfold snprintf. rewrite length_take. lia.
Qed.

Lemma active_max rd s max : (length (active_channel_names rd s max) <= max)%nat.
Proof. unfold active_channel_names. destruct (rd_names rd); [|cbn; lia]. rewrite length_map, length_take. lia. Qed.

(** A fold keeps what each step keeps. *)
Lemma fold_keeps {A B} (P : A -> Prop) (Q : B -> Prop) (f : A -> B -> A) l :
  (forall a b, Q b -> P a -> P (f a b)) -> Forall Q l -> forall a, P a -> P (fold_left f l a).
Proof.
  intros Hf. induction 1 as [|b l Hb _ IH]; intros a Ha; [done|]. cbn. apply IH. by apply Hf.
Qed.

(** ** The stop loop *)
Lemma stop_tracked fuel : forall i desired s, tracked s -> tracked (stop_unwanted fuel i desired s).
Proof.
  induction fuel as [|fuel IH]; intros i desired s Ht; [done|]. cbn [stop_unwanted].
  destruct (sv_procs s !! i) as [c|] eqn:Ec; [|done]. case_bool_decide; [by apply IH|]. apply IH.
  pose proof (swap_remove_perm _ _ _ Ec) as Hp. apply (tracking_perm _ _ _ Hp) in Ht. apply tracking_drop in Ht.
  unfold tracked. by destruct (hp_pid c >? 0).
Qed.

Lemma stop_subset fuel : forall i desired s c, c ∈ sv_procs (stop_unwanted fuel i desired s) -> c ∈ sv_procs s.
Proof.
  induction fuel as [|fuel IH]; intros i desired s c; [done|]. cbn [stop_unwanted].
  destruct (sv_procs s !! i) as [k|] eqn:Ek; [|done]. case_bool_decide; intros Hc; apply IH in Hc; [done|].
  apply (elem_of_Permutation_proper c _ _ (swap_remove_perm _ _ _ Ek)). right. by destruct (hp_pid k >? 0).
Qed.

Lemma swap_remove_lookup {A} (l : list A) i j : (j < i)%nat -> (i < length l)%nat -> swap_remove l i !! j = l !! j.
Proof.
  intros Hj Hi. unfold swap_remove. destruct (last l); [|done]. rewrite lookup_take. case_decide; [|lia].
  by rewrite list_lookup_insert_ne by lia.
Qed.

(** Enough fuel: what is left is wanted, and what was wanted is left. *)
Lemma stop_done fuel : forall i desired s,
  (length (sv_procs s) <= i + fuel)%nat ->
  (forall j c, (j < i)%nat -> sv_procs s !! j = Some c -> hp_name c ∈ desired) ->
  forall c, c ∈ sv_procs (stop_unwanted fuel i desired s) <-> c ∈ sv_procs s /\ hp_name c ∈ desired.
Proof.
  assert (Hend : forall i (desired : list cstring) (procs : list ChannelProc),
    (length procs <= i)%nat -> (forall j c, (j < i)%nat -> procs !! j = Some c -> hp_name c ∈ desired) ->
    forall c, c ∈ procs <-> c ∈ procs /\ hp_name c ∈ desired).
  { intros i desired procs Hl H c. split; [|by intros [? _]]. intros Hc. split; [done|].
    apply list_elem_of_lookup in Hc as [j Hj]. apply (H j); [|done]. apply lookup_lt_Some in Hj. lia. }
  induction fuel as [|fuel IH]; intros i desired s Hl Hi; [apply (Hend i); [lia|done]|]. cbn [stop_unwanted].
  destruct (sv_procs s !! i) as [k|] eqn:Ek; [|apply (Hend i); [by apply lookup_ge_None|done]].
  pose proof (lookup_lt_Some _ _ _ Ek) as Hlt. case_bool_decide as Hk.
  - intros c. apply IH; [lia|]. intros j k' Hj Hk'. destruct (decide (j = i)) as [->|]; [rewrite Ek in Hk'; by injection Hk' as <-|]. apply (Hi j); [lia|done].
  - pose proof (swap_remove_perm _ _ _ Ek) as Hp.
    assert (sv_procs (update_pid (hp_name k) 0 (if hp_pid k >? 0 then sigterm (hp_pid k) s else s)) = sv_procs s) as Hs
      by (by destruct (hp_pid k >? 0)).
    intros c. rewrite IH; cbn [sv_procs s_procs]; rewrite Hs.
    + rewrite (elem_of_Permutation_proper c _ _ Hp), elem_of_cons. split; [by intros [? ?]; split; [right|]|]. intros [[->|?] ?]; done.
    + apply Permutation_length in Hp. cbn [length] in Hp. lia.
    + intros j c' Hj. rewrite swap_remove_lookup by done. by apply Hi.
Qed.

(** ** One tracked channel *)
Lemma put_perm (l : list ChannelProc) i c c' : l !! i = Some c -> <[i := c']> l ≡ₚ c' :: delete i l.
Proof.
  intros H. rewrite (delete_Permutation (<[i := c']> l) i c') by (apply list_lookup_insert_eq, (lookup_lt_Some _ _ _ H)).
  by rewrite !delete_take_drop, take_insert_ge, drop_insert_lt by lia.
Qed.

Lemma tracked_at s i c : sv_procs s !! i = Some c -> tracked s -> tracking (c :: delete i (sv_procs s)) (sv_runners s).
Proof. intros H. apply tracking_perm. by apply delete_Permutation. Qed.

Lemma put_tracked s i c c' :
  sv_procs s !! i = Some c -> hp_name c' = hp_name c -> hp_pid c' = hp_pid c -> tracked s -> tracked (put_proc i c' s).
Proof.
  intros Hi Hn Hp Ht. unfold tracked. cbn. apply (tracking_perm (c' :: delete i (sv_procs s))).
  - symmetry. by apply (put_perm _ _ c).
  - apply (tracking_same c); try done. by apply tracked_at.
Qed.

Lemma put_names s i c c' :
  sv_procs s !! i = Some c -> hp_name c' = hp_name c -> map hp_name (sv_procs (put_proc i c' s)) = map hp_name (sv_procs s).
Proof.
  intros Hi Hn. cbn. change (map hp_name (<[i:=c']> (sv_procs s))) with (hp_name <$> <[i:=c']> (sv_procs s)).
  rewrite list_fmap_insert, Hn. apply list_insert_id. by rewrite list_lookup_fmap, Hi.
Qed.

Definition keeps_names (s s' : Supervisor) : Prop := map hp_name (sv_procs s') = map hp_name (sv_procs s).

Lemma respawn_ok now i s : tracked s -> tracked (respawn now i s) /\ keeps_names s (respawn now i s).
Proof.
  intros Ht. unfold respawn. destruct (sv_procs s !! i) as [c|] eqn:Ec; [|done].
  destruct (_ && _) eqn:Eb; [|done]. cbn [hp_name hp_pid hp_restarts hp_first_crash].
  destruct (do_fork (hp_name c) s) as [[p|] s1] eqn:Ef; apply do_fork_inv in Ef as [Hp H]; rewrite <- Hp in Ec.
  - destruct H as (H0 & Hf & Hr).
    split; [|unfold keeps_names; rewrite <- Hp; by apply (put_names s1 i c (mk_chproc p (hp_name c) (hp_restarts c) (hp_first_crash c) 0 now))].
    pose proof (tracked_at s i c ltac:(by rewrite <- Hp)) as Ha. specialize (Ha Ht).
    destruct (tracking_head _ _ _ Ha) as [Hl Hn]. apply tracking_drop in Ha.
    replace (hp_pid c >? 0) with false in Ha by lia.
    set (c' := mk_chproc p (hp_name c) (hp_restarts c) (hp_first_crash c) 0 now).
    assert (tracking (<[i:=c']> (sv_procs s1)) (sv_runners s1)); [|done].
    apply (tracking_perm (c' :: delete i (sv_procs s1))); [symmetry; by apply (put_perm _ _ c)|].
    rewrite Hp, Hr. apply (tracking_start c'); done.
  - assert (tracked s1) as H1 by (unfold tracked; by rewrite Hp, H).
    split; [by apply (put_tracked _ _ c)|]. unfold keeps_names. rewrite <- Hp. by apply (put_names s1 i c).
Qed.

Lemma forgive_ok now i s : tracked s -> tracked (forgive now i s) /\ keeps_names s (forgive now i s).
Proof.
  intros Ht. unfold forgive. destruct (sv_procs s !! i) as [c|] eqn:Ec; [|done]. destruct (_ && _); [|done].
  split; [by apply (put_tracked _ _ c)|by apply (put_names _ _ c)].
Qed.

Lemma watch_ok now i s : tracked s -> tracked (watch now i s) /\ keeps_names s (watch now i s).
Proof.
  intros Ht. unfold watch. destruct (sv_procs s !! i) as [c|]; [|done]. destruct (_ >? 0); [|done]. destruct (_ && _); [|done].
  split; [|done]. by apply (tracking_tell _ _ (hp_pid c)) in Ht.
Qed.

Lemma tend_ok now i s : tracked s -> tracked (tend now s i) /\ keeps_names s (tend now s i).
Proof.
  intros Ht. unfold tend. destruct (respawn_ok now i s Ht) as [H1 E1]. destruct (forgive_ok now i _ H1) as [H2 E2].
  destruct (watch_ok now i _ H2) as [H3 E3]. split; [done|]. unfold keeps_names in *. by rewrite E3, E2.
Qed.

Lemma tend_all now l : forall s, tracked s ->
  tracked (fold_left (tend now) l s) /\ keeps_names s (fold_left (tend now) l s).
Proof.
  induction l as [|i l IH]; intros s Ht; [done|]. cbn. destruct (tend_ok now i s Ht) as [H1 E1].
  destruct (IH _ H1) as [H2 E2]. split; [done|]. unfold keeps_names in *. by rewrite E2.
Qed.

(** ** The tick *)
Definition desired (rd : Reads) (s : Supervisor) : list cstring :=
  List.filter (wanted rd s) (active_channel_names rd s (Z.to_nat CHANNEL_MAX)).

Definition launched (rd : Reads) (now : Z) (s : Supervisor) : Supervisor := fold_left (launch_new now) (desired rd s) s.

Definition stopped (rd : Reads) (now : Z) (s : Supervisor) : Supervisor :=
  let s1 := launched rd now s in stop_unwanted (2 * length (sv_procs s1)) 0 (desired rd s) s1.

Lemma channel_tick_eq rd now s :
  channel_tick rd now s = fold_left (tend now) (seq 0 (length (sv_procs (stopped rd now s)))) (stopped rd now s).
Proof. done. Qed.

Lemma desired_short rd s : Forall (fun n => (length n <= 63)%nat) (desired rd s).
Proof. apply Forall_forall. intros n [Hn _]%elem_of_filter_bool. by apply active_short in Hn. Qed.

Lemma launched_tracked rd now s : tracked s -> tracked (launched rd now s).
Proof. apply (fold_keeps tracked _ _ _ (fun a b => launch_new_tracked now b a) (desired_short rd s)). Qed.

Lemma stopped_tracked rd now s : tracked s -> tracked (stopped rd now s).
Proof. intros H. apply stop_tracked. by apply launched_tracked. Qed.

Lemma tick_tracked rd now s : tracked s -> tracked (channel_tick rd now s).
Proof. intros H. rewrite channel_tick_eq. by apply tend_all, stopped_tracked. Qed.

Lemma stopped_spec rd now s c :
  c ∈ sv_procs (stopped rd now s) <-> c ∈ sv_procs (launched rd now s) /\ hp_name c ∈ desired rd s.
Proof. apply stop_done; [lia|]. intros j k Hj. lia. Qed.

Lemma tick_names rd now s name :
  tracked s ->
  name ∈ map hp_name (sv_procs (channel_tick rd now s)) <->
  name ∈ map hp_name (sv_procs (launched rd now s)) /\ name ∈ desired rd s.
Proof.
  intros Ht. rewrite channel_tick_eq.
  destruct (tend_all now (seq 0 (length (sv_procs (stopped rd now s)))) _ (stopped_tracked rd now s Ht)) as [_ E].
  unfold keeps_names in E. rewrite E. rewrite !list_elem_of_In, !in_map_iff. split.
  - intros (c & <- & Hc%list_elem_of_In%stopped_spec). destruct Hc as [Hc Hd]. split; [|by apply list_elem_of_In].
    exists c. split; [done|]. by apply list_elem_of_In.
  - intros [(c & <- & Hc) Hd]. exists c. split; [done|]. apply list_elem_of_In, stopped_spec.
    by rewrite !list_elem_of_In.
Qed.

(** ** A death *)
Lemma find_by_pid_inv l pid i c : find_by_pid l pid = Some (i, c) -> l !! i = Some c /\ hp_pid c = pid.
Proof. intros (? & ? & _)%list_find_Some. done. Qed.

Lemma reap_tracked now pid s :
  pid ∈ map rn_pid (sv_runners s) -> tracked s -> tracked (snd (channel_reap now pid (reaped pid s))).
Proof.
  intros Hin Ht. assert (0 < pid) as H0
    by (apply list_elem_of_In, in_map_iff in Hin as (r & <- & Hr%list_elem_of_In); by apply (tk_pos _ _ Ht)).
  unfold channel_reap. cbn [sv_procs reaped s_runners]. destruct (find_by_pid (sv_procs s) pid) as [[i c]|] eqn:Ef.
  - apply find_by_pid_inv in Ef as [Hi Hp]. pose proof (tracked_at _ _ _ Hi Ht) as Ha.
    destruct (tracking_head _ _ _ Ha) as [Hl Hn]. apply tracking_reap in Ha; [|by rewrite Hp]. rewrite Hp in Ha.
    assert (Hidle : forall c', hp_pid c' = -1 -> hp_name c' = hp_name c ->
      tracking (<[i := c']> (sv_procs s)) (gone pid (sv_runners s))).
    { intros c' Hc' Hn'. apply (tracking_perm (c' :: delete i (sv_procs s))); [symmetry; by apply (put_perm _ _ c)|].
      apply tracking_idle; [done|lia|by rewrite Hn'|done]. }
    destruct (_ && _); [|by apply Hidle]. destruct (channel_prev_extension _ _) as [prev|].
    + cbn [snd]. unfold tracked, put_proc. cbn [sv_procs s_procs sv_runners].
      destruct (notify_processes (hp_name c) (flap_note
        (mk_chproc (-1) (hp_name c) (hp_restarts c + 1) (if hp_first_crash c =? 0 then now else hp_first_crash c)
           (hp_next_restart c) (hp_started c)) prev)
        (snd (edit_row (hp_name c) (fun _ => true) reverted (reaped pid s)))) as [E1 E2].
      cbn [hp_name] in *. rewrite E1, E2. by apply Hidle.
    + cbn. assert (sv_procs s ≡ₚ c :: swap_remove (sv_procs s) i) as Hs by (by apply swap_remove_perm).
      unfold tracked. cbn. apply (tracking_perm (delete i (sv_procs s))); [|done].
      apply (Permutation_cons_inv (a := c)). rewrite <- Hs. symmetry. by apply delete_Permutation.
  - apply list_find_None in Ef. apply tracking_gone; [|done]. by apply Forall_forall.
Qed.

Lemma find_tracked s c :
  tracked s -> c ∈ sv_procs s -> 0 < hp_pid c -> exists i, find_by_pid (sv_procs s) (hp_pid c) = Some (i, c) /\ sv_procs s !! i = Some c.
Proof.
  intros Ht Hc Hp. destruct (find_by_pid (sv_procs s) (hp_pid c)) as [[i c']|] eqn:E.
  - apply find_by_pid_inv in E as [Hi He]. exists i. pose proof (tracked_at _ _ _ Hi Ht) as Ha.
    apply (elem_of_Permutation_proper c _ _ (delete_Permutation _ _ _ Hi)) in Hc.
    apply elem_of_cons in Hc as [<-|Hc]; [done|].
    by destruct (tracking_one_pid _ _ _ Ha ltac:(by rewrite He) c Hc).
  - apply list_find_None in E. rewrite Forall_forall in E. by destruct (E c Hc).
Qed.

(** The death is one of too many. *)
Definition flaps (now : Z) (c : ChannelProc) : bool :=
  (3 <=? hp_restarts c + 1) && (now - (if hp_first_crash c =? 0 then now else hp_first_crash c) <? 300).

Definition on_row (name : cstring) (f : ChannelRow -> ChannelRow) (rows : list ChannelRow) : list ChannelRow :=
  map (fun r => if streq (cr_name r) name then f r else r) rows.

Lemma backoff_bounds n : 0 <= n < 31 -> 1 <= backoff n <= 60.
Proof.
  intros H. assert (forallb (fun k => let b := backoff (Z.of_nat k) in (1 <=? b) && (b <=? 60)) (seq 0 31) = true) as Hall
    by (vm_compute; reflexivity).
  rewrite forallb_forall in Hall. specialize (Hall (Z.to_nat n)). rewrite Z2Nat.id in Hall by lia.
  apply andb_true_iff in Hall as [??]; [lia|]. apply in_seq. lia.
Qed.

Lemma edit_row_all name f s : sv_rows (snd (edit_row name (fun _ => true) f s)) = on_row name f (sv_rows s).
Proof. cbn. apply map_ext. intros r. by rewrite andb_true_r. Qed.

Lemma elem_of_put (l : list ChannelProc) i c c' : l !! i = Some c -> c' ∈ <[i := c']> l /\
  forall k, k ∈ l -> k <> c -> k ∈ <[i := c']> l.
Proof.
  intros Hi. split; [apply (list_elem_of_lookup_2 _ i), list_lookup_insert_eq, (lookup_lt_Some _ _ _ Hi)|].
  intros k [j Hj]%list_elem_of_lookup Hk. apply (list_elem_of_lookup_2 _ j).
  rewrite list_lookup_insert_ne; [done|]. intros ->. congruence.
Qed.

Lemma row_of_on_row name f rows :
  (forall r, cr_name (f r) = cr_name r) -> row_of (on_row name f rows) name = option_map f (row_of rows name).
Proof.
  intros Hf. unfold row_of, on_row. induction rows as [|r rows IH]; [done|]. cbn.
  destruct (streq (cr_name r) name) eqn:E; [by rewrite Hf, E|by rewrite E].
Qed.

Lemma notify_eq name text s :
  sv_procs (channel_notify_admins name text s) = sv_procs s /\ sv_rows (channel_notify_admins name text s) = sv_rows s /\
  sv_notes (channel_notify_admins name text s) = sv_notes s ++
    match sup_setting s name (bs "admin_ids") with
    | Some admins => map (fun id => (name, id, text)) (split_and_trim (Some admins) CHANNEL_ADMIN_IDS_MAX)
    | None => []
    end.
Proof. unfold channel_notify_admins. destruct (sup_setting _ _ _); [done|]. by rewrite app_nil_r. Qed.

(** ** The start of the daemon *)
Lemma launch_fold_tracked rd now l : forall s,
  NoDup l -> Forall (fun n => (length n <= 63)%nat) l -> (forall n, n ∈ l -> n ∉ map hp_name (sv_procs s)) -> tracked s ->
  tracked (fold_left (launch_one rd now) l s).
Proof.
  induction l as [|n l IH]; intros s Hnd Hs Hn Ht; [done|]. apply NoDup_cons in Hnd as [Hnl Hnd].
  apply Forall_cons in Hs as [Hs1 Hs]. cbn. unfold launch_one at 2.
  assert (Hrest : forall m, m ∈ l -> m ∉ map hp_name (sv_procs s)) by (intros m Hm; apply Hn; by right).
  destruct (channel_should_launch rd s n) as [|why|why]; [|by apply IH|by apply IH].
  apply IH; [done|done| |apply start_tracked; [done|apply Hn; by left|done]].
  intros m Hm. destruct (start_channel_inv now n s) as [[[-> _] _]|(c & -> & Hc & _)]; [by apply Hrest|].
  rewrite map_app, elem_of_app. intros [Hin|Hin%list_elem_of_singleton]; [by apply (Hrest m)|].
  rewrite Hc, short_name in Hin by done. by subst.
Qed.

Lemma active_NoDup rd s max :
  NoDup (map cr_name (sv_rows s)) -> Forall (fun r => (length (cr_name r) <= 63)%nat) (sv_rows s) ->
  NoDup (active_channel_names rd s max).
Proof.
  intros Hnd Hs. unfold active_channel_names. destruct (rd_names rd); [|constructor].
  set (l := List.filter _ (sv_rows s)). assert (NoDup (map cr_name (take max l))) as H.
  { assert (NoDup (map cr_name l)) as Hl by (by apply NoDup_map_filter).
    rewrite <- (take_drop max l), map_app in Hl. by apply NoDup_app in Hl as [? _]. }
  erewrite map_ext_in; [exact H|]. intros r Hr. apply short_name. rewrite Forall_forall in Hs. apply Hs.
  apply list_elem_of_In in Hr. apply elem_of_take in Hr as (j & Hj & _). apply list_elem_of_lookup_2 in Hj.
  by apply elem_of_filter_bool in Hj as [? _].
Qed.

(** The daemon starts with an empty table and no process of a channel; the names of the
    table are its key, and fit the field of the process table. *)
Record fresh_start (s : Supervisor) : Prop := mk_fresh {
  fs_procs : sv_procs s = []; fs_runners : sv_runners s = [];
  fs_key : NoDup (map cr_name (sv_rows s));
  fs_short : Forall (fun r => (length (cr_name r) <= 63)%nat) (sv_rows s)
}.

Lemma launch_all_tracked rd now s : fresh_start s -> tracked (channel_launch_all rd now s).
Proof.
  intros [Hp Hr Hk Hs]. apply launch_fold_tracked.
  - by apply active_NoDup.
  - apply Forall_forall. intros n. apply active_short.
  - rewrite Hp. intros n _. apply not_elem_of_nil.
  - unfold tracked. rewrite Hp, Hr.
    split; cbn; [constructor|lia|constructor|..]; intros x Hx; by apply not_elem_of_nil in Hx.
Qed.

Lemma step_tracked s s' : sup_step s s' -> tracked s -> tracked s'.
Proof.
  destruct 1; [apply tick_tracked|by apply reap_tracked|apply bounce_tracked|apply swap_tracked|apply revert_tracked|done].
Qed.

Lemma reachable_tracked s s' : rtc sup_step s s' -> tracked s -> tracked s'.
Proof. induction 1 as [|s1 s2 s3 Hs _ IH]; [done|]. intros H. apply IH. by apply (step_tracked s1). Qed.

(** (C27) From the start of the daemon on, under any sequence of ticks, deaths, bounces, swaps,
    reverts and writes of the other processes to the tables, at most 16 channels are tracked, each
    name once; a tracked pid belongs to a live process of that channel; and no channel
    ever has two processes that were not told to end: each such process is the tracked one. *)
Theorem one_runner rd now s0 s :
  fresh_start s0 -> rtc sup_step (channel_launch_all rd now s0) s ->
  NoDup (map hp_name (sv_procs s)) /\ (length (sv_procs s) <= 16)%nat /\
  (forall c, c ∈ sv_procs s -> 0 < hp_pid c -> exists t, mk_runner (hp_pid c) (hp_name c) t ∈ sv_runners s) /\
  (forall r, r ∈ sv_runners s -> rn_told r = false ->
     (exists c, c ∈ sv_procs s /\ hp_pid c = rn_pid r /\ hp_name c = rn_name r) /\
     forall r', r' ∈ sv_runners s -> rn_told r' = false -> rn_name r' = rn_name r -> r' = r).
Proof.
  intros H0 Hr. apply reachable_tracked in Hr; [|by apply launch_all_tracked].
  destruct Hr as [H1 H2 H3 H4 H5 H6]. split_all; try done. intros r Hr Hf. split; [by apply H6|].
  intros r' Hr' Hf' Hn. destruct (H6 r Hr Hf) as (c & Hc & Hp & Hcn). destruct (H6 r' Hr' Hf') as (c' & Hc' & Hp' & Hcn').
  assert (c' = c) as -> by (apply (NoDup_map_inj hp_name (sv_procs s)); try done; congruence).
  apply (NoDup_map_inj rn_pid (sv_runners s)); try done. congruence.
Qed.

(** ** What the gate asks *)
Definition resolves (rd : Reads) (s : Supervisor) (key : cstring) : Prop :=
  exists v, v <> [] /\ config_get getenv secret_system (if rd_key rd key then sv_config s else []) key = Some v.

(** The operator wants the channel to run. *)
Definition may_run (rd : Reads) (s : Supervisor) (name : cstring) : Prop :=
  exists r v, row_of (sv_rows s) name = Some r /\ cr_status r = bs "active" /\
    let ext := snprintf 128 (cr_ext r) in
    let key := snprintf 192 (ext ++ bs ".enabled") in
    ext <> [] /\
    config_get getenv secret_system (if rd_key rd key then sv_config s else []) key = Some v /\ v <> [] /\ v <> bs "0" /\
    Forall (resolves rd s) (required_keys s ext).

Lemma gate_config_some rd s key v :
  gate_config_get rd s key = inl (Some v) ->
  v <> [] /\ config_get getenv secret_system (if rd_key rd key then sv_config s else []) key = Some v.
Proof.
  unfold gate_config_get. destruct (config_get _ _ _ _) as [[|c w]|]; destruct (rd_key rd key); intros [= <-]; done.
Qed.

Lemma required_gate_yes rd s keys : required_gate rd s keys = GateYes -> Forall (resolves rd s) keys.
Proof.
  induction keys as [|k keys IH]; [done|]. cbn. destruct (gate_config_get rd s k) as [[v|]|] eqn:E; try done.
  intros H. constructor; [|by apply IH]. exists v. by apply gate_config_some.
Qed.

Lemma active_short_status st : snprintf 32 st = bs "active" -> st = bs "active".
Proof.
  unfold snprintf. intros H. assert (length (take (32 - 1) st) = 6%nat) as Hl by (by rewrite H).
  rewrite length_take in Hl. by rewrite take_ge in H by lia.
Qed.

Lemma gate_yes rd s name : channel_should_launch rd s name = GateYes -> may_run rd s name.
Proof.
  unfold channel_should_launch, may_run. destruct (rd_row rd name); [|done]. cbn [negb].
  destruct (row_of (sv_rows s) name) as [r|]; [|done].
  destruct (streq (snprintf 32 (cr_status r)) (bs "active")) eqn:Es; [|done]. cbn [negb].
  apply bool_decide_eq_true, active_short_status in Es. case_bool_decide as He; [done|].
  destruct (gate_config_get _ _ _) as [enabled|] eqn:Eg; [|done].
  destruct enabled as [v|]; [|done]. cbn [negb]. destruct (streq v (bs "0")) eqn:Ev; [done|]. cbn [negb].
  apply gate_config_some in Eg as [Hv Hg]. apply bool_decide_eq_false in Ev. intros H. exists r, v. split_all; try done.
  apply required_gate_yes. destruct (rd_scan rd _) as [n|]; [|done]. by destruct (n <=? 16)%nat.
Qed.

Lemma desired_wanted rd s name :
  name ∈ desired rd s ->
  may_run rd s name \/ exists why, channel_should_launch rd s name = GateUnread why /\ name ∈ map hp_name (sv_procs s).
Proof.
  intros [_ Hw]%elem_of_filter_bool. unfold wanted in Hw.
  destruct (channel_should_launch rd s name) as [|why|why] eqn:E; [by left; apply gate_yes|done|].
  right. exists why. split; [done|]. by apply find_by_name_spec.
Qed.

(** (C28) After a tick every channel process that was not told to end is one the operator
    wants: its channel is active, its extension enabled with a value that is not 0, and
    every required key of it that is looked at resolves to a value; or the gate could not be read,
    and then the channel was tracked before: such a tick starts nothing new. *)
Theorem tick_gated rd now s r :
  tracked s -> let s' := channel_tick rd now s in
  r ∈ sv_runners s' -> rn_told r = false ->
  may_run rd s (rn_name r) \/
  exists why, channel_should_launch rd s (rn_name r) = GateUnread why /\ rn_name r ∈ map hp_name (sv_procs s).
Proof.
  intros Ht s' Hr Hf. destruct (tk_heard _ _ (tick_tracked rd now s Ht) r Hr Hf) as (c & Hc & _ & <-).
  apply desired_wanted. apply elem_of_map_name, tick_names in Hc; [|done]. by destruct Hc.
Qed.

(** ** Two ticks reach what the tables ask for *)
Definition same_row (r r' : ChannelRow) : Prop := cr_name r' = cr_name r /\ cr_ext r' = cr_ext r /\ cr_status r' = cr_status r.

Record same_tables (s s' : Supervisor) : Prop := mk_same {
  st_rows : Forall2 same_row (sv_rows s) (sv_rows s');
  st_exts : sv_exts s' = sv_exts s; st_config : sv_config s' = sv_config s; st_required : sv_required s' = sv_required s
}.

Lemma same_tables_eq s s' :
  sv_rows s' = sv_rows s -> sv_exts s' = sv_exts s -> sv_config s' = sv_config s -> sv_required s' = sv_required s ->
  same_tables s s'.
Proof. intros E ???. split; try done. rewrite E. clear E. induction (sv_rows s); constructor; [repeat split|done]. Qed.

Lemma same_tables_trans s1 s2 s3 : same_tables s1 s2 -> same_tables s2 s3 -> same_tables s1 s3.
Proof.
  intros [H1 E1 E2 E3] [H2 F1 F2 F3]. split; [|congruence..].
  eapply Forall2_trans; [|exact H1|exact H2]. unfold same_row. intros a b c. intuition congruence.
Qed.

Lemma same_tables_pid name pid s : same_tables s (update_pid name pid s).
Proof.
  split; try done. cbn. induction (sv_rows s) as [|r rows IH]; [constructor|]. cbn [map]. constructor; [|done].
  by destruct (_ && _).
Qed.

Lemma same_tables_fork name s o s' : do_fork name s = (o, s') -> same_tables s s'.
Proof. unfold do_fork. destruct (fork _ _); intros [= _ <-]; by apply same_tables_eq. Qed.

(** One after the other. *)
Ltac then_tables :=
  lazymatch goal with
  | |- same_tables _ (update_pid _ _ ?x) => apply (same_tables_trans _ x); [|apply same_tables_pid]
  | |- same_tables _ (_ _ ?x) => apply (same_tables_trans _ x); [|by apply same_tables_eq]
  | |- same_tables _ (_ _ _ ?x) => apply (same_tables_trans _ x); [|by apply same_tables_eq]
  end.

Lemma same_tables_start now name s : same_tables s (snd (start_channel now name s)).
Proof.
  unfold start_channel. destruct (_ <=? _); [by apply same_tables_eq|].
  destruct (do_fork name s) as [[p|] s1] eqn:E; apply same_tables_fork in E; [|done].
  cbn [snd]. then_tables. then_tables. by then_tables.
Qed.

Lemma same_tables_launch now name s : same_tables s (launch_new now s name).
Proof. unfold launch_new. destruct (find_by_name _ _); [by apply same_tables_eq|apply same_tables_start]. Qed.

Lemma same_tables_fold {B} (f : Supervisor -> B -> Supervisor) l :
  (forall a b, same_tables a (f a b)) -> forall s, same_tables s (fold_left f l s).
Proof.
  intros Hf. induction l as [|b l IH]; intros s; [by apply same_tables_eq|]. cbn. eapply same_tables_trans; [apply Hf|apply IH].
Qed.

Lemma same_tables_stop fuel : forall i d s, same_tables s (stop_unwanted fuel i d s).
Proof.
  induction fuel as [|fuel IH]; intros i d s; [by apply same_tables_eq|]. cbn [stop_unwanted].
  destruct (sv_procs s !! i) as [c|]; [|by apply same_tables_eq]. case_bool_decide; [apply IH|].
  eapply same_tables_trans; [|apply IH]. then_tables. then_tables. destruct (hp_pid c >? 0); by apply same_tables_eq.
Qed.

Lemma same_tables_tend now s i : same_tables s (tend now s i).
Proof.
  unfold tend. eapply same_tables_trans; [|eapply same_tables_trans].
  - unfold respawn. instantiate (1 := respawn now i s). unfold respawn.
    destruct (sv_procs s !! i) as [c|]; [|by apply same_tables_eq]. destruct (_ && _); [|by apply same_tables_eq].
    cbn [hp_name]. destruct (do_fork (hp_name c) s) as [[p|] s1] eqn:E; apply same_tables_fork in E.
    + then_tables. then_tables. by then_tables.
    + by then_tables.
  - instantiate (1 := forgive now i (respawn now i s)). unfold forgive. destruct (sv_procs _ !! i); [|by apply same_tables_eq].
    destruct (_ && _); by apply same_tables_eq.
  - unfold watch. destruct (sv_procs _ !! i); [|by apply same_tables_eq]. destruct (_ >? 0); [|by apply same_tables_eq].
    destruct (_ && _); by apply same_tables_eq.
Qed.

Lemma same_tables_launched rd now s : same_tables s (launched rd now s).
Proof. apply same_tables_fold. intros a b. apply same_tables_launch. Qed.

Lemma same_tables_tick rd now s : same_tables s (channel_tick rd now s).
Proof.
  rewrite channel_tick_eq. eapply same_tables_trans; [|apply same_tables_fold; intros a b; apply same_tables_tend].
  eapply same_tables_trans; [apply same_tables_launched|apply same_tables_stop].
Qed.

(** The gate and the list depend on the tables only. *)
Lemma same_row_of s s' name :
  same_tables s s' ->
  option_map (fun r => (cr_status r, cr_ext r)) (row_of (sv_rows s') name) =
  option_map (fun r => (cr_status r, cr_ext r)) (row_of (sv_rows s) name).
Proof.
  intros [H _ _ _]. unfold row_of. induction H as [|r r' l l' (Hn & He & Hs) _ IH]; [done|]. cbn. rewrite Hn.
  destruct (streq _ _); [|done]. cbn. by rewrite He, Hs.
Qed.

Lemma gate_same s s' rd name : same_tables s s' -> channel_should_launch rd s' name = channel_should_launch rd s name.
Proof.
  intros H. pose proof (same_row_of _ _ name H) as Hr. destruct H as [_ He Hc Hq].
  assert (forall key, gate_config_get rd s' key = gate_config_get rd s key) as Hg
    by (intros key; unfold gate_config_get; by rewrite Hc).
  assert (forall keys, required_gate rd s' keys = required_gate rd s keys) as Hrg.
  { induction keys as [|k keys IH]; [done|]. cbn. by rewrite Hg, IH. }
  unfold channel_should_launch, required_keys. rewrite Hq.
  destruct (row_of (sv_rows s') name) as [r'|], (row_of (sv_rows s) name) as [r|]; try done.
  cbn in Hr. injection Hr as -> ->. destruct (rd_row rd name); [|done]. cbn [negb]. by rewrite Hg, Hrg.
Qed.

Lemma active_same s s' rd max : same_tables s s' -> active_channel_names rd s' max = active_channel_names rd s max.
Proof.
  intros [H He _ _]. unfold active_channel_names. destruct (rd_names rd); [|done]. rewrite He. clear He. revert max.
  induction H as [|r r' l l' (Hn & He & Hs) _ IH]; intros max; [by rewrite !firstn_nil|]. cbn [List.filter]. rewrite He, Hs.
  destruct (_ && _); [|apply IH]. destruct max as [|max]; [done|]. cbn [take map]. by rewrite IH, Hn.
Qed.

Lemma required_gate_decides s keys why : required_gate all_read s keys <> GateUnread why.
Proof.
  induction keys as [|k keys IH]; [done|]. cbn. destruct (gate_config_get all_read s k) as [[v|]|] eqn:E; [done|done|].
  unfold gate_config_get in E. cbn in E. by destruct (config_get _ _ _ _) as [[|]|].
Qed.

Lemma all_read_decides s name why : channel_should_launch all_read s name <> GateUnread why.
Proof.
  unfold channel_should_launch. cbn [rd_row all_read negb rd_scan].
  destruct (row_of (sv_rows s) name) as [r|]; [|done]. destruct (negb _); [done|]. case_bool_decide; [done|].
  destruct (gate_config_get all_read s _) as [enabled|] eqn:E.
  - destruct (negb _); [done|apply required_gate_decides].
  - unfold gate_config_get in E. cbn in E. by destruct (config_get _ _ _ _) as [[|]|].
Qed.

Lemma desired_same s s' : same_tables s s' -> desired all_read s' = desired all_read s.
Proof.
  intros H. unfold desired. rewrite (active_same _ _ _ _ H). apply filter_ext. intros n. unfold wanted.
  rewrite (gate_same _ _ _ _ H). pose proof (all_read_decides s n) as Hd.
  destruct (channel_should_launch _ _ _) as [|why|why]; [done|done|]. by destruct (Hd why).
Qed.

(** With forks that succeed. *)
Context (Hforks : forall n live, fork n live <> None).

Lemma start_succeeds now name s :
  (length (sv_procs s) < 16)%nat ->
  exists c, sv_procs (snd (start_channel now name s)) = sv_procs s ++ [c] /\ hp_name c = snprintf 64 name /\ 0 < hp_pid c.
Proof.
  intros Hl. unfold start_channel. unfold CHANNEL_MAX, zlen. replace (16 <=? _) with false by lia.
  unfold do_fork. destruct (fork _ _) as [p|] eqn:E; [|by apply Hforks in E]. cbn. eexists. split; [done|]. split; [done|].
  by apply Hfork in E as [? _].
Qed.

Lemma NoDup_short (l : list cstring) d : NoDup l -> l ⊆ d -> (length l <= length d)%nat.
Proof. intros Hn Hs. by apply submseteq_length, NoDup_submseteq. Qed.

(** While the tracked channels are all wanted, every launch succeeds. *)
Lemma launch_reaches now (d : list cstring) l : forall s,
  (length d <= 16)%nat -> Forall (fun n => (length n <= 63)%nat) l -> l ⊆ d ->
  tracked s -> map hp_name (sv_procs s) ⊆ d ->
  let s' := fold_left (launch_new now) l s in
  map hp_name (sv_procs s') ⊆ d /\ (forall n, n ∈ map hp_name (sv_procs s) -> n ∈ map hp_name (sv_procs s')) /\
  l ⊆ map hp_name (sv_procs s').
Proof.
  induction l as [|n l IH]; intros s Hd Hs Hl Ht Hp; cbn; [split_all; [done|done|by intros m ?%not_elem_of_nil]|].
  apply Forall_cons in Hs as [Hs1 Hs]. assert (n ∈ d) as Hn by (apply Hl; by left).
  assert (l ⊆ d) as Hl' by (intros m Hm; apply Hl; by right).
  pose proof (launch_new_tracked now n s Hs1 Ht) as Ht1.
  assert (map hp_name (sv_procs (launch_new now s n)) ⊆ d /\ (forall m, m ∈ map hp_name (sv_procs s) -> m ∈ map hp_name (sv_procs (launch_new now s n)))
    /\ n ∈ map hp_name (sv_procs (launch_new now s n))) as (H1 & H2 & H3).
  { unfold launch_new. destruct (find_by_name _ _) eqn:E; [apply find_by_name_spec in E; by split_all|].
    assert (n ∉ map hp_name (sv_procs s)) as Hnew by (rewrite <- find_by_name_spec; by rewrite E).
    destruct (start_succeeds now n s) as (c & -> & Hc & _).
    - assert (length (n :: map hp_name (sv_procs s)) <= length d)%nat as Hlen.
      { apply NoDup_short; [apply NoDup_cons; split; [done|by destruct Ht]|]. intros m [->|Hm]%elem_of_cons; [done|by apply Hp]. }
      cbn [length] in Hlen. rewrite length_map in Hlen. lia.
    - rewrite short_name in Hc by done. rewrite map_app. cbn [map]. rewrite Hc. split_all.
      + intros m [Hm| ->%list_elem_of_singleton]%elem_of_app; [by apply Hp|done].
      + intros m Hm. apply elem_of_app. by left.
      + apply elem_of_app. right. by left. }
  destruct (IH _ Hd Hs Hl' Ht1 H1) as (G1 & G2 & G3). split_all; [done|auto|].
  intros m [->|Hm]%elem_of_cons; auto.
Qed.

(** A tracked channel with a process or a restart that is not due; and one that has neither
    a process nor a restart planned, which no tick starts again. *)
Definition settled (now : Z) (c : ChannelProc) : Prop := 0 < hp_pid c \/ now < hp_next_restart c.
Definition given_up (c : ChannelProc) : Prop := hp_pid c <= 0 /\ hp_next_restart c <= 0.

(** [c'] is a later state of [c]: no channel is given up on the way. *)
Definition goes_on (c c' : ChannelProc) : Prop := hp_name c' = hp_name c /\ (given_up c' -> given_up c).

Lemma respawn_settles now i s : forall j c', sv_procs (respawn now i s) !! j = Some c' ->
  exists c, sv_procs s !! j = Some c /\ goes_on c c' /\
    (if decide (j = i) then settled now c' \/ given_up c' else c' = c).
Proof.
  intros j c'. unfold respawn. destruct (sv_procs s !! i) as [c|] eqn:Ei.
  - destruct (_ && _) eqn:Eb; cbn [hp_name].
    + destruct (do_fork (hp_name c) s) as [[p|] s1] eqn:Ef.
      * apply do_fork_inv in Ef as [Hp (H0 & _)]. cbn. rewrite Hp. intros H.
        case_decide as Hj; [subst j; rewrite list_lookup_insert_eq in H by (by apply lookup_lt_Some in Ei)|
          by rewrite list_lookup_insert_ne in H by done; exists c'].
        injection H as <-. exists c. split; [done|]. unfold goes_on, given_up, settled. cbn. split; [split; [done|]|]; lia.
      * unfold do_fork in Ef. destruct (fork _ _) eqn:E; [done|]. by apply Hforks in E.
    + intros H. exists c'. split; [done|]. split; [done|]. case_decide as Hj; [subst j|done].
      rewrite Ei in H. injection H as <-. unfold given_up, settled. lia.
  - intros H. exists c'. split; [done|]. split; [done|]. case_decide as Hj; [subst; congruence|done].
Qed.

Lemma forgive_settles now i s : forall j c', sv_procs (forgive now i s) !! j = Some c' ->
  exists c, sv_procs s !! j = Some c /\ hp_name c' = hp_name c /\ hp_pid c' = hp_pid c /\ hp_next_restart c' = hp_next_restart c.
Proof.
  intros j c'. unfold forgive. destruct (sv_procs s !! i) as [c|] eqn:Ei; [|by exists c']. destruct (_ && _); [|by exists c'].
  cbn. intros H. destruct (decide (j = i)) as [->|Hj].
  - rewrite list_lookup_insert_eq in H by (by apply lookup_lt_Some in Ei). injection H as <-. by exists c.
  - rewrite list_lookup_insert_ne in H by done. by exists c'.
Qed.

Lemma watch_procs now i s : sv_procs (watch now i s) = sv_procs s.
Proof. unfold watch. destruct (sv_procs s !! i); [|done]. destruct (_ >? 0); [|done]. by destruct (_ && _). Qed.

Lemma tend_settles now s i j c' : sv_procs (tend now s i) !! j = Some c' ->
  exists c, sv_procs s !! j = Some c /\ goes_on c c' /\
    (if decide (j = i) then settled now c' \/ given_up c' else settled now c \/ given_up c -> settled now c' \/ given_up c').
Proof.
  unfold tend. rewrite watch_procs. intros (c1 & H1 & Hm & Hp & Hn)%forgive_settles.
  apply respawn_settles in H1 as (c & Hc & [Hg1 Hg2] & H). exists c. split; [done|].
  unfold goes_on, given_up, settled in *. rewrite Hm, Hp, Hn. split; [done|]. case_decide; [done|]. by subst.
Qed.

Lemma tend_all_settle now l : forall s, NoDup l -> forall j c', sv_procs (fold_left (tend now) l s) !! j = Some c' ->
  exists c, sv_procs s !! j = Some c /\ goes_on c c' /\
    (j ∈ l \/ settled now c \/ given_up c -> settled now c' \/ given_up c').
Proof.
  induction l as [|i l IH]; intros s Hnd j c' H.
  - exists c'. split; [done|]. split; [done|]. by intros [?%not_elem_of_nil|?].
  - apply NoDup_cons in Hnd as [Hi Hnd]. cbn in H. apply IH in H as (c1 & H1 & [Hn1 Hg1] & Hs1); [|done].
    apply tend_settles in H1 as (c & Hc & [Hn Hg] & Hs). exists c. split; [done|]. split; [split; [congruence|auto]|].
    intros Hj. apply Hs1. case_decide as E; [by right|]. destruct Hj as [[?|?]%elem_of_cons|?]; [done|by left|by right; apply Hs].
Qed.

(** A channel the launches add has a process. *)
Lemma launched_new rd now s c : c ∈ sv_procs (launched rd now s) -> given_up c -> c ∈ sv_procs s.
Proof.
  intros Hc Hg. revert Hc. apply (fold_keeps (fun a => c ∈ sv_procs a -> c ∈ sv_procs s) (fun _ => True)); [|by apply Forall_true|done].
  intros a n _ H. unfold launch_new. destruct (find_by_name _ _); [done|].
  destruct (start_channel_inv now n a) as [[[-> _] _]|(k & -> & _ & H0 & _)]; [done|].
  intros [Hc| ->%list_elem_of_singleton]%elem_of_app; [by apply H|]. unfold given_up in Hg. lia.
Qed.

(** A tick leaves a tracked channel with a process, or with a restart that is not due, or
    given up as it found it. *)
Lemma tick_settles rd now s c' : c' ∈ sv_procs (channel_tick rd now s) ->
  (settled now c' \/ given_up c') /\ (given_up c' -> exists c, c ∈ sv_procs s /\ hp_name c = hp_name c' /\ given_up c).
Proof.
  rewrite channel_tick_eq. intros [j Hj]%list_elem_of_lookup.
  apply tend_all_settle in Hj as (c & Hc & [Hn Hg] & Hs); [|apply NoDup_seq]. split.
  - apply Hs. left. apply elem_of_seq. apply lookup_lt_Some in Hc. lia.
  - intros G%Hg. exists c. split; [|by split]. apply (launched_new rd now); [|done].
    apply list_elem_of_lookup_2 in Hc. by apply stop_subset in Hc.
Qed.

(** (C29) The reconciliation converges. When the tables answer and do not change and fork
    succeeds, two ticks are enough, from any state in which the invariant holds:
    the tracked channels are then exactly the first 16 active ones whose gate
    says yes, although the launches come before the stops and may find the
    table full the first time; and each has a process or a restart that is not due, except
    one that was given up before the two ticks, without a process and without a restart planned
    ([failed_respawn_is_final], [the_31st_death_is_final]), which stays so: a channel newly
    tracked, or with a process or a restart planned, is never given up by a tick. *)
Theorem ticks_converge now now' s :
  tracked s ->
  let s2 := channel_tick all_read now' (channel_tick all_read now s) in
  (forall name, name ∈ map hp_name (sv_procs s2) <->
     name ∈ active_channel_names all_read s 16 /\ channel_should_launch all_read s name = GateYes) /\
  (forall c', c' ∈ sv_procs s2 -> settled now' c' \/
     given_up c' /\ exists c, c ∈ sv_procs s /\ hp_name c = hp_name c' /\ given_up c).
Proof.
  intros Ht s2. set (s1 := channel_tick all_read now s) in *.
  assert (tracked s1) as Ht1 by (by apply tick_tracked).
  assert (same_tables s s1) as Hsame by apply same_tables_tick.
  pose proof (desired_same _ _ Hsame) as Hd. split.
  - intros name. unfold s2. rewrite tick_names by done. rewrite Hd.
    destruct (launch_reaches now' (desired all_read s) (desired all_read s) s1) as (_ & _ & Hall); try done.
    + unfold desired. etransitivity; [apply List.filter_length_le|]. apply active_max.
    + apply desired_short.
    + intros n Hn. by apply tick_names in Hn as [_ ?].
    + unfold launched. rewrite Hd. transitivity (name ∈ desired all_read s); [split; [by intros [_ ?]|by split; [apply Hall|]]|].
      unfold desired, wanted. rewrite elem_of_filter_bool. pose proof (all_read_decides s name) as Hg.
      destruct (channel_should_launch all_read s name) as [|why|why]; [by intuition|intuition congruence|by destruct (Hg why)].
  - intros c' Hc. apply tick_settles in Hc as [[?|Hg] Hfrom]; [by left|]. right. split; [done|].
    destruct (Hfrom Hg) as (c1 & Hc1 & <- & Hg1). apply tick_settles in Hc1 as [_ H1]. by apply H1.
Qed.

(** (C30) What the death of a tracked process does, and to its channel alone. A third or later
    death within 300 seconds of the first is a flap: a channel with an extension to go back
    to gets it, once, with fresh counters, a restart in 2 seconds and a notice to each admin;
    without one its status becomes broken and it is tracked no more. Any other death leaves the tables
    alone and plans a restart in 1 to 60 seconds (up to the 30th death in a row). *)
Theorem reap_decides now s c :
  tracked s -> c ∈ sv_procs s -> 0 < hp_pid c ->
  let s' := snd (channel_reap now (hp_pid c) (reaped (hp_pid c) s)) in
  let first := if hp_first_crash c =? 0 then now else hp_first_crash c in
  (forall k, k ∈ sv_procs s -> k <> c -> k ∈ sv_procs s') /\
  match flaps now c, channel_prev_extension (hp_name c) s with
  | false, _ =>
      sv_rows s' = sv_rows s /\ sv_notes s' = sv_notes s /\
      mk_chproc (-1) (hp_name c) (hp_restarts c + 1) first (now + backoff (hp_restarts c + 1)) (hp_started c) ∈ sv_procs s' /\
      (0 <= hp_restarts c < 30 -> now + 1 <= now + backoff (hp_restarts c + 1) <= now + 60)
  | true, Some prev =>
      sv_rows s' = on_row (hp_name c) reverted (sv_rows s) /\
      mk_chproc (-1) (hp_name c) 0 0 (now + 2) (hp_started c) ∈ sv_procs s' /\
      channel_prev_extension (hp_name c) s' = None /\
      sv_notes s' = sv_notes s ++
        match sup_setting (s_rows (sv_rows s') s) (hp_name c) (bs "admin_ids") with
        | Some admins => map (fun id => (hp_name c, id, flap_note (mk_chproc (-1) (hp_name c) (hp_restarts c + 1) first (hp_next_restart c) (hp_started c)) prev))
                           (split_and_trim (Some admins) CHANNEL_ADMIN_IDS_MAX)
        | None => []
        end
  | true, None =>
      sv_rows s' = on_row (hp_name c) (with_status (bs "broken")) (sv_rows s) /\ sv_notes s' = sv_notes s /\
      (hp_name c ∉ map hp_name (sv_procs s'))
  end.
Proof.
  intros Ht Hc Hp. destruct (find_tracked s c Ht Hc Hp) as (i & Hf & Hi).
  pose proof (fun c' => elem_of_put _ i c c' Hi) as Hput.
  unfold channel_reap, flaps. change (sv_procs (reaped (hp_pid c) s)) with (sv_procs s). rewrite Hf.
  unfold CHANNEL_MAX_RESTARTS, CHANNEL_FLAP_WINDOW. cbn [hp_restarts hp_name hp_started hp_next_restart hp_first_crash].
  destruct (_ && _).
  - change (channel_prev_extension (hp_name c) (reaped (hp_pid c) s)) with (channel_prev_extension (hp_name c) s).
    destruct (channel_prev_extension (hp_name c) s) as [prev|] eqn:Ep; cbn [snd fst].
    + set (s1 := snd (edit_row _ _ _ _)). destruct (notify_eq (hp_name c) (flap_note
        (mk_chproc (-1) (hp_name c) (hp_restarts c + 1) (if hp_first_crash c =? 0 then now else hp_first_crash c)
           (hp_next_restart c) (hp_started c)) prev) s1) as (E1 & E2 & E3).
      pose proof (edit_row_all (hp_name c) reverted (reaped (hp_pid c) s)) as Hrows. fold s1 in Hrows.
      assert (forall key, sup_setting s1 (hp_name c) key =
        sup_setting (s_rows (on_row (hp_name c) reverted (sv_rows s)) s) (hp_name c) key) as Hset
        by (intros key; unfold sup_setting; by rewrite Hrows).
      unfold put_proc. cbn [sv_procs sv_rows sv_notes s_procs]. rewrite E1, E2, E3, Hrows, Hset.
      change (sv_procs s1) with (sv_procs s). split; [apply (proj2 (Hput _))|]. split; [done|]. split; [apply (proj1 (Hput _))|]. split; [|reflexivity].
      unfold channel_prev_extension. cbn [sv_rows s_procs]. rewrite E2, Hrows, row_of_on_row by done.
      by destruct (row_of _ (hp_name c)).
    + cbn [sv_rows sv_procs sv_notes s_procs]. rewrite edit_row_all. pose proof (swap_remove_perm _ _ _ Hi) as Hs.
      split; [|split; [done|]; split; [done|]].
      * intros k Hk Hne. apply (elem_of_Permutation_proper k _ _ Hs) in Hk. by apply elem_of_cons in Hk as [?|?].
      * apply (tracking_perm _ _ _ Hs) in Ht. by apply tracking_head in Ht as [_ ?].
  - cbn. split; [apply (proj2 (Hput _))|]. split_all; [done|done|apply (proj1 (Hput _))|..]; pose proof (backoff_bounds (hp_restarts c + 1)); lia.
Qed.
End Supervisor.

(** ** Concrete runs *)
Section Demo.
(** A fork that takes the first pid above all live ones. *)
Definition next_pid (_ : nat) (live : list Z) : option Z := Some (1 + foldr Z.max 0 live).

Lemma next_pid_fresh n live p : next_pid n live = Some p -> 0 < p /\ p ∉ live.
Proof.
  intros [= <-]. assert (forall x, x ∈ live -> x <= foldr Z.max 0 live) as H.
  { induction live as [|y l IH]; intros x Hx; [by apply not_elem_of_nil in Hx|]. cbn.
    apply elem_of_cons in Hx as [->|Hx]; [lia|specialize (IH x Hx); lia]. }
  split; [|intros Hx%H; lia]. clear H. induction live as [|y l IH]; cbn in *; lia.
Qed.

Definition no_env (_ : cstring) : option cstring := None.
Definition demo_row : ChannelRow := mk_chrow (bs "tg") (bs "telegram") (Some (bs "old")) (bs "active") None.
Definition demo_sup : Supervisor :=
  mk_sup [] [demo_row] [bs "telegram"]
    [mk_cfg (bs "telegram.enabled") (Some (bs "1")) None false; mk_cfg (bs "old.admin_ids") (Some (bs "7, 8")) None false] [] [] [] [] 0.
Definition demo_tick := channel_tick no_env no_env next_pid.
Definition demo_launch := channel_launch_all no_env no_env next_pid.
Definition demo_reap (now pid : Z) (s : Supervisor) : Supervisor := snd (channel_reap no_env no_env now pid (reaped pid s)).

Lemma demo_fresh : fresh_start demo_sup.
Proof. split; [done|done|apply NoDup_singleton|]. apply Forall_singleton. cbn. lia. Qed.

(** Launch, death, and the restart after the back-off. *)
Definition demo_run : Supervisor := demo_tick all_read 110 (demo_reap 100 1 (demo_launch all_read 90 demo_sup)).

Lemma one_runner_witness :
  sv_runners demo_run = [mk_runner 1 (bs "tg") false] /\ NoDup (map hp_name (sv_procs demo_run)) /\
  exists c, c ∈ sv_procs demo_run /\ hp_pid c = 1 /\ hp_name c = bs "tg".
Proof.
  assert (rtc (sup_step no_env no_env next_pid) (channel_launch_all no_env no_env next_pid all_read 90 demo_sup) demo_run) as Hr.
  { eapply rtc_l; [apply (step_reap _ _ _ 100 1); vm_compute; left|]. apply rtc_once. apply step_tick. }
  destruct (one_runner no_env no_env next_pid next_pid_fresh all_read 90 demo_sup demo_run demo_fresh Hr) as (H1 & _ & _ & H).
  assert (sv_runners demo_run = [mk_runner 1 (bs "tg") false]) as E by (vm_compute; reflexivity).
  split; [exact E|]. split; [exact H1|]. rewrite E in H. destruct (H _ (list_elem_of_here _ _) eq_refl) as [Hc _]. exact Hc.
Defined.

Lemma demo_tracked : tracked demo_sup.
Proof. split; cbn; [constructor|lia|constructor|..]; intros x Hx; by apply not_elem_of_nil in Hx. Qed.

Lemma tick_gated_witness :
  mk_runner 1 (bs "tg") false ∈ sv_runners (demo_tick all_read 100 demo_sup) /\
  (may_run no_env no_env all_read demo_sup (bs "tg") \/
   exists why, channel_should_launch no_env no_env all_read demo_sup (bs "tg") = GateUnread why /\
     bs "tg" ∈ map hp_name (sv_procs demo_sup)).
Proof.
  assert (mk_runner 1 (bs "tg") false ∈ sv_runners (demo_tick all_read 100 demo_sup)) as H by (vm_compute; left).
  split; [exact H|].
  exact (tick_gated no_env no_env next_pid next_pid_fresh all_read 100 demo_sup (mk_runner 1 (bs "tg") false) demo_tracked H eq_refl).
Defined.

Lemma ticks_converge_witness :
  bs "tg" ∈ map hp_name (sv_procs (demo_tick all_read 101 (demo_tick all_read 100 demo_sup))) /\
  (forall c, c ∈ sv_procs (demo_tick all_read 101 (demo_tick all_read 100 demo_sup)) -> settled 101 c).
Proof.
  destruct (ticks_converge no_env no_env next_pid next_pid_fresh ltac:(done) 100 101 demo_sup demo_tracked) as [H1 H2].
  split; [|intros c Hc; destruct (H2 c Hc) as [H|(_ & c0 & H & _)]; [exact H|by apply not_elem_of_nil in H]]. apply H1. split; [vm_compute; left|vm_compute; reflexivity].
Defined.

(** The third death within 300 seconds, with an extension to go back to. *)
Definition demo_flapping : ChannelProc := mk_chproc 1 (bs "tg") 2 50 0 60.
Definition demo_crashing : Supervisor := s_runners [mk_runner 1 (bs "tg") false] (s_procs [demo_flapping] demo_sup).

Lemma demo_crashing_tracked : tracked demo_crashing.
Proof.
  split; cbn.
  - apply NoDup_singleton.
  - lia.
  - apply NoDup_singleton.
  - by intros r ->%list_elem_of_singleton.
  - intros c ->%list_elem_of_singleton _. exists false. left.
  - intros r ->%list_elem_of_singleton _. exists demo_flapping. split; [left|done].
Qed.

Lemma reap_decides_witness :
  flaps 100 demo_flapping = true /\
  sv_rows (demo_reap 100 1 demo_crashing) = [mk_chrow (bs "tg") (bs "old") None (bs "active") None] /\
  map (fun n => snd (fst n)) (sv_notes (demo_reap 100 1 demo_crashing)) = [bs "7"; bs "8"].
Proof.
  destruct (reap_decides no_env no_env 100 demo_crashing demo_flapping demo_crashing_tracked (list_elem_of_here _ _) eq_refl)
    as [_ H].
  assert (flaps 100 demo_flapping = true) as E by reflexivity. rewrite E in H.
  assert (channel_prev_extension (hp_name demo_flapping) demo_crashing = Some (bs "old")) as Ep by (vm_compute; reflexivity).
  rewrite Ep in H. destruct H as (H1 & _ & _ & H2). split; [exact E|]. split.
  - etransitivity; [exact H1|]. vm_compute; reflexivity.
  - etransitivity; [exact (f_equal (map (fun n => snd (fst n))) H2)|]. vm_compute; reflexivity.
Defined.

(** A fork that fails once in a restart loses the channel: it stays tracked, with no process
    and no restart planned, whenever the next tick comes. *)
Definition fork_but_second (n : nat) (live : list Z) : option Z := if (n =? 1)%nat then None else next_pid n live.

Example failed_respawn_is_final :
  let tick := channel_tick no_env no_env fork_but_second all_read in
  let s := tick 110 (demo_reap 100 1 (channel_launch_all no_env no_env fork_but_second all_read 90 demo_sup)) in
  sv_procs s = [mk_chproc (-1) (bs "tg") 1 100 0 90] /\ sv_runners s = [] /\
  forall now, sv_procs (tick now s) = sv_procs s /\ sv_runners (tick now s) = [].
Proof. vm_compute. repeat split. Qed.

(** Once 300 seconds have passed since the first death, three deaths within 160 seconds are no flap. *)
Example late_deaths_are_no_flap :
  let die now s := demo_tick all_read (now + 70) (demo_reap now 1 s) in
  let s := die 740 (die 660 (die 580 (die 500 (die 420 (die 255 (die 100 (demo_launch all_read 90 demo_sup))))))) in
  map hp_restarts (sv_procs s) = [7] /\ map hp_first_crash (sv_procs s) = [100] /\ sv_rows s = [with_pid 1 demo_row].
Proof. vm_compute. repeat split. Qed.

(** The 31st death in a row: the shift leaves the [int], the restart is planned for a
    negative time, and no tick takes it. *)
Example the_31st_death_is_final :
  let c := mk_chproc 1 (bs "tg") 30 100 0 1700000000 in
  let s := demo_reap 1700000060 1 (s_procs [c] demo_crashing) in
  map hp_next_restart (sv_procs s) = [1700000060 - 2147483648] /\
  forall now, sv_procs (demo_tick all_read now s) = sv_procs s.
Proof. vm_compute. repeat split. Qed.

(** The row keeps the pid of a dead process: here another channel got it, and a swap of the first ends the second. *)
Example bounce_of_a_stale_pid :
  let rows := [mk_chrow (bs "tg") (bs "telegram") None (bs "active") (Some 1); mk_chrow (bs "dc") (bs "telegram") None (bs "active") (Some 1)] in
  let s := s_rows rows (s_runners [mk_runner 1 (bs "dc") false]
             (s_procs [mk_chproc (-1) (bs "tg") 1 100 102 90; mk_chproc 1 (bs "dc") 0 0 0 101] demo_sup)) in
  sv_runners (snd (channel_bounce (bs "tg") s)) = [mk_runner 1 (bs "dc") true].
Proof. reflexivity. Qed.

(** A 17th required key is not looked at. *)
Example seventeenth_key_unchecked :
  let key n := bs "telegram.k" ++ print_int (Z.of_nat n) in
  let s := mk_sup [] [demo_row] [bs "telegram"]
             (mk_cfg (bs "telegram.enabled") (Some (bs "1")) None false ::
              map (fun n => mk_cfg (key n) (if (n <? 16)%nat then Some (bs "v") else None) None false) (seq 0 17))
             (map key (seq 0 17)) [] [] [] 0 in
  config_get no_env no_env (sv_config s) (key 16%nat) = None /\
  channel_should_launch no_env no_env all_read s (bs "tg") = GateYes.
Proof. vm_compute. split; reflexivity. Qed.
End Demo.
