(* ===== verification/ChannelEvents.v ===== *)
(** * What comes in on a channel: src/channel.c (events, gate, pins) and src/channel_intent.c

    One pass over the events of the channels: decisions of buttons, commands of admins,
    and conversation, which goes to the session the chat is pinned to, or through the
    open door to a new one.  The decisions end in [resolve_approval] ([Resolve]); what of a
    text enters the inbox is the interface [Secure] ([Complete]). *)
From S2P Require Import Prelude CString Libc SecretInterp Store Json1 Config Approval Resolve Capture Complete.

(** ** Rows and state *)
Record EventRow := mk_event { ev_id : Z; ev_channel : cstring; ev_type : cstring; ev_payload : cstring }.

(** channels: [dr_agent] is default_agent, [dr_filter] default_tool_filter. *)
Record Door := mk_door { dr_channel : cstring; dr_agent : option cstring; dr_filter : option cstring }.

(** A text the daemon itself queues; [rp_to_user]: for a user id, not a chat. *)
Record QueuedText := mk_reply { rp_channel : cstring; rp_chat : cstring; rp_text : cstring; rp_to_user : bool }.

(** [hb_agents]: the names of agents; [hb_next_session]: the AUTOINCREMENT counter of
    sessions; [hb_media]: media_jobs; [hb_notified]: the senders the admins were told of. *)
Record Hub := mk_hub {
  hb_world : World; hb_secrets : list SecretRow; hb_agents : list cstring; hb_events : list EventRow; hb_doors : list Door;
  hb_replies : list QueuedText; hb_media : list (Z * cstring * cstring); hb_titles : list (Z * cstring);
  hb_notified : list cstring; hb_next_session : Z
}.

Definition h_world (w : World) (h : Hub) : Hub :=
  mk_hub w (hb_secrets h) (hb_agents h) (hb_events h) (hb_doors h) (hb_replies h) (hb_media h) (hb_titles h) (hb_notified h) (hb_next_session h).
Definition h_events (e : list EventRow) (h : Hub) : Hub :=
  mk_hub (hb_world h) (hb_secrets h) (hb_agents h) e (hb_doors h) (hb_replies h) (hb_media h) (hb_titles h) (hb_notified h) (hb_next_session h).
Definition h_replies (r : list QueuedText) (h : Hub) : Hub :=
  mk_hub (hb_world h) (hb_secrets h) (hb_agents h) (hb_events h) (hb_doors h) r (hb_media h) (hb_titles h) (hb_notified h) (hb_next_session h).
Definition h_media (m : list (Z * cstring * cstring)) (h : Hub) : Hub :=
  mk_hub (hb_world h) (hb_secrets h) (hb_agents h) (hb_events h) (hb_doors h) (hb_replies h) m (hb_titles h) (hb_notified h) (hb_next_session h).
Definition h_titles (t : list (Z * cstring)) (h : Hub) : Hub :=
  mk_hub (hb_world h) (hb_secrets h) (hb_agents h) (hb_events h) (hb_doors h) (hb_replies h) (hb_media h) t (hb_notified h) (hb_next_session h).
Definition h_notified (n : list cstring) (h : Hub) : Hub :=
  mk_hub (hb_world h) (hb_secrets h) (hb_agents h) (hb_events h) (hb_doors h) (hb_replies h) (hb_media h) (hb_titles h) n (hb_next_session h).
Definition h_next_session (n : Z) (h : Hub) : Hub :=
  mk_hub (hb_world h) (hb_secrets h) (hb_agents h) (hb_events h) (hb_doors h) (hb_replies h) (hb_media h) (hb_titles h) (hb_notified h) n.

(** ** Intents: src/channel_intent.h *)
Inductive ChannelDecide := DecideApprove | DecideAlways | DecideOnce | DecideDeny.
Inductive ChannelOrigin := OriginChat | OriginEvent.

(** An approval id of 0 is an argument that could not be read. *)
Inductive ChannelIntentKind :=
  | IntentDecide (d : ChannelDecide) (approval : Z) | IntentNew | IntentPin (session : Z) | IntentList | IntentStatus.

Record ChannelIntent := mk_intent { it_kind : ChannelIntentKind; it_origin : ChannelOrigin; it_sender : cstring }.

(** The argument of a command, its leading spaces removed, or [None] when the text is another. *)
Definition cmd_arg (text cmd : cstring) : option cstring :=
  if starts_with cmd text then
    match drop (length cmd) text with
    | [] => Some []
    | c :: p => if c =? 32 then Some ((fix skip p := match p with 32 :: p' => skip p' | _ => p end) p) else None
    end
  else None.

Definition decide_id (arg : cstring) : Z :=
  match arg with
  | [] => 0
  | _ => let (id, rest) := strtol arg in
         if (id <=? 0) || match rest with [] => false | c :: _ => negb (c =? 32) end then 0 else id
  end.

Definition channel_intent_from_text (text : option cstring) : option ChannelIntent :=
  let chat k := Some (mk_intent k OriginChat []) in
  match text with
  | None => None
  | Some text =>
      if streq text (bs "/new") then chat IntentNew
      else match cmd_arg text (bs "/sessions") with
           | Some arg => let pick := match arg with [] => 0 | _ => fst (strtol arg) end in
                         chat (if 0 <? pick then IntentPin pick else IntentList)
           | None =>
               match cmd_arg text (bs "/approve"), cmd_arg text (bs "/deny") with
               | Some arg, _ => chat (IntentDecide DecideApprove (decide_id arg))
               | None, Some arg => chat (IntentDecide DecideDeny (decide_id arg))
               | None, None => match cmd_arg text (bs "/status") with Some _ => chat IntentStatus | None => None end
               end
           end
  end.

Section Hub.
Context {J : Json1} `{Secure} (getenv secret_system : cstring -> option cstring) (env : Process)
  (run_advance : World -> Z -> World) (wr : Writes).

(** [column_int]: what [sqlite3_column_int64] makes of an element; [inbox_ok], [media_ok]: whether the
    inbox, or media_jobs, takes what an event brings; [llm_today]: the rows of llm_responses of a session
    since midnight; [other_state]: a state of a session the sources do not name. *)
Context (column_int : Json -> Z) (inbox_ok media_ok : Z -> bool) (llm_today : Z -> Z) (other_state : cstring).

(** ** The payload of an event *)

(** The text of [json_extract(payload, '$.key')] as a C string: [None] is an error, [Some None] NULL. *)
Definition extract_json (payload key : cstring) : option (option Json) :=
  match json_doc payload with
  | Some d => match json_path d key with Some e => Some (match e with Some JNull => None | _ => e end) | None => None end
  | None => None
  end.

Definition column_text (d : Json) : cstring :=
  match d with
  | JText s => c_str s
  | JBool b => if b then bs "1" else bs "0"
  | _ => json_extract_text d
  end.

Definition extract (payload key : cstring) : option cstring :=
  match extract_json payload key with Some (Some d) => Some (column_text d) | _ => None end.

(** A field that names a chat or a sender: at most 63 bytes, else [def]. *)
Definition id_field (payload key def : cstring) : cstring :=
  match extract payload key with
  | Some ((_ :: _) as v) => if (length v <? 64)%nat then v else def
  | _ => def
  end.

Definition event_chat (payload : cstring) : cstring := id_field payload (bs "chat_id") (bs "0").
Definition event_sender (payload : cstring) : cstring := id_field payload (bs "sender_id") (event_chat payload).

Definition channel_intent_from_decision_event (payload : cstring) : option ChannelIntent :=
  let id := match extract_json payload (bs "approval_id") with Some (Some d) => column_int d | Some None => 0 | None => -1 end in
  let decision := match extract payload (bs "decision") with Some v => snprintf 16 v | None => [] end in
  let sender := match extract payload (bs "sender") with Some v => snprintf 64 v | None => [] end in
  if (id <=? 0) || bool_decide (decision = []) then None
  else
    let d := if streq decision (bs "yes") then DecideAlways else if streq decision (bs "once") then DecideOnce else DecideDeny in
    Some (mk_intent (IntentDecide d id) OriginEvent sender).

(** ** Authority *)
Definition channel_id_is_admin (h : Hub) (channel id : cstring) : bool :=
  negb (bool_decide (id = [])) &&
  match channel_config_get getenv secret_system (hb_world h) channel (bs "admin_ids") with
  | Some admins => existsb (fun a => streq a id) (split_and_trim (Some admins) CHANNEL_ADMIN_IDS_MAX)
  | None => false
  end.

Definition channel_intent_allowed (h : Hub) (channel : cstring) (sender : option cstring) (it : ChannelIntent) : bool :=
  match it_origin it with
  | OriginChat => match sender with Some s => channel_id_is_admin h channel s | None => false end
  | OriginEvent => true
  end.

Definition channel_default_agent (h : Hub) (channel : cstring) : option cstring * option cstring :=
  let text v := match v with Some (_ :: _) => v | _ => None end in
  match List.find (fun d => streq (dr_channel d) channel) (hb_doors h) with
  | Some d => (text (dr_agent d), text (dr_filter d))
  | None => (None, None)
  end.

(** ** Replies and notices *)
Definition channel_chat_reply (channel chat text : cstring) (h : Hub) : Hub :=
  h_replies (hb_replies h ++ [mk_reply channel chat text false]) h.

Definition reply (channel : cstring) (chat : option cstring) (text : cstring) (h : Hub) : Hub :=
  match chat with Some c => channel_chat_reply channel c text h | None => h end.

Definition hub_notify_admins (channel text : cstring) (h : Hub) : Hub :=
  match channel_config_get getenv secret_system (hb_world h) channel (bs "admin_ids") with
  | Some admins => h_replies (hb_replies h ++ map (fun id => mk_reply channel id text true) (split_and_trim (Some admins) CHANNEL_ADMIN_IDS_MAX)) h
  | None => h
  end.

Definition GATE_NOTIFIED_MAX : Z := 256.

Definition unknown_note (channel chat payload : cstring) : cstring :=
  bs "unrouted message from " ++ match extract payload (bs "sender_name") with Some ((_ :: _) as n) => n | _ => bs "(unknown)" end ++
  bs " (sender id " ++ default (bs "?") (extract payload (bs "sender_id")) ++ bs ", chat " ++ chat ++ bs ") on channel " ++ channel ++
  bs " " ++ EM_DASH ++ bs " dropped. To accept: cclaw route add " ++ channel ++ bs " " ++ chat ++ bs " <Agent>".

Definition gate_notify_unknown (channel chat payload : cstring) (h : Hub) : Hub :=
  let key := snprintf 192 (channel ++ [31] ++ chat) in
  if existsb (fun k => streq k key) (hb_notified h) then h
  else
    let h := if zlen (hb_notified h) <? GATE_NOTIFIED_MAX then h_notified (hb_notified h ++ [key]) h else h in
    match json_doc payload with Some _ => hub_notify_admins channel (unknown_note channel chat payload) h | None => h end.

(** ** Sessions and pins *)
Definition is_route_of (channel chat : cstring) (p : cstring * cstring * Z) : bool :=
  streq (fst (fst p)) channel && streq (snd (fst p)) chat.

Definition with_pins (p : list (cstring * cstring * Z)) (w : World) : World :=
  mk_world (w_store w) (w_config w) (w_grants w) (w_sensitive w) (w_secret_hosts w) (w_filters w) p (w_models w) (w_channels w) (w_deferred w).
Definition with_filters (f : list (Z * cstring)) (w : World) : World :=
  mk_world (w_store w) (w_config w) (w_grants w) (w_sensitive w) (w_secret_hosts w) f (w_pins w) (w_models w) (w_channels w) (w_deferred w).

(** A new route has the delivery mode auto. *)
Definition add_route (channel chat : cstring) (t : Store) : Store :=
  mk_store (t_now t) (t_sessions t) (t_entries t) (t_next_entry t) (t_inbox t) (t_next_inbox t) (t_calls t) (t_edges t)
    (t_next_edge t) (t_outbox t) (t_llm_jobs t) (t_routes t ++ [(channel, chat, bs "auto")]) (t_ingest_only t) (t_woken t)
    (t_processes t) (t_approvals t).

Definition bound_to (channel chat : cstring) (s : XSession) : XSession :=
  mk_xsession (x_id s) (x_agent s) (x_state s) (x_iter s) (x_leaf s) (x_parent s) (Some channel) (Some chat) (x_owner s) (x_hold s).

Definition channel_pin_session (channel chat : cstring) (sid : Z) (w : World) : World :=
  let w := if existsb (is_route_of channel chat) (w_pins w)
           then with_pins (map (fun p => if is_route_of channel chat p then (channel, chat, sid) else p) (w_pins w)) w
           else on_store (add_route channel chat) (with_pins (w_pins w ++ [(channel, chat, sid)]) w) in
  on_store (update_session sid (bound_to channel chat)) w.

(** The session a chat is pinned to, and its agent. *)
Definition pinned (h : Hub) (channel chat : cstring) : option XSession :=
  match List.find (is_route_of channel chat) (w_pins (hb_world h)) with
  | Some (_, _, sid) => get_session (w_store (hb_world h)) sid
  | None => None
  end.

Definition pin_id (h : Hub) (channel chat : cstring) : Z := match pinned h channel chat with Some s => x_id s | None => -1 end.

Definition db_channel_binding_get (h : Hub) (channel chat : cstring) : option cstring :=
  match pinned h channel chat with Some s => x_agent s | None => None end.

Definition filter_valid (f : option cstring) : bool :=
  match f with Some f => json_valid f && match json_doc f with Some (JArr _) => true | _ => false end | None => true end.

(** A root session; [None]: the filter is not an array, or no such agent. *)
Definition session_create_filtered (agent : cstring) (filter : option cstring) (h : Hub) : option Z * Hub :=
  if filter_valid filter && bool_decide (agent ∈ hb_agents h) then
    let id := hb_next_session h in
    let w := on_store (fun t => with_sessions (t_sessions t ++ [mk_xsession id (Some agent) Idle 0 (-1) (-1) None None None 0]) t) (hb_world h) in
    let w := match filter with Some f => with_filters (w_filters w ++ [(id, f)]) w | None => w end in
    (Some id, h_next_session (id + 1) (h_world w h))
  else (None, h).

(** ** Execution of an intent: src/channel_intent.c *)
Definition state_name (s : ApprovalState) : cstring :=
  match s with ApPending => bs "pending" | ApApproved => bs "approved" | ApDenied => bs "denied" | ApConsumed => bs "consumed" end.

Definition session_state (s : SState) : cstring :=
  match s with
  | Idle => bs "idle" | LlmRunning => bs "llm_running" | ToolRunning => bs "tool_running" | Compacting => bs "compacting"
  | RateLimited => bs "rate_limited" | AwaitingApproval => bs "awaiting_approval" | UnknownState => other_state
  end.

(** The request with its session, by id. *)
Definition request_of (h : Hub) (id : Z) : option (ApprovalRow * XSession) :=
  let t := w_store (hb_world h) in
  match get_approval t id with
  | Some a => match get_session t (a_session a) with Some s => Some (a, s) | None => None end
  | None => None
  end.

(** The strength of a decision; chat text leaves it to how the request is resolved. *)
Definition decision_of (d : ChannelDecide) (resolve : cstring) : ApprovalDecision :=
  match d with
  | DecideApprove => if streq (snprintf 16 resolve) (bs "apply") then APPROVAL_ALWAYS else APPROVAL_ONCE
  | DecideAlways => APPROVAL_ALWAYS
  | DecideOnce => APPROVAL_ONCE
  | DecideDeny => APPROVAL_DENY
  end.

Definition is_deny (d : ChannelDecide) : bool := match d with DecideDeny => true | _ => false end.

Definition decided_via (channel : cstring) (sender : option cstring) : cstring :=
  snprintf 128 (bs "channel:" ++ channel ++ match sender with Some s => bs ":" ++ s | None => [] end).

Definition decided_text (a : ApprovalRow) (d : ChannelDecide) : cstring :=
  snprintf 320 ((if is_deny d then bs "denied" else bs "approved") ++ bs " #" ++ print_int (a_id a) ++ bs " (" ++
    snprintf 64 (default (bs "?") (a_tool a)) ++ bs " " ++ snprintf 64 (default (bs "?") (a_reason a)) ++ bs ")" ++
    match is_deny d, decision_of d (a_resolve a) with false, APPROVAL_ONCE => bs " " ++ EM_DASH ++ bs " once" | _, _ => [] end).

Definition intent_exec_decide (h : Hub) (channel : cstring) (chat sender : option cstring) (d : ChannelDecide) (id : Z) : Hub :=
  let verb := if is_deny d then bs "deny" else bs "approve" in
  if id <=? 0 then
    reply channel chat (snprintf 320 (bs "usage: /" ++ verb ++ bs " <approval id> " ++ EM_DASH ++ bs " see /approvals for pending ids")) h
  else match request_of h id with
       | Some (a, s) =>
           if bool_decide (x_channel s = Some channel) then
             if bool_decide (a_state a = ApPending) then
               let w := resolve_approval env run_advance wr (hb_world h) id (decision_of d (a_resolve a)) (decided_via channel sender) 0 in
               reply channel chat (decided_text a d) (h_world w h)
             else
               reply channel chat (snprintf 320 (bs "approval #" ++ print_int id ++ bs " is already " ++ snprintf 32 (state_name (a_state a)) ++
                                                 bs " " ++ EM_DASH ++ bs " nothing to " ++ verb)) h
           else reply channel chat (snprintf 320 (bs "no approval #" ++ print_int id ++ bs " on this channel")) h
       | None => reply channel chat (snprintf 320 (bs "no approval #" ++ print_int id ++ bs " on this channel")) h
       end.

Definition first_model (h : Hub) (agent : option cstring) : cstring :=
  match agent with
  | Some a =>
      if bool_decide (a ∈ hb_agents h) then
        match List.find (fun m => streq (fst (fst m)) a) (w_models (hb_world h)) with
        | Some (_, id, _) => id
        | None => bs "(provider default)"
        end
      else bs "(provider default)"
  | None => bs "(provider default)"
  end.

Definition pending_on (h : Hub) (channel : cstring) : Z :=
  let t := w_store (hb_world h) in
  zlen (List.filter (fun a => is_pending a && match get_session t (a_session a) with
                                              | Some s => bool_decide (x_channel s = Some channel)
                                              | None => false
                                              end) (t_approvals t)).

Definition intent_exec_status (h : Hub) (channel : cstring) (chat : option cstring) : Hub :=
  reply channel chat
    match pinned h channel (default [] chat) with
    | Some s =>
        snprintf 512 (bs "session #" ++ print_int (x_id s) ++ bs " (" ++ default (bs "(null)") (x_agent s) ++ bs ", " ++ session_state (x_state s) ++
          bs ")" ++ [10] ++ bs "model: " ++ first_model h (x_agent s) ++ [10] ++ bs "LLM calls today: " ++ print_int (llm_today (x_id s)) ++ [10] ++
          bs "pending approvals on this channel: " ++ print_int (pending_on h channel))
    | None => bs "no session pinned to this chat (try /new)"
    end h.

(** The agent of a new session of a chat, with the filter it gets. *)
Definition new_session_agent (h : Hub) (channel chat : cstring) : option cstring * option cstring :=
  match db_channel_binding_get h channel chat with
  | Some a => (Some a, None)
  | None =>
      let (agent, filter) := channel_default_agent h channel in
      (match agent with Some a => Some a | None => config_get getenv secret_system (w_config (hb_world h)) (bs "default_agent") end, filter)
  end.

Definition intent_exec_new (h : Hub) (channel chat : cstring) : Hub :=
  match new_session_agent h channel chat with
  | (None, _) => channel_chat_reply channel chat (bs "no agent for this chat") h
  | (Some agent, filter) =>
      match session_create_filtered agent filter h with
      | (Some sid, h) =>
          let h := h_world (channel_pin_session channel chat sid (hb_world h)) h in
          channel_chat_reply channel chat (snprintf 96 (bs "new session #" ++ print_int sid ++ bs " (" ++ agent ++ bs ")")) h
      | (None, h) => channel_chat_reply channel chat (bs "session create failed") h
      end
  end.

Definition intent_exec_pin (h : Hub) (channel chat : cstring) (pick : Z) : Hub :=
  match get_session (w_store (hb_world h)) pick with
  | Some _ =>
      channel_chat_reply channel chat (snprintf 64 (bs "attached session #" ++ print_int pick))
        (h_world (channel_pin_session channel chat pick (hb_world h)) h)
  | None => channel_chat_reply channel chat (bs "no such session") h
  end.

(** A line of the list; no line for a session without an agent. *)
Definition list_line (current : option Z) (s : XSession) : list cstring :=
  match x_agent s with
  | Some a => [(if bool_decide (current = Some (x_id s)) then bs "* " else bs "  ") ++ bs "#" ++ print_int (x_id s) ++ bs " " ++ a ++ bs " " ++ session_state (x_state s)]
  | None => []
  end.

Fixpoint join_lines (l : list cstring) : cstring :=
  match l with [] => [] | [x] => x | x :: l => x ++ [10] ++ join_lines l end.

(** Sessions are in the order of their ids. *)
Definition intent_exec_list (h : Hub) (channel chat : cstring) : Hub :=
  let current := option_map snd (List.find (is_route_of channel chat) (w_pins (hb_world h))) in
  let mine := List.filter (fun s => bool_decide (x_channel s = Some channel) && bool_decide (x_chat s = Some chat)) (t_sessions (w_store (hb_world h))) in
  let lines := List.concat (map (list_line current) (take 10 (rev mine))) in
  channel_chat_reply channel chat match lines with [] => bs "no sessions for this chat" | _ => join_lines lines end h.

(** The commands other than decisions come from a chat. *)
Definition channel_intent_execute (h : Hub) (channel : cstring) (chat sender : option cstring) (it : ChannelIntent) : Hub :=
  match it_kind it, chat with
  | IntentDecide d id, _ => intent_exec_decide h channel chat sender d id
  | IntentNew, Some c => intent_exec_new h channel c
  | IntentPin pick, Some c => intent_exec_pin h channel c pick
  | IntentList, Some c => intent_exec_list h channel c
  | IntentStatus, _ => intent_exec_status h channel chat
  | _, None => h
  end.

(** ** The gate and the conversation: src/channel.c *)

(** The session of an event: pinned, or new through the door; [None]: dropped. *)
Definition gate_session (h : Hub) (channel chat sender payload : cstring) : option Z * Hub :=
  if 0 <? pin_id h channel chat then (Some (pin_id h channel chat), h)
  else
    let admin := channel_id_is_admin h channel sender in
    let (door, filter) := channel_default_agent h channel in
    let agent := match door with
                 | Some a => Some a
                 | None => if admin then config_get getenv secret_system (w_config (hb_world h)) (bs "default_agent") else None
                 end in
    match agent with
    | None => (None, if admin then h else gate_notify_unknown channel chat payload h)
    | Some agent =>
        match session_create_filtered agent filter h with
        | (Some sid, h) => (Some sid, h_world (channel_pin_session channel chat sid (hb_world h)) h)
        | (None, h) => (None, h)
        end
    end.

Definition set_title (sid : Z) (payload : cstring) (h : Hub) : Hub :=
  match extract payload (bs "chat_title") with
  | Some title =>
      h_titles (if existsb (fun t => fst t =? sid) (hb_titles h)
                then map (fun t => if fst t =? sid then (sid, title) else t) (hb_titles h)
                else hb_titles h ++ [(sid, title)]) h
  | None => h
  end.

Definition has_media (payload : cstring) : bool :=
  match extract_json payload (bs "media") with Some (Some _) => true | _ => false end.

(** What the agent is told: the text, in a group with its sender, or the payload of a channel of another shape. *)
Definition inbox_text (payload : cstring) : cstring :=
  match extract payload (bs "text") with
  | None => payload
  | Some text =>
      match extract payload (bs "chat_type"), extract payload (bs "sender_name") with
      | Some ty, Some ((_ :: _) as name) => if streq ty (bs "group") then name ++ bs ": " ++ text else text
      | _, _ => text
      end
  end.

(** An event handed to its session; [false]: the inbox did not take it. *)
Definition deliver_event (e : EventRow) (sid : Z) (h : Hub) : bool * Hub :=
  let payload := ev_payload e in
  let h := set_title sid payload h in
  if has_media payload then (true, if media_ok (ev_id e) then h_media (hb_media h ++ [(sid, ev_channel e, payload)]) h else h)
  else if inbox_ok (ev_id e) then
    (true, h_world (on_store (fun t => wake sid (inbox_insert t sid (ev_channel e) None (mask_in (hb_secrets h) (inbox_text payload)))) (hb_world h)) h)
  else (false, h).

Definition message_event (e : EventRow) (h : Hub) : bool * Hub :=
  let payload := ev_payload e in
  let channel := ev_channel e in
  let chat := event_chat payload in
  let sender := event_sender payload in
  let talk :=
    match gate_session h channel chat sender payload with
    | (Some sid, h) => deliver_event e sid h
    | (None, h) => (true, h)
    end in
  match channel_intent_from_text (extract payload (bs "text")) with
  | Some it => if channel_intent_allowed h channel (Some sender) it
               then (true, channel_intent_execute h channel (Some chat) (Some sender) it) else talk
  | None => talk
  end.

(** One event; [false]: it stays for the next pass. *)
Definition handle_event (e : EventRow) (h : Hub) : bool * Hub :=
  if streq (ev_type e) (bs "approval_decision") then
    (true,
     match channel_intent_from_decision_event (ev_payload e) with
     | None => h
     | Some it =>
         let who := match it_sender it with [] => None | s => Some s end in
         if channel_intent_allowed h (ev_channel e) who it then channel_intent_execute h (ev_channel e) None who it else h
     end)
  else if streq (ev_type e) (bs "message") then message_event e h
  else (true, h).

(** The first event past the cursor: ids are those of the insertions. *)
Definition next_event (cursor : Z) (events : list EventRow) : option EventRow := List.find (fun e => cursor <? ev_id e) events.

Definition delete_event (id : Z) (h : Hub) : Hub := h_events (List.filter (fun e => negb (ev_id e =? id)) (hb_events h)) h.

(** [None]: out of fuel. *)
Fixpoint consume_loop (fuel : nat) (cursor : Z) (h : Hub) : option Hub :=
  match next_event cursor (hb_events h) with
  | None => Some h
  | Some e =>
      match fuel with
      | O => None
      | S fuel =>
          let (done, h) := handle_event e h in
          consume_loop fuel (ev_id e) (if done then delete_event (ev_id e) h else h)
      end
  end.

Definition channel_consume_events (h : Hub) : option Hub := consume_loop (length (hb_events h)) 0 h.

(** ** What an event may change *)

(** What decisions rest on is as it was: requests, calls, entries, edges, grants,
    configuration, secrets, models, channels and the deferred decision; the pins of every
    chat but this one; and the row of every session, but that a session [moved] names may
    become bound to this chat.  Filters are only added, and to such sessions. *)
Record undecided (channel chat : cstring) (moved : Z -> Prop) (w w' : World) : Prop := mk_undecided {
  ud_approvals : t_approvals (w_store w') = t_approvals (w_store w);
  ud_calls : t_calls (w_store w') = t_calls (w_store w);
  ud_entries : t_entries (w_store w') = t_entries (w_store w);
  ud_edges : t_edges (w_store w') = t_edges (w_store w);
  ud_grants : w_grants w' = w_grants w; ud_config : w_config w' = w_config w;
  ud_hosts : w_secret_hosts w' = w_secret_hosts w /\ w_sensitive w' = w_sensitive w;
  ud_models : w_models w' = w_models w; ud_channels : w_channels w' = w_channels w; ud_deferred : w_deferred w' = w_deferred w;
  ud_sessions : forall i s, get_session (w_store w) i = Some s ->
    get_session (w_store w') i = Some s \/ moved i /\ get_session (w_store w') i = Some (bound_to channel chat s);
  ud_pins : forall p, is_route_of channel chat p = false -> (p ∈ w_pins w' <-> p ∈ w_pins w);
  ud_filters : exists more, w_filters w' = w_filters w ++ more /\ Forall (fun f => moved (fst f)) more
}.

Section Undecided.
Context (channel chat : cstring) (moved : Z -> Prop).

Lemma undecided_refl w : undecided channel chat moved w w.
Proof. split; try done; [auto|]. exists []. by rewrite app_nil_r. Qed.

Lemma undecided_trans w1 w2 w3 :
  undecided channel chat moved w1 w2 -> undecided channel chat moved w2 w3 -> undecided channel chat moved w1 w3.
Proof.
  intros [? ? ? ? ? ? [? ?] ? ? ? S1 P1 (m1 & E1 & F1)] [? ? ? ? ? ? [? ?] ? ? ? S2 P2 (m2 & E2 & F2)].
  split; try congruence; [split; congruence| | |].
  - intros i s Hs. destruct (S1 i s Hs) as [A1|[M1 A1]], (S2 i _ A1) as [A2|[M2 A2]]; auto.
  - intros q Hq. rewrite P2, P1 by done. done.
  - exists (m1 ++ m2). rewrite E2, E1, app_assoc. split; [done|]. by apply Forall_app.
Qed.

(** Only the tables an event does not touch here differ. *)
Lemma undecided_same w w' :
  t_approvals (w_store w') = t_approvals (w_store w) -> t_calls (w_store w') = t_calls (w_store w) ->
  t_entries (w_store w') = t_entries (w_store w) -> t_edges (w_store w') = t_edges (w_store w) ->
  t_sessions (w_store w') = t_sessions (w_store w) ->
  w_grants w' = w_grants w -> w_config w' = w_config w -> w_secret_hosts w' = w_secret_hosts w -> w_sensitive w' = w_sensitive w ->
  w_models w' = w_models w -> w_channels w' = w_channels w -> w_deferred w' = w_deferred w -> w_pins w' = w_pins w ->
  w_filters w' = w_filters w -> undecided channel chat moved w w'.
Proof.
  intros A B C D E F G H1 H2 I J1 K L M. split; try done.
  - intros i s Hs. left. unfold get_session. by rewrite E.
  - intros q _. by rewrite L.
  - exists []. by rewrite M, app_nil_r.
Qed.

Lemma pin_undecided sid w : moved sid -> undecided channel chat moved w (channel_pin_session channel chat sid w).
Proof.
  intros Hm. set (w' := channel_pin_session channel chat sid w).
  assert (Hs : forall i s, get_session (w_store w) i = Some s ->
    get_session (w_store w') i = Some s \/ moved i /\ get_session (w_store w') i = Some (bound_to channel chat s)).
  { intros i s Hs. unfold w', channel_pin_session, on_store. cbn [w_store].
    rewrite get_session_update by done. destruct (i =? sid) eqn:E; [right|left; by destruct (existsb _ _)].
    apply Z.eqb_eq in E as ->. split; [done|]. replace (get_session _ sid) with (Some s) by (by destruct (existsb _ _)). done. }
  assert (Hp : forall q, is_route_of channel chat q = false -> (q ∈ w_pins w' <-> q ∈ w_pins w)).
  { intros q Hq. unfold w', channel_pin_session. destruct (existsb (is_route_of channel chat) (w_pins w)); cbn [w_pins on_store with_pins].
    - rewrite list_elem_of_fmap. split.
      + intros (x & E & Hx). destruct (is_route_of channel chat x) eqn:Ex; [|by subst].
        exfalso. rewrite E in Hq. unfold is_route_of, streq in Hq. cbn in Hq. by rewrite !bool_decide_true in Hq.
      + intros Hx. exists q. by rewrite Hq.
    - rewrite elem_of_app, list_elem_of_singleton. split; [|auto]. intros [?| ->]; [done|].
      exfalso. unfold is_route_of, streq in Hq. cbn in Hq. by rewrite !bool_decide_true in Hq. }
  split; try done; unfold w', channel_pin_session; destruct (existsb _ _); try done; exists []; by rewrite app_nil_r.
Qed.
End Undecided.

Lemma create_spec agent filter h :
  match session_create_filtered agent filter h with
  | (Some sid, h') =>
      sid = hb_next_session h /\ hb_events h' = hb_events h /\ hb_secrets h' = hb_secrets h /\
      (forall channel chat (moved : Z -> Prop), moved sid -> undecided channel chat moved (hb_world h) (hb_world h')) /\
      t_sessions (w_store (hb_world h')) = t_sessions (w_store (hb_world h)) ++ [mk_xsession sid (Some agent) Idle 0 (-1) (-1) None None None 0] /\
      w_filters (hb_world h') = w_filters (hb_world h) ++ match filter with Some f => [(sid, f)] | None => [] end /\
      w_pins (hb_world h') = w_pins (hb_world h) /\ t_inbox (w_store (hb_world h')) = t_inbox (w_store (hb_world h)) /\
      t_next_inbox (w_store (hb_world h')) = t_next_inbox (w_store (hb_world h)) /\ t_now (w_store (hb_world h')) = t_now (w_store (hb_world h)) /\
      t_routes (w_store (hb_world h')) = t_routes (w_store (hb_world h))
  | (None, h') => h' = h
  end.
Proof.
  unfold session_create_filtered. destruct (_ && _); [|done].
  assert (Hold : forall (t : Store) x i s, get_session t i = Some s -> get_session (with_sessions (t_sessions t ++ [x]) t) i = Some s).
  { intros t x i s Hs. unfold get_session in *. cbn [t_sessions with_sessions]. by rewrite find_app, Hs. }
  destruct filter; cbn; rewrite ?app_nil_r; split_all; try done; intros channel chat moved Hm; split; try done;
    try (intros i s Hs; left; by apply Hold).
  - eexists. split; [reflexivity|by repeat constructor].
  - exists []. by rewrite app_nil_r.
Qed.

Lemma reply_world channel chat text h : hb_world (reply channel chat text h) = hb_world h.
Proof. by destruct chat. Qed.
Lemma reply_events channel chat text h : hb_events (reply channel chat text h) = hb_events h.
Proof. by destruct chat. Qed.
Lemma notify_unknown_world channel chat payload h : hb_world (gate_notify_unknown channel chat payload h) = hb_world h.
Proof.
  unfold gate_notify_unknown, hub_notify_admins. destruct (existsb _ _); [done|]. destruct (zlen _ <? _), (json_doc payload); try done;
    by destruct (channel_config_get _ _ _ _ _).
Qed.
Lemma notify_unknown_events channel chat payload h : hb_events (gate_notify_unknown channel chat payload h) = hb_events h.
Proof.
  unfold gate_notify_unknown, hub_notify_admins. destruct (existsb _ _); [done|]. destruct (zlen _ <? _), (json_doc payload); try done;
    by destruct (channel_config_get _ _ _ _ _).
Qed.

(** The sessions an event of a chat may bind to it: a new one, and the one an admin picks. *)
Definition bindable (h : Hub) (pick : option Z) (i : Z) : Prop := i = hb_next_session h \/ pick = Some i.

(** The executed intents that decide nothing. *)
Lemma new_undecided h channel chat pick :
  undecided channel chat (bindable h pick) (hb_world h) (hb_world (intent_exec_new h channel chat)) /\
  hb_events (intent_exec_new h channel chat) = hb_events h.
Proof.
  unfold intent_exec_new. destruct (new_session_agent _ _ _) as [[agent|] filter]; [|split; [apply undecided_refl|done]].
  pose proof (create_spec agent filter h) as Hc. destruct (session_create_filtered agent filter h) as [[sid|] h'].
  - destruct Hc as (-> & He & _ & Hu & _). cbn. split; [|done].
    eapply undecided_trans; [apply Hu|apply pin_undecided]; by left.
  - subst. split; [apply undecided_refl|done].
Qed.

Lemma pick_undecided h channel chat pick :
  undecided channel chat (bindable h (Some pick)) (hb_world h) (hb_world (intent_exec_pin h channel chat pick)) /\
  hb_events (intent_exec_pin h channel chat pick) = hb_events h.
Proof.
  unfold intent_exec_pin. destruct (get_session _ _); [|split; [apply undecided_refl|done]]. cbn.
  split; [apply pin_undecided; by right|done].
Qed.

Definition picked (it : ChannelIntent) : option Z := match it_kind it with IntentPin pick => Some pick | _ => None end.

(** A decision carried out, with all that it was checked against. *)
Definition decides (h : Hub) (channel : cstring) (who : option cstring) (d : ChannelDecide) (id : Z) (w' : World) : Prop :=
  exists a s, request_of h id = Some (a, s) /\ x_channel s = Some channel /\ a_state a = ApPending /\ 0 < id /\
    w' = resolve_approval env run_advance wr (hb_world h) id (decision_of d (a_resolve a)) (decided_via channel who) 0.

Lemma decide_spec h channel chat who d id :
  let h' := intent_exec_decide h channel chat who d id in
  hb_events h' = hb_events h /\ (hb_world h' = hb_world h \/ decides h channel who d id (hb_world h')).
Proof.
  unfold intent_exec_decide. destruct (id <=? 0) eqn:E; [rewrite reply_events, reply_world; by split; [|left]|].
  destruct (request_of h id) as [[a s]|] eqn:Er; [|rewrite reply_events, reply_world; by split; [|left]].
  case_bool_decide; [|rewrite reply_events, reply_world; by split; [|left]].
  case_bool_decide; rewrite reply_events, reply_world; [|by split; [|left]].
  split; [done|]. right. exists a, s. split_all; try done. lia.
Qed.

Lemma execute_spec h channel chat who it :
  let h' := channel_intent_execute h channel chat who it in
  hb_events h' = hb_events h /\
  (undecided channel (default [] chat) (bindable h (picked it)) (hb_world h) (hb_world h') \/
   exists d id, it_kind it = IntentDecide d id /\ decides h channel who d id (hb_world h')).
Proof.
  unfold channel_intent_execute, picked. destruct (it_kind it) as [d id| | | |], chat as [c|]; cbn [default];
    try (split; [done|left; apply undecided_refl]).
  1,2: lazymatch goal with |- context [intent_exec_decide ?h ?ch ?c ?w ?d ?i] => destruct (decide_spec h ch c w d i) as [H1 H2] end;
    (split; [done|]); destruct H2 as [-> |H2]; [left; apply undecided_refl|right; eauto].
  - destruct (new_undecided h channel c None). by split; [|left].
  - destruct (pick_undecided h channel c session). by split; [|left].
Qed.

Lemma gate_spec h channel chat sender payload pick :
  let h' := snd (gate_session h channel chat sender payload) in
  hb_events h' = hb_events h /\ undecided channel chat (bindable h pick) (hb_world h) (hb_world h').
Proof.
  unfold gate_session. destruct (0 <? _); [split; [done|apply undecided_refl]|].
  destruct (channel_default_agent h channel) as [door filter]. destruct (match door with Some _ => _ | None => _ end) as [agent|].
  - pose proof (create_spec agent filter h) as Hc. destruct (session_create_filtered agent filter h) as [[sid|] h1]; cbn [snd].
    + destruct Hc as (-> & He & _ & Hu & _). split; [done|].
      eapply undecided_trans; [apply Hu|apply pin_undecided]; by left.
    + subst. split; [done|apply undecided_refl].
  - cbn [snd]. destruct (channel_id_is_admin h channel sender); [split; [done|apply undecided_refl]|].
    rewrite notify_unknown_events, notify_unknown_world. split; [done|apply undecided_refl].
Qed.

Lemma title_world sid payload h : hb_world (set_title sid payload h) = hb_world h /\ hb_events (set_title sid payload h) = hb_events h /\
  hb_secrets (set_title sid payload h) = hb_secrets h.
Proof. unfold set_title. by destruct (extract _ _). Qed.

Lemma deliver_spec e sid h :
  let h' := snd (deliver_event e sid h) in
  hb_events h' = hb_events h /\ (forall channel chat moved, undecided channel chat moved (hb_world h) (hb_world h')) /\
  w_pins (hb_world h') = w_pins (hb_world h) /\ w_filters (hb_world h') = w_filters (hb_world h) /\
  t_sessions (w_store (hb_world h')) = t_sessions (w_store (hb_world h)) /\
  (fst (deliver_event e sid h) = false -> inbox_ok (ev_id e) = false) /\
  (t_inbox (w_store (hb_world h')) = t_inbox (w_store (hb_world h)) \/
   t_inbox (w_store (hb_world h')) = t_inbox (w_store (hb_world h)) ++
     [mk_in (t_next_inbox (w_store (hb_world h))) sid (ev_channel e) None (mask_in (hb_secrets h) (inbox_text (ev_payload e))) false
        (t_now (w_store (hb_world h)))]).
Proof.
  unfold deliver_event. destruct (title_world sid (ev_payload e) h) as (Hw & He & Hs).
  destruct (has_media _).
  - cbn [fst snd]. destruct (media_ok _); cbn; rewrite Hw, He; split_all; try done; try (intros; apply undecided_refl); by left.
  - destruct (inbox_ok (ev_id e)) eqn:Ei; cbn; rewrite ?Hw, ?He, ?Hs; split_all; try done;
      try (intros; apply undecided_refl); try (intros; by apply undecided_same); [by right|by left].
Qed.

(** Every command of a chat that is carried out comes from an admin. *)
Lemma message_cases e h :
  let r := message_event e h in
  let sender := event_sender (ev_payload e) in
  (exists it, channel_id_is_admin h (ev_channel e) sender = true /\
     channel_intent_from_text (extract (ev_payload e) (bs "text")) = Some it /\
     r = (true, channel_intent_execute h (ev_channel e) (Some (event_chat (ev_payload e))) (Some sender) it)) \/
  r = match gate_session h (ev_channel e) (event_chat (ev_payload e)) sender (ev_payload e) with
      | (Some sid, h) => deliver_event e sid h
      | (None, h) => (true, h)
      end.
Proof.
  cbn. unfold message_event. destruct (channel_intent_from_text _) as [it|] eqn:Ei; [|by right].
  destruct (channel_intent_allowed h (ev_channel e) (Some (event_sender (ev_payload e))) it) eqn:Ea; [|by right].
  left. exists it. split_all; try done. unfold channel_intent_allowed in Ea. destruct (it_origin it) eqn:Eo; [done|].
  exfalso. unfold channel_intent_from_text in Ei. destruct (extract _ _) as [text|]; [|done].
  repeat case_match; simplify_eq; done.
Qed.

Lemma talk_spec e h pick :
  let r := match gate_session h (ev_channel e) (event_chat (ev_payload e)) (event_sender (ev_payload e)) (ev_payload e) with
           | (Some sid, h) => deliver_event e sid h
           | (None, h) => (true, h)
           end in
  hb_events (snd r) = hb_events h /\
  undecided (ev_channel e) (event_chat (ev_payload e)) (bindable h pick) (hb_world h) (hb_world (snd r)) /\ (fst r = false -> inbox_ok (ev_id e) = false).
Proof.
  pose proof (gate_spec h (ev_channel e) (event_chat (ev_payload e)) (event_sender (ev_payload e)) (ev_payload e) pick) as [He Hu].
  destruct (gate_session _ _ _ _ _) as [[sid|] h1]; cbn [snd fst] in *; [|done].
  destruct (deliver_spec e sid h1) as (H1 & H2 & _ & _ & _ & H3 & _). cbn. split_all; [congruence|by eapply undecided_trans|done].
Qed.

Lemma event_spec e h :
  let r := handle_event e h in
  hb_events (snd r) = hb_events h /\ (fst r = false -> ev_type e = bs "message" /\ inbox_ok (ev_id e) = false).
Proof.
  cbn. unfold handle_event. destruct (streq (ev_type e) (bs "approval_decision")).
  - cbn. destruct (channel_intent_from_decision_event _) as [it|]; [|done].
    set (who := match it_sender it with [] => None | _ => _ end).
    destruct (channel_intent_allowed _ _ _ _); [|done]. by destruct (execute_spec h (ev_channel e) None who it).
  - destruct (streq (ev_type e) (bs "message")) eqn:Em; [|done]. apply bool_decide_eq_true in Em.
    destruct (message_cases e h) as [(it & _ & _ & ->)| ->].
    + cbn. destruct (execute_spec h (ev_channel e) (Some (event_chat (ev_payload e))) (Some (event_sender (ev_payload e))) it). done.
    + destruct (talk_spec e h None) as (H1 & _ & H2). split; [done|]. intros Hf. split; [done|]. by apply H2.
Qed.

Lemma chat_decides text it d id :
  channel_intent_from_text text = Some it -> it_kind it = IntentDecide d id -> d = DecideApprove \/ d = DecideDeny.
Proof.
  unfold channel_intent_from_text. destruct text as [text|]; [|done]. intros H1 H2.
  repeat case_match; simplify_eq; cbn in H2; simplify_eq; auto; by case_match.
Qed.

Lemma pin_spec channel chat sid w :
  let w' := channel_pin_session channel chat sid w in
  (channel, chat, sid) ∈ w_pins w' /\ (forall p, p ∈ w_pins w -> is_route_of channel chat p = false -> p ∈ w_pins w') /\
  w_filters w' = w_filters w /\ map x_id (t_sessions (w_store w')) = map x_id (t_sessions (w_store w)) /\
  t_inbox (w_store w') = t_inbox (w_store w) /\ t_next_inbox (w_store w') = t_next_inbox (w_store w) /\ t_now (w_store w') = t_now (w_store w).
Proof.
  assert (Hids : forall t : Store, map x_id (t_sessions (update_session sid (bound_to channel chat) t)) = map x_id (t_sessions t)).
  { intros t. cbn. rewrite map_map. apply map_ext. intros s. by case_match. }
  unfold channel_pin_session. destruct (existsb (is_route_of channel chat) (w_pins w)) eqn:E; cbn [w_pins on_store with_pins w_filters w_store].
  - rewrite Hids. split_all; try done.
    + apply existsb_exists in E as (p & Hp & Hi). apply list_elem_of_In, in_map_iff. exists p. by rewrite Hi.
    + intros p Hp Hi. apply list_elem_of_In, in_map_iff. exists p. rewrite Hi. split; [done|]. by apply list_elem_of_In.
  - rewrite Hids. split_all; try done; [apply elem_of_app; right; by left|intros p Hp _; apply elem_of_app; by left].
Qed.

Lemma outsider_gate h channel chat sender payload :
  channel_id_is_admin h channel sender = false ->
  let r := gate_session h channel chat sender payload in
  0 < pin_id h channel chat /\ r = (Some (pin_id h channel chat), h) \/
  fst r = None /\ hb_world (snd r) = hb_world h \/
  pin_id h channel chat <= 0 /\ exists agent filter h1, channel_default_agent h channel = (Some agent, filter) /\
    session_create_filtered agent filter h = (Some (hb_next_session h), h1) /\
    r = (Some (hb_next_session h), h_world (channel_pin_session channel chat (hb_next_session h) (hb_world h1)) h1).
Proof.
  intros Hna. cbn. unfold gate_session. destruct (0 <? pin_id h channel chat) eqn:E; [left; split; [lia|done]|]. right. rewrite Hna.
  destruct (channel_default_agent h channel) as [[agent|] filter].
  - pose proof (create_spec agent filter h) as Hc. destruct (session_create_filtered agent filter h) as [[sid|] h1] eqn:Ec.
    + destruct Hc as [-> _]. right. split; [lia|]. exists agent, filter, h1. done.
    + left. by subst.
  - left. split; [done|]. apply notify_unknown_world.
Qed.

(** The session an admin's command picks for its chat. *)
Definition admin_pick (e : EventRow) (h : Hub) : option Z :=
  if streq (ev_type e) (bs "message") && channel_id_is_admin h (ev_channel e) (event_sender (ev_payload e)) then
    match channel_intent_from_text (extract (ev_payload e) (bs "text")) with Some it => picked it | None => None end
  else None.

(** (C19) Who decides.  An event is one decision or none.  Without a decision it leaves
    requests, calls, entries, edges, grants, configuration, secrets and models as they
    were, the pins of every other chat, and every session's row, but that the session it
    created or the one an admin picked with /sessions N becomes bound to the event's own
    chat.  A decision is carried out by resolve_approval alone, on a pending request of
    a session bound to the event's own channel: from the channel's extension, or as a
    command of a sender in admin_ids, whose text never turns a request to re-run a call
    into a standing permission. *)
Theorem event_authority e h :
  let h' := snd (handle_event e h) in
  let sender := event_sender (ev_payload e) in
  undecided (ev_channel e) (event_chat (ev_payload e)) (bindable h (admin_pick e h)) (hb_world h) (hb_world h') \/
  exists d id who, decides h (ev_channel e) who d id (hb_world h') /\
    (ev_type e = bs "approval_decision" \/
     ev_type e = bs "message" /\ channel_id_is_admin h (ev_channel e) sender = true /\ who = Some sender /\
     forall a s, request_of h id = Some (a, s) -> a_resolve a = bs "rerun" -> decision_of d (a_resolve a) <> APPROVAL_ALWAYS).
Proof.
  cbn. unfold handle_event. destruct (streq (ev_type e) (bs "approval_decision")) eqn:Ed; [apply bool_decide_eq_true in Ed|].
  - cbn [snd]. destruct (channel_intent_from_decision_event _) as [it|] eqn:Ei; [|left; apply undecided_refl].
    set (who := match it_sender it with [] => None | _ => _ end).
    destruct (channel_intent_allowed _ _ _ _); [|left; apply undecided_refl].
    assert (Hk : exists d id, it_kind it = IntentDecide d id).
    { unfold channel_intent_from_decision_event in Ei. case_match; [done|]. injection Ei as <-. by eexists _, _. }
    destruct Hk as (d & id & Hk). unfold channel_intent_execute. rewrite Hk.
    destruct (decide_spec h (ev_channel e) None who d id) as [_ [-> |H1]]; [left; apply undecided_refl|].
    right. exists d, id, who. split; [done|by left].
  - destruct (streq (ev_type e) (bs "message")) eqn:Em; [|left; apply undecided_refl].
    assert (Et : ev_type e = bs "message") by (by apply bool_decide_eq_true in Em).
    destruct (message_cases e h) as [(it & Ha & Hi & ->)| ->]; [|left; by apply talk_spec]. cbn [snd].
    destruct (execute_spec h (ev_channel e) (Some (event_chat (ev_payload e))) (Some (event_sender (ev_payload e))) it)
      as [_ [H1|(d & id & Hk & H1)]].
    { left. unfold admin_pick. rewrite Em, Ha, Hi. exact H1. }
    right. exists d, id, (Some (event_sender (ev_payload e))). split; [done|]. right. split_all; try done.
    intros a s _ ->. pose proof (chat_decides _ _ _ _ Hi Hk) as [-> | ->]; done.
Qed.

(** (C20) An outsider only talks. A message of a sender who is not in admin_ids changes nothing
    that decisions rest on, and binds no session but one it creates; every other chat keeps its pin, and its own chat too once it
    has one; a session is only created when the channel has an open door, for the
    door's agent and under the door's filter; and at most one row enters the inbox, the
    message's text as it is masked, for the session the chat is then pinned to. *)
Theorem outsider_only_talks e h :
  ev_type e = bs "message" -> channel_id_is_admin h (ev_channel e) (event_sender (ev_payload e)) = false ->
  let h' := snd (handle_event e h) in
  let chat := event_chat (ev_payload e) in
  let w := hb_world h in
  let w' := hb_world h' in
  undecided (ev_channel e) chat (bindable h None) w w' /\
  (forall p, p ∈ w_pins w -> is_route_of (ev_channel e) chat p = false \/ 0 < pin_id h (ev_channel e) chat -> p ∈ w_pins w') /\
  (t_sessions (w_store w') = t_sessions (w_store w) /\ w_pins w' = w_pins w /\ w_filters w' = w_filters w \/
   exists agent filter, pin_id h (ev_channel e) chat <= 0 /\ channel_default_agent h (ev_channel e) = (Some agent, filter) /\
     (ev_channel e, chat, hb_next_session h) ∈ w_pins w' /\
     w_filters w' = w_filters w ++ match filter with Some f => [(hb_next_session h, f)] | None => [] end /\
     map x_id (t_sessions (w_store w')) = map x_id (t_sessions (w_store w)) ++ [hb_next_session h]) /\
  (t_inbox (w_store w') = t_inbox (w_store w) \/
   exists sid, (0 < sid /\ sid = pin_id h (ev_channel e) chat \/ (ev_channel e, chat, sid) ∈ w_pins w') /\
     t_inbox (w_store w') = t_inbox (w_store w) ++
       [mk_in (t_next_inbox (w_store w)) sid (ev_channel e) None (mask_in (hb_secrets h) (inbox_text (ev_payload e))) false (t_now (w_store w))]).
Proof.
  intros Ht Hna. cbn. unfold handle_event. rewrite Ht. replace (streq (bs "message") (bs "approval_decision")) with false by reflexivity.
  replace (streq (bs "message") (bs "message")) with true by reflexivity.
  destruct (message_cases e h) as [(it & Ha & _)| ->]; [congruence|].
  split; [apply talk_spec|]. set (chat := event_chat (ev_payload e)). set (payload := ev_payload e).
  destruct (outsider_gate h (ev_channel e) chat (event_sender payload) payload Hna)
    as [[Hpos ->]|[[Hn Hw]|(Hp & agent & filter & h1 & Hd & Hc & ->)]].
  - destruct (deliver_spec e (pin_id h (ev_channel e) chat) h) as (_ & _ & H2 & H3 & H4 & _ & H5).
    rewrite H2, H3, H4. split; [by intros p|]. split; [by left|]. destruct H5 as [H5|H5]; [by left|]. right.
    exists (pin_id h (ev_channel e) chat). split; [by left|done].
  - destruct (gate_session _ _ _ _ _) as [[sid|] h1]; [done|]. cbn [snd fst] in *. rewrite Hw. split_all; [done|by left|by left].
  - pose proof (create_spec agent filter h) as Hs. rewrite Hc in Hs. destruct Hs as (_ & _ & Hsec & _ & Hses & Hf & Hpins & Hin & Hnx & Hnow & _).
    set (sid := hb_next_session h) in *. destruct (pin_spec (ev_channel e) chat sid (hb_world h1)) as (P1 & P2 & P3 & P4 & P5 & P6 & P7).
    set (h2 := h_world _ h1). destruct (deliver_spec e sid h2) as (_ & _ & H2 & H3 & H4 & _ & H5).
    rewrite H2, H3, H4. change (hb_secrets h2) with (hb_secrets h1) in H5. unfold h2 in *. cbn [hb_world h_world] in *.
    rewrite P3, P4, Hf, Hses. rewrite P5, P6, P7, Hin, Hnx, Hnow, Hsec in H5. split; [|split].
    + intros p Hpin [Hi|?]; [|lia]. apply P2; [by rewrite Hpins|done].
    + right. exists agent, filter. rewrite map_app. by split_all.
    + destruct H5 as [H5|H5]; [by left|]. right. exists sid. by split; [right|].
Qed.

(** ** The pass *)
Definition step_event (h : Hub) (e : EventRow) : Hub :=
  let (done, h) := handle_event e h in if done then delete_event (ev_id e) h else h.

Lemma next_event_skip cursor kept l :
  Forall (fun e => ev_id e <= cursor) kept -> next_event cursor (kept ++ l) = next_event cursor l.
Proof.
  unfold next_event. induction 1 as [|e kept He _ IH]; [done|]. cbn. destruct (cursor <? ev_id e) eqn:E; [lia|done].
Qed.

Lemma delete_from kept e l :
  Forall (fun k => ev_id k < ev_id e) kept -> Forall (fun k => ev_id e < ev_id k) l ->
  List.filter (fun k => negb (ev_id k =? ev_id e)) (kept ++ e :: l) = kept ++ l.
Proof.
  intros Hk Hl. assert (forall m, Forall (fun k => ev_id k <> ev_id e) m -> List.filter (fun k => negb (ev_id k =? ev_id e)) m = m) as Hid.
  { induction 1 as [|k m Hne _ IH]; [done|]. cbn. destruct (ev_id k =? ev_id e) eqn:E; [lia|]. cbn. by rewrite IH. }
  rewrite List.filter_app. cbn. rewrite Z.eqb_refl. cbn. rewrite !Hid; [done|..]; eapply Forall_impl; try done; cbn; lia.
Qed.

Definition in_order : EventRow -> EventRow -> Prop := fun a b => ev_id a < ev_id b.

Lemma consume_loop_fold todo : forall fuel cursor kept h,
  hb_events h = kept ++ todo -> Forall (fun e => ev_id e <= cursor) kept -> Forall (fun e => cursor < ev_id e) todo ->
  StronglySorted in_order todo -> (length todo <= fuel)%nat ->
  consume_loop fuel cursor h = Some (fold_left step_event todo h) /\
  exists left, hb_events (fold_left step_event todo h) = kept ++ left /\
    forall e, e ∈ left -> e ∈ todo /\ ev_type e = bs "message" /\ inbox_ok (ev_id e) = false.
Proof.
  induction todo as [|e todo IH]; intros fuel cursor kept h He Hk Ht Hs Hf.
  - cbn. rewrite app_nil_r in He. split; [|exists []; rewrite app_nil_r; split; [done|by intros e ?%not_elem_of_nil]].
    assert (next_event cursor (hb_events h) = None) as Hn by (rewrite He, <- (app_nil_r kept); by apply next_event_skip).
    destruct fuel; cbn; by rewrite Hn.
  - destruct fuel as [|fuel]; [cbn in Hf; lia|]. apply Forall_cons in Ht as [Hce Ht]. apply StronglySorted_inv in Hs as [Hs Hle].
    cbn [consume_loop]. rewrite He, next_event_skip by done. unfold next_event. cbn [List.find]. rewrite (proj2 (Z.ltb_lt _ _) Hce).
    destruct (event_spec e h) as [Hev Hstay]. cbn [fold_left]. unfold step_event at 2 4.
    destruct (handle_event e h) as [done h1]. cbn [fst snd] in *. cbn in Hf. destruct done.
    + destruct (IH fuel (ev_id e) kept (delete_event (ev_id e) h1)) as [H1 (left & H2 & H3)]; try done; [..|lia|].
      * cbn. rewrite Hev, He. apply delete_from; [|done]. eapply Forall_impl; [exact Hk|]. cbn. lia.
      * eapply Forall_impl; [exact Hk|]. cbn. lia.
      * split; [exact H1|]. exists left. split; [exact H2|]. intros k Hin. destruct (H3 k Hin) as [? ?]. by split; [right|].
    + destruct (IH fuel (ev_id e) (kept ++ [e]) h1) as [H1 (left & H2 & H3)]; try done; [..|lia|].
      * by rewrite Hev, He, <- app_assoc.
      * apply Forall_app. split; [eapply Forall_impl; [exact Hk|]; cbn; lia|]. apply Forall_singleton. lia.
      * split; [exact H1|]. exists (e :: left). split; [by rewrite H2, <- app_assoc|].
        intros k [->|Hin]%elem_of_cons; [split; [by left|by apply Hstay]|]. destruct (H3 k Hin) as [? ?]. by split; [right|].
Qed.

(** (C21) A pass ends, and it is one walk over the events in the order of their ids, each
    handled exactly once, although every step reads the table anew behind a cursor;
    what stays for the next pass are messages the inbox did not take. *)
Theorem consume_pass h :
  StronglySorted in_order (hb_events h) -> Forall (fun e => 0 < ev_id e) (hb_events h) ->
  exists h', channel_consume_events h = Some h' /\ h' = fold_left step_event (hb_events h) h /\
    forall e, e ∈ hb_events h' -> e ∈ hb_events h /\ ev_type e = bs "message" /\ inbox_ok (ev_id e) = false.
Proof.
  intros Hs Hp. destruct (consume_loop_fold (hb_events h) (length (hb_events h)) 0 [] h) as [H1 (left & H2 & H3)]; try done.
  eexists. split; [exact H1|]. split; [done|]. rewrite H2. exact H3.
Qed.
End Hub.

(** ** Concrete runs *)
Section Demo.
Definition msg (chat sender text : string) : Json :=
  JObj [(bs "chat_id", JNum (bs chat)); (bs "sender_id", JText (bs sender)); (bs "text", JText (bs text))].
Definition hub_docs : Json1 := demo_json
  [(bs "m1", msg "200" "9" "/approve 1"); (bs "m2", msg "100" "7" "/approve 1"); (bs "m3", msg "200" "7" "/new");
   (bs "m4", msg "200" "9" "hello"); (bs "F", JArr [])].

(** Session 1 waits in chat 100 for request 1; user 7 is an admin; the door is open to Ada, filtered. *)
Definition hub_world : World :=
  mk_world (mk_store 1000 [mk_xsession 1 (Some (bs "Ada")) AwaitingApproval 1 1 (-1) (Some (bs "tg")) (Some (bs "100")) (Some (bs "i1")) 0]
              [] 1 [] 1 [] [] 1 [] [] [(bs "tg", bs "100", bs "auto")] [] [] []
              [mk_approval 1 1 None (Some (bs "shell")) None None (bs "rerun") ApPending None 900 None])
    [mk_cfg (bs "telegram.admin_ids") (Some (bs "7")) None false] [] [] [] [] [(bs "tg", bs "100", 1)] [] [(bs "tg", bs "telegram")] None.
Definition hub_of (events : list EventRow) : Hub :=
  mk_hub hub_world [] [bs "Ada"] events [mk_door (bs "tg") (Some (bs "Ada")) (Some (bs "F"))] [] [] [] [] 2.
Definition hub_env : Process :=
  mk_process_env (bs "i1") true false false None None false (fun _ _ => None) (fun _ _ _ _ => mk_applied false None [] [] [] [] [] [] []).
Definition hub_event (id : Z) (doc : string) : EventRow := mk_event id (bs "tg") (bs "message") (bs doc).
Definition no_var (_ : cstring) : option cstring := None.
Abbreviation demo_handle := (@handle_event hub_docs plain no_var no_var hub_env (fun w _ => w) (mk_writes true true true) (fun _ => 0)
  (fun id => negb (id =? 3)) (fun _ => true) (fun _ => 0) (bs "?")).
Abbreviation demo_consume := (@channel_consume_events hub_docs plain no_var no_var hub_env (fun w _ => w) (mk_writes true true true) (fun _ => 0)
  (fun id => negb (id =? 3)) (fun _ => true) (fun _ => 0) (bs "?")).

(** The command of a stranger is chat; that of the admin decides the request, once. *)
Example stranger_and_admin :
  let h := snd (demo_handle (hub_event 2 "m2") (snd (demo_handle (hub_event 1 "m1") (hub_of [])))) in
  let t := w_store (hb_world h) in
  map q_payload (take 1 (t_inbox t)) = [bs "/approve 1"] /\ map a_state (t_approvals t) = [ApApproved] /\
  map a_via (t_approvals t) = [Some (bs "channel:tg:7")] /\ w_pins (hb_world h) = [(bs "tg", bs "100", 1); (bs "tg", bs "200", 2)].
Proof. vm_compute. repeat split. Qed.

Lemma outsider_only_talks_witness :
  let h' := snd (demo_handle (hub_event 1 "m1") (hub_of [])) in
  undecided (bs "tg") (bs "200") (bindable (hub_of []) None) (hb_world (hub_of [])) (hb_world h') /\ (bs "tg", bs "100", 1) ∈ w_pins (hb_world h').
Proof.
  destruct (@outsider_only_talks hub_docs plain no_var no_var hub_env (fun w _ => w) (mk_writes true true true) (fun _ => 0)
    (fun id => negb (id =? 3)) (fun _ => true) (fun _ => 0) (bs "?") (hub_event 1 "m1") (hub_of []) eq_refl ltac:(vm_compute; reflexivity))
    as (H1 & H2 & _).
  split; [exact H1|]. apply H2; [left|left; vm_compute; reflexivity].
Defined.

(** A message the inbox refuses stays; the others go. *)
Lemma consume_pass_witness :
  exists h', demo_consume (hub_of [hub_event 1 "m1"; hub_event 2 "m2"; hub_event 3 "m4"]) = Some h' /\
    hb_events h' = [hub_event 3 "m4"] /\ map a_state (t_approvals (w_store (hb_world h'))) = [ApApproved] /\
    forall e, e ∈ hb_events h' -> ev_type e = bs "message".
Proof.
  destruct (@consume_pass hub_docs plain no_var no_var hub_env (fun w _ => w) (mk_writes true true true) (fun _ => 0)
    (fun id => negb (id =? 3)) (fun _ => true) (fun _ => 0) (bs "?") (hub_of [hub_event 1 "m1"; hub_event 2 "m2"; hub_event 3 "m4"])
    ltac:(unfold in_order; repeat constructor; cbn; lia) ltac:(repeat constructor; cbn; lia)) as (h' & H1 & H2 & H3).
  exists h'. split; [exact H1|]. rewrite H2 at 1 2. split; [vm_compute; reflexivity|]. split; [vm_compute; reflexivity|].
  intros e He. by apply H3.
Defined.

(** The command /new in a chat the open door pinned gives it a session without the door's filter. *)
Example new_leaves_the_filter :
  let h := snd (demo_handle (hub_event 4 "m3") (snd (demo_handle (hub_event 1 "m1") (hub_of [])))) in
  w_filters (hb_world h) = [(2, bs "F")] /\ map x_id (t_sessions (w_store (hb_world h))) = [1; 2; 3] /\
  w_pins (hb_world h) = [(bs "tg", bs "100", 1); (bs "tg", bs "200", 3)].
Proof. vm_compute. repeat split. Qed.
End Demo.
