(* ===== verification/Outbox.v ===== *)
(** * The outbox of a channel: src/channel_api.c and the sends of src/channel_runner.c

    The rows of channel_outbox that the runner of a channel delivers, with its queue of
    requests and the one in flight: dispatch to the handler, completion, retry, the fall to
    plain text, failure with its notice, and the recovery after a crash.  The handler is
    the channel's script; [run_step] says what it may do with a row it was handed. *)
From Stdlib Require Import QArith.
From stdpp Require Import relations.
From S2P Require Import Prelude CString Libc HostMatch Json1 ChannelEvents.
#[local] Open Scope Z_scope.

(** ** State *)
Inductive OutStatus := OPending | OSending | ODelivered | OFailed (text : cstring).

Record OutRow := mk_orow {
  ro_id : Z; ro_channel : cstring; ro_session : Z; ro_payload : cstring; ro_status : OutStatus;
  ro_attempts : Z; ro_next : Z; ro_mode : Z; ro_acked : option Z; ro_created : Z
}.

(** A request of the queue; [sd_outbox] is 0 for one that belongs to no row. *)
Record Send := mk_send { sd_outbox : Z; sd_final : bool; sd_url : cstring; sd_body : cstring }.

(** [se_notices]: the notices that entered the inbox, with their session and the row they are about. *)
Record Sender := mk_sender {
  se_now : Z; se_rows : list OutRow; se_next_id : Z; se_queue : list Send; se_active : option Send;
  se_notices : list (Z * Z * cstring)
}.

Definition e_rows (r : list OutRow) (s : Sender) : Sender := mk_sender (se_now s) r (se_next_id s) (se_queue s) (se_active s) (se_notices s).
Definition e_queue (q : list Send) (s : Sender) : Sender := mk_sender (se_now s) (se_rows s) (se_next_id s) q (se_active s) (se_notices s).
Definition e_active (a : option Send) (s : Sender) : Sender := mk_sender (se_now s) (se_rows s) (se_next_id s) (se_queue s) a (se_notices s).
Definition e_notices (n : list (Z * Z * cstring)) (s : Sender) : Sender := mk_sender (se_now s) (se_rows s) (se_next_id s) (se_queue s) (se_active s) n.

Definition MAX_OUTBOX_ATTEMPTS : Z := 5.
Definition CR_RETRY_AFTER_MAX : Z := 3600.

Definition o_status (st : OutStatus) (r : OutRow) : OutRow :=
  mk_orow (ro_id r) (ro_channel r) (ro_session r) (ro_payload r) st (ro_attempts r) (ro_next r) (ro_mode r) (ro_acked r) (ro_created r).

(** [retry_after] of a body, [None] when there is none, in whole seconds. *)
Definition outbox_retry_after (ra : option Q) : Z :=
  match ra with
  | Some q =>
      if Qle_bool q 0 then 0
      else
        let secs := Z.quot (Qnum q) (Zpos (Qden q)) in
        let secs := if Z.rem (Qnum q) (Zpos (Qden q)) >? 0 then secs + 1 else secs in
        if secs >? CR_RETRY_AFTER_MAX then CR_RETRY_AFTER_MAX else secs
  | None => 0
  end.

Section Outbox.
Context {J : Json1} (channel : cstring).

(** [url_host]: the host curl's parser finds in a url; [known]: the sessions. *)
Context (url_host : cstring -> option cstring) (known : list Z).

(** [base_url], [egress_hosts]: the configuration of the channel, read at each request. *)
Definition url_host_allowed (base_url egress_hosts : option cstring) (url : cstring) : bool :=
  match url_host url with
  | Some host =>
      let base := match base_url with Some ((_ :: _) as b) => match url_host b with Some h => [h] | None => [] end | _ => [] end in
      host_match (Some (map Some (base ++ split_and_trim egress_hosts (24 - length base)))) (Some host)
  | None => false
  end.

(** ** The rows: src/channel_api.c *)
Definition is_row (id : Z) (r : OutRow) : bool := (ro_id r =? id) && streq (ro_channel r) channel.

Definition set_row (id : Z) (p : OutRow -> bool) (f : OutRow -> OutRow) (s : Sender) : Sender :=
  e_rows (map (fun r => if is_row id r && p r then f r else r) (se_rows s)) s.

Definition is_pending_row (r : OutRow) : bool := match ro_status r with OPending => true | _ => false end.
Definition is_sending_row (r : OutRow) : bool := match ro_status r with OSending => true | _ => false end.
Definition is_failed_row (r : OutRow) : bool := match ro_status r with OFailed _ => true | _ => false end.

(** Rows are in the order of their ids. *)
Definition channel_next_outbox (s : Sender) : option OutRow :=
  List.find (fun r => streq (ro_channel r) channel && is_pending_row r && (ro_next r <=? se_now s)) (se_rows s).

Definition channel_dispatch_outbox (id : Z) : Sender -> Sender := set_row id is_pending_row (o_status OSending).

Definition channel_reset_outbox (s : Sender) : Sender :=
  e_rows (map (fun r => if streq (ro_channel r) channel && is_sending_row r then o_status OPending r else r) (se_rows s)) s.

Definition acked (now : Z) (r : OutRow) : OutRow :=
  mk_orow (ro_id r) (ro_channel r) (ro_session r) (ro_payload r) ODelivered (ro_attempts r) (ro_next r) (ro_mode r) (Some now) (ro_created r).

Definition channel_ack_outbox (id : Z) (s : Sender) : Sender := set_row id (fun _ => true) (acked (se_now s)) s.

Definition failure_notice (r : OutRow) (status : cstring) : cstring :=
  snprintf 512 (bs "channel_send to (" ++ channel ++ bs ", " ++ default (bs "unknown") (extract (ro_payload r) (bs "chat_id")) ++
                bs ") failed permanently: outbox id " ++ print_int (ro_id r) ++ bs ", " ++ status).

Definition notified (r : OutRow) : bool := (0 <? ro_session r) && bool_decide (ro_session r ∈ known).

Definition notify_send_failure (id : Z) (status : cstring) (s : Sender) : Sender :=
  match List.find (is_row id) (se_rows s) with
  | Some r => if notified r then e_notices (se_notices s ++ [(ro_session r, id, failure_notice r status)]) s else s
  | None => s
  end.

(** The flip of the status is the guard: a row that has failed does not fail again. *)
Definition channel_fail_outbox (id : Z) (error : cstring) (s : Sender) : Sender :=
  let status := snprintf 256 (bs "failed: " ++ error) in
  let flips := existsb (fun r => is_row id r && negb (is_failed_row r)) (se_rows s) in
  let s := set_row id (fun r => negb (is_failed_row r)) (o_status (OFailed status)) s in
  if flips then notify_send_failure id status s else s.

Definition retried (next : Z) (r : OutRow) : OutRow :=
  mk_orow (ro_id r) (ro_channel r) (ro_session r) (ro_payload r) OPending (ro_attempts r + 1) next (ro_mode r) (ro_acked r) (ro_created r).

Definition channel_retry_outbox (id delay : Z) (s : Sender) : Sender := set_row id (fun _ => true) (retried (se_now s + delay)) s.

Definition degraded (mode : Z) (r : OutRow) : OutRow :=
  mk_orow (ro_id r) (ro_channel r) (ro_session r) (ro_payload r) OPending (ro_attempts r) 0 mode (ro_acked r) (ro_created r).

Definition channel_retry_outbox_mode (id mode : Z) : Sender -> Sender := set_row id (fun _ => true) (degraded mode).

Definition channel_outbox_attempts (id : Z) (s : Sender) : Z :=
  match List.find (is_row id) (se_rows s) with Some r => ro_attempts r | None => 0 end.
Definition channel_outbox_mode (id : Z) (s : Sender) : Z :=
  match List.find (is_row id) (se_rows s) with Some r => ro_mode r | None => 0 end.

(** ** The requests: src/channel_runner.c *)
Definition send_queue_push (x : Send) (s : Sender) : Sender := e_queue (se_queue s ++ [x]) s.

Definition send_queue_drop_outbox (id : Z) (s : Sender) : Sender :=
  e_queue (List.filter (fun x => negb (sd_outbox x =? id)) (se_queue s)) s.

(** Whether [make_easy] gives a handle; [easy]: whether [curl_easy_init] did. *)
Definition make_easy (easy : bool) (base_url egress_hosts : option cstring) (url : cstring) : bool :=
  easy && url_host_allowed base_url egress_hosts url.

Definition send_start_next (easy : bool) (base_url egress_hosts : option cstring) (s : Sender) : Sender :=
  match se_active s, se_queue s with
  | None, x :: q =>
      let s := e_queue q s in
      if make_easy easy base_url egress_hosts (sd_url x) then e_active (Some x) s
      else if sd_outbox x >? 0 then channel_fail_outbox (sd_outbox x) (bs "curl init failed") s else s
  | _, _ => s
  end.

(** How a transfer ended: curl's error, or a status with its body and the hint in it. *)
Record Completion := mk_completion { cp_error : option cstring; cp_status : Z; cp_body : option cstring; cp_retry : option Q }.

Definition cp_ok (c : Completion) : bool :=
  match cp_error c with Some _ => false | None => (200 <=? cp_status c) && (cp_status c <? 300) end.

Definition cp_transient (c : Completion) : bool :=
  match cp_error c with Some _ => true | None => (cp_status c =? 429) || (500 <=? cp_status c) && (cp_status c <? 600) end.

Definition retry_delay (c : Completion) (attempts : Z) : Z :=
  let hint := if bool_decide (cp_error c = None) && (cp_status c =? 429) then outbox_retry_after (cp_retry c) else 0 in
  if hint <=? 0 then Z.min 60 (Z.shiftl 1 attempts) else hint.

Definition failure_text (c : Completion) : cstring :=
  snprintf 256 match cp_error c with Some e => e | None => default (bs "http error") (cp_body c) end.

Definition send_failed (c : Completion) (id : Z) (s : Sender) : Sender :=
  let attempts := channel_outbox_attempts id s in
  let s := send_queue_drop_outbox id s in
  if negb (cp_transient c) && (channel_outbox_mode id s =? 0) then channel_retry_outbox_mode id 1 s
  else if cp_transient c && (attempts <? MAX_OUTBOX_ATTEMPTS) then channel_retry_outbox id (retry_delay c attempts) s
  else channel_fail_outbox id (failure_text c) s.

Definition send_done (c : Completion) (s : Sender) : Sender :=
  match se_active s with
  | Some x =>
      let s := if sd_outbox x >? 0 then
                 if negb (cp_ok c) then send_failed c (sd_outbox x) s
                 else if sd_final x then channel_ack_outbox (sd_outbox x) s else s
               else s in
      e_active None s
  | None => s
  end.

(** The row the next turn of [drain_outbox] hands to the handler. *)
Definition drain_next (s : Sender) : option (OutRow * Sender) :=
  match channel_next_outbox s with Some r => Some (r, channel_dispatch_outbox (ro_id r) s) | None => None end.

(** A runner that starts: nothing queued, the rows of a crashed one pending again. *)
Definition runner_start (s : Sender) : Sender := channel_reset_outbox (e_active None (e_queue [] s)).

Definition outbox_insert (chan : cstring) (sid : Z) (payload : cstring) (s : Sender) : Sender :=
  mk_sender (se_now s) (se_rows s ++ [mk_orow (se_next_id s) chan sid payload OPending 0 0 0 None (se_now s)]) (se_next_id s + 1)
    (se_queue s) (se_active s) (se_notices s).

Definition db_prune_outbox (retention : Z) (s : Sender) : Sender :=
  if retention <=? 0 then s
  else e_rows (List.filter (fun r => negb (match ro_status r with ODelivered | OFailed _ => true | _ => false end &&
                 (default (ro_created r) (ro_acked r) <? se_now s - retention))) (se_rows s)) s.

(** ** A channel's runs

    The handler is handed a row and then owns it until it queues one batch of requests for
    it, the last marked final and no other, or acks or fails it; this is what the shipped
    handlers do, at once or after a request of their own.  [r_batch], [r_ok], [r_resched]
    and [r_stranded] record, for each row, the batch of its last dispatch, the requests of
    it the server accepted, how often a failed request put the row back, and whether a
    request that could not be started ever left others of the row queued. *)
Record Run := mk_run {
  r_sender : Sender; r_own : list Z; r_batch : Z -> list Send; r_ok : Z -> list Send; r_resched : Z -> Z; r_stranded : Z -> bool
}.

Definition upd {A} (f : Z -> A) (k : Z) (v : A) : Z -> A := fun x => if x =? k then v else f x.
Definition disown (id : Z) (l : list Z) : list Z := List.filter (fun x => negb (x =? id)) l.
Definition of_row (id : Z) (l : list Send) : list Send := List.filter (fun x => sd_outbox x =? id) l.

Definition batch_of (id : Z) (b : list Send) : Prop :=
  exists l x, b = l ++ [x] /\ sd_final x = true /\
    Forall (fun y => sd_final y = false /\ sd_outbox y = id) l /\ sd_outbox x = id.

(** What a completion records of the row of its request. *)
Definition record_done (c : Completion) (x : Send) (m : Run) : Run :=
  let s := send_done c (r_sender m) in
  let id := sd_outbox x in
  if id <=? 0 then mk_run s (r_own m) (r_batch m) (r_ok m) (r_resched m) (r_stranded m)
  else if cp_ok c then mk_run s (r_own m) (r_batch m) (upd (r_ok m) id (r_ok m id ++ [x])) (r_resched m) (r_stranded m)
  else
    let back := negb (cp_transient c) && (channel_outbox_mode id (r_sender m) =? 0) ||
                cp_transient c && (channel_outbox_attempts id (r_sender m) <? MAX_OUTBOX_ATTEMPTS) in
    mk_run s (r_own m) (r_batch m) (r_ok m) (if back then upd (r_resched m) id (r_resched m id + 1) else r_resched m) (r_stranded m).

(** What a start records: the row of a refused request whose other requests stay queued. *)
Definition strands (passes : cstring -> bool) (s : Sender) (id : Z) : bool :=
  match se_active s, se_queue s with
  | None, x :: q => negb (passes (sd_url x)) && (sd_outbox x =? id) && negb (match of_row id q with [] => true | _ => false end)
  | _, _ => false
  end.

Inductive run_step (m : Run) : Run -> Prop :=
| rs_insert chan sid payload :
    run_step m (mk_run (outbox_insert chan sid payload (r_sender m)) (r_own m) (r_batch m) (r_ok m) (r_resched m) (r_stranded m))
| rs_time now : se_now (r_sender m) <= now ->
    run_step m (mk_run (mk_sender now (se_rows (r_sender m)) (se_next_id (r_sender m)) (se_queue (r_sender m)) (se_active (r_sender m)) (se_notices (r_sender m)))
                  (r_own m) (r_batch m) (r_ok m) (r_resched m) (r_stranded m))
| rs_dispatch r s : drain_next (r_sender m) = Some (r, s) ->
    run_step m (mk_run s (ro_id r :: r_own m) (upd (r_batch m) (ro_id r) []) (upd (r_ok m) (ro_id r) []) (r_resched m) (r_stranded m))
| rs_misfit r s error : drain_next (r_sender m) = Some (r, s) ->
    run_step m (mk_run (channel_fail_outbox (ro_id r) error s) (r_own m) (upd (r_batch m) (ro_id r) []) (upd (r_ok m) (ro_id r) []) (r_resched m) (r_stranded m))
| rs_batch id b : (id ∈ r_own m) -> batch_of id b ->
    run_step m (mk_run (fold_left (fun s x => send_queue_push x s) b (r_sender m)) (disown id (r_own m)) (upd (r_batch m) id b) (r_ok m) (r_resched m) (r_stranded m))
| rs_ack id : (id ∈ r_own m) ->
    run_step m (mk_run (channel_ack_outbox id (r_sender m)) (disown id (r_own m)) (r_batch m) (r_ok m) (r_resched m) (r_stranded m))
| rs_fail id error : (id ∈ r_own m) ->
    run_step m (mk_run (channel_fail_outbox id error (r_sender m)) (disown id (r_own m)) (r_batch m) (r_ok m) (r_resched m) (r_stranded m))
| rs_other x : sd_outbox x <= 0 ->
    run_step m (mk_run (send_queue_push x (r_sender m)) (r_own m) (r_batch m) (r_ok m) (r_resched m) (r_stranded m))
| rs_start easy base_url egress_hosts :
    run_step m (mk_run (send_start_next easy base_url egress_hosts (r_sender m)) (r_own m) (r_batch m) (r_ok m) (r_resched m)
                  (fun id => r_stranded m id || strands (make_easy easy base_url egress_hosts) (r_sender m) id))
| rs_done c x : se_active (r_sender m) = Some x -> run_step m (record_done c x m)
| rs_restart : run_step m (mk_run (runner_start (r_sender m)) [] (r_batch m) (r_ok m) (r_resched m) (r_stranded m))
| rs_prune retention :
    run_step m (mk_run (db_prune_outbox retention (r_sender m)) (r_own m) (r_batch m) (r_ok m) (r_resched m) (r_stranded m)).

Definition no_run (now : Z) : Run :=
  mk_run (mk_sender now [] 1 [] None []) [] (fun _ => []) (fun _ => []) (fun _ => 0) (fun _ => false).

(** ** The invariant *)

(** The requests of a row, in the order they will be made. *)
Definition in_flight (s : Sender) : list Send := match se_active s with Some x => x :: se_queue s | None => se_queue s end.
Definition requests (id : Z) (s : Sender) : list Send := of_row id (in_flight s).
Definition notices_of (id : Z) (s : Sender) : list (Z * Z * cstring) := List.filter (fun n => snd (fst n) =? id) (se_notices s).

(** What a row's state is judged by. *)
Record View := mk_view {
  v_requests : list Send; v_owned : bool; v_notices : list (Z * Z * cstring); v_batch : list Send; v_ok : list Send; v_resched : Z;
  v_stranded : bool
}.

Definition view (m : Run) (id : Z) : View :=
  mk_view (requests id (r_sender m)) (bool_decide (id ∈ r_own m)) (notices_of id (r_sender m)) (r_batch m id) (r_ok m id) (r_resched m id) (r_stranded m id).

Definition settled (v : View) (r : OutRow) : Prop :=
  match ro_status r with
  | OPending => v_requests v = [] /\ v_owned v = false /\ v_notices v = []
  | OSending => v_notices v = [] /\
      (v_owned v = true /\ v_requests v = [] /\ v_ok v = [] /\ v_batch v = [] \/
       v_owned v = false /\ v_requests v <> [] /\ batch_of (ro_id r) (v_batch v) /\ v_batch v = v_ok v ++ v_requests v)
  | ODelivered => v_requests v = [] /\ v_owned v = false /\ v_notices v = [] /\ v_batch v = v_ok v /\
      (v_batch v = [] \/ batch_of (ro_id r) (v_batch v))
  | OFailed _ => v_owned v = false /\ v_requests v = [] /\ length (v_notices v) = (if notified r then 1 else 0)%nat
  end.

Definition row_ok (v : View) (r : OutRow) : Prop :=
  (v_stranded v = true \/ settled v r) /\
  ro_attempts r + ro_mode r = v_resched v /\ 0 <= ro_attempts r <= MAX_OUTBOX_ATTEMPTS /\ 0 <= ro_mode r <= 1.

Record run_ok (m : Run) : Prop := mk_run_ok {
  ro_ids : NoDup (map ro_id (se_rows (r_sender m)));
  ro_rows : forall r, r ∈ se_rows (r_sender m) -> ro_channel r = channel -> row_ok (view m (ro_id r)) r;
  ro_below : forall r, r ∈ se_rows (r_sender m) -> 0 < ro_id r < se_next_id (r_sender m);
  ro_sends : forall x, x ∈ in_flight (r_sender m) -> sd_outbox x < se_next_id (r_sender m);
  ro_told : forall n, n ∈ se_notices (r_sender m) -> snd (fst n) < se_next_id (r_sender m);
  ro_owned : forall id, id ∈ r_own m -> 0 < id < se_next_id (r_sender m) /\
     (r_stranded m id = true \/
      exists r, r ∈ se_rows (r_sender m) /\ ro_id r = id /\ ro_channel r = channel /\ ro_status r = OSending);
  ro_fresh : forall id, se_next_id (r_sender m) <= id -> r_resched m id = 0;
  ro_some : 0 < se_next_id (r_sender m)
}.

(** ** One row at a time *)
Definition keeps_key (g : OutRow -> OutRow) : Prop := forall r, ro_id (g r) = ro_id r /\ ro_channel (g r) = ro_channel r.

(** A step that changes one row, and the views of no other. *)
Lemma run_ok_change m m' id g :
  run_ok m -> se_next_id (r_sender m') = se_next_id (r_sender m) ->
  se_rows (r_sender m') = map g (se_rows (r_sender m)) -> keeps_key g ->
  (forall r, ro_id r <> id -> g r = r) -> (forall k, k <> id -> 0 < k -> view m' k = view m k) ->
  (forall r, r ∈ se_rows (r_sender m) -> ro_id r = id -> ro_channel r = channel -> row_ok (view m id) r -> row_ok (view m' id) (g r)) ->
  (forall x, x ∈ in_flight (r_sender m') -> x ∈ in_flight (r_sender m) \/ sd_outbox x < se_next_id (r_sender m)) ->
  (forall n, n ∈ se_notices (r_sender m') -> n ∈ se_notices (r_sender m) \/ snd (fst n) < se_next_id (r_sender m)) ->
  (forall k, k ∈ r_own m' -> k ∈ r_own m /\ k <> id \/ 0 < k < se_next_id (r_sender m) /\ r_stranded m' k = true \/
     exists r, r ∈ se_rows (r_sender m) /\ ro_id r = k /\ ro_channel r = channel /\ ro_status (g r) = OSending) ->
  (forall k, se_next_id (r_sender m) <= k -> r_resched m' k = r_resched m k) ->
  run_ok m'.
Proof.
  intros [H1 H2 H3 H4 H5 H6 H8 H9] En Er Hg Hoth Hv Hone Hs Hn Ho Hf.
  assert (Hin : forall r', r' ∈ se_rows (r_sender m') -> exists r, r ∈ se_rows (r_sender m) /\ r' = g r).
  { intros r' Hr. rewrite Er in Hr. apply list_elem_of_In, in_map_iff in Hr as (r & <- & Hr). exists r. by rewrite list_elem_of_In. }
  assert (Hback : forall r, r ∈ se_rows (r_sender m) -> g r ∈ se_rows (r_sender m')).
  { intros r Hr. rewrite Er. apply list_elem_of_In, in_map. by apply list_elem_of_In. }
  split; rewrite ?En.
  - rewrite Er, map_map. erewrite map_ext; [exact H1|]. intros r. apply Hg.
  - intros r' (r & Hr & ->)%Hin Hc. destruct (Hg r) as [Hid Hch]. rewrite Hid. rewrite Hch in Hc.
    destruct (decide (ro_id r = id)) as [He|He].
    + rewrite He. apply Hone; [done|done|done|]. rewrite <- He. by apply H2.
    + rewrite Hoth by done. rewrite Hv by (done || by apply H3). by apply H2.
  - intros r' (r & Hr & ->)%Hin. destruct (Hg r) as [-> _]. by apply H3.
  - intros x [Hx|Hx]%Hs; [by apply H4|done].
  - intros n [Hx|Hx]%Hn; [by apply H5|done].
  - intros k [[Hk Hne]|[?|(r & Hr & <- & Hc & Hst)]]%Ho; [|tauto|].
    + destruct (H6 k Hk) as (Hb & [Hst|(r & Hr & Hid & Hc & Hst)]); (split; [done|]).
      * left. pose proof (f_equal v_stranded (Hv k Hne (proj1 Hb))) as E. cbn in E. by rewrite E.
      * right. exists (g r). split; [by apply Hback|]. rewrite Hoth by congruence. done.
    + split; [by apply H3|]. right. exists (g r). destruct (Hg r) as [-> ->]. split; [by apply Hback|done].
  - intros k Hk. rewrite Hf by done. by apply H8.
  - done.
Qed.

Definition chg (id : Z) (p : OutRow -> bool) (f : OutRow -> OutRow) (r : OutRow) : OutRow := if is_row id r && p r then f r else r.

Lemma chg_keeps id p f : keeps_key f -> keeps_key (chg id p f).
Proof. intros Hf r. unfold chg. destruct (_ && _); [apply Hf|done]. Qed.

Lemma chg_other id p f r : ro_id r <> id -> chg id p f r = r.
Proof. intros H. unfold chg, is_row. destruct (ro_id r =? id) eqn:E; [lia|done]. Qed.

Lemma is_row_true id r : is_row id r = true <-> ro_id r = id /\ ro_channel r = channel.
Proof. unfold is_row. rewrite andb_true_iff, Z.eqb_eq. unfold streq. by rewrite bool_decide_eq_true. Qed.

Lemma chg_mine id p f r : ro_id r = id -> ro_channel r = channel -> chg id p f r = if p r then f r else r.
Proof. intros H1 H2. unfold chg. by rewrite (proj2 (is_row_true id r)). Qed.

Lemma find_row id rows r :
  NoDup (map ro_id rows) -> r ∈ rows -> ro_id r = id -> ro_channel r = channel -> List.find (is_row id) rows = Some r.
Proof.
  intros Hnd Hr Hid Hc. destruct (List.find (is_row id) rows) as [r'|] eqn:E.
  - apply find_some in E as [Hr' [Hid' _]%is_row_true]. f_equal. apply (NoDup_map_inj ro_id rows); try done; [by apply list_elem_of_In|congruence].
  - apply list_elem_of_In in Hr. eapply find_none in E; [|exact Hr]. by rewrite (proj2 (is_row_true id r)) in E.
Qed.

Lemma filter_other_key {A} (f : A -> Z) l x k : f x <> k -> List.filter (fun y => f y =? k) (l ++ [x]) = List.filter (fun y => f y =? k) l.
Proof. intros H. rewrite List.filter_app. cbn. destruct (f x =? k) eqn:E; [lia|]. apply app_nil_r. Qed.

(** Failing a row: the flip, and the notice when it flips. *)
Lemma fail_notices id error s k : k <> id -> notices_of k (channel_fail_outbox id error s) = notices_of k s.
Proof.
  intros Hk. unfold channel_fail_outbox. destruct (existsb _ _); [|done]. unfold notify_send_failure.
  destruct (List.find _ _) as [r|]; [|done]. destruct (notified r); [|done]. unfold notices_of. cbn [se_notices e_notices].
  by rewrite (filter_other_key (fun n => snd (fst n))) by (cbn; congruence).
Qed.

Lemma fail_told id error s n : n ∈ se_notices (channel_fail_outbox id error s) -> n ∈ se_notices s \/ snd (fst n) = id.
Proof.
  unfold channel_fail_outbox. destruct (existsb _ _); [|by left]. unfold notify_send_failure.
  destruct (List.find _ _) as [r|]; [|by left]. destruct (notified r); [|by left]. cbn.
  intros [?| ->%list_elem_of_singleton]%elem_of_app; [by left|by right].
Qed.

Lemma fail_rest id error s :
  let s' := channel_fail_outbox id error s in
  se_rows s' = map (chg id (fun r => negb (is_failed_row r)) (o_status (OFailed (snprintf 256 (bs "failed: " ++ error))))) (se_rows s) /\
  se_queue s' = se_queue s /\ se_active s' = se_active s /\ se_next_id s' = se_next_id s.
Proof.
  cbn. unfold channel_fail_outbox. destruct (existsb _ _); [|done]. unfold notify_send_failure.
  destruct (List.find _ _) as [r|]; [|done]. by destruct (notified r).
Qed.

Lemma fail_count id error s r :
  NoDup (map ro_id (se_rows s)) -> r ∈ se_rows s -> ro_id r = id -> ro_channel r = channel ->
  length (notices_of id (channel_fail_outbox id error s)) =
    (length (notices_of id s) + if is_failed_row r then 0 else if notified r then 1 else 0)%nat.
Proof.
  intros Hnd Hr Hid Hc. unfold channel_fail_outbox. set (st := OFailed _).
  destruct (is_failed_row r) eqn:Ef.
  - replace (existsb _ _) with false; [rewrite Nat.add_0_r; done|]. symmetry. apply not_true_iff_false. intros (r' & Hr' & Hb)%existsb_exists.
    apply andb_true_iff in Hb as [[Hid' _]%is_row_true Hf]. assert (r' = r) as ->; [|by rewrite Ef in Hf].
    apply (NoDup_map_inj ro_id (se_rows s)); try done; [by apply list_elem_of_In|congruence].
  - replace (existsb _ _) with true.
    + unfold notify_send_failure. cbn [se_rows set_row e_rows].
      rewrite (find_row id _ (chg id (fun r => negb (is_failed_row r)) (o_status st) r)).
      * rewrite chg_mine by done. rewrite Ef. cbn [negb]. change (notified (o_status st r)) with (notified r).
        destruct (notified r); [|by rewrite Nat.add_0_r]. unfold notices_of. cbn. rewrite List.filter_app. cbn. rewrite Z.eqb_refl, length_app. done.
      * rewrite map_map. erewrite map_ext; [exact Hnd|]. intros r'. unfold chg. by destruct (_ && _).
      * apply list_elem_of_In, in_map. by apply list_elem_of_In.
      * rewrite chg_mine by done. by rewrite Ef.
      * rewrite chg_mine by done. by rewrite Ef.
    + symmetry. apply existsb_exists. exists r. split; [by apply list_elem_of_In|]. rewrite (proj2 (is_row_true id r)) by done. by rewrite Ef.
Qed.

Lemma batch_row id b x : batch_of id b -> x ∈ b -> sd_outbox x = id.
Proof.
  intros (l & z & -> & _ & Hl & Hz) [Hk| ->%list_elem_of_singleton]%elem_of_app; [|done]. rewrite Forall_forall in Hl. by apply Hl.
Qed.

(** The final request is the last of its batch, and no other. *)
Lemma batch_final id ok x rest : batch_of id (ok ++ x :: rest) -> sd_final x = true <-> rest = [].
Proof.
  intros (l & z & He & Hz & Hl & _). destruct (rest) as [|y rest'] eqn:E.
  - apply app_inj_tail in He as [_ ->]. done.
  - split; [|done]. intros Hx. exfalso. destruct (exists_last (l := y :: rest') ltac:(done)) as (r0 & w & Er). rewrite Er in He.
    rewrite app_comm_cons, app_assoc in He. apply app_inj_tail in He as [He _]. subst l. rewrite Forall_forall in Hl.
    destruct (Hl x) as [Hf _]; [apply elem_of_app; right; by left|]. congruence.
Qed.

(** ** The steps *)
Lemma elem_of_disown k id l : k ∈ disown id l <-> k ∈ l /\ k <> id.
Proof. unfold disown. rewrite elem_of_filter_bool, negb_true_iff, Z.eqb_neq. done. Qed.

Lemma disown_idle id l : id ∉ l -> disown id l = l.
Proof.
  intros H. unfold disown. induction l as [|x l IH]; [done|]. cbn. apply not_elem_of_cons in H as [H1 H2].
  destruct (x =? id) eqn:E; [lia|]. cbn. by rewrite IH.
Qed.

Lemma owned_row m id : run_ok m -> id ∈ r_own m ->
  id < se_next_id (r_sender m) /\ 0 < id /\
  (r_stranded m id = true \/
   requests id (r_sender m) = [] /\ r_ok m id = [] /\ r_batch m id = [] /\ notices_of id (r_sender m) = [] /\
   forall r, r ∈ se_rows (r_sender m) -> ro_id r = id -> ro_status r = OSending).
Proof.
  intros Hm Hid. destruct (ro_owned _ Hm id Hid) as (Hb & Hor). split; [lia|]. split; [lia|].
  destruct (r_stranded m id) eqn:Es; [by left|right]. destruct Hor as [?|(r & Hr & Hi & Hc & Hs)]; [done|].
  pose proof (ro_rows _ Hm r Hr Hc) as [[Hst|Hv] _]; rewrite Hi in *; [cbn in Hst; congruence|].
  unfold settled in Hv. rewrite Hs in Hv. cbn in Hv. destruct Hv as [Hn [(_ & H1 & H2 & H3)|(H1 & _)]]; [|by apply bool_decide_eq_false in H1].
  split_all; try done. intros r' Hr' Hi'.
  assert (r' = r) as ->; [|done]. apply (NoDup_map_inj ro_id _ _ _ (ro_ids _ Hm)); try done. congruence.
Qed.

(** What a step on one row does to the rows the handler holds, and to the flags. *)
Record step_on (m : Run) (id : Z) (own' : list Z) (st' : Z -> bool) : Prop := {
  so_own : forall k, k <> id -> (k ∈ own' <-> k ∈ r_own m);
  so_mine : id ∈ own' -> id ∈ r_own m /\ st' id = true;
  so_flag : forall k, k <> id -> st' k = r_stranded m k;
  so_sticky : r_stranded m id = true -> st' id = true
}.

Lemma step_disown m id : step_on m id (disown id (r_own m)) (r_stranded m).
Proof. split; [intros k Hk|..]; rewrite ?elem_of_disown; intuition. Qed.

Lemma step_keep m id : (r_stranded m id = true \/ id ∉ r_own m) -> step_on m id (r_own m) (r_stranded m).
Proof. intros H. split; [done| |done|done]. intros Hid. by destruct H. Qed.

Lemma step_view m id own' st' k : step_on m id own' st' -> k <> id ->
  bool_decide (k ∈ own') = bool_decide (k ∈ r_own m) /\ st' k = r_stranded m k.
Proof. intros H Hk. split; [apply bool_decide_ext, (so_own _ _ _ _ H k Hk)|by apply (so_flag _ _ _ _ H)]. Qed.

Lemma step_owns m id own' st' k : run_ok m -> step_on m id own' st' -> k ∈ own' ->
  k ∈ r_own m /\ k <> id \/ 0 < k < se_next_id (r_sender m) /\ st' k = true.
Proof.
  intros Hm H Hk. destruct (decide (k = id)) as [->|Hne]; [right|left].
  - destruct (so_mine _ _ _ _ H Hk) as [Ho Hs]. split; [|done]. by apply (ro_owned _ Hm).
  - split; [by apply (so_own _ _ _ _ H)|done].
Qed.

(** A handler that gives up, a row that does not fit, a request that is refused or fails for good. *)
Lemma fail_ok m s id error own' st' :
  run_ok m -> id < se_next_id (r_sender m) -> step_on m id own' st' ->
  se_rows s = se_rows (r_sender m) -> se_next_id s = se_next_id (r_sender m) -> se_notices s = se_notices (r_sender m) ->
  (forall k, k <> id -> 0 < k -> requests k s = requests k (r_sender m)) ->
  (forall x, x ∈ in_flight s -> x ∈ in_flight (r_sender m)) ->
  (forall r, r ∈ se_rows (r_sender m) -> ro_id r = id -> ro_channel r = channel -> st' id = false ->
     requests id s = [] /\ (is_failed_row r = true \/ notices_of id (r_sender m) = [])) ->
  run_ok (mk_run (channel_fail_outbox id error s) own' (r_batch m) (r_ok m) (r_resched m) st').
Proof.
  intros Hm Hid Hso Er En Et Hq Hf Hrow. destruct (fail_rest id error s) as (F1 & F2 & F3 & F4).
  assert (Hfl : in_flight (channel_fail_outbox id error s) = in_flight s) by (unfold in_flight; by rewrite F2, F3).
  apply (run_ok_change m _ id (chg id (fun r => negb (is_failed_row r)) (o_status (OFailed (snprintf 256 (bs "failed: " ++ error))))) Hm);
    cbn [r_sender r_own r_batch r_ok r_resched r_stranded].
  - by rewrite F4.
  - by rewrite F1, Er.
  - by apply chg_keeps.
  - intros r Hr. by apply chg_other.
  - intros k Hk Hk0. unfold view. cbn [r_sender r_own r_batch r_ok r_resched r_stranded]. unfold requests. rewrite Hfl. fold (requests k s). rewrite Hq by done.
    rewrite fail_notices by done. unfold notices_of. rewrite Et. destruct (step_view m id own' st' k Hso Hk) as [-> ->]. done.
  - intros r Hr Hi Hc ([Hst|Hst] & Hrest); rewrite chg_mine by done.
    { split; [left; by apply (so_sticky _ _ _ _ Hso)|]. by destruct (negb _). }
    destruct (st' id) eqn:Es; [split; [by left|by destruct (negb _)]|].
    destruct (Hrow r Hr Hi Hc eq_refl) as [Href Hno].
    pose proof (fail_count id error s r ltac:(rewrite Er; apply (ro_ids _ Hm)) ltac:(by rewrite Er) Hi Hc) as Hcount.
    unfold notices_of in Hcount at 2. rewrite Et in Hcount. fold (notices_of id (r_sender m)) in Hcount.
    assert (Hown : bool_decide (id ∈ own') = false).
    { apply bool_decide_false. intros Hin. destruct (so_mine _ _ _ _ Hso Hin) as [_ E]. congruence. }
    unfold settled in Hst. destruct (is_failed_row r) eqn:Ef; cbn [negb]; (split; [right|exact Hrest]); unfold settled.
    + unfold is_failed_row in Ef. destruct (ro_status r) eqn:Est; try done. cbn in Hst |- *.
      unfold requests. rewrite Hfl. fold (requests id s). rewrite Hown, Hcount, Nat.add_0_r. by destruct Hst as (_ & _ & ->).
    + cbn. unfold requests. rewrite Hfl. fold (requests id s). rewrite Hown, Hcount.
      destruct Hno as [?|Hno]; [done|]. by rewrite Hno.
  - intros x. rewrite Hfl. intros Hx. left. by apply Hf.
  - intros n [Hx|Hx]%fail_told; [left; by rewrite <- Et|right; lia].
  - intros k Hk. destruct (step_owns m id own' st' k Hm Hso Hk); auto.
  - done.
Qed.

Lemma drain_next_inv s r s' : drain_next s = Some (r, s') ->
  r ∈ se_rows s /\ ro_channel r = channel /\ ro_status r = OPending /\ s' = channel_dispatch_outbox (ro_id r) s.
Proof.
  unfold drain_next. destruct (channel_next_outbox s) as [r0|] eqn:E; [|done]. intros [= <- <-].
  apply find_some in E as [Hr Hb]. apply andb_true_iff in Hb as [[Hc Hp]%andb_true_iff _].
  apply bool_decide_eq_true in Hc. unfold is_pending_row in Hp. split_all; try done; [by apply list_elem_of_In|]. by destruct (ro_status r0).
Qed.

Lemma dispatch_ok m r s : run_ok m -> drain_next (r_sender m) = Some (r, s) ->
  run_ok (mk_run s (ro_id r :: r_own m) (upd (r_batch m) (ro_id r) []) (upd (r_ok m) (ro_id r) []) (r_resched m) (r_stranded m)).
Proof.
  intros Hm (Hr & Hc & Hp & ->)%drain_next_inv. pose proof (ro_rows _ Hm r Hr Hc) as [Hv Hrest].
  apply (run_ok_change m _ (ro_id r) (chg (ro_id r) is_pending_row (o_status OSending)) Hm); cbn [r_sender r_own r_batch r_ok r_resched r_stranded]; try done.
  - by apply chg_keeps.
  - intros r' Hr'. by apply chg_other.
  - intros k Hk _. unfold view. cbn. unfold upd. destruct (k =? ro_id r) eqn:E; [lia|].
    replace (bool_decide (k ∈ ro_id r :: r_own m)) with (bool_decide (k ∈ r_own m)); [done|]. apply bool_decide_ext. rewrite elem_of_cons. by intuition.
  - intros r' Hr' Hi _ _. assert (r' = r) as -> by (by apply (NoDup_map_inj ro_id _ _ _ (ro_ids _ Hm))).
    rewrite chg_mine by done. unfold is_pending_row. rewrite Hp. split; [|exact Hrest]. destruct Hv as [Hv|Hv]; [by left|right].
    unfold settled in Hv |- *. rewrite Hp in Hv. cbn in Hv |- *. destruct Hv as (Hq & Hown & Hno). split; [exact Hno|]. left. unfold upd. rewrite Z.eqb_refl.
    split_all; try done. apply bool_decide_true. by left.
  - intros x Hx. by left.
  - intros n Hx. by left.
  - intros k Hk. destruct (decide (k = ro_id r)) as [->|Hne]; [right; right|left; by apply elem_of_cons in Hk as [?|?]].
    exists r. rewrite chg_mine by done. unfold is_pending_row. rewrite Hp. done.
Qed.

(** A row that leaves its requests behind: delivered, or back in the queue of rows. *)
Lemma move_ok m s id f ok' resched' own' :
  run_ok m -> id < se_next_id (r_sender m) -> keeps_key f -> step_on m id own' (r_stranded m) ->
  se_rows s = se_rows (r_sender m) -> se_next_id s = se_next_id (r_sender m) -> se_notices s = se_notices (r_sender m) ->
  (forall k, k <> id -> 0 < k -> requests k s = requests k (r_sender m)) ->
  (forall x, x ∈ in_flight s -> x ∈ in_flight (r_sender m)) ->
  (forall k, k <> id -> ok' k = r_ok m k /\ resched' k = r_resched m k) ->
  (forall r, r ∈ se_rows (r_sender m) -> ro_id r = id -> ro_channel r = channel ->
     row_ok (mk_view (requests id s) false (notices_of id (r_sender m)) (r_batch m id) (ok' id) (resched' id) (r_stranded m id)) (f r)) ->
  run_ok (mk_run (set_row id (fun _ => true) f s) own' (r_batch m) ok' resched' (r_stranded m)).
Proof.
  intros Hm Hid Hf Hso Er En Et Hq Hin Hk Hrow.
  apply (run_ok_change m _ id (chg id (fun _ => true) f) Hm); cbn [r_sender r_own r_batch r_ok r_resched r_stranded]; try done.
  - cbn. by rewrite Er.
  - by apply chg_keeps.
  - intros r Hr. by apply chg_other.
  - intros k Hne H0. unfold view. cbn [r_sender r_own r_batch r_ok r_resched r_stranded]. destruct (Hk k Hne) as [-> ->].
    change (requests k (set_row id (fun _ => true) f s)) with (requests k s). rewrite Hq by done.
    change (notices_of k (set_row id (fun _ => true) f s)) with (notices_of k s). unfold notices_of. rewrite Et.
    destruct (step_view m id own' _ k Hso Hne) as [-> _]. done.
  - intros r Hr Hi Hc _. rewrite chg_mine by done. unfold view. cbn [r_sender r_own r_batch r_ok r_resched r_stranded].
    specialize (Hrow r Hr Hi Hc).
    destruct (r_stranded m id) eqn:Es.
    + split; [by left|]. by destruct Hrow as [_ Hrest].
    + rewrite (bool_decide_false (id ∈ own')) by (intros Hin'; destruct (so_mine _ _ _ _ Hso Hin'); congruence).
      change (requests id (set_row id (fun _ => true) f s)) with (requests id s).
      change (notices_of id (set_row id (fun _ => true) f s)) with (notices_of id s). unfold notices_of. rewrite Et. exact Hrow.
  - intros x Hx. left. by apply Hin.
  - intros n Hn. left. cbn in Hn. by rewrite <- Et.
  - intros k Hk'. destruct (step_owns m id own' _ k Hm Hso Hk'); auto.
  - intros k Hge. destruct (decide (k = id)) as [->|Hne]; [lia|]. by apply Hk.
Qed.

Lemma of_row_app id a b : of_row id (a ++ b) = of_row id a ++ of_row id b.
Proof. apply List.filter_app. Qed.

Lemma of_row_cons id x l : of_row id (x :: l) = if sd_outbox x =? id then x :: of_row id l else of_row id l.
Proof. done. Qed.

Lemma in_flight_push b : forall s, in_flight (fold_left (fun s x => send_queue_push x s) b s) = in_flight s ++ b /\
  se_rows (fold_left (fun s x => send_queue_push x s) b s) = se_rows s /\ se_active (fold_left (fun s x => send_queue_push x s) b s) = se_active s /\
  se_next_id (fold_left (fun s x => send_queue_push x s) b s) = se_next_id s /\ se_notices (fold_left (fun s x => send_queue_push x s) b s) = se_notices s.
Proof.
  induction b as [|x b IH]; intros s; cbn; [by rewrite app_nil_r|]. destruct (IH (send_queue_push x s)) as (-> & H2 & H3 & H4 & H5).
  split; [|by rewrite H2, H3, H4, H5]. unfold in_flight. cbn. destruct (se_active s); cbn; by rewrite <- app_assoc.
Qed.

Lemma of_row_all id b : Forall (fun x => sd_outbox x = id) b -> of_row id b = b.
Proof. unfold of_row. induction 1 as [|x b Hx _ IH]; [done|]. cbn. by rewrite (proj2 (Z.eqb_eq _ _) Hx), IH. Qed.

Lemma of_row_none id k b : k <> id -> Forall (fun x => sd_outbox x = id) b -> of_row k b = [].
Proof. intros Hk. unfold of_row. induction 1 as [|x b Hx _ IH]; [done|]. cbn. by rewrite (proj2 (Z.eqb_neq _ _)) by lia. Qed.

Lemma batch_ok m id b : run_ok m -> id ∈ r_own m -> batch_of id b ->
  run_ok (mk_run (fold_left (fun s x => send_queue_push x s) b (r_sender m)) (disown id (r_own m)) (upd (r_batch m) id b) (r_ok m) (r_resched m) (r_stranded m)).
Proof.
  intros Hm Hid Hb. destruct (owned_row m id Hm Hid) as (Hlt & Hpos & Hor).
  destruct (in_flight_push b (r_sender m)) as (F1 & F2 & F3 & F4 & F5).
  assert (Hall : Forall (fun x => sd_outbox x = id) b) by (apply Forall_forall; intros x; by apply batch_row).
  assert (Hne : b <> []) by (destruct Hb as (l & x & -> & _); by destruct l).
  apply (run_ok_change m _ id (fun r => r) Hm); cbn [r_sender r_own r_batch r_ok r_resched r_stranded]; try done.
  - by rewrite F2, map_id.
  - intros k Hk _. unfold view. cbn [r_sender r_own r_batch r_ok r_resched r_stranded]. unfold requests, notices_of. rewrite F1, F5, of_row_app, (of_row_none id k b), app_nil_r by done.
    unfold upd. rewrite (proj2 (Z.eqb_neq k id)) by done.
    destruct (step_view m id _ _ k (step_disown m id) Hk) as [-> _]. done.
  - intros r Hr Hi Hc [_ Hrest]. split; [|exact Hrest]. destruct Hor as [Hst|(Hq & Hok & _ & Hno & Hst)]; [by left|right].
    unfold settled. rewrite (Hst r Hr Hi). unfold view. cbn.
    unfold requests, notices_of. rewrite F1, F5, of_row_app, (of_row_all id b Hall). fold (requests id (r_sender m)) (notices_of id (r_sender m)). rewrite Hq, Hok.
    unfold upd. rewrite Z.eqb_refl. split; [done|]. right. rewrite Hi. split_all; try done. apply bool_decide_false. rewrite elem_of_disown. by intros [].
  - intros x. rewrite F1. intros [Hx|Hx]%elem_of_app; [by left|right]. rewrite Forall_forall in Hall. rewrite (Hall x Hx). done.
  - rewrite F5. intros n Hn. by left.
  - intros k Hk. destruct (step_owns m id _ _ k Hm (step_disown m id) Hk); auto.
Qed.

(** A step that changes no view of a row. *)
Lemma run_ok_same m m' :
  run_ok m -> se_next_id (r_sender m') = se_next_id (r_sender m) ->
  (forall r, r ∈ se_rows (r_sender m') -> r ∈ se_rows (r_sender m)) -> NoDup (map ro_id (se_rows (r_sender m'))) ->
  (forall r, r ∈ se_rows (r_sender m) -> is_sending_row r = true -> r ∈ se_rows (r_sender m')) ->
  (forall k, 0 < k -> view m' k = view m k) -> r_own m' = r_own m ->
  (forall x, x ∈ in_flight (r_sender m') -> x ∈ in_flight (r_sender m) \/ sd_outbox x <= 0) ->
  se_notices (r_sender m') = se_notices (r_sender m) ->
  (forall k, r_resched m' k = r_resched m k) ->
  run_ok m'.
Proof.
  intros [H1 H2 H3 H4 H5 H6 H8 H9] En Hr Hnd Hsend Hv Ho Hf Ht Hs. split; rewrite ?En; try done.
  - intros r Hin Hc. rewrite Hv by (by apply H3, Hr). apply H2; [by apply Hr|done].
  - intros r Hin. by apply H3, Hr.
  - intros x [Hx|Hx]%Hf; [by apply H4|lia].
  - rewrite Ht. apply H5.
  - rewrite Ho. intros id Hid. destruct (H6 id Hid) as (Hb & [Hst|(r & Hin & ? & ? & Hst)]); (split; [done|]).
    + left. pose proof (f_equal v_stranded (Hv id (proj1 Hb))) as E. cbn in E. by rewrite E.
    + right. exists r. split_all; try done. apply Hsend; [done|]. unfold is_sending_row. by rewrite Hst.
  - intros id Hid. rewrite Hs. by apply H8.
Qed.

Lemma insert_ok m chan sid payload : run_ok m ->
  run_ok (mk_run (outbox_insert chan sid payload (r_sender m)) (r_own m) (r_batch m) (r_ok m) (r_resched m) (r_stranded m)).
Proof.
  intros Hm. pose proof Hm as [H1 H2 H3 H4 H5 H6 H8 H9]. set (n := se_next_id (r_sender m)) in *.
  assert (Hold : forall r, r ∈ se_rows (r_sender m) -> ro_id r <> n) by (intros r Hr; specialize (H3 r Hr); lia).
  split; cbn [r_sender r_own r_batch r_ok r_resched r_stranded outbox_insert se_rows se_next_id se_notices se_active]; fold n.
  - rewrite map_app. apply NoDup_app. split; [done|]. split; [|apply NoDup_singleton].
    intros x (r & <- & Hr)%list_elem_of_In%in_map_iff Hx%list_elem_of_singleton. apply list_elem_of_In in Hr. by destruct (Hold r Hr).
  - intros r [Hr| ->%list_elem_of_singleton]%elem_of_app Hc; [by apply H2|]. split; [right|cbn; rewrite (H8 n) by lia; unfold MAX_OUTBOX_ATTEMPTS; lia].
    unfold settled. cbn. split_all.
    + unfold requests. change (in_flight (outbox_insert chan sid payload (r_sender m))) with (in_flight (r_sender m)).
      assert (Forall (fun x => sd_outbox x < n) (in_flight (r_sender m))) as Hf by (apply Forall_forall; exact H4).
      clear -Hf. unfold of_row. induction Hf as [|x l Hx _ IH]; [done|]. cbn. destruct (sd_outbox x =? n) eqn:E; [lia|exact IH].
    + apply bool_decide_false. intros Hid. destruct (H6 n Hid) as [Hb _]. lia.
    + unfold notices_of. cbn. assert (Forall (fun k => snd (fst k) < n) (se_notices (r_sender m))) as Hf by (apply Forall_forall; exact H5).
      clear -Hf. induction Hf as [|x l Hx _ IH]; [done|]. cbn. destruct (x.1.2 =? n) eqn:E; [lia|exact IH].
  - intros r [Hr| ->%list_elem_of_singleton]%elem_of_app; [specialize (H3 r Hr); lia|cbn; lia].
  - intros x Hx. change (in_flight (outbox_insert chan sid payload (r_sender m))) with (in_flight (r_sender m)) in Hx. specialize (H4 x Hx). lia.
  - intros k Hk. specialize (H5 k Hk). lia.
  - intros id Hid. destruct (H6 id Hid) as (Hb & [Hst|(r & Hr & ?)]); (split; [lia|]); [by left|right].
    exists r. split; [apply elem_of_app; by left|done].
  - intros id Hid. apply H8. lia.
  - lia.
Qed.

(** The request that would go next, for a row whose batch it heads. *)
Lemma head_row m x rest : run_ok m -> in_flight (r_sender m) = x :: rest -> 0 < sd_outbox x ->
  requests (sd_outbox x) (r_sender m) = x :: of_row (sd_outbox x) rest /\
  ((sd_outbox x ∉ r_own m) \/ r_stranded m (sd_outbox x) = true) /\
  forall r, r ∈ se_rows (r_sender m) -> ro_id r = sd_outbox x -> ro_channel r = channel ->
    r_stranded m (sd_outbox x) = true \/
    ro_status r = OSending /\ notices_of (sd_outbox x) (r_sender m) = [] /\ batch_of (sd_outbox x) (r_batch m (sd_outbox x)) /\
     r_batch m (sd_outbox x) = r_ok m (sd_outbox x) ++ x :: of_row (sd_outbox x) rest.
Proof.
  intros Hm Hfl Hpos. set (id := sd_outbox x) in *.
  assert (requests id (r_sender m) = x :: of_row id rest) as Hq by (unfold requests; rewrite Hfl, of_row_cons; by rewrite Z.eqb_refl).
  split; [done|]. split.
  - destruct (decide (id ∈ r_own m)) as [Hid|]; [right|by left].
    destruct (owned_row m id Hm Hid) as (_ & _ & [?|(H1 & _)]); [done|]. by rewrite Hq in H1.
  - intros r Hr Hi Hc. destruct (ro_rows _ Hm r Hr Hc) as [[Hv|Hv] _]; rewrite Hi in Hv; [by left|right].
    unfold settled in Hv. destruct (ro_status r) eqn:Es; cbn in Hv.
    + destruct Hv as [Hv _]. by rewrite Hq in Hv.
    + destruct Hv as [Hn [(_ & Hv & _)|(Ho & _ & Hb & He)]]; [by rewrite Hq in Hv|]. rewrite Hq in He. rewrite Hi in Hb. done.
    + destruct Hv as [Hv _]. by rewrite Hq in Hv.
    + destruct Hv as (_ & Hv & _). by rewrite Hq in Hv.
Qed.

Lemma start_next_ok m easy base egress : run_ok m ->
  run_ok (mk_run (send_start_next easy base egress (r_sender m)) (r_own m) (r_batch m) (r_ok m) (r_resched m)
            (fun id => r_stranded m id || strands (make_easy easy base egress) (r_sender m) id)).
Proof.
  intros Hm. set (passes := make_easy easy base egress). set (st' := fun id => r_stranded m id || strands passes (r_sender m) id).
  assert (Hid : (forall k, strands passes (r_sender m) k = false) -> run_ok (mk_run (r_sender m) (r_own m) (r_batch m) (r_ok m) (r_resched m) st')).
  { intros Hno. apply (run_ok_same m); try done; try apply Hm; [|intros x Hx; by left].
    intros k _. unfold view, st'. cbn. by rewrite Hno, orb_false_r. }
  unfold send_start_next. destruct (se_active (r_sender m)) as [a|] eqn:Ea.
  { apply Hid. intros k. unfold strands. by rewrite Ea. }
  destruct (se_queue (r_sender m)) as [|x q] eqn:Eq.
  { apply Hid. intros k. unfold strands. by rewrite Ea, Eq. }
  clear Hid. assert (Hfl : in_flight (r_sender m) = x :: q) by (unfold in_flight; by rewrite Ea, Eq).
  assert (Hst : forall k, strands passes (r_sender m) k =
            negb (passes (sd_url x)) && (sd_outbox x =? k) && negb (match of_row k q with [] => true | _ => false end))
    by (intros k; unfold strands; by rewrite Ea, Eq).
  fold passes. destruct (passes (sd_url x)) eqn:Eu.
  - apply (run_ok_same m); try done; try apply Hm.
    + intros k _. unfold view, st'. cbn. rewrite Hst, orb_false_r. unfold requests. by rewrite Hfl.
    + intros y. rewrite Hfl. by left.
  - assert (Hsub : forall y, y ∈ in_flight (e_queue q (r_sender m)) -> y ∈ in_flight (r_sender m))
      by (rewrite Hfl; unfold in_flight; cbn; rewrite Ea; intros y Hy; by right).
    destruct (sd_outbox x >? 0) eqn:E0.
    + assert (Hpos : 0 < sd_outbox x) by lia. destruct (head_row m x q Hm Hfl Hpos) as (Hq & Hown & Hrow).
      assert (Hreq : requests (sd_outbox x) (e_queue q (r_sender m)) = of_row (sd_outbox x) q) by (unfold requests, in_flight; cbn; by rewrite Ea).
      apply fail_ok; try done.
      * apply (ro_sends _ Hm). rewrite Hfl. by left.
      * split; [done| | |]; unfold st'.
        -- intros Hin. split; [done|]. destruct Hown as [?|Hs]; [done|by rewrite Hs].
        -- intros k Hk. rewrite Hst, (proj2 (Z.eqb_neq _ _)) by congruence. by rewrite orb_false_r.
        -- by intros ->.
      * intros k Hk _. unfold requests, in_flight. cbn. rewrite Ea, Eq, of_row_cons. by rewrite (proj2 (Z.eqb_neq _ _)) by congruence.
      * intros r Hr Hi Hc Hns. unfold st' in Hns. rewrite Hst, Z.eqb_refl in Hns. apply orb_false_iff in Hns as [Hns Hleft].
        rewrite Hreq. split; [by destruct (of_row (sd_outbox x) q)|]. right.
        destruct (Hrow r Hr Hi Hc) as [?|(_ & Hn & _)]; [congruence|done].
    + apply (run_ok_same m); try done; try apply Hm.
      * intros k Hk. unfold view, st'. cbn. rewrite Hst, (proj2 (Z.eqb_neq (sd_outbox x) k)) by lia. cbn. rewrite orb_false_r.
        unfold requests, in_flight. cbn. rewrite Ea, Eq, of_row_cons. by rewrite (proj2 (Z.eqb_neq _ _)) by lia.
      * intros y Hy. left. by apply Hsub.
Qed.

Lemma dropped_requests id k q : of_row k (List.filter (fun x => negb (sd_outbox x =? id)) q) = if k =? id then [] else of_row k q.
Proof.
  unfold of_row. induction q as [|x q IH]; [by destruct (k =? id)|]. cbn. destruct (sd_outbox x =? id) eqn:E; cbn [negb].
  - rewrite IH. destruct (k =? id) eqn:Ek; [done|]. by rewrite (proj2 (Z.eqb_neq (sd_outbox x) k)) by lia.
  - cbn. rewrite IH. destruct (k =? id) eqn:Ek; [by rewrite (proj2 (Z.eqb_neq (sd_outbox x) k)) by lia|done].
Qed.

(** The queue after a request of [id] is over: with the rest of its batch, or without. *)
Definition over (drop : bool) (id : Z) (s : Sender) : Sender := e_active None (if drop then send_queue_drop_outbox id s else s).

Lemma over_spec drop x s : se_active s = Some x ->
  let s1 := over drop (sd_outbox x) s in
  se_rows s1 = se_rows s /\ se_next_id s1 = se_next_id s /\ se_notices s1 = se_notices s /\ se_active s1 = None /\
  (forall k, k <> sd_outbox x -> requests k s1 = requests k s) /\ (forall y, y ∈ in_flight s1 -> y ∈ in_flight s) /\
  requests (sd_outbox x) s1 = (if drop then [] else of_row (sd_outbox x) (se_queue s)).
Proof.
  intros Ha. destruct drop; unfold requests, in_flight, over, send_queue_drop_outbox, e_active, e_queue;
    cbn [se_rows se_next_id se_notices se_active se_queue]; rewrite Ha; split_all; try done.
  - intros k Hk. rewrite dropped_requests, of_row_cons. by rewrite !(proj2 (Z.eqb_neq _ _)) by congruence.
  - intros y [Hy _]%elem_of_filter_bool. by right.
  - rewrite dropped_requests. by rewrite Z.eqb_refl.
  - intros k Hk. rewrite of_row_cons. by rewrite (proj2 (Z.eqb_neq _ _)) by congruence.
  - intros y Hy. by right.
Qed.

Lemma done_row m x : run_ok m -> se_active (r_sender m) = Some x -> 0 < sd_outbox x ->
  step_on m (sd_outbox x) (r_own m) (r_stranded m) /\ sd_outbox x < se_next_id (r_sender m) /\
  forall r, r ∈ se_rows (r_sender m) -> ro_id r = sd_outbox x -> ro_channel r = channel ->
    r_stranded m (sd_outbox x) = true \/
    ro_status r = OSending /\ notices_of (sd_outbox x) (r_sender m) = [] /\ batch_of (sd_outbox x) (r_batch m (sd_outbox x)) /\
    r_batch m (sd_outbox x) = r_ok m (sd_outbox x) ++ x :: of_row (sd_outbox x) (se_queue (r_sender m)).
Proof.
  intros Hm Ha Hpos. assert (Hfl : in_flight (r_sender m) = x :: se_queue (r_sender m)) by (unfold in_flight; by rewrite Ha).
  destruct (head_row m x _ Hm Hfl Hpos) as (Hq & Hown & Hrow).
  split; [apply step_keep; tauto|]. split; [|done]. apply (ro_sends _ Hm). rewrite Hfl. by left.
Qed.

(** The row of a request that is over, once its flag is looked at. *)
Lemma over_view m id r v : r_stranded m id = v_stranded v -> row_ok (view m id) r ->
  (r_stranded m id = false -> settled v r) -> v_resched v = r_resched m id -> row_ok v r.
Proof.
  intros Hs [_ Hrest] Hv Hr. split; [|by rewrite Hr]. destruct (r_stranded m id); [left|right]; auto.
Qed.

Lemma sent_ok m x : run_ok m -> se_active (r_sender m) = Some x -> 0 < sd_outbox x -> sd_final x = false ->
  run_ok (mk_run (over false (sd_outbox x) (r_sender m)) (r_own m) (r_batch m) (upd (r_ok m) (sd_outbox x) (r_ok m (sd_outbox x) ++ [x])) (r_resched m) (r_stranded m)).
Proof.
  intros Hm Ha Hpos Hf. destruct (done_row m x Hm Ha Hpos) as (Hso & Hlt & Hrow).
  destruct (over_spec false x (r_sender m) Ha) as (E1 & E2 & E3 & E4 & E5 & E6 & E7).
  apply (run_ok_change m _ (sd_outbox x) (fun r => r) Hm); cbn [r_sender r_own r_batch r_ok r_resched r_stranded]; try done.
  - by rewrite E1, map_id.
  - intros k Hk _. unfold view. cbn [r_sender r_own r_batch r_ok r_resched r_stranded]. rewrite E5 by done. unfold notices_of. rewrite E3.
    unfold upd. by rewrite (proj2 (Z.eqb_neq _ _)) by done.
  - intros r Hr Hi Hc Hok. apply (over_view m (sd_outbox x)); try done. intros Hns.
    destruct (Hrow r Hr Hi Hc) as [?|(Hs & Hn & Hb & He)]; [congruence|]. unfold settled. rewrite Hs. unfold view.
    cbn [v_requests v_owned v_notices v_batch v_ok r_sender r_own r_batch r_ok]. unfold notices_of. rewrite E3. split; [exact Hn|]. right. rewrite E7. unfold upd. rewrite Z.eqb_refl, Hi.
    split; [apply bool_decide_false; intros Hin; destruct (so_mine _ _ _ _ Hso Hin); congruence|]. split; [|split; [done|by rewrite He, <- app_assoc]].
    rewrite He in Hb. intros Hz. apply (batch_final _ _ _ _ Hb) in Hz. congruence.
  - intros y Hy. left. by apply E6.
  - rewrite E3. intros n Hn. by left.
  - intros k Hk. destruct (step_owns m (sd_outbox x) _ _ k Hm Hso Hk); auto.
Qed.

Lemma final_ok m x : run_ok m -> se_active (r_sender m) = Some x -> 0 < sd_outbox x -> sd_final x = true ->
  run_ok (mk_run (set_row (sd_outbox x) (fun _ => true) (acked (se_now (r_sender m))) (over false (sd_outbox x) (r_sender m)))
            (r_own m) (r_batch m) (upd (r_ok m) (sd_outbox x) (r_ok m (sd_outbox x) ++ [x])) (r_resched m) (r_stranded m)).
Proof.
  intros Hm Ha Hpos Ef. destruct (done_row m x Hm Ha Hpos) as (Hso & Hlt & Hrow).
  destruct (over_spec false x (r_sender m) Ha) as (E1 & E2 & E3 & E4 & E5 & E6 & E7).
  apply (move_ok m (over false (sd_outbox x) (r_sender m)) (sd_outbox x)); try done.
  - intros k Hk _. by apply E5.
  - intros k Hk. unfold upd. by rewrite (proj2 (Z.eqb_neq _ _)) by done.
  - intros r Hr Hi Hc. pose proof (ro_rows _ Hm r Hr Hc) as Hok. rewrite Hi in Hok. split; [|apply Hok].
    destruct (Hrow r Hr Hi Hc) as [?|(Hs & Hn & Hb & He)]; [by left|right]. rewrite E7. unfold settled. cbn.
    rewrite He in Hb. pose proof (proj1 (batch_final _ _ _ _ Hb) Ef) as Hz. rewrite Hz in *. unfold upd. rewrite Z.eqb_refl, Hi, He. split_all; try done. by right.
Qed.

(** A row that is put back, in either way, with one more of its seven chances used. *)
Lemma back_ok m x f : run_ok m -> se_active (r_sender m) = Some x -> 0 < sd_outbox x -> keeps_key f ->
  (forall r, r ∈ se_rows (r_sender m) -> ro_id r = sd_outbox x -> ro_channel r = channel ->
     ro_status (f r) = OPending /\ ro_attempts (f r) + ro_mode (f r) = ro_attempts r + ro_mode r + 1 /\
     0 <= ro_attempts (f r) <= MAX_OUTBOX_ATTEMPTS /\ 0 <= ro_mode (f r) <= 1) ->
  run_ok (mk_run (set_row (sd_outbox x) (fun _ => true) f (over true (sd_outbox x) (r_sender m))) (r_own m) (r_batch m) (r_ok m)
            (upd (r_resched m) (sd_outbox x) (r_resched m (sd_outbox x) + 1)) (r_stranded m)).
Proof.
  intros Hm Ha Hpos Hk Hf. destruct (done_row m x Hm Ha Hpos) as (Hso & Hlt & Hrow).
  destruct (over_spec true x (r_sender m) Ha) as (E1 & E2 & E3 & E4 & E5 & E6 & E7).
  apply (move_ok m (over true (sd_outbox x) (r_sender m)) (sd_outbox x)); try done.
  - intros k Hne _. by apply E5.
  - intros k Hne. unfold upd. by rewrite (proj2 (Z.eqb_neq _ _)) by done.
  - intros r Hr Hi Hc. destruct (ro_rows _ Hm r Hr Hc) as [_ Hrest].
    rewrite Hi in Hrest. cbn in Hrest. destruct (Hf r Hr Hi Hc) as (F1 & F2 & F3 & F4).
    split.
    + destruct (Hrow r Hr Hi Hc) as [?|(Hs & Hn & Hb & He)]; [by left|right]. rewrite E7. unfold settled. by rewrite F1.
    + cbn. unfold upd. rewrite Z.eqb_refl. split; [lia|done].
Qed.

Lemma given_up_ok m x error : run_ok m -> se_active (r_sender m) = Some x -> 0 < sd_outbox x ->
  run_ok (mk_run (e_active None (channel_fail_outbox (sd_outbox x) error (send_queue_drop_outbox (sd_outbox x) (r_sender m))))
            (r_own m) (r_batch m) (r_ok m) (r_resched m) (r_stranded m)).
Proof.
  intros Hm Ha Hpos. destruct (done_row m x Hm Ha Hpos) as (Hso & Hlt & Hrow).
  destruct (over_spec true x (r_sender m) Ha) as (E1 & E2 & E3 & E4 & E5 & E6 & E7).
  replace (e_active None (channel_fail_outbox (sd_outbox x) error (send_queue_drop_outbox (sd_outbox x) (r_sender m))))
    with (channel_fail_outbox (sd_outbox x) error (over true (sd_outbox x) (r_sender m))).
  - apply (fail_ok m (over true (sd_outbox x) (r_sender m))); try done; [intros k Hk _; by apply E5|].
    intros r Hr Hi Hc Hns. rewrite E7. split; [done|]. right. destruct (Hrow r Hr Hi Hc) as [?|(_ & ? & _)]; [congruence|done].
  - unfold channel_fail_outbox, notify_send_failure. cbn. destruct (existsb _ _); [|done]. destruct (List.find _ _) as [r|]; [|done]. by destruct (notified r).
Qed.

Lemma refused_ok m c x : run_ok m -> se_active (r_sender m) = Some x -> 0 < sd_outbox x -> cp_ok c = false -> run_ok (record_done c x m).
Proof.
  intros Hm Ha Hpos Eok. unfold record_done, send_done. rewrite Ha, Eok.
  replace (sd_outbox x <=? 0) with false by lia. replace (sd_outbox x >? 0) with true by lia. cbn [negb]. unfold send_failed.
  change (channel_outbox_mode (sd_outbox x) (send_queue_drop_outbox (sd_outbox x) (r_sender m))) with (channel_outbox_mode (sd_outbox x) (r_sender m)).
  assert (Hfind : forall r, r ∈ se_rows (r_sender m) -> ro_id r = sd_outbox x -> ro_channel r = channel ->
    channel_outbox_mode (sd_outbox x) (r_sender m) = ro_mode r /\ channel_outbox_attempts (sd_outbox x) (r_sender m) = ro_attempts r /\
    0 <= ro_attempts r <= MAX_OUTBOX_ATTEMPTS /\ 0 <= ro_mode r <= 1).
  { intros r Hr Hi Hc. unfold channel_outbox_mode, channel_outbox_attempts. rewrite (find_row _ _ r (ro_ids _ Hm) Hr Hi Hc).
    destruct (ro_rows _ Hm r Hr Hc) as [_ (_ & Hat & Hmo)]. done. }
  destruct (negb (cp_transient c) && (channel_outbox_mode (sd_outbox x) (r_sender m) =? 0)) eqn:Em;
    [|destruct (cp_transient c && (channel_outbox_attempts (sd_outbox x) (r_sender m) <? MAX_OUTBOX_ATTEMPTS)) eqn:Et]; cbn [orb].
  - apply (back_ok m x (degraded 1)); try done. intros r Hr Hi Hc. destruct (Hfind r Hr Hi Hc) as (Hmo & _ & Hat & _). cbn. split_all; try done; lia.
  - apply (back_ok m x (retried (se_now (r_sender m) + retry_delay c (channel_outbox_attempts (sd_outbox x) (r_sender m))))); try done.
    intros r Hr Hi Hc. destruct (Hfind r Hr Hi Hc) as (_ & Hat' & Hat & Hmo). cbn. split_all; try done; lia.
  - by apply given_up_ok.
Qed.

Lemma done_ok m c x : run_ok m -> se_active (r_sender m) = Some x -> run_ok (record_done c x m).
Proof.
  intros Hm Ha. destruct (Z.leb_spec (sd_outbox x) 0) as [E0|Hpos].
  - unfold record_done, send_done. rewrite Ha. replace (sd_outbox x <=? 0) with true by lia. replace (sd_outbox x >? 0) with false by lia.
    destruct (over_spec false x (r_sender m) Ha) as (_ & _ & _ & _ & E5 & E6 & _).
    apply (run_ok_same m); try done; try apply Hm.
    + intros k Hk. unfold view. cbn [r_sender r_own r_batch r_ok r_resched r_stranded].
      change (e_active None (r_sender m)) with (over false (sd_outbox x) (r_sender m)). by rewrite E5 by lia.
    + intros y Hy. left. by apply E6.
  - destruct (cp_ok c) eqn:Eok; [|by apply refused_ok]. unfold record_done, send_done. rewrite Ha, Eok.
    replace (sd_outbox x <=? 0) with false by lia. replace (sd_outbox x >? 0) with true by lia. cbn [negb].
    destruct (sd_final x) eqn:Ef; [by apply (final_ok m x)|by apply sent_ok].
Qed.

Lemma restart_ok m : run_ok m -> run_ok (mk_run (runner_start (r_sender m)) [] (r_batch m) (r_ok m) (r_resched m) (r_stranded m)).
Proof.
  intros Hm. set (g := fun r => if streq (ro_channel r) channel && is_sending_row r then o_status OPending r else r).
  assert (Hg : keeps_key g) by (intros r; unfold g; by destruct (_ && _)).
  assert (Hin : forall r', r' ∈ map g (se_rows (r_sender m)) -> exists r, r ∈ se_rows (r_sender m) /\ r' = g r).
  { intros r' (r & <- & Hr)%list_elem_of_In%in_map_iff. exists r. by rewrite list_elem_of_In. }
  split; cbn [r_sender r_own r_batch r_ok r_resched r_stranded runner_start channel_reset_outbox se_rows e_rows e_active e_queue se_next_id se_notices se_active].
  - rewrite map_map. erewrite map_ext; [apply (ro_ids _ Hm)|]. intros r. apply Hg.
  - intros r' (r & Hr & ->)%Hin Hc. destruct (Hg r) as [Hid Hch]. rewrite Hid. rewrite Hch in Hc.
    destruct (ro_rows _ Hm r Hr Hc) as [Hv Hrest]. unfold g, is_sending_row. unfold streq. rewrite bool_decide_true by done. cbn [andb].
    destruct Hv as [Hv|Hv]; [split; [by left|by destruct (ro_status r)]|]. unfold settled in Hv.
    destruct (ro_status r) eqn:Es; cbn [o_status]; (split; [right|exact Hrest]); unfold settled; rewrite ?Es; cbn in Hv |- *.
    + by destruct Hv as (_ & _ & Hv).
    + by destruct Hv as [Hv _].
    + destruct Hv as (_ & _ & H1 & H2 & H3). by split_all.
    + destruct Hv as (_ & _ & H1). by split_all.
  - intros r' (r & Hr & ->)%Hin. destruct (Hg r) as [-> _]. by apply (ro_below _ Hm).
  - intros x Hx. by apply not_elem_of_nil in Hx.
  - apply (ro_told _ Hm).
  - intros id Hid. by apply not_elem_of_nil in Hid.
  - apply (ro_fresh _ Hm).
  - apply (ro_some _ Hm).
Qed.

Lemma prune_ok m retention : run_ok m -> run_ok (mk_run (db_prune_outbox retention (r_sender m)) (r_own m) (r_batch m) (r_ok m) (r_resched m) (r_stranded m)).
Proof.
  intros Hm. unfold db_prune_outbox. destruct (retention <=? 0); [by destruct m|]. apply (run_ok_same m); try done; try apply Hm.
  - intros r [Hr _]%elem_of_filter_bool. done.
  - cbn. apply NoDup_map_filter, (ro_ids _ Hm).
  - intros r Hr Hs. apply elem_of_filter_bool. split; [done|]. unfold is_sending_row in Hs. by destruct (ro_status r).
  - intros x Hx. by left.
Qed.

Lemma other_ok m x : run_ok m -> sd_outbox x <= 0 -> run_ok (mk_run (send_queue_push x (r_sender m)) (r_own m) (r_batch m) (r_ok m) (r_resched m) (r_stranded m)).
Proof.
  intros Hm Hx. destruct (in_flight_push [x] (r_sender m)) as (F1 & _). cbn [fold_left] in F1.
  apply (run_ok_same m); try done; try apply Hm.
  - intros k Hk. unfold view. cbn [r_sender r_own r_batch r_ok r_resched r_stranded]. unfold requests. rewrite F1, of_row_app, of_row_cons.
    rewrite (proj2 (Z.eqb_neq _ _)) by lia. by rewrite app_nil_r.
  - intros y. cbn [r_sender]. rewrite F1. intros [Hy| ->%list_elem_of_singleton]%elem_of_app; [by left|by right].
Qed.

Lemma misfit_ok m r s error : run_ok m -> drain_next (r_sender m) = Some (r, s) ->
  run_ok (mk_run (channel_fail_outbox (ro_id r) error s) (r_own m) (upd (r_batch m) (ro_id r) []) (upd (r_ok m) (ro_id r) []) (r_resched m) (r_stranded m)).
Proof.
  intros Hm Hd. pose proof (dispatch_ok m r s Hm Hd) as Hm1. apply drain_next_inv in Hd as (Hr & Hc & Hp & _).
  set (m1 := mk_run _ _ _ _ _ _) in Hm1. assert (Hid : ro_id r ∈ r_own m1) by (by left).
  destruct (owned_row m1 _ Hm1 Hid) as (Hlt & _ & Hor).
  assert (Hown : r_stranded m (ro_id r) = true \/ ro_id r ∉ r_own m).
  { destruct (ro_rows _ Hm r Hr Hc) as [[Hv|Hv] _]; [by left|right]. unfold settled in Hv. rewrite Hp in Hv.
    destruct Hv as (_ & Hv & _). by apply bool_decide_eq_false in Hv. }
  apply (fail_ok m1 s (ro_id r) error (r_own m) (r_stranded m)); try done.
  - split; [|intros Hin; split; [by left|by destruct Hown]|done|done]. intros k Hk. unfold m1. cbn. rewrite elem_of_cons. by intuition.
  - intros r' _ _ _ Hns. destruct Hor as [Hs|(Hq & _ & _ & Hno & _)]; [unfold m1 in Hs; cbn in Hs; congruence|].
    change (requests (ro_id r) s) with (requests (ro_id r) (r_sender m1)). split; [done|by right].
Qed.

Lemma handler_fail_ok m id error : run_ok m -> id ∈ r_own m ->
  run_ok (mk_run (channel_fail_outbox id error (r_sender m)) (disown id (r_own m)) (r_batch m) (r_ok m) (r_resched m) (r_stranded m)).
Proof.
  intros Hm Hid. destruct (owned_row m id Hm Hid) as (Hlt & _ & Hor). apply fail_ok; try done; [apply step_disown|].
  intros r _ _ _ Hns. destruct Hor as [?|(Hq & _ & _ & Hno & _)]; [congruence|]. split; [done|by right].
Qed.

Lemma handler_ack_ok m id : run_ok m -> id ∈ r_own m ->
  run_ok (mk_run (channel_ack_outbox id (r_sender m)) (disown id (r_own m)) (r_batch m) (r_ok m) (r_resched m) (r_stranded m)).
Proof.
  intros Hm Hid. destruct (owned_row m id Hm Hid) as (Hlt & _ & Hor).
  apply move_ok; try done; [apply step_disown|].
  intros r Hr Hi Hc. destruct (ro_rows _ Hm r Hr Hc) as [_ Hrest]. rewrite Hi in Hrest. split; [|exact Hrest].
  destruct Hor as [?|(Hq & Hok & Hb & Hno & _)]; [by left|right]. unfold settled. cbn. rewrite Hb, Hok. split_all; try done. by left.
Qed.

Lemma run_step_ok m m' : run_ok m -> run_step m m' -> run_ok m'.
Proof.
  intros Hm. destruct 1.
  - by apply insert_ok.
  - apply (run_ok_same m); try done; try apply Hm. intros x Hx. by left.
  - by apply dispatch_ok.
  - by apply misfit_ok.
  - by apply batch_ok.
  - by apply handler_ack_ok.
  - by apply handler_fail_ok.
  - by apply other_ok.
  - by apply start_next_ok.
  - by apply done_ok.
  - by apply restart_ok.
  - by apply prune_ok.
Qed.

Lemma no_run_ok now : run_ok (no_run now).
Proof. split; cbn; try done; try (intros r Hr; by apply not_elem_of_nil in Hr). apply NoDup_nil_2. Qed.

Lemma runs_ok now m : rtc run_step (no_run now) m -> run_ok m.
Proof.
  intros H. assert (forall m1 m2, rtc run_step m1 m2 -> run_ok m1 -> run_ok m2) as Hall; [|by apply (Hall _ _ H), no_run_ok].
  induction 1 as [|m1 m2 m3 Hs _ IH]; [done|]. intros Hm. apply IH. by apply (run_step_ok m1).
Qed.

(** The steps of a concrete run, as functions. *)
Definition run_dispatch (m : Run) : Run :=
  match drain_next (r_sender m) with
  | Some (r, s) => mk_run s (ro_id r :: r_own m) (upd (r_batch m) (ro_id r) []) (upd (r_ok m) (ro_id r) []) (r_resched m) (r_stranded m)
  | None => m
  end.
Definition run_batch (id : Z) (b : list Send) (m : Run) : Run :=
  mk_run (fold_left (fun s x => send_queue_push x s) b (r_sender m)) (disown id (r_own m)) (upd (r_batch m) id b) (r_ok m) (r_resched m) (r_stranded m).
Definition run_start (easy : bool) (base egress : option cstring) (m : Run) : Run :=
  mk_run (send_start_next easy base egress (r_sender m)) (r_own m) (r_batch m) (r_ok m) (r_resched m)
    (fun id => r_stranded m id || strands (make_easy easy base egress) (r_sender m) id).
Definition run_done (c : Completion) (m : Run) : Run := match se_active (r_sender m) with Some x => record_done c x m | None => m end.
Definition run_request (base egress : option cstring) (c : Completion) (m : Run) : Run := run_done c (run_start true base egress m).

Lemma run_dispatch_steps m : rtc run_step m (run_dispatch m).
Proof. unfold run_dispatch. destruct (drain_next _) as [[r s]|] eqn:E; [apply rtc_once; by constructor|done]. Qed.

Lemma run_start_steps easy base egress m : rtc run_step m (run_start easy base egress m).
Proof. apply rtc_once, rs_start. Qed.

Lemma run_request_steps base egress c m : rtc run_step m (run_request base egress c m).
Proof.
  etrans; [apply (run_start_steps true base egress)|]. unfold run_request, run_done.
  destruct (se_active _) as [x|] eqn:E; [apply rtc_once; by constructor|done].
Qed.

(** (C22) What becomes of a message.  Under any sequence of inserts, dispatches, batches of
    the handler (each ends with its only final request), completions, crashes and
    pruning, where any request may be refused when it starts, by the pin of the
    configuration read then or by curl: the times a row of the channel was put back are
    its attempts and its fall to plain text, so at most six.  And for a row none of
    whose refusals left others of its requests queued ([r_stranded]; the row such a
    refusal fails can come back, [failed_row_comes_back]): delivered, it had the
    requests of its last batch accepted by the server, all and in order; failed, it told
    its session exactly once if that session exists, and no other row has a notice; and
    when nothing is queued and the handler holds no row, it is not left halfway. *)
Theorem outbox_settles now m r :
  rtc run_step (no_run now) m -> r ∈ se_rows (r_sender m) -> ro_channel r = channel ->
  (r_resched m (ro_id r) = ro_attempts r + ro_mode r /\ r_resched m (ro_id r) <= 6) /\
  (r_stranded m (ro_id r) = false ->
    (ro_status r = ODelivered -> r_ok m (ro_id r) = r_batch m (ro_id r) /\ (r_batch m (ro_id r) = [] \/ batch_of (ro_id r) (r_batch m (ro_id r)))) /\
    length (notices_of (ro_id r) (r_sender m)) = (if is_failed_row r && notified r then 1 else 0)%nat /\
    (in_flight (r_sender m) = [] -> r_own m = [] -> ro_status r <> OSending)).
Proof.
  intros Hrun Hr Hc. apply runs_ok in Hrun. destruct (ro_rows _ Hrun r Hr Hc) as [Hor (Hsum & Hat & Hmo)]. unfold is_failed_row.
  cbn in Hsum. unfold MAX_OUTBOX_ATTEMPTS in Hat. split; [split; [done|lia]|]. intros Hns.
  destruct Hor as [Hv|Hv]; [cbn in Hv; congruence|]. unfold settled in Hv. split; [|split].
  - intros Hs. rewrite Hs in Hv. cbn in Hv. destruct Hv as (_ & _ & _ & H1 & H2). by split.
  - destruct (ro_status r); cbn in Hv |- *; [by destruct Hv as (_ & _ & ->)|by destruct Hv as [-> _]|by destruct Hv as (_ & _ & -> & _)|].
    by destruct Hv as (_ & _ & ->).
  - intros Hf Ho Hs. rewrite Hs in Hv. cbn in Hv. destruct Hv as [_ [(Hown & _)|(_ & Hq & _)]].
    + apply bool_decide_eq_true in Hown. rewrite Ho in Hown. by apply not_elem_of_nil in Hown.
    + apply Hq. unfold requests. by rewrite Hf.
Qed.
End Outbox.

(** ** Concrete runs *)
Section Demo.
Definition demo_url_host (url : cstring) : option cstring := Some url.
Definition out_step := @run_step (demo_json []) (bs "tg") demo_url_host [1].
Definition out_batch : list Send := [mk_send 1 false (bs "api") (bs "one"); mk_send 1 true (bs "api") (bs "two")].
Definition accepted : Completion := mk_completion None 200 None None.
Definition rejected : Completion := mk_completion None 400 (Some (bs "bad")) None.

Lemma out_batch_ok : batch_of 1 out_batch.
Proof. exists [mk_send 1 false (bs "api") (bs "one")], (mk_send 1 true (bs "api") (bs "two")). split_all; try done. by apply Forall_singleton. Qed.

(** A message in two parts: rejected as formatted, then delivered as plain text. *)
Definition out_m1 : Run := mk_run (outbox_insert (bs "tg") 1 (bs "{}") (r_sender (no_run 10))) [] (fun _ => []) (fun _ => []) (fun _ => 0) (fun _ => false).
Definition out_dispatch := @run_dispatch (bs "tg").
Definition out_request := @run_request (demo_json []) (bs "tg") demo_url_host [1] (Some (bs "api")) None.
Definition out_m2 : Run := out_dispatch out_m1.
Definition out_m3 : Run := run_batch 1 out_batch out_m2.
Definition out_m4 : Run := out_request rejected out_m3.
Definition out_m5 : Run := out_dispatch out_m4.
Definition out_m6 : Run := run_batch 1 out_batch out_m5.
Definition out_m7 : Run := out_request accepted out_m6.
Definition out_m8 : Run := out_request accepted out_m7.

Lemma out_own : r_own out_m2 = [1] /\ r_own out_m5 = [1].
Proof. split; vm_compute; reflexivity. Qed.

Lemma out_dispatch_steps m : rtc out_step m (out_dispatch m).
Proof. apply (@run_dispatch_steps (demo_json []) (bs "tg") demo_url_host [1] m). Qed.

Lemma out_request_steps c m : rtc out_step m (out_request c m).
Proof. apply (@run_request_steps (demo_json []) (bs "tg") demo_url_host [1] (Some (bs "api")) None c m). Qed.

Lemma out_batch_steps m : r_own m = [1] -> rtc out_step m (run_batch 1 out_batch m).
Proof. intros Hm. apply rtc_once, rs_batch; [rewrite Hm; by left|apply out_batch_ok]. Qed.

Lemma out_run : rtc out_step (no_run 10) out_m8.
Proof.
  etrans; [|unfold out_m8; apply out_request_steps]. etrans; [|unfold out_m7; apply out_request_steps].
  etrans; [|unfold out_m6; apply out_batch_steps, out_own]. etrans; [|unfold out_m5; apply out_dispatch_steps].
  etrans; [|unfold out_m4; apply out_request_steps]. etrans; [|unfold out_m3; apply out_batch_steps, out_own].
  etrans; [|unfold out_m2; apply out_dispatch_steps].
  apply rtc_once, (rs_insert _ _ _ (no_run 10) (bs "tg") 1 (bs "{}")).
Qed.

Definition out_row : OutRow := List.hd (mk_orow 0 [] 0 [] OPending 0 0 0 None 0) (se_rows (r_sender out_m8)).

Lemma outbox_settles_witness :
  se_rows (r_sender out_m8) = [out_row] /\ ro_status out_row = ODelivered /\ ro_mode out_row = 1 /\
  r_ok out_m8 (ro_id out_row) = r_batch out_m8 (ro_id out_row) /\ r_batch out_m8 1 = out_batch /\
  r_resched out_m8 (ro_id out_row) = ro_attempts out_row + ro_mode out_row.
Proof.
  assert (Hr : se_rows (r_sender out_m8) = [out_row]) by (vm_compute; reflexivity).
  assert (Hs : ro_status out_row = ODelivered) by (vm_compute; reflexivity).
  assert (Hc : ro_channel out_row = bs "tg") by (vm_compute; reflexivity).
  destruct (@outbox_settles (demo_json []) (bs "tg") demo_url_host [1] 10 out_m8 out_row out_run
              ltac:(rewrite Hr; left) Hc) as ([H2 _] & H0).
  assert (Hns : r_stranded out_m8 (ro_id out_row) = false) by (vm_compute; reflexivity).
  destruct (H0 Hns) as (H1 & _). destruct (H1 Hs) as [H3 _]. split; [exact Hr|]. split; [exact Hs|]. split; [vm_compute; reflexivity|].
  split; [exact H3|]. split; [vm_compute; reflexivity|exact H2].
Defined.

(** A part that cannot be started fails the row but leaves its other parts queued: the next
    one's rejection puts the failed row back, and its second failure tells the session again. *)
Definition stray_batch : list Send := [mk_send 1 false (bs "other") (bs "one"); mk_send 1 true (bs "api") (bs "two")].
Example failed_row_comes_back :
  let start := @send_start_next (demo_json []) (bs "tg") demo_url_host [1] true (Some (bs "api")) None in
  let finish := @send_done (demo_json []) (bs "tg") [1] in
  let s0 := mk_sender 10 [mk_orow 1 (bs "tg") 1 (bs "{}") OSending 0 0 0 None 10] 2 stray_batch None [] in
  let s1 := start s0 in
  let s2 := finish rejected (start s1) in
  let s3 := finish rejected (start (e_queue [mk_send 1 true (bs "api") (bs "two")] (channel_dispatch_outbox (bs "tg") 1 s2))) in
  map is_failed_row (se_rows s1) = [true] /\ map ro_status (se_rows s2) = [OPending] /\ length (se_notices s3) = 2%nat.
Proof. vm_compute. repeat split. Qed.
End Demo.
