(* ===== verification/ContextPlan.v ===== *)
(** * The plan of a request: src/context.c

    Which entries of a session's branch fit a request of the model and where the
    branch is cut, the tail a compaction keeps, and the tests that say when to compact and
    when a turn no longer fits.  The branch is that of [Store]; the columns of an
    entry that [Store] does not carry are a record of functions of its id. *)
From S2P Require Import Prelude CString Libc Ingest Store Advance.

(** ** Data *)
Definition STOP_REASON_ABORTED : Z := 5.

(** The columns token_estimate, tool_call_count, usage_in and the pin of data. *)
Record Columns := mk_columns { k_tokens : Z -> Z; k_calls : Z -> Z; k_usage : Z -> Z; k_pin : Z -> bool }.

Record PlanEntry := mk_plan {
  pe_id : Z; pe_turn : Z; pe_role : Z; pe_stop : Z; pe_tokens : Z; pe_calls : Z; pe_include : bool
}.
Record ContextPlan := mk_cplan { cp_entries : list PlanEntry; cp_cut : nat; cp_budget : Z }.

(** [pc_share]: the product of the threshold and the window, as the machine rounds it. *)
Record PlanConfig := mk_pconfig { pc_max_history : Z; pc_share : Z }.

Definition plan_int_to_role (i : Z) : Z := if (0 <=? i) && (i <=? 4) then i else ROLE_USER.
Definition plan_int_to_stop_reason (i : Z) : Z := if (1 <=? i) && (i <=? 5) then i else 0.

Definition plan_row (k : Columns) (e : Entry) : PlanEntry :=
  mk_plan (e_id e) (e_turn e) (plan_int_to_role (e_role e)) (plan_int_to_stop_reason (e_stop e))
    (if k_tokens k (e_id e) <=? 0 then 4 else k_tokens k (e_id e)) (k_calls k (e_id e)) false.

(** ** The cut *)
Definition no_entry : PlanEntry := mk_plan 0 0 0 0 0 0 false.
Definition at_ (l : list PlanEntry) (i : nat) : PlanEntry := nth i l no_entry.
Definition tokens (l : list PlanEntry) : Z := fold_right (fun e n => pe_tokens e + n) 0 l.

Fixpoint snap_to_turn_start (l : list PlanEntry) (i : nat) : nat :=
  match i with
  | O => O
  | S i' => if pe_turn (at_ l i) =? pe_turn (at_ l i') then snap_to_turn_start l i' else i
  end.

(** Back over the tool results that end at [i]. *)
Fixpoint tool_start (l : list PlanEntry) (i : nat) : nat :=
  match i with
  | O => O
  | S i' => if pe_role (at_ l i') =? ROLE_TOOL then tool_start l i' else i
  end.

Definition group_start (l : list PlanEntry) (i : nat) : nat :=
  if pe_role (at_ l i) =? ROLE_TOOL then
    match tool_start l i with
    | S g => if (pe_role (at_ l g) =? ROLE_ASSISTANT) && (pe_calls (at_ l g) >? 0) then g else S g
    | O => O
    end
  else i.

(** The loop over the groups, newest first; [n] entries are left. *)
Fixpoint plan_cut_loop (fuel : nat) (l : list PlanEntry) (budget total : Z) (n : nat) : nat :=
  match fuel, n with
  | S fuel, S i =>
      let g := group_start l i in
      let group_tokens := tokens (firstn (S i - g) (skipn g l)) in
      if total + group_tokens >? budget then S i else plan_cut_loop fuel l budget (total + group_tokens) g
  | _, _ => O
  end.

Definition plan_find_cut (l : list PlanEntry) (budget : Z) : nat :=
  match length l with
  | O => O
  | S newest =>
      let cut := plan_cut_loop (length l) l budget 0 (length l) in
      snap_to_turn_start l (if (length l <=? cut)%nat then newest else cut)
  end.

Fixpoint plan_keep_loop (l : list PlanEntry) (target cumulative : Z) (n : nat) : nat :=
  match n with
  | O => O
  | S i =>
      let cumulative := cumulative + pe_tokens (at_ l i) in
      if cumulative >? target then n else plan_keep_loop l target cumulative i
  end.

Definition context_compaction_keep_from (p : ContextPlan) (target_tokens : Z) : nat :=
  let l := cp_entries p in
  match length l with
  | O => O
  | S newest =>
      let k := plan_keep_loop l target_tokens 0 (length l) in
      let k := snap_to_turn_start l (if (length l <=? k)%nat then newest else k) in
      if (k <=? 1)%nat then O else k
  end.

(** ** The plan *)
Definition plan_failed (e : PlanEntry) : bool :=
  (pe_role e =? ROLE_ASSISTANT) && ((pe_stop e =? STOP_REASON_ERROR) || (pe_stop e =? STOP_REASON_ABORTED)).

(** Failed answers go, with the tool results right after one. *)
Fixpoint drop_failed (after : bool) (l : list PlanEntry) : list PlanEntry :=
  match l with
  | [] => []
  | e :: l =>
      if plan_failed e then drop_failed true l
      else if after && (pe_role e =? ROLE_TOOL) then drop_failed true l
      else e :: drop_failed false l
  end.

Definition drop_suppressed (suppressed : list Z) (l : list PlanEntry) : list PlanEntry :=
  List.filter (fun e => negb (existsb (Z.eqb (pe_id e)) suppressed)) l.

Definition plan_budget (cfg : PlanConfig) : Z :=
  let budget := if pc_max_history cfg >? 0 then pc_max_history cfg else pc_share cfg in
  if budget <=? 0 then 8000 else budget.

Definition plan_effective (cfg : PlanConfig) (overhead : Z) : Z := Z.max 256 (plan_budget cfg - overhead).

Definition included (b : bool) (e : PlanEntry) : PlanEntry :=
  mk_plan (pe_id e) (pe_turn e) (pe_role e) (pe_stop e) (pe_tokens e) (pe_calls e) b.

(** The branch as the recursive query returns it, root first. *)
Definition plan_branch (t : Store) (sid : Z) : list Entry := rev (session_branch (length (t_entries t)) t sid).

Definition plan_pinned (k : Columns) (t : Store) (sid : Z) (id : Z) : bool :=
  existsb (fun e => (e_id e =? id) && k_pin k (e_id e)) (session_entries t sid).

Definition context_plan (k : Columns) (t : Store) (sid : Z) (suppressed : list Z) (cfg : PlanConfig) (overhead : Z)
    : option ContextPlan :=
  match get_session t sid with
  | Some s =>
      if x_leaf s <? 0 then None
      else match plan_branch t sid with
           | [] => None
           | branch =>
               let l := drop_suppressed suppressed (drop_failed false (map (plan_row k) branch)) in
               let cut := plan_find_cut l (plan_effective cfg overhead) in
               Some (mk_cplan (imap (fun i e => included ((cut <=? i)%nat || plan_pinned k t sid (pe_id e)) e) l)
                       cut (plan_budget cfg))
           end
  | None => None
  end.

(** ** When to compact *)
Record TriggerConfig := mk_tconfig { tc_compaction : bool; tc_share : Z -> Z; tc_window : Z }.

(** [windows]: the window column of an agent's models that are not disabled, in their order. *)
Definition model_context_window (windows : cstring -> list (option Z)) (agent : option cstring) (global_default : Z) : Z :=
  match agent with
  | Some ((_ :: _) as a) =>
      match windows a with Some w :: _ => if w >? 0 then w else global_default | _ => global_default end
  | _ => global_default
  end.

Definition entry_tokens (k : Columns) (l : list Entry) : Z := fold_right (fun e n => k_tokens k (e_id e) + n) 0 l.

(** The newest answer that post-dates every compaction; [l] is leaf first. *)
Definition newest_answer (l : list Entry) : option Entry :=
  let last := fold_right Z.max (-1) (map e_id (List.filter (fun e => e_role e =? ROLE_COMPACTION) l)) in
  List.find (fun e => (e_role e =? ROLE_ASSISTANT) && (e_id e >? last)) l.

Definition turn_of_leaf (l : list Entry) : list Entry :=
  match l with [] => [] | leaf :: _ => List.filter (fun e => e_turn e =? e_turn leaf) l end.

Definition compaction_limit (cfg : TriggerConfig) (window : Z) : Z :=
  if tc_share cfg window <=? 0 then 8000 else tc_share cfg window.

(** [head]: the estimate of the tools and the system prompt; [bodies]: the length of the
    newest request body of an iteration, 0 when there is none. *)
Definition context_size (k : Columns) (head : Z) (bodies : Z -> Z) (l : list Entry) : Z :=
  let provider := match newest_answer l with Some e => k_usage k (e_id e) | None => 0 end in
  let sent := match newest_answer l with
              | Some e => match e_iter e with Some i => Z.quot (bodies i) 3 | None => 0 end
              | None => 0
              end in
  Z.max (Z.max (entry_tokens k l + head) provider) sent.

Definition session_needs_compaction (k : Columns) (t : Store) (sid : Z) (cfg : TriggerConfig) (window head : Z)
    (bodies : Z -> Z) : bool :=
  if tc_compaction cfg then
    let l := session_branch (length (t_entries t)) t sid in
    context_size k head bodies l >? compaction_limit cfg window - entry_tokens k (turn_of_leaf l)
  else false.

(** The walk of one turn, from the leaf. *)
Fixpoint turn_walk (turn : Z) (l : list Entry) : list Entry :=
  match l with
  | [] => []
  | e :: l => if e_turn e =? turn then e :: turn_walk turn l else []
  end.

Definition context_turn_overflows (k : Columns) (t : Store) (sid window head : Z) : Z * bool :=
  if window <=? 0 then (0, false)
  else
    let l := session_branch (length (t_entries t)) t sid in
    let turn := entry_tokens k (match l with [] => [] | e :: _ => turn_walk (e_turn e) l end) in
    (turn, turn >? window - head).

(** ** Lemmas of the walks *)
Lemma skipn_at l i : (i < length l)%nat -> skipn i l = at_ l i :: skipn (S i) l.
Proof.
  revert i. induction l as [|e l IH]; intros [|i] Hi; cbn in Hi; [lia|lia|done|].
  change (skipn (S i) (e :: l)) with (skipn i l). rewrite IH by lia. done.
Qed.

Lemma tokens_app a b : tokens (a ++ b) = tokens a + tokens b.
Proof. unfold tokens. induction a as [|e a IH]; cbn; [lia|]. rewrite IH. lia. Qed.

Definition positive (l : list PlanEntry) : Prop := Forall (fun e => 0 < pe_tokens e) l.

Lemma tokens_nonneg l : positive l -> 0 <= tokens l.
Proof. induction 1; cbn; [lia|]. unfold tokens in *. lia. Qed.

Lemma tokens_filter p l : positive l -> tokens (List.filter p l) <= tokens l.
Proof. unfold tokens. induction 1; cbn; [lia|]. destruct (p x); cbn; lia. Qed.

Lemma positive_skipn n l : positive l -> positive (skipn n l).
Proof. apply Forall_drop. Qed.

Lemma positive_firstn n l : positive l -> positive (firstn n l).
Proof. apply Forall_take. Qed.

Lemma skipn_split {A} (l : list A) g n : (g <= n)%nat -> skipn g l = firstn (n - g) (skipn g l) ++ skipn n l.
Proof. intros H. rewrite <- (firstn_skipn (n - g) (skipn g l)) at 1. rewrite skipn_skipn. by replace (n - g + g)%nat with n by lia. Qed.

Lemma snap_spec l i : let k := snap_to_turn_start l i in
  (k <= i)%nat /\ (forall j, (k <= j <= i)%nat -> pe_turn (at_ l j) = pe_turn (at_ l i)) /\
  (k = O \/ exists k', k = S k' /\ pe_turn (at_ l k') <> pe_turn (at_ l k)).
Proof.
  induction i as [|i IH]; cbn -[at_].
  - split; [lia|]. split; [|by left]. intros j Hj. by replace j with O by lia.
  - destruct (Z.eqb_spec (pe_turn (at_ l (S i))) (pe_turn (at_ l i))) as [E|E].
    + destruct IH as (H1 & H2 & H3). split; [lia|]. split; [|done]. intros j Hj.
      destruct (decide (j = S i)) as [->|]; [done|]. rewrite E. apply H2. lia.
    + split; [lia|]. split; [|right; by exists i]. intros j Hj. by replace j with (S i) by lia.
Qed.

Lemma tool_start_spec l i :
  (tool_start l i <= i)%nat /\ forall j, (tool_start l i <= j < i)%nat -> pe_role (at_ l j) = ROLE_TOOL.
Proof.
  induction i as [|i [H1 H2]]; cbn -[at_]; [split; [lia|]; intros j Hj; lia|].
  destruct (Z.eqb_spec (pe_role (at_ l i)) ROLE_TOOL) as [E|E]; [|split; [lia|]; intros j Hj; lia].
  split; [lia|]. intros j Hj. destruct (decide (j = i)) as [->|]; [done|]. apply H2. lia.
Qed.

Lemma group_start_le l i : (group_start l i <= i)%nat.
Proof.
  unfold group_start. destruct (_ =? _); [|done]. pose proof (proj1 (tool_start_spec l i)) as H.
  destruct (tool_start l i) as [|g]; [lia|]. destruct (_ && _); lia.
Qed.

Lemma plan_cut_loop_spec l budget fuel n :
  (n <= fuel)%nat -> (n <= length l)%nat -> tokens (skipn n l) <= budget ->
  let c := plan_cut_loop fuel l budget (tokens (skipn n l)) n in
  (c <= n)%nat /\ tokens (skipn c l) <= budget /\
  (c = O \/ exists i, c = S i /\ budget < tokens (skipn (group_start l i) l)).
Proof.
  revert n. induction fuel as [|fuel IH]; intros [|i] Hf Hl Hb; cbn -[skipn firstn Nat.sub tokens].
  1,2,3: split; [lia|]; split; [|by left]; try done; lia.
  pose proof (group_start_le l i) as Hg.
  replace (tokens (skipn (S i) l) + _) with (tokens (skipn (group_start l i) l)).
  2: { rewrite (f_equal tokens (skipn_split l (group_start l i) (S i) ltac:(lia))), tokens_app. lia. }
  destruct (_ >? _) eqn:E; [split; [lia|]; split; [done|]; right; exists i; split; [done|lia]|].
  destruct (IH (group_start l i)) as (H1 & H2 & H3); [lia|lia|lia|]. split; [lia|]. by split.
Qed.

Lemma plan_keep_loop_spec l target n :
  (n <= length l)%nat -> tokens (skipn n l) <= target ->
  let c := plan_keep_loop l target (tokens (skipn n l)) n in
  (c <= n)%nat /\ tokens (skipn c l) <= target /\ (c = O \/ exists i, c = S i /\ target < tokens (skipn i l)).
Proof.
  induction n as [|i IH]; intros Hl Hb; cbn -[skipn at_ tokens]; [split; [lia|]; split; [done|by left]|].
  replace (tokens (skipn (S i) l) + pe_tokens (at_ l i)) with (tokens (skipn i l)) by (rewrite (skipn_at l i) by lia; cbn -[skipn at_]; unfold tokens; lia).
  destruct (_ >? _) eqn:E; [split; [lia|]; split; [done|]; right; exists i; split; [done|lia]|].
  destruct (IH ltac:(lia) ltac:(lia)) as (H1 & H2 & H3). split; [lia|]. by split.
Qed.

Lemma group_tools l i j : (group_start l i < j <= i)%nat -> pe_role (at_ l j) = ROLE_TOOL.
Proof.
  unfold group_start. destruct (Z.eqb_spec (pe_role (at_ l i)) ROLE_TOOL) as [Ei|_]; [|lia].
  destruct (tool_start_spec l i) as [H1 H2]. intros Hj. destruct (decide (j = i)) as [->|]; [done|]. apply H2.
  destruct (tool_start l i) as [|g]; [lia|]. destruct (_ && _); lia.
Qed.

(** A tool result is of the turn of what stands before it. *)
Definition tools_follow (l : list PlanEntry) : bool :=
  forallb (fun i => negb (pe_role (at_ l (S i)) =? ROLE_TOOL) || (pe_turn (at_ l (S i)) =? pe_turn (at_ l i)))
    (seq 0 (length l - 1)).

Lemma tools_follow_at l i : tools_follow l = true -> (S i < length l)%nat -> pe_role (at_ l (S i)) = ROLE_TOOL ->
  pe_turn (at_ l (S i)) = pe_turn (at_ l i).
Proof.
  intros H Hi Hr. unfold tools_follow in H. rewrite forallb_forall in H. specialize (H i ltac:(apply in_seq; lia)).
  rewrite Hr, Z.eqb_refl in H. cbn -[at_] in H. by apply Z.eqb_eq in H.
Qed.

(** No group reaches over the start of a turn. *)
Lemma group_within l i k : tools_follow l = true -> (k <= i < length l)%nat ->
  (k = O \/ exists k', k = S k' /\ pe_turn (at_ l k') <> pe_turn (at_ l k)) -> (k <= group_start l i)%nat.
Proof.
  intros Ht Hk [->|(k' & -> & Hd)]; [lia|]. destruct (decide (S k' <= group_start l i)%nat) as [|Hlt]; [done|].
  exfalso. apply Hd. symmetry. apply tools_follow_at; [done|lia|]. apply (group_tools l i). lia.
Qed.

Definition of_turn (turn : Z) (e : PlanEntry) : bool := pe_turn e =? turn.
Definition past_first_turn (l : list PlanEntry) (k : nat) : list PlanEntry :=
  List.filter (fun e => negb (of_turn (pe_turn (at_ l k)) e)) (skipn k l).

Lemma filter_past turn l d k : (k + d <= length l)%nat -> (forall j, (k <= j < k + d)%nat -> pe_turn (at_ l j) = turn) ->
  List.filter (fun e => negb (of_turn turn e)) (skipn k l) = List.filter (fun e => negb (of_turn turn e)) (skipn (k + d) l).
Proof.
  revert k. induction d as [|d IH]; intros k Hl H; [by rewrite Nat.add_0_r|].
  rewrite (skipn_at l k) by lia. cbn -[skipn]. unfold of_turn at 1. rewrite (H k) by lia. rewrite Z.eqb_refl. cbn -[skipn].
  rewrite (IH (S k)); [by replace (S k + d)%nat with (k + S d)%nat by lia|lia|]. intros j Hj. apply H. lia.
Qed.

Lemma past_first_turn_fits l k c budget : positive l -> 0 <= budget -> (k <= c < length l)%nat ->
  (forall j, (k <= j <= c)%nat -> pe_turn (at_ l j) = pe_turn (at_ l c)) ->
  tokens (skipn c l) <= budget \/ S c = length l -> tokens (past_first_turn l k) <= budget.
Proof.
  intros Hp Hb Hk Ht Hc. unfold past_first_turn. rewrite (Ht k) by lia.
  rewrite (filter_past _ l (c - k) k) by (first [lia|intros j Hj; apply Ht; lia]). replace (k + (c - k))%nat with c by lia.
  destruct Hc as [Hc|Hc]; [pose proof (tokens_filter (fun e => negb (of_turn (pe_turn (at_ l c)) e)) (skipn c l) (positive_skipn c l Hp)); lia|].
  rewrite (skipn_at l c) by lia. cbn -[skipn]. unfold of_turn at 1. rewrite Z.eqb_refl. cbn -[skipn].
  rewrite skipn_all2 by lia. done.
Qed.

Definition turn_start (l : list PlanEntry) (k : nat) : Prop := k = O \/ exists k', k = S k' /\ pe_turn (at_ l k') <> pe_turn (at_ l k).

(** Where a walk from the end stops, moved back to the start of its turn. *)
Lemma snapped_spec l c budget : positive l -> 0 <= budget -> l <> [] -> (c <= length l)%nat -> tokens (skipn c l) <= budget ->
  let k := snap_to_turn_start l (if (length l <=? c)%nat then length l - 1 else c)%nat in
  (k < length l)%nat /\ (k <= c)%nat /\ turn_start l k /\ tokens (past_first_turn l k) <= budget.
Proof.
  intros Hp Hb Hne Hc Htok. set (c' := if _ : bool then _ else _). assert (length l <> 0)%nat as Hz by (by destruct l).
  assert (Hc' : (c' < length l)%nat /\ (c' <= c)%nat /\ (tokens (skipn c' l) <= budget \/ S c' = length l)).
  { unfold c'. destruct (Nat.leb_spec (length l) c); [split_all; [lia|lia|right; lia]|]. split_all; [lia|done|by left]. }
  destruct Hc' as (Hl & Hle & Hfit). destruct (snap_spec l c') as (H1 & H2 & H3). cbv zeta. split; [lia|]. split; [lia|]. split; [done|].
  apply (past_first_turn_fits l _ c'); [done|done|lia|done|done].
Qed.

Lemma plan_find_cut_spec l budget : positive l -> 0 <= budget -> l <> [] ->
  let k := plan_find_cut l budget in
  (k < length l)%nat /\ turn_start l k /\ tokens (past_first_turn l k) <= budget /\
  (tools_follow l = true -> forall k', k = S k' -> budget < tokens (skipn (snap_to_turn_start l k') l)).
Proof.
  intros Hp Hb Hne. unfold plan_find_cut. destruct (length l) as [|newest] eqn:El; [by destruct l|]. rewrite <- El.
  replace newest with (length l - 1)%nat by lia.
  pose proof (plan_cut_loop_spec l budget (length l) (length l)) as Hspec. rewrite skipn_all in Hspec.
  destruct Hspec as (H1 & H2 & H3); [done|done|cbn; lia|]. change (tokens []) with 0 in *. set (c := plan_cut_loop _ _ _ _ _) in *.
  destruct (snapped_spec l c budget Hp Hb Hne H1 H2) as (K1 & K2 & K3 & K4). set (k := snap_to_turn_start l _) in *.
  cbv zeta. split; [done|]. split; [done|]. split; [done|]. intros Ht k' Hk'.
  destruct H3 as [H0|(i & Hi & Hg)]; [lia|]. destruct (snap_spec l k') as (S1 & S2 & S3).
  assert (Hle : (snap_to_turn_start l k' <= group_start l i)%nat) by (apply group_within; [done|lia|done]).
  rewrite (skipn_split l (snap_to_turn_start l k') (group_start l i)) by done. rewrite tokens_app.
  pose proof (tokens_nonneg _ (positive_firstn (group_start l i - snap_to_turn_start l k') _ (positive_skipn (snap_to_turn_start l k') l Hp))). lia.
Qed.

Lemma keep_from_spec p target : positive (cp_entries p) -> 0 <= target ->
  let l := cp_entries p in
  let k := context_compaction_keep_from p target in
  k = O \/ (2 <= k < length l)%nat /\ turn_start l k /\ tokens (past_first_turn l k) <= target /\ target < tokens l.
Proof.
  intros Hp Ht. cbv zeta. unfold context_compaction_keep_from. set (l := cp_entries p) in *.
  destruct (length l) as [|newest] eqn:El; [by left|]. rewrite <- El. replace newest with (length l - 1)%nat by lia.
  pose proof (plan_keep_loop_spec l target (length l)) as Hspec. rewrite skipn_all in Hspec.
  destruct Hspec as (H1 & H2 & H3); [done|cbn; lia|]. change (tokens []) with 0 in *. set (c := plan_keep_loop _ _ _ _) in *.
  destruct (snapped_spec l c target Hp Ht ltac:(by destruct l) H1 H2) as (K1 & K2 & K3 & K4). set (k := snap_to_turn_start l _) in *.
  destruct (Nat.leb_spec k 1); [by left|]. right. split; [lia|]. split; [done|]. split; [done|].
  destruct H3 as [H0|(i & Hi & Hg)]; [lia|]. rewrite <- (firstn_skipn i l), tokens_app.
  pose proof (tokens_nonneg _ (positive_firstn i _ Hp)). lia.
Qed.

Lemma no_cut l budget : positive l -> 0 <= budget -> tokens l <= budget -> plan_find_cut l budget = O.
Proof.
  intros Hp Hb Hl. unfold plan_find_cut. destruct (length l) as [|newest] eqn:El; [done|]. rewrite <- El.
  pose proof (plan_cut_loop_spec l budget (length l) (length l)) as Hspec. rewrite skipn_all in Hspec.
  destruct Hspec as (_ & _ & [H0|(i & _ & Hg)]); [done|done|cbn; lia| |].
  - change (tokens []) with 0 in H0. rewrite H0. replace (length l <=? 0)%nat with false; [done|]. symmetry. apply Nat.leb_gt. lia.
  - exfalso. rewrite <- (firstn_skipn (group_start l i) l), tokens_app in Hl.
    pose proof (tokens_nonneg _ (positive_firstn (group_start l i) _ Hp)). lia.
Qed.

(** ** The entries of a plan *)
Definition plan_rows (k : Columns) (t : Store) (sid : Z) (suppressed : list Z) : list PlanEntry :=
  drop_suppressed suppressed (drop_failed false (map (plan_row k) (plan_branch t sid))).

Lemma drop_failed_sublist b l : drop_failed b l `sublist_of` l.
Proof.
  revert b. induction l as [|e l IH]; intros b; [done|]. cbn. destruct (plan_failed e); [by apply sublist_cons|].
  destruct (b && _); [by apply sublist_cons|by apply sublist_skip].
Qed.

Lemma filter_sublist_bool {A} (p : A -> bool) l : List.filter p l `sublist_of` l.
Proof. induction l as [|e l IH]; cbn; [done|]. destruct (p e); [by apply sublist_skip|by apply sublist_cons]. Qed.

Lemma plan_rows_sublist k t sid suppressed : plan_rows k t sid suppressed `sublist_of` map (plan_row k) (plan_branch t sid).
Proof. etrans; [apply filter_sublist_bool|apply drop_failed_sublist]. Qed.

Lemma drop_failed_ok b l : Forall (fun e => plan_failed e = false) (drop_failed b l).
Proof.
  revert b. induction l as [|e l IH]; intros b; [constructor|]. cbn. destruct (plan_failed e) eqn:E; [done|].
  destruct (b && _); [done|]. by constructor.
Qed.

Lemma plan_rows_positive k t sid suppressed : positive (plan_rows k t sid suppressed).
Proof.
  unfold positive. rewrite Forall_forall. intros e He.
  pose proof (elem_of_submseteq _ _ _ He (sublist_submseteq _ _ (plan_rows_sublist k t sid suppressed))) as Hx.
  apply list_elem_of_In, in_map_iff in Hx as (x & <- & _).
  cbn. destruct (_ <=? 0) eqn:E; lia.
Qed.

Lemma context_plan_some k t sid suppressed cfg overhead p : context_plan k t sid suppressed cfg overhead = Some p ->
  let l := plan_rows k t sid suppressed in
  let cut := plan_find_cut l (plan_effective cfg overhead) in
  plan_branch t sid <> [] /\
  p = mk_cplan (imap (fun i e => included ((cut <=? i)%nat || plan_pinned k t sid (pe_id e)) e) l) cut (plan_budget cfg).
Proof.
  unfold context_plan, plan_rows. destruct (get_session t sid) as [s|]; [|done]. destruct (x_leaf s <? 0); [done|].
  destruct (plan_branch t sid) as [|e l]; [done|]. intros [= <-]. done.
Qed.

(** (C25) What a request carries.  The rows planned are the branch in order without failed answers
    and suppressed entries; the cut falls between two turns; what is kept past its
    first turn fits what the tools and the prompt leave of the budget; where tool results are of
    the turn of their call, keeping one turn more would not fit; and a row goes into the
    request exactly when it is past the cut or pinned. *)
Theorem plan_correct k t sid suppressed cfg overhead p : context_plan k t sid suppressed cfg overhead = Some p ->
  let l := plan_rows k t sid suppressed in
  l `sublist_of` map (plan_row k) (plan_branch t sid) /\
  Forall (fun e => plan_failed e = false /\ (pe_id e ∉ suppressed)) l /\
  turn_start l (cp_cut p) /\
  (l <> [] -> (cp_cut p < length l)%nat) /\
  tokens (past_first_turn l (cp_cut p)) <= plan_effective cfg overhead /\
  (tools_follow l = true -> forall k', cp_cut p = S k' ->
     plan_effective cfg overhead < tokens (skipn (snap_to_turn_start l k') l)) /\
  forall i e, l !! i = Some e ->
    exists b, cp_entries p !! i = Some (included b e) /\ (b = true <-> (cp_cut p <= i)%nat \/ plan_pinned k t sid (pe_id e) = true).
Proof.
  intros [_ Hplan]%context_plan_some. cbv zeta. set (l := plan_rows k t sid suppressed) in *.
  assert (Hp : positive l) by apply plan_rows_positive. assert (Hb : 0 <= plan_effective cfg overhead) by (unfold plan_effective; lia).
  assert (Hspec : turn_start l (cp_cut p) /\ (l <> [] -> (cp_cut p < length l)%nat) /\
    tokens (past_first_turn l (cp_cut p)) <= plan_effective cfg overhead /\
    (tools_follow l = true -> forall k', cp_cut p = S k' -> plan_effective cfg overhead < tokens (skipn (snap_to_turn_start l k') l))).
  { rewrite Hplan. cbn [cp_cut]. destruct (decide (l = [])) as [->|Hne].
    - split; [by left|]. split; [done|]. split; [done|]. done.
    - destruct (plan_find_cut_spec l _ Hp Hb Hne) as (H1 & H2 & H3 & H4). by split_all. }
  destruct Hspec as (H1 & H2 & H3 & H4). split; [apply plan_rows_sublist|]. split; [|split; [done|split; [done|split; [done|split; [done|]]]]].
  - apply Forall_forall. intros e [He Hs]%elem_of_filter_bool. split.
    + pose proof (drop_failed_ok false (map (plan_row k) (plan_branch t sid))) as Hf. rewrite Forall_forall in Hf. by apply Hf.
    + intros Hin. apply negb_true_iff in Hs. apply Bool.not_true_iff_false in Hs. apply Hs, existsb_exists. exists (pe_id e).
      split; [by apply list_elem_of_In|apply Z.eqb_refl].
  - intros i e He. rewrite Hplan. cbn [cp_entries cp_cut]. rewrite list_lookup_imap, He. cbn. eexists. split; [done|].
    rewrite orb_true_iff, Nat.leb_le. done.
Qed.

(** ** The trigger and the cut *)
Lemma tokens_sublist a b : a `sublist_of` b -> positive b -> tokens a <= tokens b.
Proof.
  induction 1 as [|x a b _ IH|x a b _ IH]; [done| |]; intros [Hx Hb]%Forall_cons; specialize (IH Hb); cbn; unfold tokens in *; lia.
Qed.

Lemma entry_tokens_app k a b : entry_tokens k (a ++ b) = entry_tokens k a + entry_tokens k b.
Proof. unfold entry_tokens. induction a as [|e a IH]; cbn; [lia|]. rewrite IH. lia. Qed.

Lemma entry_tokens_rev k l : entry_tokens k (rev l) = entry_tokens k l.
Proof. induction l as [|e l IH]; [done|]. cbn [rev]. rewrite entry_tokens_app, IH. cbn. unfold entry_tokens. lia. Qed.

Lemma plan_row_tokens k l : Forall (fun e => 0 < k_tokens k (e_id e)) l ->
  positive (map (plan_row k) l) /\ tokens (map (plan_row k) l) = entry_tokens k l.
Proof.
  induction 1 as [|e l He _ [IH1 IH2]]; [by split; [constructor|]|]. cbn [map]. unfold tokens, entry_tokens in *. cbn [fold_right plan_row pe_tokens].
  rewrite (proj2 (Z.leb_gt _ _) He), IH2. split; [|done]. constructor; [|done]. cbn. by rewrite (proj2 (Z.leb_gt _ _) He).
Qed.

(** (C26) Compaction comes before the cut, when the cut's ceiling is not below the trigger's
    limit (which max_history_tokens can break, [history_cap_starves_compaction]; without
    it the two are the same share of the window) and every entry of the branch has a
    positive token estimate (the plan counts one without as 4, the trigger as 0).  Then a
    session that the trigger leaves alone has room for one more turn as large as its last
    one: after any such turn the plan of the next request, under the same head, cuts
    nothing. *)
Theorem trigger_before_cut k t t' sid suppressed cfg tcfg window head bodies p :
  tc_compaction tcfg = true -> session_needs_compaction k t sid tcfg window head bodies = false ->
  compaction_limit tcfg window <= plan_budget cfg ->
  Forall (fun e => 0 < k_tokens k (e_id e)) (plan_branch t' sid) ->
  entry_tokens k (plan_branch t' sid) <= entry_tokens k (plan_branch t sid) + entry_tokens k (turn_of_leaf (session_branch (length (t_entries t)) t sid)) ->
  context_plan k t' sid suppressed cfg head = Some p -> cp_cut p = O.
Proof.
  intros Hon Hno Hceil Hpos Hgrow [_ ->]%context_plan_some. cbn [cp_cut].
  unfold session_needs_compaction in Hno. rewrite Hon in Hno. unfold context_size in Hno. rewrite Z.gtb_ltb, Z.ltb_ge in Hno.
  unfold plan_branch at 2 in Hgrow. rewrite entry_tokens_rev in Hgrow. set (l0 := session_branch (length (t_entries t)) t sid) in *.
  destruct (plan_row_tokens k _ Hpos) as [Hp Ht]. pose proof (tokens_sublist _ _ (plan_rows_sublist k t' sid suppressed) Hp) as Hle. rewrite Ht in Hle.
  apply no_cut; [apply plan_rows_positive|unfold plan_effective; lia|]. unfold plan_effective. lia.
Qed.

(** ** Concrete plans *)
Section Demo.
Definition demo_entry (id parent turn role : Z) : Entry :=
  mk_entry id 1 parent turn None TOther role (Some (bs "x")) None None false 0 None None.
Definition demo_rows : list Entry :=
  [demo_entry 1 (-1) 1 1; demo_entry 2 1 1 2; demo_entry 3 2 1 3; demo_entry 4 3 1 2; demo_entry 5 4 2 1; demo_entry 6 5 2 2].
Definition demo_table (rows : list Entry) (leaf : Z) : Store :=
  mk_store 0 [mk_xsession 1 (Some (bs "a")) Idle 0 leaf (-1) None None None 0] rows 7 [] 1 [] [] 1 [] [] [] [] [] [] [].
Definition demo_columns : Columns := mk_columns (fun _ => 100) (fun id => if id =? 2 then 1 else 0) (fun _ => 0) (Z.eqb 3).
Definition demo_plan (share : Z) : option ContextPlan := context_plan demo_columns (demo_table demo_rows 6) 1 [] (mk_pconfig 0 share) 0.

(** The turn of the tool call does not fit whole, so it goes; its pinned result stays. *)
Lemma plan_correct_witness :
  exists p, demo_plan 256 = Some p /\ cp_cut p = 4%nat /\ map pe_include (cp_entries p) = [false; false; true; false; true; true] /\
    tokens (past_first_turn (plan_rows demo_columns (demo_table demo_rows 6) 1 []) (cp_cut p)) <= 256.
Proof.
  destruct (demo_plan 256) as [p|] eqn:E; [|vm_compute in E; discriminate E]. exists p. split; [done|].
  destruct (plan_correct _ _ _ _ _ _ _ E) as (_ & _ & _ & _ & Hfit & _).
  split; [vm_compute in E; injection E as <-; reflexivity|]. split; [vm_compute in E; injection E as <-; reflexivity|]. exact Hfit.
Defined.

Definition demo_trigger (share : Z) : TriggerConfig := mk_tconfig true (fun _ => share) 1000.

(** A turn of 400 tokens under a limit of 800: another of 200 fits. *)
Lemma trigger_before_cut_witness :
  session_needs_compaction demo_columns (demo_table (firstn 4 demo_rows) 4) 1 (demo_trigger 800) 1000 0 (fun _ => 0) = false /\
  exists p, demo_plan 800 = Some p /\ cp_cut p = O.
Proof.
  split; [vm_compute; reflexivity|]. destruct (demo_plan 800) as [p|] eqn:E; [|vm_compute in E; discriminate E]. exists p. split; [done|].
  apply (trigger_before_cut demo_columns (demo_table (firstn 4 demo_rows) 4) (demo_table demo_rows 6) 1 [] (mk_pconfig 0 800) (demo_trigger 800) 1000 0 (fun _ => 0) p).
  - reflexivity.
  - vm_compute. reflexivity.
  - vm_compute. discriminate.
  - apply Forall_forall. intros e _. cbn. lia.
  - vm_compute. discriminate.
  - exact E.
Defined.

(** The trigger does not look at max_history_tokens, which the cut obeys: below the
    threshold a session is cut at every request and never compacted. *)
Example history_cap_starves_compaction :
  session_needs_compaction demo_columns (demo_table demo_rows 6) 1 (demo_trigger 800) 1000 0 (fun _ => 0) = false /\
  option_map cp_cut (context_plan demo_columns (demo_table demo_rows 6) 1 [] (mk_pconfig 256 800) 0) = Some 4%nat.
Proof. vm_compute. split; reflexivity. Qed.

(** A pin on a tool result alone sends it without the call it answers. *)
Example pinned_result_without_call :
  option_map (fun p => map pe_id (List.filter pe_include (cp_entries p))) (demo_plan 256) = Some [3; 5; 6] /\
  map (fun e => (e_id e, e_role e)) (firstn 3 demo_rows) = [(1, ROLE_USER); (2, ROLE_ASSISTANT); (3, ROLE_TOOL)].
Proof. vm_compute. split; reflexivity. Qed.

(** A suppressed call leaves its result in the plan, without the call. *)
Example suppressed_call_orphans_result :
  option_map (fun p => map pe_role (cp_entries p)) (context_plan demo_columns (demo_table demo_rows 6) 1 [2] (mk_pconfig 0 8000) 0) =
  Some [1; 3; 2; 1; 2].
Proof. vm_compute. reflexivity. Qed.
End Demo.
