(* ===== verification/History.v ===== *)
(** * The history of a session: compaction and condensing

    The tree of entries of a session and the two operations that rewrite its branch: the
    compaction of src/llm_proc.c, which plans, asks the model for a summary and then
    writes it, and the tool of src/tool_session_condense.c, whose summary the agent writes.
    Both end in entry_compact of src/db.c ([Store]). *)
From stdpp Require Import relations.
From S2P Require Import Prelude CString Libc Ingest Store Advance Json1 ToolRequest ContextPlan.

(** ** Compaction *)
Definition COMPACTION_TEXT_MAX : Z := 100000.

Definition role_name (role : Z) : cstring :=
  if role =? 2 then bs "assistant" else if role =? 1 then bs "user" else if role =? 3 then bs "tool" else bs "system".

Definition excerpt_line (t : Store) (sid id : Z) : cstring :=
  match get_entry t id with
  | Some e =>
      if e_session e =? sid then
        match e_content e with Some c => bs "[" ++ role_name (e_role e) ++ bs "] " ++ c ++ bs "
" | None => [] end
      else []
  | None => []
  end.

Fixpoint excerpt (t : Store) (sid : Z) (l : list PlanEntry) (text : cstring) : cstring :=
  match l with
  | [] => text
  | e :: l => if zlen text <? COMPACTION_TEXT_MAX then excerpt t sid l (text ++ excerpt_line t sid (pe_id e)) else text
  end.

(** Nothing to do, an error, or a request with the two entries the summary goes between. *)
Inductive CompactionAttempt := AtSkip | AtError | AtCall (last_kept first_after : Z) (text : cstring).

Definition compaction_start (k : Columns) (t : Store) (sid : Z) (trigger : TriggerConfig) (window head : Z) (bodies : Z -> Z)
    (suppressed : list Z) (cfg : PlanConfig) (target : Z) : CompactionAttempt :=
  if negb (tc_compaction trigger) then AtError
  else if negb (session_needs_compaction k t sid trigger window head bodies) then AtSkip
  else
    let target_tokens := if target <=? 0 then 4000 else target in
    match context_plan k t sid suppressed cfg 0 with
    | None => AtError
    | Some plan =>
        match context_compaction_keep_from plan target_tokens with
        | O => AtSkip
        | keep_from =>
            let l := cp_entries plan in
            match excerpt t sid (firstn (keep_from - 1) (skipn 1 l)) [] with
            | [] => AtSkip
            | text => AtCall (pe_id (at_ l 0)) (pe_id (at_ l keep_from)) text
            end
        end
    end.

Definition with_coda (summary : cstring) (coda : option cstring) : cstring :=
  match coda with Some c => summary ++ bs "

" ++ c | None => summary end.

(** The answer of the model, if there is one; the coda is read after it. *)
Definition compaction_finish (t : Store) (sid last_kept first_after : Z) (summary coda : option cstring) : Z * Store :=
  match summary with
  | None => (-1, t)
  | Some s =>
      let (id, t) := entry_compact t sid last_kept first_after (with_coda s coda) in
      (if id >? 0 then 0 else -1, t)
  end.

(** ** Condensing *)
Section Condense.
Context {J : Json1} (cast_integer : cstring -> cstring).

Definition BRANCH_MAX : nat := Z.to_nat 100001.

Definition branch_load (t : Store) (sid : Z) : list (Z * Z) :=
  match get_session t sid with
  | Some s =>
      if x_leaf s <? 0 then []
      else map (fun e => (e_id e, e_turn e)) (rev (session_branch (Nat.min (length (t_entries t)) BRANCH_MAX) t sid))
  | None => []
  end.

(** The first row of one turn and the last of another. *)
Fixpoint range_scan (from_turn to_turn : Z) (i : nat) (rows : list (Z * Z)) (first last : option nat) : option nat * option nat :=
  match rows with
  | [] => (first, last)
  | (_, turn) :: rows =>
      range_scan from_turn to_turn (S i) rows
        (if (turn =? from_turn) && bool_decide (first = None) then Some i else first)
        (if turn =? to_turn then Some i else last)
  end.

Definition row_id (rows : list (Z * Z)) (i : nat) : Z := fst (nth i rows (0, 0)).
Definition row_turn (rows : list (Z * Z)) (i : nat) : Z := snd (nth i rows (0, 0)).

(** The two endpoints, or the refusal. *)
Definition condense_range (rows : list (Z * Z)) (from_turn to_turn : Z) : (nat * nat) + cstring :=
  let live := row_turn rows (length rows - 1) in
  match range_scan from_turn to_turn 0 rows None None with
  | (Some first, Some last) =>
      if to_turn >=? live then
        inr (bs "error: turn " ++ print_int live ++ bs " is the live turn " ++ EM_DASH ++
             bs " the turn you are in cannot be condensed; to_turn must be " ++ print_int (live - 1) ++ bs " or earlier")
      else if (first =? 0)%nat then
        inr (bs "error: turn " ++ print_int from_turn ++ bs " is the oldest turn in context " ++ EM_DASH ++
             bs " there is no earlier entry to attach the summary to")
      else if forallb (fun i => (from_turn <=? row_turn rows i) && (row_turn rows i <=? to_turn)) (seq first (S last - first))
      then inl (first, last)
      else inr (bs "error: turns " ++ print_int from_turn ++ bs "-" ++ print_int to_turn ++ bs " are not a contiguous range in this session")
  | (first, _) =>
      inr (bs "error: turn " ++ print_int (if bool_decide (first = None) then from_turn else to_turn) ++
           bs " is not in this session's context (turns present: 1.." ++ print_int live ++ bs ")")
  end.

(** [condense_commit]: one transaction, that [commits] or not. *)
Definition condense_commit (commits : bool) (t : Store) (sid last_kept first_after : Z) (content : cstring) : Z * Store :=
  if commits then entry_compact t sid last_kept first_after content else (-1, t).

Definition session_owner (t : Store) (sid : Z) : option cstring := match get_session t sid with Some s => x_agent s | None => None end.

(** The error flag, the text and the store. *)
Definition tool_session_condense_handler (commits : bool) (t : Store) (sid : Z) (agent : cstring) (args coda : option cstring)
    : bool * cstring * Store :=
  let from_turn := tool_args_int cast_integer args (bs "from_turn") (-1) in
  let to_turn := tool_args_int cast_integer args (bs "to_turn") (-1) in
  match tool_args_str args (bs "summary") with
  | None | Some [] =>
      (true, bs "error: 'summary' is required and must be non-empty " ++ EM_DASH ++ bs " it replaces the turns you are condensing", t)
  | Some summary =>
      if (from_turn <? 1) || (to_turn <? 1) then
        (true, bs "error: 'from_turn' and 'to_turn' are required turn_id values (>= 1)", t)
      else if from_turn >? to_turn then
        (true, bs "error: from_turn " ++ print_int from_turn ++ bs " is after to_turn " ++ print_int to_turn ++ bs " " ++ EM_DASH ++
               bs " the range runs oldest to newest", t)
      else
        let owner := session_owner t sid in
        if negb (bool_decide (owner = Some agent)) then
          (true, bs "error: session #" ++ print_int sid ++ bs " belongs to agent '" ++ default (bs "?") owner ++ bs "' " ++ EM_DASH ++
                 bs " you can only condense your own session", t)
        else
          match branch_load t sid with
          | [] => (true, bs "error: session #" ++ print_int sid ++ bs " has no context to condense", t)
          | rows =>
              match condense_range rows from_turn to_turn with
              | inr err => (true, err, t)
              | inl (first, last) =>
                  let (cid, t') := condense_commit commits t sid (row_id rows (first - 1)) (row_id rows (S last)) (with_coda summary coda) in
                  if cid <=? 0 then (true, bs "error: could not write the compaction entry (DB error)", t')
                  else
                    (false, snprintf 192 (bs "condensed turns " ++ print_int from_turn ++ bs "-" ++ print_int to_turn ++ bs " (" ++
                              print_int (Z.of_nat (S last - first)) ++ bs " entries) into compaction entry #" ++ print_int cid ++
                              bs "; those turns are no longer in context"), t')
              end
          end
  end.
End Condense.

(** ** Chains of parents *)
Fixpoint chain (g : Z -> option Entry) (id : Z) (l : list Entry) : Prop :=
  match l with
  | [] => g id = None
  | e :: l => g id = Some e /\ chain g (e_parent e) l
  end.

Lemma chain_unique g id l l' : chain g id l -> chain g id l' -> l = l'.
Proof.
  revert id l'. induction l as [|e l IH]; intros id [|e' l']; cbn; [done|intros -> [? _]; done|intros [-> _] ?; done|].
  intros [-> H1] [[= <-] H2]. f_equal. by apply (IH (e_parent e)).
Qed.

Definition keyed (g : Z -> option Entry) : Prop := forall i e, g i = Some e -> e_id e = i.

Lemma chain_head g id e l : keyed g -> chain g id (e :: l) -> e_id e = id.
Proof. intros Hk [H _]. by apply Hk. Qed.

Lemma chain_tail g id a e b : keyed g -> chain g id (a ++ e :: b) -> chain g (e_id e) (e :: b).
Proof.
  intros Hk. revert id. induction a as [|x a IH]; intros id; [intros H; by rewrite (chain_head g id e b Hk H)|].
  intros [_ H]. by apply (IH (e_parent x)).
Qed.

Lemma chain_in g id l e : keyed g -> chain g id l -> e ∈ l -> g (e_id e) = Some e.
Proof. intros Hk H He. apply list_elem_of_split in He as (a & b & ->). by destruct (chain_tail g id a e b Hk H). Qed.

Lemma chain_nodup g id l : keyed g -> chain g id l -> NoDup (map e_id l).
Proof.
  intros Hk. revert id. induction l as [|e l IH]; intros id H; [constructor|]. cbn [map]. constructor.
  - intros Hin. apply list_elem_of_In, in_map_iff in Hin as (x & Hx & Hin). apply list_elem_of_In, list_elem_of_split in Hin as (a & b & ->).
    pose proof (chain_tail g id (e :: a) x b Hk H) as Ht. rewrite Hx, (chain_head _ _ _ _ Hk H) in Ht.
    pose proof (chain_unique _ _ _ _ H Ht) as Heq. apply (f_equal length) in Heq. cbn in Heq. rewrite length_app in Heq. cbn in Heq. lia.
  - destruct H as [_ H]. by apply (IH (e_parent e)).
Qed.

(** Another table in which the chain is the same. *)
Lemma chain_frame g g' next id l : keyed g -> chain g id l -> id < next ->
  (forall e, e ∈ l -> g' (e_id e) = Some e /\ e_parent e < next) ->
  (forall i, i < next -> g i = None -> g' i = None) -> chain g' id l.
Proof.
  intros Hk. revert id. induction l as [|e l IH]; intros id H Hid Hl Hn; [by apply Hn|].
  pose proof (chain_head _ _ _ _ Hk H) as He. destruct H as [_ H]. destruct (Hl e) as [H1 H2]; [by left|]. rewrite He in H1. split; [done|].
  apply IH; [done|done| |done]. intros x Hx. apply Hl. by right.
Qed.

(** Another table in which an entry of the chain has another parent. *)
Lemma chain_replace g g' id a e e' b b' : keyed g -> chain g id (a ++ e :: b) ->
  (forall x, x ∈ a -> g' (e_id x) = Some x) -> g' (e_id e) = Some e' -> chain g' (e_parent e') b' -> chain g' id (a ++ e' :: b').
Proof.
  intros Hk. revert id. induction a as [|x a IH]; intros id H Ha He Hb.
  - pose proof (chain_head _ _ _ _ Hk H) as Hid. rewrite Hid in He. by split.
  - pose proof (chain_head _ _ _ _ Hk H) as Hid. destruct H as [_ H]. split; [rewrite <- Hid; apply Ha; by left|].
    apply IH; [done| |done|done]. intros y Hy. apply Ha. by right.
Qed.

Lemma chain_branch t n id l : chain (get_entry t) id l -> (length l <= n)%nat -> branch n t id = l.
Proof.
  revert n id. induction l as [|e l IH]; intros [|n] id H Hn; cbn in *; [done|by rewrite H|lia|].
  destruct H as [-> H]. f_equal. apply IH; [done|lia].
Qed.

(** ** The tree *)
Fixpoint descending (l : list Entry) : Prop :=
  match l with [] => True | e :: l => Forall (fun x => e_turn x <= e_turn e) l /\ descending l end.

Lemma descending_app a b : descending (a ++ b) <-> descending a /\ descending b /\ (forall x y, x ∈ a -> y ∈ b -> e_turn y <= e_turn x).
Proof.
  induction a as [|e a IH]; cbn.
  - split; [|tauto]. intros H. split_all; try done. intros x y Hx. by apply not_elem_of_nil in Hx.
  - rewrite IH, Forall_app, !Forall_forall. split.
    + intros ([H1 H2] & H3 & H4 & H5). split; [by split|]. split; [done|]. intros x y [->|Hx]%elem_of_cons Hy; [by apply H2|by apply H5].
    + intros ([H1 H2] & H3 & H4). split; [split; [done|]|]. { intros y Hy. apply H4; [by left|done]. }
      split; [done|]. split; [done|]. intros x y Hx. apply H4. by right.
Qed.

(** [l] is the branch of the session, leaf first: of the session, its turns in order, and the
    leaf of the newest turn of all its entries. *)
Record session_hist (t : Store) (sid : Z) (l : list Entry) : Prop := mk_shist {
  sh_chain : chain (get_entry t) (leaf_of t sid) l;
  sh_leaf : leaf_of t sid < t_next_entry t;
  sh_session : Forall (fun e => e_session e = sid) l;
  sh_turns : descending l;
  sh_newest : forall e0 l', l = e0 :: l' -> forall e, e ∈ t_entries t -> e_session e = sid -> e_turn e <= e_turn e0
}.

Record hist_ok (t : Store) : Prop := mk_hist_ok {
  ho_ids : NoDup (map e_id (t_entries t));
  ho_next : 0 < t_next_entry t;
  ho_below : forall e, e ∈ t_entries t -> 0 < e_id e < t_next_entry t /\ e_parent e < t_next_entry t;
  ho_branch : forall sid, exists l, session_hist t sid l
}.

Lemma get_entry_keyed t : keyed (get_entry t).
Proof. intros i e H. by apply get_entry_in in H as [_ H]. Qed.

Lemma get_entry_none t i e : get_entry t i = None -> e ∈ t_entries t -> e_id e <> i.
Proof. intros H He Hi. apply list_elem_of_In in He. apply (find_none _ _ H) in He. lia. Qed.

Lemma hist_length t sid l : session_hist t sid l -> (length l <= length (t_entries t))%nat.
Proof.
  intros H. rewrite <- (length_map e_id l), <- (length_map e_id (t_entries t)).
  apply submseteq_length, NoDup_submseteq; [by apply (chain_nodup _ _ _ (get_entry_keyed t) (sh_chain _ _ _ H))|].
  intros i Hi. apply list_elem_of_In, in_map_iff in Hi as (e & <- & He). apply list_elem_of_In in He.
  pose proof (chain_in _ _ _ _ (get_entry_keyed t) (sh_chain _ _ _ H) He) as Hg. apply get_entry_in in Hg as [Hg _].
  apply list_elem_of_In, in_map. by apply list_elem_of_In.
Qed.

(** The recursive query returns the branch, with any fuel from its length on. *)
Lemma hist_branch t sid l n : session_hist t sid l -> (length l <= n)%nat -> session_branch n t sid = l.
Proof.
  intros H Hn. pose proof (sh_chain _ _ _ H) as Hc. unfold session_branch. destruct l as [|e l]; [cbn in Hc; by rewrite Hc|].
  pose proof (chain_branch t n _ _ Hc Hn) as Hb. destruct Hc as [-> _]. pose proof (sh_session _ _ _ H) as Hs.
  apply Forall_cons in Hs as [-> _]. by rewrite Z.eqb_refl.
Qed.

Lemma hist_plan_branch t sid l : session_hist t sid l -> plan_branch t sid = rev l.
Proof. intros H. unfold plan_branch. f_equal. apply hist_branch; [done|]. by apply (hist_length t sid). Qed.

(** ** Appends *)
Lemma get_entry_insert t sid parent it ty role c call tool err stop src note i :
  get_entry (snd (insert_entry t sid parent it ty role c call tool err stop src note)) i =
  match get_entry t i with
  | Some e => Some e
  | None => if t_next_entry t =? i then
              Some (mk_entry (t_next_entry t) sid parent (turn_for t sid parent role) it ty role c call tool err stop src note)
            else None
  end.
Proof. unfold get_entry. rewrite insert_entry_entries, find_app. done. Qed.

Lemma get_entry_fresh t : hist_ok t -> forall i, t_next_entry t <= i \/ i <= 0 -> get_entry t i = None.
Proof.
  intros H i Hi. destruct (get_entry t i) as [e|] eqn:E; [|done]. apply get_entry_in in E as [He <-]. apply (ho_below _ H) in He. lia.
Qed.

Lemma turn_minted t sid e : e ∈ t_entries t -> e_session e = sid -> e_turn e <= max_of (map e_turn (session_entries t sid)).
Proof.
  intros He Hs. apply max_of_ge, list_elem_of_In, in_map, list_elem_of_In, elem_of_filter_bool. split; [done|]. by rewrite Hs, Z.eqb_refl.
Qed.

Lemma turn_for_newest t sid l role e : session_hist t sid l -> e ∈ t_entries t -> e_session e = sid ->
  e_turn e <= turn_for t sid (leaf_of t sid) role.
Proof.
  intros H He Hs. pose proof (turn_minted t sid e He Hs) as Hm. unfold turn_for. pose proof (sh_chain _ _ _ H) as Hc.
  destruct l as [|e0 l]; cbn in Hc; [rewrite Hc; lia|]. destruct Hc as [-> _]. destruct (_ && _); [lia|].
  by apply (sh_newest _ _ _ H e0 l).
Qed.

Lemma leaf_of_insert t sid parent it ty role c call tool err stop src note k : ty <> TCompaction ->
  leaf_of (snd (insert_entry t sid parent it ty role c call tool err stop src note)) k =
  if (k =? sid) && bool_decide (get_session t sid <> None) then t_next_entry t else leaf_of t k.
Proof.
  intros Hty. unfold leaf_of. rewrite insert_entry_get, bool_decide_false by done. cbn [negb]. rewrite andb_true_r.
  destruct (Z.eqb_spec k sid) as [->|Hne]; cbn [andb].
  - destruct (get_session t sid) as [s|] eqn:E; [by rewrite bool_decide_true by done|]. by rewrite bool_decide_false by (intros Hx; by apply Hx).
  - by destruct (get_session t k).
Qed.

Section Append.
Context (t : Store) (sid : Z) (it : option Z) (ty : EType) (role : Z) (c call tool : option cstring) (err : bool) (stop : Z) (src note : option cstring).
Context (Hty : ty <> TCompaction) (Hok : hist_ok t).
Let t' := snd (insert_entry t sid (leaf_of t sid) it ty role c call tool err stop src note).
Let new := mk_entry (t_next_entry t) sid (leaf_of t sid) (turn_for t sid (leaf_of t sid) role) it ty role c call tool err stop src note.

Lemma append_entries : t_entries t' = t_entries t ++ [new].
Proof. apply insert_entry_entries. Qed.

Lemma append_next : t_next_entry t' = t_next_entry t + 1.
Proof. unfold t'. by destruct (insert_entry_rest t sid (leaf_of t sid) it ty role c call tool err stop src note) as (_ & _ & _ & _ & _ & _ & -> & _). Qed.

Lemma append_chain k l : session_hist t k l -> chain (get_entry t') (leaf_of t k) l.
Proof.
  intros H. apply (chain_frame (get_entry t) _ (t_next_entry t)); [apply get_entry_keyed|apply (sh_chain _ _ _ H)|apply (sh_leaf _ _ _ H)| |].
  - intros e He. pose proof (chain_in _ _ _ _ (get_entry_keyed t) (sh_chain _ _ _ H) He) as Hg. unfold t'. rewrite get_entry_insert, Hg.
    split; [done|]. apply get_entry_in in Hg as [Hg _]. by apply (ho_below _ Hok).
  - intros i Hi Hg. unfold t'. rewrite get_entry_insert, Hg. by rewrite (proj2 (Z.eqb_neq _ _)) by lia.
Qed.

Lemma append_hist k l : session_hist t k l -> session_hist t' k (if (k =? sid) && bool_decide (get_session t sid <> None) then new :: l else l).
Proof.
  intros H. pose proof (append_chain k l H) as Hc. pose proof (leaf_of_insert t sid (leaf_of t sid) it ty role c call tool err stop src note k Hty) as Hl.
  fold t' in Hl. destruct ((k =? sid) && _) eqn:E.
  - apply andb_true_iff in E as [Ek%Z.eqb_eq _]. subst k. split.
    + rewrite Hl. split; [|done]. unfold t'. rewrite get_entry_insert, (get_entry_fresh t Hok), Z.eqb_refl by lia. done.
    + rewrite Hl, append_next. lia.
    + constructor; [done|apply (sh_session _ _ _ H)].
    + split; [|apply (sh_turns _ _ _ H)]. apply Forall_forall. intros e He. apply (turn_for_newest t sid l); [done| |].
      * pose proof (chain_in _ _ _ _ (get_entry_keyed t) (sh_chain _ _ _ H) He) as Hg. by apply get_entry_in in Hg as [Hg _].
      * pose proof (sh_session _ _ _ H) as Hs. rewrite Forall_forall in Hs. by apply Hs.
    + intros e0 l' [= <- <-] e. rewrite append_entries. intros [He| ->%list_elem_of_singleton]%elem_of_app Hs; [|done].
      by apply (turn_for_newest t sid l).
  - split; try apply H.
    + by rewrite Hl.
    + rewrite Hl, append_next. pose proof (sh_leaf _ _ _ H). lia.
    + intros e0 l' -> e. rewrite append_entries. intros [He| ->%list_elem_of_singleton]%elem_of_app Hs; [by apply (sh_newest _ _ _ H e0 l')|].
      cbn in Hs. subst k. rewrite Z.eqb_refl in E. cbn in E. apply bool_decide_eq_false in E.
      destruct (get_session t sid) as [s|] eqn:Es; [by destruct E|]. pose proof (sh_chain _ _ _ H) as [Hx _].
      unfold leaf_of in Hx. rewrite Es, (get_entry_fresh t Hok) in Hx by lia. done.
Qed.

Lemma append_ok : hist_ok t'.
Proof.
  split.
  - rewrite append_entries, map_app. apply NoDup_app. split; [apply (ho_ids _ Hok)|]. split; [|apply NoDup_singleton].
    intros i Hi Hx%list_elem_of_singleton. subst i. apply list_elem_of_In, in_map_iff in Hi as (e & Hid & He). apply list_elem_of_In, (ho_below _ Hok) in He.
    cbn in Hid. lia.
  - rewrite append_next. pose proof (ho_next _ Hok). lia.
  - rewrite append_entries, append_next. intros e [He| ->%list_elem_of_singleton]%elem_of_app; [pose proof (ho_below _ Hok e He); lia|].
    destruct (ho_branch _ Hok sid) as [l Hl]. pose proof (sh_leaf _ _ _ Hl). pose proof (ho_next _ Hok). cbn. lia.
  - intros k. destruct (ho_branch _ Hok k) as [l Hl]. eexists. by apply append_hist.
Qed.
End Append.

(** ** The summary *)
Lemma find_map {A} (p : A -> bool) (f : A -> A) l : (forall x, p (f x) = p x) -> List.find p (map f l) = option_map f (List.find p l).
Proof. intros H. induction l as [|x l IH]; cbn; [done|]. rewrite H. by destruct (p x). Qed.

Section Compact.
Context (t : Store) (sid : Z) (summary : cstring) (post mid pre : list Entry) (fa lk : Entry).
Context (Hok : hist_ok t) (Hh : session_hist t sid (post ++ fa :: mid ++ lk :: pre)).
Let t' := snd (entry_compact t sid (e_id lk) (e_id fa) summary).
Let c := mk_entry (t_next_entry t) sid (e_id lk) (e_turn lk) None TCompaction ROLE_COMPACTION (Some summary) None None false 0 None None.
Let f e := if (e_id e =? e_id fa) && (e_session e =? sid) then with_parent (t_next_entry t) e else e.

Lemma compact_in e : e ∈ post ++ fa :: mid ++ lk :: pre -> get_entry t (e_id e) = Some e /\ e_session e = sid /\ e ∈ t_entries t.
Proof.
  intros He. pose proof (chain_in _ _ _ _ (get_entry_keyed t) (sh_chain _ _ _ Hh) He) as Hg. split; [done|].
  pose proof (sh_session _ _ _ Hh) as Hs. rewrite Forall_forall in Hs. split; [by apply Hs|]. by apply get_entry_in in Hg as [Hg _].
Qed.

Lemma lk_in : lk ∈ post ++ fa :: mid ++ lk :: pre. Proof. set_solver. Qed.
Lemma fa_in : fa ∈ post ++ fa :: mid ++ lk :: pre. Proof. set_solver. Qed.

Lemma compact_turn : turn_for t sid (e_id lk) ROLE_COMPACTION = e_turn lk.
Proof. unfold turn_for. by rewrite (proj1 (compact_in lk lk_in)). Qed.

Lemma compact_id : fst (entry_compact t sid (e_id lk) (e_id fa) summary) = t_next_entry t.
Proof. done. Qed.

Lemma compact_entries : t_entries t' = map f (t_entries t ++ [c]).
Proof. unfold t', entry_compact, insert_entry, c. rewrite decide_True by done. cbn. by rewrite compact_turn. Qed.

Lemma compact_next : t_next_entry t' = t_next_entry t + 1.
Proof. unfold t', entry_compact, insert_entry. by rewrite decide_True by done. Qed.

Lemma compact_leaf k : leaf_of t' k = leaf_of t k.
Proof. unfold t', entry_compact, insert_entry. by rewrite decide_True by done. Qed.

Lemma f_id e : e_id (f e) = e_id e /\ e_session (f e) = e_session e /\ e_turn (f e) = e_turn e.
Proof. unfold f. by destruct (_ && _). Qed.

Lemma f_other e : e_id e <> e_id fa -> f e = e.
Proof. intros H. unfold f. by rewrite (proj2 (Z.eqb_neq _ _)) by done. Qed.

Lemma compact_get i : get_entry t' i = option_map f (match get_entry t i with Some e => Some e | None => if t_next_entry t =? i then Some c else None end).
Proof.
  unfold get_entry. rewrite compact_entries, find_map by (intros x; by rewrite (proj1 (f_id x))). by rewrite find_app.
Qed.

Lemma fa_below : 0 < e_id fa < t_next_entry t.
Proof. destruct (compact_in fa fa_in) as (_ & _ & H). apply (ho_below _ Hok _ H). Qed.

Lemma compact_keeps e : e_id e <> e_id fa -> get_entry t (e_id e) = Some e -> get_entry t' (e_id e) = Some e.
Proof. intros Hne Hg. rewrite compact_get, Hg. cbn. by rewrite f_other. Qed.

Lemma compact_missing i : i < t_next_entry t -> get_entry t i = None -> get_entry t' i = None.
Proof. intros Hi Hg. rewrite compact_get, Hg. by rewrite (proj2 (Z.eqb_neq _ _)) by lia. Qed.

Lemma compact_parent e : get_entry t (e_id e) = Some e -> e_parent e < t_next_entry t.
Proof. intros [Hg _]%get_entry_in. by apply (ho_below _ Hok). Qed.

Lemma compact_other k l : k <> sid -> session_hist t k l -> session_hist t' k l.
Proof.
  intros Hk H. pose proof (sh_session _ _ _ H) as Hs. rewrite Forall_forall in Hs.
  split; [| |by apply Forall_forall|apply H|].
  - rewrite compact_leaf. apply (chain_frame (get_entry t) _ (t_next_entry t)); [apply get_entry_keyed|apply H|apply H| |by apply compact_missing].
    intros e He. pose proof (chain_in _ _ _ _ (get_entry_keyed t) (sh_chain _ _ _ H) He) as Hg. split; [|by apply compact_parent].
    apply compact_keeps; [|done]. intros Hi. rewrite Hi, (proj1 (compact_in fa fa_in)) in Hg. injection Hg as <-.
    apply Hk. by rewrite <- (Hs fa He), (proj1 (proj2 (compact_in fa fa_in))).
  - rewrite compact_leaf, compact_next. pose proof (sh_leaf _ _ _ H). lia.
  - intros e0 l' -> e. rewrite compact_entries. intros (x & -> & Hx)%list_elem_of_fmap. destruct (f_id x) as (_ & -> & ->).
    apply elem_of_app in Hx as [Hx| ->%list_elem_of_singleton]; [by apply (sh_newest _ _ _ H e0 l')|]. cbn. congruence.
Qed.

Lemma compact_apart e : e ∈ post \/ e ∈ lk :: pre -> e_id e <> e_id fa.
Proof.
  pose proof (chain_nodup _ _ _ (get_entry_keyed t) (sh_chain _ _ _ Hh)) as Hnd. rewrite map_app in Hnd. cbn [map] in Hnd.
  apply NoDup_app in Hnd as (_ & H1 & H2). apply NoDup_cons in H2 as [H2 _]. intros [He|He] Hi.
  - apply (H1 (e_id e)); [by apply list_elem_of_fmap_2|]. rewrite Hi. by left.
  - apply H2. rewrite map_app. apply elem_of_app. right. rewrite <- Hi. by apply list_elem_of_fmap_2.
Qed.

Lemma compact_chain : chain (get_entry t') (leaf_of t' sid) (post ++ with_parent (t_next_entry t) fa :: c :: lk :: pre).
Proof.
  rewrite compact_leaf. apply (chain_replace (get_entry t) _ _ _ fa _ (mid ++ lk :: pre)); [apply get_entry_keyed|apply Hh| | |].
  - intros x Hx. apply compact_keeps; [apply compact_apart; by left|]. apply compact_in. set_solver.
  - rewrite compact_get, (proj1 (compact_in fa fa_in)). cbn. unfold f. rewrite Z.eqb_refl, (proj1 (proj2 (compact_in fa fa_in))), Z.eqb_refl. done.
  - split.
    + cbn [e_parent with_parent]. rewrite compact_get, (get_entry_fresh t Hok), Z.eqb_refl by lia. cbn [option_map]. f_equal.
      apply f_other. cbn. pose proof fa_below. lia.
    + cbn [e_parent c]. pose proof (sh_chain _ _ _ Hh) as Hc. rewrite (app_comm_cons mid), app_assoc in Hc.
      apply chain_tail in Hc; [|apply get_entry_keyed].
      apply (chain_frame (get_entry t) _ (t_next_entry t)); [apply get_entry_keyed|done|apply (ho_below _ Hok), compact_in, lk_in| |by apply compact_missing].
      intros e He. assert (get_entry t (e_id e) = Some e) as Hg by (apply compact_in, elem_of_app; right; right; apply elem_of_app; by right).
      split; [|by apply compact_parent]. apply compact_keeps; [|done]. apply compact_apart. by right.
Qed.

Lemma compact_hist : session_hist t' sid (post ++ with_parent (t_next_entry t) fa :: c :: lk :: pre).
Proof.
  pose proof (sh_turns _ _ _ Hh) as Hd. apply descending_app in Hd as (D1 & D2 & D3).
  pose proof D2 as D2'. rewrite app_comm_cons in D2'. apply descending_app in D2' as (_ & D4 & D5).
  pose proof (sh_session _ _ _ Hh) as Hs. rewrite Forall_app, Forall_cons, Forall_app in Hs. destruct Hs as (S1 & S2 & _ & S3).
  split; [apply compact_chain| | | |].
  - rewrite compact_leaf, compact_next. pose proof (sh_leaf _ _ _ Hh). lia.
  - apply Forall_app. split; [done|]. constructor; [done|]. by constructor.
  - apply descending_app. split; [done|]. split.
    + cbn [descending]. split; [|split; [|done]].
      * cbn [with_parent e_turn]. apply Forall_forall. intros y Hy. assert (y = c \/ y ∈ lk :: pre) as [->|Hy'] by set_solver; [apply (D5 fa lk); by left|].
        apply D5; [by left|done].
      * cbn [c e_turn]. destruct D4 as [D4 _]. constructor; [done|done].
    + intros x y Hx Hy. apply elem_of_cons in Hy as [->|Hy]; [apply (D3 x fa Hx); by left|].
      apply elem_of_cons in Hy as [->|Hy]; [apply (D3 x lk Hx)|apply (D3 x y Hx)]; right; apply elem_of_app; right; [by left|done].
  - intros e0 l' El e. rewrite compact_entries. intros (x & -> & Hx)%list_elem_of_fmap. destruct (f_id x) as (_ & -> & ->). intros Hxs.
    assert (exists e1 l1, post ++ fa :: mid ++ lk :: pre = e1 :: l1 /\ e_turn e1 = e_turn e0) as (e1 & l1 & El1 & <-).
    { destruct post as [|p post']; cbn in El |- *; injection El as <- _; by eexists _, _. }
    apply elem_of_app in Hx as [Hx| ->%list_elem_of_singleton]; [by apply (sh_newest _ _ _ Hh e1 l1)|]. cbn [c e_turn].
    apply (sh_newest _ _ _ Hh e1 l1 El1); apply compact_in, lk_in.
Qed.

Lemma compact_content : option_map e_content (get_entry t' (t_next_entry t)) = Some (Some summary).
Proof.
  pose proof (chain_in _ _ _ c (get_entry_keyed t') (sh_chain _ _ _ compact_hist)) as Hc. cbn [e_id c] in Hc. rewrite Hc; [done|].
  apply elem_of_app. right. right. by left.
Qed.

Lemma compact_ok : hist_ok t'.
Proof.
  split.
  - rewrite compact_entries, map_map. erewrite map_ext; [|intros x; apply f_id]. rewrite map_app. apply NoDup_app. split; [apply (ho_ids _ Hok)|].
    split; [|apply NoDup_singleton]. intros i (e & -> & He)%list_elem_of_fmap Hx%list_elem_of_singleton. apply (ho_below _ Hok) in He. cbn in Hx. lia.
  - rewrite compact_next. pose proof (ho_next _ Hok). lia.
  - rewrite compact_entries, compact_next. intros e (x & -> & Hx)%list_elem_of_fmap. rewrite (proj1 (f_id x)).
    assert (0 < e_id x < t_next_entry t + 1 /\ e_parent x < t_next_entry t + 1) as [H1 H2].
    { apply elem_of_app in Hx as [Hx| ->%list_elem_of_singleton]; [pose proof (ho_below _ Hok x Hx); lia|].
      pose proof (ho_next _ Hok). pose proof (ho_below _ Hok lk (proj2 (proj2 (compact_in lk lk_in)))). cbn. lia. }
    split; [done|]. unfold f. destruct (_ && _); [cbn; lia|done].
  - intros k. destruct (decide (k = sid)) as [->|Hk]; [eexists; apply compact_hist|]. destruct (ho_branch _ Hok k) as [l Hl]. exists l. by apply compact_other.
Qed.
End Compact.

(** ** Where a summary goes *)
(** [a] and [b] are entries of the branch, [b] leafward of [a], with entries between them. *)
Definition spot (t : Store) (sid a b : Z) : Prop :=
  exists post fa mid lk pre, session_hist t sid (post ++ fa :: mid ++ lk :: pre) /\ e_id fa = b /\ e_id lk = a /\ mid <> [].

Lemma sublist_map {A B} (f : A -> B) l k : l `sublist_of` k -> map f l `sublist_of` map f k.
Proof. induction 1; cbn; [done|by apply sublist_skip|by apply sublist_cons]. Qed.

Lemma sublist_two {A} (x y : A) b c l : x :: b ++ y :: c `sublist_of` l ->
  exists l1 l2 l3, l = l1 ++ x :: l2 ++ y :: l3 /\ b `sublist_of` l2.
Proof.
  intros (l1 & l' & -> & H)%sublist_cons_l. apply sublist_app_l in H as (k1 & k2 & -> & H1 & H2).
  apply sublist_cons_l in H2 as (k3 & k4 & -> & H2). exists l1, (k1 ++ k3), k4. rewrite <- app_assoc. split; [done|].
  by apply sublist_inserts_r.
Qed.

Lemma spot_of_ids t sid l a b m r : session_hist t sid l -> a :: m ++ b :: r `sublist_of` map e_id (rev l) -> m <> [] -> spot t sid a b.
Proof.
  intros H (l1 & l2 & l3 & El & Hm)%sublist_two Hne. apply map_eq_app in El as (r1 & r2 & Er & <- & E2).
  apply map_eq_cons in E2 as (lk & r3 & -> & <- & E3). apply map_eq_app in E3 as (mid & r4 & -> & <- & E4).
  apply map_eq_cons in E4 as (fa & r5 & -> & <- & <-). apply (f_equal (@rev _)) in Er. rewrite rev_involutive in Er.
  exists (rev r5), fa, (rev mid), lk, (rev r1). split; [|split; [done|split; [done|]]].
  - rewrite Er in H. rewrite rev_app_distr in H. cbn [rev] in H. rewrite rev_app_distr in H. cbn [rev] in H. by rewrite <- !app_assoc in H.
  - intros Hz. apply (f_equal (@rev _)) in Hz. rewrite rev_involutive in Hz. cbn in Hz. rewrite Hz in Hm. cbn in Hm. by apply sublist_nil_r in Hm.
Qed.

Lemma plan_ids k t sid suppressed cfg overhead p : context_plan k t sid suppressed cfg overhead = Some p ->
  map pe_id (cp_entries p) `sublist_of` map e_id (plan_branch t sid) /\ positive (cp_entries p).
Proof.
  intros [_ ->]%context_plan_some. cbn [cp_entries]. set (cut := plan_find_cut _ _). pose proof (plan_rows_positive k t sid suppressed) as Hp.
  split.
  - replace (map pe_id (imap _ _)) with (map pe_id (plan_rows k t sid suppressed)).
    + replace (map e_id (plan_branch t sid)) with (map pe_id (map (plan_row k) (plan_branch t sid))) by (by rewrite map_map).
      apply sublist_map, plan_rows_sublist.
    + apply list_eq. intros i. change (map pe_id) with (fmap (M := list) pe_id). rewrite !list_lookup_fmap, list_lookup_imap.
      by destruct (plan_rows k t sid suppressed !! i).
  - unfold positive in *. apply Forall_lookup. intros i e He. rewrite list_lookup_imap in He.
    destruct (plan_rows k t sid suppressed !! i) as [x|] eqn:Ex; [|done]. injection He as <-. rewrite Forall_lookup in Hp. exact (Hp i x Ex).
Qed.

(** A compaction that asks for a summary has a place for it. *)
Lemma compaction_spot k t sid trigger window head bodies suppressed cfg target a b text :
  hist_ok t -> compaction_start k t sid trigger window head bodies suppressed cfg target = AtCall a b text -> spot t sid a b.
Proof.
  intros Hok. unfold compaction_start. destruct (negb _); [done|]. destruct (negb _); [done|].
  destruct (context_plan _ _ _ _ _ _) as [p|] eqn:Ep; [|done]. destruct (plan_ids _ _ _ _ _ _ _ Ep) as [Hids Hp].
  set (target' := if target <=? 0 then 4000 else target).
  assert (Ht : 0 <= target') by (unfold target'; destruct (Z.leb_spec target 0); lia).
  destruct (keep_from_spec p target' Hp Ht) as [H0|(Hk & _)]; [by rewrite H0|].
  destruct (context_compaction_keep_from p target') as [|k'] eqn:Ek; [lia|]. rewrite <- Ek in *. set (kf := context_compaction_keep_from p target') in *.
  destruct (excerpt _ _ _ _) as [|t0 text0] eqn:Et; [done|]. intros [= <- <- _]. destruct (ho_branch _ Hok sid) as [l Hl].
  rewrite (hist_plan_branch t sid l Hl) in Hids. set (es := cp_entries p) in *.
  apply (spot_of_ids t sid l _ _ (map pe_id (firstn (kf - 1) (skipn 1 es))) (map pe_id (skipn (S kf) es)) Hl).
  - replace (_ :: _ ++ _ :: _) with (map pe_id es); [done|]. change es with (skipn 0 es) at 1. rewrite (skipn_at es 0) by lia.
    cbn [map]. f_equal. rewrite (skipn_split es 1 kf) at 1 by lia. rewrite map_app, (skipn_at es kf) by lia. done.
  - intros Hz. apply (f_equal length) in Hz. rewrite length_map, length_firstn, length_skipn in Hz. cbn in Hz. lia.
Qed.

(** ** The range of a condense *)
Lemma elem_of_rev {A} (x : A) l : x ∈ rev l <-> x ∈ l.
Proof. by rewrite !list_elem_of_In, <- in_rev. Qed.

Definition row (e : Entry) : Z * Z := (e_id e, e_turn e).
Definition turns_before (turn : Z) (l : list Entry) : list Entry := List.filter (fun e => e_turn e <? turn) l.
Definition after (turn : Z) (l : list Entry) : list Entry := List.filter (fun e => turn <? e_turn e) l.
Definition within (a b : Z) (l : list Entry) : list Entry := List.filter (fun e => (a <=? e_turn e) && (e_turn e <=? b)) l.

Lemma descending_split a b l : descending l -> a <= b -> l = after b l ++ within a b l ++ turns_before a l.
Proof.
  intros Hd Hab. induction l as [|e l IH]; [done|]. destruct Hd as [He Hd]. specialize (IH Hd). rewrite Forall_forall in He.
  cbn -[List.filter]. unfold after, within, turns_before in *. cbn [List.filter].
  destruct (Z.ltb_spec b (e_turn e)); [replace ((a <=? e_turn e) && (e_turn e <=? b)) with false by lia; replace (e_turn e <? a) with false by lia; cbn; by f_equal|].
  rewrite (filter_none (fun x => b <? e_turn x)) in * by (intros x Hx; apply He in Hx; lia).
  destruct (Z.ltb_spec (e_turn e) a).
  - replace ((a <=? e_turn e) && (e_turn e <=? b)) with false by lia.
    rewrite (filter_none (fun x => (a <=? e_turn x) && (e_turn x <=? b))) in * by (intros x Hx; apply He in Hx; lia). cbn in *. by f_equal.
  - replace ((a <=? e_turn e) && (e_turn e <=? b)) with true by lia. cbn in *. by f_equal.
Qed.

Lemma scan_app a b i r1 r2 f lst :
  range_scan a b i (r1 ++ r2) f lst =
  let '(f', lst') := range_scan a b i r1 f lst in range_scan a b (i + length r1) r2 f' lst'.
Proof.
  revert i f lst. induction r1 as [|[id turn] r1 IH]; intros i f lst; cbn -[bool_decide]; [by rewrite Nat.add_0_r|].
  rewrite IH. by rewrite Nat.add_succ_r.
Qed.

Lemma scan_none a b i r f lst : Forall (fun x => snd x <> a /\ snd x <> b) r -> range_scan a b i r f lst = (f, lst).
Proof.
  intros H. revert i. induction H as [|[id turn] r [H1 H2] _ IH]; intros i; cbn -[bool_decide]; [done|]. cbn in H1, H2.
  rewrite (proj2 (Z.eqb_neq _ _) H1), (proj2 (Z.eqb_neq _ _) H2). apply IH.
Qed.

Lemma scan_found a b i r x lst : fst (range_scan a b i r (Some x) lst) = Some x.
Proof. revert i lst. induction r as [|[id turn] r IH]; intros i lst; cbn -[bool_decide]; [done|]. rewrite (bool_decide_false (Some x = None)) by done. rewrite andb_false_r. apply IH. Qed.

Lemma scan_absent a b i r f lst :
  (Forall (fun x => snd x <> a) r -> fst (range_scan a b i r f lst) = f) /\ (Forall (fun x => snd x <> b) r -> snd (range_scan a b i r f lst) = lst).
Proof.
  revert i f lst. induction r as [|[id turn] r IH]; intros i f lst; cbn -[bool_decide]; [done|].
  split; intros [H1 H2]%Forall_cons; cbn in H1; rewrite (proj2 (Z.eqb_neq _ _) H1); by apply IH.
Qed.

(** The rows of a range, from the first of one turn to the last of another. *)
Lemma scan_range a b pre m mid z suf : snd m = a -> snd z = b -> m :: mid = removelast (m :: mid) ++ [z] ->
  Forall (fun x => snd x < a) pre -> Forall (fun x => b < snd x) suf -> a <= b ->
  range_scan a b 0 (pre ++ (m :: mid) ++ suf) None None = (Some (length pre), Some (length pre + length mid)%nat).
Proof.
  intros Hm Hz Hl Hpre Hsuf Hab. rewrite scan_app, scan_none by (eapply Forall_impl; [done|]; cbn; intros x Hx; lia). rewrite scan_app.
  assert (Hf : fst (range_scan a b (0 + length pre) (m :: mid) None None) = Some (length pre)).
  { destruct m as [id turn]. cbn [snd] in Hm. subst turn. cbn -[bool_decide]. rewrite Z.eqb_refl. apply scan_found. }
  assert (Hs : snd (range_scan a b (0 + length pre) (m :: mid) None None) = Some (length pre + length mid)%nat).
  { rewrite Hl, scan_app. destruct (range_scan _ _ _ (removelast _) _ _) as [f' l']. destruct z as [id turn]. cbn [snd] in Hz. subst turn.
    cbn -[bool_decide removelast]. rewrite Z.eqb_refl. cbn [snd]. f_equal. apply (f_equal length) in Hl. rewrite length_app in Hl. cbn [length] in Hl. lia. }
  destruct (range_scan _ _ _ (m :: mid) _ _) as [f' l']. cbn in Hf, Hs. subst f' l'.
  apply scan_none. eapply Forall_impl; [done|]. cbn. intros x Hx. lia.
Qed.

Definition present (turn : Z) (l : list Entry) : bool := existsb (fun e => e_turn e =? turn) l.

Lemma present_in turn l : present turn l = true <-> exists e, e ∈ l /\ e_turn e = turn.
Proof.
  unfold present. rewrite existsb_exists. split; intros (e & He & Ht); exists e; [rewrite list_elem_of_In; split; [done|lia]|rewrite <- list_elem_of_In; split; [done|lia]].
Qed.

Lemma present_rows turn l : present turn l = false -> Forall (fun x => snd x <> turn) (map row (rev l)).
Proof.
  intros H. apply Forall_forall. intros x (e & -> & He)%list_elem_of_fmap. cbn. intros Ht.
  apply Bool.not_true_iff_false in H. apply H, present_in. exists e. split; [|done]. by apply elem_of_rev.
Qed.

(** The turns from [a] to [b], its ends of just those turns. *)
Lemma within_ends l a b : descending l -> a <= b -> present a l = true -> present b l = true ->
  exists z m m' z', within a b l = z :: z' /\ within a b l = m' ++ [m] /\ e_turn z = b /\ e_turn m = a.
Proof.
  intros Hd Hab (ea & Ha & Ta)%present_in (eb & Hb & Tb)%present_in.
  assert (Hina : ea ∈ within a b l) by (apply elem_of_filter_bool; split; [done|lia]).
  assert (Hinb : eb ∈ within a b l) by (apply elem_of_filter_bool; split; [done|lia]).
  rewrite (descending_split a b l Hd Hab) in Hd. apply descending_app in Hd as (_ & Hd & _). apply descending_app in Hd as (Hd & _ & _).
  assert (Hw : forall x, x ∈ within a b l -> a <= e_turn x <= b) by (intros x [_ Hx]%elem_of_filter_bool; lia).
  set (M := within a b l) in *. destruct M as [|z z'] eqn:Em; [by apply not_elem_of_nil in Hina|].
  destruct (exists_last (l := z :: z') ltac:(done)) as (m' & m & El). exists z, m, m', z'. split; [done|]. split; [done|]. split.
  - destruct Hd as [Hd _]. rewrite Forall_forall in Hd. pose proof (Hw z ltac:(by left)).
    apply elem_of_cons in Hinb as [->|Hinb]; [done|]. apply Hd in Hinb. lia.
  - rewrite El in Hd. apply descending_app in Hd as (_ & _ & Hd). assert (Hm : m ∈ z :: z') by (rewrite El; apply elem_of_app; right; by left).
    pose proof (Hw m Hm). rewrite El in Hina. apply elem_of_app in Hina as [Hina|Hina%list_elem_of_singleton]; [|by subst ea].
    pose proof (Hd ea m Hina ltac:(by left)). lia.
Qed.

Definition condensable (l : list Entry) (from_turn to_turn : Z) : bool :=
  match l with
  | [] => false
  | leaf :: _ => present from_turn l && present to_turn l && (to_turn <? e_turn leaf) && existsb (fun e => e_turn e <? from_turn) l
  end.

Lemma live_row e l : row_turn (map row (rev (e :: l))) (length (map row (rev (e :: l))) - 1) = e_turn e.
Proof.
  unfold row_turn. cbn [rev]. rewrite map_app, length_app. cbn [map length].
  rewrite app_nth2 by lia. by replace (length (map row (rev l)) + 1 - 1 - length (map row (rev l)))%nat with O by lia.
Qed.

Lemma condense_range_spec l a b : descending l -> l <> [] -> a <= b ->
  if condensable l a b then
    condense_range (map row (rev l)) a b = inl (length (turns_before a l), length (turns_before a l) + length (within a b l) - 1)%nat
  else exists err, condense_range (map row (rev l)) a b = inr err.
Proof.
  intros Hd Hne Hab. destruct l as [|leaf l']; [done|]. pose proof (live_row leaf l') as Hlive. set (l := leaf :: l') in *. unfold condense_range. rewrite Hlive.
  change (condensable l a b) with (present a l && present b l && (b <? e_turn leaf) && existsb (fun e => e_turn e <? a) l).
  destruct (present a l) eqn:Pa; cbn [andb].
  2: { destruct (range_scan _ _ _ _ _ _) as [f' lst'] eqn:Es. pose proof (proj1 (scan_absent a b 0 (map row (rev l)) None None) (present_rows a l Pa)) as H.
       rewrite Es in H. cbn in H. subst f'. by eexists. }
  destruct (present b l) eqn:Pb; cbn [andb].
  2: { destruct (range_scan _ _ _ _ _ _) as [f' lst'] eqn:Es. pose proof (proj2 (scan_absent a b 0 (map row (rev l)) None None) (present_rows b l Pb)) as H.
       rewrite Es in H. cbn in H. subst lst'. destruct f'; by eexists. }
  destruct (within_ends l a b Hd Hab Pa Pb) as (z & m & m' & z' & Ez & Em & Tz & Tm).
  assert (Hrows : map row (rev l) = map row (rev (turns_before a l)) ++ (row m :: map row (rev m')) ++ map row (rev (after b l))).
  { rewrite (descending_split a b l Hd Hab) at 1. rewrite Em, !rev_app_distr, !map_app. cbn [rev map app]. by rewrite <- app_assoc. }
  assert (Hlen : length (within a b l) = S (length m')) by (rewrite Em, length_app; cbn; lia).
  rewrite Hrows, (scan_range a b _ (row m) (map row (rev m')) (row z)); try done.
  2: { assert (Hzm : row m :: map row (rev m') = map row (rev z') ++ [row z]).
       { change (row m :: map row (rev m')) with (map row (rev [m] ++ rev m')). rewrite <- rev_app_distr, <- Em, Ez. cbn [rev]. by rewrite map_app. }
       rewrite Hzm. by rewrite removelast_last. }
  2, 3: apply Forall_forall; intros x (e & -> & He)%list_elem_of_fmap; apply (proj1 (elem_of_rev _ _)) in He;
    apply elem_of_filter_bool in He as [_ He]; cbn; lia.
  rewrite !length_map, !length_rev. rewrite Z.geb_leb. destruct (Z.leb_spec (e_turn leaf) b); [replace (b <? e_turn leaf) with false by lia; by eexists|].
  replace (b <? e_turn leaf) with true by lia. cbn [andb].
  assert (Hb : existsb (fun e => e_turn e <? a) l = negb (length (turns_before a l) =? 0)%nat).
  { unfold turns_before. clear. induction l as [|e l IH]; [done|]. cbn. by destruct (e_turn e <? a). }
  rewrite Hb. destruct (length (turns_before a l) =? 0)%nat; cbn [negb]; [by eexists|].
  rewrite (proj2 (forallb_forall _ _)).
  - by rewrite Hlen, Nat.add_succ_r, Nat.sub_succ, Nat.sub_0_r.
  - intros i Hi%in_seq. unfold row_turn. rewrite app_nth2 by (rewrite length_map, length_rev; lia). rewrite length_map, length_rev.
    rewrite app_nth1 by (cbn [length]; rewrite length_map, length_rev; lia).
    assert (Hin : nth (i - length (turns_before a l)) (row m :: map row (rev m')) (0, 0) ∈ map row (within a b l)).
    { rewrite list_elem_of_In. apply (Permutation_in (l := row m :: map row (rev m'))).
      - rewrite Em, map_app. cbn. rewrite <- Permutation_cons_append, <- Permutation_rev. done.
      - apply nth_In. cbn [length]. rewrite length_map, length_rev. lia. }
    apply list_elem_of_fmap in Hin as (e & -> & [_ He]%elem_of_filter_bool). done.
Qed.

Lemma row_ids post fa mid lk pre :
  let rows := map row (rev (post ++ fa :: mid ++ lk :: pre)) in
  row_id rows (length pre) = e_id lk /\ row_id rows (S (length pre) + length mid) = e_id fa.
Proof.
  cbv zeta. unfold row_id. rewrite !rev_app_distr, !map_app. cbn [rev]. rewrite !rev_app_distr, !map_app. cbn [rev]. rewrite !map_app. cbn [map].
  rewrite <- !app_assoc. cbn [app]. split.
  - rewrite app_nth2 by (rewrite length_map, length_rev; lia). rewrite length_map, length_rev. by rewrite Nat.sub_diag.
  - rewrite app_nth2 by (rewrite length_map, length_rev; lia). rewrite length_map, length_rev.
    replace (S (length pre) + length mid - length pre)%nat with (S (length mid)) by lia. cbn [nth].
    rewrite app_nth2 by (rewrite length_map, length_rev; lia). rewrite length_map, length_rev. by rewrite Nat.sub_diag.
Qed.

(** The pieces of a range that can be condensed. *)
Lemma condensable_parts l a b : descending l -> a <= b -> condensable l a b = true ->
  exists post fa mid lk pre, l = post ++ fa :: mid ++ lk :: pre /\ mid <> [] /\
    after b l = post ++ [fa] /\ within a b l = mid /\ turns_before a l = lk :: pre.
Proof.
  intros Hd Hab Hc. pose proof (descending_split a b l Hd Hab) as El. destruct l as [|leaf l']; [done|]. cbn -[List.filter present] in Hc.
  set (l := leaf :: l') in *. rewrite !andb_true_iff in Hc. destruct Hc as [[[Pa Pb] Hlive] Hex].
  destruct (within_ends l a b Hd Hab Pa Pb) as (z & m & m' & z' & Ez & _).
  destruct (after b l) as [|c0 C] eqn:Eaft.
  { exfalso. assert (leaf ∈ after b l) as Hin by (apply elem_of_filter_bool; split; [by left|done]). rewrite Eaft in Hin. by apply not_elem_of_nil in Hin. }
  destruct (exists_last (l := c0 :: C) ltac:(done)) as (post & fa & Epost).
  destruct (turns_before a l) as [|lk pre] eqn:Ebef.
  { exfalso. change (existsb (fun e => e_turn e <? a) l = true) in Hex. apply existsb_exists in Hex as (e & He & Ht).
    assert (e ∈ turns_before a l) as Hin by (apply elem_of_filter_bool; rewrite list_elem_of_In; by split). rewrite Ebef in Hin. by apply not_elem_of_nil in Hin. }
  exists post, fa, (within a b l), lk, pre. split_all; try done; [|by rewrite Ez]. rewrite El at 1. by rewrite Epost, <- app_assoc.
Qed.

Section CondenseTheorem.
Context {J : Json1} (cast_integer : cstring -> cstring).

Lemma branch_load_rows t sid l : hist_ok t -> session_hist t sid l -> (length l <= BRANCH_MAX)%nat -> branch_load t sid = map row (rev l).
Proof.
  intros Hok H Hn. assert (Hneg : leaf_of t sid < 0 -> l = []).
  { intros Hl. pose proof (sh_chain _ _ _ H) as Hc. destruct l as [|e l]; [done|]. destruct Hc as [Hc _]. by rewrite (get_entry_fresh t Hok) in Hc by lia. }
  unfold branch_load. destruct (get_session t sid) as [s|] eqn:Es.
  - destruct (Z.ltb_spec (x_leaf s) 0) as [Hl|Hl].
    + rewrite Hneg; [done|]. unfold leaf_of. by rewrite Es.
    + rewrite (hist_branch t sid l); [done|done|]. apply Nat.min_glb; [by apply (hist_length t sid)|done].
  - rewrite Hneg; [done|]. unfold leaf_of. by rewrite Es.
Qed.

Definition condense_asked (l : list Entry) (agent owner summary : option cstring) (from_turn to_turn : Z) : Prop :=
  (exists s, summary = Some s /\ s <> []) /\ owner = agent /\ 1 <= from_turn <= to_turn /\ condensable l from_turn to_turn = true.

(** The turns from [a] to [b] of the branch [l] are one entry that holds the summary. *)
Definition condensed (t t' : Store) (sid : Z) (l : list Entry) (summary coda : option cstring) (a b : Z) : Prop :=
  exists s, summary = Some s /\
    map e_id (plan_branch t' sid) = map e_id (rev (turns_before a l)) ++ [t_next_entry t] ++ map e_id (rev (after b l)) /\
    option_map e_content (get_entry t' (t_next_entry t)) = Some (Some (with_coda s coda)) /\
    forall k, k <> sid -> plan_branch t' k = plan_branch t k.

Lemma condense_effect t sid l s coda a b : hist_ok t -> session_hist t sid l -> a <= b -> condensable l a b = true ->
  let rows := map row (rev l) in
  let (cid, t') := entry_compact t sid (row_id rows (length (turns_before a l) - 1))
                     (row_id rows (length (turns_before a l) + length (within a b l))) (with_coda s coda) in
  0 < cid /\ hist_ok t' /\ condensed t t' sid l (Some s) coda a b.
Proof.
  intros Hok Hl Hab Ec. destruct (condensable_parts l a b (sh_turns _ _ _ Hl) Hab Ec) as (post & fa & mid & lk & pre & El & Hmid & Eaf & Ew & Ebe).
  cbv zeta. unfold condensed. rewrite Eaf, Ebe, Ew. rewrite El in *. cbn [length]. rewrite Nat.sub_succ, Nat.sub_0_r.
  destruct (row_ids post fa mid lk pre) as [-> ->]. set (content := with_coda s coda).
  pose proof (compact_ok t sid content post mid pre fa lk Hok Hl) as Hok'.
  pose proof (compact_hist t sid content post mid pre fa lk Hok Hl) as Hl'. pose proof (compact_other t sid content post mid pre fa lk Hok Hl) as Hother.
  pose proof (compact_content t sid content post mid pre fa lk Hok Hl) as Hcontent.
  pose proof (compact_id t sid content fa lk) as Hid. destruct (entry_compact t sid (e_id lk) (e_id fa) content) as [cid t'].
  cbn [fst snd] in *. subst cid. split; [apply (ho_next _ Hok)|]. split; [done|].
  exists s. split; [done|]. rewrite (hist_plan_branch _ _ _ Hl'). split; [|split].
  - rewrite !rev_app_distr. cbn [rev]. rewrite !map_app. cbn [map with_parent e_id]. by rewrite <- !app_assoc.
  - done.
  - intros k Hk. destruct (ho_branch _ Hok k) as [lo Hlo]. rewrite (hist_plan_branch t k lo Hlo). apply hist_plan_branch. by apply Hother.
Qed.

(** (C24) Condensing. Over a well-formed tree the tool succeeds exactly when the caller owns the
    session, gives a summary and names a range of turns of its branch in order that neither
    begins with the oldest nor reaches the live one, and the transaction commits; the
    refusal of a range that is not contiguous never comes.  A refusal changes nothing.  A
    success replaces exactly the entries of those turns by one entry with the summary and
    the coda, and leaves every other branch alone. *)
Theorem condense_correct commits t sid agent args coda : hist_ok t -> (length (plan_branch t sid) <= BRANCH_MAX)%nat ->
  let from_turn := tool_args_int cast_integer args (bs "from_turn") (-1) in
  let to_turn := tool_args_int cast_integer args (bs "to_turn") (-1) in
  let summary := tool_args_str args (bs "summary") in
  let l := session_branch (length (t_entries t)) t sid in
  let '(err, _, t') := tool_session_condense_handler cast_integer commits t sid agent args coda in
  hist_ok t' /\
  (err = false <-> commits = true /\ condense_asked l (Some agent) (session_owner t sid) summary from_turn to_turn) /\
  (err = true -> t' = t) /\
  (err = false -> condensed t t' sid l summary coda from_turn to_turn).
Proof.
  intros Hok Hlen. cbv zeta. destruct (ho_branch _ Hok sid) as [l Hl]. rewrite (hist_plan_branch t sid l Hl), length_rev in Hlen.
  rewrite (hist_branch t sid l _ Hl) by (by apply (hist_length t sid)). set (a := tool_args_int _ _ _ _). set (b := tool_args_int _ _ _ _).
  unfold tool_session_condense_handler. fold a b. set (summary := tool_args_str args (bs "summary")).
  assert (Hrefuse : ~ (commits = true /\ condense_asked l (Some agent) (session_owner t sid) summary a b) ->
    hist_ok t /\ (true = false <-> commits = true /\ condense_asked l (Some agent) (session_owner t sid) summary a b) /\
    (true = true -> t = t) /\ (true = false -> condensed t t sid l summary coda a b)).
  { intros Hno. split; [done|]. split; [split; [done|]|done]. intros Hy. by destruct Hno. }
  destruct summary as [[|s0 s]|] eqn:Es.
  1, 3: refine (Hrefuse _); intros (_ & (x & Hx & Hne) & _); congruence.
  destruct ((a <? 1) || (b <? 1)) eqn:E1; [refine (Hrefuse _); intros (_ & _ & _ & ? & _); lia|].
  destruct (a >? b) eqn:E2; [refine (Hrefuse _); intros (_ & _ & _ & ? & _); lia|].
  destruct (bool_decide (session_owner t sid = Some agent)) eqn:E3; cbn [negb];
    [apply bool_decide_eq_true in E3|apply bool_decide_eq_false in E3; refine (Hrefuse _); intros (_ & _ & Ho & _); congruence].
  rewrite (branch_load_rows t sid l Hok Hl Hlen). destruct (decide (l = [])) as [Hnil|Hne].
  { revert Hrefuse. rewrite Hnil. intros Hrefuse. refine (Hrefuse _). by intros (_ & _ & _ & _ & Hc). }
  pose proof (condense_range_spec l a b (sh_turns _ _ _ Hl) Hne ltac:(lia)) as Hrange.
  destruct (map row (rev l)) as [|r0 rows] eqn:Er.
  { apply (f_equal length) in Er. rewrite length_map, length_rev in Er. by destruct l. }
  rewrite <- Er in *. destruct (condensable l a b) eqn:Ec.
  2: { destruct Hrange as [err ->]. refine (Hrefuse _). intros (_ & _ & _ & _ & Hc). congruence. }
  rewrite Hrange. destruct commits; [|refine (Hrefuse _); by intros [? _]]. cbn [condense_commit].
  pose proof (condense_effect t sid l (s0 :: s) coda a b Hok Hl ltac:(lia) Ec) as Heff. cbv zeta in Heff.
  replace (S (length (turns_before a l) + length (within a b l) - 1)) with (length (turns_before a l) + length (within a b l))%nat.
  2: { destruct (condensable_parts l a b (sh_turns _ _ _ Hl) ltac:(lia) Ec) as (? & ? & mid & ? & ? & _ & Hmid & _ & -> & _). destruct mid; [done|cbn; lia]. }
  destruct (entry_compact _ _ _ _ _) as [cid t']. destruct Heff as (Hpos & Hok' & Hcond). destruct (Z.leb_spec cid 0); [lia|].
  split; [done|]. split; [split; [intros _|done]|done]. split; [done|]. split; [by exists (s0 :: s)|]. split; [done|]. split; [lia|done].
Qed.
End CondenseTheorem.

(** ** Runs *)
(** The tables and, per session, the place of the summary that is being written. *)
Record Hist := mk_hist { h_store : Store; h_pending : Z -> option (Z * Z) }.

Definition set_pending (sid : Z) (p : option (Z * Z)) (f : Z -> option (Z * Z)) : Z -> option (Z * Z) :=
  fun k => if k =? sid then p else f k.

(** Appends at the leaves, writes that touch neither entries nor leaves, and the steps of the
    two rewrites, between which the others run.  One session has one of them at a time. *)
Inductive hist_step (m : Hist) : Hist -> Prop :=
| hs_append sid it ty role c call tool err stop src note : ty <> TCompaction ->
    hist_step m (mk_hist (snd (insert_entry (h_store m) sid (leaf_of (h_store m) sid) it ty role c call tool err stop src note)) (h_pending m))
| hs_same t : t_entries t = t_entries (h_store m) -> t_next_entry t = t_next_entry (h_store m) ->
    (forall k, leaf_of t k = leaf_of (h_store m) k) -> hist_step m (mk_hist t (h_pending m))
| hs_plan k sid trigger window head bodies suppressed cfg target a b text : h_pending m sid = None ->
    compaction_start k (h_store m) sid trigger window head bodies suppressed cfg target = AtCall a b text ->
    hist_step m (mk_hist (h_store m) (set_pending sid (Some (a, b)) (h_pending m)))
| hs_range sid from_turn to_turn first last : h_pending m sid = None -> from_turn <= to_turn ->
    (length (plan_branch (h_store m) sid) <= BRANCH_MAX)%nat -> plan_branch (h_store m) sid <> [] ->
    condense_range (branch_load (h_store m) sid) from_turn to_turn = inl (first, last) ->
    hist_step m (mk_hist (h_store m) (set_pending sid
      (Some (row_id (branch_load (h_store m) sid) (first - 1), row_id (branch_load (h_store m) sid) (S last))) (h_pending m)))
| hs_finish sid a b summary coda : h_pending m sid = Some (a, b) ->
    hist_step m (mk_hist (snd (compaction_finish (h_store m) sid a b (Some summary) coda)) (set_pending sid None (h_pending m)))
| hs_abort sid : hist_step m (mk_hist (h_store m) (set_pending sid None (h_pending m))).

Definition run_hist_ok (m : Hist) : Prop :=
  hist_ok (h_store m) /\ forall sid a b, h_pending m sid = Some (a, b) -> spot (h_store m) sid a b.

Lemma finish_store t sid a b s coda : snd (compaction_finish t sid a b (Some s) coda) = snd (entry_compact t sid a b (with_coda s coda)).
Proof. unfold compaction_finish. by destruct (entry_compact _ _ _ _ _). Qed.

Lemma same_hist t t' k l : t_entries t' = t_entries t -> t_next_entry t' = t_next_entry t -> (forall k, leaf_of t' k = leaf_of t k) ->
  session_hist t k l -> session_hist t' k l.
Proof.
  intros He Hn Hl H. assert (Hg : get_entry t' = get_entry t) by (unfold get_entry; by rewrite He).
  split; [rewrite Hg, Hl; apply H|rewrite Hl, Hn; apply H|apply H|apply H|]. rewrite He. apply (sh_newest _ _ _ H).
Qed.

Lemma range_spot t sid a b first last : hist_ok t -> a <= b -> (length (plan_branch t sid) <= BRANCH_MAX)%nat -> plan_branch t sid <> [] ->
  condense_range (branch_load t sid) a b = inl (first, last) ->
  spot t sid (row_id (branch_load t sid) (first - 1)) (row_id (branch_load t sid) (S last)).
Proof.
  intros Hok Hab Hlen Hne Hr. destruct (ho_branch _ Hok sid) as [l Hl]. rewrite (hist_plan_branch t sid l Hl) in Hlen, Hne. rewrite length_rev in Hlen.
  rewrite (branch_load_rows t sid l Hok Hl Hlen) in *. assert (l <> []) as Hne' by (intros ->; by apply Hne).
  pose proof (condense_range_spec l a b (sh_turns _ _ _ Hl) Hne' Hab) as Hs. destruct (condensable l a b) eqn:Ec; [|destruct Hs as [err Hs]; congruence].
  rewrite Hs in Hr. injection Hr as <- <-.
  destruct (condensable_parts l a b (sh_turns _ _ _ Hl) Hab Ec) as (post & fa & mid & lk & pre & El & Hmid & _ & Ew & Eb).
  rewrite Ew, Eb. cbn [length]. rewrite Nat.sub_succ, Nat.sub_0_r. replace (S (S (length pre) + length mid - 1)) with (S (length pre) + length mid)%nat by lia.
  rewrite El. destruct (row_ids post fa mid lk pre) as [-> ->]. exists post, fa, mid, lk, pre. by rewrite <- El.
Qed.

Lemma hist_step_ok m m' : run_hist_ok m -> hist_step m m' -> run_hist_ok m'.
Proof.
  intros [Hok Hp] Hs. destruct Hs as [sid it ty role c call tool err stop src note Hty|t He Hn Hl|k sid trigger window head bodies suppressed cfg target a b text _ Hc
    |sid from_turn to_turn first last _ Hab Hlen Hne Hr|sid a b summary coda Hf|sid]; split; cbn [h_store h_pending].
  - by apply append_ok.
  - intros k a b (post & fa & mid & lk & pre & H & Hrest)%Hp.
    pose proof (append_hist (h_store m) sid it ty role c call tool err stop src note Hty Hok k _ H) as H'. destruct (_ && _).
    + by exists (mk_entry (t_next_entry (h_store m)) sid (leaf_of (h_store m) sid) (turn_for (h_store m) sid (leaf_of (h_store m) sid) role)
        it ty role c call tool err stop src note :: post), fa, mid, lk, pre.
    + by exists post, fa, mid, lk, pre.
  - split; rewrite ?He, ?Hn; try apply Hok. intros k. destruct (ho_branch _ Hok k) as [l H]. exists l. by apply (same_hist (h_store m)).
  - intros k a b (post & fa & mid & lk & pre & H & Hrest)%Hp. exists post, fa, mid, lk, pre. split; [by apply (same_hist (h_store m))|done].
  - done.
  - intros k' a' b'. unfold set_pending. destruct (Z.eqb_spec k' sid) as [->|]; [|by apply Hp]. intros [= <- <-]. by apply compaction_spot in Hc.
  - done.
  - intros k' a' b'. unfold set_pending. destruct (Z.eqb_spec k' sid) as [->|]; [|by apply Hp]. intros [= <- <-]. by apply (range_spot _ _ from_turn to_turn).
  - rewrite finish_store. destruct (Hp _ _ _ Hf) as (post & fa & mid & lk & pre & H & <- & <- & _). by apply (compact_ok _ _ _ post mid pre).
  - rewrite finish_store. destruct (Hp _ _ _ Hf) as (post & fa & mid & lk & pre & H & <- & <- & _). intros k a b. unfold set_pending.
    destruct (Z.eqb_spec k sid) as [->|Hk]; [done|]. intros (post' & fa' & mid' & lk' & pre' & H' & Hrest)%Hp.
    exists post', fa', mid', lk', pre'. split; [|done]. by apply (compact_other _ _ _ post mid pre).
  - done.
  - intros k a b. unfold set_pending. destruct (_ =? _); [done|]. apply Hp.
Qed.

Lemma with_parent_self e : with_parent (e_parent e) e = e.
Proof. by destruct e. Qed.

Lemma with_parent_twice p q e : with_parent p (with_parent q e) = with_parent p e.
Proof. done. Qed.

Lemma step_keeps m m' e : hist_step m m' -> e ∈ t_entries (h_store m) -> exists p, with_parent p e ∈ t_entries (h_store m').
Proof.
  intros Hs He. destruct Hs as [sid it ty role c call tool err stop src note Hty|t Ht Hn Hl| | |sid a b summary coda Hf|sid]; cbn [h_store];
    try (exists (e_parent e); by rewrite with_parent_self).
  - exists (e_parent e). rewrite insert_entry_entries, with_parent_self. apply elem_of_app. by left.
  - exists (e_parent e). by rewrite Ht, with_parent_self.
  - rewrite finish_store. unfold entry_compact. destruct (insert_entry _ _ _ _ _ _ _ _ _ _ _ _ _) as [id t1] eqn:Ei. cbn [snd t_entries with_entries].
    assert (He1 : e ∈ t_entries t1).
    { pose proof (insert_entry_entries (h_store m) sid a None TCompaction ROLE_COMPACTION (Some (with_coda summary coda)) None None false 0 None None) as H.
      rewrite Ei in H. cbn in H. rewrite H. apply elem_of_app. by left. }
    exists (if (e_id e =? b) && (e_session e =? sid) then id else e_parent e). apply list_elem_of_fmap. exists e. split; [|done].
    destruct (_ && _); [done|by rewrite with_parent_self].
Qed.

Lemma runs_keep m m' e : rtc hist_step m m' -> e ∈ t_entries (h_store m) -> exists p, with_parent p e ∈ t_entries (h_store m').
Proof.
  intros H. revert e. induction H as [m|m1 m2 m3 Hs _ IH]; intros e He; [exists (e_parent e); by rewrite with_parent_self|].
  destruct (step_keeps m1 m2 e Hs He) as [p Hp]. destruct (IH _ Hp) as [q Hq]. exists q. by rewrite with_parent_twice in Hq.
Qed.

Definition blank (t : Store) : Prop := t_entries t = [] /\ 0 < t_next_entry t /\ forall k, leaf_of t k = -1.

Lemma runs_hist_ok t0 m : blank t0 -> rtc hist_step (mk_hist t0 (fun _ => None)) m -> run_hist_ok m.
Proof.
  intros (He & Hn & Hl) H. assert (forall m1 m2, rtc hist_step m1 m2 -> run_hist_ok m1 -> run_hist_ok m2) as Hall.
  { induction 1 as [|m1 m2 m3 Hs _ IH]; [done|]. intros Hm. apply IH. by apply (hist_step_ok m1). }
  apply (Hall _ _ H). split; [|done]. cbn [h_store]. split.
  - rewrite He. constructor.
  - done.
  - rewrite He. intros e Hx. by apply not_elem_of_nil in Hx.
  - intros k. exists []. split; [unfold chain, get_entry; by rewrite He|rewrite Hl; lia|constructor|done|done].
Qed.

(** The branch of a session, root first: ids once, of the session, turns in order, each
    entry under the one before it, and what the recursive query returns. *)
Definition branch_well_formed (t : Store) (sid : Z) (l : list Entry) : Prop :=
  NoDup (map e_id l) /\ Forall (fun e => e_session e = sid) l /\
  (forall i j x y, (i < j)%nat -> l !! i = Some x -> l !! j = Some y -> e_turn x <= e_turn y) /\
  (forall l1 x y l2, l = l1 ++ x :: y :: l2 -> e_parent y = e_id x) /\
  forall n, (length l <= n)%nat -> session_branch n t sid = rev l.

Lemma hist_well_formed t sid l : session_hist t sid l -> branch_well_formed t sid (rev l).
Proof.
  intros H. split; [|split; [|split; [|split]]].
  - rewrite map_rev. apply NoDup_ListNoDup, NoDup_rev, NoDup_ListNoDup. apply (chain_nodup _ _ _ (get_entry_keyed t) (sh_chain _ _ _ H)).
  - apply Forall_rev, H.
  - intros i j x y Hij Hx Hy. pose proof (take_drop_middle _ _ _ Hx) as Hmid. apply (f_equal (@rev _)) in Hmid. rewrite rev_involutive, rev_app_distr in Hmid.
    cbn [rev] in Hmid. rewrite <- app_assoc in Hmid. pose proof (sh_turns _ _ _ H) as Hd. rewrite <- Hmid in Hd. apply descending_app in Hd as (_ & _ & Hd).
    apply (Hd y x); [|by left]. apply elem_of_rev. apply list_elem_of_lookup. exists (j - S i)%nat. rewrite lookup_drop.
    by replace (S i + (j - S i))%nat with j by lia.
  - intros l1 x y l2 El. apply (f_equal (@rev _)) in El. rewrite rev_involutive, rev_app_distr in El. cbn [rev] in El. rewrite <- !app_assoc in El. cbn [app] in El.
    pose proof (sh_chain _ _ _ H) as Hc. rewrite El in Hc. apply chain_tail in Hc as [_ Hc]; [|apply get_entry_keyed].
    by rewrite (chain_head _ _ _ _ (get_entry_keyed t) Hc).
  - intros n Hn. rewrite length_rev in Hn. rewrite rev_involutive. by apply hist_branch.
Qed.

(** (C23) The history of a session.  Under any interleaving of appends, other writes, compactions
    and condenses, each of which plans and later writes, the branch of every session is finite,
    repeats no entry and crosses no other session, its turns in order, so that the
    recursive queries end and return it; no entry is ever lost from the table; and when a summary
    is written it takes the place of at least one entry between its two neighbours, with the
    newer part, the leaf and every other session's branch as they were. *)
Theorem history_run t0 m0 m sid : blank t0 -> rtc hist_step (mk_hist t0 (fun _ => None)) m0 -> rtc hist_step m0 m ->
  let t := h_store m in
  branch_well_formed t sid (plan_branch t sid) /\
  (forall e, e ∈ t_entries (h_store m0) -> exists p, with_parent p e ∈ t_entries t) /\
  forall a b summary coda, h_pending m sid = Some (a, b) ->
    let '(rc, t') := compaction_finish t sid a b (Some summary) coda in
    rc = 0 /\ leaf_of t' sid = leaf_of t sid /\ (forall k, k <> sid -> plan_branch t' k = plan_branch t k) /\
    option_map e_content (get_entry t' (t_next_entry t)) = Some (Some (with_coda summary coda)) /\
    exists pre mid post, mid <> [] /\ map e_id (plan_branch t sid) = pre ++ [a] ++ mid ++ [b] ++ post /\
      map e_id (plan_branch t' sid) = pre ++ [a; t_next_entry t; b] ++ post.
Proof.
  intros Hb H0 H1. cbv zeta. assert (Hrun : run_hist_ok m) by (apply (runs_hist_ok t0); [done|by transitivity m0]). destruct Hrun as [Hok Hp].
  destruct (ho_branch _ Hok sid) as [l Hl]. split; [rewrite (hist_plan_branch _ _ _ Hl); by apply hist_well_formed|]. split; [intros e; by apply runs_keep|].
  intros a b summary coda Hpend. destruct (Hp _ _ _ Hpend) as (post & fa & mid & lk & pre & H & <- & <- & Hmid).
  set (content := with_coda summary coda). pose proof (compact_hist (h_store m) sid content post mid pre fa lk Hok H) as H'.
  pose proof (compact_other (h_store m) sid content post mid pre fa lk Hok H) as Hother.
  pose proof (compact_content (h_store m) sid content post mid pre fa lk Hok H) as Hcontent.
  pose proof (compact_leaf (h_store m) sid content fa lk sid) as Hleaf. pose proof (compact_id (h_store m) sid content fa lk) as Hid.
  unfold compaction_finish. fold content. destruct (entry_compact _ _ _ _ _) as [id t']. cbn [fst snd] in *. subst id.
  pose proof (ho_next _ Hok) as Hn. replace (t_next_entry (h_store m) >? 0) with true by lia. split; [done|]. split; [done|]. split; [|split].
  - intros k Hk. destruct (ho_branch _ Hok k) as [lo Hlo]. rewrite (hist_plan_branch _ k lo Hlo). apply hist_plan_branch. by apply Hother.
  - done.
  - exists (map e_id (rev pre)), (map e_id (rev mid)), (map e_id (rev post)). split; [|split].
    + intros Hz. apply (f_equal length) in Hz. rewrite length_map, length_rev in Hz. by destruct mid.
    + rewrite (hist_plan_branch _ _ _ H), !rev_app_distr. cbn [rev]. rewrite rev_app_distr. cbn [rev]. rewrite !map_app. cbn [map]. by rewrite <- !app_assoc.
    + rewrite (hist_plan_branch _ _ _ H'), !rev_app_distr. cbn [rev]. rewrite !map_app. cbn [map with_parent e_id]. by rewrite <- !app_assoc.
Qed.

(** ** Concrete histories *)
Section Demo.
Definition hist_blank : Store := demo_table [] (-1).
Definition hist_add (role : Z) (text : cstring) (t : Store) : Store :=
  snd (insert_entry t 1 (leaf_of t 1) None TOther role (Some text) None None false 0 None None).
Definition hist_turn (text : cstring) (t : Store) : Store := hist_add ROLE_ASSISTANT (bs "ok") (hist_add ROLE_USER text t).
Definition hist_demo : Store := hist_turn (bs "d") (hist_turn (bs "c") (hist_turn (bs "b") (hist_turn (bs "a") hist_blank))).

Lemma hist_blank_ok : blank hist_blank.
Proof. split; [done|]. split; [done|]. intros k. unfold leaf_of, get_session. cbn -[Z.eqb]. by destruct (1 =? k). Qed.

Lemma hist_turn_steps text t p : rtc hist_step (mk_hist t p) (mk_hist (hist_turn text t) p).
Proof.
  eapply rtc_l; [apply (hs_append (mk_hist t p) 1 None TOther ROLE_USER (Some text) None None false 0 None None); done|]. cbn [h_store h_pending].
  apply rtc_once. apply (hs_append (mk_hist (hist_add ROLE_USER text t) p) 1 None TOther ROLE_ASSISTANT (Some (bs "ok")) None None false 0 None None). done.
Qed.

Lemma hist_demo_steps : rtc hist_step (mk_hist hist_blank (fun _ => None)) (mk_hist hist_demo (fun _ => None)).
Proof.
  unfold hist_demo. etrans; [|apply hist_turn_steps]. etrans; [|apply hist_turn_steps]. etrans; [|apply hist_turn_steps]. apply hist_turn_steps.
Qed.

Lemma hist_demo_ok : hist_ok hist_demo.
Proof. exact (proj1 (runs_hist_ok _ _ hist_blank_ok hist_demo_steps)). Qed.

Definition hist_start : CompactionAttempt :=
  compaction_start demo_columns hist_demo 1 (demo_trigger 400) 1000 0 (fun _ => 0) [] (mk_pconfig 0 400) 300.
Definition hist_planned : Hist := mk_hist hist_demo (set_pending 1 (Some (7, 11)) (fun _ => None)).

Lemma hist_start_call : exists text, hist_start = AtCall 7 11 text.
Proof. eexists. vm_compute. reflexivity. Qed.

Lemma plan_step t p k sid trigger window head bodies suppressed cfg target a b text : p sid = None ->
  compaction_start k t sid trigger window head bodies suppressed cfg target = AtCall a b text ->
  hist_step (mk_hist t p) (mk_hist t (set_pending sid (Some (a, b)) p)).
Proof. intros Hp H. exact (hs_plan (mk_hist t p) k sid trigger window head bodies suppressed cfg target a b text Hp H). Qed.

Lemma hist_planned_steps : rtc hist_step (mk_hist hist_demo (fun _ => None)) hist_planned.
Proof.
  destruct hist_start_call as [text E]. unfold hist_start in E. unfold hist_planned. apply rtc_once. by eapply plan_step; [|exact E].
Qed.

(** Four turns: the first entry and the last two turns stay, the rest is summarised. *)
Lemma history_run_witness :
  map e_id (plan_branch hist_demo 1) = [7; 8; 9; 10; 11; 12; 13; 14] /\
  let '(rc, t') := compaction_finish hist_demo 1 7 11 (Some (bs "sum")) (Some (bs "coda")) in
  rc = 0 /\ map e_id (plan_branch t' 1) = [7; 15; 11; 12; 13; 14] /\ leaf_of t' 1 = leaf_of hist_demo 1.
Proof.
  split; [vm_compute; reflexivity|].
  pose proof (history_run hist_blank (mk_hist hist_demo (fun _ => None)) hist_planned 1 hist_blank_ok hist_demo_steps hist_planned_steps) as (_ & _ & H).
  specialize (H 7 11 (bs "sum") (Some (bs "coda")) eq_refl). cbn [h_store hist_planned] in H.
  destruct (compaction_finish hist_demo 1 7 11 (Some (bs "sum")) (Some (bs "coda"))) as [rc t'] eqn:E. destruct H as (Hrc & Hleaf & _).
  split; [exact Hrc|]. split; [|exact Hleaf]. apply (f_equal snd) in E. cbn [snd] in E. rewrite <- E. vm_compute. reflexivity.
Defined.

Definition condense_json : Json1 :=
  demo_json [(bs "{}", JObj [(bs "summary", JText (bs "sum")); (bs "from_turn", JNum (bs "2")); (bs "to_turn", JNum (bs "3"))])].
Definition condense_demo (agent : cstring) : bool * cstring * Store :=
  @tool_session_condense_handler condense_json (fun x => x) true hist_demo 1 agent (Some (bs "{}")) None.

(** Turns 2 and 3 of the four. *)
Lemma condense_correct_witness :
  let '(err, _, t') := condense_demo (bs "a") in
  err = false /\ map e_id (plan_branch t' 1) = [7; 8; 15; 13; 14] /\
  condensed hist_demo t' 1 (session_branch (length (t_entries hist_demo)) hist_demo 1) (Some (bs "sum")) None 2 3.
Proof.
  assert (Hlen : (length (plan_branch hist_demo 1) <= BRANCH_MAX)%nat).
  { unfold BRANCH_MAX. replace (length (plan_branch hist_demo 1)) with 8%nat by (vm_compute; reflexivity). lia. }
  pose proof (@condense_correct condense_json (fun x => x) true hist_demo 1 (bs "a") (Some (bs "{}")) None hist_demo_ok Hlen) as H. cbv zeta in H.
  change (@tool_session_condense_handler condense_json (fun x => x) true hist_demo 1 (bs "a") (Some (bs "{}")) None) with (condense_demo (bs "a")) in H.
  destruct (condense_demo (bs "a")) as [[err text] t'] eqn:E. destruct H as (_ & _ & _ & H).
  assert (err = false) as -> by (apply (f_equal (fun r => fst (fst r))) in E; cbn [fst] in E; rewrite <- E; vm_compute; reflexivity).
  split; [done|]. split; [apply (f_equal snd) in E; cbn [snd] in E; rewrite <- E; vm_compute; reflexivity|]. exact (H eq_refl).
Defined.
End Demo.

(** The excerpt stops at 100000 bytes, the range it stands for does not: whatever comes after is
    replaced by a summary of a text it is not in. *)
Lemma excerpt_stops t sid l1 l2 text : COMPACTION_TEXT_MAX <= zlen (excerpt t sid l1 text) ->
  excerpt t sid (l1 ++ l2) text = excerpt t sid l1 text.
Proof.
  revert text. induction l1 as [|e l1 IH]; intros text; cbn [app excerpt].
  - intros H. destruct l2 as [|e l2]; [done|]. cbn [excerpt]. by rewrite (proj2 (Z.ltb_ge _ _) H).
  - destruct (zlen text <? COMPACTION_TEXT_MAX) eqn:E; [|done]. apply IH.
Qed.
